(* ===== verification/_CoqProject ===== *)
-Q . S2P
Prelude.v
WearLeveling.v
WearLevelingSpec.v
WearLevelingLog.v
WearLevelingRefine.v
WearLevelingSafety.v
WearLevelingArray.v
Bitwise.v
Keycodes.v
Report.v
State.v
Host.v
ActionUtil.v
ActionCode.v
Keymap.v
ActionLayer.v
Oneshot.v
Action.v
Tapping.v
ActionUtilSpec.v
KeymapSpec.v
TypingSpec.v
Closure.v
Invariant.v
LayerSpec.v
OneshotSpec.v
TappingSpec.v
Private.v
TapHoldSpec.v
Sample.v
Debounce.v
DebounceLoops.v
DebounceSim.v
DebounceSpec.v
DebounceTheorems.v
Eeprom.v
SendString.v
DynamicKeymap.v
DynamicKeymapSpec.v
DynamicMacros.v
Via.v
ViaInit.v
Feature.v
EEConfig.v
KeyLock.v
LayerLock.v
CapsWord.v
MacroRecorder.v
MacroPlay.v
DeferredExec.v
Encoder.v
Quantum.v
Unicode.v
UnicodeSpec.v
Ucis.v
GraveEscape.v
TriLayer.v
TapDance.v
Autocorrect.v
AutocorrectSpec.v
AutocorrectTyping.v
Secure.v
KeyOverride.v
Leader.v
SpaceCadet.v
RepeatKey.v
Achordion.v
AutoShift.v
Combo.v
ComboSpec.v
Mousekey.v
Matrix.v
MatrixSpec.v
KeyPath.v
EepromSample.v
UnicodeSample.v
FeatureSample.v
ComboSample.v
KeyPathSample.v
