(* ===== verification/Prelude.v ===== *)
(** * QMK firmware: a verification development

    The firmware of a keyboard scans its matrix, debounces it, turns each
    change into a key event, gives the event a meaning (an action) by the
    layers that are on and by whether the key is tapped or held, and sends HID
    reports to the host.  This development models that path, from the pins to
    the reports the host receives, the features that stand in it (combos, tap
    dances, autocorrect and others), and the emulated EEPROM that the settings
    are kept in.

    ** The program and the files

    - The switches (quantum/matrix.c, matrix_common.c, keyboard.c).  [Matrix]:
      the scan of the three kinds of board, the debounce algorithm as the class
      [Debouncer], and [matrix_task]; the pins are a parameter.  [MatrixSpec]:
      the scan reads the switches and the task gives the core what changed.
      [KeyPath]: scan, debounce and task together; [KeyPathSample]: witnesses,
      of debouncing too.
    - Debouncing (quantum/debounce/*.c).  [Debounce]: the seven algorithms, one
      [debounce] each, on the static variables of their file and the cooked
      rows.  [DebounceLoops]: what each pass does to one key.  [DebounceSim]:
      the algorithms with counters refine one timed automaton per key; the
      interface between the two halves of that argument is the class
      [KeyLaws].  [DebounceSpec], [DebounceTheorems]: what this means for a key
      over any sequence of scans.
    - Keycodes and actions as data.  [Keycodes] (quantum/keycodes.h,
      quantum_keycodes.h): values, ranges, usages.  [ActionCode]
      (quantum/action_code.h): the 16-bit action union.  [Keymap]
      (quantum/keymap_common.c, keycode_config.c): from a key of a layer to its
      action; [KeymapSpec]: what each family of keycodes decodes to.
    - The state of the core.  [State]: one record per C file with its static
      variables, the compile-time configuration as the class [Config], the weak
      functions and tables of a keyboard as the class [Hooks], and the trace of
      calls that leave the modelled code ([output]).  A C function is a
      computation of the state monad [stm keyboard] of [Prelude]; a record
      passed by reference is passed and returned.
    - Layers (quantum/action_layer.c).  [ActionLayer]; [LayerSpec].
    - Modifiers, one-shot keys and report sending (quantum/action_util.c,
      tmk_core/protocol/host.c, report.c).  [Report], [Host], [ActionUtil],
      [Oneshot]; [ActionUtilSpec], [TypingSpec], [OneshotSpec].
    - Actions (quantum/action.c).  [Action]: every action kind,
      [process_record], hand swapping and [action_exec].
    - Tap or hold (quantum/action_tapping.c).  [Tapping]: [process_tapping], the
      waiting buffer, Chordal Hold; a [keyrecord_t *] is a [record_ref], so that
      the tapping key, the buffer and the parameter alias as in the code.
      [TappingSpec]: the buffer as a queue; [Private]: nothing outside the file
      touches its state; [TapHoldSpec]: the decisions.
    - The core as a whole.  [Closure]: the invariants every function keeps;
      [Invariant]: [keyboard_ok], kept by any sequence of events; [Sample]: the
      state at power on, a small board on which all of it is run, and the
      witnesses.
    - The emulated EEPROM (quantum/wear_leveling/wear_leveling.c).
      [WearLeveling]: the code over a device that is the class [BackingStore];
      [WearLevelingLog]: the entries of the write log; [WearLevelingSpec],
      [WearLevelingRefine], [WearLevelingArray]: with a working device
      ([BackingStoreOk]) it is an array of bytes that survives power cycles;
      [WearLevelingSafety]: what holds for any device.
    - [Bitwise] (quantum/bitwise.c).
    - EEPROM contents.  [Eeprom] (drivers/eeprom/eeprom_driver.c): the class of
      drivers [EepromDriver], its contract [EepromOk] (an array of bytes), and
      the emulated EEPROM as an instance.  [DynamicKeymap], [DynamicKeymapSpec],
      [DynamicMacros] (quantum/dynamic_keymap.c): keymap, encoder map and macros
      kept there; [SendString] (quantum/send_string/send_string.c) types them.
      [Via], [ViaInit] (quantum/via.c): the packets and the initialisation.
      [EEConfig] (quantum/eeconfig.c, process_magic.c): the fields, their
      defaults, the start of the keyboard and the magic keycodes.
      [EepromSample]: a concrete layout, and the witnesses.
    - Features on top of the core (quantum/process_keycode/*.c, called by
      process_record_quantum).  [Feature]: a feature's variables beside the
      keyboard, with [own] and [core] for the two halves of its state, and
      quantum/modifiers.h.  One file per feature: [KeyLock], [LayerLock],
      [CapsWord], [MacroRecorder] with [MacroPlay] (recorded macros), [Quantum]
      (modified keycodes, quantum.c), [Unicode] with [UnicodeSpec] and [Ucis],
      [GraveEscape], [TriLayer], [TapDance], [Autocorrect] with
      [AutocorrectSpec] and [AutocorrectTyping],
      [Secure], [KeyOverride], [Leader], [SpaceCadet], [RepeatKey], [Achordion],
      [AutoShift], [Combo] with
      [ComboSpec].  [UnicodeSample], [FeatureSample], [ComboSample]: witnesses.
    - Beside the keys: [Encoder] (quantum/encoder.c), [Mousekey]
      (quantum/mousekey.c), [DeferredExec] (quantum/deferred_exec.c).

    ** How they interact

    [matrix_task] scans, debounces and passes each change to [action_exec],
    which swaps hands and passes a record to
    [action_tapping_process], which is a parameter [process] of it here only to
    cut the recursion of the files; [Invariant] and the samples apply it to
    the real one.  [process_tapping] decides and calls [process_record], which
    asks [store_or_get_action] for the action and runs it: layer actions change
    the masks of [layers_state], key actions the report and the modifiers of
    [mods_state], and both end in [send_keyboard_report], whose reports are the
    [SendKeyboard] and [SendNkro] entries of [sent].  The callbacks of a
    keyboard are [Hooks]: a theorem that needs something of them says so with
    a class ([HooksKeep], [HooksPrivate]), which the empty callbacks satisfy.
    A feature is a function on a record that says whether the record goes on to
    the core; it calls the core by [core].  The order in which
    process_record_quantum calls the features is not modelled, each theorem is
    about one feature over the core.

    ** What the theorems show

    - Durability: the emulated EEPROM refines an array ([WearLevelingArray]);
      its codec round trips; its loops end; its accesses stay in bounds.
    - The switches: the events of a key alternate (safety), and a switch that
      stays as it is for the delay is what the core was told last (liveness).
    - Debouncing: each key follows its automaton (refinement), a key that stays
      put is reported (liveness), a deferred key never chatters (safety).
    - The core: the invariant of its masks, timers, buffers and reports over any
      events (type); a key is
      released with the action, and on the side, it was pressed with (safety);
      what is registered is what the host shows (functional); the layer of a
      key is the topmost one on which it is not transparent; one-shot layers
      refine a machine of four phases; tap, hold and nested tap handle the
      records that waited in the order in which they were typed.
    - EEPROM: the keymap is a table that survives in any array of bytes; its
      buffers round trip; a macro typed piece by piece is its text; packets of
      VIA; initialisation is safe against power failure; the switches of the
      magic keycodes survive a restart, and the first start sets the defaults.
    - Features: key lock refines a set of locked keys; layer lock turns exactly
      one lock per event; Caps Word types capitals until the word ends; a macro
      records what is typed and plays what it recorded, and macros that play or
      record each other stay apart in their buffer; a string of UTF-8 types
      its code points; every tap dance ends; autocorrect finds a typo exactly
      when the dictionary has it, and types the correction; the repeat key
      releases what it pressed unless it is pressed again before; a chord types its keycode, an incomplete one
      its keys; Achordion refines a machine of four phases; an auto-shifted key is
      typed with or without Shift; a key override replaces its trigger; the report of the mouse
      keys is the one of the set of keys that are down.
    - Errors: what the code does where it does not do what it means to, each a
      theorem named in the manifest's findings.

    ** Integers, bounds and fuel

    A C integer is a [Z] and every conversion that can lose bits is written
    ([u8], [u16], [u32], [i8]), and the width of int ([INT_BITS]) where its
    overflow can show; signed overflow wraps.  [keyboard_ok] says which
    variables of the core stay in their types.  Arrays are lists, read and
    written with stdpp's [!!] and [<[ := ]>]; the invariant keeps the indices
    into the waiting buffer and the registered taps inside, and a write that
    the code does not guard (the column of an encoder event) shows in the trace
    as [OutsideArray] when it is outside ([at_array]).  A loop that is not
    structural takes fuel: playback of the log takes one unit per word of the
    log and [playback_loop_fuel] shows that this is enough; [process_record] and
    [process_action] call each other at most twice ([process_record_fuel]);
    the waiting buffer holds at most seven records, so that its loops have fuel
    8 ([waiting_buffer_is_queue]); the ring of six key slots has fuel 6; the
    ring of combos has COMBO_BUFFER_LENGTH; a macro is played with one unit per
    slot of its buffer ([macro_plays_its_records]), and the recursion of macros
    that play macros has fuel of its own, which a macro that plays itself uses
    up ([process_recorded]; the invariant of the macros holds for any fuel); the ring of encoder events
    has MAX_QUEUED_ENCODER_EVENTS; a walk in the dictionary of autocorrect has
    its length; a string of UTF-8 has one unit per code point
    ([send_unicode_string_types]).  [process_record_repeating] is [None] where the
    recursion of the repeat key has used its fuel, and
    [repeat_recursion_never_ends] shows that no fuel is enough for a key that
    is its own alternate; in [process_record_achordion] any fuel from two on
    gives the same ([achordion_refines]).

    ** What is not modelled, and why

    USB and flash drivers (hardware access: the flash driver is a parameter);
    keyboards and keymaps (tables and callbacks: parameters); lighting, audio,
    displays, pointing devices and split transport (outside the path from key
    to report); Flow Tap, Retro Shift, EXTRA_SHORT_COMBOS and the boot protocol
    fields of MOUSE_EXTENDED_REPORT (the builds modelled do not compile them
    in); haptic feedback and OS detection; the
    Python tools.  Memory allocation in the debounce algorithms does not fail
    here. *)

From stdpp Require Export prelude list numbers option gmap.
From coqutil Require Export Datatypes.RecordSetters.
Export TriangleBracketNotations.
#[global] Open Scope Z_scope.
#[global] Arguments constant {E} newValue _ /.

(** ** Machine integers

    A C unsigned integer of [w] bits is a [Z] in [0, 2^w); the conversions
    below are the implicit and explicit conversions of the source. *)

Definition wrap (w : Z) (z : Z) : Z := z mod 2 ^ w.

Definition i_wrap (w : Z) (z : Z) : Z :=
  (z + 2 ^ (w - 1)) mod 2 ^ w - 2 ^ (w - 1).

Abbreviation u8 := (wrap 8).
Abbreviation u16 := (wrap 16).
Abbreviation u32 := (wrap 32).
Abbreviation u64 := (wrap 64).
Abbreviation i8 := (i_wrap 8).
Abbreviation i16 := (i_wrap 16).

(** C truth value of an integer and back. *)
Definition nz (z : Z) : bool := negb (z =? 0).

(** [x & ~m], [1 << n], and the test [x & (1 << n)]. *)
Definition clear_bits (x m : Z) : Z := Z.land x (Z.lnot m).
Definition bit (n : Z) : Z := Z.shiftl 1 n.

Lemma wrap_range w z : 0 <= w -> 0 <= wrap w z < 2 ^ w.
Proof. intros ?. apply Z.mod_pos_bound. lia. Qed.

Lemma i_wrap_range w z : 0 < w -> - 2 ^ (w - 1) <= i_wrap w z < 2 ^ (w - 1).
Proof.
  intros Hw. unfold i_wrap. replace (2 ^ w) with (2 * 2 ^ (w - 1)).
  - pose proof (Z.mod_pos_bound (z + 2 ^ (w - 1)) (2 * 2 ^ (w - 1))).
    assert (0 < 2 ^ (w - 1)) by (apply Z.pow_pos_nonneg; lia). lia.
  - rewrite <-Z.pow_succ_r by lia. f_equal. lia.
Qed.

Lemma i_wrap_small w z : - 2 ^ (w - 1) <= z < 2 ^ (w - 1) -> i_wrap w z = z.
Proof.
  intros Hz. assert (1 <= w) as Hw.
  { destruct (Z_lt_le_dec (w - 1) 0); [|lia]. rewrite Z.pow_neg_r in Hz; lia. }
  unfold i_wrap. replace (2 ^ w) with (2 * 2 ^ (w - 1)).
  - rewrite Z.mod_small; lia.
  - rewrite <-Z.pow_succ_r by lia. f_equal. lia.
Qed.

Lemma wrap_small w z : 0 <= z < 2 ^ w -> wrap w z = z.
Proof. apply Z.mod_small. Qed.

Lemma wrap_wrap w z : 0 <= w -> wrap w (wrap w z) = wrap w z.
Proof. intros ?. apply wrap_small, wrap_range; done. Qed.

Lemma nz_true z : nz z = true <-> z <> 0.
Proof. unfold nz. destruct (Z.eqb_spec z 0); naive_solver. Qed.

Lemma nz_false z : nz z = false <-> z = 0.
Proof. unfold nz. destruct (Z.eqb_spec z 0); naive_solver. Qed.

(** ** Bits *)

Lemma testbit_wrap w z i :
  0 <= w -> Z.testbit (wrap w z) i = bool_decide (i < w) && Z.testbit z i.
Proof.
  intros Hw. unfold wrap. case_bool_decide.
  - destruct (decide (i < 0)).
    + by rewrite !Z.testbit_neg_r by lia.
    + by rewrite Z.mod_pow2_bits_low by lia.
  - by rewrite Z.mod_pow2_bits_high by lia.
Qed.

(** A signed conversion keeps the low bits. *)
Lemma wrap_i_wrap w z : 0 < w -> wrap w (i_wrap w z) = wrap w z.
Proof.
  intros Hw. assert (0 < 2 ^ w) by (apply Z.pow_pos_nonneg; lia).
  unfold wrap, i_wrap. rewrite Zminus_mod_idemp_l. f_equal. lia.
Qed.

Lemma testbit_i_wrap w z i : 0 <= i < w -> Z.testbit (i_wrap w z) i = Z.testbit z i.
Proof.
  intros Hi. pose proof (f_equal (fun x => Z.testbit x i) (wrap_i_wrap w z ltac:(lia))) as E.
  cbv beta in E. rewrite !testbit_wrap, bool_decide_true in E by lia. exact E.
Qed.

Lemma i_wrap_add w x y : 0 < w -> i_wrap w (i_wrap w x + y) = i_wrap w (x + y).
Proof.
  intros Hw. pose proof (wrap_i_wrap w x Hw) as E. unfold wrap in E.
  unfold i_wrap at 1 3. f_equal.
  rewrite <-!Z.add_assoc, (Z.add_mod (i_wrap w x)), (Z.add_mod x), E by (apply Z.pow_nonzero; lia). done.
Qed.

Lemma wrap_of_i_wrap v w z : 0 <= v <= w -> wrap v (i_wrap w z) = wrap v z.
Proof.
  intros Hv. apply Z.bits_inj'. intros i Hi. rewrite !testbit_wrap by lia.
  case_bool_decide; [|done]. cbn [andb]. apply testbit_i_wrap. lia.
Qed.

Lemma testbit_bit n i :
  0 <= n -> Z.testbit (bit n) i = bool_decide (i = n).
Proof.
  intros Hn. unfold bit. rewrite Z.shiftl_1_l.
  case_bool_decide as H; [subst; by apply Z.pow2_bits_true|].
  by apply Z.pow2_bits_false.
Qed.

Lemma testbit_clear x m i :
  0 <= i -> Z.testbit (clear_bits x m) i = Z.testbit x i && negb (Z.testbit m i).
Proof. intros ?. unfold clear_bits. by rewrite Z.land_spec, Z.lnot_spec. Qed.

Lemma testbit_out_of_range w z i :
  0 <= z < 2 ^ w -> w <= i -> Z.testbit z i = false.
Proof.
  intros Hz Hi. rewrite <-(wrap_small w z) by done.
  destruct (decide (0 <= w)).
  - rewrite testbit_wrap by done. by rewrite bool_decide_false by lia.
  - rewrite Z.pow_neg_r in Hz by lia. lia.
Qed.

(** Two words are equal when they agree on every bit. *)
Lemma word_ext w a b :
  0 <= w -> 0 <= a < 2 ^ w -> 0 <= b < 2 ^ w ->
  (forall i, 0 <= i < w -> Z.testbit a i = Z.testbit b i) -> a = b.
Proof.
  intros Hw Ha Hb H. apply Z.bits_inj'. intros i Hi.
  destruct (decide (i < w)); [by apply H|].
  by rewrite !(testbit_out_of_range w) by (done || lia).
Qed.

(** A number whose high bits are clear is in range. *)
Lemma range_of_bits w z :
  0 <= w -> 0 <= z -> (forall i, w <= i -> Z.testbit z i = false) -> z < 2 ^ w.
Proof.
  intros Hw Hz H. assert (wrap w z = z) as <-.
  { apply Z.bits_inj'. intros i Hi. rewrite testbit_wrap by done.
    case_bool_decide; [done|]. by rewrite H by lia. }
  by apply wrap_range.
Qed.

Lemma land_range w a b : 0 <= w -> 0 <= a < 2 ^ w -> 0 <= Z.land a b < 2 ^ w.
Proof.
  intros Hw Ha. assert (0 <= Z.land a b) by (apply Z.land_nonneg; lia).
  split; [done|]. apply range_of_bits; [done..|].
  intros i ?. by rewrite Z.land_spec, (testbit_out_of_range w) by done.
Qed.

Lemma lor_range w a b :
  0 <= w -> 0 <= a < 2 ^ w -> 0 <= b < 2 ^ w -> 0 <= Z.lor a b < 2 ^ w.
Proof.
  intros Hw Ha Hb. assert (0 <= Z.lor a b) by (apply Z.lor_nonneg; lia).
  split; [done|]. apply range_of_bits; [done..|].
  intros i ?. by rewrite Z.lor_spec, !(testbit_out_of_range w) by done.
Qed.

Lemma lxor_range w a b :
  0 <= w -> 0 <= a < 2 ^ w -> 0 <= b < 2 ^ w -> 0 <= Z.lxor a b < 2 ^ w.
Proof.
  intros Hw Ha Hb. assert (0 <= Z.lxor a b) by (apply Z.lxor_nonneg; lia).
  split; [done|]. apply range_of_bits; [done..|].
  intros i ?. by rewrite Z.lxor_spec, !(testbit_out_of_range w) by done.
Qed.

Lemma clear_bits_range w a m :
  0 <= w -> 0 <= a < 2 ^ w -> 0 <= clear_bits a m < 2 ^ w.
Proof. apply land_range. Qed.

Lemma bit_range w n : 0 <= n < w -> 0 <= bit n < 2 ^ w.
Proof.
  intros ?. unfold bit. rewrite Z.shiftl_1_l. split; [lia|].
  apply Z.pow_lt_mono_r; lia.
Qed.

(** [x & (1 << n)] is nonzero exactly when bit [n] of [x] is set. *)
Lemma nz_land_bit x n : 0 <= n -> nz (Z.land x (bit n)) = Z.testbit x n.
Proof.
  intros Hn. destruct (Z.testbit x n) eqn:E.
  - apply nz_true. intros H0.
    assert (Z.testbit (Z.land x (bit n)) n = true) as H.
    { by rewrite Z.land_spec, testbit_bit, bool_decide_true, E. }
    rewrite H0, Z.bits_0 in H. done.
  - apply nz_false. apply Z.bits_inj'. intros i Hi.
    rewrite Z.land_spec, testbit_bit, Z.bits_0 by done.
    case_bool_decide; [by subst; rewrite E|]. by rewrite andb_false_r.
Qed.

Lemma shiftr_range w k a :
  0 <= k <= w -> 0 <= a < 2 ^ w -> 0 <= Z.shiftr a k < 2 ^ (w - k).
Proof.
  intros Hk Ha. rewrite Z.shiftr_div_pow2 by lia.
  split; [apply Z.div_pos; lia|].
  apply Z.div_lt_upper_bound; [lia|].
  rewrite <-Z.pow_add_r by lia.
  replace (k + (w - k)) with w by lia. lia.
Qed.

(** [x | y] is [x + y] when [y] fits below the bits of [x]. *)
Lemma lor_add n x y :
  0 <= n -> x mod 2 ^ n = 0 -> 0 <= y < 2 ^ n -> Z.lor x y = x + y.
Proof.
  intros Hn Hx Hy. symmetry. apply Z.add_nocarry_lor.
  apply Z.bits_inj'. intros i Hi.
  rewrite Z.land_spec, Z.bits_0. destruct (decide (i < n)).
  - rewrite <-(Z.mod_pow2_bits_low x n) by lia. by rewrite Hx, Z.bits_0.
  - rewrite (testbit_out_of_range n y) by lia. apply andb_false_r.
Qed.

Create HintDb qmk.
#[export] Hint Resolve wrap_range land_range lor_range lxor_range
  clear_bits_range bit_range : qmk.

Create Rewrite HintDb bits.
#[export] Hint Rewrite Z.land_spec Z.lor_spec Z.lxor_spec Z.bits_0 : bits.
#[export] Hint Rewrite testbit_wrap testbit_bit testbit_clear Z.shiftl_spec
  Z.shiftr_spec Z.lnot_spec using lia : bits.

Ltac bits := autorewrite with bits; repeat case_bool_decide; try lia;
  rewrite ?andb_false_r, ?andb_true_r, ?orb_false_r, ?orb_true_r,
    ?andb_false_l, ?andb_true_l, ?orb_false_l, ?orb_true_l.

(** Constant powers evaluated, and linear arithmetic with [/] and [mod]. *)
Ltac norm_pow :=
  repeat match goal with
  | |- context [?a ^ ?b] =>
      let v := eval vm_compute in (a ^ b) in
      lazymatch v with Z0 => idtac | Zpos _ => idtac end;
      change (a ^ b) with v
  | H : context [?a ^ ?b] |- _ =>
      let v := eval vm_compute in (a ^ b) in
      lazymatch v with Z0 => idtac | Zpos _ => idtac end;
      change (a ^ b) with v in H
  end.
Ltac dlia := norm_pow; Z.to_euclidean_division_equations; lia.

(** [Forall] on a list literal. *)
Ltac forall_list := repeat (apply Forall_cons_2; [done|]); apply Forall_nil_2.

(** Equality of list literals, element by element. *)
Ltac list_eq tac :=
  repeat match goal with
  | |- _ :: _ = _ :: _ => apply (f_equal2 cons); [tac|]
  end; try reflexivity.

(** Case analysis on the integer comparisons of a goal or hypothesis. *)
Ltac zcase :=
  match goal with
  | |- context [?a =? ?b] => destruct (Z.eqb_spec a b)
  | |- context [?a <? ?b] => destruct (Z.ltb_spec a b)
  | |- context [?a <=? ?b] => destruct (Z.leb_spec a b)
  | H : context [?a =? ?b] |- _ => destruct (Z.eqb_spec a b)
  | H : context [?a <? ?b] |- _ => destruct (Z.ltb_spec a b)
  | H : context [?a <=? ?b] |- _ => destruct (Z.leb_spec a b)
  end.

(** Statements about small ranges, decided by evaluation. *)
Definition all_below (n : Z) (P : Z -> bool) : bool := forallb P (seqZ 0 n).

Lemma all_below_spec n P i : all_below n P = true -> 0 <= i < n -> P i = true.
Proof.
  intros H Hi. apply (proj1 (forallb_forall _ _) H).
  apply list_elem_of_In, elem_of_seqZ. lia.
Qed.

(** ** Bytes in little-endian order *)

Fixpoint le_int (bs : list Z) : Z :=
  match bs with
  | [] => 0
  | b :: bs => b + 2 ^ 8 * le_int bs
  end.

Fixpoint le_bytes (n : nat) (z : Z) : list Z :=
  match n with
  | O => []
  | S n => u8 z :: le_bytes n (z / 2 ^ 8)
  end.

Definition is_byte (b : Z) : Prop := 0 <= b < 2 ^ 8.

Lemma is_byte_u8 z : is_byte (u8 z).
Proof. by apply wrap_range. Qed.
#[export] Hint Resolve is_byte_u8 : qmk.

Lemma length_le_bytes n z : length (le_bytes n z) = n.
Proof. revert z. induction n; intros z; simpl; auto. Qed.

Lemma le_bytes_is_byte n z : Forall is_byte (le_bytes n z).
Proof. revert z. induction n; intros z; simpl; auto with qmk. Qed.

Lemma le_bytes_int bs : Forall is_byte bs -> le_bytes (length bs) (le_int bs) = bs.
Proof.
  induction 1 as [|b bs Hb Hbs IH]; [done|]. unfold is_byte in Hb.
  cbn [le_int length le_bytes]. f_equal.
  - unfold wrap. rewrite Z.mul_comm, Z.mod_add by lia. by apply Z.mod_small.
  - rewrite Z.mul_comm, Z.div_add by lia.
    rewrite (Z.div_small b) by done. by rewrite Z.add_0_l.
Qed.

Lemma le_int_range bs : Forall is_byte bs -> 0 <= le_int bs < 2 ^ (8 * Z.of_nat (length bs)).
Proof.
  induction 1 as [|b bs Hb Hbs IH]; [simpl; lia|]. unfold is_byte in Hb.
  cbn [le_int length].
  replace (8 * Z.of_nat (S (length bs))) with (8 + 8 * Z.of_nat (length bs)) by lia.
  rewrite Z.pow_add_r by lia. nia.
Qed.

Lemma le_int_zero bs : Forall is_byte bs -> le_int bs = 0 -> Forall (fun b => b = 0) bs.
Proof.
  induction 1 as [|b bs Hb Hbs IH]; [done|]. cbn [le_int]. intros H.
  pose proof (le_int_range bs Hbs). unfold is_byte in Hb.
  constructor; [lia|]. apply IH. lia.
Qed.

(** ** Stateful code

    A C function over a state [S] that returns an [A] is a function
    [S -> A * S]; the notation is stdpp's monad notation. *)

Definition stm (S A : Type) : Type := S -> A * S.

#[global] Instance stm_ret {S} : MRet (stm S) := fun A a s => (a, s).
#[global] Instance stm_bind {S} : MBind (stm S) :=
  fun A B k m s => let r := m s in k r.1 r.2.

Definition gets {S A} (f : S -> A) : stm S A := fun s => (f s, s).
Definition modify {S} (f : S -> S) : stm S unit := fun s => (tt, f s).
Definition skip {S} : stm S unit := mret tt.
Definition when {S} (b : bool) (m : stm S unit) : stm S unit :=
  if b then m else skip.
(** The state after running a function, and its result. *)
Definition exec {S A} (m : stm S A) (s : S) : S := (m s).2.
Definition eval {S A} (m : stm S A) (s : S) : A := (m s).1.

Section stm.
Context {S : Type}.
Implicit Types (s : S) (P : S -> Prop).

Lemma exec_bind {A B} (m : stm S A) (k : A -> stm S B) s :
  exec (m ≫= k) s = exec (k (eval m s)) (exec m s).
Proof. done. Qed.

Lemma eval_bind {A B} (m : stm S A) (k : A -> stm S B) s :
  eval (m ≫= k) s = eval (k (eval m s)) (exec m s).
Proof. done. Qed.

(** Symbolic execution, one statement at a time. *)
Lemma run_bind {A B} (m : stm S A) (k : A -> stm S B) s a s' :
  m s = (a, s') -> (m ≫= k) s = k a s'.
Proof. intros H. unfold mbind, stm_bind. by rewrite H. Qed.
Lemma run_ret {A B} (a : A) (k : A -> stm S B) s : (mret a ≫= k) s = k a s.
Proof. done. Qed.
Lemma run_gets {A B} (f : S -> A) (k : A -> stm S B) s : (gets f ≫= k) s = k (f s) s.
Proof. done. Qed.
Lemma run_modify {B} f (k : unit -> stm S B) s : (modify f ≫= k) s = k tt (f s).
Proof. done. Qed.
Lemma run_skip {B} (k : unit -> stm S B) s : (skip ≫= k) s = k tt s.
Proof. done. Qed.
Lemma run_assoc {A B C} (m : stm S A) (k : A -> stm S B) (l : B -> stm S C) s :
  ((m ≫= k) ≫= l) s = (m ≫= (fun a => k a ≫= l)) s.
Proof. done. Qed.
Lemma run_eval {A B} (m : stm S A) (k : A -> stm S B) s :
  (m ≫= k) s = k (eval m s) (exec m s).
Proof. done. Qed.

Lemma run_cong {A B} (m : stm S A) (k k' : A -> stm S B) s :
  (forall a s, k a s = k' a s) -> (m ≫= k) s = (m ≫= k') s.
Proof. intros H. unfold mbind, stm_bind. apply H. Qed.

(** [preserves P m]: running [m] from a state satisfying [P] ends in one. *)
Definition preserves {A} P (m : stm S A) : Prop := forall s, P s -> P (exec m s).

Lemma preserves_ret {A} P (a : A) : preserves P (mret a).
Proof. by intros s. Qed.
Lemma preserves_gets {A} P (f : S -> A) : preserves P (gets f).
Proof. by intros s. Qed.
Lemma preserves_skip P : preserves P skip.
Proof. by intros s. Qed.
Lemma preserves_modify P f : (forall s, P s -> P (f s)) -> preserves P (modify f).
Proof. intros H s. apply H. Qed.
Lemma preserves_bind {A B} P (m : stm S A) (k : A -> stm S B) :
  preserves P m -> (forall a, preserves P (k a)) -> preserves P (m ≫= k).
Proof. intros Hm Hk s Hs. rewrite exec_bind. by apply Hk, Hm. Qed.
Lemma preserves_if {A} P (b : bool) (m1 m2 : stm S A) :
  preserves P m1 -> preserves P m2 -> preserves P (if b then m1 else m2).
Proof. by destruct b. Qed.
Lemma preserves_when P b m : preserves P m -> preserves P (when b m).
Proof. intros. apply preserves_if; [done|apply preserves_skip]. Qed.

(** [returns m Q]: the result of [m] satisfies [Q] whatever the state. *)
Definition returns {A} (m : stm S A) (Q : A -> Prop) : Prop := forall s, Q (eval m s).

Lemma returns_ret {A} (a : A) (Q : A -> Prop) : Q a -> returns (mret a) Q.
Proof. by intros H s. Qed.
Lemma returns_bind {A B} (m : stm S A) (k : A -> stm S B) (R : A -> Prop) (Q : B -> Prop) :
  returns m R -> (forall a, R a -> returns (k a) Q) -> returns (m ≫= k) Q.
Proof. intros Hm Hk s. rewrite eval_bind. apply Hk, Hm. Qed.
Lemma returns_any {A} (m : stm S A) : returns m (fun _ => True).
Proof. done. Qed.
Lemma returns_seq {A B} (m : stm S A) (k : A -> stm S B) (Q : B -> Prop) :
  (forall a, returns (k a) Q) -> returns (m ≫= k) Q.
Proof. intros Hk s. rewrite eval_bind. apply Hk. Qed.
Lemma returns_if {A} (b : bool) (m1 m2 : stm S A) Q :
  returns m1 Q -> returns m2 Q -> returns (if b then m1 else m2) Q.
Proof. by destruct b. Qed.
End stm.

(** [srun] runs the statements whose effect is known; [srun H] also the one
    that the equation [H] describes. *)
Ltac srun1 :=
  first [rewrite run_ret | rewrite run_gets | rewrite run_modify | rewrite run_skip
        | rewrite run_assoc].
Tactic Notation "srun" := repeat srun1; cbv beta.
Tactic Notation "srun" constr(H) :=
  repeat srun1; first [rewrite (run_bind _ _ _ _ _ H) | rewrite H]; cbv beta; repeat srun1; cbv beta.

Create HintDb preserves.
#[export] Hint Resolve preserves_ret preserves_gets preserves_skip : preserves.

(** [preserve] goes through a function statement by statement; what remains
    are its assignments, for which the invariant must be checked. *)
Ltac preserve1 :=
  match goal with
  | |- preserves _ (mbind _ _) => apply preserves_bind; [|intros ?]
  | |- preserves _ (when _ _) => apply preserves_when
  | |- preserves _ (match ?x with _ => _ end) => destruct x
  | |- preserves _ _ => solve [eauto 2 with preserves]
  | |- preserves _ (modify _) => apply preserves_modify; intros ? ?
  end.
Ltac preserve := intros; cbv zeta; repeat preserve1.

(** ** Reachability *)

Inductive star {A} (R : A -> A -> Prop) : A -> A -> Prop :=
| star_refl a : star R a a
| star_step a b c : R a b -> star R b c -> star R a c.

Lemma star_invariant {A} (R : A -> A -> Prop) (I : A -> Prop) a b :
  (forall a b, R a b -> I a -> I b) -> star R a b -> I a -> I b.
Proof. intros HR. induction 1; eauto. Qed.
