(* ===== verification/WearLeveling.v ===== *)
(** * Wear levelling (quantum/wear_leveling/wear_leveling.c)

    The emulated EEPROM: a RAM cache of the logical data, backed by a
    consolidated area, its FNV-1a checksum and an append-only write log.
    [WearLeveling] holds the code; the device is the class [BackingStore],
    whose operations the flash drivers implement.  A C memory access outside
    its object sets the ghost flag [fault].  The target is little-endian and
    its [size_t] has 32 bits, as on every MCU the drivers exist for. *)

From S2P Require Import Prelude.

(** The compile-time constants of wear_leveling_internal.h, and the contents
    of an uninitialised [write_log_entry_t] on the stack. *)
Class WearLevelingConfig := {
  BACKING_STORE_WRITE_SIZE : Z;
  WEAR_LEVELING_BACKING_SIZE : Z;
  WEAR_LEVELING_LOGICAL_SIZE : Z;
  stack_garbage : list Z;
}.

(** The backing store API of wear_leveling_internal.h.  [read] returns the
    success flag and the out-parameter. *)
Class BackingStore := {
  store : Type;
  backing_store_init : stm store bool;
  backing_store_unlock : stm store bool;
  backing_store_erase : stm store bool;
  backing_store_write : Z -> Z -> stm store bool;
  backing_store_lock : stm store bool;
  backing_store_read : Z -> stm store (bool * Z);
}.

(** ** Write log entries *)

(** [write_log_entry_t] as its [raw8] member: eight bytes. *)
Abbreviation write_log_entry_t := (list Z).

Definition raw8 (log : write_log_entry_t) (i : nat) : Z := default 0 (log !! i).

(** The members [raw16], [raw32] and [raw64], read and written. *)
Definition raw_get (size i : nat) (log : write_log_entry_t) : Z :=
  le_int (take size (drop (size * i) log)).
Definition raw_set (size i : nat) (v : Z) (log : write_log_entry_t) : write_log_entry_t :=
  list_inserts (size * i) (le_bytes size v) log.

Definition LOG_ENTRY_TYPE_MULTIBYTE : Z := 0.
Definition LOG_ENTRY_TYPE_OPTIMIZED_64 : Z := 1.
Definition LOG_ENTRY_TYPE_WORD_01 : Z := 2.

Definition BITMASK_FOR_BITCOUNT (n : Z) : Z := Z.shiftl 1 n - 1.

Definition LOG_ENTRY_GET_TYPE (entry : write_log_entry_t) : Z :=
  Z.land (Z.shiftr (raw8 entry 0) 6) (BITMASK_FOR_BITCOUNT 2).

Definition LOG_ENTRY_MULTIBYTE_MAX_BYTES : Z := 5.

Definition LOG_ENTRY_MULTIBYTE_GET_ADDRESS (entry : write_log_entry_t) : Z :=
  Z.lor (Z.lor (Z.shiftl (Z.land (raw8 entry 0) (BITMASK_FOR_BITCOUNT 3)) 16)
               (Z.shiftl (raw8 entry 1) 8))
        (raw8 entry 2).

Definition LOG_ENTRY_MULTIBYTE_GET_LENGTH (entry : write_log_entry_t) : Z :=
  u8 (Z.land (Z.shiftr (raw8 entry 0) 3) (BITMASK_FOR_BITCOUNT 3)).

Definition LOG_ENTRY_MAKE_MULTIBYTE (address length : Z) : write_log_entry_t :=
  [ u8 (Z.lor (Z.lor (Z.shiftl (Z.land LOG_ENTRY_TYPE_MULTIBYTE (BITMASK_FOR_BITCOUNT 2)) 6)
                     (Z.shiftl (Z.land (u8 length) (BITMASK_FOR_BITCOUNT 3)) 3))
              (Z.land (u8 (Z.shiftr address 16)) (BITMASK_FOR_BITCOUNT 3)));
    Z.land (u8 (Z.shiftr address 8)) (BITMASK_FOR_BITCOUNT 8);
    Z.land (u8 address) (BITMASK_FOR_BITCOUNT 8);
    0; 0; 0; 0; 0 ].

Definition LOG_ENTRY_OPTIMIZED_64_GET_ADDRESS (entry : write_log_entry_t) : Z :=
  Z.land (raw8 entry 0) (BITMASK_FOR_BITCOUNT 6).
Definition LOG_ENTRY_OPTIMIZED_64_GET_VALUE (entry : write_log_entry_t) : Z :=
  raw8 entry 1.

Definition LOG_ENTRY_MAKE_OPTIMIZED_64 (address value : Z) : write_log_entry_t :=
  [ u8 (Z.lor (Z.shiftl (Z.land LOG_ENTRY_TYPE_OPTIMIZED_64 (BITMASK_FOR_BITCOUNT 2)) 6)
              (Z.land (u8 address) (BITMASK_FOR_BITCOUNT 6)));
    u8 value;
    0; 0; 0; 0; 0; 0 ].

Definition LOG_ENTRY_WORD_01_GET_ADDRESS (entry : write_log_entry_t) : Z :=
  Z.lor (Z.shiftl (Z.land (raw8 entry 0) (BITMASK_FOR_BITCOUNT 5)) 9)
        (Z.shiftl (raw8 entry 1) 1).
Definition LOG_ENTRY_WORD_01_GET_VALUE (entry : write_log_entry_t) : Z :=
  Z.land (u8 (Z.shiftr (raw8 entry 0) 5)) (BITMASK_FOR_BITCOUNT 1).

Definition LOG_ENTRY_MAKE_WORD_01 (address value : Z) : write_log_entry_t :=
  [ u8 (Z.lor (Z.lor (Z.shiftl (Z.land LOG_ENTRY_TYPE_WORD_01 (BITMASK_FOR_BITCOUNT 2)) 6)
                     (Z.shiftl (Z.land (if nz value then 1 else 0) (BITMASK_FOR_BITCOUNT 1)) 5))
              (Z.land (u8 (Z.shiftr address 9)) (BITMASK_FOR_BITCOUNT 5)));
    u8 (Z.shiftr address 1);
    0; 0; 0; 0; 0; 0 ].

(** ** The checksum (lib/fnv/hash_64a.c) *)

Definition FNV1A_64_INIT : Z := 0xcbf29ce484222325.

Definition fnv_64a_step (hval octet : Z) : Z :=
  let hval := Z.lxor hval octet in
  u64 (hval + (u64 (Z.shiftl hval 1) + u64 (Z.shiftl hval 4) + u64 (Z.shiftl hval 5) +
               u64 (Z.shiftl hval 7) + u64 (Z.shiftl hval 8) + u64 (Z.shiftl hval 40))).

Definition fnv_64a_buf (buf : list Z) (hval : Z) : Z := fold_left fnv_64a_step buf hval.

(** ** The state and the device operations *)

Inductive wear_leveling_status_t :=
  | WEAR_LEVELING_FAILED
  | WEAR_LEVELING_SUCCESS
  | WEAR_LEVELING_CONSOLIDATED.

Inductive backing_store_lock_status_t :=
  | STATUS_FAILURE
  | STATUS_SUCCESS
  | STATUS_UNCHANGED.

#[global] Instance wear_leveling_status_eq_dec : EqDecision wear_leveling_status_t.
Proof. solve_decision. Defined.
#[global] Instance backing_store_lock_status_eq_dec : EqDecision backing_store_lock_status_t.
Proof. solve_decision. Defined.

Record wear_leveling `{BackingStore} := {
  cache : list Z;
  write_address : Z;
  unlocked : bool;
  device : store;
  fault : bool;
}.

Section model.
Context `{WearLevelingConfig} `{BackingStore}.

Abbreviation WS := BACKING_STORE_WRITE_SIZE.
Abbreviation BACKING := WEAR_LEVELING_BACKING_SIZE.
Abbreviation LOGICAL := WEAR_LEVELING_LOGICAL_SIZE.
Abbreviation M := (stm wear_leveling).

(** A call into the driver. *)
Definition on_device {A} (m : stm store A) : M A :=
  fun w => let r := m (device w) in (r.1, w <| device := r.2 |>).

Definition set_fault : M unit := modify (fun w => w <| fault := true |>).

(** [memcpy(&wear_leveling.cache[a], bytes, l)]. *)
Definition cache_store (a : Z) (bytes : list Z) : M unit := fun w =>
  if decide (0 <= a /\ a + Z.of_nat (length bytes) <= LOGICAL)
  then (tt, w <| cache := list_inserts (Z.to_nat a) bytes (cache w) |>)
  else set_fault w.

(** [&wear_leveling.cache[a]] read for [l] bytes. *)
Definition cache_load (a : Z) (l : nat) : M (list Z) := fun w =>
  if decide (0 <= a /\ a + Z.of_nat l <= LOGICAL)
  then (take l (drop (Z.to_nat a) (cache w)), w)
  else ([], exec set_fault w).

(** [memcpy] of [l] bytes out of [&log.raw8[3]]. *)
Definition log_payload (log : write_log_entry_t) (l : Z) : M (list Z) :=
  if l <=? 5 then mret (take (Z.to_nat l) (drop 3 log))
  else set_fault;; mret [].

Definition wear_leveling_unlock : M backing_store_lock_status_t :=
  u ← gets unlocked;
  if (u : bool) then mret STATUS_UNCHANGED else
  ok ← on_device backing_store_unlock;
  if negb ok then mret STATUS_FAILURE else
  modify (fun w => w <| unlocked := true |>);;
  mret STATUS_SUCCESS.

Definition wear_leveling_lock : M backing_store_lock_status_t :=
  u ← gets unlocked;
  if negb u then mret STATUS_UNCHANGED else
  ok ← on_device backing_store_lock;
  if negb ok then mret STATUS_FAILURE else
  modify (fun w => w <| unlocked := false |>);;
  mret STATUS_SUCCESS.

Definition wear_leveling_clear_cache : M unit :=
  modify (fun w => w <| cache := replicate (Z.to_nat LOGICAL) 0 |>
                     <| write_address := LOGICAL + 8 |>).

(** The weak bulk operations: [n] items from [values[i]] on. *)
Fixpoint backing_store_read_bulk (address i : Z) (n : nat) (values : list Z)
  : M (bool * list Z) :=
  match n with
  | O => mret (true, values)
  | S n =>
      r ← on_device (backing_store_read (u32 (address + i * WS)));
      let values := <[Z.to_nat i := r.2]> values in
      if negb r.1 then mret (false, values)
      else backing_store_read_bulk address (i + 1) n values
  end.

Fixpoint backing_store_write_bulk (address i : Z) (values : list Z) : M bool :=
  match values with
  | [] => mret true
  | v :: values =>
      ok ← on_device (backing_store_write (u32 (address + i * WS)) v);
      if negb ok then mret false
      else backing_store_write_bulk address (i + 1) values
  end.

(** A byte array seen as [n] [backing_store_int_t]s, and back. *)
Fixpoint as_ints (size n : nat) (bytes : list Z) : list Z :=
  match n with
  | O => []
  | S n => le_int (take size bytes) :: as_ints size n (drop size bytes)
  end.
Definition as_bytes (size : nat) (ints : list Z) : list Z :=
  concat (le_bytes size <$> ints).

Abbreviation ws := (Z.to_nat WS).
Definition items : nat := Z.to_nat (LOGICAL / WS).

(** Reading [write_log_entry_t entry] back from the checksum slot. *)
Definition read_checksum : M write_log_entry_t :=
  if WS =? 2 then
    r ← backing_store_read_bulk LOGICAL 0 4 (as_ints 2 4 stack_garbage);
    mret (as_bytes 2 r.2)
  else if WS =? 4 then
    r ← backing_store_read_bulk LOGICAL 0 2 (as_ints 4 2 stack_garbage);
    mret (as_bytes 4 r.2)
  else
    r ← on_device (backing_store_read (u32 (LOGICAL + 0)));
    mret (le_bytes 8 r.2).

Definition wear_leveling_read_consolidated : M wear_leveling_status_t :=
  c ← gets cache;
  r ← backing_store_read_bulk 0 0 items (as_ints ws items c);
  modify (fun w => w <| cache := as_bytes ws r.2 |>);;
  let status := if negb r.1 then WEAR_LEVELING_FAILED else WEAR_LEVELING_SUCCESS in
  when (bool_decide (status ≠ WEAR_LEVELING_FAILED)) (
    c ← gets cache;
    let expected := fnv_64a_buf c FNV1A_64_INIT in
    entry ← read_checksum;
    if raw_get 8 0 entry =? expected then skip
    else wear_leveling_clear_cache);;
  when (bool_decide (status = WEAR_LEVELING_FAILED)) wear_leveling_clear_cache;;
  mret status.

Definition wear_leveling_write_consolidated : M wear_leveling_status_t :=
  lock_status ← wear_leveling_unlock;
  c ← gets cache;
  ok ← backing_store_write_bulk 0 0 (as_ints ws items c);
  status ←
    (if negb ok then mret WEAR_LEVELING_FAILED else
     let entry := le_bytes 8 (fnv_64a_buf c FNV1A_64_INIT) in
     ok ← (if WS =? 2 then backing_store_write_bulk LOGICAL 0 (as_ints 2 4 entry)
           else if WS =? 4 then backing_store_write_bulk LOGICAL 0 (as_ints 4 2 entry)
           else on_device (backing_store_write LOGICAL (raw_get 8 0 entry)));
     mret (if negb ok then WEAR_LEVELING_FAILED else WEAR_LEVELING_CONSOLIDATED));
  (if decide (lock_status = STATUS_SUCCESS) then wear_leveling_lock;; skip else skip);;
  mret status.

Definition wear_leveling_consolidate_force : M wear_leveling_status_t :=
  ok ← on_device backing_store_erase;
  if negb ok then mret WEAR_LEVELING_FAILED else
  status ← wear_leveling_write_consolidated;
  modify (fun w => w <| write_address := LOGICAL + 8 |>);;
  mret status.

Definition wear_leveling_consolidate_if_needed : M wear_leveling_status_t :=
  a ← gets write_address;
  if BACKING <=? a then wear_leveling_consolidate_force
  else mret WEAR_LEVELING_SUCCESS.

Definition wear_leveling_append_raw (value : Z) : M wear_leveling_status_t :=
  a ← gets write_address;
  ok ← on_device (backing_store_write a value);
  if negb ok then mret WEAR_LEVELING_FAILED else
  modify (fun w => w <| write_address := u32 (write_address w + WS) |>);;
  wear_leveling_consolidate_if_needed.

(** [status = f(); if (status != WEAR_LEVELING_SUCCESS) return status; ...] *)
Definition and_then (m k : M wear_leveling_status_t) : M wear_leveling_status_t :=
  status ← m;
  if decide (status = WEAR_LEVELING_SUCCESS) then k else mret status.

Definition wear_leveling_write_raw_multibyte (address : Z) (value : list Z)
  : M wear_leveling_status_t :=
  let len := Z.of_nat (length value) in
  let log := list_inserts 3 value (LOG_ENTRY_MAKE_MULTIBYTE address len) in
  if WS =? 2 then
    and_then (wear_leveling_append_raw (raw_get 2 0 log))
      (and_then (wear_leveling_append_raw (raw_get 2 1 log))
        (and_then (if 1 <? len then wear_leveling_append_raw (raw_get 2 2 log)
                   else mret WEAR_LEVELING_SUCCESS)
          (if 3 <? len then wear_leveling_append_raw (raw_get 2 3 log)
           else mret WEAR_LEVELING_SUCCESS)))
  else if WS =? 4 then
    and_then (wear_leveling_append_raw (raw_get 4 0 log))
      (if 1 <? len then wear_leveling_append_raw (raw_get 4 1 log)
       else mret WEAR_LEVELING_SUCCESS)
  else wear_leveling_append_raw (raw_get 8 0 log).

(** The loop of [wear_leveling_write_raw]: [p] holds the remaining bytes.
    [fuel] bounds the number of iterations; each consumes a byte or more. *)
Fixpoint write_raw_loop (fuel : nat) (address : Z) (p : list Z) : M wear_leveling_status_t :=
  match fuel, p with
  | O, _ | _, [] => mret WEAR_LEVELING_SUCCESS
  | S fuel, b0 :: p' =>
      let v := Z.lor (u16 (Z.shiftl (default 0 (p !! 1%nat)) 8)) b0 in
      if (WS =? 2) && (2 <=? Z.of_nat (length p)) && (address mod 2 =? 0)
         && (address <? 16384) && ((v =? 0) || (v =? 1)) then
        and_then (wear_leveling_append_raw (raw_get 2 0 (LOG_ENTRY_MAKE_WORD_01 address v)))
          (write_raw_loop fuel (u32 (address + 2)) (drop 2 p))
      else if (WS =? 2) && (address <? 64) then
        and_then (wear_leveling_append_raw (raw_get 2 0 (LOG_ENTRY_MAKE_OPTIMIZED_64 address b0)))
          (write_raw_loop fuel (u32 (address + 1)) p')
      else
        let this_length := (Nat.min (length p) (Z.to_nat LOG_ENTRY_MULTIBYTE_MAX_BYTES)) in
        and_then (wear_leveling_write_raw_multibyte address (take this_length p))
          (write_raw_loop fuel (u32 (address + Z.of_nat this_length)) (drop this_length p))
  end.

Definition wear_leveling_write_raw (address : Z) (value : list Z) : M wear_leveling_status_t :=
  write_raw_loop (length value) address value.

(** [ok = backing_store_read(address, &log.raw<n>[i]); ... address += WS]:
    [None] when the read fails. *)
Definition read_log_word (size i : nat) (address : Z) (log : write_log_entry_t)
  : M (bool * Z * write_log_entry_t) :=
  r ← on_device (backing_store_read address);
  let log := raw_set size i r.2 log in
  if negb r.1 then mret (false, address, log)
  else mret (true, u32 (address + WS), log).

(** [if (cond) { ok = backing_store_read(...) ... }] *)
Definition read_log_word_if (cond : bool) (size i : nat) (address : Z)
  (log : write_log_entry_t) : M (bool * Z * write_log_entry_t) :=
  if cond then read_log_word size i address log else mret (true, address, log).

(** The case [LOG_ENTRY_TYPE_MULTIBYTE]: whether to go on, and the address. *)
Definition playback_multibyte (address : Z) (log : write_log_entry_t) : M (bool * Z) :=
  r ← read_log_word_if (WS =? 2) 2 1 address log;
  let '(ok, address, log) := r in
  if negb ok then mret (false, address) else
  let a := LOG_ENTRY_MULTIBYTE_GET_ADDRESS log in
  let l := LOG_ENTRY_MULTIBYTE_GET_LENGTH log in
  if LOGICAL <? u32 (a + l) then mret (false, address) else
  r ← (if WS =? 2 then
         r ← read_log_word_if (1 <? l) 2 2 address log;
         let '(ok, address, log) := r in
         if negb ok then mret r else read_log_word_if (3 <? l) 2 3 address log
       else if WS =? 4 then read_log_word_if (1 <? l) 4 1 address log
       else mret (true, address, log));
  let '(ok, address, log) := r in
  if negb ok then mret (false, address) else
  payload ← log_payload log l;
  cache_store a payload;;
  mret (true, address).

(** The body of the loop after a nonzero [value] was read and [address]
    advanced. *)
Definition playback_entry (address value : Z) : M (bool * Z) :=
  let log := raw_set ws 0 value stack_garbage in
  let type := LOG_ENTRY_GET_TYPE log in
  if type =? LOG_ENTRY_TYPE_MULTIBYTE then playback_multibyte address log
  else if (WS =? 2) && (type =? LOG_ENTRY_TYPE_OPTIMIZED_64) then
    let a := LOG_ENTRY_OPTIMIZED_64_GET_ADDRESS log in
    let v := LOG_ENTRY_OPTIMIZED_64_GET_VALUE log in
    if LOGICAL <=? a then mret (false, address) else
    cache_store a [v];;
    mret (true, address)
  else if (WS =? 2) && (type =? LOG_ENTRY_TYPE_WORD_01) then
    let a := LOG_ENTRY_WORD_01_GET_ADDRESS log in
    let v := LOG_ENTRY_WORD_01_GET_VALUE log in
    if LOGICAL <=? u32 (a + 1) then mret (false, address) else
    cache_store (a + 0) [v];;
    cache_store (a + 1) [0];;
    mret (true, address)
  else mret (false, address).

(** The playback loop, from [address] on; each iteration advances it by at
    least the write size, so [playback_fuel] iterations reach the end of
    the store ([playback_loop_fuel]). *)
Fixpoint playback_loop (fuel : nat) (address : Z) : M (wear_leveling_status_t * Z) :=
  match fuel with
  | O => mret (WEAR_LEVELING_SUCCESS, address)
  | S fuel =>
      if BACKING <=? address then mret (WEAR_LEVELING_SUCCESS, address) else
      r ← on_device (backing_store_read address);
      let '(ok, value) := r in
      if negb ok then mret (WEAR_LEVELING_FAILED, address) else
      if value =? 0 then mret (WEAR_LEVELING_SUCCESS, address) else
      r ← playback_entry (u32 (address + WS)) value;
      let '(go_on, address) := r in
      if (go_on : bool) then playback_loop fuel address
      else mret (WEAR_LEVELING_FAILED, address)
  end.

Definition playback_fuel : nat := Z.to_nat (BACKING / WS).

Definition wear_leveling_playback_log : M wear_leveling_status_t :=
  r ← playback_loop playback_fuel (LOGICAL + 8);
  let '(status, address) := r in
  modify (fun w => w <| write_address := address |>);;
  if decide (status = WEAR_LEVELING_FAILED) then wear_leveling_consolidate_force
  else wear_leveling_consolidate_if_needed.

Definition wear_leveling_init : M wear_leveling_status_t :=
  wear_leveling_clear_cache;;
  ok ← on_device backing_store_init;
  if negb ok then wear_leveling_clear_cache;; mret WEAR_LEVELING_FAILED else
  status ← wear_leveling_read_consolidated;
  if decide (status = WEAR_LEVELING_FAILED) then
    wear_leveling_clear_cache;; mret status
  else
  status ← wear_leveling_playback_log;
  if decide (status = WEAR_LEVELING_FAILED) then
    wear_leveling_clear_cache;; mret status
  else mret status.

Definition wear_leveling_erase : M wear_leveling_status_t :=
  lock_status ← wear_leveling_unlock;
  if decide (lock_status = STATUS_FAILURE) then
    wear_leveling_lock;; mret WEAR_LEVELING_FAILED
  else
  ret ← on_device backing_store_erase;
  wear_leveling_clear_cache;;
  ret ← (if decide (lock_status = STATUS_SUCCESS) then
           st ← wear_leveling_lock;
           mret (ret && bool_decide (st ≠ STATUS_FAILURE))
         else mret ret);
  mret (if (ret : bool) then WEAR_LEVELING_SUCCESS else WEAR_LEVELING_FAILED).

(** [return true] of the unchanged case is the value 1, which is
    [WEAR_LEVELING_SUCCESS]. *)
Definition wear_leveling_write (address : Z) (value : list Z) : M wear_leveling_status_t :=
  let len := Z.of_nat (length value) in
  if LOGICAL <? u32 (address + len) then mret WEAR_LEVELING_FAILED else
  old ← cache_load address (length value);
  if decide (old = value) then mret WEAR_LEVELING_SUCCESS else
  cache_store address value;;
  lock_status ← wear_leveling_unlock;
  if decide (lock_status = STATUS_FAILURE) then
    wear_leveling_lock;; mret WEAR_LEVELING_FAILED
  else
  status ← wear_leveling_write_raw address value;
  status ← match status with
           | WEAR_LEVELING_CONSOLIDATED | WEAR_LEVELING_FAILED => mret status
           | WEAR_LEVELING_SUCCESS => wear_leveling_consolidate_if_needed
           end;
  if decide (lock_status = STATUS_SUCCESS) then
    st ← wear_leveling_lock;
    mret (if decide (st = STATUS_FAILURE) then WEAR_LEVELING_FAILED else status)
  else mret status.

Definition wear_leveling_read (address : Z) (len : nat)
  : M (wear_leveling_status_t * list Z) :=
  if LOGICAL <? u32 (address + Z.of_nat len) then mret (WEAR_LEVELING_FAILED, []) else
  v ← cache_load address len;
  mret (WEAR_LEVELING_SUCCESS, v).
End model.

(** ** The write log format (quantum/wear_leveling/wear_leveling_internal.h)

    Each of the three encodings of a log entry decodes to the address and the
    bytes it was made from, and never starts with an empty (zero) word. *)

(** The entries as arithmetic on their first three bytes. *)

Ltac unfold_masks :=
  unfold BITMASK_FOR_BITCOUNT, LOG_ENTRY_TYPE_MULTIBYTE, LOG_ENTRY_TYPE_OPTIMIZED_64,
    LOG_ENTRY_TYPE_WORD_01;
  change (Z.shiftl 1 8 - 1) with (Z.ones 8); change (Z.shiftl 1 3 - 1) with (Z.ones 3);
  change (Z.shiftl 1 2 - 1) with (Z.ones 2); change (Z.shiftl 1 1 - 1) with (Z.ones 1);
  change (Z.shiftl 1 5 - 1) with (Z.ones 5); change (Z.shiftl 1 6 - 1) with (Z.ones 6);
  rewrite ?Z.land_ones by lia;
  rewrite ?Z.shiftl_mul_pow2, ?Z.shiftr_div_pow2 by lia; unfold wrap.

Lemma make_multibyte_bytes a l :
  0 <= a < 2 ^ 19 -> 0 <= l < 8 ->
  LOG_ENTRY_MAKE_MULTIBYTE a l =
    [l * 8 + a / 2 ^ 16; (a / 2 ^ 8) mod 2 ^ 8; a mod 2 ^ 8; 0; 0; 0; 0; 0].
Proof.
  intros Ha Hl. unfold LOG_ENTRY_MAKE_MULTIBYTE. unfold_masks.
  change (0 mod 2 ^ 2 * 2 ^ 6) with 0. rewrite Z.lor_0_l.
  rewrite (lor_add 3) by dlia.
  list_eq dlia.
Qed.

Lemma make_optimized_64_bytes a v :
  0 <= a < 64 -> is_byte v ->
  LOG_ENTRY_MAKE_OPTIMIZED_64 a v = [64 + a; v; 0; 0; 0; 0; 0; 0].
Proof.
  unfold is_byte. intros Ha Hv. unfold LOG_ENTRY_MAKE_OPTIMIZED_64. unfold_masks.
  change (1 mod 2 ^ 2 * 2 ^ 6) with 64. rewrite (lor_add 6) by dlia.
  list_eq dlia.
Qed.

Lemma make_word_01_bytes a v :
  0 <= a < 16384 -> v = 0 \/ v = 1 ->
  LOG_ENTRY_MAKE_WORD_01 a v =
    [128 + v * 32 + a / 2 ^ 9; (a / 2) mod 2 ^ 8; 0; 0; 0; 0; 0; 0].
Proof.
  intros Ha Hv. unfold LOG_ENTRY_MAKE_WORD_01.
  assert ((if nz v then 1 else 0) = v) as -> by (destruct Hv; by subst).
  unfold_masks. change (2 mod 2 ^ 2 * 2 ^ 6) with 128.
  rewrite (lor_add 6 128) by dlia. rewrite (lor_add 5) by dlia.
  list_eq dlia.
Qed.

(** An eight-byte entry given by its first bytes. *)
Lemma get_multibyte_address b0 b1 b2 log :
  is_byte b0 -> is_byte b1 -> is_byte b2 ->
  LOG_ENTRY_MULTIBYTE_GET_ADDRESS (b0 :: b1 :: b2 :: log) =
    b0 mod 8 * 2 ^ 16 + b1 * 2 ^ 8 + b2.
Proof.
  unfold is_byte. intros. unfold LOG_ENTRY_MULTIBYTE_GET_ADDRESS, raw8.
  cbn [lookup list_lookup default from_option id]. unfold_masks.
  rewrite (lor_add 16 (b0 mod _ * _)) by dlia. rewrite (lor_add 8) by dlia. done.
Qed.

Lemma get_multibyte_length b0 log :
  is_byte b0 -> LOG_ENTRY_MULTIBYTE_GET_LENGTH (b0 :: log) = b0 / 8 mod 8.
Proof.
  unfold is_byte. intros. unfold LOG_ENTRY_MULTIBYTE_GET_LENGTH, raw8.
  cbn [lookup list_lookup default from_option id]. unfold_masks. dlia.
Qed.

Lemma get_type b0 log :
  is_byte b0 -> LOG_ENTRY_GET_TYPE (b0 :: log) = b0 / 64.
Proof.
  unfold is_byte. intros. unfold LOG_ENTRY_GET_TYPE, raw8.
  cbn [lookup list_lookup default from_option id]. unfold_masks. dlia.
Qed.

Lemma get_optimized_64_address b0 log :
  is_byte b0 -> LOG_ENTRY_OPTIMIZED_64_GET_ADDRESS (b0 :: log) = b0 mod 64.
Proof.
  unfold is_byte. intros. unfold LOG_ENTRY_OPTIMIZED_64_GET_ADDRESS, raw8.
  cbn [lookup list_lookup default from_option id]. by unfold_masks.
Qed.

Lemma get_word_01_address b0 b1 log :
  is_byte b0 -> is_byte b1 ->
  LOG_ENTRY_WORD_01_GET_ADDRESS (b0 :: b1 :: log) = b0 mod 32 * 2 ^ 9 + b1 * 2.
Proof.
  unfold is_byte. intros. unfold LOG_ENTRY_WORD_01_GET_ADDRESS, raw8.
  cbn [lookup list_lookup default from_option id]. unfold_masks.
  rewrite (lor_add 9) by dlia. dlia.
Qed.

Lemma get_word_01_value b0 log :
  is_byte b0 -> LOG_ENTRY_WORD_01_GET_VALUE (b0 :: log) = b0 / 32 mod 2.
Proof.
  unfold is_byte. intros. unfold LOG_ENTRY_WORD_01_GET_VALUE, raw8.
  cbn [lookup list_lookup default from_option id]. unfold_masks. dlia.
Qed.

(** Every log entry the macros build decodes to what it was built from:
    the type, the address and the length (or the value) come back, for every
    address the encoding admits. *)
Theorem log_entry_roundtrip a len v b :
  0 <= a < 2 ^ 19 -> 0 <= len <= LOG_ENTRY_MULTIBYTE_MAX_BYTES -> is_byte v -> b = 0 \/ b = 1 ->
  (let e := LOG_ENTRY_MAKE_MULTIBYTE a len in
   LOG_ENTRY_GET_TYPE e = LOG_ENTRY_TYPE_MULTIBYTE /\
   LOG_ENTRY_MULTIBYTE_GET_ADDRESS e = a /\ LOG_ENTRY_MULTIBYTE_GET_LENGTH e = len) /\
  (a < 64 -> let e := LOG_ENTRY_MAKE_OPTIMIZED_64 a v in
   LOG_ENTRY_GET_TYPE e = LOG_ENTRY_TYPE_OPTIMIZED_64 /\
   LOG_ENTRY_OPTIMIZED_64_GET_ADDRESS e = a /\ LOG_ENTRY_OPTIMIZED_64_GET_VALUE e = v) /\
  (a < 16384 -> a mod 2 = 0 -> let e := LOG_ENTRY_MAKE_WORD_01 a b in
   LOG_ENTRY_GET_TYPE e = LOG_ENTRY_TYPE_WORD_01 /\
   LOG_ENTRY_WORD_01_GET_ADDRESS e = a /\ LOG_ENTRY_WORD_01_GET_VALUE e = b).
Proof.
  unfold LOG_ENTRY_MULTIBYTE_MAX_BYTES. intros Ha Hl Hv Hb. cbv zeta. split; [|split].
  - rewrite make_multibyte_bytes by lia.
    rewrite get_type, get_multibyte_address, get_multibyte_length by (unfold is_byte; dlia).
    unfold LOG_ENTRY_TYPE_MULTIBYTE. split; [|split]; dlia.
  - intros Ha'. rewrite make_optimized_64_bytes by lia || done.
    rewrite get_type, get_optimized_64_address by (unfold is_byte; dlia).
    unfold LOG_ENTRY_TYPE_OPTIMIZED_64. split; [|split]; [dlia|dlia|done].
  - intros Ha' Hev. rewrite make_word_01_bytes by (lia || done).
    rewrite get_type, get_word_01_address, get_word_01_value by (unfold is_byte; dlia).
    unfold LOG_ENTRY_TYPE_WORD_01. split; [|split]; dlia.
Qed.

Lemma log_entry_roundtrip_witness :
  LOG_ENTRY_MULTIBYTE_GET_ADDRESS (LOG_ENTRY_MAKE_MULTIBYTE 1234 5) = 1234.
Proof.
  destruct (log_entry_roundtrip 1234 5 7 1) as [(_ & Ha & _) _]; [done|done|done|by right|exact Ha].
Defined.
