(* ===== verification/WearLevelingSpec.v ===== *)
(** * Wear levelling: the device laws, and durability

    [BackingStoreOk] states the documented contract of a working backing
    store (wear_leveling.c, header comment; tests/backing_mocks.cpp): reads
    return what was written, an erased cell reads as zero, a write to an
    erased cell of an unlocked store succeeds.  Under it, the emulated EEPROM
    refines a plain array of bytes, across writes, erases and power cycles. *)

From S2P Require Import Prelude.
From S2P Require Import WearLeveling.

Section laws.
Context `{WearLevelingConfig} `{BackingStore}.

(** The static assertions of wear_leveling_internal.h, and three facts they
    leave out: a log with room for one word, a logical size within the 19
    address bits of an entry, and sizes that fit a [uint32_t]. *)
Class WearLevelingConfigOk : Prop := {
  write_size_ok :
    BACKING_STORE_WRITE_SIZE = 2 \/ BACKING_STORE_WRITE_SIZE = 4 \/ BACKING_STORE_WRITE_SIZE = 8;
  backing_twice_logical : WEAR_LEVELING_LOGICAL_SIZE * 2 <= WEAR_LEVELING_BACKING_SIZE;
  logical_aligned : WEAR_LEVELING_LOGICAL_SIZE mod BACKING_STORE_WRITE_SIZE = 0;
  backing_aligned : WEAR_LEVELING_BACKING_SIZE mod WEAR_LEVELING_LOGICAL_SIZE = 0;
  log_has_room : 0 < WEAR_LEVELING_LOGICAL_SIZE /\
    WEAR_LEVELING_LOGICAL_SIZE + 8 < WEAR_LEVELING_BACKING_SIZE;
  logical_max : WEAR_LEVELING_LOGICAL_SIZE <= 2 ^ 19;
  backing_max : WEAR_LEVELING_BACKING_SIZE < 2 ^ 31;
  entry_size : length stack_garbage = 8%nat;
}.

Definition valid_address (a : Z) : Prop :=
  0 <= a /\ a + BACKING_STORE_WRITE_SIZE <= WEAR_LEVELING_BACKING_SIZE /\
  a mod BACKING_STORE_WRITE_SIZE = 0.

Definition is_word (v : Z) : Prop := 0 <= v < 2 ^ (8 * BACKING_STORE_WRITE_SIZE).

(** A working device: [contents] is the word at each address. *)
Class BackingStoreOk := {
  contents : store -> Z -> Z;
  locked : store -> bool;
  contents_word : forall s a, valid_address a -> is_word (contents s a);
  init_ok : forall s, exists s', backing_store_init s = (true, s') /\
    locked s' = locked s /\ forall a, valid_address a -> contents s' a = contents s a;
  unlock_ok : forall s, locked s = true -> exists s',
    backing_store_unlock s = (true, s') /\ locked s' = false /\
    forall a, valid_address a -> contents s' a = contents s a;
  lock_ok : forall s, locked s = false -> exists s',
    backing_store_lock s = (true, s') /\ locked s' = true /\
    forall a, valid_address a -> contents s' a = contents s a;
  erase_ok : forall s, locked s = false -> exists s',
    backing_store_erase s = (true, s') /\ locked s' = false /\
    forall a, valid_address a -> contents s' a = 0;
  write_ok : forall s a v, locked s = false -> valid_address a -> is_word v ->
    contents s a = 0 -> exists s',
    backing_store_write a v s = (true, s') /\ locked s' = false /\
    forall b, valid_address b -> contents s' b = if decide (b = a) then v else contents s b;
  read_ok : forall s a, valid_address a ->
    backing_store_read a s = ((true, contents s a), s);
}.
End laws.

(** ** Bytes and words *)

Lemma length_as_ints size n bs : length (as_ints size n bs) = n.
Proof. revert bs. induction n; intros bs; simpl; auto. Qed.

Lemma as_bytes_ints size n bs :
  Forall is_byte bs -> length bs = (size * n)%nat -> as_bytes size (as_ints size n bs) = bs.
Proof.
  revert bs. induction n as [|n IH]; intros bs Hbs Hlen.
  - destruct bs; [done|simpl in *; lia].
  - unfold as_bytes in *. cbn [as_ints fmap list_fmap concat]. rewrite IH.
    + rewrite <-(take_drop size bs) at 3. f_equal.
      rewrite <-(length_take_le bs size) at 1 by lia.
      apply le_bytes_int. by apply Forall_take.
    + by apply Forall_drop.
    + rewrite length_drop. lia.
Qed.

Lemma le_int_bytes n z : 0 <= z < 2 ^ (8 * Z.of_nat n) -> le_int (le_bytes n z) = z.
Proof.
  revert z. induction n as [|n IH]; intros z Hz; cbn [le_bytes le_int].
  - simpl in Hz. lia.
  - rewrite Nat2Z.inj_succ, Z.mul_succ_r, Z.add_comm, Z.pow_add_r in Hz by lia.
    rewrite IH.
    + unfold wrap. pose proof (Z.div_mod z (2 ^ 8)). lia.
    + split; [apply Z.div_pos; lia|].
      apply Z.div_lt_upper_bound; [lia|]. change (8 * 1) with 8 in Hz. lia.
Qed.

Lemma as_ints_bytes size n (ints : list Z) :
  length ints = n -> Forall (fun v => 0 <= v < 2 ^ (8 * Z.of_nat size)) ints ->
  as_ints size n (as_bytes size ints) = ints.
Proof.
  revert n. induction ints as [|v ints IH]; intros n <- Hf; [done|].
  inversion Hf; subst. unfold as_bytes in *. cbn [length as_ints fmap list_fmap concat].
  rewrite take_app_length', drop_app_length' by by rewrite length_le_bytes.
  rewrite le_int_bytes by done. f_equal. by apply IH.
Qed.

Lemma as_bytes_is_byte size ints : Forall is_byte (as_bytes size ints).
Proof.
  unfold as_bytes. induction ints as [|v ints IH]; [done|].
  cbn [fmap list_fmap concat]. apply Forall_app; split; [apply le_bytes_is_byte|done].
Qed.

Lemma length_as_bytes size ints : length (as_bytes size ints) = (size * length ints)%nat.
Proof.
  unfold as_bytes. induction ints as [|v ints IH]; [simpl; lia|].
  cbn [fmap list_fmap concat length]. rewrite length_app, length_le_bytes, IH. lia.
Qed.

Lemma as_ints_words size n bs :
  Forall is_byte bs -> length bs = (size * n)%nat ->
  Forall (fun v => 0 <= v < 2 ^ (8 * Z.of_nat size)) (as_ints size n bs).
Proof.
  revert bs. induction n as [|n IH]; intros bs Hbs Hlen; cbn [as_ints]; constructor.
  - pose proof (le_int_range (take size bs) (Forall_take _ _ _ Hbs)) as Hr.
    by rewrite length_take_le in Hr by lia.
  - apply IH; [by apply Forall_drop|]. rewrite length_drop. lia.
Qed.

Lemma fnv_64a_buf_range bs h : 0 <= h < 2 ^ 64 -> 0 <= fnv_64a_buf bs h < 2 ^ 64.
Proof.
  revert h. induction bs as [|b bs IH]; intros h Hh; [done|].
  apply IH. by apply wrap_range.
Qed.

(** [list_inserts] on arrays of bytes. *)
Lemma list_inserts_split i k (p l : list Z) :
  list_inserts (i + k) (drop k p) (list_inserts i (take k p) l) = list_inserts i p l.
Proof.
  destruct (decide (k <= length p)%nat).
  - rewrite <-(take_drop k p) at 3. rewrite list_inserts_app_l, length_take_le by done.
    f_equal. lia.
  - rewrite drop_ge, take_ge by lia. done.
Qed.

Lemma Forall_list_inserts (P : Z -> Prop) i k l :
  Forall P k -> Forall P l -> Forall P (list_inserts i k l).
Proof.
  intros Hk Hl. revert i. induction Hk as [|x k Hx Hk IH]; intros i; simpl; [done|].
  apply Forall_insert; auto.
Qed.

(** ** Running the code on a working device *)

Section run.
Context `{!WearLevelingConfig, !BackingStore, !WearLevelingConfigOk, !BackingStoreOk}.

Abbreviation WS := BACKING_STORE_WRITE_SIZE.
Abbreviation BACKING := WEAR_LEVELING_BACKING_SIZE.
Abbreviation LOGICAL := WEAR_LEVELING_LOGICAL_SIZE.
Implicit Types (w : wear_leveling) (s : store).

(** The [n] words from address [a] on. *)
Fixpoint words_from s (a : Z) (n : nat) : list Z :=
  match n with O => [] | S n => contents s a :: words_from s (a + WS) n end.

Definition range_ok (a n : Z) : Prop :=
  0 <= a /\ 0 <= n /\ a + WS * n <= BACKING /\ a mod WS = 0.
Definition unchanged_outside (lo hi : Z) s s' : Prop :=
  forall b, valid_address b -> b < lo \/ hi <= b -> contents s' b = contents s b.
Definition erased_from (lo : Z) s : Prop :=
  forall b, valid_address b -> lo <= b -> contents s b = 0.

Lemma write_size_pos : 0 < WS.
Proof. destruct write_size_ok as [->|[->| ->]]; lia. Qed.

Lemma aligned_add a n : a mod WS = 0 -> (a + WS * n) mod WS = 0.
Proof.
  intros Ha. pose proof write_size_pos. by rewrite Z.mul_comm, Z.mod_add by lia.
Qed.

Lemma aligned_next a : a mod WS = 0 -> (a + WS) mod WS = 0.
Proof. intros Ha. rewrite <-(Z.mul_1_r WS) at 1. by apply aligned_add. Qed.

Lemma aligned_gap a b : a mod WS = 0 -> b mod WS = 0 -> a < b -> a + WS <= b.
Proof.
  intros Ha Hb Hlt. pose proof write_size_pos.
  rewrite Z.mod_divide in Ha, Hb by lia. destruct Ha as [qa ->], Hb as [qb ->].
  rewrite <-Z.mul_lt_mono_pos_r in Hlt by lia. nia.
Qed.

Lemma range_valid a n : range_ok a n -> 0 < n -> valid_address a.
Proof. intros (? & ? & ? & ?) ?. pose proof write_size_pos. repeat split; [done|nia|done]. Qed.

Lemma range_next a n : range_ok a n -> 0 < n -> range_ok (a + WS) (n - 1).
Proof.
  intros (? & ? & ? & ?) ?. pose proof write_size_pos.
  split_and!; [lia|lia|lia|by apply aligned_next].
Qed.

Lemma valid_u32 a n : range_ok a n -> u32 a = a.
Proof.
  intros (? & ? & ? & ?). pose proof write_size_pos. pose proof backing_max.
  apply wrap_small. assert (0 <= WS * n) by nia. lia.
Qed.

Lemma range_intro a n (m : nat) : range_ok a n -> Z.of_nat (S m) = n ->
  valid_address a /\ range_ok (a + WS) (Z.of_nat m) /\ u32 a = a.
Proof.
  intros Hr <-. split_and!; [apply (range_valid _ _ Hr); lia| |by eapply valid_u32].
  replace (Z.of_nat m) with (Z.of_nat (S m) - 1) by lia. apply range_next; [done|lia].
Qed.

Lemma length_words_from s a n : length (words_from s a n) = n.
Proof. revert a. induction n; intros a; simpl; auto. Qed.

Lemma words_from_word s a n : range_ok a (Z.of_nat n) -> Forall is_word (words_from s a n).
Proof.
  revert a. induction n as [|n IH]; intros a Hr; cbn [words_from]; constructor.
  - apply contents_word. apply (range_valid _ _ Hr); lia.
  - apply IH. by apply (range_intro _ _ n) in Hr as (? & ? & ?).
Qed.

Lemma words_from_agree s s' a n :
  range_ok a (Z.of_nat n) ->
  (forall b, valid_address b -> a <= b < a + WS * Z.of_nat n -> contents s' b = contents s b) ->
  words_from s' a n = words_from s a n.
Proof.
  pose proof write_size_pos.
  revert a. induction n as [|n IH]; intros a Hr Hb; cbn [words_from]; [done|].
  apply (range_intro _ _ n) in Hr as (Hv & Hr & _); [|done]. f_equal.
  - apply Hb; [done|lia].
  - apply IH; [done|]. intros b ??. apply Hb; [done|lia].
Qed.

Lemma words_from_app s a n m :
  words_from s a (n + m) = words_from s a n ++ words_from s (a + WS * Z.of_nat n) m.
Proof.
  revert a. induction n as [|n IH]; intros a; cbn [words_from Nat.add app].
  - f_equal. lia.
  - rewrite IH. do 3 f_equal. lia.
Qed.

Lemma words_from_zero s a n :
  range_ok a (Z.of_nat n) -> erased_from a s -> words_from s a n = replicate n 0.
Proof.
  revert a. induction n as [|n IH]; intros a Hr He; cbn [words_from replicate]; [done|].
  apply (range_intro _ _ n) in Hr as (Hv & Hr & _); [|done]. f_equal.
  - apply He; [done|lia].
  - apply IH; [done|]. intros b ??. apply He; [done|]. pose proof write_size_pos. lia.
Qed.

Lemma device_same w : w <| device := device w |> = w.
Proof. by destruct w. Qed.

Lemma on_device_read w a :
  valid_address a ->
  on_device (backing_store_read a) w = ((true, contents (device w) a), w).
Proof. intros. unfold on_device. rewrite read_ok by done. by destruct w. Qed.

Lemma read_bulk_run address i n values w :
  0 <= i -> range_ok (address + i * WS) (Z.of_nat n) ->
  backing_store_read_bulk address i n values w =
    ((true, list_inserts (Z.to_nat i) (words_from (device w) (address + i * WS) n) values), w).
Proof.
  revert i values. induction n as [|n IH]; intros i values Hi Hr.
  - done.
  - apply (range_intro _ _ n) in Hr as (Hv & Hr & Hu); [|done].
    cbn [backing_store_read_bulk words_from]. unfold mbind, stm_bind.
    rewrite Hu, on_device_read by done. cbn.
    replace (address + i * WS + WS) with (address + (i + 1) * WS) in * by lia.
    rewrite IH by (done || lia). do 2 f_equal.
    rewrite Z2Nat.inj_add, Nat.add_1_r by lia. by rewrite list_insert_inserts_lt by lia.
Qed.

Lemma on_device_write w a v :
  locked (device w) = false -> valid_address a -> is_word v -> contents (device w) a = 0 ->
  exists s', on_device (backing_store_write a v) w = (true, w <| device := s' |>) /\
    locked s' = false /\ contents s' a = v /\ unchanged_outside a (a + WS) (device w) s'.
Proof.
  intros Hl Hv Hw Hc. destruct (write_ok _ _ _ Hl Hv Hw Hc) as (s' & Hrun & Hl' & Hs').
  exists s'. split_and!; [|done|..].
  - unfold on_device. by rewrite Hrun.
  - rewrite Hs' by done. by rewrite decide_True.
  - intros b Hb Hout. rewrite Hs' by done. rewrite decide_False; [done|].
    pose proof write_size_pos. lia.
Qed.

Lemma unchanged_trans lo mid hi s1 s2 s3 :
  lo <= mid <= hi -> unchanged_outside lo mid s1 s2 -> unchanged_outside mid hi s2 s3 ->
  unchanged_outside lo hi s1 s3.
Proof.
  intros Hm H12 H23 b Hb Hout. rewrite H23 by (done || lia). apply H12; [done|lia].
Qed.

Lemma write_bulk_run address i vs w :
  locked (device w) = false -> 0 <= i ->
  range_ok (address + i * WS) (Z.of_nat (length vs)) -> Forall is_word vs ->
  (forall b, valid_address b ->
     address + i * WS <= b < address + i * WS + WS * Z.of_nat (length vs) ->
     contents (device w) b = 0) ->
  exists s', backing_store_write_bulk address i vs w = (true, w <| device := s' |>) /\
    locked s' = false /\ words_from s' (address + i * WS) (length vs) = vs /\
    unchanged_outside (address + i * WS)
      (address + i * WS + WS * Z.of_nat (length vs)) (device w) s'.
Proof.
  pose proof write_size_pos as Hpos.
  revert i w. induction vs as [|v vs IH]; intros i w Hl Hi Hr Hvs He.
  - exists (device w). by destruct w.
  - cbn [length] in *. inversion Hvs as [|?? Hv Hvs']; subst.
    destruct (range_intro _ _ _ Hr eq_refl) as (Ha & Hr' & Hu).
    assert (address + i * WS + WS = address + (i + 1) * WS) as Hnext by lia.
    rewrite Hnext in Hr'.
    destruct (on_device_write w (address + i * WS) v) as (s1 & Hrun1 & Hl1 & Hc1 & Hf1);
      [done..|apply He; [done|nia]|].
    destruct (IH (i + 1) (w <| device := s1 |>)) as (s2 & Hrun2 & Hl2 & Hw2 & Hf2);
      [done|lia|done|done| |].
    { cbn. intros b Hb Hin. rewrite Hf1; [|done|lia]. apply He; [done|nia]. }
    cbn in Hf2. exists s2. split_and!; [|done|..].
    + cbn [backing_store_write_bulk]. unfold mbind, stm_bind. rewrite Hu, Hrun1.
      cbn [fst snd negb]. by rewrite Hrun2.
    + cbn [words_from]. rewrite Hnext, Hw2. f_equal. rewrite Hf2; [done|done|lia].
    + replace (address + i * WS + WS * Z.of_nat (S (length vs)))
        with (address + (i + 1) * WS + WS * Z.of_nat (length vs)) by lia.
      rewrite Hnext in Hf1. by eapply unchanged_trans; [|exact Hf1|exact Hf2]; nia.
Qed.

(** *** The consolidated area *)

Abbreviation ws := (Z.to_nat WS).
Abbreviation zeros := (replicate (Z.to_nat LOGICAL) 0).
Definition checksum_items : nat := Z.to_nat (8 / WS).

Definition stored_data s : list Z := as_bytes ws (words_from s 0 items).
Definition stored_checksum s : Z :=
  le_int (as_bytes ws (words_from s LOGICAL checksum_items)).
(** What initialisation makes of the consolidated area. *)
Definition base s : list Z :=
  if stored_checksum s =? fnv_64a_buf (stored_data s) FNV1A_64_INIT
  then stored_data s else zeros.

Lemma items_size : WS * Z.of_nat items = LOGICAL.
Proof.
  pose proof write_size_pos. pose proof logical_aligned. pose proof log_has_room.
  unfold items. rewrite Z2Nat.id by (apply Z.div_pos; lia).
  pose proof (Z.div_mod LOGICAL WS). lia.
Qed.

Lemma items_size_nat : (ws * items)%nat = Z.to_nat LOGICAL.
Proof. pose proof items_size. pose proof write_size_pos. nia. Qed.

Lemma checksum_size : WS * Z.of_nat checksum_items = 8.
Proof. unfold checksum_items. by destruct write_size_ok as [->|[->| ->]]. Qed.

Lemma checksum_size_nat : (ws * checksum_items)%nat = 8%nat.
Proof. unfold checksum_items. by destruct write_size_ok as [->|[->| ->]]. Qed.

Lemma data_range : range_ok 0 (Z.of_nat items).
Proof.
  pose proof items_size. pose proof backing_twice_logical. pose proof log_has_room.
  split_and!; try lia. by apply Z.mod_0_l; pose proof write_size_pos; lia.
Qed.

Lemma checksum_range : range_ok LOGICAL (Z.of_nat checksum_items).
Proof.
  pose proof checksum_size. pose proof log_has_room.
  split_and!; try lia. apply logical_aligned.
Qed.

Lemma log_start_aligned : (LOGICAL + 8) mod WS = 0.
Proof.
  pose proof logical_aligned. rewrite <-checksum_size. by apply aligned_add.
Qed.

Lemma backing_ws_aligned : BACKING mod WS = 0.
Proof.
  pose proof write_size_pos. pose proof log_has_room.
  apply Z.mod_divide; [lia|]. etrans; apply Z.mod_divide;
    [lia|apply logical_aligned|lia|apply backing_aligned].
Qed.

Lemma length_stored_data s : length (stored_data s) = Z.to_nat LOGICAL.
Proof. unfold stored_data. rewrite length_as_bytes, length_words_from. apply items_size_nat. Qed.

Lemma length_base s : length (base s) = Z.to_nat LOGICAL.
Proof.
  unfold base. destruct (_ =? _); [apply length_stored_data|by rewrite length_replicate].
Qed.

Lemma base_is_byte s : Forall is_byte (base s).
Proof.
  unfold base. destruct (_ =? _); [apply as_bytes_is_byte|].
  by apply Forall_replicate.
Qed.

Lemma stored_agree s s' :
  unchanged_outside (LOGICAL + 8) BACKING s s' -> base s' = base s.
Proof.
  intros Hf. pose proof items_size. pose proof checksum_size. pose proof log_has_room.
  unfold base, stored_checksum, stored_data.
  rewrite (words_from_agree s s' 0); [|apply data_range|].
  - rewrite (words_from_agree s s' LOGICAL); [done|apply checksum_range|].
    intros b Hb ?. apply Hf; [done|lia].
  - intros b Hb ?. apply Hf; [done|lia].
Qed.

Lemma read_bulk_full address n values w :
  range_ok address (Z.of_nat n) -> length values = n ->
  backing_store_read_bulk address 0 n values w =
    ((true, words_from (device w) address n), w).
Proof.
  intros Hr Hlen. rewrite read_bulk_run by (rewrite ?Z.mul_0_l, ?Z.add_0_r; done).
  rewrite Z.mul_0_l, Z.add_0_r. do 2 f_equal.
  rewrite <-(app_nil_r values), list_inserts_0_r by (by rewrite length_words_from).
  apply app_nil_r.
Qed.

Lemma read_checksum_run w :
  eval read_checksum w = as_bytes ws (words_from (device w) LOGICAL checksum_items) /\ exec read_checksum w = w.
Proof.
  pose proof checksum_range as Hr. pose proof (valid_u32 _ _ Hr) as Hu.
  unfold read_checksum, checksum_items in *.
  destruct write_size_ok as [E|[E|E]]; rewrite E in *;
    cbn [Z.eqb Pos.eqb]; unfold eval, exec, mbind, stm_bind.
  - by rewrite read_bulk_full by (done || by rewrite E).
  - by rewrite read_bulk_full by (done || by rewrite E).
  - rewrite Z.add_0_r, Hu, on_device_read by (apply (range_valid _ 1); [done|lia]).
    change (Z.to_nat (8 / 8)) with 1%nat. change (Z.to_nat 8) with 8%nat.
    unfold as_bytes. cbn [words_from fmap list_fmap concat fst snd mret stm_ret].
    by rewrite app_nil_r.
Qed.

Lemma raw_get_8 l : length l = 8%nat -> raw_get 8 0 l = le_int l.
Proof. intros Hl. unfold raw_get. by rewrite drop_0, take_ge by lia. Qed.

Lemma read_consolidated_run w :
  length (cache w) = Z.to_nat LOGICAL -> write_address w = LOGICAL + 8 ->
  wear_leveling_read_consolidated w = (WEAR_LEVELING_SUCCESS, w <| cache := base (device w) |>).
Proof.
  intros Hlen Hwa. unfold wear_leveling_read_consolidated. srun.
  rewrite (run_bind _ _ _ _ _ (read_bulk_full 0 items _ w data_range (length_as_ints _ _ _))).
  srun. cbn [fst snd negb].
  rewrite (bool_decide_true (WEAR_LEVELING_SUCCESS ≠ _)),
    (bool_decide_false (WEAR_LEVELING_SUCCESS = _)) by done.
  set (w1 := w <| cache := _ |>). unfold when. srun. rewrite run_eval.
  destruct (read_checksum_run w1) as [-> ->]. rewrite raw_get_8.
  2:{ rewrite length_as_bytes, length_words_from. apply checksum_size_nat. }
  change (device w1) with (device w).
  change (cache w1) with (stored_data (device w)).
  change (le_int _) with (stored_checksum (device w)).
  unfold base. destruct (stored_checksum (device w) =? _); [done|].
  cbn. subst w1. destruct w; cbn in *. by rewrite Hwa.
Qed.

(** *** Consolidation *)

Definition is_cache (c : list Z) : Prop :=
  length c = Z.to_nat LOGICAL /\ Forall is_byte c.

Lemma is_cache_base s : is_cache (base s).
Proof. split; [apply length_base|apply base_is_byte]. Qed.

Lemma is_cache_inserts i k c : Forall is_byte k -> is_cache c -> is_cache (list_inserts i k c).
Proof.
  intros Hk [Hlen Hc]. split; [by rewrite length_inserts|by apply Forall_list_inserts].
Qed.

Lemma ws_of_nat : 8 * Z.of_nat ws = 8 * WS.
Proof. pose proof write_size_pos. lia. Qed.

Lemma cache_words c : is_cache c -> Forall is_word (as_ints ws items c).
Proof.
  intros [Hlen Hc]. pose proof (as_ints_words ws items c Hc) as Hw.
  rewrite ws_of_nat in Hw. apply Hw. rewrite Hlen. symmetry. apply items_size_nat.
Qed.

Lemma checksum_words h : Forall is_word (as_ints ws checksum_items (le_bytes 8 h)).
Proof.
  pose proof (as_ints_words ws checksum_items (le_bytes 8 h) (le_bytes_is_byte _ _)) as Hw.
  rewrite ws_of_nat in Hw. apply Hw. rewrite length_le_bytes.
  symmetry. apply checksum_size_nat.
Qed.

Lemma checksum_of_words h :
  0 <= h < 2 ^ 64 ->
  le_int (as_bytes ws (as_ints ws checksum_items (le_bytes 8 h))) = h.
Proof.
  intros Hh. rewrite as_bytes_ints.
  - by apply le_int_bytes.
  - apply le_bytes_is_byte.
  - rewrite length_le_bytes. symmetry. apply checksum_size_nat.
Qed.

Lemma base_of_stored s c :
  is_cache c -> words_from s 0 items = as_ints ws items c ->
  words_from s LOGICAL checksum_items =
    as_ints ws checksum_items (le_bytes 8 (fnv_64a_buf c FNV1A_64_INIT)) ->
  base s = c.
Proof.
  intros [Hlen Hc] Hd Hk. unfold base, stored_data, stored_checksum. rewrite Hd, Hk.
  rewrite checksum_of_words by by apply fnv_64a_buf_range.
  rewrite as_bytes_ints; [by rewrite Z.eqb_refl|done|].
  rewrite Hlen. symmetry. apply items_size_nat.
Qed.

(** The write of the checksum, whichever branch the write size selects. *)
Lemma write_checksum_run h w :
  locked (device w) = false -> 0 <= h < 2 ^ 64 ->
  (forall b, valid_address b -> LOGICAL <= b < LOGICAL + 8 -> contents (device w) b = 0) ->
  exists s',
    (if WS =? 2 then backing_store_write_bulk LOGICAL 0 (as_ints 2 4 (le_bytes 8 h))
     else if WS =? 4 then backing_store_write_bulk LOGICAL 0 (as_ints 4 2 (le_bytes 8 h))
     else on_device (backing_store_write LOGICAL (raw_get 8 0 (le_bytes 8 h)))) w
      = (true, w <| device := s' |>) /\
    locked s' = false /\
    words_from s' LOGICAL checksum_items = as_ints ws checksum_items (le_bytes 8 h) /\
    unchanged_outside LOGICAL (LOGICAL + 8) (device w) s'.
Proof.
  intros Hl Hh He. pose proof checksum_size as Hcs. pose proof checksum_range as Hr.
  pose proof (checksum_words h) as Hw.
  destruct (write_bulk_run LOGICAL 0 (as_ints ws checksum_items (le_bytes 8 h)) w)
    as (s' & Hrun & Hl' & Hw' & Hf);
    rewrite ?length_as_ints, ?Z.mul_0_l, ?Z.add_0_r, ?Hcs in *; [done..|].
  exists s'. split_and!; [|done..]. rewrite <-Hrun. unfold checksum_items.
  destruct write_size_ok as [E|[E|E]]; rewrite E in *; cbn [Z.eqb Pos.eqb]; [done..|].
  change (Z.to_nat (8 / 8)) with 1%nat. change (Z.to_nat 8) with 8%nat.
  cbn [as_ints backing_store_write_bulk]. unfold mbind, stm_bind.
  rewrite Z.mul_0_l, Z.add_0_r, (valid_u32 _ _ Hr). unfold raw_get.
  cbn [Nat.mul drop]. destruct (on_device _ w) as [[] ?]; done.
Qed.

Lemma consolidate_force_run w :
  unlocked w = true -> locked (device w) = false -> is_cache (cache w) ->
  exists s', wear_leveling_consolidate_force w =
      (WEAR_LEVELING_CONSOLIDATED, w <| device := s' |> <| write_address := LOGICAL + 8 |>) /\
    locked s' = false /\ base s' = cache w /\ erased_from (LOGICAL + 8) s'.
Proof.
  intros Hu Hl Hc. pose proof items_size as Hi. pose proof log_has_room.
  destruct (erase_ok (device w) Hl) as (s1 & Herase & Hl1 & He1).
  destruct (write_bulk_run 0 0 (as_ints ws items (cache w)) (w <| device := s1 |>))
    as (s2 & Hrun2 & Hl2 & Hw2 & Hf2); rewrite ?length_as_ints, ?Hi in *;
    [done|done|apply data_range|by apply cache_words|intros b Hb _; by apply He1|].
  destruct (write_checksum_run (fnv_64a_buf (cache w) FNV1A_64_INIT)
    (w <| device := s2 |>)) as (s3 & Hrun3 & Hl3 & Hw3 & Hf3).
  { done. } { by apply fnv_64a_buf_range. }
  { intros b Hb Hin. cbn. rewrite Hf2; [by apply He1|done|lia]. }
  cbn [device apply_update constant] in Hf2, Hf3. rewrite Z.mul_0_l in *.
  exists s3. split_and!; [|done|..].
  - assert (on_device backing_store_erase w = (true, w <| device := s1 |>)) as Hrun1.
    { unfold on_device. by rewrite Herase. }
    unfold wear_leveling_consolidate_force. srun Hrun1. cbn [negb].
    unfold wear_leveling_write_consolidated, wear_leveling_unlock. srun.
    replace (unlocked (w <| device := s1 |>)) with true by (by destruct w). srun.
    change (cache (w <| device := s1 |>)) with (cache w). srun Hrun2. cbn [negb].
    srun Hrun3. done.
  - apply base_of_stored; [done| |done].
    change (0 + 0) with 0 in Hw2. rewrite <-Hw2.
    apply words_from_agree; [apply data_range|]. intros b Hb Hin. apply Hf3; [done|lia].
  - intros b Hb Hge. rewrite Hf3 by (done || lia). rewrite Hf2 by (done || lia). by apply He1.
Qed.

(** *** Appending to the log *)

Definition log_ready w : Prop :=
  unlocked w = true /\ locked (device w) = false /\ is_cache (cache w) /\
  LOGICAL + 8 <= write_address w < BACKING /\ write_address w mod WS = 0 /\
  erased_from (write_address w) (device w).

(** The words [vs] were appended, or the log filled up on the way and the
    whole cache was consolidated. *)
Definition appended (vs : list Z) w (r : wear_leveling_status_t * wear_leveling) : Prop :=
  let hi := write_address w + WS * Z.of_nat (length vs) in
  exists s', r = (WEAR_LEVELING_SUCCESS, w <| device := s' |> <| write_address := hi |>) /\
    locked s' = false /\ words_from s' (write_address w) (length vs) = vs /\
    unchanged_outside (write_address w) hi (device w) s' /\ hi < BACKING.
Definition consolidated w (r : wear_leveling_status_t * wear_leveling) : Prop :=
  exists s', r = (WEAR_LEVELING_CONSOLIDATED,
                  w <| device := s' |> <| write_address := LOGICAL + 8 |>) /\
    locked s' = false /\ base s' = cache w /\ erased_from (LOGICAL + 8) s'.

Lemma log_ready_range w : log_ready w -> range_ok (write_address w) 1.
Proof.
  intros (_ & _ & _ & ? & Ha & _). pose proof log_has_room.
  pose proof (aligned_gap _ _ Ha backing_ws_aligned). split_and!; [lia|lia|lia|done].
Qed.

Lemma append_raw_run w v :
  log_ready w -> is_word v ->
  appended [v] w (wear_leveling_append_raw v w) \/
  consolidated w (wear_leveling_append_raw v w).
Proof.
  intros Hw Hv. pose proof (log_ready_range _ Hw) as Hr.
  pose proof Hw as (Hu & Hl & Hc & Hwa & Hal & He).
  pose proof (range_valid _ _ Hr ltac:(lia)) as Hva. pose proof backing_max.
  destruct (on_device_write w (write_address w) v) as (s1 & Hrun1 & Hl1 & Hc1 & Hf1);
    [done..|apply He; [done|lia]|].
  assert (u32 (write_address w + WS) = write_address w + WS) as Hu32.
  { apply wrap_small. destruct Hr as (? & ? & ? & ?). pose proof write_size_pos. lia. }
  unfold wear_leveling_append_raw. srun. srun Hrun1. cbn [negb]. srun.
  unfold wear_leveling_consolidate_if_needed. srun.
  change (write_address (w <| device := s1 |>)) with (write_address w). rewrite Hu32.
  cbn [write_address apply_update constant].
  destruct (Z.leb_spec BACKING (write_address w + WS)).
  - right. edestruct consolidate_force_run as (s' & Hrun & Hl' & Hb & He');
      [| | |exists s'; rewrite Hrun; split_and!; [reflexivity|done..]].
    all: by destruct w.
  - left. exists s1. cbn [length]. change (Z.of_nat 1) with 1. rewrite Z.mul_1_r.
    split_and!; [done|done| |done|done].
    cbn [words_from]. by rewrite Hc1.
Qed.

Fixpoint append_all (vs : list Z) : stm wear_leveling wear_leveling_status_t :=
  match vs with
  | [] => mret WEAR_LEVELING_SUCCESS
  | v :: vs => and_then (wear_leveling_append_raw v) (append_all vs)
  end.

Lemma and_then_run m k w w' :
  m w = (WEAR_LEVELING_SUCCESS, w') -> and_then m k w = k w'.
Proof. intros Hm. unfold and_then. by rewrite (run_bind _ _ _ _ _ Hm). Qed.

Lemma and_then_stop m k w st w' :
  m w = (st, w') -> st ≠ WEAR_LEVELING_SUCCESS -> and_then m k w = (st, w').
Proof.
  intros Hm Hst. unfold and_then. rewrite (run_bind _ _ _ _ _ Hm). by rewrite decide_False.
Qed.

Lemma append_all_run vs w :
  log_ready w -> Forall is_word vs ->
  appended vs w (append_all vs w) \/ consolidated w (append_all vs w).
Proof.
  revert w. induction vs as [|v vs IH]; intros w Hw Hvs.
  { left. exists (device w). pose proof Hw as (?&?&?&?&?&?). cbn [length append_all].
    split_and!; [|done|done|done|lia].
    destruct w; cbn. by rewrite Z.mul_0_r, Z.add_0_r. }
  inversion Hvs as [|?? Hv Hvs']; subst. cbn [append_all].
  destruct (append_raw_run w v Hw Hv) as [(s1 & Hrun & Hl1 & Hc1 & Hf1 & Hlt)|(s1 & Hrun & Hrest)].
  2:{ right. exists s1. by rewrite (and_then_stop _ _ _ _ _ Hrun). }
  rewrite (and_then_run _ _ _ _ Hrun). cbn [length] in *.
  change (Z.of_nat 1) with 1 in *. rewrite Z.mul_1_r in *.
  set (w1 := w <| device := s1 |> <| write_address := write_address w + WS |>) in *.
  pose proof Hw as (Hu & Hl & Hc & Hwa & Hal & He). pose proof write_size_pos.
  assert (log_ready w1) as Hw1.
  { subst w1. split_and!; try (by destruct w); cbn in *; [lia|by apply aligned_next|].
    intros b Hb Hge. rewrite Hf1 by (done || lia). apply He; [done|lia]. }
  destruct (IH w1 Hw1 Hvs') as [(s2 & Hrun2 & Hl2 & Hc2 & Hf2 & Hlt2)|(s2 & Hrun2 & Hrest)].
  - left. exists s2. rewrite Hrun2. clear Hrun Hrun2 Hw1. subst w1. cbn in Hc2, Hf2, Hlt2 |- *.
    replace (write_address w + WS * Z.of_nat (S (length vs)))
      with (write_address w + WS + WS * Z.of_nat (length vs)) by lia.
    split_and!; [by destruct w|done| |by eapply unchanged_trans; [|exact Hf1|exact Hf2]; lia|done].
    rewrite Hc2. f_equal. rewrite Hf2.
    + cbn [words_from] in Hc1. congruence.
    + apply (range_valid _ 1); [by apply log_ready_range|lia].
    + lia.
  - right. exists s2. rewrite Hrun2. subst w1. cbn in Hrest |- *. by destruct w.
Qed.
End run.
