(* ===== verification/WearLevelingLog.v ===== *)
(** * Wear levelling: what the log says

    A log is a sequence of items, each the words of one entry with the bytes
    it stores; writing appends an item, playback applies them in order. *)

From S2P Require Import Prelude.
From S2P Require Import WearLeveling.
From S2P Require Import WearLevelingSpec.

Section log.
Context `{!WearLevelingConfig, !BackingStore, !WearLevelingConfigOk, !BackingStoreOk}.

Abbreviation WS := BACKING_STORE_WRITE_SIZE.
Abbreviation BACKING := WEAR_LEVELING_BACKING_SIZE.
Abbreviation LOGICAL := WEAR_LEVELING_LOGICAL_SIZE.
Abbreviation ws := (Z.to_nat WS).
Implicit Types (w : wear_leveling) (s : store).

Record item := { it_words : list Z; it_addr : Z; it_bytes : list Z }.

Definition item_effect (c : list Z) (it : item) : list Z :=
  list_inserts (Z.to_nat (it_addr it)) (it_bytes it) c.
Definition replay (items : list item) (c : list Z) : list Z := foldl item_effect c items.
Definition words_of (items : list item) : list Z := concat (it_words <$> items).

(** Playing back the words of the item stores its bytes and moves on. *)
Definition plays (it : item) : Prop :=
  forall w addr v vs, it_words it = v :: vs ->
    range_ok addr (Z.of_nat (length (it_words it))) ->
    words_from (device w) addr (length (it_words it)) = it_words it ->
    playback_entry (u32 (addr + WS)) v w =
      ((true, addr + WS * Z.of_nat (length (it_words it))),
       w <| cache := item_effect (cache w) it |>).

Definition item_ok (it : item) : Prop :=
  Forall is_byte (it_bytes it) /\ Forall is_word (it_words it) /\
  (exists v vs, it_words it = v :: vs /\ v <> 0) /\ plays it.

(** *** Reading an entry back word by word *)

Lemma range_end a n : range_ok a n -> u32 (a + WS * n) = a + WS * n.
Proof.
  intros (? & ? & ? & ?). pose proof write_size_pos. pose proof backing_max.
  apply wrap_small. assert (0 <= WS * n) by nia. lia.
Qed.

(** [log] after its first [k] bytes were loaded from the entry [full]. *)
Definition loaded (k : nat) (full log : list Z) : list Z := take k full ++ drop k log.

Lemma raw_set_get size i full log :
  Forall is_byte full -> length full = 8%nat -> length log = 8%nat ->
  (size * S i <= 8)%nat ->
  raw_set size i (raw_get size i full) (loaded (size * i) full log) =
    loaded (size * S i) full log.
Proof.
  intros Hb Hf Hl Hs. unfold raw_set, raw_get, loaded.
  set (k := (size * i)%nat). replace (size * S i)%nat with (k + size)%nat in * by (subst k; lia).
  assert (length (take size (drop k full)) = size) as Hlen.
  { rewrite length_take_le; [done|]. rewrite length_drop. lia. }
  rewrite <-Hlen at 1. rewrite le_bytes_int by by apply Forall_take, Forall_drop.
  rewrite <-(Nat.add_0_r k) at 1.
  rewrite <-(length_take_le full k) at 1 by lia. rewrite list_inserts_app_r.
  rewrite <-(take_drop size (drop k log)), list_inserts_0_r.
  - rewrite drop_drop, app_assoc. f_equal.
    by rewrite <-(take_drop k full) at 3; rewrite take_app_add' by (rewrite length_take; lia).
  - rewrite Hlen, length_take, length_drop. lia.
Qed.

Lemma read_log_word_run size i addr full log w :
  valid_address addr -> Forall is_byte full -> length full = 8%nat -> length log = 8%nat ->
  (size * S i <= 8)%nat -> contents (device w) addr = raw_get size i full ->
  read_log_word size i addr (loaded (size * i) full log) w =
    ((true, u32 (addr + WS), loaded (size * S i) full log), w).
Proof.
  intros Hv Hb Hf Hl Hs Hc. unfold read_log_word.
  srun (on_device_read w addr Hv). cbn [fst snd negb].
  by rewrite Hc, raw_set_get.
Qed.

Lemma cache_store_run a bytes w :
  0 <= a -> a + Z.of_nat (length bytes) <= LOGICAL ->
  cache_store a bytes w = (tt, w <| cache := list_inserts (Z.to_nat a) bytes (cache w) |>).
Proof. intros. unfold cache_store. by rewrite decide_True. Qed.

(** The eight bytes of a multi-byte entry. *)
Definition multibyte_entry (a : Z) (value : list Z) : list Z :=
  list_inserts 3 value (LOG_ENTRY_MAKE_MULTIBYTE a (Z.of_nat (length value))).

Definition multibyte_words (a : Z) (value : list Z) : list Z :=
  let log := multibyte_entry a value in
  let len := Z.of_nat (length value) in
  if WS =? 2 then
    [raw_get 2 0 log; raw_get 2 1 log]
      ++ (if 1 <? len then [raw_get 2 2 log] else [])
      ++ (if 3 <? len then [raw_get 2 3 log] else [])
  else if WS =? 4 then
    raw_get 4 0 log :: (if 1 <? len then [raw_get 4 1 log] else [])
  else [raw_get 8 0 log].

Lemma multibyte_append a value w :
  wear_leveling_write_raw_multibyte a value w = append_all (multibyte_words a value) w.
Proof.
  assert (forall m w, and_then m (mret WEAR_LEVELING_SUCCESS) w = m w) as Hend.
  { intros m w'. unfold and_then, mbind, stm_bind. destruct (m w') as [st ?]. cbn.
    case_decide; [by subst|done]. }
  assert (forall m k k' w, (forall w', k w' = k' w') -> and_then m k w = and_then m k' w) as Hext.
  { intros m k k' w' Hk. unfold and_then, mbind, stm_bind. by case_decide. }
  unfold wear_leveling_write_raw_multibyte, multibyte_words. fold (multibyte_entry a value).
  destruct (WS =? 2); [|destruct (WS =? 4)];
    repeat (destruct (_ <? Z.of_nat _)); cbn [app append_all];
    repeat (apply Hext; intros); rewrite ?Hend; done.
Qed.

(** The header of a multi-byte entry. *)
Definition header (a len : Z) : list Z :=
  [len * 8 + a / 2 ^ 16; (a / 2 ^ 8) mod 2 ^ 8; a mod 2 ^ 8].

Lemma header_is_byte a len : 0 <= a < 2 ^ 19 -> 0 <= len < 8 -> Forall is_byte (header a len).
Proof. intros. unfold header, is_byte. repeat constructor; dlia. Qed.

(** Decoding an entry that starts with a header. *)
Lemma header_decodes a len rest :
  0 <= a < 2 ^ 19 -> 0 <= len < 8 ->
  LOG_ENTRY_GET_TYPE (header a len ++ rest) = LOG_ENTRY_TYPE_MULTIBYTE /\
  LOG_ENTRY_MULTIBYTE_GET_ADDRESS (header a len ++ rest) = a /\
  LOG_ENTRY_MULTIBYTE_GET_LENGTH (header a len ++ rest) = len.
Proof.
  intros Ha Hlen. pose proof (header_is_byte a len Ha Hlen) as Hb.
  unfold header in *. rewrite !Forall_cons in Hb. destruct Hb as (? & ? & ? & _).
  cbn [app]. rewrite get_type, get_multibyte_address, get_multibyte_length by done.
  unfold LOG_ENTRY_TYPE_MULTIBYTE. split_and!; dlia.
Qed.

(** The entry, and what its header decodes to. *)
Definition padding (value : list Z) : list Z := drop (length value) [0; 0; 0; 0; 0].

Lemma entry_facts a value :
  0 <= a < 2 ^ 19 -> (1 <= length value <= 5)%nat -> Forall is_byte value ->
  exists h0 h1 h2, multibyte_entry a value = h0 :: h1 :: h2 :: value ++ padding value /\
    Forall is_byte (multibyte_entry a value) /\ length (multibyte_entry a value) = 8%nat /\
    0 < h0 /\
    (forall rest, LOG_ENTRY_GET_TYPE (h0 :: rest) = LOG_ENTRY_TYPE_MULTIBYTE) /\
    (forall rest, LOG_ENTRY_MULTIBYTE_GET_ADDRESS (h0 :: h1 :: h2 :: rest) = a) /\
    (forall rest, LOG_ENTRY_MULTIBYTE_GET_LENGTH (h0 :: rest) = Z.of_nat (length value)).
Proof.
  intros Ha Hlen Hv. set (len := Z.of_nat (length value)).
  assert (multibyte_entry a value = header a len ++ value ++ padding value) as ->.
  { unfold multibyte_entry. rewrite make_multibyte_bytes by lia.
    unfold header. rewrite !list_inserts_cons. cbn [app]. do 3 f_equal.
    unfold padding. rewrite <-(take_drop (length value) [0; 0; 0; 0; 0]) at 1.
    apply list_inserts_0_r. rewrite length_take. simpl. lia. }
  pose proof (header_is_byte a len Ha ltac:(lia)) as Hb.
  assert (Forall is_byte (padding value)) as Hp by (apply Forall_drop; by repeat constructor).
  assert (Forall is_byte (header a len ++ value ++ padding value)) as Hall
    by by repeat apply Forall_app_2.
  unfold header in *. rewrite !Forall_cons in Hb. destruct Hb as (Hb0 & Hb1 & Hb2 & _).
  do 3 eexists. split; [reflexivity|]. split_and!; [done| |dlia| | |].
  - cbn [app length]. rewrite length_app. unfold padding. rewrite length_drop. simpl. lia.
  - intros rest. rewrite get_type by done. unfold LOG_ENTRY_TYPE_MULTIBYTE. dlia.
  - intros rest. rewrite get_multibyte_address by done. dlia.
  - intros rest. rewrite get_multibyte_length by done. dlia.
Qed.

(** The end of [playback_multibyte], all words being loaded. *)
Lemma payload_loaded k h0 h1 h2 value log :
  (3 + length value <= k)%nat ->
  take (length value) (drop 3 (loaded k (h0 :: h1 :: h2 :: value ++ padding value) log)) = value.
Proof.
  intros Hk. unfold loaded. destruct k as [|[|[|k]]]; [lia..|]. cbn [take app drop].
  rewrite drop_0, (take_app_le (take k _)) by (rewrite length_take, length_app; lia).
  rewrite take_take, Nat.min_l by lia. by rewrite take_app_length.
Qed.

Lemma playback_store log value addr a w :
  (1 <= length value <= 5)%nat -> 0 <= a -> a + Z.of_nat (length value) <= LOGICAL ->
  take (length value) (drop 3 log) = value ->
  (payload ← log_payload log (Z.of_nat (length value));
   cache_store a payload;; mret (true, addr) : stm wear_leveling (bool * Z)) w =
    ((true, addr), w <| cache := list_inserts (Z.to_nat a) value (cache w) |>).
Proof.
  intros Hlen Ha Hal Hp. unfold log_payload.
  destruct (Z.leb_spec (Z.of_nat (length value)) 5); [|lia].
  srun. rewrite Nat2Z.id, Hp. by srun (cache_store_run a value w Ha Hal).
Qed.

(** The first word of an entry selects its case. *)
Lemma playback_entry_multibyte a value addr w :
  0 <= a < 2 ^ 19 -> (1 <= length value <= 5)%nat -> Forall is_byte value ->
  playback_entry addr (raw_get ws 0 (multibyte_entry a value)) w =
    playback_multibyte addr (loaded ws (multibyte_entry a value) stack_garbage) w.
Proof.
  intros Ha Hlen Hv.
  destruct (entry_facts a value Ha Hlen Hv) as (h0 & h1 & h2 & Hfull & Hb & Hl & _ & Ht & _).
  unfold playback_entry.
  assert (raw_set ws 0 (raw_get ws 0 (multibyte_entry a value)) stack_garbage =
    loaded ws (multibyte_entry a value) stack_garbage) as ->.
  { pose proof (raw_set_get ws 0 (multibyte_entry a value) stack_garbage Hb Hl entry_size) as Hr.
    rewrite Nat.mul_0_r, Nat.mul_1_r in Hr. apply Hr.
    destruct write_size_ok as [->|[->| ->]]; vm_compute; lia. }
  assert (LOG_ENTRY_GET_TYPE (loaded ws (multibyte_entry a value) stack_garbage) =
    LOG_ENTRY_TYPE_MULTIBYTE) as ->; [|done].
  unfold loaded. rewrite Hfull.
  destruct write_size_ok as [E|[E|E]]; rewrite E; apply Ht.
Qed.

Lemma in_range_u32 a l : 0 <= a -> 0 <= l -> a + l <= LOGICAL ->
  (LOGICAL <? u32 (a + l)) = false.
Proof.
  intros. pose proof logical_max. rewrite wrap_small by lia. by apply Z.ltb_ge.
Qed.

Ltac setup_plays :=
  intros E Ha Hal Hlen Hv w addr v vs Hw Hr Hc; cbn [it_words it_bytes it_addr] in *;
  pose proof logical_max; pose proof backing_max;
  unfold multibyte_words in *; rewrite E in Hw, Hr, Hc; cbn [Z.eqb Pos.eqb app] in Hw, Hr, Hc;
  injection Hw as <- <-;
  change (Z.to_nat WS) with ws in *.

Lemma multibyte_plays_8 a value :
  WS = 8 -> 0 <= a -> a + Z.of_nat (length value) <= LOGICAL ->
  (1 <= length value <= 5)%nat -> Forall is_byte value ->
  plays {| it_words := multibyte_words a value; it_addr := a; it_bytes := value |}.
Proof.
  setup_plays.
  destruct (entry_facts a value) as (h0 & h1 & h2 & Hfull & Hb & Hl & _ & _ & Hga & Hgl);
    [lia|done|done|].
  pose proof (playback_entry_multibyte a value (u32 (addr + WS)) w) as Hpe.
  rewrite E in *. change (Z.to_nat 8) with 8%nat in *. rewrite Hpe by (done || lia).
  cbn [length Z.eqb Pos.eqb] in *. destruct Hr as (Hr0 & _ & Hr1 & Hr2).
  rewrite (wrap_small 32 (addr + _)) by lia.
  unfold playback_multibyte, read_log_word_if. rewrite E. cbn [Z.eqb Pos.eqb]. srun.
  rewrite Hfull. unfold loaded at 1 2 3 4. cbn [take app]. rewrite Hga, Hgl. cbn [negb].
  rewrite in_range_u32 by lia. srun. cbn [negb].
  rewrite playback_store; [|done..|]; [by rewrite Z.mul_1_r|].
  apply (payload_loaded 8). lia.
Qed.

Lemma multibyte_plays_4 a value :
  WS = 4 -> 0 <= a -> a + Z.of_nat (length value) <= LOGICAL ->
  (1 <= length value <= 5)%nat -> Forall is_byte value ->
  plays {| it_words := multibyte_words a value; it_addr := a; it_bytes := value |}.
Proof.
  setup_plays.
  destruct (entry_facts a value) as (h0 & h1 & h2 & Hfull & Hb & Hl & _ & _ & Hga & Hgl);
    [lia|done|done|].
  pose proof (playback_entry_multibyte a value (u32 (addr + WS)) w) as Hpe.
  rewrite E in *. change (Z.to_nat 4) with 4%nat in *. rewrite Hpe by (done || lia).
  destruct Hr as (Hr0 & _ & Hr1 & Hr2).
  assert (forall k, (3 <= k)%nat -> exists r, loaded k (multibyte_entry a value) stack_garbage
    = h0 :: h1 :: h2 :: r) as Hld.
  { intros k Hk. rewrite Hfull. unfold loaded. destruct k as [|[|[|k]]]; [lia..|].
    by eexists. }
  unfold playback_multibyte, read_log_word_if. rewrite E. cbn [Z.eqb Pos.eqb]. srun.
  destruct (Hld 4%nat ltac:(lia)) as [r Hr4]. rewrite Hr4, Hga, Hgl, <-Hr4. cbn [negb].
  rewrite in_range_u32 by lia.
  destruct (Z.ltb_spec 1 (Z.of_nat (length value))); cbn [length] in *.
  - cbn [words_from] in Hc. injection Hc as _ Hc1.
    rewrite E in Hc1. rewrite !(wrap_small 32 (addr + _)) by lia.
    pose proof (read_log_word_run 4 1 (addr + 4) (multibyte_entry a value) stack_garbage w) as Hrd.
    srun (Hrd ltac:(split_and!; [lia|rewrite E; lia|rewrite E in *; dlia]) Hb Hl entry_size
            ltac:(lia) Hc1).
    cbn [negb]. rewrite E, (wrap_small 32 (addr + 4 + 4)) by lia.
    rewrite playback_store; [|done..|].
    + do 2 f_equal. lia.
    + rewrite Hfull. apply payload_loaded. lia.
  - srun. cbn [negb]. rewrite (wrap_small 32 (addr + _)) by lia.
    rewrite playback_store; [by rewrite Z.mul_1_r|done..|].
    rewrite Hfull. apply payload_loaded. lia.
Qed.

Lemma multibyte_plays_2 a value :
  WS = 2 -> 0 <= a -> a + Z.of_nat (length value) <= LOGICAL ->
  (1 <= length value <= 5)%nat -> Forall is_byte value ->
  plays {| it_words := multibyte_words a value; it_addr := a; it_bytes := value |}.
Proof.
  setup_plays.
  destruct (entry_facts a value) as (h0 & h1 & h2 & Hfull & Hb & Hl & _ & _ & Hga & Hgl);
    [lia|done|done|].
  pose proof (playback_entry_multibyte a value (u32 (addr + WS)) w) as Hpe.
  rewrite E in *. change (Z.to_nat 2) with 2%nat in *. rewrite Hpe by (done || lia).
  destruct Hr as (Hr0 & _ & Hr1 & Hr2).
  assert (forall k, (3 <= k)%nat -> exists r, loaded k (multibyte_entry a value) stack_garbage
    = h0 :: h1 :: h2 :: r) as Hld.
  { intros k Hk. rewrite Hfull. unfold loaded. destruct k as [|[|[|k]]]; [lia..|].
    by eexists. }
  assert (forall i addr w', (2 * S i <= 8)%nat -> 0 <= addr -> addr + 2 <= BACKING ->
    addr mod 2 = 0 -> contents (device w') addr = raw_get 2 i (multibyte_entry a value) ->
    read_log_word 2 i addr (loaded (2 * i) (multibyte_entry a value) stack_garbage) w' =
    ((true, addr + 2, loaded (2 * S i) (multibyte_entry a value) stack_garbage), w')) as Hrd.
  { intros i ad w' Hi ????. rewrite read_log_word_run; try done.
    - by rewrite E, wrap_small by lia.
    - split_and!; [done|by rewrite E|by rewrite E].
    - apply entry_size. }
  unfold playback_multibyte, read_log_word_if. rewrite E. cbn [Z.eqb Pos.eqb].
  cbn [length words_from] in *. injection Hc as _ Hc1 Hc'. rewrite E in *.
  rewrite (wrap_small 32 (addr + _)) by lia.
  srun (Hrd 1%nat (addr + 2) w ltac:(lia) ltac:(lia) ltac:(lia) ltac:(dlia) Hc1).
  destruct (Hld 4%nat ltac:(lia)) as [r Hr4].
  change (2 * 2)%nat with 4%nat. rewrite Hr4, Hga, Hgl, <-Hr4. cbn [negb].
  rewrite in_range_u32 by lia.
  destruct (Z.ltb_spec 1 (Z.of_nat (length value))); cbn [app length words_from] in *;
    [injection Hc' as Hc2 Hc'; rewrite E in *;
     srun (Hrd 2%nat (addr + 2 + 2) w ltac:(lia) ltac:(lia) ltac:(lia) ltac:(dlia) Hc2)|srun];
    cbn [negb];
    (destruct (Z.ltb_spec 3 (Z.of_nat (length value))); cbn [app length words_from] in *; [|]); try lia;
    [injection Hc' as Hc3;
     srun (Hrd 3%nat (addr + 2 + 2 + 2) w ltac:(lia) ltac:(lia) ltac:(lia) ltac:(dlia) Hc3)|srun..];
    cbn [negb].
  all: rewrite playback_store; [do 2 f_equal; lia|done..|].
  all: rewrite Hfull; apply payload_loaded; lia.
Qed.

Lemma raw_get_word size i full :
  Forall is_byte full -> Z.of_nat size = WS -> (size * S i <= length full)%nat ->
  is_word (raw_get size i full).
Proof.
  intros Hb Hs Hl. unfold raw_get, is_word.
  pose proof (le_int_range (take size (drop (size * i) full))) as Hr.
  rewrite length_take_le, Hs in Hr by (rewrite length_drop; lia).
  apply Hr. by apply Forall_take, Forall_drop.
Qed.

Lemma raw_get_nonzero size b bs :
  0 < b -> (0 < size)%nat -> Forall is_byte (b :: bs) -> raw_get size 0 (b :: bs) <> 0.
Proof.
  intros Hb Hs Hf. unfold raw_get. rewrite Nat.mul_0_r, drop_0.
  destruct size as [|size]; [lia|]. cbn [take le_int].
  apply Forall_cons_1 in Hf as [_ Hf].
  pose proof (le_int_range (take size bs) (Forall_take _ _ _ Hf)). lia.
Qed.

Lemma multibyte_item_ok a value :
  0 <= a -> a + Z.of_nat (length value) <= LOGICAL ->
  (1 <= length value <= 5)%nat -> Forall is_byte value ->
  item_ok {| it_words := multibyte_words a value; it_addr := a; it_bytes := value |}.
Proof.
  intros Ha Hal Hlen Hv. pose proof logical_max.
  destruct (entry_facts a value) as (h0 & h1 & h2 & Hfull & Hb & Hl & Hpos & _);
    [lia|done|done|].
  split_and!; cbn [it_words it_bytes].
  - done.
  - unfold multibyte_words. destruct write_size_ok as [E|[E|E]]; rewrite E;
      cbn [Z.eqb Pos.eqb]; repeat destruct (_ <? _); cbn [app]; repeat constructor;
      apply raw_get_word; rewrite ?E; done || lia.
  - assert (forall n, (0 < n)%nat -> raw_get n 0 (multibyte_entry a value) <> 0) as Hnz.
    { intros n Hn. rewrite Hfull in *. by apply raw_get_nonzero. }
    unfold multibyte_words. destruct write_size_ok as [E|[E|E]]; rewrite E;
      cbn [Z.eqb Pos.eqb app]; do 2 eexists; split; [done|apply Hnz; lia|done|apply Hnz; lia
        |done|apply Hnz; lia].
  - destruct write_size_ok as [E|[E|E]];
      [by apply multibyte_plays_2|by apply multibyte_plays_4|by apply multibyte_plays_8].
Qed.

(** The two one-word entries of a 2-byte backing store. *)
Lemma garbage_split : exists g0 g1 g, stack_garbage = g0 :: g1 :: g.
Proof.
  pose proof entry_size. destruct stack_garbage as [|g0 [|g1 g]]; simpl in *; try lia.
  by repeat eexists.
Qed.

Lemma loaded_word_2 b0 b1 rest :
  is_byte b0 -> is_byte b1 ->
  exists g, raw_set 2 0 (raw_get 2 0 (b0 :: b1 :: rest)) stack_garbage = b0 :: b1 :: g.
Proof.
  intros. destruct garbage_split as (g0 & g1 & g & ->). exists g.
  unfold raw_set, raw_get. change (2 * 0)%nat with 0%nat.
  change (take 2 (drop 0 (b0 :: b1 :: rest))) with [b0; b1].
  assert (le_bytes 2 (le_int [b0; b1]) = [b0; b1]) as ->; [|done].
  apply (le_bytes_int [b0; b1]). forall_list.
Qed.

Lemma optimized_64_item_ok a v :
  WS = 2 -> 0 <= a < 64 -> a < LOGICAL -> is_byte v ->
  item_ok {| it_words := [raw_get 2 0 (LOG_ENTRY_MAKE_OPTIMIZED_64 a v)];
             it_addr := a; it_bytes := [v] |}.
Proof.
  intros E Ha Hal Hv. rewrite make_optimized_64_bytes by done.
  assert (is_byte (64 + a)) as Hb0 by (unfold is_byte; lia).
  assert (Forall is_byte [64 + a; v; 0; 0; 0; 0; 0; 0]) as Hb by forall_list.
  split_and!; cbn [it_words it_bytes it_addr].
  - forall_list.
  - apply Forall_singleton. apply raw_get_word; [done|lia|simpl; lia].
  - do 2 eexists. split; [done|]. apply raw_get_nonzero; [lia|lia|done].
  - intros w addr w0 ws0 Hw Hr Hc. cbn [it_words it_bytes it_addr length] in *.
    injection Hw as <- <-. pose proof (range_end _ _ Hr) as Hu.
    change (Z.of_nat 1) with 1 in *. rewrite Z.mul_1_r in *. rewrite Hu.
    unfold playback_entry. rewrite E. change (Z.to_nat 2) with 2%nat.
    destruct (loaded_word_2 (64 + a) v [0; 0; 0; 0; 0; 0] Hb0 Hv) as [g ->].
    rewrite get_type by done. replace ((64 + a) / 64) with 1 by dlia.
    rewrite get_optimized_64_address by done. replace ((64 + a) mod 64) with a by dlia.
    change (LOG_ENTRY_OPTIMIZED_64_GET_VALUE (64 + a :: v :: g)) with v.
    change (1 =? LOG_ENTRY_TYPE_MULTIBYTE) with false.
    change (1 =? LOG_ENTRY_TYPE_OPTIMIZED_64) with true. cbn [Z.eqb Pos.eqb andb].
    destruct (Z.leb_spec LOGICAL a); [lia|].
    by srun (cache_store_run a [v] w ltac:(lia) ltac:(simpl; lia)).
Qed.

Lemma word_01_item_ok a v :
  WS = 2 -> 0 <= a < 16384 -> a mod 2 = 0 -> a + 2 <= LOGICAL -> v = 0 \/ v = 1 ->
  item_ok {| it_words := [raw_get 2 0 (LOG_ENTRY_MAKE_WORD_01 a v)];
             it_addr := a; it_bytes := [v; 0] |}.
Proof.
  intros E Ha Hev Hal Hv. rewrite make_word_01_bytes by done.
  set (b0 := 128 + v * 32 + a / 2 ^ 9). set (b1 := (a / 2) mod 2 ^ 8).
  assert (is_byte b0 /\ is_byte b1 /\ is_byte v) as (Hb0 & Hb1 & Hbv).
  { unfold is_byte, b0, b1. split_and!; dlia. }
  assert (Forall is_byte [b0; b1; 0; 0; 0; 0; 0; 0]) as Hb by forall_list.
  split_and!; cbn [it_words it_bytes it_addr].
  - forall_list.
  - apply Forall_singleton. apply raw_get_word; [done|lia|simpl; lia].
  - do 2 eexists. split; [done|]. apply raw_get_nonzero; [unfold b0; dlia|lia|done].
  - intros w addr w0 ws0 Hw Hr Hc. cbn [it_words it_bytes it_addr length] in *.
    injection Hw as <- <-. pose proof (range_end _ _ Hr) as Hu.
    change (Z.of_nat 1) with 1 in *. rewrite Z.mul_1_r in *. rewrite Hu.
    unfold playback_entry. rewrite E. change (Z.to_nat 2) with 2%nat.
    destruct (loaded_word_2 b0 b1 [0; 0; 0; 0; 0; 0] Hb0 Hb1) as [g ->].
    rewrite get_type, get_word_01_address, get_word_01_value by done.
    replace (b0 / 64) with 2 by (unfold b0; dlia).
    replace (b0 mod 32 * 2 ^ 9 + b1 * 2) with a by (unfold b0, b1; dlia).
    replace (b0 / 32 mod 2) with v by (unfold b0; dlia).
    change (2 =? LOG_ENTRY_TYPE_MULTIBYTE) with false.
    change (2 =? LOG_ENTRY_TYPE_OPTIMIZED_64) with false.
    change (2 =? LOG_ENTRY_TYPE_WORD_01) with true. cbn [Z.eqb Pos.eqb andb].
    pose proof logical_max. rewrite (wrap_small 32) by lia.
    destruct (Z.leb_spec LOGICAL (a + 1)); [lia|]. rewrite Z.add_0_r.
    srun (cache_store_run a [v] w ltac:(lia) ltac:(simpl; lia)).
    srun (cache_store_run (a + 1) [0] (w <| cache := list_inserts (Z.to_nat a) [v] (cache w) |>)
            ltac:(lia) ltac:(simpl; lia)).
    unfold item_effect. cbn [it_addr it_bytes]. change [v; 0] with ([v] ++ [0]).
    rewrite list_inserts_app_l. cbn [length].
    replace (Z.to_nat (a + 1)) with (1 + Z.to_nat a)%nat by lia. by destruct w.
Qed.
End log.
