(* ===== verification/WearLevelingRefine.v ===== *)
(** * Wear levelling: durability

    [coherent] relates the cache to what the backing store holds; every
    operation preserves it, and initialisation after a power cycle rebuilds
    the cache from it.  So the emulated EEPROM behaves as an array of bytes
    that survives power cycles ([wear_leveling_refines_array]). *)

From S2P Require Import Prelude.
From S2P Require Import WearLeveling.
From S2P Require Import WearLevelingSpec.
From S2P Require Import WearLevelingLog.

Section refine.
Context `{!WearLevelingConfig, !BackingStore, !WearLevelingConfigOk, !BackingStoreOk}.

Abbreviation WS := BACKING_STORE_WRITE_SIZE.
Abbreviation BACKING := WEAR_LEVELING_BACKING_SIZE.
Abbreviation LOGICAL := WEAR_LEVELING_LOGICAL_SIZE.
Abbreviation zeros := (replicate (Z.to_nat LOGICAL) 0).
Implicit Types (w : wear_leveling) (s : store).

Abbreviation log_start := (LOGICAL + 8).

(** The log of [w] holds [items], and is erased beyond them. *)
Definition log_holds w (items : list item) : Prop :=
  Forall item_ok items /\
  write_address w = log_start + WS * Z.of_nat (length (words_of items)) /\
  words_from (device w) log_start (length (words_of items)) = words_of items /\
  write_address w < BACKING /\ erased_from (write_address w) (device w).

Definition is_open w : Prop := unlocked w = true /\ locked (device w) = false.
Definition is_shut w : Prop := unlocked w = false /\ locked (device w) = true.

(** The store determines the cache. *)
Definition settled w : Prop :=
  exists items, log_holds w items /\ cache w = replay items (base (device w)).
Definition coherent w : Prop := is_shut w /\ settled w.

(** *** Playback *)

Lemma words_of_app items1 items2 : words_of (items1 ++ items2) = words_of items1 ++ words_of items2.
Proof. unfold words_of. by rewrite fmap_app, concat_app. Qed.

Lemma replay_is_cache items c : Forall item_ok items -> is_cache c -> is_cache (replay items c).
Proof.
  intros Hi. revert c. induction Hi as [|it items Hit Hi IH]; intros c Hc; [done|].
  cbn [replay foldl]. apply IH. apply is_cache_inserts; [apply Hit|done].
Qed.

Lemma settled_is_cache w : settled w -> is_cache (cache w).
Proof.
  intros (items & (Hi & _) & ->). apply replay_is_cache; [done|apply is_cache_base].
Qed.

Lemma length_words_of items : Forall item_ok items -> (length items <= length (words_of items))%nat.
Proof.
  induction 1 as [|it items Hit Hi IH]; [done|].
  destruct Hit as (_ & _ & (v & vs & Hw & _) & _).
  unfold words_of in *. cbn [fmap list_fmap concat length]. rewrite Hw, length_app.
  cbn [length]. lia.
Qed.

Lemma range_split a (n m : nat) :
  range_ok a (Z.of_nat (n + m)) ->
  range_ok a (Z.of_nat n) /\ range_ok (a + WS * Z.of_nat n) (Z.of_nat m).
Proof.
  intros (? & ? & ? & ?). pose proof write_size_pos.
  split; split_and!; first [lia | by apply aligned_add | nia].
Qed.

Lemma playback_loop_run items : forall w addr fuel,
  Forall item_ok items ->
  range_ok addr (Z.of_nat (length (words_of items))) ->
  words_from (device w) addr (length (words_of items)) = words_of items ->
  erased_from (addr + WS * Z.of_nat (length (words_of items))) (device w) ->
  (length items < fuel)%nat ->
  playback_loop fuel addr w =
    ((WEAR_LEVELING_SUCCESS, addr + WS * Z.of_nat (length (words_of items))),
     w <| cache := replay items (cache w) |>).
Proof.
  induction items as [|it items IH]; intros w addr fuel Hi Hr Hw He Hf;
    (destruct fuel as [|fuel]; [cbn in Hf; lia|]); cbn [playback_loop].
  - cbn in *. rewrite Z.mul_0_r, Z.add_0_r in *.
    destruct (Z.leb_spec BACKING addr); [by destruct w|].
    assert (valid_address addr) as Hv.
    { destruct Hr as (? & ? & ? & Ha).
      pose proof (aligned_gap _ _ Ha backing_ws_aligned). split_and!; [done|lia|done]. }
    srun (on_device_read w addr Hv). cbn [fst snd negb]. rewrite He by (done || lia).
    by destruct w.
  - inversion Hi as [|?? Hit Hi']; subst.
    destruct Hit as (_ & _ & (v & vs & Hvs & Hnz) & Hplay).
    unfold words_of in Hr, Hw, He |- *. cbn [fmap list_fmap concat] in Hr, Hw, He |- *.
    fold (words_of items) in Hr, Hw, He |- *. rewrite length_app in Hr, Hw, He |- *.
    apply range_split in Hr as [Hr1 Hr2].
    rewrite words_from_app in Hw. apply app_inj_1 in Hw as [Hw1 Hw2];
      [|apply length_words_from].
    assert (Z.of_nat (length (it_words it)) > 0) as Hpos by (rewrite Hvs; simpl; lia).
    pose proof (range_valid _ _ Hr1 ltac:(lia)) as Hv.
    pose proof Hv as (_ & Hv2 & _). pose proof write_size_pos.
    destruct (Z.leb_spec BACKING addr); [lia|].
    srun (on_device_read w addr Hv). cbn [fst snd negb].
    assert (contents (device w) addr = v) as ->.
    { rewrite Hvs in Hw1. cbn [length words_from] in Hw1. congruence. }
    destruct (Z.eqb_spec v 0); [done|].
    srun (Hplay w addr v vs Hvs Hr1 Hw1).
    rewrite IH; [|done|done|done| |cbn [length] in Hf; lia].
    + rewrite Nat2Z.inj_add. destruct w. f_equal. f_equal. lia.
    + intros b Hb Hge. apply He; [done|]. cbn in Hge. lia.
Qed.

(** *** Writing *)

Lemma log_ready_of w items :
  is_open w -> is_cache (cache w) -> log_holds w items -> log_ready w.
Proof.
  intros [Hu Hl] Hc (Hi & Hwa & Hw & Hlt & He). pose proof write_size_pos.
  split_and!; try done; [nia|]. rewrite Hwa. apply aligned_add, log_start_aligned.
Qed.

Lemma replay_app items it c : replay (items ++ [it]) c = item_effect (replay items c) it.
Proof. unfold replay. by rewrite foldl_app. Qed.

(** Appending one item: the log gains it, or everything is consolidated. *)
Lemma append_item it items w :
  is_open w -> is_cache (cache w) -> log_holds w items -> item_ok it ->
  exists w', is_open w' /\ cache w' = cache w /\ fault w' = fault w /\
    ((append_all (it_words it) w = (WEAR_LEVELING_SUCCESS, w') /\
      log_holds w' (items ++ [it]) /\ base (device w') = base (device w)) \/
     (append_all (it_words it) w = (WEAR_LEVELING_CONSOLIDATED, w') /\
      log_holds w' [] /\ base (device w') = cache w)).
Proof.
  intros Ho Hc Hlog Hit. pose proof (log_ready_of _ _ Ho Hc Hlog) as Hready.
  pose proof Hlog as (Hi & Hwa & Hw & Hlt & He). pose proof log_has_room.
  pose proof write_size_pos.
  destruct Ho as [Hu Hl].
  destruct (append_all_run (it_words it) w Hready (proj1 (proj2 Hit)))
    as [(s' & -> & Hl' & Hw' & Hf & Hlt')|(s' & -> & Hl' & Hb & He')].
  - exists (w <| device := s' |>
             <| write_address := write_address w + WS * Z.of_nat (length (it_words it)) |>).
    split; [split; [by destruct w|done]|]. split; [by destruct w|].
    split; [by destruct w|]. left. split; [done|]. split.
    + split_and!; cbn.
      * apply Forall_app. split; [done|]. by apply Forall_singleton.
      * rewrite words_of_app, length_app, Hwa. unfold words_of at 3. cbn.
        rewrite app_nil_r. lia.
      * rewrite words_of_app, length_app, words_from_app, <-Hwa.
        unfold words_of at 3 4. cbn. rewrite !app_nil_r, Hw'. f_equal.
        etrans; [|exact Hw]. apply words_from_agree.
        { split_and!; [lia|lia|lia|apply log_start_aligned]. }
        intros b Hb Hin. apply Hf; [done|lia].
      * done.
      * intros b Hb Hge. rewrite Hf by (done || lia). apply He; [done|lia].
    + cbn. apply stored_agree. intros b Hb Hout. apply Hf; [done|nia].
  - exists (w <| device := s' |> <| write_address := log_start |>).
    split; [split; [by destruct w|done]|]. split; [by destruct w|].
    split; [by destruct w|]. right. split; [done|]. split; [|done].
    split_and!; cbn; try done; lia.
Qed.

(** What a write leaves: the cache untouched and rebuilt by the store. *)
Definition written w w' : Prop :=
  is_open w' /\ settled w' /\ cache w' = cache w /\ fault w' = fault w.

(** The bytes [p] from [address] on are in the cache but not yet logged. *)
Definition pending (address : Z) (p : list Z) w : Prop :=
  exists items, log_holds w items /\
    cache w = list_inserts (Z.to_nat address) p (replay items (base (device w))).

(** One iteration: the first [k] pending bytes become the item [it]. *)
Lemma write_iteration (k : nat) it address p m rest w :
  is_open w -> is_cache (cache w) -> pending address p w ->
  item_ok it -> it_addr it = address -> 0 <= address -> it_bytes it = take k p ->
  (forall w, m w = append_all (it_words it) w) ->
  (forall w', is_open w' -> cache w' = cache w -> fault w' = fault w ->
     pending (address + Z.of_nat k) (drop k p) w' ->
     exists st w'', rest w' = (st, w'') /\ st <> WEAR_LEVELING_FAILED /\ written w' w'') ->
  exists st w', and_then m rest w = (st, w') /\ st <> WEAR_LEVELING_FAILED /\ written w w'.
Proof.
  intros Ho Hc (items & Hlog & Hpend) Hit Haddr Ha Hbytes Hm Hrest.
  destruct (append_item it items w Ho Hc Hlog Hit)
    as (w1 & Ho1 & Hc1 & Hf1 & [(Hrun & Hlog1 & Hb1)|(Hrun & Hlog1 & Hb1)]);
    rewrite <-Hm in Hrun.
  - rewrite (and_then_run _ _ _ _ Hrun).
    destruct (Hrest w1) as (st & w2 & Hrun2 & Hst & Ho2 & Hs2 & Hc2 & Hf2); [done..| |].
    + exists (items ++ [it]). split; [done|].
      rewrite replay_app, Hb1, Hc1, Hpend. unfold item_effect. rewrite Haddr, Hbytes.
      rewrite Z2Nat.inj_add, Nat2Z.id by lia. by rewrite list_inserts_split.
    + exists st, w2. split_and!; [done..|]. split_and!; congruence || done.
  - rewrite (and_then_stop _ _ _ _ _ Hrun) by done.
    exists WEAR_LEVELING_CONSOLIDATED, w1. split_and!; [done..|]. split_and!; [done| |done..].
    exists []. by rewrite Hb1, Hc1.
Qed.

Lemma append_single v w : wear_leveling_append_raw v w = append_all [v] w.
Proof.
  cbn [append_all]. unfold and_then, mbind, stm_bind.
  destruct (wear_leveling_append_raw v w) as [st ?]. cbn. case_decide; [by subst|done].
Qed.

(** The 16-bit value the word optimisation looks at. *)
Lemma word_value b0 b1 rest :
  is_byte b0 -> is_byte b1 ->
  Z.lor (u16 (Z.shiftl (default 0 ((b0 :: b1 :: rest) !! 1%nat)) 8)) b0 = b1 * 2 ^ 8 + b0.
Proof.
  unfold is_byte. intros. cbn [lookup list_lookup default from_option id].
  rewrite Z.shiftl_mul_pow2 by lia. rewrite wrap_small by dlia. by rewrite (lor_add 8) by dlia.
Qed.

Lemma write_raw_loop_run fuel : forall address p w,
  is_open w -> is_cache (cache w) -> pending address p w ->
  0 <= address -> address + Z.of_nat (length p) <= LOGICAL -> Forall is_byte p ->
  (length p <= fuel)%nat ->
  exists st w', write_raw_loop fuel address p w = (st, w') /\
    st <> WEAR_LEVELING_FAILED /\ written w w'.
Proof.
  pose proof logical_max as Hmax.
  induction fuel as [|fuel IH]; intros address p w Ho Hc Hp Ha Hle Hb Hf.
  { destruct p; [|simpl in Hf; lia]. exists WEAR_LEVELING_SUCCESS, w.
    destruct Hp as (items & ? & ?). split_and!; [done..|]. split_and!; [done| |done..].
    by exists items. }
  destruct p as [|b0 p].
  { exists WEAR_LEVELING_SUCCESS, w.
    destruct Hp as (items & ? & ?). split_and!; [done..|]. split_and!; [done| |done..].
    by exists items. }
  assert (forall k w', (1 <= k <= length (b0 :: p))%nat ->
    is_open w' -> cache w' = cache w -> fault w' = fault w ->
    pending (address + Z.of_nat k) (drop k (b0 :: p)) w' ->
    exists st w'', write_raw_loop fuel (u32 (address + Z.of_nat k)) (drop k (b0 :: p)) w'
      = (st, w'') /\ st <> WEAR_LEVELING_FAILED /\ written w' w'') as Hnext.
  { intros k w' Hk Ho' Hc' _ Hp'. rewrite wrap_small by lia.
    apply IH; [done|by rewrite Hc'|done|lia|rewrite length_drop; lia|by apply Forall_drop|].
    rewrite length_drop. simpl in *. lia. }
  pose proof (Forall_cons_1 _ _ _ Hb) as [Hb0 Hb'].
  cbn [write_raw_loop].
  destruct ((WS =? 2) && _ && _ && _ && _) eqn:Hword; [|destruct ((WS =? 2) && (address <? 64)) eqn:Hopt].
  - rewrite !andb_true_iff, orb_true_iff, !Z.eqb_eq, Z.leb_le, Z.ltb_lt in Hword.
    destruct Hword as ((((E & Hlen) & Hev) & Hlt) & Hv).
    destruct p as [|b1 p]; [simpl in Hlen; lia|].
    pose proof (Forall_cons_1 _ _ _ Hb') as [Hb1 _]. rewrite word_value in * by done.
    unfold is_byte in Hb0, Hb1. assert (b1 = 0) as -> by lia.
    rewrite Z.mul_0_l, Z.add_0_l in *. simpl in Hle, Hlen.
    apply (write_iteration 2 {| it_words := [raw_get 2 0 (LOG_ENTRY_MAKE_WORD_01 address b0)];
      it_addr := address; it_bytes := [b0; 0] |} address (b0 :: 0 :: p));
      [done..| | |done| |apply append_single|].
    + apply word_01_item_ok; [done|lia|done|lia|lia].
    + done.
    + done.
    + intros w' ????. apply (Hnext 2%nat); [simpl; lia|done..].
  - apply andb_prop in Hopt as [E Hlt]. apply Z.eqb_eq in E. apply Z.ltb_lt in Hlt.
    simpl in Hle.
    apply (write_iteration 1 {| it_words := [raw_get 2 0 (LOG_ENTRY_MAKE_OPTIMIZED_64 address b0)];
      it_addr := address; it_bytes := [b0] |} address (b0 :: p));
      [done..| | |done| |apply append_single|].
    + apply optimized_64_item_ok; [done|lia|lia|done].
    + done.
    + done.
    + intros w' ????. apply (Hnext 1%nat); [simpl; lia|done..].
  - set (k := Nat.min _ _).
    assert (1 <= k <= 5 /\ k <= length (b0 :: p))%nat as [Hk1 Hk2]
      by (subst k; unfold LOG_ENTRY_MULTIBYTE_MAX_BYTES; simpl; lia).
    assert (length (take k (b0 :: p)) = k) as Hlk by (rewrite length_take; lia).
    apply (write_iteration k {| it_words := multibyte_words address (take k (b0 :: p));
      it_addr := address; it_bytes := take k (b0 :: p) |} address (b0 :: p));
      [done..| | |done| |intros; apply multibyte_append|].
    + apply multibyte_item_ok; rewrite ?Hlk; [done|simpl in *; lia|lia|by apply Forall_take].
    + done.
    + done.
    + intros w' ????. apply Hnext; [lia|done..].
Qed.

(** *** The operations *)

Lemma device_frame w s items :
  (forall a, valid_address a -> contents s a = contents (device w) a) ->
  log_holds w items ->
  log_holds (w <| device := s |>) items /\ base s = base (device w).
Proof.
  intros Hs (Hi & Hwa & Hw & Hlt & He). pose proof log_has_room. pose proof write_size_pos.
  split; [|by apply stored_agree; intros b Hb _; apply Hs].
  split_and!; cbn; try done.
  - etrans; [|exact Hw]. apply words_from_agree; [|intros; by apply Hs].
    split_and!; [lia|lia|lia|apply log_start_aligned].
  - intros b Hb Hge. rewrite Hs by done. by apply He.
Qed.

Lemma settled_device w s :
  (forall a, valid_address a -> contents s a = contents (device w) a) ->
  settled w -> settled (w <| device := s |>).
Proof.
  intros Hs (items & Hlog & Hc). destruct (device_frame w s items Hs Hlog) as [Hlog' Hb].
  exists items. split; [done|]. cbn. by rewrite Hb.
Qed.

Lemma unlock_run w :
  is_shut w -> exists s', wear_leveling_unlock w =
      (STATUS_SUCCESS, w <| device := s' |> <| unlocked := true |>) /\ locked s' = false /\
    (forall a, valid_address a -> contents s' a = contents (device w) a).
Proof.
  intros [Hu Hl]. destruct (unlock_ok _ Hl) as (s' & Hrun & Hl' & Hs').
  exists s'. split; [|done]. unfold wear_leveling_unlock. srun. rewrite Hu.
  assert (on_device backing_store_unlock w = (true, w <| device := s' |>)) as Hd
    by (unfold on_device; by rewrite Hrun).
  by srun Hd.
Qed.

Lemma lock_run w :
  is_open w -> exists s', wear_leveling_lock w =
      (STATUS_SUCCESS, w <| device := s' |> <| unlocked := false |>) /\ locked s' = true /\
    (forall a, valid_address a -> contents s' a = contents (device w) a).
Proof.
  intros [Hu Hl]. destruct (lock_ok _ Hl) as (s' & Hrun & Hl' & Hs').
  exists s'. split; [|done]. unfold wear_leveling_lock. srun. rewrite Hu. cbn [negb].
  assert (on_device backing_store_lock w = (true, w <| device := s' |>)) as Hd
    by (unfold on_device; by rewrite Hrun).
  by srun Hd.
Qed.

Lemma cache_load_run a l w :
  0 <= a -> a + Z.of_nat l <= LOGICAL ->
  cache_load a l w = (take l (drop (Z.to_nat a) (cache w)), w).
Proof. intros. unfold cache_load. by rewrite decide_True. Qed.

Lemma inserts_same i (p c : list Z) :
  take (length p) (drop i c) = p -> list_inserts i p c = c.
Proof.
  intros Hp. apply list_eq. intros j. 
  destruct (decide (i <= j < i + length p)%nat) as [Hin|Hout].
  - assert (length p <= length (drop i c))%nat as Hl.
    { rewrite <-Hp at 1. rewrite length_take. lia. }
    rewrite length_drop in Hl. rewrite list_lookup_inserts by lia. rewrite <-Hp, lookup_take_lt by lia. rewrite lookup_drop. f_equal. lia.
  - destruct (decide (j < i)%nat); [by rewrite list_lookup_inserts_lt by lia|].
    by rewrite list_lookup_inserts_ge by lia.
Qed.

(** The range check of [wear_leveling_write] and [wear_leveling_read]. *)
Lemma range_check a l : 0 <= a -> a + l <= LOGICAL -> 0 <= l -> (LOGICAL <? u32 (a + l)) = false.
Proof. intros. pose proof logical_max. rewrite wrap_small by lia. by apply Z.ltb_ge. Qed.

Lemma write_run a value w :
  coherent w -> 0 <= a -> a + Z.of_nat (length value) <= LOGICAL -> Forall is_byte value ->
  exists st w', wear_leveling_write a value w = (st, w') /\ st <> WEAR_LEVELING_FAILED /\
    coherent w' /\ cache w' = list_inserts (Z.to_nat a) value (cache w) /\ fault w' = fault w.
Proof.
  intros [Hs Hset] Ha Hle Hb. pose proof (settled_is_cache _ Hset) as Hc.
  unfold wear_leveling_write. rewrite range_check by lia.
  srun (cache_load_run a (length value) w Ha Hle). case_decide as Hsame.
  { exists WEAR_LEVELING_SUCCESS, w. by rewrite inserts_same. }
  srun (cache_store_run a value w Ha Hle).
  set (w1 := w <| cache := _ |>).
  destruct (unlock_run w1) as (s2 & Hrun2 & Hl2 & Hs2); [by destruct w|].
  srun Hrun2. rewrite decide_False by done.
  set (w2 := w1 <| device := s2 |> <| unlocked := true |>).
  assert (pending a value w2) as Hp.
  { destruct Hset as (items & Hlog & Hcache).
    destruct (device_frame w s2 items Hs2 Hlog) as [Hlog2 Hb2].
    exists items. split; [exact Hlog2|]. cbn. rewrite Hb2. by rewrite <-Hcache. }
  destruct (write_raw_loop_run (length value) a value w2)
    as (st & w3 & Hrun3 & Hst & Ho3 & Hset3 & Hc3 & Hf3).
  { by destruct w. } { by apply is_cache_inserts. } { done. } { done. } { done. } { done. }
  { done. }
  fold (wear_leveling_write_raw a value) in Hrun3. srun Hrun3.
  assert (exists st', st' <> WEAR_LEVELING_FAILED /\ match st with
      | WEAR_LEVELING_SUCCESS => wear_leveling_consolidate_if_needed
      | _ => mret st end w3 = (st', w3)) as (st' & Hst' & Hrun4).
  { destruct st; [done| |by eexists].
    exists WEAR_LEVELING_SUCCESS. split; [done|].
    unfold wear_leveling_consolidate_if_needed. srun.
    destruct Hset3 as (? & (_ & _ & _ & Hlt & _) & _).
    by destruct (Z.leb_spec BACKING (write_address w3)); [lia|]. }
  srun Hrun4. rewrite decide_True by done.
  destruct (lock_run w3 Ho3) as (s5 & Hrun5 & Hl5 & Hs5). srun Hrun5.
  rewrite decide_False by done. exists st', (w3 <| device := s5 |> <| unlocked := false |>).
  split; [done|]. split; [done|]. split; [split|split].
  - by destruct w3.
  - by apply (settled_device w3 s5 Hs5).
  - by transitivity (cache w3); [destruct w3|rewrite Hc3].
  - by transitivity (fault w3); [destruct w3|rewrite Hf3].
Qed.

Lemma read_run a len w :
  0 <= a -> a + Z.of_nat len <= LOGICAL ->
  wear_leveling_read a len w =
    ((WEAR_LEVELING_SUCCESS, take len (drop (Z.to_nat a) (cache w))), w).
Proof.
  intros Ha Hle. unfold wear_leveling_read. rewrite range_check by lia.
  by srun (cache_load_run a len w Ha Hle).
Qed.

(** Power off and on: RAM is lost, the device is locked, its cells stay. *)
Definition power_cycled w w' : Prop :=
  is_shut w' /\ fault w' = fault w /\
  forall a, valid_address a -> contents (device w') a = contents (device w) a.

Lemma log_fuel items w :
  log_holds w items -> (length items < playback_fuel)%nat.
Proof.
  intros (Hi & Hwa & Hw & Hlt & He). pose proof write_size_pos as Hp. pose proof log_has_room.
  pose proof (length_words_of items Hi). unfold playback_fuel.
  assert (WS <> 0) as Hnz by lia.
  pose proof (Z.div_mod BACKING WS Hnz) as Hd. rewrite backing_ws_aligned in Hd.
  assert (WS * Z.of_nat (length (words_of items)) < WS * (BACKING / WS)) as Hm by lia.
  apply Z.mul_lt_mono_pos_l in Hm; lia.
Qed.

Lemma init_run w w0 :
  coherent w -> power_cycled w w0 ->
  exists w', wear_leveling_init w0 = (WEAR_LEVELING_SUCCESS, w') /\
    coherent w' /\ cache w' = cache w /\ fault w' = fault w.
Proof.
  intros [_ (items & Hlog & Hc)] ([Hu Hl] & Hf & Hs).
  destruct (init_ok (device w0)) as (s1 & Hrun1 & Hl1 & Hs1).
  pose proof log_has_room. pose proof write_size_pos.
  assert (base s1 = base (device w)) as Hb.
  { apply stored_agree. intros a Ha _. by rewrite Hs1, Hs. }
  unfold wear_leveling_init, wear_leveling_clear_cache. srun.
  set (w1 := w0 <| cache := zeros |> <| write_address := log_start |>).
  assert (on_device backing_store_init w1 = (true, w1 <| device := s1 |>)) as Hrun2.
  { unfold on_device. change (device w1) with (device w0). by rewrite Hrun1. }
  srun Hrun2. cbn [negb].
  assert (length (cache (w1 <| device := s1 |>)) = Z.to_nat LOGICAL) as Hlc
    by (destruct w0; apply length_replicate).
  assert (write_address (w1 <| device := s1 |>) = log_start) as Hwa1 by (by destruct w0).
  srun (read_consolidated_run (w1 <| device := s1 |>) Hlc Hwa1).
  rewrite decide_False by done.
  set (w2 := w1 <| device := s1 |> <| cache := _ |>).
  destruct (device_frame w s1 items) as [Hlog1 _];
    [by intros a Ha; rewrite Hs1, Hs|done|].
  pose proof Hlog1 as (Hi & Hwa & Hw & Hlt & He).
  change (write_address (w <| device := s1 |>)) with (write_address w) in Hwa, Hlt, He.
  change (device (w <| device := s1 |>)) with s1 in Hw, He.
  unfold wear_leveling_playback_log. srun.
  assert (range_ok log_start (Z.of_nat (length (words_of items)))) as Hr
    by (split_and!; [lia|lia|lia|apply log_start_aligned]).
  rewrite Hwa in He.
  srun (playback_loop_run items w2 log_start playback_fuel Hi Hr Hw He (log_fuel _ _ Hlog)).
  rewrite decide_False by done. unfold wear_leveling_consolidate_if_needed. srun.
  rewrite <-Hwa.
  change (write_address (_ <| write_address := write_address w |>)) with (write_address w).
  rewrite (proj2 (Z.leb_gt BACKING _) Hlt). srun.
  rewrite decide_False by done.
  eexists. split; [reflexivity|]. split; [|split; [|by destruct w0]].
  - split; [split; [by destruct w0|cbn; by rewrite Hl1]|].
    exists items. split; [|cbn; by destruct w0].
    split; [done|]. split; [done|]. split; [done|]. split; [done|].
    cbn. by rewrite Hwa.
  - cbn. rewrite Hc, Hb. done.
Qed.
End refine.
