(* ===== verification/WearLevelingSafety.v ===== *)
(** * Wear levelling: what holds for every driver

    No assumption is made on the device here: its operations may fail at any
    time and return any word.  The cache keeps its size, playback terminates
    with enough fuel, the accesses of the API functions stay inside the cache,
    and the only out-of-bounds access is that of a corrupt log entry. *)

From S2P Require Import Prelude.
From S2P Require Import WearLeveling.
From S2P Require Import WearLevelingSpec.

Section safety.
Context `{!WearLevelingConfig, !BackingStore, !WearLevelingConfigOk}.

Abbreviation WS := BACKING_STORE_WRITE_SIZE.
Abbreviation BACKING := WEAR_LEVELING_BACKING_SIZE.
Abbreviation LOGICAL := WEAR_LEVELING_LOGICAL_SIZE.
Abbreviation log_start := (LOGICAL + 8).
Implicit Types (w : wear_leveling) (s : store).

(** *** The cache keeps its size *)

Definition cache_size_ok w : Prop := length (cache w) = Z.to_nat LOGICAL.

(** A step that leaves an invariant of the RAM part alone. *)
Definition ram (P : list Z -> bool -> Prop) w : Prop := P (cache w) (fault w).

Lemma preserves_on_device {A} P (m : stm store A) : preserves (ram P) (on_device m).
Proof. intros w Hw. by destruct w. Qed.

Lemma ram_frame (P : list Z -> bool -> Prop) w w' :
  cache w' = cache w -> fault w' = fault w -> ram P w -> ram P w'.
Proof. unfold ram. by intros -> ->. Qed.

#[local] Hint Resolve preserves_on_device : preserves.
Ltac frame := try (eapply ram_frame; [..|eassumption]; by match goal with
  |- _ = ?f ?w => destruct w end).

Lemma preserves_unlock P : preserves (ram P) wear_leveling_unlock.
Proof. unfold wear_leveling_unlock. preserve; frame. Qed.
Lemma preserves_lock P : preserves (ram P) wear_leveling_lock.
Proof. unfold wear_leveling_lock. preserve; frame. Qed.
#[local] Hint Resolve preserves_unlock preserves_lock : preserves.

Lemma preserves_write_bulk P a i vs : preserves (ram P) (backing_store_write_bulk a i vs).
Proof. revert i. induction vs; intros i; cbn [backing_store_write_bulk]; preserve. Qed.
Lemma preserves_read_bulk P a i n vs : preserves (ram P) (backing_store_read_bulk a i n vs).
Proof. revert i vs. induction n; intros; cbn [backing_store_read_bulk]; preserve. Qed.
#[local] Hint Resolve preserves_write_bulk preserves_read_bulk : preserves.

Lemma preserves_consolidate_force P : preserves (ram P) wear_leveling_consolidate_force.
Proof.
  unfold wear_leveling_consolidate_force, wear_leveling_write_consolidated. preserve; frame.
Qed.
#[local] Hint Resolve preserves_consolidate_force : preserves.

Lemma preserves_consolidate_if_needed P : preserves (ram P) wear_leveling_consolidate_if_needed.
Proof. unfold wear_leveling_consolidate_if_needed. preserve. Qed.
#[local] Hint Resolve preserves_consolidate_if_needed : preserves.

Lemma preserves_append_raw P v : preserves (ram P) (wear_leveling_append_raw v).
Proof. unfold wear_leveling_append_raw. preserve; frame. Qed.
#[local] Hint Resolve preserves_append_raw : preserves.

Lemma preserves_and_then P m k :
  preserves (ram P) m -> preserves (ram P) k -> preserves (ram P) (and_then m k).
Proof. unfold and_then. preserve. Qed.

Lemma preserves_write_raw P a p : preserves (ram P) (wear_leveling_write_raw a p).
Proof.
  unfold wear_leveling_write_raw. generalize (length p) as fuel. intros fuel. revert a p.
  induction fuel as [|fuel IH]; intros a p; destruct p as [|b p]; cbn [write_raw_loop]; preserve.
  all: unfold wear_leveling_write_raw_multibyte;
    repeat first [apply preserves_and_then | preserve1]; apply IH.
Qed.
#[local] Hint Resolve preserves_write_raw : preserves.

(** *** The size of the cache *)

Lemma cache_size_ok_frame w w' : cache w' = cache w -> cache_size_ok w -> cache_size_ok w'.
Proof. unfold cache_size_ok. by intros ->. Qed.

Lemma preserves_size {A} (m : stm wear_leveling A) :
  (forall P, preserves (ram P) m) -> preserves cache_size_ok m.
Proof. intros Hm w Hw. apply (Hm (fun c _ => length c = Z.to_nat LOGICAL)). done. Qed.

Lemma size_cache_store a bs : preserves cache_size_ok (cache_store a bs).
Proof.
  intros w Hw. unfold exec, cache_store. case_decide; [|by destruct w].
  unfold cache_size_ok in *. destruct w; cbn in *. by rewrite length_inserts.
Qed.
Lemma size_cache_load a n : preserves cache_size_ok (cache_load a n).
Proof. intros w Hw. unfold exec, cache_load. case_decide; by destruct w. Qed.
Lemma size_clear_cache : preserves cache_size_ok wear_leveling_clear_cache.
Proof. apply preserves_modify. intros w _. destruct w. apply length_replicate. Qed.
Lemma size_on_device {A} (m : stm store A) : preserves cache_size_ok (on_device m).
Proof. apply preserves_size. intros. apply preserves_on_device. Qed.
#[local] Hint Resolve size_cache_store size_cache_load size_clear_cache size_on_device : preserves.
#[local] Hint Extern 3 (preserves cache_size_ok _) =>
  apply preserves_size; intros; solve [auto with preserves] : preserves.

Lemma length_read_bulk a i n vs w : length (eval (backing_store_read_bulk a i n vs) w).2 = length vs.
Proof.
  revert i vs w. induction n as [|n IH]; intros i vs w; [done|].
  cbn [backing_store_read_bulk]. rewrite eval_bind. destruct (negb _).
  - apply length_insert.
  - rewrite IH. apply length_insert.
Qed.

Lemma size_read_checksum : preserves cache_size_ok read_checksum.
Proof. unfold read_checksum. preserve. Qed.
#[local] Hint Resolve size_read_checksum : preserves.

Lemma size_read_consolidated : preserves cache_size_ok wear_leveling_read_consolidated.
Proof.
  intros w Hw. unfold wear_leveling_read_consolidated. rewrite exec_bind.
  set (m := backing_store_read_bulk _ _ _ _).
  assert (length (eval m w).2 = items) as Hl.
  { unfold m. rewrite length_read_bulk. apply length_as_ints. }
  change (exec (gets cache) w) with w. change (eval (gets cache) w) with (cache w). fold m.
  rewrite exec_bind.
  assert (cache_size_ok (exec m w)) as Hw1 by (revert w Hw m Hl; intros; subst m; 
    apply (preserves_size _ (fun P => preserves_read_bulk P _ _ _ _) _ Hw)).
  revert Hl Hw1. generalize (eval m w). generalize (exec m w). intros w1 r Hl. revert w1.
  match goal with |- forall w, _ -> cache_size_ok (exec ?k w) => change (preserves cache_size_ok k) end.
  preserve.
  unfold cache_size_ok. cbn. rewrite length_as_bytes, Hl. apply items_size_nat.
Qed.
#[local] Hint Resolve size_read_consolidated : preserves.

Lemma size_read_log_word_if b size i a log :
  preserves cache_size_ok (read_log_word_if b size i a log).
Proof. unfold read_log_word_if, read_log_word. preserve. Qed.
#[local] Hint Resolve size_read_log_word_if : preserves.

Lemma size_playback_entry a v : preserves cache_size_ok (playback_entry a v).
Proof.
  unfold playback_entry, playback_multibyte, log_payload, set_fault. preserve.
  all: by eapply cache_size_ok_frame; [|eassumption]; match goal with
    |- _ = ?f ?w => destruct w end.
Qed.
#[local] Hint Resolve size_playback_entry : preserves.

Lemma size_playback_loop fuel a : preserves cache_size_ok (playback_loop fuel a).
Proof. revert a. induction fuel; intros a; cbn [playback_loop]; preserve. Qed.
#[local] Hint Resolve size_playback_loop : preserves.

(** Whatever the driver does, [wear_leveling_init], [wear_leveling_erase],
    [wear_leveling_write] and [wear_leveling_read] leave a cache of exactly
    the logical size. *)
Theorem cache_size_invariant :
  preserves cache_size_ok wear_leveling_init /\
  preserves cache_size_ok wear_leveling_erase /\
  (forall a v, preserves cache_size_ok (wear_leveling_write a v)) /\
  (forall a n, preserves cache_size_ok (wear_leveling_read a n)).
Proof.
  split; [|split; [|split]].
  - unfold wear_leveling_init, wear_leveling_playback_log. preserve.
    all: by eapply cache_size_ok_frame; [|eassumption]; match goal with
    |- _ = ?f ?w => destruct w end.
  - unfold wear_leveling_erase. preserve.
  - intros. unfold wear_leveling_write. preserve.
  - intros. unfold wear_leveling_read. preserve.
Qed.

(** *** Playback terminates *)

Lemma read_log_word_if_address b size i a log :
  0 <= a -> a + WS < 2 ^ 32 ->
  returns (read_log_word_if b size i a log) (fun r => r.1.2 = a \/ r.1.2 = a + WS).
Proof.
  intros Ha Hlt. pose proof write_size_pos. unfold read_log_word_if, read_log_word.
  apply returns_if; [|by apply returns_ret; left].
  apply returns_seq; intros r.
  apply returns_if; apply returns_ret; cbn; [by left|right]. apply wrap_small. lia.
Qed.

Ltac log_word x H :=
  eapply returns_bind; [apply read_log_word_if_address; lia|];
  intros [[? x] ?] H; cbn [fst snd] in H;
  apply returns_if; [apply returns_ret; cbn; lia|].

Lemma playback_entry_address a v :
  0 <= a -> a + 24 < 2 ^ 32 ->
  returns (playback_entry a v) (fun r => a <= r.2 <= a + 24).
Proof.
  intros Ha Hlt. pose proof write_size_pos.
  assert (WS <= 8) by (destruct write_size_ok as [->|[->| ->]]; lia).
  assert (forall b (m : stm wear_leveling unit),
    returns (m;; mret (b, a)) (fun r : bool * Z => a <= r.2 <= a + 24)) as Hdone.
  { intros. apply returns_seq; intros ?. apply returns_ret. cbn. lia. }
  assert (forall b, returns (S := wear_leveling) (mret (b, a)) (fun r : bool * Z => a <= r.2 <= a + 24)) as Hret.
  { intros. apply returns_ret. cbn. lia. }
  unfold playback_entry. cbv zeta.
  apply returns_if; [|apply returns_if; [|apply returns_if; [|apply Hret]]].
  2:{ apply returns_if; [apply Hret|apply Hdone]. }
  2:{ apply returns_if; [apply Hret|]. apply returns_seq; intros ?. apply Hdone. }
  unfold playback_multibyte. log_word a1 Ha1.
  cbv zeta. apply returns_if; [apply returns_ret; cbn; lia|].
  eapply (returns_bind _ _ (fun r => a1 <= r.1.2 <= a1 + 16)).
  - apply returns_if; [|apply returns_if].
    + eapply returns_bind; [apply read_log_word_if_address; lia|].
      intros [[? a2] ?] Ha2; cbn [fst snd] in Ha2.
      apply returns_if; [apply returns_ret; cbn; lia|].
      intros s. destruct (read_log_word_if_address (3 <? LOG_ENTRY_MULTIBYTE_GET_LENGTH l) 2 3 a2 l0
        ltac:(lia) ltac:(lia) s); lia.
    + intros s. destruct (read_log_word_if_address (1 <? LOG_ENTRY_MULTIBYTE_GET_LENGTH l) 4 1 a1 l
        ltac:(lia) ltac:(lia) s); lia.
    + apply returns_ret. cbn. lia.
  - intros [[? a3] ?] Ha3; cbn [fst snd] in Ha3.
    apply returns_if; [apply returns_ret; cbn; lia|].
    apply returns_seq; intros ?. apply returns_seq; intros ?.
    apply returns_ret. cbn. lia.
Qed.

Lemma playback_next a v :
  0 <= a < BACKING ->
  returns (playback_entry (u32 (a + WS)) v) (fun r => a + WS <= r.2 <= a + 32).
Proof.
  intros Ha s. pose proof backing_max. pose proof write_size_pos.
  assert (WS <= 8) by (destruct write_size_ok as [->|[->| ->]]; lia).
  rewrite wrap_small by lia.
  assert (0 <= a + WS) as H1' by lia. assert (a + WS + 24 < 2 ^ 32) as H2' by lia.
  pose proof (playback_entry_address (a + WS) v H1' H2' s) as Hp. cbn in Hp. lia.
Qed.

Lemma playback_loop_more fuel k : forall a w,
  0 <= a -> BACKING <= a + WS * Z.of_nat fuel ->
  playback_loop (fuel + k) a w = playback_loop fuel a w.
Proof.
  pose proof write_size_pos.
  induction fuel as [|fuel IH]; intros a w Ha Hb; cbn [playback_loop Nat.add].
  - destruct k; cbn [playback_loop]; [done|].
    destruct (Z.leb_spec BACKING a); [done|lia].
  - destruct (Z.leb_spec BACKING a); [done|]. unfold mbind, stm_bind.
    destruct (on_device (backing_store_read a) w) as [[ok v] w1]. cbn [fst snd].
    destruct (negb ok); [done|]. destruct (v =? 0); [done|].
    assert (0 <= a < BACKING) as Ha' by lia.
    pose proof (playback_next a v Ha' w1) as Hn. unfold eval in Hn.
    destruct (playback_entry _ v w1) as [[go a'] w2]. cbn [fst snd] in *.
    destruct go; [|done]. apply IH; [lia|]. lia.
Qed.

(** Whatever the driver returns, the playback loop ends within
    [playback_fuel] iterations: further fuel changes nothing. *)
Theorem playback_loop_fuel k w :
  playback_loop (playback_fuel + k) log_start w = playback_loop playback_fuel log_start w.
Proof.
  pose proof log_has_room. pose proof write_size_pos.
  apply playback_loop_more; [lia|]. unfold playback_fuel.
  rewrite Z2Nat.id by (apply Z.div_pos; lia).
  assert (WS <> 0) as Hnz by lia.
  pose proof (Z.div_mod BACKING WS Hnz) as Hd. rewrite backing_ws_aligned in Hd. lia.
Qed.

Lemma playback_loop_address fuel : forall a,
  0 <= a -> returns (playback_loop fuel a) (fun r => a <= r.2).
Proof.
  pose proof write_size_pos.
  induction fuel as [|fuel IH]; intros a Ha; cbn [playback_loop]; [apply returns_ret; cbn; lia|].
  destruct (Z.leb_spec BACKING a); [apply returns_ret; cbn; lia|].
  apply returns_seq; intros [ok v].
  apply returns_if; [apply returns_ret; cbn; lia|].
  apply returns_if; [apply returns_ret; cbn; lia|].
  eapply returns_bind; [apply playback_next; lia|]. intros [go a'] Ha'. cbn in Ha'.
  apply returns_if; [|apply returns_ret; cbn; lia].
  intros s. pose proof (IH a' ltac:(lia) s) as Hs. cbn in Hs. lia.
Qed.

Definition write_address_ok w : Prop := log_start <= write_address w < BACKING.

Lemma clear_cache_write_address w : write_address_ok (exec wear_leveling_clear_cache w).
Proof. pose proof log_has_room. destruct w. unfold write_address_ok. cbn. lia. Qed.

Lemma consolidate_force_write_address w :
  eval wear_leveling_consolidate_force w = WEAR_LEVELING_FAILED \/
  write_address_ok (exec wear_leveling_consolidate_force w).
Proof.
  pose proof log_has_room. unfold wear_leveling_consolidate_force. rewrite eval_bind, exec_bind.
  destruct (negb _); [by left|right].
  rewrite !exec_bind. unfold write_address_ok. cbn. lia.
Qed.

Lemma playback_log_write_address w :
  eval wear_leveling_playback_log w = WEAR_LEVELING_FAILED \/
  write_address_ok (exec wear_leveling_playback_log w).
Proof.
  pose proof log_has_room. assert (0 <= log_start) as H0' by lia.
  pose proof (playback_loop_address playback_fuel log_start H0' w) as Ha.
  unfold wear_leveling_playback_log. rewrite eval_bind, exec_bind.
  destruct (eval (playback_loop playback_fuel log_start) w) as [st a]. cbn in Ha.
  rewrite eval_bind, exec_bind. set (w4 := exec (modify _) _).
  assert (write_address w4 = a) as Hwa by done.
  destruct (decide (st = _)); [apply consolidate_force_write_address|].
  unfold wear_leveling_consolidate_if_needed. rewrite eval_bind, exec_bind.
  change (eval (gets write_address) w4) with (write_address w4).
  change (exec (gets write_address) w4) with w4. rewrite Hwa.
  destruct (Z.leb_spec BACKING a); [apply consolidate_force_write_address|].
  right. change (log_start <= write_address w4 < BACKING). lia.
Qed.

(** Whatever the driver returns, initialisation leaves the write
    address inside the log area of the backing store. *)
Theorem init_write_address w : write_address_ok (exec wear_leveling_init w).
Proof.
  unfold wear_leveling_init. rewrite 2!exec_bind. destruct (negb _); [apply clear_cache_write_address|].
  rewrite exec_bind. case_decide; [apply clear_cache_write_address|].
  rewrite exec_bind. case_decide as Hst; [apply clear_cache_write_address|].
  by destruct (playback_log_write_address
    (exec wear_leveling_read_consolidated
      (exec (on_device backing_store_init) (exec wear_leveling_clear_cache w)))).
Qed.

(** *** Accesses stay inside the cache *)

Definition no_fault w : Prop := fault w = false.

Lemma preserves_no_fault {A} (m : stm wear_leveling A) :
  (forall P, preserves (ram P) m) -> preserves no_fault m.
Proof. intros Hm w Hw. apply (Hm (fun _ f => f = false)). done. Qed.
#[local] Hint Extern 3 (preserves no_fault _) =>
  apply preserves_no_fault; intros; solve [auto with preserves] : preserves.

Lemma no_fault_clear_cache : preserves no_fault wear_leveling_clear_cache.
Proof. apply preserves_modify. by intros []. Qed.
#[local] Hint Resolve no_fault_clear_cache : preserves.

Lemma in_range a n :
  0 <= a < 2 ^ 31 -> Z.of_nat n < 2 ^ 31 -> (LOGICAL <? u32 (a + Z.of_nat n)) = false ->
  0 <= a /\ a + Z.of_nat n <= LOGICAL.
Proof. intros Ha Hn. rewrite wrap_small by lia. rewrite Z.ltb_ge. lia. Qed.

Lemma no_fault_cache_load a n :
  0 <= a /\ a + Z.of_nat n <= LOGICAL -> preserves no_fault (cache_load a n).
Proof. intros Ha w Hw. unfold exec, cache_load. by rewrite decide_True. Qed.
Lemma no_fault_cache_store a p :
  0 <= a /\ a + Z.of_nat (length p) <= LOGICAL -> preserves no_fault (cache_store a p).
Proof. intros Ha w Hw. unfold exec, cache_store. rewrite decide_True by done. by destruct w. Qed.
#[local] Hint Resolve no_fault_cache_load no_fault_cache_store : preserves.

(** C25: With an address and a length whose sum does not wrap, the range
    checks of write and read keep every access inside the cache, for any
    driver; an erase makes no access out of bounds either. *)
Theorem api_accesses_in_bounds a value n :
  0 <= a < 2 ^ 31 -> Z.of_nat (length value) < 2 ^ 31 -> Z.of_nat n < 2 ^ 31 ->
  preserves no_fault (wear_leveling_write a value) /\
  preserves no_fault (wear_leveling_read a n) /\
  preserves no_fault wear_leveling_erase.
Proof.
  intros Ha Hv Hn. split; [|split].
  - unfold wear_leveling_write. cbv zeta. destruct (_ <? _) eqn:E; [preserve|].
    apply in_range in E; [|done..]. preserve.
  - unfold wear_leveling_read. destruct (_ <? _) eqn:E; [preserve|].
    apply in_range in E; [|done..]. preserve.
  - unfold wear_leveling_erase. preserve.
Qed.

(** The range check adds in 32 bits: an address just below [2^32] passes it. *)
Lemma write_range_check_wraps : (LOGICAL <? u32 ((2 ^ 32 - 1) + 1)) = false.
Proof. pose proof log_has_room. apply Z.ltb_ge. change (u32 _) with 0. lia. Qed.

(** A failing consolidation leaves the log full, and the next append writes
    past the end of the backing store. *)
Lemma append_raw_failed_erase v w s1 s2 :
  write_address w = BACKING - WS ->
  backing_store_write (BACKING - WS) v (device w) = (true, s1) ->
  backing_store_erase s1 = (false, s2) ->
  wear_leveling_append_raw v w =
    (WEAR_LEVELING_FAILED, w <| write_address := BACKING |> <| device := s2 |>).
Proof.
  intros Hwa Hw He. pose proof write_size_pos. pose proof backing_max. pose proof log_has_room.
  unfold wear_leveling_append_raw. srun. rewrite Hwa.
  assert (on_device (backing_store_write (BACKING - WS) v) w = (true, w <| device := s1 |>)) as Hd
    by (unfold on_device; by rewrite Hw).
  srun Hd. cbn [negb]. srun. change (write_address (w <| device := s1 |>)) with (write_address w).
  rewrite Hwa. replace (BACKING - WS + WS) with BACKING by lia. rewrite wrap_small by lia.
  unfold wear_leveling_consolidate_if_needed. srun. cbn [write_address apply_update constant].
  rewrite Z.leb_refl. unfold wear_leveling_consolidate_force, on_device, mbind, stm_bind.
  cbn. rewrite He. done.
Qed.

(** When the erase of a consolidation fails, [write_address] stays at the
    end of the store: the append that filled the log reports the failure,
    and the next append still asks the driver to write at the address
    [BACKING], past the last word of the backing store. *)
Theorem failed_erase_overruns_log v v' w s1 s2 s3 :
  write_address w = BACKING - WS ->
  backing_store_write (BACKING - WS) v (device w) = (true, s1) ->
  backing_store_erase s1 = (false, s2) ->
  backing_store_write BACKING v' s2 = (false, s3) ->
  let w' := exec (wear_leveling_append_raw v) w in
  eval (wear_leveling_append_raw v) w = WEAR_LEVELING_FAILED /\
  wear_leveling_append_raw v' w' = (WEAR_LEVELING_FAILED, w' <| device := s3 |>).
Proof.
  intros Hwa Hw He Hw' w'. subst w'. unfold eval, exec.
  rewrite (append_raw_failed_erase v w s1 s2) by done. split; [done|].
  unfold wear_leveling_append_raw, on_device, mbind, stm_bind. cbn. by rewrite Hw'.
Qed.

(** When the driver cannot unlock the store, a write that changes
    something fails; the cache holds the new value although nothing was
    logged, and the lock state is as before. *)
Theorem write_unlock_failure a value w s' :
  0 <= a -> a + Z.of_nat (length value) <= LOGICAL ->
  take (length value) (drop (Z.to_nat a) (cache w)) <> value ->
  unlocked w = false -> backing_store_unlock (device w) = (false, s') ->
  wear_leveling_write a value w =
    (WEAR_LEVELING_FAILED,
     w <| cache := list_inserts (Z.to_nat a) value (cache w) |> <| device := s' |>).
Proof.
  intros Ha Hle Hne Hu Hd. pose proof logical_max. unfold wear_leveling_write.
  rewrite wrap_small by lia. destruct (Z.ltb_spec LOGICAL (a + Z.of_nat (length value))); [lia|].
  assert (cache_load a (length value) w = (take (length value) (drop (Z.to_nat a) (cache w)), w)) as Hload
    by (unfold cache_load; by rewrite decide_True).
  srun Hload. rewrite decide_False by done.
  assert (cache_store a value w = (tt, w <| cache := list_inserts (Z.to_nat a) value (cache w) |>)) as Hstore
    by (unfold cache_store; by rewrite decide_True).
  srun Hstore. unfold wear_leveling_unlock, wear_leveling_lock, on_device, mbind, stm_bind.
  cbn. destruct w; cbn in *. rewrite Hu. cbn. by rewrite Hd.
Qed.

(** With an 8-byte write size, a multibyte log entry whose
    length field is 6 or 7 (never written by the code, but the field has
    three bits) passes the checks of playback, and its payload is copied
    from past the end of the 8-byte entry. *)
Theorem playback_overreads_long_entry address value w :
  WS = 8 -> let log := raw_set 8 0 value stack_garbage in
  LOG_ENTRY_GET_TYPE log = LOG_ENTRY_TYPE_MULTIBYTE ->
  5 < LOG_ENTRY_MULTIBYTE_GET_LENGTH log ->
  u32 (LOG_ENTRY_MULTIBYTE_GET_ADDRESS log + LOG_ENTRY_MULTIBYTE_GET_LENGTH log) <= LOGICAL ->
  fault (exec (playback_entry address value) w) = true.
Proof.
  intros E log Ht Hl Ha. unfold playback_entry. rewrite E.
  change (Z.to_nat 8) with 8%nat. fold log. rewrite Ht. cbn [Z.eqb LOG_ENTRY_TYPE_MULTIBYTE].
  unfold playback_multibyte. rewrite E. cbn [Z.eqb Pos.eqb].
  unfold read_log_word_if. srun. unfold exec. srun. cbn [negb].
  apply Z.ltb_ge in Ha. rewrite Ha. srun. cbn [negb].
  unfold log_payload. apply Z.leb_gt in Hl. rewrite Hl. unfold set_fault. srun.
  unfold cache_store, mbind, stm_bind. case_decide; by destruct w.
Qed.
End safety.
