(* ===== verification/WearLevelingArray.v ===== *)
(** * Wear levelling: the refinement

    [array_op] is what users of the module rely on: an array of
    [LOGICAL] bytes that reads as zero at first, keeps the last value written
    to each byte across power cycles, and rejects accesses outside it.  On a
    working device the code computes exactly that. *)

From S2P Require Import Prelude.
From S2P Require Import WearLeveling.
From S2P Require Import WearLevelingSpec.
From S2P Require Import WearLevelingLog.
From S2P Require Import WearLevelingRefine.
From S2P Require Import WearLevelingSafety.

Inductive wear_leveling_op :=
  | Write (address : Z) (value : list Z)
  | Read (address : Z) (length : nat)
  | Erase
  | PowerCycle.

(** The arguments are C values: bytes, and an address and a length that do
    not wrap around when added. *)
Definition op_ok (op : wear_leveling_op) : Prop :=
  match op with
  | Write a v => 0 <= a < 2 ^ 31 /\ Z.of_nat (length v) < 2 ^ 31 /\ Forall is_byte v
  | Read a n => 0 <= a < 2 ^ 31 /\ Z.of_nat n < 2 ^ 31
  | Erase | PowerCycle => True
  end.

(** The specification: success, bytes read, and the array afterwards. *)
Definition array_op (size : Z) (op : wear_leveling_op) : stm (list Z) (bool * list Z) :=
  fun m =>
    match op with
    | Write a v =>
        if a + Z.of_nat (length v) <=? size
        then ((true, []), list_inserts (Z.to_nat a) v m) else ((false, []), m)
    | Read a n =>
        if a + Z.of_nat n <=? size
        then ((true, take n (drop (Z.to_nat a) m)), m) else ((false, []), m)
    | Erase => ((true, []), replicate (Z.to_nat size) 0)
    | PowerCycle => ((true, []), m)
    end.

Fixpoint run_list {S A B} (f : A -> stm S B) (l : list A) : stm S (list B) :=
  match l with
  | [] => mret []
  | a :: l => b ← f a; bs ← run_list f l; mret (b :: bs)
  end.

Section array.
Context `{!WearLevelingConfig, !BackingStore, !WearLevelingConfigOk, !BackingStoreOk}.

Abbreviation WS := BACKING_STORE_WRITE_SIZE.
Abbreviation BACKING := WEAR_LEVELING_BACKING_SIZE.
Abbreviation LOGICAL := WEAR_LEVELING_LOGICAL_SIZE.
Abbreviation zeros := (replicate (Z.to_nat LOGICAL) 0).
Abbreviation log_start := (LOGICAL + 8).
Implicit Types (w : wear_leveling) (s : store).

(** Losing power locks the device and keeps its cells. *)
Context (power_cut : store -> store).
Hypothesis power_cut_locked : forall s, locked (power_cut s) = true.
Hypothesis power_cut_contents : forall s a, valid_address a ->
  contents (power_cut s) a = contents s a.

(** RAM at reset: the static variables are zero. *)
Definition reset (s : store) (f : bool) : wear_leveling :=
  {| cache := zeros; write_address := 0; unlocked := false; device := s; fault := f |}.

Definition succeeded (st : wear_leveling_status_t) : bool :=
  bool_decide (st <> WEAR_LEVELING_FAILED).

Definition run_op (op : wear_leveling_op) : stm wear_leveling (bool * list Z) :=
  match op with
  | Write a v => st ← wear_leveling_write a v; mret (succeeded st, [])
  | Read a n => r ← wear_leveling_read a n; mret (succeeded r.1, r.2)
  | Erase => st ← wear_leveling_erase; mret (succeeded st, [])
  | PowerCycle =>
      modify (fun w => reset (power_cut (device w)) (fault w));;
      st ← wear_leveling_init; mret (succeeded st, [])
  end.

Lemma out_of_range a n :
  0 <= a < 2 ^ 31 -> 0 <= n < 2 ^ 31 -> LOGICAL < a + n -> (LOGICAL <? u32 (a + n)) = true.
Proof. intros. rewrite wrap_small by lia. by apply Z.ltb_lt. Qed.

Lemma base_erased s : (forall a, valid_address a -> contents s a = 0) -> base s = zeros.
Proof.
  intros He. assert (stored_data s = zeros) as Hd.
  { unfold stored_data. rewrite words_from_zero; [|apply data_range|by intros b ??; apply He].
    pose proof items_size_nat as Hs. unfold as_bytes.
    rewrite <-Hs. clear. induction items as [|n IH]; [by rewrite Nat.mul_0_r|].
    cbn [replicate fmap list_fmap concat]. rewrite IH, Nat.mul_succ_r, Nat.add_comm, replicate_add.
    f_equal. clear IH. induction (Z.to_nat WS) as [|m IH]; [done|].
    cbn [le_bytes replicate]. by rewrite <-IH. }
  unfold base. rewrite Hd. by destruct (_ =? _).
Qed.

Lemma coherent_erased w :
  is_shut w -> (forall a, valid_address a -> contents (device w) a = 0) ->
  cache w = zeros -> write_address w = log_start -> coherent w.
Proof.
  intros Hs He Hc Hwa. split; [done|]. exists []. pose proof log_has_room.
  split; [|by rewrite base_erased, Hc].
  split; [done|]. split; [rewrite Hwa; cbn; lia|]. split; [done|].
  split; [lia|]. intros b Hb _. by apply He.
Qed.

Lemma erase_run w :
  coherent w -> exists w', wear_leveling_erase w = (WEAR_LEVELING_SUCCESS, w') /\
    coherent w' /\ cache w' = zeros /\ fault w' = fault w.
Proof.
  intros [Hs _]. destruct (unlock_run w Hs) as (s1 & Hrun1 & Hl1 & Hs1).
  destruct (erase_ok s1 Hl1) as (s2 & Hrun2 & Hl2 & He2).
  unfold wear_leveling_erase. srun Hrun1. rewrite decide_False by done.
  set (w1 := w <| device := s1 |> <| unlocked := true |>).
  assert (on_device backing_store_erase w1 = (true, w1 <| device := s2 |>)) as Hrun2'.
  { unfold on_device. change (device w1) with s1. by rewrite Hrun2. }
  srun Hrun2'. unfold wear_leveling_clear_cache. srun. rewrite decide_True by done.
  set (w2 := w1 <| device := s2 |> <| cache := zeros |> <| write_address := log_start |>).
  destruct (lock_run w2) as (s3 & Hrun3 & Hl3 & Hs3); [by split; [destruct w|]|].
  srun Hrun3. eexists. split; [reflexivity|].
  split; [|by split; destruct w].
  apply coherent_erased; [by split; [destruct w|]| |by destruct w..].
  intros b Hb. cbn. rewrite Hs3 by done. by apply He2.
Qed.

Lemma blank_init s f :
  locked s = true -> (forall a, valid_address a -> contents s a = 0) ->
  exists w, wear_leveling_init (reset s f) = (WEAR_LEVELING_SUCCESS, w) /\
    coherent w /\ cache w = zeros /\ fault w = f.
Proof.
  intros Hl He. set (w := (reset s f) <| write_address := log_start |>).
  assert (coherent w) as Hw by by apply coherent_erased.
  by destruct (init_run w (reset s f) Hw) as (w' & Hrun & Hw' & Hc & Hf); [|exists w'].
Qed.

Lemma run_op_refines op w :
  coherent w -> op_ok op ->
  exists w', run_op op w = (eval (array_op LOGICAL op) (cache w), w') /\
    coherent w' /\ cache w' = exec (array_op LOGICAL op) (cache w) /\ fault w' = fault w.
Proof.
  intros Hw Hop. destruct op as [a v|a n| |]; unfold run_op, array_op, eval, exec; cbn in Hop.
  - destruct Hop as (Ha & Hl & Hv). destruct (Z.leb_spec (a + Z.of_nat (length v)) LOGICAL).
    + destruct (write_run a v w) as (st & w' & Hrun & Hst & ? & Hc & Hf); [done|lia|done..|].
      exists w'. srun Hrun. unfold succeeded. by rewrite bool_decide_true.
    + exists w. unfold wear_leveling_write. by rewrite out_of_range by lia.
  - destruct Hop as (Ha & Hl). destruct (Z.leb_spec (a + Z.of_nat n) LOGICAL).
    + exists w. by srun (read_run a n w ltac:(lia) ltac:(done)).
    + exists w. unfold wear_leveling_read. by rewrite out_of_range by lia.
  - destruct (erase_run w Hw) as (w' & Hrun & ? & ? & ?). exists w'. by srun Hrun.
  - srun. destruct (init_run w (reset (power_cut (device w)) (fault w)) Hw)
      as (w' & Hrun & ? & ? & ?).
    { split; [split; [done|apply power_cut_locked]|]. split; [done|]. apply power_cut_contents. }
    exists w'. by srun Hrun.
Qed.

Lemma run_ops_refine ops w :
  coherent w -> Forall op_ok ops ->
  exists w', run_list run_op ops w = (eval (run_list (array_op LOGICAL) ops) (cache w), w') /\
    coherent w' /\ cache w' = exec (run_list (array_op LOGICAL) ops) (cache w) /\
    fault w' = fault w.
Proof.
  intros Hw Hops. revert w Hw.
  induction Hops as [|op ops Hop Hops IH]; intros w Hw; [by exists w|].
  destruct (run_op_refines op w Hw Hop) as (w1 & Hrun1 & Hw1 & Hc1 & Hf1).
  destruct (IH w1 Hw1) as (w2 & Hrun2 & Hw2 & Hc2 & Hf2).
  exists w2. cbn [run_list]. srun Hrun1. srun Hrun2.
  rewrite !eval_bind, !exec_bind. cbn [eval exec mret stm_ret fst snd].
  rewrite <-Hc1. split; [done|]. split; [done|]. split; [done|]. congruence.
Qed.

(** C1: on a working device that starts erased, a boot followed by any
    sequence of writes, reads, erases and power cycles returns exactly what
    an array of zeros subject to the same operations returns, ends with that
    array in the cache, and makes no access out of bounds. *)
Theorem wear_leveling_refines_array s ops :
  locked s = true -> (forall a, valid_address a -> contents s a = 0) -> Forall op_ok ops ->
  let boot := st ← wear_leveling_init; rs ← run_list run_op ops; mret (succeeded st, rs) in
  let w := exec boot (reset s false) in
  eval boot (reset s false) = (true, eval (run_list (array_op LOGICAL) ops) zeros) /\
  cache w = exec (run_list (array_op LOGICAL) ops) zeros /\ fault w = false.
Proof.
  intros Hl He Hops boot. destruct (blank_init s false Hl He) as (w1 & Hrun1 & Hw1 & Hc1 & Hf1).
  destruct (run_ops_refine ops w1 Hw1 Hops) as (w2 & Hrun2 & Hw2 & Hc2 & Hf2).
  assert (boot (reset s false) = ((true, eval (run_list (array_op LOGICAL) ops) zeros), w2)) as Hb.
  { unfold boot. srun Hrun1. srun Hrun2. by rewrite Hc1. }
  unfold exec at 1, eval at 1. rewrite Hb. cbn. rewrite <-Hc1. split; [done|].
  split; [done|]. congruence.
Qed.
End array.

(** ** Wear levelling: a concrete device

    A small flash of 16-bit words in the manner of
    quantum/wear_leveling/tests/backing_mocks.cpp: cells of one write each
    between erases, refused while locked.  It meets [BackingStoreOk]; the
    witnesses of the wear levelling theorems run on it. *)

Module Flash.

Definition config (size backing logical : Z) : WearLevelingConfig := {|
  BACKING_STORE_WRITE_SIZE := size;
  WEAR_LEVELING_BACKING_SIZE := backing;
  WEAR_LEVELING_LOGICAL_SIZE := logical;
  stack_garbage := [0xDE; 0xAD; 0xBE; 0xEF; 0xDE; 0xAD; 0xBE; 0xEF];
|}.

Record flash := { cells : gmap Z Z; is_locked : bool }.

(** The word at an address, of [8 * size] bits. *)
Definition cell (size : Z) (f : flash) (a : Z) : Z :=
  wrap (8 * size) (default 0 (cells f !! a)).

(** The device, and one whose lock and erase circuits are broken. *)
Definition flash_store (size backing : Z) (broken : bool) : BackingStore := {|
  store := flash;
  backing_store_init := mret true;
  backing_store_unlock := fun f => (negb broken, f <| is_locked := broken |>);
  backing_store_lock := fun f => (true, f <| is_locked := true |>);
  backing_store_erase := fun f =>
    if is_locked f || broken then (false, f) else (true, f <| cells := ∅ |>);
  backing_store_write := fun a v f =>
    if is_locked f || nz (cell size f a) || (backing <=? a) then (false, f)
    else (true, f <| cells := <[a := v]> (cells f) |>);
  backing_store_read := fun a f => ((true, cell size f a), f);
|}.

Definition blank : flash := {| cells := ∅; is_locked := true |}.

#[local] Instance config_2 : WearLevelingConfig := config 2 48 16.
#[local] Instance store_2 : BackingStore := flash_store 2 48 false.
Definition cut (f : store) : store := (f : flash) <| is_locked := true |>.

#[local] Instance config_2_ok : WearLevelingConfigOk.
Proof. by split; [left|..]. Qed.

Lemma flash_write_ok (s : flash) a v :
  is_locked s = false -> valid_address a -> is_word v -> cell 2 s a = 0 -> exists s',
  backing_store_write a v s = (true, s') /\ is_locked s' = false /\
  forall b, valid_address b -> cell 2 s' b = if decide (b = a) then v else cell 2 s b.
Proof.
  intros Hl (Ha & Hle & _) Hv Hc. cbn in Hle. exists (s <| cells := <[a := v]> (cells s) |>).
  split; [|split; [done|]].
  - cbn. rewrite Hl, Hc. cbn. by destruct (Z.leb_spec 48 a); [lia|].
  - intros b _. unfold cell. cbn. case_decide as Hab.
    + subst b. rewrite lookup_insert_eq. by apply wrap_small.
    + by rewrite lookup_insert_ne.
Qed.

#[local] Instance store_2_ok : BackingStoreOk.
Proof.
  refine {| contents := cell 2; locked := is_locked |}.
  - intros s a _. by apply wrap_range.
  - intros s. by exists s.
  - intros s _. by exists (s <| is_locked := false |>).
  - intros s _. by exists (s <| is_locked := true |>).
  - intros s Hl. exists (s <| cells := ∅ |>). split; [cbn; by rewrite Hl|]. done.
  - apply flash_write_ok.
  - done.
Defined.

(** Twelve words of log: the writes below fill it, so a consolidation happens
    on the way, and power is cut twice. *)
Definition session : list wear_leveling_op :=
  [Write 0 [1; 0; 7]; Read 0 4; Write 4 [1; 2; 3; 4; 5; 6]; PowerCycle; Read 0 16;
   Write 10 [255]; Write 3 [9; 9; 9]; Write 2 [0; 1]; Write 15 [1; 1]; PowerCycle;
   Read 0 16; Erase; Read 8 8; Read 9 8].

Lemma wear_leveling_refines_array_witness :
  let boot := st ← wear_leveling_init; rs ← run_list (run_op cut) session; mret (succeeded st, rs) in
  eval boot (reset blank false) = (true, eval (run_list (array_op 16) session) (replicate 16 0)) /\
  cache (exec boot (reset blank false)) = replicate 16 0.
Proof.
  destruct (wear_leveling_refines_array cut ltac:(done) ltac:(done) blank session)
    as (Hr & Hc & _); [done|done| |].
  - repeat (constructor; [vm_compute; repeat split; repeat constructor; discriminate|]). constructor.
  - split; [exact Hr|]. cbn zeta. etrans; [exact Hc|]. vm_compute. reflexivity.
Defined.

Lemma cache_size_invariant_witness :
  length (cache (exec (wear_leveling_write 3 [7]) (reset blank false))) = 16%nat.
Proof.
  destruct cache_size_invariant as (_ & _ & Hwrite & _). apply (Hwrite 3 [7]). reflexivity.
Defined.

Lemma playback_loop_fuel_witness :
  playback_loop 40 24 (reset blank false) =
    playback_loop playback_fuel 24 (reset blank false).
Proof. exact (playback_loop_fuel (40 - playback_fuel) (reset blank false)). Defined.

Lemma init_write_address_witness : write_address_ok (exec wear_leveling_init (reset blank true)).
Proof. exact (init_write_address (reset blank true)). Defined.

(** A driver that cannot unlock or erase. *)
Definition broken_2 : BackingStore := flash_store 2 48 true.

Lemma write_unlock_failure_witness :
  exists w, wear_leveling_write (H0 := broken_2) 3 [5] (reset (H0 := broken_2) blank false) =
    (WEAR_LEVELING_FAILED, w).
Proof.
  eexists. apply (write_unlock_failure (H0 := broken_2) 3 [5]
    (reset (H0 := broken_2) blank false) blank); [done|done|done|done|reflexivity].
Defined.

(** The log is full up to its last word. *)
Definition almost_full : @wear_leveling broken_2 := {|
  cache := replicate 16 0; write_address := 46; unlocked := true;
  device := {| cells := ∅; is_locked := false |} : @store broken_2; fault := false |}.

Lemma failed_erase_overruns_log_witness :
  let f := {| cells := {[46 := 16449]}; is_locked := false |} in
  eval (wear_leveling_append_raw (H0 := broken_2) 16449) almost_full =
    WEAR_LEVELING_FAILED.
Proof.
  intros f. apply (failed_erase_overruns_log (H0 := broken_2) 16449 16449
    almost_full f f f); vm_compute; reflexivity.
Defined.

Lemma api_accesses_in_bounds_witness :
  preserves no_fault (wear_leveling_write 12 [1; 2; 3]).
Proof. apply (api_accesses_in_bounds 12 [1; 2; 3] 0); done. Defined.

(** An entry of type 0 whose length field is 7. *)
Definition config_8 : WearLevelingConfig := config 8 64 32.
Definition store_8 : BackingStore := flash_store 8 64 false.

Lemma playback_overreads_long_entry_witness :
  fault (exec (playback_entry (H := config_8) (H0 := store_8) 40 56)
    (reset (H := config_8) (H0 := store_8) blank false)) = true.
Proof.
  apply (playback_overreads_long_entry (H := config_8)
    (H0 := store_8)); [done|reflexivity|reflexivity|vm_compute; discriminate].
Defined.
End Flash.
