(* ===== verification/Bitwise.v ===== *)
(** * Bit utilities (quantum/bitwise.c)

    Population count, most significant bit and bit reversal at the three
    widths, equal to their mathematical definitions on every input. *)

From S2P Require Import Prelude.

(** [for (c = 0; bits; c++) bits &= bits - 1;]: each iteration clears a bit,
    so as many iterations as the width has bits suffice. *)
Fixpoint bitpop_loop (fuel : nat) (bits c : Z) : Z :=
  match fuel with
  | O => c
  | S fuel => if nz bits then bitpop_loop fuel (Z.land bits (bits - 1)) (u8 (c + 1)) else c
  end.

Definition bitpop (bits : Z) : Z := bitpop_loop 9 bits 0.
Definition bitpop16 (bits : Z) : Z := bitpop_loop 17 bits 0.
Definition bitpop32 (bits : Z) : Z := bitpop_loop 33 bits 0.

(** [if (bits >> k) { bits >>= k; n += k; }] *)
Definition biton_step (k : Z) (st : Z * Z) : Z * Z :=
  let '(bits, n) := st in
  if nz (Z.shiftr bits k) then (Z.shiftr bits k, u8 (n + k)) else (bits, n).

Definition biton (bits : Z) : Z :=
  (biton_step 1 (biton_step 2 (biton_step 4 (bits, 0)))).2.
Definition biton16 (bits : Z) : Z :=
  (biton_step 1 (biton_step 2 (biton_step 4 (biton_step 8 (bits, 0))))).2.
Definition biton32 (bits : Z) : Z :=
  (biton_step 1 (biton_step 2 (biton_step 4 (biton_step 8 (biton_step 16 (bits, 0)))))).2.

Definition bitrev (bits : Z) : Z :=
  let bits := u8 (Z.lor (Z.shiftl (Z.land bits 0x0f) 4) (Z.shiftr (Z.land bits 0xf0) 4)) in
  let bits := u8 (Z.lor (Z.shiftl (Z.land bits 0x33) 2) (Z.shiftr (Z.land bits 0xcc) 2)) in
  u8 (Z.lor (Z.shiftl (Z.land bits 0x55) 1) (Z.shiftr (Z.land bits 0xaa) 1)).
Definition bitrev16 (bits : Z) : Z :=
  u16 (Z.lor (Z.shiftl (bitrev (Z.land bits 0x00ff)) 8)
             (bitrev (Z.shiftr (Z.land bits 0xff00) 8))).
Definition bitrev32 (bits : Z) : Z :=
  u32 (Z.lor (Z.shiftl (bitrev16 (Z.land bits 0x0000ffff)) 16)
             (bitrev16 (Z.shiftr (Z.land bits 0xffff0000) 16))).

(** ** Population count *)

(** The number of bits set among the first [w]. *)
Fixpoint popcount (w : nat) (z : Z) : Z :=
  match w with
  | O => 0
  | S w => Z.b2z (Z.testbit z (Z.of_nat w)) + popcount w z
  end.

Lemma popcount_double w z b :
  popcount (S w) (2 * z + Z.b2z b) = Z.b2z b + popcount w z.
Proof.
  induction w as [|w IH].
  - cbn [popcount]. change (Z.of_nat 0) with 0. rewrite Z.testbit_0_r. done.
  - cbn [popcount] in *. rewrite IH, Nat2Z.inj_succ, Z.testbit_succ_r by lia. lia.
Qed.

Lemma popcount_zero w : popcount w 0 = 0.
Proof. induction w; cbn [popcount]; [done|]. rewrite Z.testbit_0_l. cbn. lia. Qed.

Lemma popcount_range w z : 0 <= popcount w z <= Z.of_nat w.
Proof. induction w; cbn [popcount]; [done|]. destruct (Z.testbit _ _); cbn; lia. Qed.

(** [bits & (bits - 1)] has one bit less. *)
Lemma popcount_clear_lowest (p : positive) : forall w,
  Zpos p < 2 ^ Z.of_nat w ->
  popcount w (Z.land (Zpos p) (Zpos p - 1)) = popcount w (Zpos p) - 1 /\
  0 <= Z.land (Zpos p) (Zpos p - 1) < Zpos p.
Proof.
  induction p as [p IH|p IH|]; intros w Hw.
  - assert (Z.land (Zpos p~1) (Zpos p~1 - 1) = 2 * Zpos p + Z.b2z false) as ->.
    { apply Z.bits_inj'. intros i Hi. rewrite Z.land_spec.
      replace (Zpos p~1 - 1) with (2 * Zpos p + Z.b2z false) by (cbn; lia).
      replace (Zpos p~1) with (2 * Zpos p + Z.b2z true) by (cbn; lia).
      destruct (decide (i = 0)) as [->|]; [by rewrite !Z.testbit_0_r|].
      replace i with (Z.succ (i - 1)) by lia. rewrite !Z.testbit_succ_r by lia.
      apply andb_diag. }
    replace (Zpos p~1) with (2 * Zpos p + Z.b2z true) by (cbn; lia).
    destruct w as [|w]; [cbn in Hw; lia|]. rewrite !popcount_double. cbn. lia.
  - assert (Z.land (Zpos p~0) (Zpos p~0 - 1) = 2 * Z.land (Zpos p) (Zpos p - 1) + Z.b2z false) as ->.
    { apply Z.bits_inj'. intros i Hi. rewrite Z.land_spec.
      replace (Zpos p~0 - 1) with (2 * (Zpos p - 1) + Z.b2z true) by (cbn; lia).
      replace (Zpos p~0) with (2 * Zpos p + Z.b2z false) by (cbn; lia).
      destruct (decide (i = 0)) as [->|]; [by rewrite !Z.testbit_0_r|].
      replace i with (Z.succ (i - 1)) by lia. rewrite !Z.testbit_succ_r by lia.
      by rewrite Z.land_spec. }
    replace (Zpos p~0) with (2 * Zpos p + Z.b2z false) in Hw |- * by (cbn; lia).
    destruct w as [|w]; [cbn in Hw; lia|]. rewrite !popcount_double.
    rewrite Nat2Z.inj_succ, Z.pow_succ_r in Hw by lia.
    destruct (IH w) as [-> ?]; [cbn in Hw; lia|]. cbn [Z.b2z]. lia.
  - cbn [Z.land Z.sub Z.add Pos.add Z.opp]. change (1 - 1) with 0. rewrite Z.land_0_r, popcount_zero.
    destruct w as [|w]; [done|]. change 1 with (2 * 0 + Z.b2z true) at 1.
    rewrite popcount_double, popcount_zero. done.
Qed.

Lemma bitpop_loop_popcount w fuel : forall bits c,
  0 <= bits < 2 ^ Z.of_nat w -> 0 <= c -> c + popcount w bits < 256 ->
  popcount w bits < Z.of_nat fuel ->
  bitpop_loop fuel bits c = c + popcount w bits.
Proof.
  induction fuel as [|fuel IH]; intros bits c Hb Hc Hs Hf; cbn [bitpop_loop].
  - pose proof (popcount_range w bits). lia.
  - destruct (nz bits) eqn:E.
    + apply nz_true in E. destruct bits as [|p|p]; [done| |lia].
      destruct (popcount_clear_lowest p w) as [Hp ?]; [lia|].
      pose proof (popcount_range w (Z.land (Zpos p) (Zpos p - 1))).
      rewrite (wrap_small 8) by lia. rewrite IH; lia.
    + apply nz_false in E. subst. rewrite popcount_zero. lia.
Qed.

(** The three population counts terminate and count the bits set. *)
Theorem bitpop_counts :
  (forall bits, 0 <= bits < 2 ^ 8 -> bitpop bits = popcount 8 bits) /\
  (forall bits, 0 <= bits < 2 ^ 16 -> bitpop16 bits = popcount 16 bits) /\
  (forall bits, 0 <= bits < 2 ^ 32 -> bitpop32 bits = popcount 32 bits).
Proof.
  split; [|split]; intros bits Hb; 
    [pose proof (popcount_range 8 bits)|pose proof (popcount_range 16 bits)
    |pose proof (popcount_range 32 bits)].
  - unfold bitpop. rewrite (bitpop_loop_popcount 8); lia.
  - unfold bitpop16. rewrite (bitpop_loop_popcount 16); lia.
  - unfold bitpop32. rewrite (bitpop_loop_popcount 32); lia.
Qed.

(** ** Most significant bit *)

(** The state of the search: [log2] of the input is what remains plus [n]. *)
Definition searching (bits0 : Z) (w : Z) (st : Z * Z) : Prop :=
  0 < st.1 < 2 ^ w /\ 0 <= st.2 /\ st.2 + Z.log2 st.1 = Z.log2 bits0.

Lemma biton_step_searching bits0 k st :
  0 < k -> Z.log2 bits0 < 256 -> searching bits0 (2 * k) st -> searching bits0 k (biton_step k st).
Proof.
  intros Hk H256. destruct st as [bits n]. unfold searching, biton_step. cbn [fst snd].
  intros ((Hb & Hlt) & Hn & Hlog). destruct (nz _) eqn:E; cbn [fst snd].
  - apply nz_true in E.
    assert (0 <= Z.shiftr bits k < 2 ^ (2 * k - k)) as Hs by (apply shiftr_range; lia).
    assert (k <= Z.log2 bits) as Hle.
    { apply Z.log2_le_pow2; [lia|]. rewrite Z.shiftr_div_pow2 in E by lia.
      apply Z.nlt_ge. intros ?. apply E. apply Z.div_small. lia. }
    pose proof (Z.log2_shiftr bits k Hb). pose proof (Z.log2_nonneg bits).
    replace (2 * k - k) with k in Hs by lia. rewrite (wrap_small 8) by lia.
    split; [lia|]. lia.
  - apply nz_false in E. split; [|done]. split; [lia|].
    rewrite Z.shiftr_div_pow2 in E by lia. apply Z.div_small_iff in E; lia.
Qed.

Lemma searching_done bits0 st : searching bits0 1 st -> st.2 = Z.log2 bits0.
Proof.
  intros (Hb & _ & <-). replace st.1 with 1 by lia. cbn. lia.
Qed.

Lemma biton_small bits : 0 <= bits < 2 ^ 8 -> biton bits = Z.log2 bits.
Proof.
  intros [H0 Hb]. destruct (decide (bits = 0)) as [->|]; [done|]. apply searching_done.
  assert (Z.log2 bits < 8) by (apply Z.log2_lt_pow2; lia).
  repeat (apply biton_step_searching; [lia|lia|]). split; cbn [fst snd]; lia.
Qed.

(** [biton], [biton16] and [biton32] return the index of the most
    significant bit set, and 0 for 0. *)
Theorem biton_log2 :
  (forall bits, 0 <= bits < 2 ^ 8 -> biton bits = Z.log2 bits) /\
  (forall bits, 0 <= bits < 2 ^ 16 -> biton16 bits = Z.log2 bits) /\
  (forall bits, 0 <= bits < 2 ^ 32 -> biton32 bits = Z.log2 bits).
Proof.
  split; [|split]; intros bits [H0 Hb]; (destruct (decide (bits = 0)) as [->|]; [done|]).
  all: apply searching_done.
  all: assert (Z.log2 bits < 256) by (apply Z.log2_lt_pow2; [lia|]; eapply Z.lt_le_trans;
    [exact Hb|apply Z.pow_le_mono_r; lia]).
  all: repeat (apply biton_step_searching; [lia|done|]).
  all: split; cbn [fst snd]; lia.
Qed.

(** ** Bit reversal *)

Definition all_bytes : list Z := seqZ 0 256.

Lemma bitrev_bytes :
  forallb (fun b => forallb (fun i => eqb (Z.testbit (bitrev b) i) (Z.testbit b (7 - i)))
    (seqZ 0 8)) all_bytes = true.
Proof. vm_compute. reflexivity. Qed.

Lemma bitrev_spec b i :
  0 <= b < 2 ^ 8 -> 0 <= i < 8 -> Z.testbit (bitrev b) i = Z.testbit b (7 - i).
Proof.
  intros Hb Hi. pose proof bitrev_bytes as H. rewrite forallb_forall in H.
  specialize (H b). rewrite forallb_forall in H.
  apply eqb_prop, H; apply list_elem_of_In, elem_of_seqZ; lia.
Qed.

Lemma bitrev_range b : 0 <= bitrev b < 2 ^ 8.
Proof. by apply wrap_range. Qed.

Lemma bitrev16_range b : 0 <= bitrev16 b < 2 ^ 16.
Proof. by apply wrap_range. Qed.

(** Reversing two halves and swapping them reverses the whole. *)
Lemma bitrev_halves w (rev : Z -> Z) lo hi b i :
  0 < w -> (forall z, 0 <= rev z < 2 ^ w) ->
  (forall z j, 0 <= z < 2 ^ w -> 0 <= j < w -> Z.testbit (rev z) j = Z.testbit z (w - 1 - j)) ->
  0 <= lo < 2 ^ w -> 0 <= hi < 2 ^ w ->
  (forall j, 0 <= j < w -> Z.testbit lo j = Z.testbit b j) ->
  (forall j, 0 <= j < w -> Z.testbit hi j = Z.testbit b (j + w)) ->
  0 <= i < 2 * w ->
  Z.testbit (wrap (2 * w) (Z.lor (Z.shiftl (rev lo) w) (rev hi))) i = Z.testbit b (2 * w - 1 - i).
Proof.
  intros Hw Hr Hrev Hlo Hhi Hblo Hbhi Hi. bits.
  destruct (decide (i < w)).
  - rewrite (Z.testbit_neg_r _ (i - w)) by lia. cbn [orb].
    rewrite Hrev, Hbhi by lia. f_equal. lia.
  - rewrite (testbit_out_of_range w (rev hi)), orb_false_r by (done || lia).
    rewrite Hrev, Hblo by lia. f_equal. lia.
Qed.

Lemma testbit_ones_at w k j : 0 <= k -> 0 <= w -> 0 <= j ->
  Z.testbit (Z.shiftl (Z.ones w) k) j = bool_decide (k <= j < k + w).
Proof.
  intros Hk Hw Hj. rewrite Z.shiftl_spec by done. case_bool_decide.
  - apply Z.ones_spec_low. lia.
  - destruct (decide (j < k)); [by rewrite Z.testbit_neg_r by lia|].
    apply Z.ones_spec_high. lia.
Qed.

Ltac half :=
  intros j Hj; rewrite ?Z.shiftr_spec, Z.land_spec by lia;
  first [progress change 0x00ff with (Z.shiftl (Z.ones 8) 0) | progress change 0xff00 with (Z.shiftl (Z.ones 8) 8)
        |progress change 0x0000ffff with (Z.shiftl (Z.ones 16) 0)
        |progress change 0xffff0000 with (Z.shiftl (Z.ones 16) 16)];
  rewrite testbit_ones_at by lia; rewrite bool_decide_true by lia; apply andb_true_r.

Lemma bitrev16_spec b i :
  0 <= b < 2 ^ 16 -> 0 <= i < 16 -> Z.testbit (bitrev16 b) i = Z.testbit b (15 - i).
Proof.
  intros Hb Hi. apply (bitrev_halves 8 bitrev).
  - lia.
  - apply bitrev_range.
  - apply bitrev_spec.
  - rewrite Z.land_comm. by apply land_range.
  - pose proof (land_range 16 b 0xff00 ltac:(lia) Hb) as Hl.
    apply (shiftr_range 16 8) in Hl; [done|lia].
  - half.
  - half.
  - done.
Qed.

Lemma bitrev32_spec b i :
  0 <= b < 2 ^ 32 -> 0 <= i < 32 -> Z.testbit (bitrev32 b) i = Z.testbit b (31 - i).
Proof.
  intros Hb Hi. apply (bitrev_halves 16 bitrev16).
  - lia.
  - apply bitrev16_range.
  - apply bitrev16_spec.
  - rewrite Z.land_comm. by apply land_range.
  - pose proof (land_range 32 b 0xffff0000 ltac:(lia) Hb) as Hl.
    apply (shiftr_range 32 16) in Hl; [done|lia].
  - half.
  - half.
  - done.
Qed.

Lemma reversal_involutive w (rev : Z -> Z) b :
  0 < w -> (forall z, 0 <= rev z < 2 ^ w) ->
  (forall z j, 0 <= z < 2 ^ w -> 0 <= j < w -> Z.testbit (rev z) j = Z.testbit z (w - 1 - j)) ->
  0 <= b < 2 ^ w -> rev (rev b) = b.
Proof.
  intros Hw Hr Hrev Hb. apply (word_ext w); [lia|done|done|].
  intros i Hi. rewrite !Hrev by (done || lia). f_equal. lia.
Qed.

(** The reversals mirror the bits of a byte, a half word and a word, and
    reversing twice gives the input back. *)
Theorem bitrev_mirrors :
  (forall b i, 0 <= b < 2 ^ 8 -> 0 <= i < 8 ->
     Z.testbit (bitrev b) i = Z.testbit b (7 - i) /\ bitrev (bitrev b) = b) /\
  (forall b i, 0 <= b < 2 ^ 16 -> 0 <= i < 16 ->
     Z.testbit (bitrev16 b) i = Z.testbit b (15 - i) /\ bitrev16 (bitrev16 b) = b) /\
  (forall b i, 0 <= b < 2 ^ 32 -> 0 <= i < 32 ->
     Z.testbit (bitrev32 b) i = Z.testbit b (31 - i) /\ bitrev32 (bitrev32 b) = b).
Proof.
  split; [|split]; intros b i Hb Hi; split.
  - by apply bitrev_spec.
  - by apply (reversal_involutive 8); [lia|apply bitrev_range|apply bitrev_spec|].
  - by apply bitrev16_spec.
  - by apply (reversal_involutive 16); [lia|apply bitrev16_range|apply bitrev16_spec|].
  - by apply bitrev32_spec.
  - by apply (reversal_involutive 32); [lia|intros; apply wrap_range|apply bitrev32_spec|].
Qed.
