(* ===== verification/Keycodes.v ===== *)
(** * Keycodes (quantum/keycodes.h, quantum/quantum_keycodes.h, tmk_core/protocol/report.h)

    The keycodes the modelled code names, the tests of the header's range
    macros, and the conversions of system and consumer keycodes to usages. *)

From S2P Require Import Prelude.

(** [switch (x) { case k: return a; ... default: return d; }] *)
Fixpoint switch {A} (x : Z) (cases : list (Z * A)) (d : A) : A :=
  match cases with
  | [] => d
  | (k, a) :: cases => if x =? k then a else switch x cases d
  end.

(** [case lo ... hi:] *)
Definition within (lo hi x : Z) : bool := (lo <=? x) && (x <=? hi).

(** ** The ranges of 16-bit keycodes *)

Definition QK_MODS : Z := 0x0100.
Definition QK_MODS_MAX : Z := 0x1FFF.
Definition QK_MOD_TAP : Z := 0x2000.
Definition QK_MOD_TAP_MAX : Z := 0x3FFF.
Definition QK_LAYER_TAP : Z := 0x4000.
Definition QK_LAYER_TAP_MAX : Z := 0x4FFF.
Definition QK_LAYER_MOD : Z := 0x5000.
Definition QK_LAYER_MOD_MAX : Z := 0x51FF.
Definition QK_TO : Z := 0x5200.
Definition QK_TO_MAX : Z := 0x521F.
Definition QK_MOMENTARY : Z := 0x5220.
Definition QK_MOMENTARY_MAX : Z := 0x523F.
Definition QK_DEF_LAYER : Z := 0x5240.
Definition QK_DEF_LAYER_MAX : Z := 0x525F.
Definition QK_TOGGLE_LAYER : Z := 0x5260.
Definition QK_TOGGLE_LAYER_MAX : Z := 0x527F.
Definition QK_ONE_SHOT_LAYER : Z := 0x5280.
Definition QK_ONE_SHOT_LAYER_MAX : Z := 0x529F.
Definition QK_ONE_SHOT_MOD : Z := 0x52A0.
Definition QK_ONE_SHOT_MOD_MAX : Z := 0x52BF.
Definition QK_LAYER_TAP_TOGGLE : Z := 0x52C0.
Definition QK_LAYER_TAP_TOGGLE_MAX : Z := 0x52DF.
Definition QK_SWAP_HANDS : Z := 0x5600.
Definition QK_SWAP_HANDS_MAX : Z := 0x56FF.

(** ** Basic keycodes *)

Definition KC_NO : Z := 0x0000.
Definition KC_TRANSPARENT : Z := 0x0001.
Definition KC_A : Z := 0x0004.
Definition KC_Z : Z := 0x001D.
Definition KC_1 : Z := 0x001E.
Definition KC_0 : Z := 0x0027.
Definition KC_ENTER : Z := 0x0028.
Definition KC_TAB : Z := 0x002B.
Definition KC_SPACE : Z := 0x002C.
Definition KC_MINUS : Z := 0x002D.
Definition KC_DELETE : Z := 0x004C.
Definition KC_ESCAPE : Z := 0x0029.
Definition KC_BACKSPACE : Z := 0x002A.
Definition KC_BACKSLASH : Z := 0x0031.
Definition KC_GRAVE : Z := 0x0035.
Definition KC_CAPS_LOCK : Z := 0x0039.
Definition KC_SCROLL_LOCK : Z := 0x0047.
Definition KC_NUM_LOCK : Z := 0x0053.
Definition KC_LOCKING_CAPS_LOCK : Z := 0x0082.
Definition KC_LOCKING_NUM_LOCK : Z := 0x0083.
Definition KC_LOCKING_SCROLL_LOCK : Z := 0x0084.
Definition KC_EXSEL : Z := 0x00A4.
Definition KC_SYSTEM_POWER : Z := 0x00A5.
Definition KC_SYSTEM_SLEEP : Z := 0x00A6.
Definition KC_SYSTEM_WAKE : Z := 0x00A7.
Definition KC_AUDIO_MUTE : Z := 0x00A8.
Definition KC_AUDIO_VOL_UP : Z := 0x00A9.
Definition KC_AUDIO_VOL_DOWN : Z := 0x00AA.
Definition KC_MEDIA_NEXT_TRACK : Z := 0x00AB.
Definition KC_MEDIA_PREV_TRACK : Z := 0x00AC.
Definition KC_MEDIA_STOP : Z := 0x00AD.
Definition KC_MEDIA_PLAY_PAUSE : Z := 0x00AE.
Definition KC_MEDIA_SELECT : Z := 0x00AF.
Definition KC_MEDIA_EJECT : Z := 0x00B0.
Definition KC_MAIL : Z := 0x00B1.
Definition KC_CALCULATOR : Z := 0x00B2.
Definition KC_MY_COMPUTER : Z := 0x00B3.
Definition KC_WWW_SEARCH : Z := 0x00B4.
Definition KC_WWW_HOME : Z := 0x00B5.
Definition KC_WWW_BACK : Z := 0x00B6.
Definition KC_WWW_FORWARD : Z := 0x00B7.
Definition KC_WWW_STOP : Z := 0x00B8.
Definition KC_WWW_REFRESH : Z := 0x00B9.
Definition KC_WWW_FAVORITES : Z := 0x00BA.
Definition KC_MEDIA_FAST_FORWARD : Z := 0x00BB.
Definition KC_MEDIA_REWIND : Z := 0x00BC.
Definition KC_BRIGHTNESS_UP : Z := 0x00BD.
Definition KC_BRIGHTNESS_DOWN : Z := 0x00BE.
Definition KC_CONTROL_PANEL : Z := 0x00BF.
Definition KC_ASSISTANT : Z := 0x00C0.
Definition KC_MISSION_CONTROL : Z := 0x00C1.
Definition KC_LAUNCHPAD : Z := 0x00C2.
Definition KC_MS_UP : Z := 0x00CD.
Definition KC_MS_BTN1 : Z := 0x00D1.
Definition KC_MS_BTN3 : Z := 0x00D3.
Definition KC_MS_BTN8 : Z := 0x00D8.
Definition KC_MS_ACCEL2 : Z := 0x00DF.
Definition KC_LEFT_CTRL : Z := 0x00E0.
Definition KC_LEFT_SHIFT : Z := 0x00E1.
Definition KC_LEFT_ALT : Z := 0x00E2.
Definition KC_LEFT_GUI : Z := 0x00E3.
Definition KC_RIGHT_CTRL : Z := 0x00E4.
Definition KC_RIGHT_SHIFT : Z := 0x00E5.
Definition KC_RIGHT_ALT : Z := 0x00E6.
Definition KC_RIGHT_GUI : Z := 0x00E7.
Definition QK_SWAP_HANDS_TOGGLE : Z := 0x56F0.
Definition QK_SWAP_HANDS_ONE_SHOT : Z := 0x56F6.
Definition KC_2 : Z := 0x001F.
Definition KC_3 : Z := 0x0020.
Definition KC_4 : Z := 0x0021.
Definition KC_5 : Z := 0x0022.
Definition KC_6 : Z := 0x0023.
Definition KC_7 : Z := 0x0024.
Definition KC_8 : Z := 0x0025.
Definition KC_9 : Z := 0x0026.
Definition KC_EQUAL : Z := 0x002E.
Definition KC_LEFT_BRACKET : Z := 0x002F.
Definition KC_RIGHT_BRACKET : Z := 0x0030.
Definition KC_SEMICOLON : Z := 0x0033.
Definition KC_QUOTE : Z := 0x0034.
Definition KC_COMMA : Z := 0x0036.
Definition KC_DOT : Z := 0x0037.
Definition KC_SLASH : Z := 0x0038.
Definition QK_TAP_DANCE : Z := 0x5700.
Definition QK_TAP_DANCE_MAX : Z := 0x57FF.
Definition QK_MAGIC : Z := 0x7000.
Definition QK_MAGIC_SWAP_CONTROL_CAPS_LOCK : Z := 0x7000.
Definition QK_MAGIC_UNSWAP_CONTROL_CAPS_LOCK : Z := 0x7001.
Definition QK_MAGIC_TOGGLE_CONTROL_CAPS_LOCK : Z := 0x7002.
Definition QK_MAGIC_CAPS_LOCK_AS_CONTROL_OFF : Z := 0x7003.
Definition QK_MAGIC_CAPS_LOCK_AS_CONTROL_ON : Z := 0x7004.
Definition QK_MAGIC_SWAP_LALT_LGUI : Z := 0x7005.
Definition QK_MAGIC_UNSWAP_LALT_LGUI : Z := 0x7006.
Definition QK_MAGIC_SWAP_RALT_RGUI : Z := 0x7007.
Definition QK_MAGIC_UNSWAP_RALT_RGUI : Z := 0x7008.
Definition QK_MAGIC_GUI_ON : Z := 0x7009.
Definition QK_MAGIC_GUI_OFF : Z := 0x700A.
Definition QK_MAGIC_TOGGLE_GUI : Z := 0x700B.
Definition QK_MAGIC_SWAP_GRAVE_ESC : Z := 0x700C.
Definition QK_MAGIC_UNSWAP_GRAVE_ESC : Z := 0x700D.
Definition QK_MAGIC_SWAP_BACKSLASH_BACKSPACE : Z := 0x700E.
Definition QK_MAGIC_UNSWAP_BACKSLASH_BACKSPACE : Z := 0x700F.
Definition QK_MAGIC_TOGGLE_BACKSLASH_BACKSPACE : Z := 0x7010.
Definition QK_MAGIC_NKRO_ON : Z := 0x7011.
Definition QK_MAGIC_NKRO_OFF : Z := 0x7012.
Definition QK_MAGIC_TOGGLE_NKRO : Z := 0x7013.
Definition QK_MAGIC_SWAP_ALT_GUI : Z := 0x7014.
Definition QK_MAGIC_UNSWAP_ALT_GUI : Z := 0x7015.
Definition QK_MAGIC_TOGGLE_ALT_GUI : Z := 0x7016.
Definition QK_MAGIC_SWAP_LCTL_LGUI : Z := 0x7017.
Definition QK_MAGIC_UNSWAP_LCTL_LGUI : Z := 0x7018.
Definition QK_MAGIC_SWAP_RCTL_RGUI : Z := 0x7019.
Definition QK_MAGIC_UNSWAP_RCTL_RGUI : Z := 0x701A.
Definition QK_MAGIC_SWAP_CTL_GUI : Z := 0x701B.
Definition QK_MAGIC_UNSWAP_CTL_GUI : Z := 0x701C.
Definition QK_MAGIC_TOGGLE_CTL_GUI : Z := 0x701D.
Definition QK_MAGIC_EE_HANDS_LEFT : Z := 0x701E.
Definition QK_MAGIC_EE_HANDS_RIGHT : Z := 0x701F.
Definition QK_MAGIC_SWAP_ESCAPE_CAPS_LOCK : Z := 0x7020.
Definition QK_MAGIC_UNSWAP_ESCAPE_CAPS_LOCK : Z := 0x7021.
Definition QK_MAGIC_TOGGLE_ESCAPE_CAPS_LOCK : Z := 0x7022.
Definition QK_MAGIC_MAX : Z := 0x70FF.
Definition QK_MACRO : Z := 0x7700.
Definition QK_MACRO_MAX : Z := 0x777F.
Definition QK_GRAVE_ESCAPE : Z := 0x7C16.
Definition QK_SPACE_CADET_LEFT_CTRL_PARENTHESIS_OPEN : Z := 0x7C18.
Definition QK_SPACE_CADET_RIGHT_CTRL_PARENTHESIS_CLOSE : Z := 0x7C19.
Definition QK_SPACE_CADET_LEFT_SHIFT_PARENTHESIS_OPEN : Z := 0x7C1A.
Definition QK_SPACE_CADET_RIGHT_SHIFT_PARENTHESIS_CLOSE : Z := 0x7C1B.
Definition QK_SPACE_CADET_LEFT_ALT_PARENTHESIS_OPEN : Z := 0x7C1C.
Definition QK_SPACE_CADET_RIGHT_ALT_PARENTHESIS_CLOSE : Z := 0x7C1D.
Definition QK_SPACE_CADET_RIGHT_SHIFT_ENTER : Z := 0x7C1E.
Definition QK_COMBO_ON : Z := 0x7C50.
Definition QK_COMBO_OFF : Z := 0x7C51.
Definition QK_COMBO_TOGGLE : Z := 0x7C52.
Definition QK_DYNAMIC_MACRO_RECORD_START_1 : Z := 0x7C53.
Definition QK_DYNAMIC_MACRO_RECORD_START_2 : Z := 0x7C54.
Definition QK_DYNAMIC_MACRO_RECORD_STOP : Z := 0x7C55.
Definition QK_DYNAMIC_MACRO_PLAY_1 : Z := 0x7C56.
Definition QK_DYNAMIC_MACRO_PLAY_2 : Z := 0x7C57.
Definition QK_LEADER : Z := 0x7C58.
Definition QK_LOCK : Z := 0x7C59.
Definition QK_ONE_SHOT_ON : Z := 0x7C5A.
Definition QK_ONE_SHOT_OFF : Z := 0x7C5B.
Definition QK_ONE_SHOT_TOGGLE : Z := 0x7C5C.
Definition QK_KEY_OVERRIDE_TOGGLE : Z := 0x7C5D.
Definition QK_KEY_OVERRIDE_ON : Z := 0x7C5E.
Definition QK_KEY_OVERRIDE_OFF : Z := 0x7C5F.
Definition QK_SECURE_LOCK : Z := 0x7C60.
Definition QK_SECURE_UNLOCK : Z := 0x7C61.
Definition QK_SECURE_TOGGLE : Z := 0x7C62.
Definition QK_SECURE_REQUEST : Z := 0x7C63.
Definition QK_CAPS_WORD_TOGGLE : Z := 0x7C73.
Definition QK_AUTOCORRECT_ON : Z := 0x7C74.
Definition QK_AUTOCORRECT_OFF : Z := 0x7C75.
Definition QK_AUTOCORRECT_TOGGLE : Z := 0x7C76.
Definition QK_TRI_LAYER_LOWER : Z := 0x7C77.
Definition QK_TRI_LAYER_UPPER : Z := 0x7C78.
Definition QK_REPEAT_KEY : Z := 0x7C79.
Definition QK_ALT_REPEAT_KEY : Z := 0x7C7A.
Definition QK_LAYER_LOCK : Z := 0x7C7B.
Definition QK_QUANTUM_MAX : Z := 0x7DFF.
Definition QK_UNICODE : Z := 0x8000.
Definition QK_UNICODEMAP : Z := 0x8000.
Definition QK_UNICODEMAP_MAX : Z := 0xBFFF.
Definition QK_UNICODEMAP_PAIR : Z := 0xC000.
Definition QK_UNICODE_MAX : Z := 0xFFFF.
Definition QK_UNICODEMAP_PAIR_MAX : Z := 0xFFFF.
Definition KC_B : Z := 0x0005.
Definition KC_C : Z := 0x0006.
Definition KC_D : Z := 0x0007.
Definition KC_E : Z := 0x0008.
Definition KC_F : Z := 0x0009.
Definition KC_G : Z := 0x000A.
Definition KC_H : Z := 0x000B.
Definition KC_I : Z := 0x000C.
Definition KC_J : Z := 0x000D.
Definition KC_K : Z := 0x000E.
Definition KC_L : Z := 0x000F.
Definition KC_M : Z := 0x0010.
Definition KC_N : Z := 0x0011.
Definition KC_O : Z := 0x0012.
Definition KC_P : Z := 0x0013.
Definition KC_Q : Z := 0x0014.
Definition KC_R : Z := 0x0015.
Definition KC_S : Z := 0x0016.
Definition KC_T : Z := 0x0017.
Definition KC_U : Z := 0x0018.
Definition KC_V : Z := 0x0019.
Definition KC_W : Z := 0x001A.
Definition KC_X : Z := 0x001B.
Definition KC_Y : Z := 0x001C.
Definition KC_F1 : Z := 0x003A.
Definition KC_F12 : Z := 0x0045.
Definition KC_HOME : Z := 0x004A.
Definition KC_PAGE_UP : Z := 0x004B.
Definition KC_END : Z := 0x004D.
Definition KC_PAGE_DOWN : Z := 0x004E.
Definition KC_RIGHT : Z := 0x004F.
Definition KC_LEFT : Z := 0x0050.
Definition KC_DOWN : Z := 0x0051.
Definition KC_UP : Z := 0x0052.
Definition KC_MS_DOWN : Z := 0x00CE.
Definition KC_MS_LEFT : Z := 0x00CF.
Definition KC_MS_RIGHT : Z := 0x00D0.
Definition KC_MS_WH_UP : Z := 0x00D9.
Definition KC_MS_WH_DOWN : Z := 0x00DA.
Definition KC_MS_WH_LEFT : Z := 0x00DB.
Definition KC_MS_WH_RIGHT : Z := 0x00DC.
Definition KC_MS_ACCEL0 : Z := 0x00DD.
Definition KC_MS_ACCEL1 : Z := 0x00DE.
Definition KC_PRINT_SCREEN : Z := 0x0046.
Definition KC_INSERT : Z := 0x0049.
Definition KC_KP_PLUS : Z := 0x0057.
Definition KC_KP_ENTER : Z := 0x0058.
Definition KC_KP_1 : Z := 0x0059.
Definition KC_NONUS_BACKSLASH : Z := 0x0064.
Definition QK_UNICODE_MODE_NEXT : Z := 0x7C30.
Definition QK_UNICODE_MODE_PREVIOUS : Z := 0x7C31.
Definition QK_UNICODE_MODE_MACOS : Z := 0x7C32.
Definition QK_UNICODE_MODE_LINUX : Z := 0x7C33.
Definition QK_UNICODE_MODE_WINDOWS : Z := 0x7C34.
Definition QK_UNICODE_MODE_BSD : Z := 0x7C35.
Definition QK_UNICODE_MODE_WINCOMPOSE : Z := 0x7C36.
Definition QK_UNICODE_MODE_EMACS : Z := 0x7C37.
Definition QK_DYNAMIC_TAPPING_TERM_PRINT : Z := 0x7C70.
Definition QK_DYNAMIC_TAPPING_TERM_UP : Z := 0x7C71.
Definition QK_DYNAMIC_TAPPING_TERM_DOWN : Z := 0x7C72.
Definition QK_SEQUENCER_ON : Z := 0x7200.
Definition QK_SEQUENCER_OFF : Z := 0x7201.
Definition QK_SEQUENCER_TOGGLE : Z := 0x7202.
Definition QK_SEQUENCER_TEMPO_DOWN : Z := 0x7203.
Definition QK_SEQUENCER_TEMPO_UP : Z := 0x7204.
Definition QK_SEQUENCER_RESOLUTION_DOWN : Z := 0x7205.
Definition QK_SEQUENCER_RESOLUTION_UP : Z := 0x7206.
Definition QK_SEQUENCER_STEPS_ALL : Z := 0x7207.
Definition QK_SEQUENCER_STEPS_CLEAR : Z := 0x7208.
Definition QK_BASIC : Z := 0x0000.
Definition QK_BASIC_MAX : Z := 0x00FF.
Definition QK_AUTO_SHIFT_DOWN : Z := 0x7C10.
Definition QK_AUTO_SHIFT_UP : Z := 0x7C11.
Definition QK_AUTO_SHIFT_REPORT : Z := 0x7C12.
Definition QK_AUTO_SHIFT_ON : Z := 0x7C13.
Definition QK_AUTO_SHIFT_OFF : Z := 0x7C14.
Definition QK_AUTO_SHIFT_TOGGLE : Z := 0x7C15.

Definition IS_BASIC_KEYCODE (code : Z) : bool := within KC_A KC_EXSEL code.
Definition IS_SYSTEM_KEYCODE (code : Z) : bool := within KC_SYSTEM_POWER KC_SYSTEM_WAKE code.
Definition IS_CONSUMER_KEYCODE (code : Z) : bool := within KC_AUDIO_MUTE KC_LAUNCHPAD code.
Definition IS_MOUSE_KEYCODE (code : Z) : bool := within KC_MS_UP KC_MS_ACCEL2 code.
Definition IS_MODIFIER_KEYCODE (code : Z) : bool := within KC_LEFT_CTRL KC_RIGHT_GUI code.
Definition IS_SWAP_HANDS_KEYCODE (code : Z) : bool :=
  within QK_SWAP_HANDS_TOGGLE QK_SWAP_HANDS_ONE_SHOT code.

(** [MOD_BIT(code)] *)
Definition MOD_BIT (code : Z) : Z := Z.shiftl 1 (Z.land code 0x07).

(** ** The fields of a 16-bit keycode *)

Definition QK_MODS_GET_MODS (kc : Z) : Z := Z.land (Z.shiftr kc 8) 0x1F.
Definition QK_MODS_GET_BASIC_KEYCODE (kc : Z) : Z := Z.land kc 0xFF.
Definition QK_TO_GET_LAYER (kc : Z) : Z := Z.land kc 0x1F.
Definition QK_MOMENTARY_GET_LAYER (kc : Z) : Z := Z.land kc 0x1F.
Definition QK_DEF_LAYER_GET_LAYER (kc : Z) : Z := Z.land kc 0x1F.
Definition QK_TOGGLE_LAYER_GET_LAYER (kc : Z) : Z := Z.land kc 0x1F.
Definition QK_ONE_SHOT_LAYER_GET_LAYER (kc : Z) : Z := Z.land kc 0x1F.
Definition QK_LAYER_MOD_GET_LAYER (kc : Z) : Z := Z.land (Z.shiftr kc 5) 0xF.
Definition QK_LAYER_MOD_GET_MODS (kc : Z) : Z := Z.land kc 0x1F.
Definition QK_ONE_SHOT_MOD_GET_MODS (kc : Z) : Z := Z.land kc 0x1F.
Definition QK_LAYER_TAP_TOGGLE_GET_LAYER (kc : Z) : Z := Z.land kc 0x1F.
Definition QK_LAYER_TAP_GET_LAYER (kc : Z) : Z := Z.land (Z.shiftr kc 8) 0xF.
Definition QK_LAYER_TAP_GET_TAP_KEYCODE (kc : Z) : Z := Z.land kc 0xFF.
Definition QK_MOD_TAP_GET_MODS (kc : Z) : Z := Z.land (Z.shiftr kc 8) 0x1F.
Definition QK_MOD_TAP_GET_TAP_KEYCODE (kc : Z) : Z := Z.land kc 0xFF.
Definition QK_SWAP_HANDS_GET_TAP_KEYCODE (kc : Z) : Z := Z.land kc 0xFF.

(** The keycode macros of keymaps. *)
Definition TO (layer : Z) : Z := Z.lor QK_TO (Z.land layer 0x1F).
Definition MO (layer : Z) : Z := Z.lor QK_MOMENTARY (Z.land layer 0x1F).
Definition DF (layer : Z) : Z := Z.lor QK_DEF_LAYER (Z.land layer 0x1F).
Definition TG (layer : Z) : Z := Z.lor QK_TOGGLE_LAYER (Z.land layer 0x1F).
Definition OSL (layer : Z) : Z := Z.lor QK_ONE_SHOT_LAYER (Z.land layer 0x1F).
Definition LM (layer mod_ : Z) : Z :=
  Z.lor (Z.lor QK_LAYER_MOD (Z.shiftl (Z.land layer 0xF) 5)) (Z.land mod_ 0x1F).
Definition OSM (mod_ : Z) : Z := Z.lor QK_ONE_SHOT_MOD (Z.land mod_ 0x1F).
Definition TT (layer : Z) : Z := Z.lor QK_LAYER_TAP_TOGGLE (Z.land layer 0x1F).
Definition LT (layer kc : Z) : Z :=
  Z.lor (Z.lor QK_LAYER_TAP (Z.shiftl (Z.land layer 0xF) 8)) (Z.land kc 0xFF).
Definition MT (mod_ kc : Z) : Z :=
  Z.lor (Z.lor QK_MOD_TAP (Z.shiftl (Z.land mod_ 0x1F) 8)) (Z.land kc 0xFF).

(** ** Usages *)

Definition SYSTEM_POWER_DOWN : Z := 0x81.
Definition SYSTEM_SLEEP : Z := 0x82.
Definition SYSTEM_WAKE_UP : Z := 0x83.
Definition AUDIO_MUTE : Z := 0x0E2.
Definition AUDIO_VOL_UP : Z := 0x0E9.
Definition AUDIO_VOL_DOWN : Z := 0x0EA.
Definition TRANSPORT_NEXT_TRACK : Z := 0x0B5.
Definition TRANSPORT_PREV_TRACK : Z := 0x0B6.
Definition TRANSPORT_FAST_FORWARD : Z := 0x0B3.
Definition TRANSPORT_REWIND : Z := 0x0B4.
Definition TRANSPORT_STOP : Z := 0x0B7.
Definition TRANSPORT_STOP_EJECT : Z := 0x0CC.
Definition TRANSPORT_PLAY_PAUSE : Z := 0x0CD.
Definition AL_CC_CONFIG : Z := 0x183.
Definition AL_EMAIL : Z := 0x18A.
Definition AL_CALCULATOR : Z := 0x192.
Definition AL_LOCAL_BROWSER : Z := 0x194.
Definition AL_CONTROL_PANEL : Z := 0x19F.
Definition AL_ASSISTANT : Z := 0x1CB.
Definition AC_SEARCH : Z := 0x221.
Definition AC_HOME : Z := 0x223.
Definition AC_BACK : Z := 0x224.
Definition AC_FORWARD : Z := 0x225.
Definition AC_STOP : Z := 0x226.
Definition AC_REFRESH : Z := 0x227.
Definition BRIGHTNESS_UP : Z := 0x06F.
Definition BRIGHTNESS_DOWN : Z := 0x070.
Definition AC_BOOKMARKS : Z := 0x22A.
Definition AC_DESKTOP_SHOW_ALL_WINDOWS : Z := 0x29F.
Definition AC_SOFT_KEY_LEFT : Z := 0x2A0.

Definition KEYCODE2SYSTEM (key : Z) : Z :=
  switch key [
    (KC_SYSTEM_POWER, SYSTEM_POWER_DOWN);
    (KC_SYSTEM_SLEEP, SYSTEM_SLEEP);
    (KC_SYSTEM_WAKE, SYSTEM_WAKE_UP)] 0.

Definition KEYCODE2CONSUMER (key : Z) : Z :=
  switch key [
    (KC_AUDIO_MUTE, AUDIO_MUTE);
    (KC_AUDIO_VOL_UP, AUDIO_VOL_UP);
    (KC_AUDIO_VOL_DOWN, AUDIO_VOL_DOWN);
    (KC_MEDIA_NEXT_TRACK, TRANSPORT_NEXT_TRACK);
    (KC_MEDIA_PREV_TRACK, TRANSPORT_PREV_TRACK);
    (KC_MEDIA_FAST_FORWARD, TRANSPORT_FAST_FORWARD);
    (KC_MEDIA_REWIND, TRANSPORT_REWIND);
    (KC_MEDIA_STOP, TRANSPORT_STOP);
    (KC_MEDIA_EJECT, TRANSPORT_STOP_EJECT);
    (KC_MEDIA_PLAY_PAUSE, TRANSPORT_PLAY_PAUSE);
    (KC_MEDIA_SELECT, AL_CC_CONFIG);
    (KC_MAIL, AL_EMAIL);
    (KC_CALCULATOR, AL_CALCULATOR);
    (KC_MY_COMPUTER, AL_LOCAL_BROWSER);
    (KC_CONTROL_PANEL, AL_CONTROL_PANEL);
    (KC_ASSISTANT, AL_ASSISTANT);
    (KC_WWW_SEARCH, AC_SEARCH);
    (KC_WWW_HOME, AC_HOME);
    (KC_WWW_BACK, AC_BACK);
    (KC_WWW_FORWARD, AC_FORWARD);
    (KC_WWW_STOP, AC_STOP);
    (KC_WWW_REFRESH, AC_REFRESH);
    (KC_BRIGHTNESS_UP, BRIGHTNESS_UP);
    (KC_BRIGHTNESS_DOWN, BRIGHTNESS_DOWN);
    (KC_WWW_FAVORITES, AC_BOOKMARKS);
    (KC_MISSION_CONTROL, AC_DESKTOP_SHOW_ALL_WINDOWS);
    (KC_LAUNCHPAD, AC_SOFT_KEY_LEFT)] 0.
