(* ===== verification/Report.v ===== *)
(** * HID reports (tmk_core/protocol/report.c)

    The keyboard report with its six key slots, its ring buffered variant, the
    bit map of the NKRO report, and the mouse report comparison.  The guard
    [keyboard_protocol && keymap_config.nkro] is the argument [nkro]. *)

From S2P Require Import Prelude.
From S2P Require Import Bitwise.
From S2P Require Import Keycodes.

Definition REPORT_ID_KEYBOARD : Z := 1.
Definition REPORT_ID_SYSTEM : Z := 3.
Definition REPORT_ID_CONSUMER : Z := 4.
Definition REPORT_ID_NKRO : Z := 6.
Definition NKRO_REPORT_BITS : nat := 30.
Definition KEYBOARD_REPORT_KEYS : nat := 6.

Record report_keyboard_t := {
  kb_report_id : Z;
  kb_mods : Z;
  kb_reserved : Z;
  keys : list Z;
}.

Record report_nkro_t := {
  nkro_report_id : Z;
  nkro_mods : Z;
  bits : list Z;
}.

#[global] Instance report_keyboard_eq_dec : EqDecision report_keyboard_t.
Proof. solve_decision. Defined.
#[global] Instance report_nkro_eq_dec : EqDecision report_nkro_t.
Proof. solve_decision. Defined.

(** The two reports and the static variables of report.c. *)
Record reports := {
  keyboard_report : report_keyboard_t;
  nkro_report : report_nkro_t;
  cb_head : Z;
  cb_tail : Z;
  cb_count : Z;
}.

Definition set_keys (ks : list Z) (r : reports) : reports :=
  r <| keyboard_report := (keyboard_report r) <| keys := ks |> |>.
Definition set_bits (bs : list Z) (r : reports) : reports :=
  r <| nkro_report := (nkro_report r) <| bits := bs |> |>.

(** Reading and writing an array of bytes at a C index. *)
Definition at_ (a : list Z) (i : Z) : Z := default 0 (a !! Z.to_nat i).
Definition put (a : list Z) (i v : Z) : list Z := <[Z.to_nat i := v]> a.

(** ** Queries *)

Definition count_nonzero (a : list Z) : Z := u8 (Z.of_nat (length (filter (fun b => b <> 0) a))).

Definition has_anykey (nkro : bool) (r : reports) : Z :=
  if nkro then count_nonzero (bits (nkro_report r)) else count_nonzero (keys (keyboard_report r)).

(** [for (; i < NKRO_REPORT_BITS && !bits[i]; i++)] *)
Fixpoint first_nonzero (bs : list Z) (i : Z) : Z :=
  match bs with
  | [] => i
  | b :: bs => if b =? 0 then first_nonzero bs (i + 1) else i
  end.

(** [None] is a read outside the report. *)
Definition first_nkro_key (bs : list Z) : option Z :=
  let i := first_nonzero bs 0 in
  b ← bs !! Z.to_nat i; Some (u8 (Z.lor (Z.shiftl i 3) (biton b))).

Definition RO_ADD (a b : Z) : Z := Z.rem (a + b) 6.
Definition RO_SUB (a b : Z) : Z := Z.rem (a - b + 6) 6.
Definition RO_INC (a : Z) : Z := RO_ADD a 1.
Definition RO_DEC (a : Z) : Z := RO_SUB a 1.

(** The ring is walked with [do { ... i = RO_INC(i); } while (i != cb_tail)]:
    at most six steps. *)
Fixpoint ring_first (fuel : nat) (ks : list Z) (tail i : Z) : Z :=
  match fuel with
  | O => i
  | S fuel =>
      if negb (at_ ks i =? 0) then i
      else if RO_INC i =? tail then RO_INC i else ring_first fuel ks tail (RO_INC i)
  end.

Definition get_first_key (ring nkro : bool) (r : reports) : option Z :=
  if nkro then first_nkro_key (bits (nkro_report r))
  else
    let ks := keys (keyboard_report r) in
    if ring then Some (at_ ks (ring_first 6 ks (cb_tail r) (cb_head r)))
    else Some (at_ ks 0).

Definition is_key_pressed (nkro : bool) (key : Z) (r : reports) : bool :=
  if key =? KC_NO then false
  else if nkro then
    if Z.shiftr key 3 <? Z.of_nat NKRO_REPORT_BITS
    then nz (Z.land (at_ (bits (nkro_report r)) (Z.shiftr key 3)) (Z.shiftl 1 (Z.land key 7)))
    else false
  else existsb (fun k => k =? key) (keys (keyboard_report r)).

(** ** The six key slots *)

(** The loop of [add_key_byte]: [None] when the key is already there, else the
    first empty slot, -1 for none. *)
Fixpoint scan_slots (ks : list Z) (code i empty : Z) : option Z :=
  match ks with
  | [] => Some empty
  | k :: ks =>
      if k =? code then None
      else scan_slots ks code (i + 1) (if (empty =? -1) && (k =? 0) then i else empty)
  end.

Definition add_key_slot (ks : list Z) (code : Z) : list Z :=
  match scan_slots ks code 0 (-1) with
  | None => ks
  | Some empty => if empty =? -1 then ks else put ks empty code
  end.

Definition del_key_slot (ks : list Z) (code : Z) : list Z :=
  (fun k => if k =? code then 0 else k) <$> ks.

(** ** The ring buffered variant *)

Fixpoint ring_scan (fuel : nat) (ks : list Z) (tail code i empty : Z) : option Z :=
  match fuel with
  | O => Some empty
  | S fuel =>
      if at_ ks i =? code then None
      else
        let empty := if (empty =? -1) && (at_ ks i =? 0) then i else empty in
        if RO_INC i =? tail then Some empty
        else ring_scan fuel ks tail code (RO_INC i) empty
  end.

(** [left shift when has empty space] *)
Fixpoint ring_shift (fuel : nat) (ks : list Z) (tail i empty offset : Z) : list Z * Z :=
  match fuel with
  | O => (ks, offset)
  | S fuel =>
      let '(ks, empty, offset) :=
        if negb (at_ ks i =? 0)
        then (put (put ks empty (at_ ks i)) i 0, RO_INC empty, offset)
        else (ks, empty, u8 (offset + 1)) in
      if RO_INC i =? tail then (ks, offset)
      else ring_shift fuel ks tail (RO_INC i) empty offset
  end.

Definition ring_make_room (r : reports) (empty : Z) : reports :=
  if cb_tail r =? cb_head r then
    if empty =? -1 then
      r <| cb_head := RO_INC (cb_head r) |> <| cb_count := i8 (cb_count r - 1) |>
    else
      let '(ks, offset) :=
        ring_shift 6 (keys (keyboard_report r)) (cb_tail r) (RO_INC empty) empty 1 in
      set_keys ks r <| cb_tail := RO_SUB (cb_tail r) offset |>
  else r.

Definition ring_push (r : reports) (code : Z) : reports :=
  set_keys (put (keys (keyboard_report r)) (cb_tail r) code) r
    <| cb_tail := RO_INC (cb_tail r) |> <| cb_count := i8 (cb_count r + 1) |>.

Definition ring_add (code : Z) (r : reports) : reports :=
  if nz (cb_count r) then
    match ring_scan 6 (keys (keyboard_report r)) (cb_tail r) code (cb_head r) (-1) with
    | None => r
    | Some empty => ring_push (ring_make_room r empty) code
    end
  else ring_push r code.

(** [left shift when next to tail]: the new tail. *)
Fixpoint ring_trim (fuel : nat) (ks : list Z) (head tail : Z) : Z :=
  match fuel with
  | O => tail
  | S fuel =>
      let tail := RO_DEC tail in
      if negb (at_ ks (RO_DEC tail) =? 0) then tail
      else if tail =? head then tail else ring_trim fuel ks head tail
  end.

Definition ring_remove (i : Z) (r : reports) : reports :=
  let r := set_keys (put (keys (keyboard_report r)) i 0) r <| cb_count := i8 (cb_count r - 1) |> in
  let r := if cb_count r =? 0 then r <| cb_tail := 0 |> <| cb_head := 0 |> else r in
  if i =? RO_DEC (cb_tail r)
  then r <| cb_tail := ring_trim 6 (keys (keyboard_report r)) (cb_head r) (cb_tail r) |>
  else r.

Fixpoint ring_find (fuel : nat) (ks : list Z) (tail code i : Z) : option Z :=
  match fuel with
  | O => None
  | S fuel =>
      if at_ ks i =? code then Some i
      else if RO_INC i =? tail then None else ring_find fuel ks tail code (RO_INC i)
  end.

Definition ring_del (code : Z) (r : reports) : reports :=
  if nz (cb_count r) then
    match ring_find 6 (keys (keyboard_report r)) (cb_tail r) code (cb_head r) with
    | Some i => ring_remove i r
    | None => r
    end
  else r.

Definition add_key_byte (ring : bool) (code : Z) (r : reports) : reports :=
  if ring then ring_add code r else set_keys (add_key_slot (keys (keyboard_report r)) code) r.
Definition del_key_byte (ring : bool) (code : Z) (r : reports) : reports :=
  if ring then ring_del code r else set_keys (del_key_slot (keys (keyboard_report r)) code) r.

(** ** NKRO *)

Definition update_bit (code : Z) (f : Z -> Z) (r : reports) : reports :=
  let i := Z.shiftr code 3 in
  if i <? Z.of_nat NKRO_REPORT_BITS
  then set_bits (put (bits (nkro_report r)) i (u8 (f (at_ (bits (nkro_report r)) i)))) r
  else r.

Definition add_key_bit (code : Z) (r : reports) : reports :=
  update_bit code (fun b => Z.lor b (Z.shiftl 1 (Z.land code 7))) r.
Definition del_key_bit (code : Z) (r : reports) : reports :=
  update_bit code (fun b => clear_bits b (Z.shiftl 1 (Z.land code 7))) r.

(** ** Either *)

Definition add_key_to_report (ring nkro : bool) (key : Z) (r : reports) : reports :=
  if nkro then add_key_bit key r else add_key_byte ring key r.
Definition del_key_from_report (ring nkro : bool) (key : Z) (r : reports) : reports :=
  if nkro then del_key_bit key r else del_key_byte ring key r.
Definition clear_keys_from_report (nkro : bool) (r : reports) : reports :=
  if nkro then set_bits (replicate (length (bits (nkro_report r))) 0) r
  else set_keys (replicate (length (keys (keyboard_report r))) 0) r.

(** ** The mouse report *)

Record report_mouse_t := {
  buttons : Z; boot_x : Z; boot_y : Z; mouse_x : Z; mouse_y : Z; mouse_v : Z; mouse_h : Z;
}.

(** [a != 0 && a != b] *)
Definition moved (a b : Z) : bool := nz a && negb (a =? b).

Definition has_mouse_report_changed (extended : bool) (new_report old_report : report_mouse_t) : bool :=
  negb (buttons new_report =? buttons old_report)
  || (extended && (moved (boot_x new_report) (boot_x old_report)
                   || moved (boot_y new_report) (boot_y old_report)))
  || moved (mouse_x new_report) (mouse_x old_report)
  || moved (mouse_y new_report) (mouse_y old_report)
  || moved (mouse_h new_report) (mouse_h old_report)
  || moved (mouse_v new_report) (mouse_v old_report).

(** The reports at reset. *)
Definition reports_init : reports := {|
  keyboard_report := {| kb_report_id := 0; kb_mods := 0; kb_reserved := 0;
                        keys := replicate KEYBOARD_REPORT_KEYS 0 |};
  nkro_report := {| nkro_report_id := 0; nkro_mods := 0; bits := replicate NKRO_REPORT_BITS 0 |};
  cb_head := 0; cb_tail := 0; cb_count := 0;
|}.
(** ** What the reports mean

    The abstract value of a report is the set of keys it shows as pressed. *)

Section meaning.
Implicit Types (r : reports) (ks : list Z) (code k : Z).

Lemma at_lookup a i v : a !! Z.to_nat i = Some v -> at_ a i = v.
Proof. unfold at_. by intros ->. Qed.

Lemma at_put l i j v : 0 <= i < Z.of_nat (length l) -> 0 <= j ->
  at_ (put l i v) j = if j =? i then v else at_ l j.
Proof.
  intros Hi Hj. unfold at_, put. destruct (Z.eqb_spec j i) as [->|Hne].
  - by rewrite list_lookup_insert_eq by lia.
  - by rewrite list_lookup_insert_ne by lia.
Qed.

Lemma pressed_6kro key r :
  is_key_pressed false key r = true <-> key <> KC_NO /\ key ∈ keys (keyboard_report r).
Proof.
  unfold is_key_pressed. destruct (Z.eqb_spec key KC_NO); [naive_solver|].
  rewrite existsb_exists. split.
  - intros (k & Hk & Heq). apply Z.eqb_eq in Heq. subst. by rewrite list_elem_of_In.
  - intros [_ Hk]. exists key. rewrite Z.eqb_refl. by rewrite <-list_elem_of_In.
Qed.

(** The slots hold no key twice. *)
Definition distinct_slots ks : Prop :=
  forall i j k, ks !! i = Some k -> ks !! j = Some k -> k <> 0 -> i = j.

Lemma scan_slots_spec ks code i empty :
  -1 <= empty < i ->
  match scan_slots ks code i empty with
  | None => code ∈ ks
  | Some e => code ∉ ks /\
      if empty =? -1 then
        (e = -1 /\ 0 ∉ ks) \/ (exists n, e = i + Z.of_nat n /\ ks !! n = Some 0)
      else e = empty
  end.
Proof.
  revert i empty. induction ks as [|k ks IH]; intros i empty He; cbn [scan_slots].
  - split; [set_solver|]. destruct (Z.eqb_spec empty (-1)); [left; set_solver|done].
  - destruct (Z.eqb_spec k code); [subst; set_solver|].
    destruct (Z.eqb_spec empty (-1)) as [->|]; cbn [andb].
    + destruct (Z.eqb_spec k 0) as [->|].
      * specialize (IH (i + 1) i ltac:(lia)).
        destruct (scan_slots _ _ _ _) as [e|]; [|set_solver].
        destruct (Z.eqb_spec i (-1)); [lia|]. destruct IH as [Hc ->].
        split; [set_solver|]. right. exists 0%nat. split; [lia|done].
      * specialize (IH (i + 1) (-1) ltac:(lia)).
        destruct (scan_slots _ _ _ _) as [e|]; [|set_solver].
        destruct IH as [Hc [[-> Hz]|(m & -> & Hm)]]; (split; [set_solver|]).
        -- left. set_solver.
        -- right. exists (S m). split; [lia|done].
    + specialize (IH (i + 1) empty ltac:(lia)).
      destruct (scan_slots _ _ _ _) as [e|]; [|set_solver].
      destruct (Z.eqb_spec empty (-1)); [lia|]. destruct IH as [Hc ->]. split; [set_solver|done].
Qed.

(** Adding a key: nothing changes if it is there or no slot is free;
    otherwise it takes a free slot. *)
Lemma add_key_slot_spec ks code :
  (code ∈ ks \/ 0 ∉ ks) /\ add_key_slot ks code = ks \/
  code ∉ ks /\ exists n, ks !! n = Some 0 /\ add_key_slot ks code = <[n := code]> ks.
Proof.
  unfold add_key_slot. pose proof (scan_slots_spec ks code 0 (-1) ltac:(lia)) as H.
  destruct (scan_slots _ _ _ _) as [e|]; [|by left; split; [left|]].
  destruct H as [Hc H]. cbn [Z.eqb Pos.eqb] in H. destruct H as [[-> Hz]|(m & -> & Hm)].
  - left. split; [by right|done].
  - right. split; [done|]. exists m. split; [done|].
    destruct (Z.eqb_spec (0 + Z.of_nat m) (-1)); [lia|]. unfold put. do 2 f_equal. lia.
Qed.

Lemma elem_of_insert (l : list Z) n x y z :
  l !! n = Some y -> z ∈ <[n := x]> l <-> z = x \/ exists j, j <> n /\ l !! j = Some z.
Proof.
  intros Hn. rewrite list_elem_of_lookup. split.
  - intros [j Hj]. destruct (decide (j = n)) as [->|].
    + rewrite list_lookup_insert_eq in Hj by by eapply lookup_lt_Some. left. congruence.
    + rewrite list_lookup_insert_ne in Hj by done. right. by exists j.
  - intros [->|(j & Hj & Hz)].
    + exists n. apply list_lookup_insert_eq. by eapply lookup_lt_Some.
    + exists j. by rewrite list_lookup_insert_ne.
Qed.

Lemma add_key_slot_elem ks code k :
  k <> 0 -> 0 ∈ ks \/ code ∈ ks ->
  k ∈ add_key_slot ks code <-> k = code \/ k ∈ ks.
Proof.
  intros Hk Hroom. destruct (add_key_slot_spec ks code) as [[H ->]|(Hc & n & Hn & ->)].
  - set_solver.
  - rewrite elem_of_insert by done. split.
    + intros [->|(j & _ & Hj)]; [by left|right]. by eapply list_elem_of_lookup_2.
    + intros [->|Hin]; [by left|right]. apply list_elem_of_lookup in Hin as [j Hj].
      exists j. split; [|done]. intros ->. congruence.
Qed.

Lemma add_key_slot_distinct ks code :
  distinct_slots ks -> distinct_slots (add_key_slot ks code).
Proof.
  intros Hd. destruct (add_key_slot_spec ks code) as [[_ ->]|(Hc & n & Hn & ->)]; [done|].
  intros i j k Hi Hj Hk.
  assert (forall m k, <[n := code]> ks !! m = Some k -> m = n /\ k = code \/ ks !! m = Some k) as Hcase.
  { intros m k' Hm. destruct (decide (m = n)) as [->|].
    - left. rewrite list_lookup_insert_eq in Hm by by eapply lookup_lt_Some. naive_solver.
    - right. by rewrite list_lookup_insert_ne in Hm. }
  apply Hcase in Hi as [[-> ->]|Hi], Hj as [[-> ?]|Hj]; try done.
  - exfalso. apply Hc. by eapply list_elem_of_lookup_2.
  - subst. exfalso. apply Hc. by eapply list_elem_of_lookup_2.
  - by apply (Hd i j k).
Qed.

Lemma del_key_slot_elem ks code k :
  k <> 0 -> k ∈ del_key_slot ks code <-> k <> code /\ k ∈ ks.
Proof.
  intros Hk. unfold del_key_slot. rewrite list_elem_of_fmap. split.
  - intros (y & -> & Hy). destruct (Z.eqb_spec y code); [done|]. done.
  - intros [Hne Hin]. exists k. split; [|done]. by destruct (Z.eqb_spec k code).
Qed.

Lemma del_key_slot_distinct ks code :
  distinct_slots ks -> distinct_slots (del_key_slot ks code).
Proof.
  intros Hd i j k Hi Hj Hk. unfold del_key_slot in *.
  apply list_lookup_fmap_Some in Hi as (y & -> & Hy).
  apply list_lookup_fmap_Some in Hj as (z & Hyz & Hz).
  destruct (Z.eqb_spec y code); [done|]. destruct (Z.eqb_spec z code); [congruence|].
  subst z. by apply (Hd i j y).
Qed.

(** The bit of a key in the NKRO report. *)
Definition nkro_bit (bs : list Z) key : bool := Z.testbit (at_ bs (key / 8)) (key mod 8).

Definition nkro_ok r : Prop :=
  length (bits (nkro_report r)) = NKRO_REPORT_BITS /\ Forall is_byte (bits (nkro_report r)).

Lemma shiftr_3 key : Z.shiftr key 3 = key / 8.
Proof. by rewrite Z.shiftr_div_pow2. Qed.
Lemma land_7 key : Z.land key 7 = key mod 8.
Proof. change 7 with (Z.ones 3). by rewrite Z.land_ones. Qed.

Lemma is_key_pressed_nkro key r :
  0 < key < 240 -> is_key_pressed true key r = nkro_bit (bits (nkro_report r)) key.
Proof.
  intros Hk. unfold is_key_pressed. rewrite (proj2 (Z.eqb_neq key KC_NO)) by (unfold KC_NO; lia).
  rewrite shiftr_3, land_7. change (Z.of_nat NKRO_REPORT_BITS) with 30.
  destruct (Z.ltb_spec (key / 8) 30); [|dlia].
  unfold nkro_bit. rewrite <-nz_land_bit by dlia. done.
Qed.

Lemma update_bit_spec r code f key :
  nkro_ok r -> 0 <= code < 240 -> 0 <= key < 240 ->
  nkro_bit (bits (nkro_report (update_bit code f r))) key =
    if decide (key / 8 = code / 8)
    then Z.testbit (f (at_ (bits (nkro_report r)) (code / 8))) (key mod 8)
    else nkro_bit (bits (nkro_report r)) key.
Proof.
  intros [Hl _] Hc Hk. unfold update_bit. rewrite shiftr_3.
  change (Z.of_nat NKRO_REPORT_BITS) with 30. unfold NKRO_REPORT_BITS in Hl.
  destruct (Z.ltb_spec (code / 8) 30); [|dlia]. unfold nkro_bit, put.
  cbn [set_bits nkro_report bits apply_update constant].
  case_decide as He.
  - rewrite He. erewrite at_lookup by (apply list_lookup_insert_eq; dlia).
    rewrite testbit_wrap by done. by rewrite bool_decide_true by dlia.
  - unfold at_. rewrite list_lookup_insert_ne; [done|]. intros Hn. apply He. dlia.
Qed.

Lemma update_bit_ok r code f : nkro_ok r -> nkro_ok (update_bit code f r).
Proof.
  intros [Hl Hb]. unfold update_bit. destruct (_ <? _); [|done].
  unfold put. split; cbn.
  - by rewrite length_insert.
  - apply Forall_insert; [done|]. apply is_byte_u8.
Qed.

Lemma add_key_bit_spec r code key :
  nkro_ok r -> 0 <= code < 240 -> 0 <= key < 240 ->
  nkro_bit (bits (nkro_report (add_key_bit code r))) key =
    bool_decide (key = code) || nkro_bit (bits (nkro_report r)) key.
Proof.
  intros Hr Hc Hk. unfold add_key_bit. rewrite update_bit_spec by done.
  change (Z.shiftl 1 (Z.land code 7)) with (bit (Z.land code 7)). rewrite land_7.
  case_decide as He.
  - rewrite Z.lor_spec, testbit_bit by dlia. unfold nkro_bit. rewrite He, orb_comm. f_equal.
    apply bool_decide_ext. split; [dlia|by intros ->].
  - rewrite bool_decide_false by (by intros ->). done.
Qed.

Lemma del_key_bit_spec r code key :
  nkro_ok r -> 0 <= code < 240 -> 0 <= key < 240 ->
  nkro_bit (bits (nkro_report (del_key_bit code r))) key =
    negb (bool_decide (key = code)) && nkro_bit (bits (nkro_report r)) key.
Proof.
  intros Hr Hc Hk. unfold del_key_bit. rewrite update_bit_spec by done.
  change (Z.shiftl 1 (Z.land code 7)) with (bit (Z.land code 7)). rewrite land_7.
  case_decide as He.
  - rewrite testbit_clear, testbit_bit by dlia. unfold nkro_bit. rewrite He, andb_comm. f_equal.
    f_equal. apply bool_decide_ext. split; [dlia|by intros ->].
  - rewrite bool_decide_false by (by intros ->). done.
Qed.

(** A free slot, or the key itself among the slots; NKRO always has room. *)
Definition has_room (nkro : bool) r code : Prop :=
  nkro = false -> 0 ∈ keys (keyboard_report r) \/ code ∈ keys (keyboard_report r).
Definition reportable (nkro : bool) key : Prop := 0 < key /\ (nkro = true -> key < 240).

(** Adding a key for which there is room makes exactly that key pressed in
    addition, with the six slots and with the NKRO bit map. *)
Lemma add_key_pressed nkro r code key :
  nkro_ok r -> reportable nkro code -> reportable nkro key -> has_room nkro r code ->
  is_key_pressed nkro key (add_key_to_report false nkro code r) =
    bool_decide (key = code) || is_key_pressed nkro key r.
Proof.
  intros Hr [Hc Hc'] [Hk Hk'] Hroom. destruct nkro; cbn [add_key_to_report].
  - specialize (Hc' eq_refl). specialize (Hk' eq_refl).
    rewrite !is_key_pressed_nkro by done. by rewrite add_key_bit_spec by (done || lia).
  - apply eq_bool_prop_intro. rewrite orb_True, bool_decide_spec.
    rewrite !Is_true_true, !pressed_6kro. unfold KC_NO. cbn.
    rewrite add_key_slot_elem by (lia || by apply Hroom).
    naive_solver lia.
Qed.

(** Removing a key makes exactly that key not pressed. *)
Lemma del_key_pressed nkro r code key :
  nkro_ok r -> reportable nkro code -> reportable nkro key ->
  is_key_pressed nkro key (del_key_from_report false nkro code r) =
    negb (bool_decide (key = code)) && is_key_pressed nkro key r.
Proof.
  intros Hr [Hc Hc'] [Hk Hk']. destruct nkro; cbn [del_key_from_report].
  - specialize (Hc' eq_refl). specialize (Hk' eq_refl).
    rewrite !is_key_pressed_nkro by done. by rewrite del_key_bit_spec by (done || lia).
  - apply eq_bool_prop_intro. rewrite andb_True, negb_True, bool_decide_spec.
    rewrite !Is_true_true, !pressed_6kro. unfold KC_NO. cbn.
    rewrite del_key_slot_elem by lia. naive_solver lia.
Qed.

Lemma clear_keys_pressed nkro r key :
  reportable nkro key -> is_key_pressed nkro key (clear_keys_from_report nkro r) = false.
Proof.
  intros [Hk Hk']. destruct nkro; unfold is_key_pressed; destruct (Z.eqb_spec key KC_NO); try done;
    cbn [clear_keys_from_report set_bits set_keys].
  - destruct (_ <? _); [|done]. unfold at_. cbn.
    destruct (_ !! _) as [b|] eqn:E; [|done]. by apply lookup_replicate in E as [-> _].
  - cbn. apply not_true_is_false. rewrite existsb_exists. intros (x & Hx & E).
    apply list_elem_of_In, elem_of_replicate in Hx as [-> _]. by apply Z.eqb_eq in E.
Qed.

(** C4: a report is a set of keys, kept in six slots or in the NKRO bit map:
    adding a key for which there is room makes exactly that key pressed in
    addition, removing one makes exactly that one not pressed, and clearing
    leaves none. *)
Theorem report_is_key_set nkro r code key :
  nkro_ok r -> reportable nkro code -> reportable nkro key ->
  (has_room nkro r code ->
     is_key_pressed nkro key (add_key_to_report false nkro code r) =
       bool_decide (key = code) || is_key_pressed nkro key r) /\
  is_key_pressed nkro key (del_key_from_report false nkro code r) =
    negb (bool_decide (key = code)) && is_key_pressed nkro key r /\
  is_key_pressed nkro key (clear_keys_from_report nkro r) = false.
Proof.
  intros Hr Hc Hk. split_and!; [by apply add_key_pressed|by apply del_key_pressed|].
  by apply clear_keys_pressed.
Qed.

(** The invariants of the reports: no key sits in two slots, there are
    six slots and thirty bytes of bits, whatever is added, removed or
    cleared; a key beyond the six slots is dropped. *)
Theorem report_invariant nkro code r :
  let ok r := distinct_slots (keys (keyboard_report r)) /\
    length (keys (keyboard_report r)) = KEYBOARD_REPORT_KEYS /\ nkro_ok r in
  ok r ->
  ok (add_key_to_report false nkro code r) /\ ok (del_key_from_report false nkro code r) /\
  ok (clear_keys_from_report nkro r) /\
  (~ has_room nkro r code -> add_key_to_report false nkro code r = r).
Proof.
  intros ok (Hd & Hl & Hn).
  assert (forall ks, length (add_key_slot ks code) = length ks) as Hadd.
  { intros ks. destruct (add_key_slot_spec ks code) as [[_ ->]|(_ & n & _ & ->)]; [done|].
    apply length_insert. }
  destruct nkro; cbn [add_key_to_report del_key_from_report clear_keys_from_report].
  - assert (forall f, ok (update_bit code f r)) as Hu.
    { intros f. split; [|split; [|by apply update_bit_ok]];
        unfold update_bit; by destruct (_ <? _). }
    split; [apply Hu|]. split; [apply Hu|]. split; [|by intros []].
    split; [done|]. split; [done|]. destruct Hn as [Hn _]. split; cbn.
    + by rewrite length_replicate.
    + by apply Forall_replicate.
  - split; [|split; [|split]].
    + split; [by apply add_key_slot_distinct|]. split; [cbn; by rewrite Hadd|done].
    + split; [by apply del_key_slot_distinct|]. split; [|done].
      cbn. unfold del_key_slot. by rewrite length_fmap.
    + split; [|split; [cbn; by rewrite length_replicate|done]].
      intros i j k Hi%lookup_replicate Hj Hk. by destruct Hi.
    + intros Hroom. unfold has_room in Hroom. cbn. 
      destruct (add_key_slot_spec (keys (keyboard_report r)) code) as [[_ ->]|(_ & n & Hz & _)].
      * by destruct r as [[] []].
      * exfalso. apply Hroom. intros _. left. by eapply list_elem_of_lookup_2.
Qed.
End meaning.

(** ** The ring buffer *)

Section ring.
Implicit Types (r : reports) (ks : list Z) (code k : Z).

Definition slot (i : Z) : Prop := 0 <= i < 6.
Definition ring_ok r : Prop :=
  length (keys (keyboard_report r)) = 6%nat /\ slot (cb_head r) /\ slot (cb_tail r).

Lemma ro_inc_slot i : slot i -> slot (RO_INC i).
Proof. unfold slot, RO_INC, RO_ADD. dlia. Qed.
Lemma ro_dec_slot i : slot i -> slot (RO_DEC i).
Proof. unfold slot, RO_DEC, RO_SUB. dlia. Qed.
Lemma ro_sub_slot i n : slot i -> 0 <= n <= 6 -> slot (RO_SUB i n).
Proof. unfold slot, RO_SUB. dlia. Qed.

Lemma ring_shift_ok fuel : forall ks tail i empty offset ks' offset',
  ring_shift fuel ks tail i empty offset = (ks', offset') ->
  0 <= offset -> offset + Z.of_nat fuel < 256 ->
  length ks' = length ks /\ offset <= offset' <= offset + Z.of_nat fuel.
Proof.
  induction fuel as [|fuel IH]; intros ks tail i empty offset ks' offset' H Ho Hf.
  - cbn in H. injection H as <- <-. split; [done|lia].
  - cbn [ring_shift] in H. destruct (negb _).
    + destruct (RO_INC i =? tail).
      * injection H as <- <-. unfold put. rewrite !length_insert. split; [done|lia].
      * apply IH in H as [-> ?]; [|lia..]. unfold put. rewrite !length_insert. split; [done|lia].
    + rewrite (wrap_small 8) in H by lia. destruct (RO_INC i =? tail).
      * injection H as <- <-. split; [done|lia].
      * apply IH in H as [-> ?]; [|lia..]. split; [done|lia].
Qed.

Lemma ring_push_spec r code :
  ring_ok r -> ring_ok (ring_push r code) /\ code ∈ keys (keyboard_report (ring_push r code)).
Proof.
  intros (Hl & Hh & Ht). split.
  - split; [|split; [done|by apply ro_inc_slot]]. cbn. unfold put. by rewrite length_insert.
  - cbn. unfold put. apply list_elem_of_lookup. exists (Z.to_nat (cb_tail r)).
    apply list_lookup_insert_eq. unfold slot in Ht. lia.
Qed.

Lemma ring_scan_found fuel : forall ks tail code i empty,
  ring_scan fuel ks tail code i empty = None -> code <> 0 -> code ∈ ks.
Proof.
  induction fuel as [|fuel IH]; intros ks tail code i empty H Hc; [done|].
  cbn [ring_scan] in H. destruct (Z.eqb_spec (at_ ks i) code) as [He|].
  - unfold at_ in He. destruct (ks !! Z.to_nat i) eqn:Hk; cbn in He; [|congruence].
    subst. by eapply list_elem_of_lookup_2.
  - destruct (RO_INC i =? tail); [done|]. by eapply IH.
Qed.

(** The steps of a walk from [i] to [tail], at least one. *)
Definition steps (i tail : Z) : Z := if i =? tail then 6 else (tail - i) mod 6.

Lemma steps_last i tail : slot i -> RO_INC i = tail -> steps i tail = 1.
Proof. unfold slot, steps, RO_INC, RO_ADD. intros. destruct (Z.eqb_spec i tail); dlia. Qed.
Lemma steps_next i tail :
  slot i -> slot tail -> RO_INC i <> tail -> steps (RO_INC i) tail = steps i tail - 1.
Proof.
  unfold slot, steps. intros Hi Ht Hne. destruct (Z.eqb_spec (RO_INC i) tail); [done|].
  unfold RO_INC, RO_ADD in *. destruct (Z.eqb_spec i tail); dlia.
Qed.

Lemma ring_shift_steps fuel : forall ks tail i empty offset,
  slot i -> slot tail -> 0 <= offset -> offset + Z.of_nat fuel < 256 ->
  (ring_shift fuel ks tail i empty offset).2 <= offset + steps i tail.
Proof.
  induction fuel as [|fuel IH]; intros ks tail i empty offset Hi Ht Ho Hf; cbn [ring_shift].
  - cbn. unfold steps. destruct (_ =? _); [lia|]. dlia.
  - pose proof (ro_inc_slot i Hi). destruct (negb _).
    + destruct (Z.eqb_spec (RO_INC i) tail) as [He|Hne].
      * rewrite (steps_last i tail) by done. cbn. lia.
      * etrans; [apply IH; done || lia|]. rewrite steps_next by done. lia.
    + rewrite (wrap_small 8) by lia. destruct (Z.eqb_spec (RO_INC i) tail) as [He|Hne].
      * rewrite (steps_last i tail) by done. cbn. lia.
      * etrans; [apply IH; done || lia|]. rewrite steps_next by done. lia.
Qed.

Lemma ring_shift_steps_nonzero fuel ks tail i empty offset :
  slot i -> slot tail -> 0 <= offset -> offset + Z.of_nat fuel < 256 -> at_ ks i <> 0 ->
  (ring_shift (S fuel) ks tail i empty offset).2 <= offset + steps i tail - 1.
Proof.
  intros Hi Ht Ho Hf Hnz. cbn [ring_shift]. rewrite (proj2 (Z.eqb_neq _ _) Hnz). cbn [negb].
  pose proof (ro_inc_slot i Hi).
  destruct (Z.eqb_spec (RO_INC i) tail) as [He|Hne].
  - rewrite (steps_last i tail) by done. cbn. lia.
  - etrans; [apply ring_shift_steps; done || lia|]. rewrite steps_next by done. lia.
Qed.

(** The first slot found empty is the head's, or the head is not empty. *)
Lemma ring_scan_head fuel ks tail code i e :
  ring_scan (S fuel) ks tail code i (-1) = Some e -> slot i ->
  e = i \/ at_ ks i <> 0.
Proof.
  cbn [ring_scan]. destruct (_ =? code); [done|]. cbn [Z.eqb Pos.eqb andb].
  destruct (Z.eqb_spec (at_ ks i) 0); [|by right]. intros H Hi. left. unfold slot in Hi.
  assert (forall fuel j, ring_scan fuel ks tail code j i = Some e -> e = i) as Hkeep.
  { clear H. induction fuel0 as [|n IH]; intros j Hj; cbn [ring_scan] in Hj; [congruence|].
    destruct (_ =? code); [done|]. destruct (Z.eqb_spec i (-1)); [lia|]. cbn [andb] in Hj.
    destruct (_ =? tail); [congruence|]. by eapply IH. }
  destruct (_ =? tail); [congruence|]. by eapply Hkeep.
Qed.

Lemma ring_scan_slot fuel : forall ks tail code i empty e,
  ring_scan fuel ks tail code i empty = Some e -> slot i -> empty = -1 \/ slot empty ->
  e = -1 \/ slot e.
Proof.
  induction fuel as [|fuel IH]; intros ks tail code i empty e H Hi He;
    cbn [ring_scan] in H; [congruence|].
  destruct (_ =? code); [done|].
  assert (forall b : bool, (if b then i else empty) = -1 \/ slot (if b then i else empty)) as Hb
    by (intros []; tauto).
  destruct (_ =? tail); [injection H as <-; apply Hb|].
  eapply IH; [exact H|by apply ro_inc_slot|apply Hb].
Qed.

Lemma ring_make_room_ok r code e :
  ring_ok r ->
  ring_scan 6 (keys (keyboard_report r)) (cb_tail r) code (cb_head r) (-1) = Some e ->
  ring_ok (ring_make_room r e).
Proof.
  intros (Hl & Hh & Ht) Hs. unfold ring_make_room.
  destruct (Z.eqb_spec (cb_tail r) (cb_head r)) as [Hth|]; [|done].
  destruct (Z.eqb_spec e (-1)).
  - split; [done|]. split; [by apply ro_inc_slot|done].
  - assert (slot e) as Hes.
    { destruct (ring_scan_slot _ _ _ _ _ _ _ Hs Hh) as [?|?]; [by left|done|done]. }
    assert (cb_head r <> RO_INC (cb_head r)) as Hnext
      by (unfold slot, RO_INC, RO_ADD in *; dlia).
    assert ((ring_shift 6 (keys (keyboard_report r)) (cb_tail r) (RO_INC e) e 1).2 <= 6) as Hoff.
    { pose proof (ro_inc_slot e Hes) as Hei.
      destruct (Z.eqb_spec (RO_INC e) (cb_tail r)) as [Hlast|Hne].
      - destruct (ring_scan_head _ _ _ _ _ _ Hs Hh) as [->|Hnz]; [congruence|].
        rewrite Hlast. etrans; [apply ring_shift_steps_nonzero; [done|done|lia|lia|by rewrite Hth]|].
        unfold steps. by rewrite Z.eqb_refl.
      - etrans; [apply ring_shift_steps; [done|done|lia|lia]|].
        unfold steps. destruct (Z.eqb_spec (RO_INC e) (cb_tail r)); [done|].
        unfold slot in *. dlia. }
    destruct (ring_shift _ _ _ _ _ _) as [ks' off] eqn:Hsh.
    pose proof (ring_shift_ok 6 _ _ _ _ _ _ _ Hsh ltac:(lia) ltac:(lia)) as [Hl' Ho'].
    cbn in Hoff. split; [cbn; by rewrite Hl'|]. split; [done|]. apply ro_sub_slot; [done|lia].
Qed.

Lemma ring_trim_slot fuel : forall ks head tail, slot tail -> slot (ring_trim fuel ks head tail).
Proof.
  induction fuel as [|fuel IH]; intros ks head tail Ht; cbn [ring_trim]; [done|].
  pose proof (ro_dec_slot tail Ht). destruct (negb _); [done|].
  destruct (_ =? _); [done|]. by apply IH.
Qed.

Lemma ring_remove_ok i r : ring_ok r -> ring_ok (ring_remove i r).
Proof.
  intros (Hl & Hh & Ht). unfold ring_remove.
  set (r1 := set_keys _ _). assert (ring_ok r1) as Hr1.
  { split; [|split; [done|done]]. cbn. unfold put. by rewrite length_insert. }
  clearbody r1. destruct Hr1 as (Hl1 & Hh1 & Ht1).
  assert (forall r2, ring_ok r2 -> ring_ok (if i =? RO_DEC (cb_tail r2)
    then r2 <| cb_tail := ring_trim 6 (keys (keyboard_report r2)) (cb_head r2) (cb_tail r2) |>
    else r2)) as Htrim.
  { intros r2 (Hl2 & Hh2 & Ht2). destruct (i =? _); [|done].
    split; [done|]. split; [done|]. by apply ring_trim_slot. }
  cbv zeta. apply Htrim. by destruct (_ =? 0).
Qed.

Lemma ring_add_ok code r :
  ring_ok r -> ring_ok (ring_add code r) /\
    (code <> 0 -> code ∈ keys (keyboard_report (ring_add code r))).
Proof.
  intros Hr. unfold ring_add.
  destruct (nz _); [|split; [|intros _]; by apply ring_push_spec].
  destruct (ring_scan _ _ _ _ _ _) as [e|] eqn:Hs.
  - split; [|intros _]; apply ring_push_spec; by eapply ring_make_room_ok.
  - split; [done|]. intros Hc. by eapply ring_scan_found.
Qed.

Lemma ring_del_ok code r : ring_ok r -> ring_ok (ring_del code r).
Proof.
  intros Hr. unfold ring_del. destruct (nz _); [|done].
  destruct (ring_find _ _ _ _ _); [by apply ring_remove_ok|done].
Qed.

Lemma ring_clear_ok r : ring_ok r -> ring_ok (clear_keys_from_report false r).
Proof. intros (Hl & Hh & Ht). split; [|done]. cbn. by rewrite length_replicate. Qed.

Lemma ring_del_nkro code r : nkro_report (ring_del code r) = nkro_report r.
Proof.
  unfold ring_del, ring_remove. destruct (nz _); [|done].
  destruct (ring_find _ _ _ _ _) as [i|]; [|done].
  cbv zeta. set (r1 := set_keys _ _). assert (nkro_report r1 = nkro_report r) as <- by done.
  clearbody r1. by destruct (cb_count r1 =? 0); cbn [cb_tail]; destruct (i =? _).
Qed.

(** Both reports are well formed, whatever the variant and the protocol. *)
Definition reports_ok r : Prop := ring_ok r /\ nkro_ok r.

Lemma add_key_slot_length ks code : length (add_key_slot ks code) = length ks.
Proof.
  destruct (add_key_slot_spec ks code) as [[_ ->]|(_ & n & _ & ->)]; [done|]. apply length_insert.
Qed.

Lemma add_key_reports_ok ring nkro code r :
  reports_ok r -> reports_ok (add_key_to_report ring nkro code r).
Proof.
  intros [Hr Hn]. destruct nkro; cbn [add_key_to_report].
  - split; [|by apply update_bit_ok]. unfold add_key_bit, update_bit. by case_match.
  - destruct ring; cbn [add_key_byte].
    + split; [by apply ring_add_ok|]. unfold ring_add.
      unfold ring_make_room. repeat case_match; done.
    + destruct Hr as [Hl Hr]. split; [|done]. split; [|done]. cbn. by rewrite add_key_slot_length.
Qed.

Lemma del_key_reports_ok ring nkro code r :
  reports_ok r -> reports_ok (del_key_from_report ring nkro code r).
Proof.
  intros [Hr Hn]. destruct nkro; cbn [del_key_from_report].
  - split; [|by apply update_bit_ok]. unfold del_key_bit, update_bit. by case_match.
  - destruct ring; cbn [del_key_byte].
    + split; [by apply ring_del_ok|]. unfold nkro_ok. by rewrite ring_del_nkro.
    + destruct Hr as [Hl Hr]. split; [|done]. split; [|done]. cbn. unfold del_key_slot.
      by rewrite length_fmap.
Qed.

Lemma clear_keys_reports_ok nkro r :
  reports_ok r -> reports_ok (clear_keys_from_report nkro r).
Proof.
  intros [Hr [Hl Hb]]. destruct nkro; cbn [clear_keys_from_report].
  - split; [done|]. split; cbn; [by rewrite length_replicate|]. by apply Forall_replicate.
  - split; [by apply ring_clear_ok|done].
Qed.

(** In the ring buffered report the indices never leave the six slots,
    whatever keys come and go, and a key just added is reported. *)
Theorem ring_report_bounds code r :
  ring_ok r -> code <> 0 ->
  ring_ok (add_key_to_report true false code r) /\
  ring_ok (del_key_from_report true false code r) /\
  ring_ok (clear_keys_from_report false r) /\
  is_key_pressed false code (add_key_to_report true false code r) = true.
Proof.
  intros Hr Hc. cbn [add_key_to_report del_key_from_report add_key_byte del_key_byte].
  destruct (ring_add_ok code r Hr) as [Hadd Hin].
  split; [done|]. split; [by apply ring_del_ok|]. split; [by apply ring_clear_ok|].
  apply pressed_6kro. auto.
Qed.
End ring.

Lemma ring_report_bounds_witness : ring_ok (add_key_to_report true false 4 reports_init).
Proof. apply (ring_report_bounds 4 reports_init); done. Defined.

(** Pressing a key and clearing the report, [n] times. *)
Definition press_and_clear (n : nat) : reports :=
  Nat.iter n (fun r => clear_keys_from_report false (add_key_to_report true false 4 r)) reports_init.

(** Clearing the keys resets the slots but not [cb_count]: after 255 keys
    were held while the report was cleared, the 8-bit counter is off by one
    turn, and a key pressed then stays in the report when it is released. *)
Theorem ring_count_leak_sticks_key :
  let r := add_key_to_report true false 5 (press_and_clear 255) in
  is_key_pressed false 5 r = true /\
  is_key_pressed false 5 (del_key_from_report true false 5 r) = true.
Proof. vm_compute. done. Qed.

(** [get_first_key] in NKRO mode names a pressed key whenever one is
    pressed; on an empty report it reads past the 30 bytes of bits. *)
Theorem get_first_key_nkro r :
  nkro_ok r ->
  (if forallb (fun b => b =? 0) (bits (nkro_report r)) then get_first_key false true r = None
   else exists key, get_first_key false true r = Some key /\ 0 <= key < 240 /\
     nkro_bit (bits (nkro_report r)) key = true).
Proof.
  intros [Hl Hb]. cbn [get_first_key]. unfold first_nkro_key.
  assert (forall bs i, 0 <= i ->
    if forallb (fun b => b =? 0) bs then first_nonzero bs i = i + Z.of_nat (length bs)
    else exists n b, first_nonzero bs i = i + Z.of_nat n /\ bs !! n = Some b /\ b <> 0) as Hfirst.
  { induction bs as [|b bs IH]; intros i Hi; cbn [forallb first_nonzero length]; [lia|].
    destruct (Z.eqb_spec b 0) as [->|Hbn]; cbn [andb].
    - specialize (IH (i + 1) ltac:(lia)). destruct (forallb _ bs); [lia|].
      destruct IH as (n & b & -> & Hn & Hbn). exists (S n), b. split; [lia|done].
    - exists 0%nat, b. split; [lia|done]. }
  specialize (Hfirst (bits (nkro_report r)) 0 ltac:(lia)). rewrite Z.add_0_l in Hfirst.
  destruct (forallb _ _).
  - rewrite Hfirst, Nat2Z.id. by rewrite (proj2 (lookup_ge_None _ _)).
  - destruct Hfirst as (n & b & -> & Hn & Hbn). rewrite Z.add_0_l, Nat2Z.id, Hn. cbn.
    pose proof (lookup_lt_Some _ _ _ Hn) as Hlt. rewrite Hl in Hlt. unfold NKRO_REPORT_BITS in Hlt.
    assert (is_byte b) as Hbyte by (by eapply Forall_lookup_1). unfold is_byte in Hbyte.
    assert (biton b = Z.log2 b) as -> by (by apply biton_small).
    pose proof (Z.log2_nonneg b). assert (Z.log2 b < 8) by (apply Z.log2_lt_pow2; lia).
    rewrite Z.shiftl_mul_pow2, (lor_add 3) by dlia. rewrite wrap_small by lia.
    eexists. split; [done|]. split; [lia|]. unfold nkro_bit.
    replace ((Z.of_nat n * 2 ^ 3 + Z.log2 b) / 8) with (Z.of_nat n) by dlia.
    replace ((Z.of_nat n * 2 ^ 3 + Z.log2 b) mod 8) with (Z.log2 b) by dlia.
    unfold at_. rewrite Nat2Z.id, Hn. apply Z.bit_log2. lia.
Qed.

(** ** The theorems at concrete reports *)

Lemma nkro_ok_init : nkro_ok reports_init.
Proof. split; [done|]. apply Forall_replicate. by split. Qed.

Lemma report_is_key_set_witness :
  is_key_pressed false 7 (add_key_to_report false false 7 reports_init) = true /\
  is_key_pressed true 7 (add_key_to_report false true 9 reports_init) = false.
Proof.
  split.
  - destruct (report_is_key_set false reports_init 7 7) as (Hadd & _); [apply nkro_ok_init|done|done|].
    rewrite Hadd; [done|]. intros _. left. left.
  - destruct (report_is_key_set true reports_init 9 7) as (Hadd & _); [apply nkro_ok_init|done|done|].
    by rewrite Hadd.
Defined.

Lemma report_invariant_witness :
  let r := set_keys [4; 5; 6; 7; 8; 9] reports_init in
  add_key_to_report false false 10 r = r.
Proof.
  intros r. destruct (report_invariant false 10 r) as (_ & _ & _ & Hfull).
  - split; [|split; [done|apply nkro_ok_init]].
    intros i j k Hi Hj _. eapply (NoDup_lookup [4; 5; 6; 7; 8; 9]); [|exact Hi|exact Hj].
    by apply (bool_decide_unpack _).
  - apply Hfull. intros Hroom. destruct (Hroom eq_refl) as [H|H]; revert H;
      apply (bool_decide_unpack (~ _)); reflexivity.
Defined.

Lemma get_first_key_nkro_witness : get_first_key false true reports_init = None.
Proof. exact (get_first_key_nkro reports_init nkro_ok_init). Defined.
