(* ===== verification/State.v ===== *)
(** * The state of the keyboard core (quantum/action*.c, tmk_core/protocol/host.c)

    The static and global variables of the modelled files, grouped in one
    record per file, the compile-time configuration, the weak functions and
    tables a keyboard or keymap supplies, and the calls that leave the
    modelled code ([output]). *)

From S2P Require Import Prelude.
From S2P Require Import Keycodes.
From S2P Require Import Report.

(** ** Events and records (quantum/keyboard.h, quantum/action.h) *)

Record keypos_t := { col : Z; row : Z }.

Inductive keyevent_type_t :=
  | TICK_EVENT | KEY_EVENT | ENCODER_CW_EVENT | ENCODER_CCW_EVENT | COMBO_EVENT
  | DIP_SWITCH_ON_EVENT | DIP_SWITCH_OFF_EVENT.

Record keyevent_t := {
  key : keypos_t;
  time : Z;
  type : keyevent_type_t;
  pressed : bool;
}.

Record tap_t := { interrupted : bool; count : Z }.

(** The member [keycode] exists with COMBO_ENABLE or REPEAT_KEY_ENABLE. *)
Record keyrecord_t := {
  event : keyevent_t;
  tap : tap_t;
  keycode : Z;
}.

#[global] Instance keypos_eq_dec : EqDecision keypos_t.
Proof. solve_decision. Defined.
#[global] Instance keyevent_type_eq_dec : EqDecision keyevent_type_t.
Proof. solve_decision. Defined.
#[global] Instance keyevent_eq_dec : EqDecision keyevent_t.
Proof. solve_decision. Defined.
#[global] Instance tap_eq_dec : EqDecision tap_t.
Proof. solve_decision. Defined.
#[global] Instance keyrecord_eq_dec : EqDecision keyrecord_t.
Proof. solve_decision. Defined.

Definition KEYEQ (a b : keypos_t) : bool := (row a =? row b) && (col a =? col b).
Definition IS_NOEVENT (e : keyevent_t) : bool := bool_decide (type e = TICK_EVENT).
Definition IS_EVENT (e : keyevent_t) : bool := bool_decide (type e <> TICK_EVENT).
Definition IS_KEYEVENT (e : keyevent_t) : bool := bool_decide (type e = KEY_EVENT).
Definition IS_ENCODEREVENT (e : keyevent_t) : bool :=
  bool_decide (type e = ENCODER_CW_EVENT) || bool_decide (type e = ENCODER_CCW_EVENT).

Definition KEYLOC_ENCODER_CW : Z := 253.
Definition KEYLOC_ENCODER_CCW : Z := 252.
Definition KEYLOC_DIP_SWITCH_ON : Z := 251.
Definition KEYLOC_DIP_SWITCH_OFF : Z := 250.

(** [(keyrecord_t){0}] *)
Definition record_0 : keyrecord_t := {|
  event := {| key := {| col := 0; row := 0 |}; time := 0; type := TICK_EVENT; pressed := false |};
  tap := {| interrupted := false; count := 0 |};
  keycode := 0;
|}.

(** [keymap_config_t] (quantum/keycode_config.h) *)
Record keymap_config_t := {
  swap_control_capslock : bool; capslock_to_control : bool;
  swap_lalt_lgui : bool; swap_ralt_rgui : bool; no_gui : bool;
  swap_grave_esc : bool; swap_backslash_backspace : bool; nkro : bool;
  swap_lctl_lgui : bool; swap_rctl_rgui : bool; oneshot_enable : bool;
  swap_escape_capslock : bool; autocorrect_enable : bool;
}.

(** ** The variables *)

(** action_util.c *)
Record mods_state := {
  real_mods : Z;
  weak_mods : Z;
  weak_override_mods : Z;
  suppressed_mods : Z;
  oneshot_mods : Z;
  oneshot_locked_mods : Z;
  oneshot_time : Z;
  last_report : report_keyboard_t;
  last_nkro_report : report_nkro_t;
}.

(** action_layer.c, and the one-shot layer of action_util.c *)
Record layers_state := {
  default_layer_state : Z;
  layer_state : Z;
  source_layers_cache : list (list Z);
  encoder_source_layers_cache : list (list Z);
  disable_action_cache : bool;
  oneshot_layer_data : Z;
  oneshot_layer_time : Z;
}.

Inductive swap_hands_oneshot_t := SHO_OFF | SHO_ACTIVE | SHO_PRESSED | SHO_USED.

#[global] Instance swap_hands_oneshot_eq_dec : EqDecision swap_hands_oneshot_t.
Proof. solve_decision. Defined.

(** action.c, and the one-shot swap hands of action_util.c *)
Record hands_state := {
  swap_hands : bool;
  swap_held : bool;
  swap_hands_oneshot : swap_hands_oneshot_t;
  oneshot_swaphands_time : Z;
  matrix_swap_state : list Z;
  encoder_swap_state : list Z;
  retro_tapping_counter : Z;
  tp_buttons : Z;
}.

(** action_tapping.c; [param_record] is the parameter of
    [action_tapping_process], whose address it passes on. *)
Record tapping_state := {
  param_record : keyrecord_t;
  tapping_key : keyrecord_t;
  waiting_buffer : list keyrecord_t;
  waiting_buffer_head : Z;
  waiting_buffer_tail : Z;
  registered_taps : list keypos_t;
  num_registered_taps : Z;
}.

(** What the modelled code asks of the rest: reports to the host driver, the
    change callbacks of one-shot keys, and calls into other subsystems.
    [OutsideArray] is no call: it records that the code writes to an array at
    an index it does not have, into the memory next to it ([at_array]). *)
Inductive output :=
  | SendKeyboard (report : report_keyboard_t)
  | SendNkro (report : report_nkro_t)
  | SendExtra (report_id usage : Z)
  | OneshotModsChanged (mods : Z)
  | OneshotLockedModsChanged (mods : Z)
  | OneshotLayerChanged (layer : Z)
  | MousekeyOn (code : Z)
  | MousekeyOff (code : Z)
  | MousekeySend
  | MousekeyClear
  | PointingDeviceKeycode (code : Z) (pressed : bool)
  | ProgrammableButtonClear
  | LedSet (leds : Z)
  | WaitMs (ms : Z)
  | EeconfigUpdateKeymap (config : keymap_config_t)
  | OutsideArray (index size : Z).

(** host.c: whether a driver is set, the LED state it reports, the last
    usages; [sent] is the trace of outputs, latest last. *)
Record host_state := {
  driver : bool;
  keyboard_leds : Z;
  last_system_usage : Z;
  last_consumer_usage : Z;
  sent : list output;
}.

Record keyboard := {
  rep : reports;
  mods : mods_state;
  layers : layers_state;
  hands : hands_state;
  tapping : tapping_state;
  host : host_state;
  keymap_config : keymap_config_t;
  keyboard_protocol : bool;
  now : Z;
}.

(** ** Configuration *)

Class Config := {
  NKRO_ENABLE : bool;
  RING_BUFFERED_6KRO_REPORT_ENABLE : bool;
  KEYBOARD_SHARED_EP : bool;
  EXTRAKEY_ENABLE : bool;
  MOUSEKEY_ENABLE : bool;
  POINTING_DEVICE_ENABLE : bool;
  PS2_MOUSE_ENABLE : bool;
  PROGRAMMABLE_BUTTON_ENABLE : bool;
  SWAP_HANDS_ENABLE : bool;
  ENCODER_MAP_ENABLE : bool;
  DIP_SWITCH_MAP_ENABLE : bool;
  KEY_OVERRIDE_ENABLE : bool;
  LOCKING_SUPPORT_ENABLE : bool;
  LOCKING_RESYNC_ENABLE : bool;
  STRICT_LAYER_RELEASE : bool;
  SEMI_STRICT_LAYER_RELEASE : bool;
  KEYCODE_IN_RECORD : bool;            (* COMBO_ENABLE or REPEAT_KEY_ENABLE *)
  COMBO_ENABLE : bool;
  LEGACY_MAGIC_HANDLING : bool;
  RETRO_TAPPING : bool;
  RETRO_TAPPING_PER_KEY : bool;
  HOLD_ON_OTHER_KEY_PRESS : bool;
  HOLD_ON_OTHER_KEY_PRESS_PER_KEY : bool;
  PERMISSIVE_HOLD : bool;
  PERMISSIVE_HOLD_PER_KEY : bool;
  CHORDAL_HOLD : bool;
  DUMMY_MOD_NEUTRALIZER_KEYCODE : option Z;
  MODS_TO_NEUTRALIZE : list Z;
  ONESHOT_TIMEOUT : Z;                 (* 0: not defined *)
  ONESHOT_TAP_TOGGLE : Z;              (* 0 or 1: no toggle *)
  TAPPING_TOGGLE : Z;
  TAP_CODE_DELAY : Z;
  TAP_HOLD_CAPS_DELAY : Z;
  INT_BITS : Z;                        (* the width of int: 16 or 32 *)
  MATRIX_ROWS : Z;
  MATRIX_COLS : Z;
  NUM_ENCODERS : Z;
  NUM_DIP_SWITCHES : Z;
  LAYER_STATE_BITS : Z;                (* 8, 16 or 32 *)
  MAX_LAYER_BITS : Z;                  (* 3, 4 or 5 *)
  MAX_LAYER : Z;
}.

(** The weak functions that a keyboard or keymap may replace, and its tables. *)
Class Hooks := {
  keycode_at_keymap_location : Z -> Z -> Z -> Z;
  keycode_at_encodermap_location : Z -> Z -> bool -> Z;
  keycode_at_dip_switch_map_location : Z -> bool -> Z;
  hand_swap_config : Z -> Z -> keypos_t;
  encoder_hand_swap_config : Z -> Z;
  layer_state_set_kb : Z -> Z;
  default_layer_state_set_kb : Z -> Z;
  command_proc : Z -> bool;
  get_tapping_term : Z -> keyrecord_t -> Z;
  get_quick_tap_term : Z -> keyrecord_t -> Z;
  get_permissive_hold : Z -> keyrecord_t -> bool;
  get_hold_on_other_key_press : Z -> keyrecord_t -> bool;
  get_retro_tapping : Z -> keyrecord_t -> bool;
  get_chordal_hold : Z -> keyrecord_t -> Z -> keyrecord_t -> bool;
  pre_process_record_quantum : keyrecord_t -> stm keyboard (bool * keyrecord_t);
  process_record_quantum : keyrecord_t -> stm keyboard (bool * keyrecord_t);
  post_process_record_quantum : keyrecord_t -> stm keyboard keyrecord_t;
}.

(** ** Access to one part of the state *)

Definition upd_rep (f : reports -> reports) : stm keyboard unit :=
  modify (fun k => k <| rep := f (rep k) |>).
Definition upd_mods (f : mods_state -> mods_state) : stm keyboard unit :=
  modify (fun k => k <| mods := f (mods k) |>).
Definition upd_layers (f : layers_state -> layers_state) : stm keyboard unit :=
  modify (fun k => k <| layers := f (layers k) |>).
Definition upd_hands (f : hands_state -> hands_state) : stm keyboard unit :=
  modify (fun k => k <| hands := f (hands k) |>).
Definition upd_tapping (f : tapping_state -> tapping_state) : stm keyboard unit :=
  modify (fun k => k <| tapping := f (tapping k) |>).
Definition upd_host (f : host_state -> host_state) : stm keyboard unit :=
  modify (fun k => k <| host := f (host k) |>).
Definition upd_config (f : keymap_config_t -> keymap_config_t) : stm keyboard unit :=
  modify (fun k => k <| keymap_config := f (keymap_config k) |>).

Definition emit (o : output) : stm keyboard unit :=
  upd_host (fun h => h <| sent := sent h ++ [o] |>).

(** A write to [a[index]] that the source does not guard, of an array of [size]
    elements.  What a write outside destroys is not modelled: it shows in the
    trace, and the array keeps its value. *)
Definition at_array (index size : Z) : stm keyboard unit :=
  when (negb (within 0 (size - 1) index)) (emit (OutsideArray index size)).

(** [TIMER_DIFF_16(a, b)] (platforms/timer.h): the timer has 16 bits. *)
Definition TIMER_DIFF_16 (a b : Z) : Z := u16 (a - b).
(** [timer_expired(current, future)] (platforms/timer.h) *)
Definition timer_expired (current future : Z) : bool := u16 (current - future) <? 32767.
