(* ===== verification/Host.v ===== *)
(** * The host interface (tmk_core/protocol/host.c)

    Reports go to the driver, if there is one; system and consumer usages only
    when they change.  The builds modelled have no Bluetooth output and are
    not split. *)

From S2P Require Import Prelude.
From S2P Require Import Keycodes.
From S2P Require Import Report.
From S2P Require Import State.

Section host.
Context `{!Config}.

Definition host_keyboard_leds : stm keyboard Z :=
  h ← gets host; mret (if driver h then keyboard_leds h else 0).

(** The report is passed by reference: the result is what it becomes. *)
Definition host_keyboard_send (report : report_keyboard_t) : stm keyboard report_keyboard_t :=
  h ← gets host;
  if negb (driver h) then mret report else
  let report := if KEYBOARD_SHARED_EP then report <| kb_report_id := REPORT_ID_KEYBOARD |>
                else report in
  emit (SendKeyboard report);;
  mret report.

Definition host_nkro_send (report : report_nkro_t) : stm keyboard report_nkro_t :=
  h ← gets host;
  if negb (driver h) then mret report else
  let report := report <| nkro_report_id := REPORT_ID_NKRO |> in
  emit (SendNkro report);;
  mret report.

Definition host_system_send (usage : Z) : stm keyboard unit :=
  h ← gets host;
  if usage =? last_system_usage h then skip else
  upd_host (fun h => h <| last_system_usage := usage |>);;
  if negb (driver h) then skip else
  emit (SendExtra REPORT_ID_SYSTEM usage).

Definition host_consumer_send (usage : Z) : stm keyboard unit :=
  h ← gets host;
  if usage =? last_consumer_usage h then skip else
  upd_host (fun h => h <| last_consumer_usage := usage |>);;
  if negb (driver h) then skip else
  emit (SendExtra REPORT_ID_CONSUMER usage).

(** [host_mouse_send]: the boot protocol coordinates are clipped. *)
Definition clip_boot (v : Z) : Z := if 127 <? v then 127 else if v <? -127 then -127 else v.
Definition mouse_boot_copy (report : report_mouse_t) : report_mouse_t :=
  report <| boot_x := clip_boot (mouse_x report) |> <| boot_y := clip_boot (mouse_y report) |>.
End host.
