(* ===== verification/ActionUtil.v ===== *)
(** * Modifiers and report sending (quantum/action_util.c)

    Real, weak and one-shot modifiers, the modifiers a report carries, and the
    sending of a report when it differs from the last one sent; with the
    clearing functions of quantum/action.c that are built on them. *)

From S2P Require Import Prelude.
From S2P Require Import Bitwise.
From S2P Require Import Keycodes.
From S2P Require Import Report.
From S2P Require Import State.
From S2P Require Import Host.

Section util.
Context `{!Config}.
Abbreviation M := (stm keyboard).

(** [keyboard_protocol && keymap_config.nkro], compiled in with NKRO_ENABLE. *)
Definition nkro_active (k : keyboard) : bool :=
  NKRO_ENABLE && keyboard_protocol k && nkro (keymap_config k).

(** ** Keys *)

Definition add_key (key : Z) : M unit :=
  n ← gets nkro_active; upd_rep (add_key_to_report RING_BUFFERED_6KRO_REPORT_ENABLE n key).
Definition del_key (key : Z) : M unit :=
  n ← gets nkro_active; upd_rep (del_key_from_report RING_BUFFERED_6KRO_REPORT_ENABLE n key).
Definition clear_keys : M unit :=
  n ← gets nkro_active; upd_rep (clear_keys_from_report n).
Definition key_pressed (key : Z) (k : keyboard) : bool :=
  is_key_pressed (nkro_active k) key (rep k).
Definition any_key (k : keyboard) : Z := has_anykey (nkro_active k) (rep k).

(** ** Locked one-shot modifiers *)

Definition get_oneshot_locked_mods : M Z := gets (fun k => oneshot_locked_mods (mods k)).

Definition change_locked_mods (m : Z) : M unit :=
  upd_mods (fun s => s <| oneshot_locked_mods := m |>);;
  emit (OneshotLockedModsChanged m).

Definition add_oneshot_locked_mods (m : Z) : M unit :=
  l ← get_oneshot_locked_mods;
  when (negb (Z.land l m =? m)) (change_locked_mods (Z.lor l m)).
Definition set_oneshot_locked_mods (m : Z) : M unit :=
  l ← get_oneshot_locked_mods; when (negb (m =? l)) (change_locked_mods m).
Definition clear_oneshot_locked_mods : M unit :=
  l ← get_oneshot_locked_mods; when (nz l) (change_locked_mods 0).
Definition del_oneshot_locked_mods (m : Z) : M unit :=
  l ← get_oneshot_locked_mods; when (nz (Z.land l m)) (change_locked_mods (clear_bits l m)).

(** ** One-shot modifiers *)

Definition has_oneshot_mods_timed_out (k : keyboard) : bool :=
  (0 <? ONESHOT_TIMEOUT) && (ONESHOT_TIMEOUT <=? TIMER_DIFF_16 (now k) (oneshot_time (mods k))).

(** [oneshot_time = t], a variable that exists with ONESHOT_TIMEOUT. *)
Definition set_oneshot_time (t : keyboard -> Z) : M unit :=
  when (0 <? ONESHOT_TIMEOUT)
    (t ← gets t; upd_mods (fun s => s <| oneshot_time := u16 t |>)).

Definition get_oneshot_mods : M Z := gets (fun k => oneshot_mods (mods k)).
Definition put_oneshot_mods (m : Z) : M unit :=
  upd_mods (fun s => s <| oneshot_mods := m |>).

Definition add_oneshot_mods (m : Z) : M unit :=
  o ← get_oneshot_mods;
  when (negb (Z.land o m =? m)) (
    set_oneshot_time now;;
    put_oneshot_mods (Z.lor o m);;
    emit (OneshotModsChanged m)).

Definition del_oneshot_mods (m : Z) : M unit :=
  o ← get_oneshot_mods;
  when (nz (Z.land o m)) (
    put_oneshot_mods (clear_bits o m);;
    set_oneshot_time (fun k => if nz (clear_bits o m) then now k else 0);;
    emit (OneshotModsChanged (clear_bits o m))).

Definition set_oneshot_mods (m : Z) : M unit :=
  c ← gets keymap_config;
  when (oneshot_enable c) (
    o ← get_oneshot_mods;
    when (negb (o =? m)) (
      set_oneshot_time now;;
      put_oneshot_mods m;;
      emit (OneshotModsChanged m))).

Definition clear_oneshot_mods : M unit :=
  o ← get_oneshot_mods;
  when (nz o) (
    put_oneshot_mods 0;;
    set_oneshot_time (fun _ => 0);;
    emit (OneshotModsChanged 0)).

(** ** Real, weak and override modifiers *)

Definition get_mods : M Z := gets (fun k => real_mods (mods k)).
Definition set_mods (m : Z) : M unit := upd_mods (fun s => s <| real_mods := m |>).
Definition add_mods (m : Z) : M unit :=
  upd_mods (fun s => s <| real_mods := Z.lor (real_mods s) m |>).
Definition del_mods (m : Z) : M unit :=
  upd_mods (fun s => s <| real_mods := clear_bits (real_mods s) m |>).
Definition clear_mods : M unit := set_mods 0.

Definition get_weak_mods : M Z := gets (fun k => weak_mods (mods k)).
Definition set_weak_mods (m : Z) : M unit := upd_mods (fun s => s <| weak_mods := m |>).
Definition add_weak_mods (m : Z) : M unit :=
  upd_mods (fun s => s <| weak_mods := Z.lor (weak_mods s) m |>).
Definition del_weak_mods (m : Z) : M unit :=
  upd_mods (fun s => s <| weak_mods := clear_bits (weak_mods s) m |>).
Definition clear_weak_mods : M unit := set_weak_mods 0.

Definition set_weak_override_mods (m : Z) : M unit :=
  upd_mods (fun s => s <| weak_override_mods := m |>).
Definition clear_weak_override_mods : M unit := set_weak_override_mods 0.
Definition set_suppressed_override_mods (m : Z) : M unit :=
  upd_mods (fun s => s <| suppressed_mods := m |>).
Definition clear_suppressed_override_mods : M unit := set_suppressed_override_mods 0.

Definition has_anymod : M Z := m ← get_mods; mret (bitpop m).

(** ** Sending a report *)

Definition get_mods_for_report : M Z :=
  real ← get_mods;
  weak ← get_weak_mods;
  o ← get_oneshot_mods;
  m ← (if nz o then
         timed_out ← gets has_oneshot_mods_timed_out;
         when timed_out clear_oneshot_mods;;
         o ← get_oneshot_mods;
         any ← gets any_key;
         when (nz any) clear_oneshot_mods;;
         mret (Z.lor (Z.lor real weak) o)
       else mret (Z.lor real weak));
  s ← gets mods;
  mret (if KEY_OVERRIDE_ENABLE
        then Z.lor (clear_bits m (suppressed_mods s)) (weak_override_mods s) else m).

Definition put_keyboard_report (r : report_keyboard_t) : M unit :=
  upd_rep (fun s => s <| keyboard_report := r |>).
Definition put_nkro_report (r : report_nkro_t) : M unit :=
  upd_rep (fun s => s <| nkro_report := r |>).

Definition send_6kro_report : M unit :=
  m ← get_mods_for_report;
  upd_rep (fun s => s <| keyboard_report := (keyboard_report s) <| kb_mods := m |> |>);;
  r ← gets (fun k => keyboard_report (rep k));
  last ← gets (fun k => last_report (mods k));
  if decide (r = last) then skip else
  upd_mods (fun s => s <| last_report := r |>);;
  r ← host_keyboard_send r;
  put_keyboard_report r.

Definition send_nkro_report : M unit :=
  m ← get_mods_for_report;
  upd_rep (fun s => s <| nkro_report := (nkro_report s) <| nkro_mods := m |> |>);;
  r ← gets (fun k => nkro_report (rep k));
  last ← gets (fun k => last_nkro_report (mods k));
  if decide (r = last) then skip else
  upd_mods (fun s => s <| last_nkro_report := r |>);;
  r ← host_nkro_send r;
  put_nkro_report r.

Definition send_keyboard_report : M unit :=
  n ← gets nkro_active;
  if (n : bool) then send_nkro_report else send_6kro_report.

(** ** Clearing (quantum/action.c) *)

Definition clear_keyboard_but_mods_and_keys : M unit :=
  when EXTRAKEY_ENABLE (host_system_send 0;; host_consumer_send 0);;
  clear_weak_mods;;
  send_keyboard_report;;
  when MOUSEKEY_ENABLE (emit MousekeyClear;; emit MousekeySend);;
  when PROGRAMMABLE_BUTTON_ENABLE (emit ProgrammableButtonClear).

Definition clear_keyboard_but_mods : M unit :=
  clear_keys;;
  clear_keyboard_but_mods_and_keys.

Definition clear_keyboard : M unit :=
  clear_mods;;
  clear_keyboard_but_mods.
End util.
