(* ===== verification/ActionCode.v ===== *)
(** * Action codes (quantum/action_code.h)

    [action_t] is a union over 16 bits: an action is its [code], and the
    members of the structs are bit fields of it.  The [ACTION_...] macros build
    codes. *)

From S2P Require Import Prelude.
From S2P Require Import Keycodes.

Definition ACT_LMODS : Z := 0.
Definition ACT_RMODS : Z := 1.
Definition ACT_LMODS_TAP : Z := 2.
Definition ACT_RMODS_TAP : Z := 3.
Definition ACT_USAGE : Z := 4.
Definition ACT_MOUSEKEY : Z := 5.
Definition ACT_SWAP_HANDS : Z := 6.
Definition ACT_LAYER : Z := 8.
Definition ACT_LAYER_MODS : Z := 9.
Definition ACT_LAYER_TAP : Z := 10.
Definition ACT_LAYER_TAP_EXT : Z := 11.

(** ** The bit fields *)

Definition kind_id (action : Z) : Z := Z.land (Z.shiftr action 12) 0xf.
Definition key_code (action : Z) : Z := Z.land action 0xff.
Definition key_mods (action : Z) : Z := Z.land (Z.shiftr action 8) 0xf.
Definition layer_bitop_bits (action : Z) : Z := Z.land action 0xf.
Definition layer_bitop_xbit (action : Z) : bool := Z.testbit action 4.
Definition layer_bitop_part (action : Z) : Z := Z.land (Z.shiftr action 5) 7.
Definition layer_bitop_on (action : Z) : Z := Z.land (Z.shiftr action 8) 3.
Definition layer_bitop_op (action : Z) : Z := Z.land (Z.shiftr action 10) 3.
Definition layer_mods_mods (action : Z) : Z := Z.land action 0xff.
Definition layer_mods_layer (action : Z) : Z := Z.land (Z.shiftr action 8) 0xf.
Definition layer_tap_code (action : Z) : Z := Z.land action 0xff.
Definition layer_tap_val (action : Z) : Z := Z.land (Z.shiftr action 8) 0x1f.
Definition usage_code (action : Z) : Z := Z.land action 0x3ff.
Definition usage_page (action : Z) : Z := Z.land (Z.shiftr action 10) 3.
Definition swap_code (action : Z) : Z := Z.land action 0xff.

(** ** Building codes *)

Definition ACTION_NO : Z := 0.
Definition ACTION_TRANSPARENT : Z := 1.
(** The result is stored in the 16 bits of [action_t.code]. *)
Definition ACTION (kind param : Z) : Z := u16 (Z.lor (Z.shiftl kind 12) param).

Definition MODS_ONESHOT : Z := 0.
Definition MODS_TAP_TOGGLE : Z := 1.

Definition ACTION_KEY (key : Z) : Z := ACTION ACT_LMODS key.
Definition ACTION_MODS (mods : Z) : Z := ACTION ACT_LMODS (Z.shiftl (Z.land mods 0x1f) 8).
Definition ACTION_MODS_KEY (mods key : Z) : Z :=
  ACTION ACT_LMODS (Z.lor (Z.shiftl (Z.land mods 0x1f) 8) key).
Definition ACTION_MODS_TAP_KEY (mods key : Z) : Z :=
  ACTION ACT_LMODS_TAP (Z.lor (Z.shiftl (Z.land mods 0x1f) 8) key).
Definition ACTION_MODS_ONESHOT (mods : Z) : Z :=
  ACTION ACT_LMODS_TAP (Z.lor (Z.shiftl (Z.land mods 0x1f) 8) MODS_ONESHOT).

Definition PAGE_SYSTEM : Z := 0.
Definition PAGE_CONSUMER : Z := 1.
Definition ACTION_USAGE_SYSTEM (id : Z) : Z := ACTION ACT_USAGE (Z.lor (Z.shiftl PAGE_SYSTEM 10) id).
Definition ACTION_USAGE_CONSUMER (id : Z) : Z := ACTION ACT_USAGE (Z.lor (Z.shiftl PAGE_CONSUMER 10) id).
Definition ACTION_MOUSEKEY (key : Z) : Z := ACTION ACT_MOUSEKEY key.

Definition ON_PRESS : Z := 1.
Definition ON_RELEASE : Z := 2.
Definition ON_BOTH : Z := 3.

Definition OP_BIT_AND : Z := 0.
Definition OP_BIT_OR : Z := 1.
Definition OP_BIT_XOR : Z := 2.
Definition OP_BIT_SET : Z := 3.

Definition OP_TAP_TOGGLE : Z := 0xF0.
Definition OP_ON_OFF : Z := 0xF1.
Definition OP_OFF_ON : Z := 0xF2.
Definition OP_SET_CLEAR : Z := 0xF3.
Definition OP_ONESHOT : Z := 0xF4.

Definition ACTION_LAYER_BITOP (op part bits on : Z) : Z :=
  ACTION ACT_LAYER (Z.lor (Z.lor (Z.lor (Z.shiftl op 10) (Z.shiftl on 8)) (Z.shiftl part 5))
                          (Z.land bits 0x1f)).
Definition ACTION_LAYER_BIT_XOR (part bits on : Z) : Z := ACTION_LAYER_BITOP OP_BIT_XOR part bits on.
Definition ACTION_LAYER_BIT_SET (part bits on : Z) : Z := ACTION_LAYER_BITOP OP_BIT_SET part bits on.
Definition ACTION_DEFAULT_LAYER_BIT_SET (part bits : Z) : Z :=
  ACTION_LAYER_BITOP OP_BIT_SET part bits 0.
Definition ACTION_DEFAULT_LAYER_SET (layer : Z) : Z :=
  ACTION_DEFAULT_LAYER_BIT_SET (layer / 4) (Z.shiftl 1 (layer mod 4)).
Definition ACTION_LAYER_INVERT (layer on : Z) : Z :=
  ACTION_LAYER_BIT_XOR (layer / 4) (Z.shiftl 1 (layer mod 4)) on.
Definition ACTION_LAYER_TOGGLE (layer : Z) : Z := ACTION_LAYER_INVERT layer ON_RELEASE.
Definition ACTION_LAYER_SET (layer on : Z) : Z :=
  ACTION_LAYER_BIT_SET (layer / 4) (Z.shiftl 1 (layer mod 4)) on.
Definition ACTION_LAYER_GOTO (layer : Z) : Z := ACTION_LAYER_SET layer ON_PRESS.

Definition ACTION_LAYER_TAP (layer key : Z) : Z :=
  ACTION ACT_LAYER_TAP (Z.lor (Z.shiftl layer 8) key).
Definition ACTION_LAYER_TAP_KEY (layer key : Z) : Z := ACTION_LAYER_TAP layer key.
Definition ACTION_LAYER_ON_OFF (layer : Z) : Z := ACTION_LAYER_TAP layer OP_ON_OFF.
Definition ACTION_LAYER_MOMENTARY (layer : Z) : Z := ACTION_LAYER_ON_OFF layer.
Definition ACTION_LAYER_ONESHOT (layer : Z) : Z := ACTION_LAYER_TAP layer OP_ONESHOT.
Definition ACTION_LAYER_TAP_TOGGLE (layer : Z) : Z := ACTION_LAYER_TAP layer OP_TAP_TOGGLE.
Definition ACTION_LAYER_MODS (layer mods : Z) : Z :=
  ACTION ACT_LAYER_MODS (Z.lor (Z.shiftl layer 8) mods).

Definition OP_SH_TOGGLE : Z := 0xF0.
Definition OP_SH_TAP_TOGGLE : Z := 0xF1.
Definition OP_SH_ON_OFF : Z := 0xF2.
Definition OP_SH_OFF_ON : Z := 0xF3.
Definition OP_SH_OFF : Z := 0xF4.
Definition OP_SH_ON : Z := 0xF5.
Definition OP_SH_ONESHOT : Z := 0xF6.
