(* ===== verification/Keymap.v ===== *)
(** * From key to action (quantum/keymap_common.c, quantum/keycode_config.c)

    The keycode at a key of a layer, its remapping by the magic settings, and
    its translation to an action. *)

From S2P Require Import Prelude.
From S2P Require Import Keycodes.
From S2P Require Import Report.
From S2P Require Import State.
From S2P Require Import ActionCode.

Definition MOD_LCTL : Z := 0x01.
Definition MOD_LALT : Z := 0x04.
Definition MOD_LGUI : Z := 0x08.
Definition MOD_RCTL : Z := 0x11.
Definition MOD_RALT : Z := 0x14.
Definition MOD_RGUI : Z := 0x18.

Definition keycode_config (c : keymap_config_t) (keycode : Z) : Z :=
  let gui := if no_gui c then KC_NO else KC_LEFT_GUI in
  let rgui := if no_gui c then KC_NO else KC_RIGHT_GUI in
  if (keycode =? KC_CAPS_LOCK) || (keycode =? KC_LOCKING_CAPS_LOCK) then
    if swap_control_capslock c || capslock_to_control c then KC_LEFT_CTRL
    else if swap_escape_capslock c then KC_ESCAPE
    else keycode
  else if keycode =? KC_LEFT_CTRL then
    if swap_control_capslock c then KC_CAPS_LOCK
    else if swap_lctl_lgui c then gui
    else KC_LEFT_CTRL
  else if keycode =? KC_LEFT_ALT then
    if swap_lalt_lgui c then gui else KC_LEFT_ALT
  else if keycode =? KC_LEFT_GUI then
    if swap_lalt_lgui c then KC_LEFT_ALT
    else if swap_lctl_lgui c then KC_LEFT_CTRL
    else gui
  else if keycode =? KC_RIGHT_CTRL then
    if swap_rctl_rgui c then rgui else KC_RIGHT_CTRL
  else if keycode =? KC_RIGHT_ALT then
    if swap_ralt_rgui c then rgui else KC_RIGHT_ALT
  else if keycode =? KC_RIGHT_GUI then
    if swap_ralt_rgui c then KC_RIGHT_ALT
    else if swap_rctl_rgui c then KC_RIGHT_CTRL
    else rgui
  else if keycode =? KC_GRAVE then
    if swap_grave_esc c then KC_ESCAPE else KC_GRAVE
  else if keycode =? KC_ESCAPE then
    if swap_grave_esc c then KC_GRAVE
    else if swap_escape_capslock c then KC_CAPS_LOCK
    else KC_ESCAPE
  else if keycode =? KC_BACKSLASH then
    if swap_backslash_backspace c then KC_BACKSPACE else KC_BACKSLASH
  else if keycode =? KC_BACKSPACE then
    if swap_backslash_backspace c then KC_BACKSLASH else KC_BACKSPACE
  else keycode.

(** [if (((mod & am) == a) ^ ((mod & bm) == b)) mod ^= m;] when enabled. *)
Definition swap_mod (enabled : bool) (am a bm b m mod_ : Z) : Z :=
  if enabled && xorb (Z.land mod_ am =? a) (Z.land mod_ bm =? b) then Z.lxor mod_ m else mod_.

Definition mod_config (c : keymap_config_t) (mod_ : Z) : Z :=
  let alt_gui := Z.lor MOD_LALT MOD_LGUI in
  let ctl_gui := Z.lor MOD_LCTL MOD_LGUI in
  let mod_ := swap_mod (swap_lalt_lgui c) MOD_RALT MOD_LALT MOD_RGUI MOD_LGUI alt_gui mod_ in
  let mod_ := swap_mod (swap_ralt_rgui c) MOD_RALT MOD_RALT MOD_RGUI MOD_RGUI alt_gui mod_ in
  let mod_ := swap_mod (swap_lctl_lgui c) MOD_RCTL MOD_LCTL MOD_RGUI MOD_LGUI ctl_gui mod_ in
  let mod_ := swap_mod (swap_rctl_rgui c) MOD_RCTL MOD_RCTL MOD_RGUI MOD_RGUI ctl_gui mod_ in
  if no_gui c then clear_bits (clear_bits mod_ MOD_LGUI) MOD_RGUI else mod_.

Section keymap.
Context `{!Config} `{!Hooks}.

(** [keycode_config] of a basic keycode inside a composed one. *)
Definition config_basic (c : keymap_config_t) (keycode : Z) : Z :=
  if LEGACY_MAGIC_HANDLING then keycode else keycode_config c keycode.

Definition action_for_keycode (c : keymap_config_t) (keycode : Z) : Z :=
  let keycode := keycode_config c keycode in
  if IS_BASIC_KEYCODE keycode || IS_MODIFIER_KEYCODE keycode then ACTION_KEY keycode
  else if EXTRAKEY_ENABLE && IS_SYSTEM_KEYCODE keycode then
    ACTION_USAGE_SYSTEM (KEYCODE2SYSTEM keycode)
  else if EXTRAKEY_ENABLE && IS_CONSUMER_KEYCODE keycode then
    ACTION_USAGE_CONSUMER (KEYCODE2CONSUMER keycode)
  else if IS_MOUSE_KEYCODE keycode then ACTION_MOUSEKEY keycode
  else if keycode =? KC_TRANSPARENT then ACTION_TRANSPARENT
  else if within QK_MODS QK_MODS_MAX keycode then
    if LEGACY_MAGIC_HANDLING
    then ACTION_MODS_KEY (QK_MODS_GET_MODS keycode) (QK_MODS_GET_BASIC_KEYCODE keycode)
    else ACTION_MODS_KEY (mod_config c (QK_MODS_GET_MODS keycode))
           (keycode_config c (QK_MODS_GET_BASIC_KEYCODE keycode))
  else if within QK_LAYER_TAP QK_LAYER_TAP_MAX keycode then
    ACTION_LAYER_TAP_KEY (QK_LAYER_TAP_GET_LAYER keycode)
      (config_basic c (QK_LAYER_TAP_GET_TAP_KEYCODE keycode))
  else if within QK_TO QK_TO_MAX keycode then ACTION_LAYER_GOTO (QK_TO_GET_LAYER keycode)
  else if within QK_MOMENTARY QK_MOMENTARY_MAX keycode then
    ACTION_LAYER_MOMENTARY (QK_MOMENTARY_GET_LAYER keycode)
  else if within QK_DEF_LAYER QK_DEF_LAYER_MAX keycode then
    ACTION_DEFAULT_LAYER_SET (QK_DEF_LAYER_GET_LAYER keycode)
  else if within QK_TOGGLE_LAYER QK_TOGGLE_LAYER_MAX keycode then
    ACTION_LAYER_TOGGLE (QK_TOGGLE_LAYER_GET_LAYER keycode)
  else if within QK_ONE_SHOT_LAYER QK_ONE_SHOT_LAYER_MAX keycode then
    ACTION_LAYER_ONESHOT (QK_ONE_SHOT_LAYER_GET_LAYER keycode)
  else if within QK_ONE_SHOT_MOD QK_ONE_SHOT_MOD_MAX keycode then
    ACTION_MODS_ONESHOT (mod_config c (QK_ONE_SHOT_MOD_GET_MODS keycode))
  else if within QK_LAYER_TAP_TOGGLE QK_LAYER_TAP_TOGGLE_MAX keycode then
    ACTION_LAYER_TAP_TOGGLE (QK_LAYER_TAP_TOGGLE_GET_LAYER keycode)
  else if within QK_LAYER_MOD QK_LAYER_MOD_MAX keycode then
    let mod_ := mod_config c (QK_LAYER_MOD_GET_MODS keycode) in
    ACTION_LAYER_MODS (QK_LAYER_MOD_GET_LAYER keycode)
      (if nz (Z.land mod_ 0x10) then Z.shiftl mod_ 4 else mod_)
  else if within QK_MOD_TAP QK_MOD_TAP_MAX keycode then
    ACTION_MODS_TAP_KEY (mod_config c (QK_MOD_TAP_GET_MODS keycode))
      (config_basic c (QK_MOD_TAP_GET_TAP_KEYCODE keycode))
  else if SWAP_HANDS_ENABLE && within QK_SWAP_HANDS QK_SWAP_HANDS_MAX keycode then
    ACTION ACT_SWAP_HANDS (config_basic c (QK_SWAP_HANDS_GET_TAP_KEYCODE keycode))
  else ACTION_NO.

Definition keymap_key_to_keycode (layer : Z) (k : keypos_t) : Z :=
  if (row k <? MATRIX_ROWS) && (col k <? MATRIX_COLS) then
    keycode_at_keymap_location layer (row k) (col k)
  else if ENCODER_MAP_ENABLE && (row k =? KEYLOC_ENCODER_CW) && (col k <? NUM_ENCODERS) then
    keycode_at_encodermap_location layer (col k) true
  else if ENCODER_MAP_ENABLE && (row k =? KEYLOC_ENCODER_CCW) && (col k <? NUM_ENCODERS) then
    keycode_at_encodermap_location layer (col k) false
  else if DIP_SWITCH_MAP_ENABLE && (row k =? KEYLOC_DIP_SWITCH_ON) && (col k <? NUM_DIP_SWITCHES) then
    keycode_at_dip_switch_map_location (col k) true
  else if DIP_SWITCH_MAP_ENABLE && (row k =? KEYLOC_DIP_SWITCH_OFF) && (col k <? NUM_DIP_SWITCHES) then
    keycode_at_dip_switch_map_location (col k) false
  else KC_NO.

Definition action_for_key (layer : Z) (k : keypos_t) (c : keymap_config_t) : Z :=
  action_for_keycode c (keymap_key_to_keycode layer k).
End keymap.
