(* ===== verification/ActionLayer.v ===== *)
(** * Layers (quantum/action_layer.c)

    The default and current layer masks, the cache that remembers from which
    layer a key was pressed, and the action a key currently means. *)

From S2P Require Import Prelude.
From S2P Require Import Bitwise.
From S2P Require Import Keycodes.
From S2P Require Import Report.
From S2P Require Import State.
From S2P Require Import Host.
From S2P Require Import ActionUtil.
From S2P Require Import ActionCode.
From S2P Require Import Keymap.

Section layer.
Context `{!Config} `{!Hooks}.
Abbreviation M := (stm keyboard).

(** Conversion to [layer_state_t], and [(layer_state_t)1 << layer]. *)
Definition layer_word (z : Z) : Z := wrap LAYER_STATE_BITS z.
Definition layer_bit (layer : Z) : Z := layer_word (bit layer).
Definition get_highest_layer (state : Z) : Z :=
  if LAYER_STATE_BITS =? 8 then biton state
  else if LAYER_STATE_BITS =? 16 then biton16 state
  else biton32 state.

(** [clear_keyboard_but_mods] or [..._and_keys] after a layer change. *)
Definition layer_release : M unit :=
  if STRICT_LAYER_RELEASE then clear_keyboard_but_mods
  else when SEMI_STRICT_LAYER_RELEASE clear_keyboard_but_mods_and_keys.

Definition default_layer_state_set (state : Z) : M unit :=
  upd_layers (fun l => l <| default_layer_state := layer_word (default_layer_state_set_kb state) |>);;
  layer_release.

Definition layer_state_set (state : Z) : M unit :=
  upd_layers (fun l => l <| layer_state := layer_word (layer_state_set_kb state) |>);;
  layer_release.

Definition get_layer_state : M Z := gets (fun k => layer_state (layers k)).
Definition get_default_layer_state : M Z := gets (fun k => default_layer_state (layers k)).

Definition default_layer_set (state : Z) : M unit := default_layer_state_set state.
Definition default_layer_or (state : Z) : M unit :=
  d ← get_default_layer_state; default_layer_state_set (layer_word (Z.lor d state)).
Definition default_layer_and (state : Z) : M unit :=
  d ← get_default_layer_state; default_layer_state_set (layer_word (Z.land d state)).
Definition default_layer_xor (state : Z) : M unit :=
  d ← get_default_layer_state; default_layer_state_set (layer_word (Z.lxor d state)).

Definition layer_clear : M unit := layer_state_set 0.
Definition layer_move (layer : Z) : M unit := layer_state_set (layer_bit layer).
Definition layer_or (state : Z) : M unit :=
  l ← get_layer_state; layer_state_set (layer_word (Z.lor l state)).
Definition layer_and (state : Z) : M unit :=
  l ← get_layer_state; layer_state_set (layer_word (Z.land l state)).
Definition layer_xor (state : Z) : M unit :=
  l ← get_layer_state; layer_state_set (layer_word (Z.lxor l state)).
Definition layer_on (layer : Z) : M unit :=
  l ← get_layer_state; layer_state_set (layer_word (Z.lor l (layer_bit layer))).
Definition layer_off (layer : Z) : M unit :=
  l ← get_layer_state; layer_state_set (layer_word (clear_bits l (layer_bit layer))).
Definition layer_invert (layer : Z) : M unit :=
  l ← get_layer_state; layer_state_set (layer_word (Z.lxor l (layer_bit layer))).

Definition layer_state_cmp (cmp_layer_state layer : Z) : bool :=
  if cmp_layer_state =? 0 then layer =? 0
  else nz (Z.land cmp_layer_state (layer_bit layer)).
Definition layer_state_is (layer : Z) : M bool :=
  l ← get_layer_state; mret (layer_state_cmp l layer).

(** ** The source layer cache *)

(** Bit [storage_bit] of [cache[storage_idx][bit_number]] is bit
    [bit_number] of the layer of entry [entry_number]. *)
Definition set_cache_bit (layer storage_bit bit_number c : Z) : Z :=
  let on := if nz (Z.land layer (bit bit_number)) then -1 else 0 in
  u8 (Z.lxor c (Z.land (Z.lxor on c) (bit storage_bit))).

Fixpoint set_cache_bits (layer storage_bit bit_number : Z) (line : list Z) : list Z :=
  match line with
  | [] => []
  | c :: line =>
      set_cache_bit layer storage_bit bit_number c ::
        set_cache_bits layer storage_bit (bit_number + 1) line
  end.

Definition update_source_layers_cache_impl (layer entry_number : Z) (cache : list (list Z))
  : list (list Z) :=
  alter (set_cache_bits layer (entry_number mod 8) 0) (Z.to_nat (entry_number / 8)) cache.

Fixpoint get_cache_bits (storage_bit bit_number : Z) (line : list Z) : Z :=
  match line with
  | [] => 0
  | c :: line =>
      Z.lor (Z.shiftl (if nz (Z.land c (bit storage_bit)) then 1 else 0) bit_number)
            (get_cache_bits storage_bit (bit_number + 1) line)
  end.

Definition read_source_layers_cache_impl (entry_number : Z) (cache : list (list Z)) : Z :=
  u8 (get_cache_bits (entry_number mod 8) 0 (default [] (cache !! Z.to_nat (entry_number / 8)))).

Definition in_matrix (k : keypos_t) : bool := (row k <? MATRIX_ROWS) && (col k <? MATRIX_COLS).
Definition on_encoder (k : keypos_t) : bool :=
  ENCODER_MAP_ENABLE && ((row k =? KEYLOC_ENCODER_CW) || (row k =? KEYLOC_ENCODER_CCW)).
Definition entry_number (k : keypos_t) : Z := u16 (u16 (row k * MATRIX_COLS) + col k).

(** The column of an encoder is not checked: [OutsideArray] if it has no entry. *)
Definition update_source_layers_cache (k : keypos_t) (layer : Z) : M unit :=
  if in_matrix k then
    upd_layers (fun l => l <| source_layers_cache :=
      update_source_layers_cache_impl layer (entry_number k) (source_layers_cache l) |>)
  else if on_encoder k then
    at_array (col k / 8) ((NUM_ENCODERS + 7) / 8);;
    upd_layers (fun l => l <| encoder_source_layers_cache :=
      update_source_layers_cache_impl layer (col k) (encoder_source_layers_cache l) |>)
  else skip.

(** A read of an entry the encoder cache does not have gives 0 here; the press
    of the key has written there before, which shows in the trace. *)
Definition read_source_layers_cache (k : keypos_t) : M Z :=
  gets (fun s =>
    if in_matrix k then
      read_source_layers_cache_impl (entry_number k) (source_layers_cache (layers s))
    else if on_encoder k then
      read_source_layers_cache_impl (col k) (encoder_source_layers_cache (layers s))
    else 0).

(** ** The layer and the action of a key *)

(** [for (int8_t i = MAX_LAYER - 1; i >= 0; i--)]: from layer [n - 1] down. *)
Fixpoint topmost_layer (n : nat) (active : Z) (act : Z -> Z) : Z :=
  match n with
  | O => 0
  | S n =>
      let i := Z.of_nat n in
      if nz (Z.land active (layer_bit i)) && negb (act i =? ACTION_TRANSPARENT) then i
      else topmost_layer n active act
  end.

Definition layer_switch_get_layer (k : keypos_t) : M Z :=
  gets (fun s =>
    topmost_layer (Z.to_nat MAX_LAYER)
      (Z.lor (layer_state (layers s)) (default_layer_state (layers s)))
      (fun i => action_for_key i k (keymap_config s))).

Definition layer_switch_get_action (k : keypos_t) : M Z :=
  i ← layer_switch_get_layer k;
  gets (fun s => action_for_key i k (keymap_config s)).

Definition store_or_get_action (is_pressed : bool) (k : keypos_t) : M Z :=
  if STRICT_LAYER_RELEASE then layer_switch_get_action k else
  disabled ← gets (fun s => disable_action_cache (layers s));
  if (disabled : bool) then layer_switch_get_action k else
  layer ← (if is_pressed then
             layer ← layer_switch_get_layer k;
             update_source_layers_cache k layer;;
             mret layer
           else read_source_layers_cache k);
  gets (fun s => action_for_key layer k (keymap_config s)).

Definition update_tri_layer_state (state layer1 layer2 layer3 : Z) : Z :=
  let mask12 := Z.lor (layer_bit layer1) (layer_bit layer2) in
  let mask3 := layer_bit layer3 in
  if Z.land state mask12 =? mask12 then Z.lor state mask3 else clear_bits state mask3.

Definition update_tri_layer (layer1 layer2 layer3 : Z) : M unit :=
  l ← get_layer_state; layer_state_set (update_tri_layer_state l layer1 layer2 layer3).

(** ** The keycode of an event (quantum/quantum.c) *)

Definition get_event_keycode (e : keyevent_t) (update_layer_cache : bool) : M Z :=
  disabled ← gets (fun s => STRICT_LAYER_RELEASE || disable_action_cache (layers s));
  layer ← (if (disabled : bool) then layer_switch_get_layer (key e)
           else if pressed e && update_layer_cache then
             layer ← layer_switch_get_layer (key e);
             update_source_layers_cache (key e) layer;;
             mret layer
           else read_source_layers_cache (key e));
  mret (keymap_key_to_keycode layer (key e)).

Definition get_record_keycode (r : keyrecord_t) (update_layer_cache : bool) : M Z :=
  if KEYCODE_IN_RECORD && nz (keycode r) then mret (keycode r)
  else get_event_keycode (event r) update_layer_cache.
End layer.
