(* ===== verification/Oneshot.v ===== *)
(** * One-shot layers and one-shot swap hands (quantum/action_util.c) *)

From S2P Require Import Prelude.
From S2P Require Import Bitwise.
From S2P Require Import Keycodes.
From S2P Require Import Report.
From S2P Require Import State.
From S2P Require Import Host.
From S2P Require Import ActionUtil.
From S2P Require Import ActionCode.
From S2P Require Import Keymap.
From S2P Require Import ActionLayer.

Definition ONESHOT_PRESSED : Z := 1.
Definition ONESHOT_OTHER_KEY_PRESSED : Z := 2.
Definition ONESHOT_START : Z := 3.
Definition ONESHOT_TOGGLED : Z := 4.

Section oneshot.
Context `{!Config} `{!Hooks}.
Abbreviation M := (stm keyboard).

(** ** The one-shot layer: [LLLL LSSS] *)

Definition layer_of_data (d : Z) : Z := Z.shiftr d 3.
Definition state_of_data (d : Z) : Z := Z.land d 7.

Definition oneshot_data (k : keyboard) : Z := oneshot_layer_data (layers k).
Definition get_oneshot_layer : M Z := gets (fun k => layer_of_data (oneshot_data k)).
Definition get_oneshot_layer_state : M Z := gets (fun k => state_of_data (oneshot_data k)).
Definition is_oneshot_layer_active (k : keyboard) : bool := nz (state_of_data (oneshot_data k)).
Definition oneshot_enabled (k : keyboard) : bool := oneshot_enable (keymap_config k).

Definition has_oneshot_layer_timed_out (k : keyboard) : bool :=
  (0 <? ONESHOT_TIMEOUT) &&
  (ONESHOT_TIMEOUT <=? TIMER_DIFF_16 (now k) (oneshot_layer_time (layers k))) &&
  negb (nz (Z.land (state_of_data (oneshot_data k)) ONESHOT_TOGGLED)).

Definition put_oneshot_data (d : Z) : M unit :=
  upd_layers (fun l => l <| oneshot_layer_data := d |>).
Definition set_oneshot_layer_time (t : keyboard -> Z) : M unit :=
  when (0 <? ONESHOT_TIMEOUT)
    (t ← gets t; upd_layers (fun l => l <| oneshot_layer_time := u16 t |>)).

Definition set_oneshot_layer (layer state : Z) : M unit :=
  enabled ← gets oneshot_enabled;
  if (enabled : bool) then
    put_oneshot_data (u8 (Z.lor (Z.shiftl layer 3) state));;
    layer_on layer;;
    set_oneshot_layer_time now;;
    l ← get_oneshot_layer;
    emit (OneshotLayerChanged l)
  else layer_on layer.

Definition reset_oneshot_layer : M unit :=
  put_oneshot_data 0;;
  set_oneshot_layer_time (fun _ => 0);;
  l ← get_oneshot_layer;
  emit (OneshotLayerChanged l).

Definition clear_oneshot_layer_state (state : Z) : M unit :=
  start_state ← gets oneshot_data;
  put_oneshot_data (clear_bits start_state state);;
  s ← get_oneshot_layer_state;
  data ← gets oneshot_data;
  enabled ← gets oneshot_enabled;
  if negb (nz s) && negb (start_state =? data) && enabled then
    l ← get_oneshot_layer;
    layer_off l;;
    reset_oneshot_layer
  else skip.

Definition oneshot_set (active : bool) : M unit :=
  enabled ← gets oneshot_enabled;
  if eqb enabled active then skip else
  upd_config (fun c => c <| oneshot_enable := active |>);;
  c ← gets keymap_config;
  emit (EeconfigUpdateKeymap c);;
  clear_oneshot_layer_state ONESHOT_OTHER_KEY_PRESSED.

Definition oneshot_toggle : M unit := enabled ← gets oneshot_enabled; oneshot_set (negb enabled).
Definition oneshot_enable_ : M unit := oneshot_set true.
Definition oneshot_disable : M unit := oneshot_set false.

(** ** One-shot swap hands *)

Definition put_swap_oneshot (s : swap_hands_oneshot_t) : M unit :=
  upd_hands (fun h => h <| swap_hands_oneshot := s |>).
Definition put_swap_hands (on : bool) : M unit := upd_hands (fun h => h <| swap_hands := on |>).
Definition set_oneshot_swaphands_time (t : keyboard -> Z) : M unit :=
  when (0 <? ONESHOT_TIMEOUT)
    (t ← gets t; upd_hands (fun h => h <| oneshot_swaphands_time := u16 t |>)).

Definition has_oneshot_swaphands_timed_out (k : keyboard) : bool :=
  (0 <? ONESHOT_TIMEOUT) &&
  (ONESHOT_TIMEOUT <=? TIMER_DIFF_16 (now k) (oneshot_swaphands_time (hands k))) &&
  bool_decide (swap_hands_oneshot (hands k) = SHO_ACTIVE).

Definition set_oneshot_swaphands : M unit :=
  put_swap_oneshot SHO_PRESSED;;
  put_swap_hands true;;
  set_oneshot_swaphands_time now;;
  t ← gets (fun k => oneshot_layer_time (layers k));
  if nz t then set_oneshot_layer_time (fun k => oneshot_swaphands_time (hands k)) else skip.

Definition clear_oneshot_swaphands : M unit :=
  put_swap_oneshot SHO_OFF;;
  put_swap_hands false;;
  set_oneshot_swaphands_time (fun _ => 0).

(** [if (s == from) ...; if (s == last) clear_oneshot_swaphands();] *)
Definition release_oneshot_swaphands : M unit :=
  s ← gets (fun k => swap_hands_oneshot (hands k));
  (if decide (s = SHO_PRESSED) then put_swap_oneshot SHO_ACTIVE else skip);;
  s ← gets (fun k => swap_hands_oneshot (hands k));
  if decide (s = SHO_USED) then clear_oneshot_swaphands else skip.

Definition use_oneshot_swaphands : M unit :=
  s ← gets (fun k => swap_hands_oneshot (hands k));
  (if decide (s = SHO_PRESSED) then put_swap_oneshot SHO_USED else skip);;
  s ← gets (fun k => swap_hands_oneshot (hands k));
  if decide (s = SHO_ACTIVE) then clear_oneshot_swaphands else skip.
End oneshot.
