(* ===== verification/Action.v ===== *)
(** * Actions (quantum/action.c)

    Registering codes and modifiers, the meaning of every action kind, and the
    processing of a key record.  [process_record] and [process_action] call
    each other once more when a one-shot layer ends; [fuel] counts these
    nested calls ([process_record_fuel]).  A record is passed by reference: a
    function that may change it returns it. *)

From S2P Require Import Prelude.
From S2P Require Import Bitwise.
From S2P Require Import Keycodes.
From S2P Require Import Report.
From S2P Require Import State.
From S2P Require Import Host.
From S2P Require Import ActionUtil.
From S2P Require Import ActionCode.
From S2P Require Import Keymap.
From S2P Require Import ActionLayer.
From S2P Require Import Oneshot.

Section action.
Context `{!Config} `{!Hooks}.
Abbreviation M := (stm keyboard).

(** ** Codes *)

(** The bits of [led_t]: num lock, caps lock, scroll lock. *)
Definition host_led (n : Z) : M bool := leds ← host_keyboard_leds; mret (Z.testbit leds n).

(** Tapping a lock key; [wait] is given on registering only. *)
Definition tap_lock_key (lock : Z) (wait : option Z) : M unit :=
  add_key lock;;
  send_keyboard_report;;
  (match wait with Some ms => emit (WaitMs ms) | None => skip end);;
  del_key lock;;
  send_keyboard_report.

(** [KC_LOCKING_...]: ignored if the lock is in the wanted state already. *)
Definition locking_key (lock led : Z) (wanted : bool) (wait : option Z) : M unit :=
  on ← host_led led;
  if LOCKING_RESYNC_ENABLE && eqb on wanted then skip else tap_lock_key lock wait.

Definition register_mouse (mouse_keycode : Z) (is_pressed : bool) : M unit :=
  (if MOUSEKEY_ENABLE then
     emit (if is_pressed then MousekeyOn mouse_keycode else MousekeyOff mouse_keycode);;
     if (PS2_MOUSE_ENABLE || POINTING_DEVICE_ENABLE) && within KC_MS_BTN1 KC_MS_BTN8 mouse_keycode
     then when POINTING_DEVICE_ENABLE (emit (PointingDeviceKeycode mouse_keycode is_pressed))
     else emit MousekeySend
   else when (POINTING_DEVICE_ENABLE && IS_MOUSE_KEYCODE mouse_keycode)
          (emit (PointingDeviceKeycode mouse_keycode is_pressed)));;
  when (PS2_MOUSE_ENABLE && within KC_MS_BTN1 KC_MS_BTN3 mouse_keycode) (
    let mask := bit (mouse_keycode - KC_MS_BTN1) in
    upd_hands (fun h => h <| tp_buttons :=
      if is_pressed then Z.lor (tp_buttons h) mask else clear_bits (tp_buttons h) mask |>)).

Definition register_code (code : Z) : M unit :=
  if code =? KC_NO then skip
  else if LOCKING_SUPPORT_ENABLE && (code =? KC_LOCKING_CAPS_LOCK) then
    locking_key KC_CAPS_LOCK 1 true (Some TAP_HOLD_CAPS_DELAY)
  else if LOCKING_SUPPORT_ENABLE && (code =? KC_LOCKING_NUM_LOCK) then
    locking_key KC_NUM_LOCK 0 true (Some 100)
  else if LOCKING_SUPPORT_ENABLE && (code =? KC_LOCKING_SCROLL_LOCK) then
    locking_key KC_SCROLL_LOCK 2 true (Some 100)
  else if IS_BASIC_KEYCODE code then
    if command_proc code then skip else
    was_pressed ← gets (key_pressed code);
    when was_pressed (del_key code;; send_keyboard_report);;
    add_key code;;
    send_keyboard_report
  else if IS_MODIFIER_KEYCODE code then
    add_mods (MOD_BIT code);; send_keyboard_report
  else if EXTRAKEY_ENABLE && IS_SYSTEM_KEYCODE code then host_system_send (KEYCODE2SYSTEM code)
  else if EXTRAKEY_ENABLE && IS_CONSUMER_KEYCODE code then
    host_consumer_send (KEYCODE2CONSUMER code)
  else when (IS_MOUSE_KEYCODE code) (register_mouse code true).

Definition unregister_code (code : Z) : M unit :=
  if code =? KC_NO then skip
  else if LOCKING_SUPPORT_ENABLE && (code =? KC_LOCKING_CAPS_LOCK) then
    locking_key KC_CAPS_LOCK 1 false None
  else if LOCKING_SUPPORT_ENABLE && (code =? KC_LOCKING_NUM_LOCK) then
    locking_key KC_NUM_LOCK 0 false None
  else if LOCKING_SUPPORT_ENABLE && (code =? KC_LOCKING_SCROLL_LOCK) then
    locking_key KC_SCROLL_LOCK 2 false None
  else if IS_BASIC_KEYCODE code then del_key code;; send_keyboard_report
  else if IS_MODIFIER_KEYCODE code then del_mods (MOD_BIT code);; send_keyboard_report
  else if EXTRAKEY_ENABLE && IS_SYSTEM_KEYCODE code then host_system_send 0
  else if EXTRAKEY_ENABLE && IS_CONSUMER_KEYCODE code then host_consumer_send 0
  else when (IS_MOUSE_KEYCODE code) (register_mouse code false).

Definition tap_code_delay (code delay : Z) : M unit :=
  register_code code;; emit (WaitMs delay);; unregister_code code.
Definition tap_code (code : Z) : M unit :=
  tap_code_delay code (if code =? KC_CAPS_LOCK then TAP_HOLD_CAPS_DELAY else TAP_CODE_DELAY).

Definition register_mods (m : Z) : M unit := when (nz m) (add_mods m;; send_keyboard_report).
Definition unregister_mods (m : Z) : M unit := when (nz m) (del_mods m;; send_keyboard_report).
Definition register_weak_mods (m : Z) : M unit :=
  when (nz m) (add_weak_mods m;; send_keyboard_report).
Definition unregister_weak_mods (m : Z) : M unit :=
  when (nz m) (del_weak_mods m;; send_keyboard_report).

(** quantum/action_util.c *)
Definition neutralize_flashing_modifiers (active_mods : Z) : M unit :=
  match DUMMY_MOD_NEUTRALIZER_KEYCODE with
  | Some dummy => when (existsb (fun m => active_mods =? m) MODS_TO_NEUTRALIZE) (tap_code dummy)
  | None => skip
  end.

(** ** What is a tap key *)

Definition is_tap_action (action : Z) : bool :=
  let id := kind_id action in
  if within ACT_LMODS_TAP ACT_RMODS_TAP id || within ACT_LAYER_TAP ACT_LAYER_TAP_EXT id then
    let code := layer_tap_code action in
    within KC_NO KC_RIGHT_GUI code || (code =? OP_TAP_TOGGLE) || (code =? OP_ONESHOT)
  else if id =? ACT_SWAP_HANDS then
    let code := swap_code action in
    within KC_NO KC_RIGHT_GUI code || (code =? OP_SH_TAP_TOGGLE)
  else false.

Definition record_action (r : keyrecord_t) (lookup : M Z) : M Z :=
  if KEYCODE_IN_RECORD && nz (keycode r) then
    gets (fun s => action_for_keycode (keymap_config s) (keycode r))
  else lookup.

Definition is_tap_record (r : keyrecord_t) : M bool :=
  if IS_NOEVENT (event r) then mret false else
  action ← record_action r (layer_switch_get_action (key (event r)));
  mret (is_tap_action action).

Definition get_tap_keycode (kc : Z) : Z :=
  if within QK_MOD_TAP QK_MOD_TAP_MAX kc then QK_MOD_TAP_GET_TAP_KEYCODE kc
  else if within QK_LAYER_TAP QK_LAYER_TAP_MAX kc then QK_LAYER_TAP_GET_TAP_KEYCODE kc
  else if within QK_SWAP_HANDS QK_SWAP_HANDS_MAX kc && negb (IS_SWAP_HANDS_KEYCODE kc)
  then QK_SWAP_HANDS_GET_TAP_KEYCODE kc
  else kc.

(** ** The action kinds *)

(** [ACT_LMODS], [ACT_RMODS], and [MODS_ONESHOT] when one-shot is disabled. *)
Definition key_with_mods (e : keyevent_t) (m code : Z) : M unit :=
  let strong := IS_MODIFIER_KEYCODE code || (code =? KC_NO) in
  if pressed e then
    when (nz m) ((if strong then add_mods m else add_weak_mods m);; send_keyboard_report);;
    register_code code
  else
    unregister_code code;;
    when (nz m) ((if strong then del_mods m else del_weak_mods m);; send_keyboard_report).

(** [action.key.mods], in the high half for the right hand kind. *)
Definition action_mods (action left : Z) : Z :=
  if kind_id action =? left then key_mods action else u8 (Z.shiftl (key_mods action) 4).

Definition mods_oneshot (e : keyevent_t) (m tap_count : Z) : M unit :=
  if pressed e then
    if tap_count =? 0 then register_mods m
    else if tap_count =? 1 then add_oneshot_mods m
    else when ((1 <? ONESHOT_TAP_TOGGLE) && (tap_count =? ONESHOT_TAP_TOGGLE)) (
      register_mods m;; del_oneshot_mods m;; add_oneshot_locked_mods m)
  else
    let unregister := unregister_mods m;; del_oneshot_mods m;; del_oneshot_locked_mods m in
    if tap_count =? 0 then unregister
    else
      real ← get_mods;
      when ((1 <? ONESHOT_TAP_TOGGLE) && (tap_count =? 1) && nz (Z.land m real)) unregister.

Definition mods_tap_toggle (e : keyevent_t) (m tap_count : Z) : M unit :=
  if pressed e then when (tap_count <=? TAPPING_TOGGLE) (register_mods m)
  else when (tap_count <? TAPPING_TOGGLE) (unregister_mods m).

(** The tap of a mod-tap or layer-tap key is held a little while. *)
Definition release_tap (code : Z) : M unit :=
  emit (WaitMs (if code =? KC_CAPS_LOCK then TAP_HOLD_CAPS_DELAY else TAP_CODE_DELAY));;
  unregister_code code.

Definition cancels_tap (r : keyrecord_t) : M bool :=
  if HOLD_ON_OTHER_KEY_PRESS then
    if HOLD_ON_OTHER_KEY_PRESS_PER_KEY then
      kc ← get_event_keycode (event r) false;
      mret (get_hold_on_other_key_press kc r && interrupted (tap r))
    else mret (interrupted (tap r))
  else mret false.

Definition mods_tap_key (r : keyrecord_t) (m code : Z) : M keyrecord_t :=
  let tap_count := count (tap r) in
  if pressed (event r) then
    if 0 <? tap_count then
      cancel ← cancels_tap r;
      if (cancel : bool) then
        register_mods m;;
        mret (r <| tap := (tap r) <| count := 0 |> |>)
      else register_code code;; mret r
    else register_mods m;; mret r
  else
    if 0 <? tap_count then release_tap code;; mret r
    else
      counter ← gets (fun s => retro_tapping_counter (hands s));
      active ← get_mods;
      when (RETRO_TAPPING && (counter =? 2)) (neutralize_flashing_modifiers active);;
      unregister_mods m;;
      mret r.

Definition action_mods_tap (r : keyrecord_t) (action : Z) : M keyrecord_t :=
  let m := action_mods action ACT_LMODS_TAP in
  let code := layer_tap_code action in
  if code =? MODS_ONESHOT then
    enabled ← gets oneshot_enabled;
    (if (enabled : bool) then mods_oneshot (event r) m (count (tap r))
     else key_with_mods (event r) m code);;
    mret r
  else if code =? MODS_TAP_TOGGLE then mods_tap_toggle (event r) m (count (tap r));; mret r
  else mods_tap_key r m code.

Definition action_usage (e : keyevent_t) (action : Z) : M unit :=
  let code := if pressed e then usage_code action else 0 in
  if usage_page action =? PAGE_SYSTEM then host_system_send code
  else when (usage_page action =? PAGE_CONSUMER) (host_consumer_send code).

(** One of the four bit operations on a layer mask. *)
Definition layer_bitop (op operand : Z) (and_ or_ xor_ set_ : Z -> M unit) : M unit :=
  if op =? OP_BIT_AND then and_ operand
  else if op =? OP_BIT_OR then or_ operand
  else if op =? OP_BIT_XOR then xor_ operand
  else set_ operand.

(** [bits | mask] *)
Definition layer_bitop_operand (action : Z) : Z :=
  let shift := layer_bitop_part action * 4 in
  Z.lor (layer_word (Z.shiftl (layer_bitop_bits action) shift))
        (if layer_bitop_xbit action then layer_word (Z.lnot (Z.shiftl 0xf shift)) else 0).

Definition action_layer (e : keyevent_t) (action : Z) : M unit :=
  let operand := layer_bitop_operand action in
  if layer_bitop_on action =? 0 then
    if pressed e then skip
    else layer_bitop (layer_bitop_op action) operand
           default_layer_and default_layer_or default_layer_xor default_layer_set
  else
    when (nz (Z.land (layer_bitop_on action) (if pressed e then ON_PRESS else ON_RELEASE)))
      (layer_bitop (layer_bitop_op action) operand layer_and layer_or layer_xor layer_state_set).

Definition action_layer_mods (e : keyevent_t) (action : Z) : M unit :=
  if pressed e then
    layer_on (layer_mods_layer action);; register_mods (layer_mods_mods action)
  else
    unregister_mods (layer_mods_mods action);; layer_off (layer_mods_layer action).

(** [OP_ONESHOT]: the result is the new [do_release_oneshot]. *)
Definition layer_oneshot (e : keyevent_t) (val tap_count : Z) (do_release_oneshot : bool) : M bool :=
  enabled ← gets oneshot_enabled;
  if negb enabled then
    (if pressed e then layer_on val else layer_off val);; mret do_release_oneshot
  else if 1 <? ONESHOT_TAP_TOGGLE then
    (if pressed e then
       s ← get_oneshot_layer_state;
       if s =? ONESHOT_TOGGLED then reset_oneshot_layer;; layer_off val
       else when (tap_count <? ONESHOT_TAP_TOGGLE) (set_oneshot_layer val ONESHOT_START)
     else if ONESHOT_TAP_TOGGLE <=? tap_count then
       reset_oneshot_layer;; set_oneshot_layer val ONESHOT_TOGGLED
     else clear_oneshot_layer_state ONESHOT_PRESSED);;
    mret false
  else
    (if pressed e then set_oneshot_layer val ONESHOT_START
     else
       clear_oneshot_layer_state ONESHOT_PRESSED;;
       when (1 <? tap_count) (clear_oneshot_layer_state ONESHOT_OTHER_KEY_PRESSED));;
    mret do_release_oneshot.

Definition action_layer_tap (e : keyevent_t) (action tap_count : Z) (do_release_oneshot : bool)
  : M bool :=
  let val := layer_tap_val action in
  let code := layer_tap_code action in
  if code =? OP_ONESHOT then layer_oneshot e val tap_count do_release_oneshot
  else
    (if code =? OP_TAP_TOGGLE then
       if pressed e then when (tap_count <? TAPPING_TOGGLE) (layer_invert val)
       else when (tap_count <=? TAPPING_TOGGLE) (layer_invert val)
     else if code =? OP_ON_OFF then if pressed e then layer_on val else layer_off val
     else if code =? OP_OFF_ON then if pressed e then layer_off val else layer_on val
     else if code =? OP_SET_CLEAR then if pressed e then layer_move val else layer_clear
     else if pressed e then
       if 0 <? tap_count then register_code code else layer_on val
     else
       if 0 <? tap_count then release_tap code else layer_off val);;
    mret do_release_oneshot.

Definition toggle_swap_hands : M unit := upd_hands (fun h => h <| swap_hands := negb (swap_hands h) |>).
Definition put_swap_held (b : bool) : M unit := upd_hands (fun h => h <| swap_held := b |>).
Definition undo_swap_held : M unit := toggle_swap_hands;; put_swap_held false.

Definition action_swap_hands (r : keyrecord_t) (action : Z) : M keyrecord_t :=
  let code := swap_code action in
  let e := event r in
  let tap_count := count (tap r) in
  held ← gets (fun s => swap_held (hands s));
  if code =? OP_SH_TOGGLE then when (pressed e) toggle_swap_hands;; mret r
  else if code =? OP_SH_ON_OFF then put_swap_hands (pressed e);; mret r
  else if code =? OP_SH_OFF_ON then put_swap_hands (negb (pressed e));; mret r
  else if code =? OP_SH_ON then when (negb (pressed e)) (put_swap_hands true);; mret r
  else if code =? OP_SH_OFF then when (negb (pressed e)) (put_swap_hands false);; mret r
  else if code =? OP_SH_ONESHOT then
    (if pressed e then set_oneshot_swaphands else release_oneshot_swaphands);; mret r
  else if code =? OP_SH_TAP_TOGGLE then
    (if pressed e then if (held : bool) then put_swap_held false else toggle_swap_hands
     else when (tap_count <? TAPPING_TOGGLE) toggle_swap_hands);;
    mret r
  else if 0 <? tap_count then
    when held undo_swap_held;;
    if pressed e then register_code code;; mret r
    else
      emit (WaitMs TAP_CODE_DELAY);;
      unregister_code code;;
      mret record_0
  else
    when (held && negb (pressed e)) undo_swap_held;;
    mret r.

(** ** process_action *)

Definition is_sh_oneshot (action : Z) : bool :=
  (kind_id action =? ACT_SWAP_HANDS) && (swap_code action =? OP_SH_ONESHOT).

(** Whether a press of this action ends a one-shot layer. *)
Definition ends_oneshot_layer (action tap_count : Z) : bool :=
  let id := kind_id action in
  ((id =? ACT_USAGE) ||
   negb (IS_MODIFIER_KEYCODE (key_code action)
         || (((id =? ACT_LMODS_TAP) || (id =? ACT_RMODS_TAP)) &&
             ((layer_tap_code action <=? MODS_TAP_TOGGLE) || (tap_count =? 0)))))
  && negb (SWAP_HANDS_ENABLE && is_sh_oneshot action).

Definition start_release_oneshot (e : keyevent_t) (action tap_count : Z) : M bool :=
  active ← gets is_oneshot_layer_active;
  enabled ← gets oneshot_enabled;
  if active && pressed e && ends_oneshot_layer action tap_count && enabled then
    clear_oneshot_layer_state ONESHOT_OTHER_KEY_PRESSED;;
    active ← gets is_oneshot_layer_active;
    mret (negb active)
  else mret false.

(** The switch on the kind: the record and [do_release_oneshot] after it. *)
Definition run_action (r : keyrecord_t) (action : Z) (do_release_oneshot : bool)
  : M (keyrecord_t * bool) :=
  let id := kind_id action in
  let e := event r in
  let keep (m : M unit) : M (keyrecord_t * bool) := m;; mret (r, do_release_oneshot) in
  if (id =? ACT_LMODS) || (id =? ACT_RMODS) then
    keep (key_with_mods e (action_mods action ACT_LMODS) (key_code action))
  else if (id =? ACT_LMODS_TAP) || (id =? ACT_RMODS_TAP) then
    r ← action_mods_tap r action; mret (r, do_release_oneshot)
  else if EXTRAKEY_ENABLE && (id =? ACT_USAGE) then keep (action_usage e action)
  else if id =? ACT_MOUSEKEY then keep (register_mouse (key_code action) (pressed e))
  else if id =? ACT_LAYER then keep (action_layer e action)
  else if id =? ACT_LAYER_MODS then keep (action_layer_mods e action)
  else if (id =? ACT_LAYER_TAP) || (id =? ACT_LAYER_TAP_EXT) then
    d ← action_layer_tap e action (count (tap r)) do_release_oneshot; mret (r, d)
  else if SWAP_HANDS_ENABLE && (id =? ACT_SWAP_HANDS) then
    r ← action_swap_hands r action; mret (r, do_release_oneshot)
  else keep skip.

Definition update_leds (action : Z) : M unit :=
  when (within ACT_LAYER ACT_LAYER_TAP_EXT (kind_id action))
    (leds ← host_keyboard_leds; emit (LedSet leds)).

Definition put_retro_counter (n : Z) : M unit :=
  upd_hands (fun h => h <| retro_tapping_counter := n |>).

Definition retro_tapping (r : keyrecord_t) (e : keyevent_t) (action tap_count : Z) : M unit :=
  if negb (RETRO_TAPPING || RETRO_TAPPING_PER_KEY) then skip
  else if negb (is_tap_action action) then put_retro_counter 0
  else if pressed e then when (0 <? tap_count) (put_retro_counter 0)
  else if 0 <? tap_count then put_retro_counter 0
  else
    counter ← gets (fun s => retro_tapping_counter (hands s));
    wanted ← (if RETRO_TAPPING_PER_KEY then
                kc ← get_event_keycode (event r) false; mret (get_retro_tapping kc r)
              else mret true);
    when (wanted && (counter =? 2)) (tap_code (layer_tap_code action));;
    put_retro_counter 0.

(** Everything but the final release; [again] processes the record a second
    time. *)
Definition process_action (again : keyrecord_t -> M keyrecord_t) (r : keyrecord_t) (action : Z)
  : M keyrecord_t :=
  let e := event r in
  let tap_count := count (tap r) in
  release ← start_release_oneshot e action tap_count;
  rd ← run_action r action release;
  let r := rd.1 in
  update_leds action;;
  retro_tapping r e action tap_count;;
  when (SWAP_HANDS_ENABLE && pressed e && negb (is_sh_oneshot action)) use_oneshot_swaphands;;
  s ← get_oneshot_layer_state;
  if rd.2 && negb (nz (Z.land s ONESHOT_PRESSED)) then
    let r := r <| event := (event r) <| pressed := false |> |> in
    l ← get_oneshot_layer;
    layer_on l;;
    r ← again r;
    l ← get_oneshot_layer;
    layer_off l;;
    mret r
  else mret r.

Definition process_record_handler (again : keyrecord_t -> M keyrecord_t) (r : keyrecord_t)
  : M keyrecord_t :=
  action ← record_action r (store_or_get_action (pressed (event r)) (key (event r)));
  process_action again r action.

Fixpoint process_record (fuel : nat) (r : keyrecord_t) : M keyrecord_t :=
  match fuel with
  | O => mret r
  | S fuel =>
      if IS_NOEVENT (event r) then mret r else
      q ← process_record_quantum r;
      let r := q.2 in
      if negb q.1 then
        active ← gets is_oneshot_layer_active;
        enabled ← gets oneshot_enabled;
        when (active && pressed (event r) && enabled)
          (clear_oneshot_layer_state ONESHOT_OTHER_KEY_PRESSED);;
        mret r
      else
        r ← process_record_handler (process_record fuel) r;
        post_process_record_quantum r
  end.

(** Two nested calls are enough ([process_record_fuel]). *)
Abbreviation process_record_2 := (process_record 2).

Definition put_action_cache (disabled : bool) : M unit :=
  upd_layers (fun l => l <| disable_action_cache := disabled |>).

Definition process_record_nocache (r : keyrecord_t) : M keyrecord_t :=
  if STRICT_LAYER_RELEASE then process_record_2 r else
  put_action_cache true;;
  r ← process_record_2 r;
  put_action_cache false;;
  mret r.

Definition process_record_tap_hint (r : keyrecord_t) : M unit :=
  if negb (IS_KEYEVENT (event r)) then skip else
  action ← layer_switch_get_action (key (event r));
  when (SWAP_HANDS_ENABLE && (kind_id action =? ACT_SWAP_HANDS)
        && negb (swap_code action =? OP_SH_ONESHOT))
    (toggle_swap_hands;; put_swap_held true).

(** ** Swapping hands *)

Definition should_swap_hands (index : Z) (swap_state : list Z) (is_pressed : bool)
  (h : hands_state) : bool :=
  if is_pressed then swap_hands h
  else nz (Z.land (at_ swap_state (index / 8)) (bit (index mod 8))).

Definition set_swap_hands_state (index : Z) (swap_state : list Z) (on : bool) : list Z :=
  let b := at_ swap_state (index / 8) in
  let mask := bit (index mod 8) in
  put swap_state (index / 8) (if on then Z.lor b mask else clear_bits b mask).

Definition swap_hands_on : M unit := put_swap_hands true.
Definition swap_hands_off : M unit := put_swap_hands false.
Definition is_swap_hands_on : M bool := gets (fun s => swap_hands (hands s)).

(** The column of an encoder is not checked: [OutsideArray] if it has no bit. *)
Definition process_hand_swap (e : keyevent_t) : M keyevent_t :=
  let pos := key e in
  h ← gets hands;
  if IS_KEYEVENT e && in_matrix pos then
    let index := row pos * MATRIX_COLS + col pos in
    let do_swap := should_swap_hands index (matrix_swap_state h) (pressed e) h in
    upd_hands (fun h => h <| matrix_swap_state :=
      set_swap_hands_state index (matrix_swap_state h) do_swap |>);;
    mret (if do_swap then e <| key := hand_swap_config (row pos) (col pos) |> else e)
  else if IS_ENCODEREVENT e && on_encoder pos then
    let index := col pos in
    at_array (index / 8) ((NUM_ENCODERS + 7) / 8);;
    let do_swap := should_swap_hands index (encoder_swap_state h) (pressed e) h in
    upd_hands (fun h => h <| encoder_swap_state :=
      set_swap_hands_state index (encoder_swap_state h) do_swap |>);;
    when do_swap (at_array (col pos) NUM_ENCODERS);;
    mret (if do_swap
          then e <| key := {| col := encoder_hand_swap_config (col pos); row := row pos |} |>
          else e)
  else mret e.

(** ** action_exec *)

(** [process] is [action_tapping_process]. *)
Definition action_exec (process : keyrecord_t -> M unit) (e : keyevent_t) : M unit :=
  when (IS_EVENT e && (RETRO_TAPPING || RETRO_TAPPING_PER_KEY))
    (upd_hands (fun h => h <| retro_tapping_counter := i_wrap INT_BITS (retro_tapping_counter h + 1) |>));;
  when (pressed e) clear_weak_mods;;
  e ← (if SWAP_HANDS_ENABLE && IS_EVENT e then process_hand_swap e else mret e);
  let record := record_0 <| event := e |> in
  enabled ← gets oneshot_enabled;
  when enabled (
    layer_out ← gets has_oneshot_layer_timed_out;
    when layer_out (clear_oneshot_layer_state ONESHOT_OTHER_KEY_PRESSED);;
    mods_out ← gets has_oneshot_mods_timed_out;
    when mods_out clear_oneshot_mods;;
    hands_out ← gets has_oneshot_swaphands_timed_out;
    when (SWAP_HANDS_ENABLE && hands_out) clear_oneshot_swaphands);;
  if IS_NOEVENT (event record) then process record
  else
    q ← pre_process_record_quantum record;
    if (q.1 : bool) then process q.2 else skip.
End action.
