(* ===== verification/Tapping.v ===== *)
(** * Tap and hold (quantum/action_tapping.c)

    The state machine that decides whether a key is tapped or held: the
    tapping key, the ring of events waiting for the decision, and Chordal
    Hold.  Flow Tap and Retro Shift are not compiled in.  The records handled
    by reference are named by [record_ref]. *)

From S2P Require Import Prelude.
From S2P Require Import Bitwise.
From S2P Require Import Keycodes.
From S2P Require Import Report.
From S2P Require Import State.
From S2P Require Import Host.
From S2P Require Import ActionUtil.
From S2P Require Import ActionCode.
From S2P Require Import Keymap.
From S2P Require Import ActionLayer.
From S2P Require Import Oneshot.
From S2P Require Import Action.

Definition WAITING_BUFFER_SIZE : Z := 8.
Definition REGISTERED_TAPS_SIZE : Z := 8.

(** [&record] in [action_tapping_process], [&waiting_buffer[i]], [&tapping_key]. *)
Inductive record_ref := Param | Slot (i : Z) | TappingKey.

Section tapping.
Context `{!Config} `{!Hooks}.
Abbreviation M := (stm keyboard).

(** ** References *)

Definition next_slot (i : Z) : Z := (i + 1) mod WAITING_BUFFER_SIZE.
Definition slot_record (t : tapping_state) (i : Z) : keyrecord_t :=
  default record_0 (waiting_buffer t !! Z.to_nat i).

Definition deref (p : record_ref) (t : tapping_state) : keyrecord_t :=
  match p with
  | Param => param_record t
  | Slot i => slot_record t i
  | TappingKey => tapping_key t
  end.
Definition assign (p : record_ref) (r : keyrecord_t) (t : tapping_state) : tapping_state :=
  match p with
  | Param => t <| param_record := r |>
  | Slot i => t <| waiting_buffer := <[Z.to_nat i := r]> (waiting_buffer t) |>
  | TappingKey => t <| tapping_key := r |>
  end.

Definition load (p : record_ref) : M keyrecord_t := gets (fun k => deref p (tapping k)).
Definition store_record (p : record_ref) (r : keyrecord_t) : M unit := upd_tapping (assign p r).
Definition set_tap (p : record_ref) (f : tap_t -> tap_t) : M unit :=
  r ← load p; store_record p (r <| tap := f (tap r) |>).
Definition set_tap_count (p : record_ref) (n : Z) : M unit := set_tap p (fun t => t <| count := n |>).
Definition put_tapping_key (r : keyrecord_t) : M unit := store_record TappingKey r.

Definition process_record_at (p : record_ref) : M unit :=
  r ← load p; r ← process_record 2 r; store_record p r.
Definition is_tap_record_at (p : record_ref) : M bool := r ← load p; is_tap_record r.
Definition keycode_at (p : record_ref) : M Z := r ← load p; get_record_keycode r false.

(** ** The waiting buffer *)

Definition put_tail (i : Z) : M unit := upd_tapping (fun t => t <| waiting_buffer_tail := i |>).
Definition get_tail : M Z := gets (fun k => waiting_buffer_tail (tapping k)).
Definition get_head : M Z := gets (fun k => waiting_buffer_head (tapping k)).

Definition waiting_buffer_enq (r : keyrecord_t) : M bool :=
  if IS_NOEVENT (event r) then mret true else
  head ← get_head;
  tail ← get_tail;
  if next_slot head =? tail then mret false else
  store_record (Slot head) r;;
  upd_tapping (fun t => t <| waiting_buffer_head := next_slot head |>);;
  mret true.

Definition waiting_buffer_clear : M unit :=
  upd_tapping (fun t => t <| waiting_buffer_head := 0 |> <| waiting_buffer_tail := 0 |>).

(** [for (i = tail; i != head; i = (i + 1) % WAITING_BUFFER_SIZE)]: the
    indices visited, at most seven. *)
Fixpoint slots (fuel : nat) (i head : Z) : list Z :=
  match fuel with
  | O => []
  | S fuel => if i =? head then [] else i :: slots fuel (next_slot i) head
  end.
Definition waiting_slots (t : tapping_state) : list Z :=
  slots 8 (waiting_buffer_tail t) (waiting_buffer_head t).

Definition waiting_buffer_typed (e : keyevent_t) (t : tapping_state) : bool :=
  existsb (fun i => let w := event (slot_record t i) in
    KEYEQ (key e) (key w) && negb (eqb (pressed e) (pressed w))) (waiting_slots t).

Definition waiting_buffer_has_anykey_pressed (t : tapping_state) : bool :=
  existsb (fun i => pressed (event (slot_record t i))) (waiting_slots t).

(** [IS_TAPPING_RECORD], [WITHIN_TAPPING_TERM], [WITHIN_QUICK_TAP_TERM] *)
Definition is_tapping_record (r tk : keyrecord_t) : bool :=
  KEYEQ (key (event tk)) (key (event r)) && (negb COMBO_ENABLE || (keycode tk =? keycode r)).
Definition within_tapping_term (e : keyevent_t) : M bool :=
  tk ← load TappingKey;
  kc ← keycode_at TappingKey;
  mret (TIMER_DIFF_16 (time e) (time (event tk)) <? get_tapping_term kc tk).
Definition within_quick_tap_term (e : keyevent_t) : M bool :=
  tk ← load TappingKey;
  kc ← keycode_at TappingKey;
  mret (TIMER_DIFF_16 (time e) (time (event tk)) <? get_quick_tap_term kc tk).

(** The loop of [waiting_buffer_scan_tap] over the given slots. *)
Fixpoint scan_tap (idx : list Z) : M unit :=
  match idx with
  | [] => skip
  | i :: idx =>
      candidate ← load (Slot i);
      tk ← load TappingKey;
      let e := event candidate in
      within ← within_tapping_term e;
      if IS_EVENT e && KEYEQ (key e) (key (event tk)) && negb (pressed e) && within then
        set_tap_count TappingKey 1;;
        set_tap_count (Slot i) 1;;
        process_record_at TappingKey
      else scan_tap idx
  end.

Definition waiting_buffer_scan_tap : M unit :=
  tk ← load TappingKey;
  if (0 <? count (tap tk)) || negb (pressed (event tk)) then skip else
  idx ← gets (fun k => waiting_slots (tapping k));
  scan_tap idx.

(** ** Chordal Hold *)

Definition is_mt_or_lt (kc : Z) : bool :=
  within QK_MOD_TAP QK_MOD_TAP_MAX kc || within QK_LAYER_TAP QK_LAYER_TAP_MAX kc.

Definition registered_taps_add (k : keypos_t) : M unit :=
  n ← gets (fun s => num_registered_taps (tapping s));
  when (REGISTERED_TAPS_SIZE <=? n) (
    clear_keyboard;;
    upd_tapping (fun t => t <| num_registered_taps := 0 |>));;
  upd_tapping (fun t =>
    t <| registered_taps := <[Z.to_nat (num_registered_taps t) := k]> (registered_taps t) |>
      <| num_registered_taps := u8 (num_registered_taps t + 1) |>).

(** The index of [k] among the first [n] of the taps from [i] on, or -1. *)
Fixpoint find_tap (taps : list keypos_t) (i n : Z) (k : keypos_t) : Z :=
  match taps with
  | [] => -1
  | t :: taps => if n <=? i then -1 else if KEYEQ t k then i else find_tap taps (i + 1) n k
  end.
Definition registered_tap_find (k : keypos_t) (t : tapping_state) : Z :=
  find_tap (registered_taps t) 0 (num_registered_taps t) k.

Definition registered_taps_del_index (i : Z) (t : tapping_state) : tapping_state :=
  if i <? num_registered_taps t then
    let n := num_registered_taps t - 1 in
    let t := t <| num_registered_taps := n |> in
    if i <? n then
      match registered_taps t !! Z.to_nat n with
      | Some k => t <| registered_taps := <[Z.to_nat i := k]> (registered_taps t) |>
      | None => t
      end
    else t
  else t.

(** The loop of [waiting_buffer_find_chordal_hold_tap]. *)
Fixpoint find_chordal (idx : list Z) (prev : record_ref) (prev_kc first_tap : Z) : M Z :=
  match idx with
  | [] => mret first_tap
  | i :: idx =>
      cur ← load (Slot i);
      cur_kc ← keycode_at (Slot i);
      p ← load prev;
      if negb (pressed (event cur)) || negb (is_mt_or_lt prev_kc) then mret first_tap
      else find_chordal idx (Slot i) cur_kc
             (if get_chordal_hold prev_kc p cur_kc cur then i else first_tap)
  end.
Definition waiting_buffer_find_chordal_hold_tap : M Z :=
  idx ← gets (fun k => waiting_slots (tapping k));
  kc ← keycode_at TappingKey;
  find_chordal idx TappingKey kc WAITING_BUFFER_SIZE.

Fixpoint chordal_taps_until (fuel : nat) (k : keypos_t) : M unit :=
  match fuel with
  | O => skip
  | S fuel =>
      tail ← get_tail;
      head ← get_head;
      if tail =? head then skip else
      r ← load (Slot tail);
      is_tap ← is_tap_record r;
      when (pressed (event r) && is_tap) (
        set_tap_count (Slot tail) 1;;
        registered_taps_add (key (event r)));;
      process_record_at (Slot tail);;
      put_tail (next_slot tail);;
      r ← load (Slot tail);
      if KEYEQ k (key (event r)) && pressed (event r) then skip
      else chordal_taps_until fuel k
  end.
Definition waiting_buffer_chordal_hold_taps_until (k : keypos_t) : M unit :=
  chordal_taps_until 8 k.

Fixpoint process_regular (fuel : nat) : M unit :=
  match fuel with
  | O => skip
  | S fuel =>
      tail ← get_tail;
      head ← get_head;
      if tail =? head then skip else
      is_tap ← is_tap_record_at (Slot tail);
      if (is_tap : bool) then skip else
      process_record_at (Slot tail);;
      put_tail (next_slot tail);;
      process_regular fuel
  end.
Definition waiting_buffer_process_regular : M unit := process_regular 8.

(** [for (; waiting_buffer_tail != first_tap; ...) process_record(...)] *)
Fixpoint process_until (fuel : nat) (first_tap : Z) : M unit :=
  match fuel with
  | O => skip
  | S fuel =>
      tail ← get_tail;
      if tail =? first_tap then skip else
      process_record_at (Slot tail);;
      put_tail (next_slot tail);;
      process_until fuel first_tap
  end.

(** ** process_tapping *)

Definition tap_permissive_hold (kc : Z) (tk : keyrecord_t) : bool :=
  if PERMISSIVE_HOLD_PER_KEY then get_permissive_hold kc tk else PERMISSIVE_HOLD.
Definition tap_hold_on_other_key_press (kc : Z) (tk : keyrecord_t) : bool :=
  if HOLD_ON_OTHER_KEY_PRESS_PER_KEY then get_hold_on_other_key_press kc tk
  else HOLD_ON_OTHER_KEY_PRESS.

(** A release of a key pressed before tapping started is delayed when it
    would end a modifier or a layer. *)
Definition release_is_retained (action tap_count : Z) : bool :=
  let id := kind_id action in
  let code := key_code action in
  if (id =? ACT_LMODS) || (id =? ACT_RMODS) then
    (nz (key_mods action) && (code =? 0)) || IS_MODIFIER_KEYCODE code
  else if (id =? ACT_LMODS_TAP) || (id =? ACT_RMODS_TAP) then
    (nz (key_mods action) && (tap_count =? 0)) || IS_MODIFIER_KEYCODE code
  else if (id =? ACT_LAYER_TAP) || (id =? ACT_LAYER_TAP_EXT) then
    within 0 (OP_TAP_TOGGLE - 1) code || within OP_ON_OFF OP_SET_CLEAR code
  else false.

(** The tapping key is released before its term: a tap. *)
Definition first_tap (keyp : record_ref) : M bool :=
  set_tap_count TappingKey 1;;
  process_record_at TappingKey;;
  tk ← load TappingKey;
  set_tap keyp (fun _ => tap tk);;
  mret false.

Definition chord_is_tap (k : keypos_t) : M bool :=
  tk ← load TappingKey;
  set_tap_count TappingKey 1;;
  registered_taps_add (key (event tk));;
  process_record_at TappingKey;;
  put_tapping_key record_0;;
  waiting_buffer_chordal_hold_taps_until k;;
  mret false.

Definition permissive_hold (k : keypos_t) : M bool :=
  process_record_at TappingKey;;
  when CHORDAL_HOLD (
    first ← waiting_buffer_find_chordal_hold_tap;
    when (first <? WAITING_BUFFER_SIZE) (process_until 8 first);;
    waiting_buffer_chordal_hold_taps_until k);;
  put_tapping_key record_0;;
  mret false.

Definition release_before_tapping (keyp : record_ref) (e : keyevent_t) : M bool :=
  action ← layer_switch_get_action (key e);
  r ← load keyp;
  if release_is_retained action (count (tap r)) then mret false else
  process_record_at keyp;;
  mret true.

Definition hold_on_other_key : M unit :=
  process_record_at TappingKey;;
  (if CHORDAL_HOLD then
     tail ← get_tail;
     head ← get_head;
     is_tap ← (if tail =? head then mret false else is_tap_record_at (Slot tail));
     if (is_tap : bool) then
       r ← load (Slot tail);
       put_tapping_key r;;
       put_tail (next_slot tail)
     else put_tapping_key record_0
   else put_tapping_key record_0);;
  when CHORDAL_HOLD waiting_buffer_process_regular.

(** Another key goes down during the tapping term. *)
Definition other_key_pressed (keyp : record_ref) (kc : Z) : M unit :=
  set_tap TappingKey (fun t => t <| interrupted := true |>);;
  tk ← load TappingKey;
  r ← load keyp;
  other_kc ← keycode_at keyp;
  if CHORDAL_HOLD && is_mt_or_lt kc && negb (get_chordal_hold kc tk other_kc r) then
    set_tap TappingKey (fun t => t <| interrupted := false |>);;
    is_tap ← is_tap_record r;
    when (negb is_tap) (
      set_tap_count TappingKey 1;;
      registered_taps_add (key (event tk));;
      process_record_at TappingKey;;
      put_tapping_key record_0)
  else when (tap_hold_on_other_key_press kc tk) hold_on_other_key.

(** The tapping key is down, unsettled, within its term. *)
Definition tapping_unsettled (keyp : record_ref) (e : keyevent_t) : M bool :=
  tk ← load TappingKey;
  r ← load keyp;
  kc ← keycode_at TappingKey;
  other_kc ← keycode_at keyp;
  typed ← gets (fun k => waiting_buffer_typed e (tapping k));
  if is_tapping_record r tk && negb (pressed e) then first_tap keyp
  else if CHORDAL_HOLD && is_mt_or_lt kc && negb (pressed e) && typed
          && negb (get_chordal_hold kc tk other_kc r) then chord_is_tap (key e)
  else if negb (pressed e) && typed && tap_permissive_hold kc tk then permissive_hold (key e)
  else if negb (pressed e) && negb typed then release_before_tapping keyp e
  else
    when (pressed e) (other_key_pressed keyp kc);;
    mret false.

(** [process_record(&(keyrecord_t){... .event.pressed = false})] *)
Definition release_last_tap (tk : keyrecord_t) (e : keyevent_t) : M unit :=
  _ ← process_record 2 {|
    event := {| key := key (event tk); time := time e; type := type (event tk); pressed := false |};
    tap := tap tk;
    keycode := if COMBO_ENABLE then keycode tk else 0 |};
  skip.

(** The tapping key is down and was tapped; [after] is what becomes of it
    when it is released. *)
Definition tapping_tapped (keyp : record_ref) (e : keyevent_t) (after : keyrecord_t -> keyrecord_t)
  : M bool :=
  tk ← load TappingKey;
  r ← load keyp;
  is_tap ← is_tap_record r;
  if is_tapping_record r tk && negb (pressed e) then
    set_tap keyp (fun _ => tap tk);;
    process_record_at keyp;;
    r ← load keyp;
    put_tapping_key (after r);;
    mret true
  else if is_tap && pressed e then
    when (1 <? count (tap tk)) (release_last_tap tk e);;
    put_tapping_key r;;
    waiting_buffer_scan_tap;;
    mret true
  else process_record_at keyp;; mret true.

Definition tapping_pressed (keyp : record_ref) (e : keyevent_t) : M bool :=
  tk ← load TappingKey;
  within ← within_tapping_term e;
  if (within : bool) then
    if IS_NOEVENT e then mret true
    else if count (tap tk) =? 0 then tapping_unsettled keyp e
    else tapping_tapped keyp e (fun r => r)
  else if count (tap tk) =? 0 then
    process_record_at TappingKey;;
    put_tapping_key record_0;;
    mret false
  else if IS_NOEVENT e then mret true
  else tapping_tapped keyp e (fun _ => record_0).

Definition sequential_tap (keyp : record_ref) : M bool :=
  tk ← load TappingKey;
  set_tap keyp (fun _ => tap tk);;
  set_tap keyp (fun t => t <| count := if count t <? 15 then count t + 1 else count t |>);;
  process_record_at keyp;;
  r ← load keyp;
  put_tapping_key r;;
  mret true.

(** The tapping key is up. *)
Definition tapping_released (keyp : record_ref) (e : keyevent_t) : M bool :=
  tk ← load TappingKey;
  r ← load keyp;
  within ← within_tapping_term e;
  quick ← within_quick_tap_term e;
  is_tap ← is_tap_record r;
  if negb within then put_tapping_key record_0;; mret false
  else if IS_NOEVENT e then mret true
  else if negb (pressed e) then process_record_at keyp;; mret true
  else if is_tapping_record r tk then
    if quick && negb (interrupted (tap tk)) && (0 <? count (tap tk)) then sequential_tap keyp
    else put_tapping_key r;; mret true
  else if (is_tap : bool) then
    put_tapping_key r;;
    waiting_buffer_scan_tap;;
    mret true
  else
    set_tap TappingKey (fun t => t <| interrupted := true |>);;
    process_record_at keyp;;
    mret true.

(** No tapping key. *)
Definition tapping_idle (keyp : record_ref) (e : keyevent_t) : M bool :=
  if negb (IS_EVENT e) then mret true else
  r ← load keyp;
  is_tap ← is_tap_record r;
  (if pressed e && is_tap then
     put_tapping_key r;;
     process_record_tap_hint r;;
     waiting_buffer_scan_tap
   else process_record_at keyp);;
  mret true.

(** A key settled as tapped by Chordal Hold is released as a tap. *)
Definition mark_tap_release (keyp : record_ref) (e : keyevent_t) : M unit :=
  if pressed e then skip else
  i ← gets (fun k => registered_tap_find (key e) (tapping k));
  when (negb (i =? -1)) (
    set_tap_count keyp 1;;
    upd_tapping (registered_taps_del_index i)).

Definition process_tapping (keyp : record_ref) : M bool :=
  r ← load keyp;
  let e := event r in
  when CHORDAL_HOLD (mark_tap_release keyp e);;
  tk ← load TappingKey;
  if IS_NOEVENT (event tk) then tapping_idle keyp e
  else if pressed (event tk) then tapping_pressed keyp e
  else tapping_released keyp e.

(** The loop that drains the waiting buffer. *)
Fixpoint drain (fuel : nat) : M unit :=
  match fuel with
  | O => skip
  | S fuel =>
      tail ← get_tail;
      head ← get_head;
      if tail =? head then skip else
      done_ ← process_tapping (Slot tail);
      if (done_ : bool) then
        tail ← get_tail;
        put_tail (next_slot tail);;
        drain fuel
      else skip
  end.

Definition action_tapping_process (r : keyrecord_t) : M unit :=
  store_record Param r;;
  done_ ← process_tapping Param;
  (if (done_ : bool) then skip
   else
     r ← load Param;
     enqueued ← waiting_buffer_enq r;
     if (enqueued : bool) then skip
     else
       clear_keyboard;;
       waiting_buffer_clear;;
       put_tapping_key record_0);;
  drain 8.
End tapping.
