(* ===== verification/ActionUtilSpec.v ===== *)
(** * What a report carries, and when it is sent

    The functional specification of [get_mods_for_report] and of the report
    senders of ActionUtil.v, in terms of what the host has been sent. *)

From S2P Require Import Prelude.
From S2P Require Import Bitwise.
From S2P Require Import Keycodes.
From S2P Require Import Report.
From S2P Require Import State.
From S2P Require Import Host.
From S2P Require Import ActionUtil.

(** ** What the host shows

    The host keeps the last report of each kind; nothing is pressed before the
    first one.  Report IDs are transport, not content. *)

Definition keyboard_view : Type := Z * list Z.

Definition view_of_keyboard (r : report_keyboard_t) : keyboard_view := (kb_mods r, keys r).
Definition view_of_nkro (r : report_nkro_t) : keyboard_view := (nkro_mods r, bits r).

Definition see_keyboard (v : keyboard_view) (o : output) : keyboard_view :=
  match o with SendKeyboard r => view_of_keyboard r | _ => v end.
Definition see_nkro (v : keyboard_view) (o : output) : keyboard_view :=
  match o with SendNkro r => view_of_nkro r | _ => v end.

Definition keyboard_shown (h : host_state) : keyboard_view :=
  foldl see_keyboard (0, replicate KEYBOARD_REPORT_KEYS 0) (sent h).
Definition nkro_shown (h : host_state) : keyboard_view :=
  foldl see_nkro (0, replicate NKRO_REPORT_BITS 0) (sent h).

(** The last reports remembered are the ones the host shows. *)
Definition synced (k : keyboard) : Prop :=
  driver (host k) = true /\
  view_of_keyboard (last_report (mods k)) = keyboard_shown (host k) /\
  view_of_nkro (last_nkro_report (mods k)) = nkro_shown (host k).

Lemma keyboard_shown_emit o h :
  keyboard_shown (h <| sent := sent h ++ [o] |>) = see_keyboard (keyboard_shown h) o.
Proof. unfold keyboard_shown. cbn. by rewrite foldl_app. Qed.
Lemma nkro_shown_emit o h :
  nkro_shown (h <| sent := sent h ++ [o] |>) = see_nkro (nkro_shown h) o.
Proof. unfold nkro_shown. cbn. by rewrite foldl_app. Qed.

(** ** Assignments *)

Definition set_report (r : report_keyboard_t) (k : keyboard) : keyboard :=
  k <| rep := (rep k) <| keyboard_report := r |> |>.
Definition set_nkro_report (r : report_nkro_t) (k : keyboard) : keyboard :=
  k <| rep := (rep k) <| nkro_report := r |> |>.
Definition deliver (o : output) (k : keyboard) : keyboard :=
  k <| host := (host k) <| sent := sent (host k) ++ [o] |> |>.

(** The fields [set_report], [set_nkro_report] and [deliver] leave alone. *)
Ltac frame := repeat first
  [ progress change (mods (set_report ?r ?k)) with (mods k) | progress change (host (set_report ?r ?k)) with (host k)
  | progress change (mods (set_nkro_report ?r ?k)) with (mods k)
  | progress change (host (set_nkro_report ?r ?k)) with (host k)
  | progress change (mods (deliver ?o ?k)) with (mods k)
  | progress change (host (?k <| mods := ?m |>)) with (host k)
  | progress change (mods (?k <| mods := ?m |>)) with m
  | progress change (last_report (?m <| last_report := ?r |>)) with r
  | progress change (last_nkro_report (?m <| last_report := ?r |>)) with (last_nkro_report m)
  | progress change (last_report (?m <| last_nkro_report := ?r |>)) with (last_report m)
  | progress change (last_nkro_report (?m <| last_nkro_report := ?r |>)) with r
  | progress change (driver (host (deliver ?o ?k))) with (driver (host k))
  | progress change (sent (host (deliver ?o ?k))) with (sent (host k) ++ [o])
  | progress change (keyboard_shown (host (deliver ?o ?k)))
      with (keyboard_shown ((host k) <| sent := sent (host k) ++ [o] |>))
  | progress change (nkro_shown (host (deliver ?o ?k)))
      with (nkro_shown ((host k) <| sent := sent (host k) ++ [o] |>)) ].

Section report.
Context `{!Config}.

(** What the host shows of the report in use. *)
Definition shown (k : keyboard) : keyboard_view :=
  if nkro_active k then nkro_shown (host k) else keyboard_shown (host k).
Definition report_keys (k : keyboard) : list Z :=
  if nkro_active k then bits (nkro_report (rep k)) else keys (keyboard_report (rep k)).

(** ** The modifiers of a report *)

(** The one-shot modifiers count until they time out. *)
Definition live_oneshot_mods (k : keyboard) : Z :=
  if has_oneshot_mods_timed_out k then 0 else oneshot_mods (mods k).

(** Overrides apply on top of real, weak and one-shot modifiers. *)
Definition report_mods (k : keyboard) : Z :=
  let m := Z.lor (Z.lor (real_mods (mods k)) (weak_mods (mods k))) (live_oneshot_mods k) in
  if KEY_OVERRIDE_ENABLE
  then Z.lor (clear_bits m (suppressed_mods (mods k))) (weak_override_mods (mods k)) else m.

(** One-shot modifiers are used up by a report with a key, or time out. *)
Definition uses_oneshot (k : keyboard) : bool :=
  nz (oneshot_mods (mods k)) && (has_oneshot_mods_timed_out k || nz (any_key k)).

Definition after_oneshot (k : keyboard) : keyboard :=
  if uses_oneshot k then exec clear_oneshot_mods k else k.

Lemma clear_oneshot_mods_run k :
  oneshot_mods (mods k) <> 0 ->
  exec clear_oneshot_mods k =
    k <| mods := (mods k) <| oneshot_mods := 0 |>
                 <| oneshot_time := if 0 <? ONESHOT_TIMEOUT then 0 else oneshot_time (mods k) |> |>
      <| host := (host k) <| sent := sent (host k) ++ [OneshotModsChanged 0] |> |>.
Proof.
  intros Ho. unfold clear_oneshot_mods, get_oneshot_mods, exec. srun.
  apply nz_true in Ho. rewrite Ho. cbn [when].
  unfold put_oneshot_mods, set_oneshot_time, emit, upd_mods, upd_host. srun.
  destruct k as [? [] ? ? ? [] ? ? ?]. by destruct (0 <? ONESHOT_TIMEOUT).
Qed.

Lemma clear_oneshot_mods_none k :
  oneshot_mods (mods k) = 0 -> exec clear_oneshot_mods k = k.
Proof. intros Ho. unfold clear_oneshot_mods, get_oneshot_mods, exec. srun. by rewrite Ho. Qed.

Lemma get_mods_for_report_run k :
  get_mods_for_report k = (report_mods k, after_oneshot k).
Proof.
  unfold get_mods_for_report, get_mods, get_weak_mods, get_oneshot_mods.
  rewrite !run_gets. unfold report_mods, after_oneshot, uses_oneshot, live_oneshot_mods.
  destruct (nz (oneshot_mods (mods k))) eqn:Ho; cbn [andb].
  - apply nz_true in Ho. rewrite run_assoc, run_gets.
    destruct (has_oneshot_mods_timed_out k) eqn:Ht; cbn [when orb].
    + rewrite run_assoc, run_eval. set (k1 := exec clear_oneshot_mods k).
      assert (k1 = exec clear_oneshot_mods k) as Hk1 by done.
      rewrite clear_oneshot_mods_run in Hk1 by done. rewrite run_assoc, !run_gets.
      assert (oneshot_mods (mods k1) = 0) as Ho1 by by rewrite Hk1.
      rewrite Ho1. rewrite run_assoc, run_gets, run_assoc, run_eval.
      assert (exec (when (nz (any_key k1)) clear_oneshot_mods) k1 = k1) as ->.
      { destruct (nz (any_key k1)); [by apply clear_oneshot_mods_none|done]. }
      srun. rewrite Hk1. cbn. reflexivity.
    + rewrite run_assoc, run_skip, run_assoc, run_gets, run_assoc, run_gets, run_assoc, run_eval.
      destruct (nz (any_key k)); cbn [when].
      * srun. rewrite clear_oneshot_mods_run by done. cbn. reflexivity.
      * reflexivity.
  - apply nz_false in Ho. srun. rewrite Ho. destruct (has_oneshot_mods_timed_out k); by rewrite Z.lor_0_r.
Qed.

(** What consuming the one-shot modifiers leaves alone. *)
Lemma after_oneshot_frame k :
  let k' := after_oneshot k in
  rep k' = rep k /\ layers k' = layers k /\ hands k' = hands k /\ tapping k' = tapping k /\
  keymap_config k' = keymap_config k /\ keyboard_protocol k' = keyboard_protocol k /\
  now k' = now k /\ driver (host k') = driver (host k) /\
  real_mods (mods k') = real_mods (mods k) /\ weak_mods (mods k') = weak_mods (mods k) /\
  oneshot_locked_mods (mods k') = oneshot_locked_mods (mods k) /\
  weak_override_mods (mods k') = weak_override_mods (mods k) /\
  suppressed_mods (mods k') = suppressed_mods (mods k) /\
  last_report (mods k') = last_report (mods k) /\
  last_nkro_report (mods k') = last_nkro_report (mods k) /\
  oneshot_mods (mods k') = (if uses_oneshot k then 0 else oneshot_mods (mods k)) /\
  sent (host k') = sent (host k) ++ (if uses_oneshot k then [OneshotModsChanged 0] else []).
Proof.
  cbv zeta. unfold after_oneshot. destruct (uses_oneshot k) eqn:Hu.
  - rewrite clear_oneshot_mods_run; [done|].
    unfold uses_oneshot in Hu. apply andb_prop in Hu as [Hu _]. by apply nz_true.
  - by rewrite app_nil_r.
Qed.

#[local] Arguments after_oneshot : simpl never.
#[local] Arguments report_mods : simpl never.
#[local] Arguments keyboard_shown : simpl never.
#[local] Arguments nkro_shown : simpl never.

(** ** Sending *)

Definition next_report (k : keyboard) : report_keyboard_t :=
  (keyboard_report (rep k)) <| kb_mods := report_mods k |>.
Definition next_nkro_report (k : keyboard) : report_nkro_t :=
  (nkro_report (rep k)) <| nkro_mods := report_mods k |>.

(** The report with the ID the driver sends it under. *)
Definition stamp (r : report_keyboard_t) : report_keyboard_t :=
  if KEYBOARD_SHARED_EP then r <| kb_report_id := REPORT_ID_KEYBOARD |> else r.
Definition stamp_nkro (r : report_nkro_t) : report_nkro_t :=
  r <| nkro_report_id := REPORT_ID_NKRO |>.

Lemma send_6kro_report_run k :
  driver (host k) = true ->
  exec send_6kro_report k =
    let k1 := set_report (next_report k) (after_oneshot k) in
    if decide (next_report k = last_report (mods k)) then k1
    else deliver (SendKeyboard (stamp (next_report k)))
           (set_report (stamp (next_report k))
             (k1 <| mods := (mods k1) <| last_report := next_report k |> |>)).
Proof.
  intros Hd. pose proof (after_oneshot_frame k) as (Hr & _ & _ & _ & _ & _ & _ & Hd' & _ & _ & _ & _ & _ & Hl & _).
  unfold send_6kro_report, exec. rewrite (run_bind _ _ _ _ _ (get_mods_for_report_run k)).
  set (k1 := after_oneshot k) in *. cbv zeta. unfold upd_rep at 1. rewrite run_modify.
  assert (k1 <| rep := (rep k1) <| keyboard_report := (keyboard_report (rep k1)) <| kb_mods := report_mods k |> |> |>
    = set_report (next_report k) k1) as -> by (unfold set_report, next_report; by rewrite Hr).
  rewrite !run_gets. change (keyboard_report (rep (set_report (next_report k) k1))) with (next_report k).
  change (last_report (mods (set_report (next_report k) k1))) with (last_report (mods k1)). rewrite Hl.
  case_decide; [done|].
  unfold upd_mods, host_keyboard_send, emit, upd_host. srun.
  change (driver (host _)) with (driver (host k1)). rewrite Hd', Hd. cbn [negb]. srun.
  unfold put_keyboard_report, upd_rep, stamp. by destruct KEYBOARD_SHARED_EP.
Qed.

Lemma send_nkro_report_run k :
  driver (host k) = true ->
  exec send_nkro_report k =
    let k1 := set_nkro_report (next_nkro_report k) (after_oneshot k) in
    if decide (next_nkro_report k = last_nkro_report (mods k)) then k1
    else deliver (SendNkro (stamp_nkro (next_nkro_report k)))
           (set_nkro_report (stamp_nkro (next_nkro_report k))
             (k1 <| mods := (mods k1) <| last_nkro_report := next_nkro_report k |> |>)).
Proof.
  intros Hd. pose proof (after_oneshot_frame k) as (Hr & _ & _ & _ & _ & _ & _ & Hd' & _ & _ & _ & _ & _ & _ & Hl & _).
  unfold send_nkro_report, exec. rewrite (run_bind _ _ _ _ _ (get_mods_for_report_run k)).
  set (k1 := after_oneshot k) in *. cbv zeta. unfold upd_rep at 1. rewrite run_modify.
  assert (k1 <| rep := (rep k1) <| nkro_report := (nkro_report (rep k1)) <| nkro_mods := report_mods k |> |> |>
    = set_nkro_report (next_nkro_report k) k1) as -> by (unfold set_nkro_report, next_nkro_report; by rewrite Hr).
  rewrite !run_gets. change (nkro_report (rep (set_nkro_report (next_nkro_report k) k1))) with (next_nkro_report k).
  change (last_nkro_report (mods (set_nkro_report (next_nkro_report k) k1))) with (last_nkro_report (mods k1)). rewrite Hl.
  case_decide; [done|].
  unfold upd_mods, host_nkro_send, emit, upd_host. srun.
  change (driver (host _)) with (driver (host k1)). rewrite Hd', Hd. cbn [negb]. srun.
  unfold put_nkro_report, upd_rep. done.
Qed.

(** The state a report goes out in is otherwise the state before. *)
Record report_sent (k k' : keyboard) : Prop := {
  sent_synced : synced k';
  sent_shown : shown k' = (report_mods k, report_keys k);
  sent_keys : report_keys k' = report_keys k;
  sent_oneshot : oneshot_mods (mods k') = if uses_oneshot k then 0 else oneshot_mods (mods k);
  sent_real : real_mods (mods k') = real_mods (mods k);
  sent_weak : weak_mods (mods k') = weak_mods (mods k);
  sent_locked : oneshot_locked_mods (mods k') = oneshot_locked_mods (mods k);
  sent_override : weak_override_mods (mods k') = weak_override_mods (mods k);
  sent_suppressed : suppressed_mods (mods k') = suppressed_mods (mods k);
  sent_ok : reports_ok (rep k) -> reports_ok (rep k');
  sent_layers : layers k' = layers k;
  sent_hands : hands k' = hands k;
  sent_tapping : tapping k' = tapping k;
  sent_config : keymap_config k' = keymap_config k;
  sent_protocol : keyboard_protocol k' = keyboard_protocol k;
  sent_outputs : exists os,
    sent (host k') = sent (host k) ++ (if uses_oneshot k then [OneshotModsChanged 0] else []) ++ os /\
    (length os <= 1)%nat;
}.

Lemma shown_after_oneshot k :
  keyboard_shown (host (after_oneshot k)) = keyboard_shown (host k) /\
  nkro_shown (host (after_oneshot k)) = nkro_shown (host k).
Proof.
  pose proof (after_oneshot_frame k) as (_ & _ & _ & _ & _ & _ & _ & _ & _ & _ & _ & _ & _ & _ & _ & _ & Hs).
  unfold keyboard_shown, nkro_shown. rewrite Hs.
  destruct (uses_oneshot k); by rewrite ?app_nil_r, ?foldl_app.
Qed.

Lemma reports_ok_keyboard r0 r :
  keys r = keys (keyboard_report r0) -> reports_ok r0 -> reports_ok (r0 <| keyboard_report := r |>).
Proof. intros Hk [[Hl Hs] Hn]. destruct r0. split; [|done]. split; [|done]. cbn in *. congruence. Qed.
Lemma reports_ok_nkro r0 r :
  bits r = bits (nkro_report r0) -> reports_ok r0 -> reports_ok (r0 <| nkro_report := r |>).
Proof. intros Hk [Hr [Hl Hs]]. destruct r0. split; [done|]. unfold nkro_ok. cbn in *. by rewrite Hk. Qed.

Lemma send_6kro_report_sent k :
  nkro_active k = false -> synced k -> report_sent k (exec send_6kro_report k).
Proof.
  intros Hn (Hd & Hk & Hb). rewrite send_6kro_report_run by done. cbv zeta.
  destruct (after_oneshot_frame k) as (Hr & Hla & Hh & Ht & Hc & Hp & _ & Hd' & Hrm & Hw & Hlm & Hwo & Hsu & Hl & Hln & Ho & Hs).
  destruct (shown_after_oneshot k) as [Hsk Hsn].
  assert (forall r k', rep k' = (rep (after_oneshot k)) <| keyboard_report := r |> ->
    keys r = keys (keyboard_report (rep k)) -> keymap_config k' = keymap_config k ->
    keyboard_protocol k' = keyboard_protocol k -> report_keys k' = report_keys k /\
    shown k' = keyboard_shown (host k')) as Hkeys.
  { intros r k' Hr' Hrk Hc' Hp'. unfold report_keys, shown, nkro_active in *.
    rewrite Hc', Hp', Hn, Hr'. done. }
  unfold stamp. case_decide as Heq.
  - destruct (Hkeys (next_report k) (set_report (next_report k) (after_oneshot k))) as [Hks Hshow]; [done..|].
    split; try (exact Hks || done); [|rewrite Hshow| |exists []; rewrite app_nil_r; split; [done|cbn; lia]].
    + split; [by rewrite <-Hd|]. frame. by rewrite Hl, Hln, Hsk, Hsn.
    + frame. rewrite Hsk, <-Hk, <-Heq. unfold report_keys. by rewrite Hn.
    + rewrite <-Hr. apply (reports_ok_keyboard (rep (after_oneshot k))). by rewrite Hr.
  - edestruct (Hkeys (stamp (next_report k))) as [Hks Hshow]; cycle 4.
    + split; try (exact Hks || done); [|rewrite Hshow| |].
      * split; [by rewrite <-Hd|]. frame. rewrite keyboard_shown_emit, nkro_shown_emit.
        frame. rewrite Hln, Hsn. split; [|done]. by destruct KEYBOARD_SHARED_EP.
      * frame. rewrite keyboard_shown_emit. unfold report_keys. rewrite Hn.
        by destruct KEYBOARD_SHARED_EP.
      * rewrite <-Hr. apply (reports_ok_keyboard (rep (after_oneshot k))). rewrite Hr. unfold stamp. by destruct KEYBOARD_SHARED_EP.
      * eexists [_]. frame. rewrite Hs, <-app_assoc. by split.
    + done.
    + unfold stamp. by destruct KEYBOARD_SHARED_EP.
    + done.
    + done.
Qed.

Lemma send_nkro_report_sent k :
  nkro_active k = true -> synced k -> report_sent k (exec send_nkro_report k).
Proof.
  intros Hn (Hd & Hk & Hb). rewrite send_nkro_report_run by done. cbv zeta.
  destruct (after_oneshot_frame k) as (Hr & Hla & Hh & Ht & Hc & Hp & _ & Hd' & Hrm & Hw & Hlm & Hwo & Hsu & Hl & Hln & Ho & Hs).
  destruct (shown_after_oneshot k) as [Hsk Hsn].
  assert (forall r k', rep k' = (rep (after_oneshot k)) <| nkro_report := r |> ->
    bits r = bits (nkro_report (rep k)) -> keymap_config k' = keymap_config k ->
    keyboard_protocol k' = keyboard_protocol k -> report_keys k' = report_keys k /\
    shown k' = nkro_shown (host k')) as Hkeys.
  { intros r k' Hr' Hrk Hc' Hp'. unfold report_keys, shown, nkro_active in *.
    rewrite Hc', Hp', Hn, Hr'. done. }
  case_decide as Heq.
  - destruct (Hkeys (next_nkro_report k) (set_nkro_report (next_nkro_report k) (after_oneshot k))) as [Hks Hshow]; [done..|].
    split; try (exact Hks || done); [|rewrite Hshow| |exists []; rewrite app_nil_r; split; [done|cbn; lia]].
    + split; [by rewrite <-Hd|]. frame. by rewrite Hl, Hln, Hsk, Hsn.
    + frame. rewrite Hsn, <-Hb, <-Heq. unfold report_keys. by rewrite Hn.
    + rewrite <-Hr. apply (reports_ok_nkro (rep (after_oneshot k))). by rewrite Hr.
  - edestruct (Hkeys (stamp_nkro (next_nkro_report k))) as [Hks Hshow]; cycle 4.
    + split; try (exact Hks || done); [|rewrite Hshow| |].
      * split; [by rewrite <-Hd|]. frame. rewrite keyboard_shown_emit, nkro_shown_emit.
        frame. by rewrite Hl, Hsk.
      * frame. rewrite nkro_shown_emit. unfold report_keys. by rewrite Hn.
      * rewrite <-Hr. apply (reports_ok_nkro (rep (after_oneshot k))). by rewrite Hr.
      * eexists [_]. frame. rewrite Hs, <-app_assoc. by split.
    + done.
    + done.
    + done.
    + done.
Qed.


Lemma send_report_sent k : synced k -> report_sent k (exec send_keyboard_report k).
Proof.
  intros Hk. unfold send_keyboard_report, exec. rewrite run_gets.
  destruct (nkro_active k) eqn:Hn;
    [by apply send_nkro_report_sent|by apply send_6kro_report_sent].
Qed.

(** C6: with a driver connected, sending a report leaves the host showing the
    real, weak and live one-shot modifiers (less the suppressed ones, plus the
    override ones) and exactly the keys of the report in use.  One-shot
    modifiers are used up exactly when the report has a key or they timed out.
    At most one report goes out, and the other modifiers stay. *)
Theorem send_keyboard_report_spec k :
  synced k ->
  let k' := exec send_keyboard_report k in
  synced k' /\ shown k' = (report_mods k, report_keys k) /\ report_keys k' = report_keys k /\
  oneshot_mods (mods k') = (if uses_oneshot k then 0 else oneshot_mods (mods k)) /\
  real_mods (mods k') = real_mods (mods k) /\ weak_mods (mods k') = weak_mods (mods k) /\
  exists os, (length os <= 1)%nat /\
    sent (host k') = sent (host k) ++ (if uses_oneshot k then [OneshotModsChanged 0] else []) ++ os.
Proof.
  intros Hk k'. destruct (send_report_sent k Hk). naive_solver.
Qed.

(** ** Sending again *)

(** The report in use carries the ID the host sends it under. *)
Definition stamped (k : keyboard) : Prop :=
  if nkro_active k then stamp_nkro (nkro_report (rep k)) = nkro_report (rep k)
  else stamp (keyboard_report (rep k)) = keyboard_report (rep k).

Lemma after_oneshot_none k : uses_oneshot k = false -> after_oneshot k = k.
Proof. unfold after_oneshot. by intros ->. Qed.

Lemma stamp_mods r m : stamp (r <| kb_mods := m |>) = (stamp r) <| kb_mods := m |>.
Proof. unfold stamp. by destruct KEYBOARD_SHARED_EP. Qed.
Lemma stamp_nkro_mods r m : stamp_nkro (r <| nkro_mods := m |>) = (stamp_nkro r) <| nkro_mods := m |>.
Proof. done. Qed.

Lemma set_report_same k : set_report (keyboard_report (rep k)) k = k.
Proof. destruct k as [[]]. done. Qed.
Lemma set_nkro_report_same k : set_nkro_report (nkro_report (rep k)) k = k.
Proof. destruct k as [[]]. done. Qed.

(** A report that was just sent: it is the one remembered. *)
Lemma send_6kro_again k :
  driver (host k) = true -> uses_oneshot k = false ->
  next_report k = keyboard_report (rep k) -> last_report (mods k) = keyboard_report (rep k) ->
  exec send_6kro_report k = k.
Proof.
  intros Hd Ho Hn Hl. rewrite send_6kro_report_run, after_oneshot_none, decide_True by congruence.
  cbv zeta. by rewrite Hn, set_report_same.
Qed.

Lemma send_nkro_again k :
  driver (host k) = true -> uses_oneshot k = false ->
  next_nkro_report k = nkro_report (rep k) -> last_nkro_report (mods k) = nkro_report (rep k) ->
  exec send_nkro_report k = k.
Proof.
  intros Hd Ho Hn Hl. rewrite send_nkro_report_run, after_oneshot_none, decide_True by congruence.
  cbv zeta. by rewrite Hn, set_nkro_report_same.
Qed.

Lemma send_keyboard_report_nkro k :
  nkro_active k = true -> exec send_keyboard_report k = exec send_nkro_report k.
Proof. intros Hn. unfold send_keyboard_report, exec. by rewrite run_gets, Hn. Qed.
Lemma send_keyboard_report_6kro k :
  nkro_active k = false -> exec send_keyboard_report k = exec send_6kro_report k.
Proof. intros Hn. unfold send_keyboard_report, exec. by rewrite run_gets, Hn. Qed.

(** A report that has not changed is not sent again: once the report
    carries its ID, sending it twice in a row is sending it once. *)
Theorem resend_is_silent k :
  driver (host k) = true -> stamped k -> uses_oneshot k = false ->
  let k' := exec send_keyboard_report k in exec send_keyboard_report k' = k'.
Proof.
  intros Hd Hst Ho k'. subst k'. unfold stamped in Hst.
  destruct (nkro_active k) eqn:Hn.
  - rewrite (send_keyboard_report_nkro k) by done.
    assert (stamp_nkro (next_nkro_report k) = next_nkro_report k) as Hs
      by (unfold next_nkro_report; by rewrite stamp_nkro_mods, Hst).
    rewrite send_nkro_report_run, after_oneshot_none, Hs by done. cbv zeta.
    case_decide as Heq; rewrite send_keyboard_report_nkro by exact Hn; apply send_nkro_again; try done.
  - rewrite (send_keyboard_report_6kro k) by done.
    assert (stamp (next_report k) = next_report k) as Hs
      by (unfold next_report; by rewrite stamp_mods, Hst).
    rewrite send_6kro_report_run, after_oneshot_none, Hs by done. cbv zeta.
    case_decide as Heq; rewrite send_keyboard_report_6kro by exact Hn; apply send_6kro_again; try done.
Qed.

(** The NKRO report gets its ID after it was remembered: the first report
    that changes is sent again, unchanged, by the next send. *)
Theorem first_nkro_report_sent_twice k :
  nkro_active k = true -> driver (host k) = true -> uses_oneshot k = false ->
  nkro_report_id (nkro_report (rep k)) <> REPORT_ID_NKRO ->
  next_nkro_report k <> last_nkro_report (mods k) ->
  let r := stamp_nkro (next_nkro_report k) in
  sent (host (exec send_keyboard_report (exec send_keyboard_report k))) =
    sent (host k) ++ [SendNkro r; SendNkro r].
Proof.
  intros Hn Hd Ho Hid Hneq r. subst r. rewrite (send_keyboard_report_nkro k) by done.
  rewrite send_nkro_report_run, after_oneshot_none by done. cbv zeta. rewrite decide_False by done.
  set (k1 := deliver _ _).
  assert (next_nkro_report k1 = stamp_nkro (next_nkro_report k)) as Hnext by done.
  rewrite send_keyboard_report_nkro by exact Hn.
  rewrite send_nkro_report_run, after_oneshot_none, Hnext by done. cbv zeta.
  rewrite decide_False.
  - frame. subst k1. frame. by rewrite <-app_assoc.
  - subst k1. frame. intros E. apply Hid. symmetry. exact (f_equal nkro_report_id E).
Qed.

End report.
