(* ===== verification/KeymapSpec.v ===== *)
(** * What the keycodes mean

    The action each family of keycodes decodes to, down to its fields, and the
    remapping of modifiers by the magic settings. *)

From S2P Require Import Prelude.
From S2P Require Import Bitwise.
From S2P Require Import Keycodes.
From S2P Require Import Report.
From S2P Require Import State.
From S2P Require Import Host.
From S2P Require Import ActionUtil.
From S2P Require Import ActionCode.
From S2P Require Import Keymap.
From S2P Require Import ActionLayer.
From S2P Require Import Oneshot.
From S2P Require Import Action.
From S2P Require Import ActionUtilSpec.

(** ** Ranges of keycodes *)

Lemma within_true lo hi x : lo <= x <= hi -> within lo hi x = true.
Proof. intros. unfold within. by rewrite !(proj2 (Z.leb_le _ _)) by lia. Qed.
Lemma within_false lo hi x : x < lo \/ hi < x -> within lo hi x = false.
Proof.
  intros [H|H]; unfold within; [by rewrite (proj2 (Z.leb_gt _ _) H)|].
  by rewrite (proj2 (Z.leb_gt _ _) H), andb_false_r.
Qed.

(** Decides the range tests and comparisons of a keycode known to lie in a
    range. *)
Ltac decide_ranges :=
  repeat match goal with
  | |- context [within ?a ?b ?x] =>
      let a' := eval vm_compute in a in
      let b' := eval vm_compute in b in
      first [ replace (within a b x) with true
                by (symmetry; change a with a'; change b with b'; apply within_true; lia)
            | replace (within a b x) with false
                by (symmetry; change a with a'; change b with b'; apply within_false; lia) ]
  | |- context [?x =? ?c] =>
      is_var x;
      let c' := eval vm_compute in c in
      replace (x =? c) with false by (symmetry; change c with c'; apply Z.eqb_neq; lia)
  end; rewrite ?andb_false_r, ?andb_true_r; cbn [orb andb].

(** The magic settings concern basic keycodes only. *)
Lemma keycode_config_high c kc : 0x100 <= kc -> keycode_config c kc = kc.
Proof. intros Hk. unfold keycode_config. decide_ranges. done. Qed.

Section decode.
Context `{!Config} `{!Hooks}.

Ltac decode := intros; unfold action_for_keycode; cbv zeta; rewrite keycode_config_high by lia;
  unfold IS_BASIC_KEYCODE, IS_MODIFIER_KEYCODE, IS_SYSTEM_KEYCODE, IS_CONSUMER_KEYCODE,
    IS_MOUSE_KEYCODE; decide_ranges; try reflexivity.

Lemma decode_to c kc : 0x5200 <= kc <= 0x521F ->
  action_for_keycode c kc = ACTION_LAYER_GOTO (QK_TO_GET_LAYER kc).
Proof. decode. Qed.
Lemma decode_momentary c kc : 0x5220 <= kc <= 0x523F ->
  action_for_keycode c kc = ACTION_LAYER_MOMENTARY (QK_MOMENTARY_GET_LAYER kc).
Proof. decode. Qed.
Lemma decode_def_layer c kc : 0x5240 <= kc <= 0x525F ->
  action_for_keycode c kc = ACTION_DEFAULT_LAYER_SET (QK_DEF_LAYER_GET_LAYER kc).
Proof. decode. Qed.
Lemma decode_toggle c kc : 0x5260 <= kc <= 0x527F ->
  action_for_keycode c kc = ACTION_LAYER_TOGGLE (QK_TOGGLE_LAYER_GET_LAYER kc).
Proof. decode. Qed.
Lemma decode_one_shot_layer c kc : 0x5280 <= kc <= 0x529F ->
  action_for_keycode c kc = ACTION_LAYER_ONESHOT (QK_ONE_SHOT_LAYER_GET_LAYER kc).
Proof. decode. Qed.
Lemma decode_one_shot_mod c kc : 0x52A0 <= kc <= 0x52BF ->
  action_for_keycode c kc = ACTION_MODS_ONESHOT (mod_config c (QK_ONE_SHOT_MOD_GET_MODS kc)).
Proof. decode. Qed.
Lemma decode_layer_tap_toggle c kc : 0x52C0 <= kc <= 0x52DF ->
  action_for_keycode c kc = ACTION_LAYER_TAP_TOGGLE (QK_LAYER_TAP_TOGGLE_GET_LAYER kc).
Proof. decode. Qed.
Lemma decode_layer_mod c kc : 0x5000 <= kc <= 0x51FF ->
  action_for_keycode c kc =
    let m := mod_config c (QK_LAYER_MOD_GET_MODS kc) in
    ACTION_LAYER_MODS (QK_LAYER_MOD_GET_LAYER kc) (if nz (Z.land m 0x10) then Z.shiftl m 4 else m).
Proof. decode. Qed.
Lemma decode_layer_tap c kc : 0x4000 <= kc <= 0x4FFF ->
  action_for_keycode c kc =
    ACTION_LAYER_TAP_KEY (QK_LAYER_TAP_GET_LAYER kc) (config_basic c (QK_LAYER_TAP_GET_TAP_KEYCODE kc)).
Proof. decode. Qed.
Lemma decode_mod_tap c kc : 0x2000 <= kc <= 0x3FFF ->
  action_for_keycode c kc =
    ACTION_MODS_TAP_KEY (mod_config c (QK_MOD_TAP_GET_MODS kc))
      (config_basic c (QK_MOD_TAP_GET_TAP_KEYCODE kc)).
Proof. decode. Qed.
Lemma decode_mods c kc : 0x100 <= kc <= 0x1FFF -> LEGACY_MAGIC_HANDLING = false ->
  action_for_keycode c kc =
    ACTION_MODS_KEY (mod_config c (QK_MODS_GET_MODS kc)) (keycode_config c (QK_MODS_GET_BASIC_KEYCODE kc)).
Proof. intros H' E. revert H'. decode. by rewrite E. Qed.

End decode.

(** ** The fields of an action *)

(** The 8-bit modifiers that 5 packed bits stand for: bit 4 is the right hand. *)
Definition expand_mods (m : Z) : Z :=
  if Z.testbit m 4 then Z.shiftl (Z.land m 0xf) 4 else Z.land m 0xf.
Definition right_handed (m : Z) : bool := Z.testbit m 4.

(** A bit operation on the bit of one layer; [ACTION_LAYER_GOTO],
    [ACTION_LAYER_TOGGLE] and [ACTION_DEFAULT_LAYER_SET] are of this form. *)
Lemma layer_bitop_fields op on l : 0 <= op < 4 -> 0 <= on < 4 -> 0 <= l < 32 ->
  let a := ACTION_LAYER_BITOP op (l / 4) (Z.shiftl 1 (l mod 4)) on in
  kind_id a = ACT_LAYER /\ layer_bitop_on a = on /\ layer_bitop_op a = op /\
  layer_bitop_xbit a = false /\ Z.shiftl (layer_bitop_bits a) (layer_bitop_part a * 4) = bit l.
Proof.
  intros Hop Hon Hl a. pose (P op := all_below 4 (fun on => all_below 32 (fun l =>
    let a := ACTION_LAYER_BITOP op (l / 4) (Z.shiftl 1 (l mod 4)) on in
    (kind_id a =? ACT_LAYER) && (layer_bitop_on a =? on) && (layer_bitop_op a =? op)
    && negb (layer_bitop_xbit a)
    && (Z.shiftl (layer_bitop_bits a) (layer_bitop_part a * 4) =? bit l)))).
  assert (P op = true) as H by (apply (all_below_spec 4); [vm_compute|]; done).
  apply (all_below_spec 4 _ on) in H; [|done]. apply (all_below_spec 32 _ l) in H; [|done].
  rewrite !andb_true_iff, negb_true_iff, !Z.eqb_eq in H. naive_solver.
Qed.

(** The kinds [ACT_LAYER_TAP] and [ACT_LAYER_TAP_EXT] share the fifth bit of
    the layer. *)
Lemma layer_tap_fields l code : 0 <= l < 32 -> 0 <= code < 256 ->
  let a := ACTION_LAYER_TAP l code in
  (kind_id a = ACT_LAYER_TAP \/ kind_id a = ACT_LAYER_TAP_EXT) /\
  layer_tap_val a = l /\ layer_tap_code a = code.
Proof.
  intros Hl Hc a. pose (P l := all_below 256 (fun code => let a := ACTION_LAYER_TAP l code in
    ((kind_id a =? ACT_LAYER_TAP) || (kind_id a =? ACT_LAYER_TAP_EXT))
    && (layer_tap_val a =? l) && (layer_tap_code a =? code))).
  assert (P l = true) as H by (apply (all_below_spec 32); [vm_compute|]; done).
  apply (all_below_spec 256 _ code) in H; [|done].
  rewrite !andb_true_iff, orb_true_iff, !Z.eqb_eq in H. naive_solver.
Qed.

Lemma layer_mods_fields l m : 0 <= l < 16 -> 0 <= m < 32 ->
  let a := ACTION_LAYER_MODS l (if nz (Z.land m 0x10) then Z.shiftl m 4 else m) in
  kind_id a = ACT_LAYER_MODS /\ layer_mods_mods a = expand_mods m /\
  layer_mods_layer a = if right_handed m then Z.lor l 1 else l.
Proof.
  intros Hl Hm a. pose (P l := all_below 32 (fun m =>
    let a := ACTION_LAYER_MODS l (if nz (Z.land m 0x10) then Z.shiftl m 4 else m) in
    (kind_id a =? ACT_LAYER_MODS) && (layer_mods_mods a =? expand_mods m)
    && (layer_mods_layer a =? if right_handed m then Z.lor l 1 else l))).
  assert (P l = true) as H by (apply (all_below_spec 16); [vm_compute|]; done).
  apply (all_below_spec 32 _ m) in H; [|done].
  rewrite !andb_true_iff, !Z.eqb_eq in H. naive_solver.
Qed.

(** ** The magic settings and modifiers *)

(** The 5 packed bits of a modifier keycode. *)
Definition packed_mod (kc : Z) : Z :=
  if kc =? KC_NO then 0
  else let i := kc - KC_LEFT_CTRL in if i <? 4 then bit i else Z.lor 0x10 (bit (i - 4)).

(** The modifiers of mod-taps and composed keycodes are remapped like the
    modifier keys themselves, as long as no two swaps of one side are combined,
    GUI is not disabled and Control is not swapped with Caps Lock. *)
Theorem mod_config_agrees c i :
  0 <= i < 8 -> no_gui c = false -> swap_control_capslock c = false ->
  swap_lalt_lgui c && swap_lctl_lgui c = false -> swap_ralt_rgui c && swap_rctl_rgui c = false ->
  mod_config c (packed_mod (KC_LEFT_CTRL + i)) = packed_mod (keycode_config c (KC_LEFT_CTRL + i)).
Proof.
  intros Hi Hg Hc. unfold mod_config, keycode_config. rewrite Hg, Hc.
  assert (i = 0 \/ i = 1 \/ i = 2 \/ i = 3 \/ i = 4 \/ i = 5 \/ i = 6 \/ i = 7) as Hcase by lia.
  destruct (swap_lalt_lgui c), (swap_lctl_lgui c), (swap_ralt_rgui c), (swap_rctl_rgui c);
    cbn [andb]; try done; intros _ _; naive_solver.
Qed.

(** Disabling GUI clears the bit of the right hand together with the GUI
    bit: every right modifier of a mod-tap, one-shot or composed keycode turns
    into its left counterpart. *)
Theorem no_gui_loses_right_hand c m :
  no_gui c = true -> 0 <= m < 32 ->
  right_handed (mod_config c m) = false /\ Z.testbit (mod_config c m) 3 = false.
Proof.
  intros Hg Hm. unfold mod_config. rewrite Hg. unfold right_handed.
  by rewrite !testbit_clear by done; change (Z.testbit MOD_RGUI 4) with true;
    change (Z.testbit MOD_RGUI 3) with true; rewrite !andb_false_r.
Qed.

Definition mods_key_check (m : Z) : bool :=
  all_below 256 (fun kc => forallb (fun left =>
    let a := ACTION left (Z.lor (Z.shiftl (Z.land m 0x1f) 8) kc) in
    (kind_id a =? if right_handed m then left + 1 else left)
    && ((if kind_id a =? left then key_mods a else u8 (Z.shiftl (key_mods a) 4)) =? expand_mods m)
    && (key_code a =? kc) && (layer_tap_code a =? kc)) [ACT_LMODS; ACT_LMODS_TAP]).

Lemma mods_key_checked : all_below 32 mods_key_check = true.
Proof. vm_compute. reflexivity. Qed.

(** The modifiers of a key are split between the kind, for the hand, and the
    four bits of the field. *)
Lemma mods_key_fields m kc left : 0 <= m < 32 -> 0 <= kc < 256 -> left = ACT_LMODS \/ left = ACT_LMODS_TAP ->
  let a := ACTION left (Z.lor (Z.shiftl (Z.land m 0x1f) 8) kc) in
  kind_id a = (if right_handed m then left + 1 else left) /\
  (if kind_id a =? left then key_mods a else u8 (Z.shiftl (key_mods a) 4)) = expand_mods m /\
  key_code a = kc /\ layer_tap_code a = kc.
Proof.
  intros Hm Hkc Hleft a. pose proof (all_below_spec 32 mods_key_check m mods_key_checked Hm) as H.
  apply (all_below_spec 256 _ kc) in H; [|exact Hkc]. cbn [forallb] in H.
  rewrite !andb_true_iff, !Z.eqb_eq in H. subst a.
  destruct Hleft as [->| ->]; [destruct H as [H _]|destruct H as [_ [H _]]];
    by destruct H as [[[? ?] ?] ?].
Qed.

(** ** What the actions do

    The effect of the layer keycodes and of the tap-hold keycodes, from the
    keycode down to the layer and modifier operations. *)

(** A keycode in the 32 keycodes from [base]. *)
Lemma keycode_field base l : base mod 32 = 0 -> 0 <= base -> 0 <= l < 32 ->
  base <= Z.lor base (Z.land l 0x1F) <= base + 31 /\ Z.land (Z.lor base (Z.land l 0x1F)) 0x1F = l.
Proof.
  intros Hb H0 Hl. assert (forall z, Z.land z 0x1F = z mod 32) as Hland
    by (intros z; exact (Z.land_ones z 5 ltac:(done))).
  rewrite !Hland, (Z.mod_small l), (lor_add 5) by (done || lia). split; [lia|].
  rewrite Z.add_comm, <-Zplus_mod_idemp_r. rewrite Hb, Z.add_0_r. by apply Z.mod_small.
Qed.

Section actions.
Context `{!Config} `{!Hooks}.
Abbreviation M := (stm keyboard).

Definition on_press_release (r : keyrecord_t) (down up : M unit) (d : bool) : M (keyrecord_t * bool) :=
  (if pressed (event r) then down else up);; mret (r, d).

(** ** Layer keys *)

Lemma run_layer_bitop r op on l d k : 0 <= op < 4 -> 0 <= on < 4 -> 0 <= l < 32 ->
  let a := ACTION_LAYER_BITOP op (l / 4) (Z.shiftl 1 (l mod 4)) on in
  run_action r a d k =
    (action_layer (event r) a;; mret (r, d)) k /\ layer_bitop_operand a = layer_bit l /\
    layer_bitop_on a = on /\ layer_bitop_op a = op.
Proof.
  intros Hop Hon Hl a. destruct (layer_bitop_fields op on l Hop Hon Hl) as (Hk & Ho & Hp & Hx & Hs).
  fold a in Hk, Ho, Hp, Hx, Hs. unfold run_action. rewrite Hk. cbn.
  rewrite andb_false_r. split_and!; [done| |done|done].
  unfold layer_bitop_operand. rewrite Hx. cbv zeta. rewrite Hs. apply Z.lor_0_r.
Qed.

(** The layer keycodes do what they say: [TO] moves to its layer when
    pressed, [TG] flips its layer when released, [MO] has it on while held, and
    [DF] makes it the only default layer when released; the record and the
    other state of the action are left alone. *)
Theorem layer_keycodes c l r d k : 0 <= l < 32 ->
  run_action r (action_for_keycode c (TO l)) d k = on_press_release r (layer_move l) skip d k /\
  run_action r (action_for_keycode c (TG l)) d k = on_press_release r skip (layer_invert l) d k /\
  run_action r (action_for_keycode c (MO l)) d k = on_press_release r (layer_on l) (layer_off l) d k /\
  run_action r (action_for_keycode c (DF l)) d k =
    on_press_release r skip (default_layer_set (layer_bit l)) d k.
Proof.
  intros Hl. split_and!.
  - destruct (keycode_field QK_TO l) as [Hr Hg]; [done..|].
    unfold TO. rewrite decode_to by exact Hr. unfold QK_TO_GET_LAYER. rewrite Hg.
    unfold ACTION_LAYER_GOTO, ACTION_LAYER_SET, ACTION_LAYER_BIT_SET.
    destruct (run_layer_bitop r OP_BIT_SET ON_PRESS l d k) as (-> & Ha & Ho & Hp); [done..|].
    unfold action_layer, on_press_release. rewrite Ha, Ho, Hp. by destruct (pressed (event r)).
  - destruct (keycode_field QK_TOGGLE_LAYER l) as [Hr Hg]; [done..|].
    unfold TG. rewrite decode_toggle by exact Hr. unfold QK_TOGGLE_LAYER_GET_LAYER. rewrite Hg.
    unfold ACTION_LAYER_TOGGLE, ACTION_LAYER_INVERT, ACTION_LAYER_BIT_XOR.
    destruct (run_layer_bitop r OP_BIT_XOR ON_RELEASE l d k) as (-> & Ha & Ho & Hp); [done..|].
    unfold action_layer, on_press_release. rewrite Ha, Ho, Hp. by destruct (pressed (event r)).
  - destruct (keycode_field QK_MOMENTARY l) as [Hr Hg]; [done..|].
    unfold MO. rewrite decode_momentary by exact Hr. unfold QK_MOMENTARY_GET_LAYER. rewrite Hg.
    destruct (layer_tap_fields l OP_ON_OFF) as (Hk & Hv & Hc); [done..|].
    unfold run_action, ACTION_LAYER_MOMENTARY, ACTION_LAYER_ON_OFF, action_layer_tap, on_press_release.
    rewrite Hv, Hc. by destruct Hk as [-> | ->]; cbn; rewrite andb_false_r; destruct (pressed (event r)).
  - destruct (keycode_field QK_DEF_LAYER l) as [Hr Hg]; [done..|].
    unfold DF. rewrite decode_def_layer by exact Hr. unfold QK_DEF_LAYER_GET_LAYER. rewrite Hg.
    unfold ACTION_DEFAULT_LAYER_SET, ACTION_DEFAULT_LAYER_BIT_SET.
    destruct (run_layer_bitop r OP_BIT_SET 0 l d k) as (-> & Ha & Ho & Hp); [done..|].
    unfold action_layer, on_press_release. rewrite Ha, Ho, Hp. by destruct (pressed (event r)).
Qed.

(** ** Tap-hold keys *)

Lemma run_action_layer_tap r l code d k : 0 <= l < 32 -> 0 <= code < 256 ->
  run_action r (ACTION_LAYER_TAP l code) d k =
    (d ← action_layer_tap (event r) (ACTION_LAYER_TAP l code) (count (tap r)) d; mret (r, d)) k /\
  layer_tap_val (ACTION_LAYER_TAP l code) = l /\ layer_tap_code (ACTION_LAYER_TAP l code) = code.
Proof.
  intros Hl Hc. destruct (layer_tap_fields l code Hl Hc) as (Hk & Hv & Hcode).
  split_and!; [|done..]. unfold run_action.
  by destruct Hk as [-> | ->]; cbn; rewrite andb_false_r.
Qed.

(** A keycode with a field of 4 bits above 8 bits of tap keycode. *)
Lemma tap_keycode_fields base n w m kc :
  base mod 2 ^ (8 + w) = 0 -> 0 <= base -> 0 < w -> 0 <= m < 2 ^ w -> 0 <= kc < 256 ->
  n = 2 ^ w - 1 ->
  let z := Z.lor (Z.lor base (Z.shiftl (Z.land m n) 8)) (Z.land kc 0xFF) in
  base <= z < base + 2 ^ (8 + w) /\ Z.land (Z.shiftr z 8) n = m /\ Z.land z 0xFF = kc.
Proof.
  intros Hb Hbase Hw Hm Hkc Hn z. subst n.
  assert (forall z, Z.land z (2 ^ w - 1) = z mod 2 ^ w) as Hland.
  { intros y. replace (2 ^ w - 1) with (Z.ones w) by (rewrite Z.ones_equiv; lia). apply Z.land_ones. lia. }
  assert (forall z, Z.land z 0xFF = z mod 256) as Hff by (intros y; exact (Z.land_ones y 8 ltac:(done))).
  assert (2 ^ (8 + w) = 2 ^ w * 256) as Hpow by (rewrite Z.pow_add_r by lia; lia).
  subst z. rewrite Hland, !Hff, (Z.mod_small m), (Z.mod_small kc), Z.shiftl_mul_pow2 by lia.
  assert (0 <= m * 2 ^ 8 < 2 ^ (8 + w)) by (change (2 ^ 8) with 256; nia).
  rewrite (lor_add (8 + w) base) by (lia || done).
  apply Z.mod_divide in Hb as [q Hb]; [|lia]. rewrite Hpow in *.
  assert (base + m * 2 ^ 8 = (q * 2 ^ w + m) * 256) as -> by (change (2 ^ 8) with 256; nia).
  rewrite (lor_add 8) by (by rewrite ?Z.mod_mul).
  split; [change (2 ^ 8) with 256 in *; nia|]. rewrite Hland, Z.shiftr_div_pow2 by done.
  change (2 ^ 8) with 256. rewrite Z.div_add_l, (Z.div_small kc), Z.add_0_r by done.
  rewrite Z.add_comm, Z.mod_add, (Z.add_comm _ kc), Z.mod_add by lia.
  by rewrite !Z.mod_small.
Qed.

(** The tap keycodes: basic and modifier keycodes (a layer-tap code from
    [OP_TAP_TOGGLE] on, and the mod-tap codes 0 and 1, mean other things). *)
Definition tap_code_ok (kc : Z) : Prop := MODS_TAP_TOGGLE < kc < OP_TAP_TOGGLE.

(** [LT] holds its layer when the record is not a tap, and types its
    keycode when it is one; [LM] holds its layer and its modifiers, but with
    right-hand modifiers the bit above the modifiers spills into the layer,
    which becomes the odd layer of its pair. *)
Theorem layer_tap_and_layer_mod c l kc m r d k :
  0 <= l < 16 -> 0 <= kc < 256 -> 0 <= m < 32 ->
  tap_code_ok (config_basic c kc) -> 0 <= mod_config c m < 32 ->
  let kc' := config_basic c kc in
  let m' := mod_config c m in
  let l' := if right_handed m' then Z.lor l 1 else l in
  run_action r (action_for_keycode c (LT l kc)) d k =
    (if 0 <? count (tap r) then on_press_release r (register_code kc') (release_tap kc') d
     else on_press_release r (layer_on l) (layer_off l) d) k /\
  run_action r (action_for_keycode c (LM l m)) d k =
    on_press_release r (layer_on l';; register_mods (expand_mods m'))
      (unregister_mods (expand_mods m');; layer_off l') d k.
Proof.
  intros Hl Hkc Hm Hok Hm' kc' m' l'. split.
  - destruct (tap_keycode_fields QK_LAYER_TAP 0xF 4 l kc) as (Hr & Hf & Hc); [done..|].
    unfold LT. rewrite decode_layer_tap by (unfold QK_LAYER_TAP in *; cbn in Hr |- *; lia).
    unfold QK_LAYER_TAP_GET_LAYER, QK_LAYER_TAP_GET_TAP_KEYCODE. rewrite Hf, Hc.
    fold kc'. unfold tap_code_ok, MODS_TAP_TOGGLE, OP_TAP_TOGGLE in Hok. fold kc' in Hok.
    unfold ACTION_LAYER_TAP_KEY. destruct (run_action_layer_tap r l kc' d k) as (-> & Hv & Hco); [lia..|].
    unfold action_layer_tap. rewrite Hv, Hco. cbv zeta.
    clearbody kc'. decide_ranges. cbv iota.
    unfold on_press_release. by destruct (pressed (event r)), (0 <? count (tap r)).
  - assert (0x5000 <= LM l m <= 0x51FF /\ QK_LAYER_MOD_GET_LAYER (LM l m) = l /\
      QK_LAYER_MOD_GET_MODS (LM l m) = m) as (Hr & Hlay & Hmod).
    { pose (P l := all_below 32 (fun m => (0x5000 <=? LM l m) && (LM l m <=? 0x51FF) &&
        (QK_LAYER_MOD_GET_LAYER (LM l m) =? l) && (QK_LAYER_MOD_GET_MODS (LM l m) =? m))).
      assert (P l = true) as H' by (apply (all_below_spec 16); [vm_compute|]; done).
      apply (all_below_spec 32 _ m) in H'; [|done].
      rewrite !andb_true_iff, !Z.leb_le, !Z.eqb_eq in H'. destruct H' as [[[? ?] ?] ?]. done. }
    rewrite decode_layer_mod by done. rewrite Hlay, Hmod. fold m'.
    destruct (layer_mods_fields l m' Hl Hm') as (Hk & Hmm & Hll).
    unfold run_action, action_layer_mods, on_press_release. cbv zeta. rewrite Hk, Hmm, Hll. fold l'.
    cbn [Z.eqb ACT_LAYER_MODS ACT_LMODS ACT_RMODS Pos.eqb orb]. cbn. rewrite andb_false_r.
    by destruct (pressed (event r)).
Qed.

End actions.
