(* ===== verification/TypingSpec.v ===== *)
(** * Typing: codes registered, codes released

    What the host sees when [register_code] and [unregister_code] are called
    for a basic keycode, and when one-shot modifiers are used up. *)

From S2P Require Import Prelude.
From S2P Require Import Bitwise.
From S2P Require Import Keycodes.
From S2P Require Import Report.
From S2P Require Import State.
From S2P Require Import Host.
From S2P Require Import ActionUtil.
From S2P Require Import ActionCode.
From S2P Require Import Keymap.
From S2P Require Import ActionLayer.
From S2P Require Import Oneshot.
From S2P Require Import Action.
From S2P Require Import ActionUtilSpec.
From S2P Require Import KeymapSpec.

Section typing.
Context `{!Config} `{!Hooks}.

(** A basic keycode that is not one of the locking keycodes. *)
Definition plain (code : Z) : Prop :=
  IS_BASIC_KEYCODE code = true /\
  ~ (LOCKING_SUPPORT_ENABLE = true /\ KC_LOCKING_CAPS_LOCK <= code <= KC_LOCKING_SCROLL_LOCK).

Lemma plain_range code : plain code -> 4 <= code <= 0xA4.
Proof.
  intros [Hb _]. unfold IS_BASIC_KEYCODE, within, KC_A, KC_EXSEL in Hb.
  apply andb_prop in Hb as [?%Z.leb_le ?%Z.leb_le]. lia.
Qed.

Lemma plain_reportable code n : plain code -> reportable n code.
Proof. intros Hp%plain_range. split; [lia|]. lia. Qed.

(** The first tests of [register_code] and [unregister_code] fail. *)
Lemma plain_tests code :
  plain code ->
  (code =? KC_NO) = false /\
  LOCKING_SUPPORT_ENABLE && (code =? KC_LOCKING_CAPS_LOCK) = false /\
  LOCKING_SUPPORT_ENABLE && (code =? KC_LOCKING_NUM_LOCK) = false /\
  LOCKING_SUPPORT_ENABLE && (code =? KC_LOCKING_SCROLL_LOCK) = false.
Proof.
  intros Hp. pose proof (plain_range code Hp). destruct Hp as [_ Hl].
  unfold KC_LOCKING_CAPS_LOCK, KC_LOCKING_NUM_LOCK, KC_LOCKING_SCROLL_LOCK, KC_NO in *.
  split; [apply Z.eqb_neq; lia|].
  destruct LOCKING_SUPPORT_ENABLE; cbn [andb]; [|done].
  split_and!; apply Z.eqb_neq; intros ->; apply Hl; split; (done || lia).
Qed.

Definition with_key (code : Z) (k : keyboard) : keyboard := exec (add_key code) k.
Definition without_key (code : Z) (k : keyboard) : keyboard := exec (del_key code) k.

Lemma register_code_run code k :
  plain code -> command_proc code = false ->
  let k1 := if key_pressed code k then exec send_keyboard_report (without_key code k) else k in
  exec (register_code code) k = exec send_keyboard_report (with_key code k1).
Proof.
  intros Hp Hcmd k1. destruct (plain_tests code Hp) as (H1 & H2 & H3 & H4).
  unfold register_code. rewrite H1, H2, H3, H4, (proj1 Hp), Hcmd, exec_bind.
  change (eval (gets _) k) with (key_pressed code k). change (exec (gets _) k) with k.
  subst k1. by destruct (key_pressed code k).
Qed.

Lemma unregister_code_run code k :
  plain code ->
  exec (unregister_code code) k = exec send_keyboard_report (without_key code k).
Proof.
  intros Hp. destruct (plain_tests code Hp) as (H1 & H2 & H3 & H4).
  unfold unregister_code. by rewrite H1, H2, H3, H4, (proj1 Hp).
Qed.

(** Which keys are pressed is a matter of the keys of the report in use. *)
Lemma key_pressed_keys key k k' :
  nkro_active k' = nkro_active k -> report_keys k' = report_keys k ->
  key_pressed key k' = key_pressed key k.
Proof.
  unfold key_pressed, report_keys, is_key_pressed. intros ->.
  by destruct (nkro_active k); intros ->.
Qed.

Lemma nkro_active_sent k k' : report_sent k k' -> nkro_active k' = nkro_active k.
Proof. intros []. unfold nkro_active. congruence. Qed.

Lemma key_pressed_sent key k k' : report_sent k k' -> key_pressed key k' = key_pressed key k.
Proof.
  intros Hs. apply key_pressed_keys; [by apply nkro_active_sent|]. by destruct Hs.
Qed.

Section unbuffered.
Hypothesis unbuffered : RING_BUFFERED_6KRO_REPORT_ENABLE = false.

Lemma key_pressed_with code key k :
  nkro_ok (rep k) -> plain code -> reportable (nkro_active k) key ->
  has_room (nkro_active k) (rep k) code ->
  key_pressed key (with_key code k) = bool_decide (key = code) || key_pressed key k.
Proof.
  intros Hr Hp Hk Hroom. unfold key_pressed, with_key, add_key, exec. rewrite run_gets.
  unfold upd_rep, modify. cbn [snd]. change (nkro_active (k <| rep := _ |>)) with (nkro_active k).
  change (rep (k <| rep := ?r |>)) with r. rewrite unbuffered.
  apply add_key_pressed; [done|by apply plain_reportable|done|done].
Qed.

Lemma key_pressed_without code key k :
  nkro_ok (rep k) -> plain code -> reportable (nkro_active k) key ->
  key_pressed key (without_key code k) = negb (bool_decide (key = code)) && key_pressed key k.
Proof.
  intros Hr Hp Hk. unfold key_pressed, without_key, del_key, exec. rewrite run_gets.
  unfold upd_rep, modify. cbn [snd]. change (nkro_active (k <| rep := _ |>)) with (nkro_active k).
  change (rep (k <| rep := ?r |>)) with r. rewrite unbuffered.
  apply del_key_pressed; [done|by apply plain_reportable|done].
Qed.

(** A pressed key counts. *)
Lemma any_key_pressed code k :
  reports_ok (rep k) -> key_pressed code k = true -> any_key k <> 0.
Proof.
  intros [[Hl _] [Hn Hb]] Hp. unfold any_key, key_pressed, has_anykey, is_key_pressed in *.
  destruct (Z.eqb_spec code KC_NO) as [|Hne]; [done|]. unfold count_nonzero.
  assert (forall l : list Z, (length l < 256)%nat -> (exists b, b ∈ l /\ b <> 0) ->
    u8 (Z.of_nat (length (filter (fun b => b <> 0) l))) <> 0) as Hcount.
  { intros l Hlt (b & Hin & Hb0).
    assert (b ∈ filter (fun b => b <> 0) l) as Hf by (by apply list_elem_of_filter).
    pose proof (length_filter (fun b => b <> 0) l).
    rewrite wrap_small by lia. destruct (filter _ l); [by apply elem_of_nil in Hf|cbn; lia]. }
  destruct (nkro_active k); apply Hcount.
  - rewrite Hn. unfold NKRO_REPORT_BITS. lia.
  - destruct (_ <? _); [|done]. apply nz_true in Hp. unfold at_ in Hp.
    destruct (_ !! _) as [b|] eqn:E; cbn in Hp; [|done].
    exists b. split; [by eapply list_elem_of_lookup_2|]. intros ->. done.
  - rewrite Hl. lia.
  - apply existsb_exists in Hp as (b & Hin & E). apply Z.eqb_eq in E as ->.
    exists code. split; [by apply list_elem_of_In|done].
Qed.

Lemma with_key_frame code k :
  let k' := with_key code k in
  (synced k -> synced k') /\ (reports_ok (rep k) -> reports_ok (rep k')) /\
  nkro_active k' = nkro_active k /\ mods k' = mods k /\ now k' = now k /\ host k' = host k.
Proof. split_and!; try done. intros. by apply add_key_reports_ok. Qed.

Lemma without_key_frame code k :
  let k' := without_key code k in
  (synced k -> synced k') /\ (reports_ok (rep k) -> reports_ok (rep k')) /\
  nkro_active k' = nkro_active k /\ mods k' = mods k /\ now k' = now k /\ host k' = host k.
Proof. split_and!; try done. intros. by apply del_key_reports_ok. Qed.

Lemma report_mods_mods k k' : mods k' = mods k -> now k' = now k -> report_mods k' = report_mods k.
Proof.
  intros Hm Hn. unfold report_mods, live_oneshot_mods, has_oneshot_mods_timed_out. by rewrite Hm, Hn.
Qed.

(** Sending with a key down uses the one-shot modifiers up. *)
Lemma send_with_key code k :
  synced k -> reports_ok (rep k) -> key_pressed code k = true ->
  oneshot_mods (mods (exec send_keyboard_report k)) = 0.
Proof.
  intros Hs Hr Hp. destruct (send_report_sent k Hs). rewrite sent_oneshot.
  unfold uses_oneshot. pose proof (any_key_pressed code k Hr Hp) as Hany%nz_true. rewrite Hany.
  rewrite orb_true_r, andb_true_r. unfold nz. by destruct (Z.eqb_spec (oneshot_mods (mods k)) 0).
Qed.

(** Room for a key that was down before is there after its release. *)
Lemma has_room_again n r code :
  nkro_ok r -> code <> 0 -> has_room n r code -> is_key_pressed n code r = true ->
  has_room n (del_key_from_report false n code r) code.
Proof.
  intros Hr Hc Hroom Hp ->. left. cbn. apply pressed_6kro in Hp as [_ Hin].
  unfold del_key_slot. apply list_elem_of_fmap. exists code. by rewrite Z.eqb_refl.
Qed.

Lemma has_room_keys n r r' code :
  keys (keyboard_report r') = keys (keyboard_report r) -> has_room n r code -> has_room n r' code.
Proof. unfold has_room. by intros ->. Qed.

Lemma sent_room k k' code :
  report_sent k k' -> has_room (nkro_active k) (rep k) code -> has_room (nkro_active k') (rep k') code.
Proof.
  intros Hs. pose proof (nkro_active_sent _ _ Hs) as Hn. destruct Hs. unfold has_room. rewrite Hn.
  intros Hroom Hf. specialize (Hroom Hf). unfold report_keys in sent_keys.
  rewrite Hn, Hf in sent_keys. by rewrite sent_keys.
Qed.

(** The keyboard just before [code] is added by [register_code]: the key, if it
    was down, has been reported up. *)
Lemma before_add code k :
  plain code -> synced k -> reports_ok (rep k) -> has_room (nkro_active k) (rep k) code ->
  let k1 := if key_pressed code k then exec send_keyboard_report (without_key code k) else k in
  synced k1 /\ reports_ok (rep k1) /\ has_room (nkro_active k1) (rep k1) code /\
  nkro_active k1 = nkro_active k /\ key_pressed code k1 = false /\
  (forall key, reportable (nkro_active k) key ->
     key_pressed key k1 = negb (bool_decide (key = code)) && key_pressed key k) /\
  (key_pressed code k = true -> snd (shown k1) = report_keys k1).
Proof.
  intros Hp Hs Hr Hroom k1. pose proof (plain_reportable code (nkro_active k) Hp) as Hrep.
  subst k1. destruct (key_pressed code k) eqn:Hdown.
  - destruct (without_key_frame code k) as (Hs1 & Hr1 & Hn1 & _). specialize (Hs1 Hs).
    pose proof (send_report_sent _ Hs1) as Hsent.
    assert (forall key, reportable (nkro_active k) key ->
      key_pressed key (exec send_keyboard_report (without_key code k)) =
        negb (bool_decide (key = code)) && key_pressed key k) as Hkeys.
    { intros key Hkey. rewrite (key_pressed_sent _ _ _ Hsent).
      apply key_pressed_without; [apply Hr|done|done]. }
    split_and!.
    + apply Hsent.
    + by apply Hsent, Hr1.
    + eapply sent_room; [done|]. rewrite Hn1. unfold without_key, del_key, exec. rewrite run_gets.
      unfold upd_rep, modify. cbn [snd]. change (rep (k <| rep := ?r |>)) with r. rewrite unbuffered.
      apply has_room_again; [apply Hr| |done|done]. by pose proof (plain_range code Hp); lia.
    + rewrite (nkro_active_sent _ _ Hsent). done.
    + rewrite Hkeys, bool_decide_true by done. done.
    + done.
    + intros _. destruct Hsent. by rewrite sent_shown, sent_keys.
  - split_and!; try done. intros key Hkey. case_bool_decide; [by subst|done].
Qed.

(** The keyboard when the outputs [os] had been sent. *)
Definition shown_until (os : list output) (k : keyboard) : keyboard :=
  k <| host := (host k) <| sent := os |> |>.

Lemma shown_of_sent k k' :
  nkro_active k' = nkro_active k -> shown (shown_until (sent (host k)) k') = shown k.
Proof. intros Hn. unfold shown. change (nkro_active (shown_until _ k')) with (nkro_active k'). by rewrite Hn. Qed.

(** C5: registering a basic keycode for which the report has room leaves the
    host showing exactly the keys that were down and the new one, with the
    modifiers of the report; if the key was down already, the host is first
    shown the other keys without it, with the modifiers of the report; and no
    one-shot modifier is left. *)
Theorem register_code_reaches_host code k :
  plain code -> command_proc code = false -> synced k -> reports_ok (rep k) ->
  has_room (nkro_active k) (rep k) code ->
  let k' := exec (register_code code) k in
  synced k' /\ snd (shown k') = report_keys k' /\
  (forall key, reportable (nkro_active k) key ->
     key_pressed key k' = bool_decide (key = code) || key_pressed key k) /\
  (key_pressed code k = false -> fst (shown k') = report_mods k) /\
  (key_pressed code k = true -> exists os,
     sent (host k) `prefix_of` os /\ os `prefix_of` sent (host k') /\
     shown (shown_until os k') = (report_mods k, report_keys (without_key code k)) /\
     forall key, reportable (nkro_active k) key ->
       key_pressed key (without_key code k) = negb (bool_decide (key = code)) && key_pressed key k) /\
  oneshot_mods (mods k') = 0.
Proof.
  intros Hp Hcmd Hs Hr Hroom k'. pose proof (plain_reportable code (nkro_active k) Hp) as Hrep.
  destruct (before_add code k Hp Hs Hr Hroom) as (Hs1 & Hr1 & Hroom1 & Hn1 & Hup & Hkeys & Hshow).
  subst k'. rewrite register_code_run by done. cbv zeta.
  set (k1 := if key_pressed code k then _ else k) in *.
  destruct (with_key_frame code k1) as (Hs2 & Hr2 & Hn2 & Hm2 & Hnow2 & Hh2).
  pose proof (send_report_sent _ (Hs2 Hs1)) as Hsent.
  assert (forall key, reportable (nkro_active k) key ->
    key_pressed key (with_key code k1) = bool_decide (key = code) || key_pressed key k1) as Hkeys2.
  { intros key Hkey. apply key_pressed_with; [apply Hr1|done|by rewrite Hn1|done]. }
  split_and!.
  - apply Hsent.
  - destruct Hsent. by rewrite sent_shown, sent_keys.
  - intros key Hkey. rewrite (key_pressed_sent _ _ _ Hsent), Hkeys2, Hkeys by done.
    by case_bool_decide.
  - intros Hdown. destruct Hsent. rewrite sent_shown. cbn [fst].
    subst k1. rewrite Hdown in *. by apply report_mods_mods.
  - intros Hdown. exists (sent (host k1)). subst k1. rewrite Hdown in *.
    destruct (without_key_frame code k) as (Hs0 & _ & _ & Hm0 & Hnow0 & Hh0).
    pose proof (send_report_sent _ (Hs0 Hs)) as Hup_sent. split_and!.
    + destruct (sent_outputs _ _ Hup_sent) as (os & -> & _). rewrite Hh0. by eexists.
    + destruct (sent_outputs _ _ Hsent) as (os & -> & _). rewrite Hh2. by eexists.
    + rewrite shown_of_sent.
      * rewrite (sent_shown _ _ Hup_sent). by f_equal.
      * rewrite (nkro_active_sent _ _ Hsent). done.
    + intros key Hkey. apply key_pressed_without; [apply Hr|done|done].
  - apply (send_with_key code); [by apply Hs2|by apply Hr2|].
    by rewrite Hkeys2, bool_decide_true.
Qed.

(** Unregistering a basic keycode leaves the host showing exactly the other
    keys that were down. *)
Theorem unregister_code_reaches_host code k :
  plain code -> synced k -> reports_ok (rep k) ->
  let k' := exec (unregister_code code) k in
  synced k' /\ shown k' = (report_mods k, report_keys k') /\
  forall key, reportable (nkro_active k) key ->
    key_pressed key k' = negb (bool_decide (key = code)) && key_pressed key k.
Proof.
  intros Hp Hs Hr k'. subst k'. rewrite unregister_code_run by done.
  destruct (without_key_frame code k) as (Hs1 & _ & _ & Hm & Hnow & _). specialize (Hs1 Hs).
  pose proof (send_report_sent _ Hs1) as Hsent. split_and!.
  - apply Hsent.
  - destruct Hsent. rewrite sent_shown, sent_keys. by rewrite (report_mods_mods k).
  - intros key Hkey. rewrite (key_pressed_sent _ _ _ Hsent).
    apply key_pressed_without; [apply Hr|done|done].
Qed.
End unbuffered.
End typing.

(** ** The real modifiers *)

Section real_mods.
Context `{!Config} `{!Hooks}.

Definition real_are (m : Z) k : Prop := real_mods (mods k) = m.

Lemma send_keeps_real m : preserves (real_are m) send_keyboard_report.
Proof.
  unfold send_keyboard_report, send_6kro_report, send_nkro_report, get_mods_for_report, clear_oneshot_mods,
    set_oneshot_mods, set_oneshot_time, host_keyboard_send, host_nkro_send, get_mods, get_weak_mods, get_oneshot_mods, emit,
    upd_mods, upd_rep, upd_host.
  preserve; done.
Qed.

Lemma tap_basic_keeps_real m code : IS_BASIC_KEYCODE code = true ->
  code <> KC_LOCKING_CAPS_LOCK -> code <> KC_LOCKING_NUM_LOCK -> code <> KC_LOCKING_SCROLL_LOCK ->
  preserves (real_are m) (tap_code code).
Proof.
  intros Hb H1' H2' H3'. pose proof (send_keeps_real m) as Hs.
  unfold tap_code, tap_code_delay, register_code, unregister_code. rewrite Hb.
  rewrite (proj2 (Z.eqb_neq _ _) H1'), (proj2 (Z.eqb_neq _ _) H2'), (proj2 (Z.eqb_neq _ _) H3'), !andb_false_r.
  destruct (code =? KC_NO); [by preserve|]. unfold add_key, del_key, upd_rep, emit, upd_host.
  preserve; done.
Qed.
End real_mods.
