(* ===== verification/Closure.v ===== *)
(** * Invariants of the keyboard core, function by function

    [Closed P] says that [P] survives the elementary assignments of the core:
    a change of the modifiers, layers or hands that keeps them well formed, a
    key added to the report, a report sent, an output.  Every function up to
    [process_record] then preserves [P], and up to [action_exec] if [P] also
    survives the assignments of the tapping state.  The hooks are assumed to
    preserve [P] ([HooksKeep]). *)

From S2P Require Import Prelude.
From S2P Require Import Bitwise.
From S2P Require Import Keycodes.
From S2P Require Import Report.
From S2P Require Import State.
From S2P Require Import Host.
From S2P Require Import ActionUtil.
From S2P Require Import ActionCode.
From S2P Require Import Keymap.
From S2P Require Import ActionLayer.
From S2P Require Import Oneshot.
From S2P Require Import Action.
From S2P Require Import Tapping.
From S2P Require Import ActionUtilSpec.

(** ** Well-formed components: every value fits its C type *)

Definition is_word (w z : Z) : Prop := 0 <= z < 2 ^ w.

Definition mods_ok (s : mods_state) : Prop :=
  is_byte (real_mods s) /\ is_byte (weak_mods s) /\ is_byte (weak_override_mods s) /\
  is_byte (suppressed_mods s) /\ is_byte (oneshot_mods s) /\ is_byte (oneshot_locked_mods s).

(** The widths a build may choose (action_layer.h). *)
Class ConfigOk `{!Config} : Prop := {
  layer_state_bits : LAYER_STATE_BITS = 8 /\ MAX_LAYER_BITS = 3 \/
    LAYER_STATE_BITS = 16 /\ MAX_LAYER_BITS = 4 \/ LAYER_STATE_BITS = 32 /\ MAX_LAYER_BITS = 5;
  max_layer : 0 < MAX_LAYER <= LAYER_STATE_BITS;
  matrix_rows : 0 < MATRIX_ROWS < 250;
  matrix_cols : 0 < MATRIX_COLS < 256;
  num_encoders : 0 <= NUM_ENCODERS < 256;
  int_bits : INT_BITS = 16 \/ INT_BITS = 32;
}.

Section ok.
Context `{!Config}.

(** [uint8_t cache[(n + 7) / 8][MAX_LAYER_BITS]] *)
Definition cache_ok (n : Z) (cache : list (list Z)) : Prop :=
  length cache = Z.to_nat ((n + 7) / 8) /\
  Forall (fun line => length line = Z.to_nat MAX_LAYER_BITS /\ Forall is_byte line) cache.

Definition layers_ok (l : layers_state) : Prop :=
  is_word LAYER_STATE_BITS (layer_state l) /\ is_word LAYER_STATE_BITS (default_layer_state l) /\
  is_byte (oneshot_layer_data l) /\
  cache_ok (MATRIX_ROWS * MATRIX_COLS) (source_layers_cache l) /\
  cache_ok NUM_ENCODERS (encoder_source_layers_cache l).

Definition hands_ok (h : hands_state) : Prop :=
  length (matrix_swap_state h) = Z.to_nat ((MATRIX_ROWS * MATRIX_COLS + 7) / 8) /\
  length (encoder_swap_state h) = Z.to_nat ((NUM_ENCODERS + 7) / 8) /\
  Forall is_byte (matrix_swap_state h) /\ Forall is_byte (encoder_swap_state h).

(** The timers, of 16 bits, and the counter, an int. *)
Definition mods_timed (s : mods_state) : Prop := is_word 16 (oneshot_time s).
Definition layers_timed (l : layers_state) : Prop := is_word 16 (oneshot_layer_time l).
Definition hands_timed (h : hands_state) : Prop :=
  is_word 16 (oneshot_swaphands_time h) /\
  - 2 ^ (INT_BITS - 1) <= retro_tapping_counter h < 2 ^ (INT_BITS - 1).
End ok.

Definition is_slot (i : Z) : Prop := 0 <= i < WAITING_BUFFER_SIZE.
Definition tapping_ok (t : tapping_state) : Prop :=
  length (waiting_buffer t) = 8%nat /\ is_slot (waiting_buffer_head t) /\
  is_slot (waiting_buffer_tail t) /\ length (registered_taps t) = 8%nat /\
  0 <= num_registered_taps t <= REGISTERED_TAPS_SIZE.

(** Outputs other than the two reports whose content is tracked. *)
Definition is_report (o : output) : bool :=
  match o with SendKeyboard _ | SendNkro _ => true | _ => false end.

Class Closed `{!Config} (P : keyboard -> Prop) : Prop := {
  closed_mods k m : P k -> (mods_ok (mods k) -> mods_ok m) ->
    (mods_timed (mods k) -> mods_timed m) ->
    last_report m = last_report (mods k) -> last_nkro_report m = last_nkro_report (mods k) ->
    P (k <| mods := m |>);
  closed_layers k l : P k -> (layers_ok (layers k) -> layers_ok l) ->
    (layers_timed (layers k) -> layers_timed l) -> P (k <| layers := l |>);
  closed_hands k h : P k -> (hands_ok (hands k) -> hands_ok h) ->
    (hands_timed (hands k) -> hands_timed h) -> P (k <| hands := h |>);
  closed_config k c : P k -> P (k <| keymap_config := c |>);
  closed_deliver k o : P k -> is_report o = false -> P (deliver o k);
  closed_system_usage k u : P k -> P (k <| host := (host k) <| last_system_usage := u |> |>);
  closed_consumer_usage k u : P k -> P (k <| host := (host k) <| last_consumer_usage := u |> |>);
  closed_add_key c : preserves P (add_key c);
  closed_del_key c : preserves P (del_key c);
  closed_clear_keys : preserves P clear_keys;
  closed_send : preserves P send_keyboard_report;
}.

Class ClosedTapping (P : keyboard -> Prop) : Prop :=
  closed_tapping k t : P k -> (tapping_ok (tapping k) -> tapping_ok t) -> P (k <| tapping := t |>).

Class HooksKeep `{!Hooks} (P : keyboard -> Prop) : Prop := {
  keeps_pre_process r : preserves P (pre_process_record_quantum r);
  keeps_process r : preserves P (process_record_quantum r);
  keeps_post_process r : preserves P (post_process_record_quantum r);
}.

(** ** Ranges *)

#[export] Hint Resolve closed_add_key closed_del_key closed_clear_keys closed_send
  keeps_pre_process keeps_process keeps_post_process : preserves.

Lemma is_byte_0 : is_byte 0.
Proof. done. Qed.
Lemma is_byte_lor a b : is_byte a -> is_byte b -> is_byte (Z.lor a b).
Proof. by apply lor_range. Qed.
Lemma is_byte_clear a m : is_byte a -> is_byte (clear_bits a m).
Proof. by apply clear_bits_range. Qed.
Lemma is_byte_land a m : 0 <= a -> is_byte m -> is_byte (Z.land a m).
Proof. intros. rewrite Z.land_comm. by apply land_range. Qed.
Lemma is_byte_key_mods a : is_byte (key_mods a).
Proof.
  unfold key_mods. rewrite Z.land_comm. eapply (land_range 8); [done|].
  split; [done|]. by vm_compute.
Qed.
Lemma is_byte_layer_mods a : is_byte (layer_mods_mods a).
Proof. unfold layer_mods_mods. rewrite Z.land_comm. by apply (land_range 8). Qed.
#[export] Hint Resolve is_byte_0 is_byte_lor is_byte_clear is_byte_key_mods is_byte_layer_mods
  is_byte_u8 : preserves.

Section core.
Context `{!Config} `{!Hooks} `{!ConfigOk} (P : keyboard -> Prop) `{!Closed P}.

Lemma preserves_emit o : is_report o = false -> preserves P (emit o).
Proof. intros Ho k Hk. by apply (closed_deliver k o). Qed.
#[local] Hint Extern 1 (preserves _ (emit _)) => apply preserves_emit; repeat case_match; reflexivity : preserves.

Lemma bits_pos : 0 <= LAYER_STATE_BITS.
Proof. destruct layer_state_bits as [[-> _]|[[-> _]|[-> _]]]; lia. Qed.
Lemma layer_word_ok z : is_word LAYER_STATE_BITS (layer_word z).
Proof. apply wrap_range, bits_pos. Qed.

Lemma timer_word z : is_word 16 (u16 z).
Proof. by apply wrap_range. Qed.
Lemma int_wraps z : - 2 ^ (INT_BITS - 1) <= i_wrap INT_BITS z < 2 ^ (INT_BITS - 1).
Proof. destruct int_bits as [-> | ->]; apply i_wrap_range; lia. Qed.

(** An assignment to the layers that keeps them well formed. *)
Lemma preserves_layers f :
  (forall l, layers_ok l -> layers_ok (f l)) ->
  (forall l, layers_timed l -> layers_timed (f l)) -> preserves P (upd_layers f).
Proof. intros Hf Ht k Hk. apply closed_layers; auto. Qed.
Lemma preserves_hands f :
  (forall h, hands_ok h -> hands_ok (f h)) ->
  (forall h, hands_timed h -> hands_timed (f h)) -> preserves P (upd_hands f).
Proof. intros Hf Ht k Hk. apply closed_hands; auto. Qed.
Lemma preserves_mods f :
  (forall s, mods_ok s -> mods_ok (f s)) ->
  (forall s, mods_timed s -> mods_timed (f s)) ->
  (forall s, last_report (f s) = last_report s /\ last_nkro_report (f s) = last_nkro_report s) ->
  preserves P (upd_mods f).
Proof. intros Hf Ht Hl k Hk. apply closed_mods; auto; apply Hl. Qed.

(** Goals about a component after an assignment. *)
Ltac component :=
  let s := fresh in let H := fresh in
  intros s H; destruct s;
  unfold mods_ok, layers_ok, hands_ok, mods_timed, layers_timed, hands_timed in *; cbn in *;
  naive_solver (eauto using layer_word_ok, timer_word, int_wraps with preserves).

Lemma preserves_add_mods m : is_byte m -> preserves P (add_mods m).
Proof. intros. apply preserves_mods; [component|component|done]. Qed.
Lemma preserves_del_mods m : preserves P (del_mods m).
Proof. apply preserves_mods; [component|component|done]. Qed.
Lemma preserves_set_mods m : is_byte m -> preserves P (set_mods m).
Proof. intros. apply preserves_mods; [component|component|done]. Qed.
Lemma preserves_add_weak_mods m : is_byte m -> preserves P (add_weak_mods m).
Proof. intros. apply preserves_mods; [component|component|done]. Qed.
Lemma preserves_del_weak_mods m : preserves P (del_weak_mods m).
Proof. apply preserves_mods; [component|component|done]. Qed.
Lemma preserves_set_weak_mods m : is_byte m -> preserves P (set_weak_mods m).
Proof. intros. apply preserves_mods; [component|component|done]. Qed.
#[local] Hint Resolve preserves_add_mods preserves_del_mods preserves_set_mods
  preserves_add_weak_mods preserves_del_weak_mods preserves_set_weak_mods : preserves.


(** ** host.c, action_util.c *)

Lemma preserves_host_system_send u : preserves P (host_system_send u).
Proof.
  unfold host_system_send, upd_host. preserve. by apply closed_system_usage.
Qed.
Lemma preserves_host_consumer_send u : preserves P (host_consumer_send u).
Proof.
  unfold host_consumer_send, upd_host. preserve. by apply closed_consumer_usage.
Qed.
#[local] Hint Resolve preserves_host_system_send preserves_host_consumer_send : preserves.

Lemma preserves_set_oneshot_time t : preserves P (set_oneshot_time t).
Proof. unfold set_oneshot_time. preserve. apply preserves_mods; [component|component|done]. Qed.
Lemma preserves_put_oneshot_mods m : is_byte m -> preserves P (put_oneshot_mods m).
Proof. intros. apply preserves_mods; [component|component|done]. Qed.
#[local] Hint Resolve preserves_set_oneshot_time preserves_put_oneshot_mods : preserves.

(** A value read from a state that satisfies [P] is a byte if the modifiers
    are well formed. *)
Definition fits (o : Z) (k : keyboard) : Prop := P k /\ (mods_ok (mods k) -> is_byte o).

Lemma fits_set_oneshot_time o t : preserves (fits o) (set_oneshot_time t).
Proof.
  intros k [Hk Ho]. split; [by apply preserves_set_oneshot_time|].
  intros Hm. apply Ho. unfold set_oneshot_time in Hm. destruct (0 <? ONESHOT_TIMEOUT); [|done].
  destruct k as [? []]. exact Hm.
Qed.

Lemma fits_put_oneshot_mods o m k :
  fits o k -> (is_byte o -> is_byte m) -> P (exec (put_oneshot_mods m) k).
Proof.
  intros [Hk Ho] Hm. apply closed_mods; [done| |done..].
  intros Hok. specialize (Ho Hok). destruct (mods k) as [????????].
  unfold mods_ok in *. cbn in *. naive_solver.
Qed.

Lemma fits_change_locked_mods o m k :
  fits o k -> (is_byte o -> is_byte m) -> P (exec (change_locked_mods m) k).
Proof.
  intros [Hk Ho] Hm. apply preserves_emit; [done|]. apply closed_mods; [done| |done..].
  intros Hok. specialize (Ho Hok). destruct (mods k) as [????????].
  unfold mods_ok in *. cbn in *. naive_solver.
Qed.

Lemma read_oneshot_mods (m : Z -> stm keyboard unit) k : P k -> (forall o, fits o k -> P (exec (m o) k)) ->
  P (exec (o ← get_oneshot_mods; m o) k).
Proof. intros Hk Hm. apply (Hm (oneshot_mods (mods k))). by split; [|intros (_ & _ & _ & _ & ? & _)]. Qed.
Lemma read_locked_mods (m : Z -> stm keyboard unit) k : P k -> (forall o, fits o k -> P (exec (m o) k)) ->
  P (exec (o ← get_oneshot_locked_mods; m o) k).
Proof.
  intros Hk Hm. apply (Hm (oneshot_locked_mods (mods k))).
  by split; [|intros (_ & _ & _ & _ & _ & ?)].
Qed.

Ltac locked := intros; intros k Hk; apply read_locked_mods; [done|];
  intros o Ho; unfold when; case_match; [|done]; eapply fits_change_locked_mods; [done|];
  auto using is_byte_lor, is_byte_clear, is_byte_0.
Lemma preserves_add_oneshot_locked_mods m : is_byte m -> preserves P (add_oneshot_locked_mods m).
Proof. locked. Qed.
Lemma preserves_set_oneshot_locked_mods m : is_byte m -> preserves P (set_oneshot_locked_mods m).
Proof. locked. Qed.
Lemma preserves_clear_oneshot_locked_mods : preserves P clear_oneshot_locked_mods.
Proof. locked. Qed.
Lemma preserves_del_oneshot_locked_mods m : preserves P (del_oneshot_locked_mods m).
Proof. locked. Qed.

Lemma preserves_add_oneshot_mods m : is_byte m -> preserves P (add_oneshot_mods m).
Proof.
  intros Hm k Hk. apply read_oneshot_mods; [done|]. intros o Ho. unfold when. case_match; [|done].
  rewrite !exec_bind. apply preserves_emit; [done|].
  eapply fits_put_oneshot_mods; [by apply fits_set_oneshot_time|]. auto using is_byte_lor.
Qed.
Lemma preserves_del_oneshot_mods m : preserves P (del_oneshot_mods m).
Proof.
  intros k Hk. apply read_oneshot_mods; [done|]. intros o Ho. unfold when. case_match; [|done].
  rewrite !exec_bind. apply preserves_emit; [done|]. apply preserves_set_oneshot_time.
  eapply fits_put_oneshot_mods; [done|]. auto using is_byte_clear.
Qed.
Lemma preserves_set_oneshot_mods m : is_byte m -> preserves P (set_oneshot_mods m).
Proof. intros. unfold set_oneshot_mods. preserve. Qed.
Lemma preserves_clear_oneshot_mods : preserves P clear_oneshot_mods.
Proof. unfold clear_oneshot_mods. preserve. Qed.
#[local] Hint Resolve preserves_add_oneshot_locked_mods preserves_set_oneshot_locked_mods
  preserves_clear_oneshot_locked_mods preserves_del_oneshot_locked_mods preserves_add_oneshot_mods
  preserves_del_oneshot_mods preserves_set_oneshot_mods preserves_clear_oneshot_mods : preserves.

Lemma preserves_clear_keyboard_but_mods_and_keys : preserves P clear_keyboard_but_mods_and_keys.
Proof. unfold clear_keyboard_but_mods_and_keys, clear_weak_mods. preserve. Qed.
#[local] Hint Resolve preserves_clear_keyboard_but_mods_and_keys : preserves.
Lemma preserves_clear_keyboard_but_mods : preserves P clear_keyboard_but_mods.
Proof. unfold clear_keyboard_but_mods. preserve. Qed.
#[local] Hint Resolve preserves_clear_keyboard_but_mods : preserves.
Lemma preserves_clear_keyboard : preserves P clear_keyboard.
Proof. unfold clear_keyboard, clear_mods. preserve. Qed.
#[local] Hint Resolve preserves_clear_keyboard : preserves.

(** ** action_layer.c *)

Lemma preserves_layer_release : preserves P layer_release.
Proof. unfold layer_release. preserve. Qed.
#[local] Hint Resolve preserves_layer_release : preserves.
Lemma preserves_layer_state_set z : preserves P (layer_state_set z).
Proof. unfold layer_state_set. preserve. apply preserves_layers; component. Qed.
Lemma preserves_default_layer_state_set z : preserves P (default_layer_state_set z).
Proof. unfold default_layer_state_set. preserve. apply preserves_layers; component. Qed.
#[local] Hint Resolve preserves_layer_state_set preserves_default_layer_state_set : preserves.

Lemma length_set_cache_bits layer i line n : length (set_cache_bits layer i n line) = length line.
Proof. revert n. induction line; intros n; cbn; auto. Qed.
Lemma set_cache_bits_is_byte layer i line n : Forall is_byte (set_cache_bits layer i n line).
Proof.
  revert n. induction line; intros n; cbn; constructor; [|done].
  unfold set_cache_bit. apply is_byte_u8.
Qed.
Lemma update_cache_ok n layer entry cache :
  cache_ok n cache -> cache_ok n (update_source_layers_cache_impl layer entry cache).
Proof.
  intros [Hl Hf]. unfold update_source_layers_cache_impl. split; [by rewrite length_alter|].
  apply Forall_alter; [done|]. intros line _ [Hline _].
  split; [by rewrite length_set_cache_bits|apply set_cache_bits_is_byte].
Qed.
#[local] Hint Resolve update_cache_ok : preserves.

Lemma preserves_at_array i n : preserves P (at_array i n).
Proof. unfold at_array. preserve. Qed.
#[local] Hint Resolve preserves_at_array : preserves.

Lemma preserves_update_source_layers_cache k l : preserves P (update_source_layers_cache k l).
Proof. unfold update_source_layers_cache. preserve; apply preserves_layers; component. Qed.
#[local] Hint Resolve preserves_update_source_layers_cache : preserves.

Lemma preserves_layer_move n : preserves P (layer_move n).
Proof. unfold layer_move. preserve. Qed.
#[local] Hint Resolve preserves_layer_move : preserves.
Lemma preserves_layer_clear : preserves P layer_clear.
Proof. unfold layer_clear. preserve. Qed.
#[local] Hint Resolve preserves_layer_clear : preserves.
Lemma preserves_layer_on n : preserves P (layer_on n).
Proof. unfold layer_on. preserve. Qed.
#[local] Hint Resolve preserves_layer_on : preserves.
Lemma preserves_layer_off n : preserves P (layer_off n).
Proof. unfold layer_off. preserve. Qed.
#[local] Hint Resolve preserves_layer_off : preserves.
Lemma preserves_layer_invert n : preserves P (layer_invert n).
Proof. unfold layer_invert. preserve. Qed.
#[local] Hint Resolve preserves_layer_invert : preserves.
Lemma preserves_layer_or n : preserves P (layer_or n).
Proof. unfold layer_or. preserve. Qed.
#[local] Hint Resolve preserves_layer_or : preserves.
Lemma preserves_layer_and n : preserves P (layer_and n).
Proof. unfold layer_and. preserve. Qed.
#[local] Hint Resolve preserves_layer_and : preserves.
Lemma preserves_layer_xor n : preserves P (layer_xor n).
Proof. unfold layer_xor. preserve. Qed.
#[local] Hint Resolve preserves_layer_xor : preserves.
Lemma preserves_default_layer_set n : preserves P (default_layer_set n).
Proof. unfold default_layer_set. preserve. Qed.
#[local] Hint Resolve preserves_default_layer_set : preserves.
Lemma preserves_default_layer_or n : preserves P (default_layer_or n).
Proof. unfold default_layer_or. preserve. Qed.
#[local] Hint Resolve preserves_default_layer_or : preserves.
Lemma preserves_default_layer_and n : preserves P (default_layer_and n).
Proof. unfold default_layer_and. preserve. Qed.
#[local] Hint Resolve preserves_default_layer_and : preserves.
Lemma preserves_default_layer_xor n : preserves P (default_layer_xor n).
Proof. unfold default_layer_xor. preserve. Qed.
#[local] Hint Resolve preserves_default_layer_xor : preserves.
Lemma preserves_layer_switch_get_layer k : preserves P (layer_switch_get_layer k).
Proof. unfold layer_switch_get_layer. preserve. Qed.
#[local] Hint Resolve preserves_layer_switch_get_layer : preserves.
Lemma preserves_read_source_layers_cache k : preserves P (read_source_layers_cache k).
Proof. unfold read_source_layers_cache. preserve. Qed.
#[local] Hint Resolve preserves_read_source_layers_cache : preserves.
Lemma preserves_layer_switch_get_action k : preserves P (layer_switch_get_action k).
Proof. unfold layer_switch_get_action. preserve. Qed.
#[local] Hint Resolve preserves_layer_switch_get_action : preserves.
Lemma preserves_store_or_get_action b k : preserves P (store_or_get_action b k).
Proof. unfold store_or_get_action. preserve. Qed.
#[local] Hint Resolve preserves_store_or_get_action : preserves.
Lemma preserves_update_tri_layer a b c : preserves P (update_tri_layer a b c).
Proof. unfold update_tri_layer. preserve. Qed.
#[local] Hint Resolve preserves_update_tri_layer : preserves.
Lemma preserves_get_event_keycode e b : preserves P (get_event_keycode e b).
Proof. unfold get_event_keycode. preserve. Qed.
#[local] Hint Resolve preserves_get_event_keycode : preserves.
Lemma preserves_get_record_keycode r b : preserves P (get_record_keycode r b).
Proof. unfold get_record_keycode. preserve. Qed.
#[local] Hint Resolve preserves_get_record_keycode : preserves.

(** ** One-shot layers and swap hands *)

Lemma preserves_put_oneshot_data d : is_byte d -> preserves P (put_oneshot_data d).
Proof. intros. apply preserves_layers; component. Qed.
Lemma preserves_set_oneshot_layer_time t : preserves P (set_oneshot_layer_time t).
Proof. unfold set_oneshot_layer_time. preserve. apply preserves_layers; component. Qed.
#[local] Hint Resolve preserves_put_oneshot_data preserves_set_oneshot_layer_time : preserves.
Lemma preserves_set_oneshot_layer n m : preserves P (set_oneshot_layer n m).
Proof. unfold set_oneshot_layer, get_oneshot_layer. preserve. Qed.
#[local] Hint Resolve preserves_set_oneshot_layer : preserves.
Lemma preserves_reset_oneshot_layer : preserves P reset_oneshot_layer.
Proof. unfold reset_oneshot_layer, get_oneshot_layer. preserve. Qed.
#[local] Hint Resolve preserves_reset_oneshot_layer : preserves.
Lemma preserves_clear_oneshot_layer_state m : preserves P (clear_oneshot_layer_state m).
Proof.
  intros k Hk. unfold clear_oneshot_layer_state. rewrite 2!exec_bind. change (eval (gets oneshot_data) k) with (oneshot_data k); change (exec (gets oneshot_data) k) with k.
  set (k' := exec (put_oneshot_data (clear_bits (oneshot_data k) m)) k). assert (P k') as Hk'.
  { apply closed_layers; [done| |done]. intros Hl. destruct k as [? ? [] ? ? ? ? ? ?].
    unfold layers_ok, oneshot_data in *. cbn in *. naive_solver eauto using is_byte_clear. }
  match goal with |- P (exec ?m _) => cut (preserves P m); [by intros Hm; apply Hm|] end.
  unfold get_oneshot_layer, get_oneshot_layer_state. preserve.
Qed.
#[local] Hint Resolve preserves_clear_oneshot_layer_state : preserves.
Lemma preserves_upd_config f : preserves P (upd_config f).
Proof. intros k Hk. by apply closed_config. Qed.
#[local] Hint Resolve preserves_upd_config : preserves.
Lemma preserves_oneshot_set b : preserves P (oneshot_set b).
Proof. unfold oneshot_set. preserve. Qed.
#[local] Hint Resolve preserves_oneshot_set : preserves.
Lemma preserves_oneshot_toggle : preserves P oneshot_toggle.
Proof. unfold oneshot_toggle. preserve. Qed.
#[local] Hint Resolve preserves_oneshot_toggle : preserves.
Lemma preserves_oneshot_enable_ : preserves P oneshot_enable_.
Proof. unfold oneshot_enable_. preserve. Qed.
#[local] Hint Resolve preserves_oneshot_enable_ : preserves.
Lemma preserves_oneshot_disable : preserves P oneshot_disable.
Proof. unfold oneshot_disable. preserve. Qed.
#[local] Hint Resolve preserves_oneshot_disable : preserves.
Lemma preserves_put_swap_oneshot s : preserves P (put_swap_oneshot s).
Proof. apply preserves_hands; component. Qed.
#[local] Hint Resolve preserves_put_swap_oneshot : preserves.
Lemma preserves_put_swap_hands b : preserves P (put_swap_hands b).
Proof. apply preserves_hands; component. Qed.
#[local] Hint Resolve preserves_put_swap_hands : preserves.
Lemma preserves_set_oneshot_swaphands_time t : preserves P (set_oneshot_swaphands_time t).
Proof. unfold set_oneshot_swaphands_time. preserve. apply preserves_hands; component. Qed.
#[local] Hint Resolve preserves_set_oneshot_swaphands_time : preserves.
Lemma preserves_set_oneshot_swaphands : preserves P set_oneshot_swaphands.
Proof. unfold set_oneshot_swaphands. preserve. Qed.
#[local] Hint Resolve preserves_set_oneshot_swaphands : preserves.
Lemma preserves_clear_oneshot_swaphands : preserves P clear_oneshot_swaphands.
Proof. unfold clear_oneshot_swaphands. preserve. Qed.
#[local] Hint Resolve preserves_clear_oneshot_swaphands : preserves.
Lemma preserves_release_oneshot_swaphands : preserves P release_oneshot_swaphands.
Proof. unfold release_oneshot_swaphands. preserve. Qed.
#[local] Hint Resolve preserves_release_oneshot_swaphands : preserves.
Lemma preserves_use_oneshot_swaphands : preserves P use_oneshot_swaphands.
Proof. unfold use_oneshot_swaphands. preserve. Qed.
#[local] Hint Resolve preserves_use_oneshot_swaphands : preserves.

(** ** action.c *)

Lemma preserves_tap_lock_key l w : preserves P (tap_lock_key l w).
Proof. unfold tap_lock_key. preserve. Qed.
#[local] Hint Resolve preserves_tap_lock_key : preserves.
Lemma preserves_locking_key a b c d : preserves P (locking_key a b c d).
Proof. unfold locking_key, host_led. preserve. Qed.
#[local] Hint Resolve preserves_locking_key : preserves.
Lemma preserves_register_mouse c b : preserves P (register_mouse c b).
Proof. unfold register_mouse. preserve; apply preserves_hands; component. Qed.
#[local] Hint Resolve preserves_register_mouse : preserves.
Lemma is_byte_mod_bit c : is_byte (MOD_BIT c).
Proof.
  unfold MOD_BIT, is_byte. rewrite Z.shiftl_1_l. assert (0 <= Z.land c 7 < 2 ^ 3).
  { rewrite Z.land_comm. by apply (land_range 3). }
  split; [lia|]. apply Z.pow_lt_mono_r; lia.
Qed.
#[local] Hint Resolve is_byte_mod_bit : preserves.
Lemma preserves_register_code c : preserves P (register_code c).
Proof. unfold register_code. preserve. Qed.
#[local] Hint Resolve preserves_register_code : preserves.
Lemma preserves_unregister_code c : preserves P (unregister_code c).
Proof. unfold unregister_code. preserve. Qed.
#[local] Hint Resolve preserves_unregister_code : preserves.
Lemma preserves_tap_code_delay c d : preserves P (tap_code_delay c d).
Proof. unfold tap_code_delay. preserve. Qed.
#[local] Hint Resolve preserves_tap_code_delay : preserves.
Lemma preserves_tap_code c : preserves P (tap_code c).
Proof. unfold tap_code. preserve. Qed.
#[local] Hint Resolve preserves_tap_code : preserves.
Lemma preserves_register_mods m : is_byte m -> preserves P (register_mods m).
Proof. intros. unfold register_mods. preserve. Qed.
#[local] Hint Resolve preserves_register_mods : preserves.
Lemma preserves_unregister_mods m : preserves P (unregister_mods m).
Proof. unfold unregister_mods. preserve. Qed.
#[local] Hint Resolve preserves_unregister_mods : preserves.
Lemma preserves_register_weak_mods m : is_byte m -> preserves P (register_weak_mods m).
Proof. intros. unfold register_weak_mods. preserve. Qed.
#[local] Hint Resolve preserves_register_weak_mods : preserves.
Lemma preserves_unregister_weak_mods m : preserves P (unregister_weak_mods m).
Proof. unfold unregister_weak_mods. preserve. Qed.
#[local] Hint Resolve preserves_unregister_weak_mods : preserves.
Lemma preserves_neutralize_flashing_modifiers m : preserves P (neutralize_flashing_modifiers m).
Proof. unfold neutralize_flashing_modifiers. preserve. Qed.
#[local] Hint Resolve preserves_neutralize_flashing_modifiers : preserves.

Lemma preserves_record_action r m : preserves P m -> preserves P (record_action r m).
Proof. intros. unfold record_action. preserve. Qed.
#[local] Hint Resolve preserves_record_action : preserves.
Lemma preserves_is_tap_record r : preserves P (is_tap_record r).
Proof. unfold is_tap_record. preserve. Qed.
#[local] Hint Resolve preserves_is_tap_record : preserves.
Lemma preserves_key_with_mods e m c : is_byte m -> preserves P (key_with_mods e m c).
Proof. intros. unfold key_with_mods. preserve. Qed.
#[local] Hint Resolve preserves_key_with_mods : preserves.
Lemma is_byte_action_mods a l : is_byte (action_mods a l).
Proof. unfold action_mods. case_match; auto with preserves. Qed.
#[local] Hint Resolve is_byte_action_mods : preserves.
Lemma preserves_mods_oneshot e m n : is_byte m -> preserves P (mods_oneshot e m n).
Proof. intros. unfold mods_oneshot. preserve. Qed.
#[local] Hint Resolve preserves_mods_oneshot : preserves.
Lemma preserves_mods_tap_toggle e m n : is_byte m -> preserves P (mods_tap_toggle e m n).
Proof. intros. unfold mods_tap_toggle. preserve. Qed.
#[local] Hint Resolve preserves_mods_tap_toggle : preserves.
Lemma preserves_release_tap c : preserves P (release_tap c).
Proof. unfold release_tap. preserve. Qed.
#[local] Hint Resolve preserves_release_tap : preserves.
Lemma preserves_cancels_tap r : preserves P (cancels_tap r).
Proof. unfold cancels_tap. preserve. Qed.
#[local] Hint Resolve preserves_cancels_tap : preserves.
Lemma preserves_mods_tap_key r m c : is_byte m -> preserves P (mods_tap_key r m c).
Proof. intros. unfold mods_tap_key. preserve. Qed.
#[local] Hint Resolve preserves_mods_tap_key : preserves.
Lemma preserves_action_mods_tap r a : preserves P (action_mods_tap r a).
Proof. unfold action_mods_tap. preserve. Qed.
#[local] Hint Resolve preserves_action_mods_tap : preserves.
Lemma preserves_action_usage e a : preserves P (action_usage e a).
Proof. unfold action_usage. preserve. Qed.
#[local] Hint Resolve preserves_action_usage : preserves.
Lemma preserves_layer_bitop op z f g h i : preserves P (f z) -> preserves P (g z) -> preserves P (h z) -> preserves P (i z) -> preserves P (layer_bitop op z f g h i).
Proof. intros. unfold layer_bitop. preserve. Qed.
#[local] Hint Resolve preserves_layer_bitop : preserves.
Lemma preserves_action_layer e a : preserves P (action_layer e a).
Proof. unfold action_layer. preserve. Qed.
#[local] Hint Resolve preserves_action_layer : preserves.
Lemma preserves_action_layer_mods e a : preserves P (action_layer_mods e a).
Proof. unfold action_layer_mods. preserve. Qed.
#[local] Hint Resolve preserves_action_layer_mods : preserves.
Lemma preserves_layer_oneshot e v n d : preserves P (layer_oneshot e v n d).
Proof. unfold layer_oneshot, get_oneshot_layer_state. preserve. Qed.
#[local] Hint Resolve preserves_layer_oneshot : preserves.
Lemma preserves_action_layer_tap e a n d : preserves P (action_layer_tap e a n d).
Proof. unfold action_layer_tap. preserve. Qed.
#[local] Hint Resolve preserves_action_layer_tap : preserves.
Lemma preserves_toggle_swap_hands : preserves P toggle_swap_hands.
Proof. apply preserves_hands; component. Qed.
#[local] Hint Resolve preserves_toggle_swap_hands : preserves.
Lemma preserves_put_swap_held b : preserves P (put_swap_held b).
Proof. apply preserves_hands; component. Qed.
#[local] Hint Resolve preserves_put_swap_held : preserves.
Lemma preserves_undo_swap_held : preserves P undo_swap_held.
Proof. unfold undo_swap_held. preserve. Qed.
#[local] Hint Resolve preserves_undo_swap_held : preserves.
Lemma preserves_action_swap_hands r a : preserves P (action_swap_hands r a).
Proof. unfold action_swap_hands. preserve. Qed.
#[local] Hint Resolve preserves_action_swap_hands : preserves.
Lemma preserves_start_release_oneshot e a n : preserves P (start_release_oneshot e a n).
Proof. unfold start_release_oneshot. preserve. Qed.
#[local] Hint Resolve preserves_start_release_oneshot : preserves.
Lemma preserves_run_action r a d : preserves P (run_action r a d).
Proof. unfold run_action. preserve. Qed.
#[local] Hint Resolve preserves_run_action : preserves.
Lemma preserves_update_leds a : preserves P (update_leds a).
Proof. unfold update_leds. preserve. Qed.
#[local] Hint Resolve preserves_update_leds : preserves.
Lemma preserves_reset_retro_counter : preserves P (put_retro_counter 0).
Proof.
  assert (- 2 ^ (INT_BITS - 1) <= 0 < 2 ^ (INT_BITS - 1)) by (destruct int_bits as [-> | ->]; done).
  apply preserves_hands; component.
Qed.
#[local] Hint Resolve preserves_reset_retro_counter : preserves.
Lemma preserves_retro_tapping r e a n : preserves P (retro_tapping r e a n).
Proof. unfold retro_tapping. preserve. Qed.
#[local] Hint Resolve preserves_retro_tapping : preserves.

(** ** Records *)

Section hooked.
Context `{!HooksKeep P}.

Lemma preserves_process_action again r a : (forall r, preserves P (again r)) -> preserves P (process_action again r a).
Proof. intros. unfold process_action, get_oneshot_layer, get_oneshot_layer_state. preserve. Qed.
#[local] Hint Resolve preserves_process_action : preserves.
Lemma preserves_process_record_handler again r : (forall r, preserves P (again r)) -> preserves P (process_record_handler again r).
Proof. intros. unfold process_record_handler. preserve. Qed.
#[local] Hint Resolve preserves_process_record_handler : preserves.
Lemma preserves_process_record n : forall r, preserves P (process_record n r).
Proof. induction n as [|n IH]; intros r; cbn [process_record]; preserve. Qed.
#[local] Hint Resolve preserves_process_record : preserves.
Lemma preserves_put_action_cache b : preserves P (put_action_cache b).
Proof. apply preserves_layers; component. Qed.
#[local] Hint Resolve preserves_put_action_cache : preserves.
Lemma preserves_process_record_nocache r : preserves P (process_record_nocache r).
Proof. unfold process_record_nocache. preserve. Qed.
#[local] Hint Resolve preserves_process_record_nocache : preserves.
Lemma preserves_process_record_tap_hint r : preserves P (process_record_tap_hint r).
Proof. unfold process_record_tap_hint. preserve. Qed.
#[local] Hint Resolve preserves_process_record_tap_hint : preserves.

Lemma put_bytes i v l : is_byte v -> Forall is_byte l -> Forall is_byte (put l i v).
Proof. intros. by apply Forall_insert. Qed.
Lemma length_put l i v : length (put l i v) = length l.
Proof. apply length_insert. Qed.

Lemma at_is_byte i l : Forall is_byte l -> is_byte (at_ l i).
Proof.
  intros Hl. unfold at_. destruct (l !! _) eqn:E; [|done]. by eapply (Forall_lookup_1 is_byte).
Qed.
Lemma swap_state_ok i l on : Forall is_byte l ->
  Forall is_byte (set_swap_hands_state i l on) /\
  length (set_swap_hands_state i l on) = length l.
Proof.
  intros Hl. unfold set_swap_hands_state. split; [|apply length_put]. apply put_bytes; [|done].
  pose proof (at_is_byte (i / 8) l Hl). assert (is_byte (bit (i mod 8))) by (apply bit_range; dlia).
  destruct on; auto using is_byte_lor, is_byte_clear.
Qed.

Lemma preserves_process_hand_swap e : preserves P (process_hand_swap e).
Proof.
  unfold process_hand_swap. preserve; apply preserves_hands;
    [|by intros []| |by intros []]; intros [] (? & ? & H3 & H4); unfold hands_ok; cbn in *.
  - destruct (swap_state_ok (row (key e) * MATRIX_COLS + col (key e)) matrix_swap_state
      (should_swap_hands (row (key e) * MATRIX_COLS + col (key e))
        (State.matrix_swap_state a) (pressed e) a) H3) as [? ->]. done.
  - destruct (swap_state_ok (col (key e)) encoder_swap_state
      (should_swap_hands (col (key e)) (State.encoder_swap_state a) (pressed e) a) H4) as [? ->]. done.
Qed.
#[local] Hint Resolve preserves_process_hand_swap : preserves.

Lemma preserves_action_exec process e :
  (forall r, preserves P (process r)) -> preserves P (action_exec process e).
Proof.
  intros Hp. unfold action_exec, clear_weak_mods. preserve. apply preserves_hands; [by intros []|].
  intros h [Ht _]. split; [exact Ht|apply int_wraps].
Qed.

(** ** action_tapping.c *)

Section tapping.
Context `{!ClosedTapping P}.

Lemma preserves_tapping f :
  (forall t, tapping_ok t -> tapping_ok (f t)) -> preserves P (upd_tapping f).
Proof. intros Hf k Hk. apply closed_tapping; auto. Qed.

Lemma is_slot_next i : is_slot (next_slot i).
Proof. unfold is_slot, next_slot, WAITING_BUFFER_SIZE. dlia. Qed.

Lemma assign_ok p r t : tapping_ok t -> tapping_ok (assign p r t).
Proof. destruct t, p; unfold tapping_ok; cbn; rewrite ?length_insert; done. Qed.
Lemma preserves_store_record p r : preserves P (store_record p r).
Proof. apply preserves_tapping, assign_ok. Qed.
#[local] Hint Resolve preserves_store_record : preserves.
Lemma preserves_set_tap p f : preserves P (set_tap p f).
Proof. unfold set_tap, load. preserve. Qed.
#[local] Hint Resolve preserves_set_tap : preserves.
Lemma preserves_set_tap_count p n : preserves P (set_tap_count p n).
Proof. apply preserves_set_tap. Qed.
Lemma preserves_put_tapping_key r : preserves P (put_tapping_key r).
Proof. apply preserves_store_record. Qed.
#[local] Hint Resolve preserves_set_tap_count preserves_put_tapping_key : preserves.
Lemma preserves_load p : preserves P (load p).
Proof. apply preserves_gets. Qed.
#[local] Hint Resolve preserves_load : preserves.
Lemma preserves_put_tail i : is_slot i -> preserves P (put_tail i).
Proof.
  intros Hi. apply preserves_tapping. intros t. destruct t; unfold tapping_ok; cbn. naive_solver.
Qed.
#[local] Hint Resolve preserves_put_tail is_slot_next : preserves.
Lemma preserves_process_record_at p : preserves P (process_record_at p).
Proof. unfold process_record_at. preserve. Qed.
#[local] Hint Resolve preserves_process_record_at : preserves.
Lemma preserves_is_tap_record_at p : preserves P (is_tap_record_at p).
Proof. unfold is_tap_record_at. preserve. Qed.
#[local] Hint Resolve preserves_is_tap_record_at : preserves.
Lemma preserves_keycode_at p : preserves P (keycode_at p).
Proof. unfold keycode_at. preserve. Qed.
#[local] Hint Resolve preserves_keycode_at : preserves.
Lemma preserves_waiting_buffer_enq r : preserves P (waiting_buffer_enq r).
Proof.
  unfold waiting_buffer_enq, get_head, get_tail. preserve. apply preserves_tapping. intros t.
  destruct t; unfold tapping_ok; cbn. pose proof (is_slot_next a). naive_solver.
Qed.
Lemma preserves_waiting_buffer_clear : preserves P waiting_buffer_clear.
Proof.
  apply preserves_tapping. intros t. destruct t; unfold tapping_ok, is_slot, WAITING_BUFFER_SIZE; cbn.
  naive_solver lia.
Qed.
#[local] Hint Resolve preserves_waiting_buffer_enq preserves_waiting_buffer_clear : preserves.
Lemma preserves_within_tapping_term e : preserves P (within_tapping_term e).
Proof. unfold within_tapping_term. preserve. Qed.
#[local] Hint Resolve preserves_within_tapping_term : preserves.
Lemma preserves_within_quick_tap_term e : preserves P (within_quick_tap_term e).
Proof. unfold within_quick_tap_term. preserve. Qed.
#[local] Hint Resolve preserves_within_quick_tap_term : preserves.
Lemma preserves_scan_tap idx : preserves P (scan_tap idx).
Proof. induction idx as [|i idx IH]; cbn [scan_tap]; preserve. Qed.
#[local] Hint Resolve preserves_scan_tap : preserves.
Lemma preserves_waiting_buffer_scan_tap : preserves P waiting_buffer_scan_tap.
Proof. unfold waiting_buffer_scan_tap. preserve. Qed.
#[local] Hint Resolve preserves_waiting_buffer_scan_tap : preserves.

(** The count after the reset leaves room for one more. *)
Lemma preserves_registered_taps_add q : preserves P (registered_taps_add q).
Proof.
  intros k Hk. unfold registered_taps_add. rewrite exec_bind.
  change (eval (gets _) k) with (num_registered_taps (tapping k)).
  change (exec (gets _) k) with k. rewrite exec_bind. unfold when.
  assert (forall k, P k -> num_registered_taps (tapping k) < REGISTERED_TAPS_SIZE ->
    P (exec (upd_tapping (fun t =>
      t <| registered_taps := <[Z.to_nat (num_registered_taps t) := q]> (registered_taps t) |>
        <| num_registered_taps := u8 (num_registered_taps t + 1) |>)) k)) as Hadd.
  { intros k' Hk' Hn. apply closed_tapping; [done|]. intros (Hb & Hh & Ht & Hr & Hn').
    unfold REGISTERED_TAPS_SIZE in *. destruct k' as [? ? ? ? [] ? ? ? ?]. cbn in *.
    unfold tapping_ok. cbn. rewrite length_insert, wrap_small by lia.
    unfold REGISTERED_TAPS_SIZE. split_and!; try done; lia. }
  destruct (Z.leb_spec REGISTERED_TAPS_SIZE (num_registered_taps (tapping k))); apply Hadd.
  - rewrite exec_bind. apply preserves_tapping; [|by apply preserves_clear_keyboard].
    intros t. destruct t; unfold tapping_ok, REGISTERED_TAPS_SIZE; cbn. naive_solver lia.
  - done.
  - done.
  - done.
Qed.
#[local] Hint Resolve preserves_registered_taps_add : preserves.

Lemma find_tap_range taps : forall i n q, 0 <= i -> find_tap taps i n q = -1 \/ 0 <= find_tap taps i n q < n.
Proof.
  induction taps as [|t taps IH]; intros i n q Hi; cbn [find_tap]; [by left|].
  destruct (Z.leb_spec n i); [by left|]. destruct (KEYEQ t q); [right; lia|]. apply IH. lia.
Qed.
Lemma preserves_mark_tap_release p e : preserves P (mark_tap_release p e).
Proof.
  unfold mark_tap_release. destruct (pressed e); [apply preserves_skip|].
  intros k Hk. rewrite exec_bind. change (exec (gets _) k) with k.
  change (eval (gets _) k) with (registered_tap_find (key e) (tapping k)).
  unfold registered_tap_find. set (i := find_tap _ _ _ _).
  assert (i = -1 \/ 0 <= i) as Hi
    by (destruct (find_tap_range (registered_taps (tapping k)) 0 (num_registered_taps (tapping k)) (key e)); lia).
  clearbody i. unfold when. destruct (Z.eqb_spec i (-1)); cbn [negb]; [done|].
  revert k Hk. match goal with |- forall k, P k -> P (exec ?m k) => change (preserves P m) end.
  preserve. apply preserves_tapping. intros t (Hb & Hh & Ht & Hr & Hn).
  unfold registered_taps_del_index. destruct (Z.ltb_spec i (num_registered_taps t)); [|done].
  destruct t; cbn in *. unfold tapping_ok.
  repeat case_match; cbn; rewrite ?length_insert; split_and!; try done; lia.
Qed.
#[local] Hint Resolve preserves_mark_tap_release : preserves.

Lemma preserves_find_chordal idx : forall p kc i, preserves P (find_chordal idx p kc i).
Proof. induction idx as [|j idx IH]; intros p kc i; cbn [find_chordal]; preserve. Qed.
#[local] Hint Resolve preserves_find_chordal : preserves.
Lemma preserves_waiting_buffer_find_chordal_hold_tap : preserves P waiting_buffer_find_chordal_hold_tap.
Proof. unfold waiting_buffer_find_chordal_hold_tap. preserve. Qed.
#[local] Hint Resolve preserves_waiting_buffer_find_chordal_hold_tap : preserves.
Lemma preserves_chordal_taps_until n q : preserves P (chordal_taps_until n q).
Proof. induction n as [|n IH]; cbn [chordal_taps_until]; unfold get_tail, get_head; preserve. Qed.
Lemma preserves_process_regular n : preserves P (process_regular n).
Proof. induction n as [|n IH]; cbn [process_regular]; unfold get_tail, get_head; preserve. Qed.
Lemma preserves_process_until n i : preserves P (process_until n i).
Proof. induction n as [|n IH]; cbn [process_until]; unfold get_tail, get_head; preserve. Qed.
#[local] Hint Resolve preserves_chordal_taps_until preserves_process_regular preserves_process_until : preserves.
Lemma preserves_waiting_buffer_chordal_hold_taps_until q : preserves P (waiting_buffer_chordal_hold_taps_until q).
Proof. unfold waiting_buffer_chordal_hold_taps_until. preserve. Qed.
#[local] Hint Resolve preserves_waiting_buffer_chordal_hold_taps_until : preserves.
Lemma preserves_waiting_buffer_process_regular : preserves P waiting_buffer_process_regular.
Proof. unfold waiting_buffer_process_regular. preserve. Qed.
#[local] Hint Resolve preserves_waiting_buffer_process_regular : preserves.
Lemma preserves_first_tap p : preserves P (first_tap p).
Proof. unfold first_tap. preserve. Qed.
#[local] Hint Resolve preserves_first_tap : preserves.
Lemma preserves_chord_is_tap q : preserves P (chord_is_tap q).
Proof. unfold chord_is_tap. preserve. Qed.
#[local] Hint Resolve preserves_chord_is_tap : preserves.
Lemma preserves_permissive_hold q : preserves P (permissive_hold q).
Proof. unfold permissive_hold. preserve. Qed.
#[local] Hint Resolve preserves_permissive_hold : preserves.
Lemma preserves_release_before_tapping p e : preserves P (release_before_tapping p e).
Proof. unfold release_before_tapping. preserve. Qed.
#[local] Hint Resolve preserves_release_before_tapping : preserves.
Lemma preserves_hold_on_other_key : preserves P hold_on_other_key.
Proof. unfold hold_on_other_key, get_tail, get_head. preserve. Qed.
#[local] Hint Resolve preserves_hold_on_other_key : preserves.
Lemma preserves_other_key_pressed p kc : preserves P (other_key_pressed p kc).
Proof. unfold other_key_pressed. preserve. Qed.
#[local] Hint Resolve preserves_other_key_pressed : preserves.
Lemma preserves_tapping_unsettled p e : preserves P (tapping_unsettled p e).
Proof. unfold tapping_unsettled. preserve. Qed.
#[local] Hint Resolve preserves_tapping_unsettled : preserves.
Lemma preserves_release_last_tap r e : preserves P (release_last_tap r e).
Proof. unfold release_last_tap. preserve. Qed.
#[local] Hint Resolve preserves_release_last_tap : preserves.
Lemma preserves_tapping_tapped p e f : preserves P (tapping_tapped p e f).
Proof. unfold tapping_tapped. preserve. Qed.
#[local] Hint Resolve preserves_tapping_tapped : preserves.
Lemma preserves_tapping_pressed p e : preserves P (tapping_pressed p e).
Proof. unfold tapping_pressed. preserve. Qed.
#[local] Hint Resolve preserves_tapping_pressed : preserves.
Lemma preserves_sequential_tap p : preserves P (sequential_tap p).
Proof. unfold sequential_tap. preserve. Qed.
#[local] Hint Resolve preserves_sequential_tap : preserves.
Lemma preserves_tapping_released p e : preserves P (tapping_released p e).
Proof. unfold tapping_released. preserve. Qed.
#[local] Hint Resolve preserves_tapping_released : preserves.
Lemma preserves_tapping_idle p e : preserves P (tapping_idle p e).
Proof. unfold tapping_idle. preserve. Qed.
#[local] Hint Resolve preserves_tapping_idle : preserves.
Lemma preserves_process_tapping p : preserves P (process_tapping p).
Proof. unfold process_tapping. preserve. Qed.
#[local] Hint Resolve preserves_process_tapping : preserves.
Lemma preserves_drain n : preserves P (drain n).
Proof. induction n as [|n IH]; cbn [drain]; unfold get_tail, get_head; preserve. Qed.
#[local] Hint Resolve preserves_drain : preserves.
Lemma preserves_action_tapping_process r : preserves P (action_tapping_process r).
Proof. unfold action_tapping_process. preserve. Qed.
#[local] Hint Resolve preserves_action_tapping_process : preserves.
End tapping.
End hooked.
End core.
