(* ===== verification/Invariant.v ===== *)
(** * The invariant of the keyboard core

    [keyboard_ok], preserved by a whole [action_exec]: the modifier masks, the
    layer masks, the one-shot layer, the three one-shot timers and the retro
    tapping counter fit their C types; the layer caches, the swap bits, the
    waiting buffer and the list of registered taps keep their sizes, and the
    head, the tail and the count of the last two stay inside; the reports are
    well formed, and the host shows the one remembered.  The fields of the
    records that wait (tap counts, positions, times) are not bounded here: they
    come from the caller and the callbacks. *)

From S2P Require Import Prelude.
From S2P Require Import Bitwise.
From S2P Require Import Keycodes.
From S2P Require Import Report.
From S2P Require Import State.
From S2P Require Import Host.
From S2P Require Import ActionUtil.
From S2P Require Import ActionCode.
From S2P Require Import Keymap.
From S2P Require Import ActionLayer.
From S2P Require Import Oneshot.
From S2P Require Import Action.
From S2P Require Import Tapping.
From S2P Require Import ActionUtilSpec.
From S2P Require Import Closure.

Section invariant.
Context `{!Config} `{!ConfigOk}.

Record keyboard_ok (k : keyboard) : Prop := {
  ok_reports : reports_ok (rep k);
  ok_mods : mods_ok (mods k);
  ok_layers : layers_ok (layers k);
  ok_hands : hands_ok (hands k);
  ok_timers : mods_timed (mods k) /\ layers_timed (layers k) /\ hands_timed (hands k);
  ok_tapping : tapping_ok (tapping k);
  ok_synced : synced k;
}.

(** [synced] is about the reports remembered and the ones sent. *)
Lemma synced_frame k k' :
  synced k -> driver (host k') = driver (host k) ->
  last_report (mods k') = last_report (mods k) ->
  last_nkro_report (mods k') = last_nkro_report (mods k) ->
  sent (host k') = sent (host k) -> synced k'.
Proof.
  unfold synced, keyboard_shown, nkro_shown. intros Hs -> -> -> ->. exact Hs.
Qed.

Lemma synced_deliver k o : synced k -> is_report o = false -> synced (deliver o k).
Proof.
  intros (Hd & Hk & Hn) Ho. split; [exact Hd|]. frame.
  rewrite keyboard_shown_emit, nkro_shown_emit. by destruct o.
Qed.

Lemma keyboard_ok_rep k r : reports_ok r -> keyboard_ok k -> keyboard_ok (k <| rep := r |>).
Proof. intros Hr []. by split. Qed.

Lemma mods_ok_oneshot m m' :
  real_mods m' = real_mods m -> weak_mods m' = weak_mods m ->
  oneshot_locked_mods m' = oneshot_locked_mods m ->
  weak_override_mods m' = weak_override_mods m -> suppressed_mods m' = suppressed_mods m ->
  oneshot_mods m' = 0 \/ oneshot_mods m' = oneshot_mods m -> mods_ok m -> mods_ok m'.
Proof.
  unfold mods_ok. intros -> -> -> -> -> [-> | ->] Hm; [|done].
  naive_solver (apply is_byte_0).
Qed.

Lemma after_oneshot_timed k : mods_timed (mods k) -> mods_timed (mods (after_oneshot k)).
Proof.
  intros Ht. unfold after_oneshot. destruct (uses_oneshot k) eqn:Hu; [|done].
  unfold uses_oneshot in Hu. apply andb_prop in Hu as [Ho%nz_true _].
  rewrite clear_oneshot_mods_run by done. change (is_word 16
    (if 0 <? ONESHOT_TIMEOUT then 0 else oneshot_time (mods k))). by case_match.
Qed.

Lemma sent_timed k :
  driver (host k) = true -> mods_timed (mods k) -> mods_timed (mods (exec send_keyboard_report k)).
Proof.
  intros Hd Ht%after_oneshot_timed. unfold send_keyboard_report, exec. rewrite run_gets.
  destruct (nkro_active k).
  - pose proof (send_nkro_report_run k Hd) as E. unfold exec in E. rewrite E. cbv zeta. by case_decide.
  - pose proof (send_6kro_report_run k Hd) as E. unfold exec in E. rewrite E. cbv zeta. by case_decide.
Qed.

Lemma keyboard_ok_send : preserves keyboard_ok send_keyboard_report.
Proof.
  intros k [Hr Hm Hl Hh (Hmt & Hlt & Hht) Ht Hs].
  pose proof (sent_timed k (proj1 Hs) Hmt) as Hmt'.
  destruct (send_report_sent k Hs).
  split; rewrite ?sent_layers, ?sent_hands, ?sent_tapping; try congruence; auto.
  apply (mods_ok_oneshot (mods k)); try done. rewrite sent_oneshot. case_match; auto.
Qed.

#[export] Instance keyboard_ok_closed : Closed keyboard_ok.
Proof.
  split.
  - intros k m [] Hm Ht Hl Hn. split; auto; try (by eapply synced_frame); naive_solver.
  - intros k l [] Hl Ht. split; auto; try (by eapply synced_frame); naive_solver.
  - intros k h [] Hh Ht. split; auto; try (by eapply synced_frame); naive_solver.
  - intros k c []. split; auto; by eapply synced_frame.
  - intros k o [] Ho. split; auto; by apply synced_deliver.
  - intros k u []. split; auto; by eapply synced_frame.
  - intros k u []. split; auto; by eapply synced_frame.
  - intros c k Hk. apply keyboard_ok_rep; [|done]. apply add_key_reports_ok, Hk.
  - intros c k Hk. apply keyboard_ok_rep; [|done]. apply del_key_reports_ok, Hk.
  - intros k Hk. apply keyboard_ok_rep; [|done]. apply clear_keys_reports_ok, Hk.
  - apply keyboard_ok_send.
Qed.

#[export] Instance keyboard_ok_closed_tapping : ClosedTapping keyboard_ok.
Proof. intros k t [] Ht. split; auto; by eapply synced_frame. Qed.

(** C2: whatever events arrive, and whatever the callbacks do as long as they
    keep it themselves, the key events handled by [action_exec] keep the
    invariant of the core: every modifier mask is a byte, the layer masks fit
    their width, the one-shot timers fit 16 bits and the retro tapping counter
    an int; the caches, the swap bits, the waiting buffer and the list of
    registered taps keep their sizes, and the indices into the last two stay
    inside; both reports stay well formed, and the host shows what was last
    sent.  It does not say that an encoder event has an entry in the caches and
    swap bits, which the code does not check either ([at_array]). *)
Theorem keyboard_invariant `{!Hooks} `{!HooksKeep keyboard_ok} es k :
  keyboard_ok k ->
  keyboard_ok (foldl (fun k e => exec (action_exec action_tapping_process e) k) k es).
Proof.
  revert k. induction es as [|e es IH]; intros k Hk; [done|]. cbn. apply IH.
  apply (preserves_action_exec keyboard_ok); [|done].
  intros r. apply (preserves_action_tapping_process keyboard_ok).
Qed.
End invariant.
