(* ===== verification/LayerSpec.v ===== *)
(** * Layers: what a key means, and from which layer

    The topmost layer lookup, the layer masks bit by bit, the source layer
    cache, and the promise the cache exists for: a key is released on the
    layer it was pressed on. *)

From S2P Require Import Prelude.
From S2P Require Import Bitwise.
From S2P Require Import Keycodes.
From S2P Require Import Report.
From S2P Require Import State.
From S2P Require Import Host.
From S2P Require Import ActionUtil.
From S2P Require Import ActionCode.
From S2P Require Import Keymap.
From S2P Require Import ActionLayer.
From S2P Require Import Oneshot.
From S2P Require Import Action.
From S2P Require Import Tapping.
From S2P Require Import ActionUtilSpec.
From S2P Require Import Closure.

Section layers.
Context `{!Config} `{!Hooks} `{!ConfigOk}.

(** ** Layer masks *)

Lemma layer_bit_small i : 0 <= i < LAYER_STATE_BITS -> layer_bit i = bit i.
Proof. intros Hi. apply wrap_small. by apply bit_range. Qed.

Lemma nz_land_layer_bit s i :
  0 <= i < LAYER_STATE_BITS -> nz (Z.land s (layer_bit i)) = Z.testbit s i.
Proof. intros Hi. rewrite layer_bit_small by done. apply nz_land_bit. lia. Qed.

(** ** The topmost layer *)

(** Layer [i] is on and gives the key a meaning. *)
Definition speaks (active : Z) (act : Z -> Z) (i : Z) : bool :=
  Z.testbit active i && negb (act i =? ACTION_TRANSPARENT).

Lemma topmost_layer_highest n active act :
  Z.of_nat n <= LAYER_STATE_BITS ->
  let i := topmost_layer n active act in
  (forall j, i < j < Z.of_nat n -> speaks active act j = false) /\
  (i = 0 \/ 0 <= i < Z.of_nat n /\ speaks active act i = true).
Proof.
  induction n as [|n IH]; intros Hn; cbn [topmost_layer]; cbv zeta.
  { split; [lia|]. by left. }
  rewrite nz_land_layer_bit by lia.
  change (Z.testbit _ _ && _) with (speaks active act (Z.of_nat n)).
  destruct (speaks active act (Z.of_nat n)) eqn:Hs.
  - split; [lia|]. right. split; [lia|done].
  - destruct IH as (Habove & Hat); [lia|]. split.
    + intros j Hj. destruct (decide (j = Z.of_nat n)) as [->|]; [done|]. apply Habove. lia.
    + destruct Hat as [?|[? ?]]; [by left|right]. split; [lia|done].
Qed.

Definition active_layers (k : keyboard) : Z :=
  Z.lor (layer_state (layers k)) (default_layer_state (layers k)).
Definition key_action (k : keyboard) (q : keypos_t) (i : Z) : Z :=
  action_for_key i q (keymap_config k).

(** C7: the layer of a key is the highest active layer on which the key is not
    transparent, and layer 0 when there is none; the lookup ends inside the
    keymap. *)
Theorem topmost_layer_wins q k :
  let i := eval (layer_switch_get_layer q) k in
  0 <= i < MAX_LAYER /\
  (forall j, i < j < MAX_LAYER ->
     Z.testbit (active_layers k) j = false \/ key_action k q j = ACTION_TRANSPARENT) /\
  (Z.testbit (active_layers k) i = true /\ key_action k q i <> ACTION_TRANSPARENT \/ i = 0) /\
  eval (layer_switch_get_action q) k = key_action k q i.
Proof.
  pose proof max_layer. intros i. split_and!; [..|done]; subst i.
  all: destruct (topmost_layer_highest (Z.to_nat MAX_LAYER) (active_layers k) (key_action k q))
    as [Habove Hat]; [lia|]; rewrite Z2Nat.id in * by lia.
  all: change (eval (layer_switch_get_layer q) k)
    with (topmost_layer (Z.to_nat MAX_LAYER) (active_layers k) (key_action k q)).
  - destruct Hat as [->|[? _]]; lia.
  - destruct Hat as [->|[? _]]; lia.
  - intros j Hj. specialize (Habove j Hj). unfold speaks in Habove.
    apply andb_false_iff in Habove as [?|Ha]; [by left|right].
    destruct (Z.eqb_spec (key_action k q j) ACTION_TRANSPARENT); [done|done].
  - destruct Hat as [?|[_ Hs]]; [by right|left]. unfold speaks in Hs.
    apply andb_prop in Hs as [? Ha]. split; [done|].
    by destruct (Z.eqb_spec (key_action k q (topmost_layer (Z.to_nat MAX_LAYER) (active_layers k) (key_action k q))) ACTION_TRANSPARENT).
Qed.

(** ** Changing layers *)

(** Clearing the keys after a layer change touches neither the layers nor the
    settings. *)
Definition layers_and_config (l : layers_state) (c : keymap_config_t) (k : keyboard) : Prop :=
  layers k = l /\ keymap_config k = c.

Lemma clear_keyboard_frame l c :
  preserves (layers_and_config l c) clear_keyboard_but_mods_and_keys.
Proof.
  unfold clear_keyboard_but_mods_and_keys, host_system_send, host_consumer_send, clear_weak_mods,
    set_weak_mods, send_keyboard_report, send_nkro_report, send_6kro_report, get_mods_for_report,
    clear_oneshot_mods, put_oneshot_mods, set_oneshot_time, emit, host_keyboard_send,
    host_nkro_send, put_keyboard_report, put_nkro_report, emit, upd_mods, upd_rep, upd_host.
  preserve; done.
Qed.

Lemma layer_release_frame k :
  layers (exec layer_release k) = layers k /\ keymap_config (exec layer_release k) = keymap_config k.
Proof.
  assert (preserves (layers_and_config (layers k) (keymap_config k)) layer_release) as H';
    [|by apply H'].
  pose proof (clear_keyboard_frame (layers k) (keymap_config k)).
  unfold layer_release, clear_keyboard_but_mods, clear_keys, upd_rep. preserve; done.
Qed.

Lemma layer_state_set_layers z k :
  layers (exec (layer_state_set z) k) =
    (layers k) <| layer_state := layer_word (layer_state_set_kb z) |>.
Proof. unfold layer_state_set. rewrite exec_bind. by rewrite (proj1 (layer_release_frame _)). Qed.

Lemma layer_state_set_config z k : keymap_config (exec (layer_state_set z) k) = keymap_config k.
Proof. unfold layer_state_set. rewrite exec_bind. by rewrite (proj2 (layer_release_frame _)). Qed.

Lemma default_layer_state_set_layers z k :
  layers (exec (default_layer_state_set z) k) =
    (layers k) <| default_layer_state := layer_word (default_layer_state_set_kb z) |>.
Proof. unfold default_layer_state_set. rewrite exec_bind. by rewrite (proj1 (layer_release_frame _)). Qed.

Lemma layer_word_small z : is_word LAYER_STATE_BITS z -> layer_word z = z.
Proof. apply wrap_small. Qed.

(** The layers after an operation of the mask, when the keyboard's callback
    accepts it. *)
Lemma layer_state_after (f : Z -> Z) k :
  (forall s, layer_state_set_kb s = s) -> is_word LAYER_STATE_BITS (f (layer_state (layers k))) ->
  layers (exec (l ← get_layer_state; layer_state_set (layer_word (f l))) k) =
    (layers k) <| layer_state := f (layer_state (layers k)) |>.
Proof.
  intros Hkb Hf. rewrite exec_bind. cbn [eval gets fst]. unfold get_layer_state.
  change (exec (gets _) k) with k. change (eval (gets _) k) with (layer_state (layers k)).
  rewrite layer_state_set_layers, Hkb. by rewrite !layer_word_small by by rewrite ?layer_word_small.
Qed.

(** [layer_on], [layer_off], [layer_invert], [layer_move] and
    [layer_clear] set, clear and flip exactly the bit of their layer in the
    layer mask, and change nothing else about the layers. *)
Theorem layer_operations k i :
  (forall s, layer_state_set_kb s = s) -> layers_ok (layers k) -> 0 <= i < LAYER_STATE_BITS ->
  let after f := layer_state (layers (exec f k)) in
  let same f := layers (exec f k) = (layers k) <| layer_state := after f |> in
  (forall j, 0 <= j ->
     Z.testbit (after (layer_on i)) j = Z.testbit (layer_state (layers k)) j || (j =? i) /\
     Z.testbit (after (layer_off i)) j = Z.testbit (layer_state (layers k)) j && negb (j =? i) /\
     Z.testbit (after (layer_invert i)) j = xorb (Z.testbit (layer_state (layers k)) j) (j =? i) /\
     Z.testbit (after (layer_move i)) j = (j =? i)) /\
  after layer_clear = 0 /\
  same (layer_on i) /\ same (layer_off i) /\ same (layer_invert i) /\ same (layer_move i) /\
  same layer_clear.
Proof.
  intros Hkb (Hw & _) Hi after same. pose proof bits_pos as Hp.
  assert (is_word LAYER_STATE_BITS (bit i)) as Hb by by apply bit_range.
  pose proof (layer_bit_small i Hi) as Hbit.
  assert (forall j, Z.testbit (bit i) j = (j =? i)) as Htest.
  { intros j. rewrite testbit_bit by lia. by destruct (Z.eqb_spec j i); case_bool_decide. }
  pose proof (layer_state_after (fun l => Z.lor l (layer_bit i)) k Hkb) as Hon.
  pose proof (layer_state_after (fun l => clear_bits l (layer_bit i)) k Hkb) as Hoff.
  pose proof (layer_state_after (fun l => Z.lxor l (layer_bit i)) k Hkb) as Hinv.
  rewrite Hbit in *. specialize (Hon ltac:(by apply lor_range)).
  specialize (Hoff ltac:(by apply clear_bits_range)). specialize (Hinv ltac:(by apply lxor_range)).
  assert (layers (exec (layer_move i) k) = (layers k) <| layer_state := bit i |>) as Hmove.
  { unfold layer_move. by rewrite layer_state_set_layers, Hkb, Hbit, layer_word_small. }
  assert (layers (exec layer_clear k) = (layers k) <| layer_state := 0 |>) as Hclear.
  { unfold layer_clear. rewrite layer_state_set_layers, Hkb, layer_word_small; [done|].
    unfold is_word. lia. }
  subst after same. cbv beta. unfold layer_on, layer_off, layer_invert. rewrite Hbit, Hon, Hoff, Hinv, Hmove, Hclear.
  split; [|done]. intros j Hj. cbn. destruct (layers k); cbn.
  rewrite Z.lor_spec, testbit_clear, Z.lxor_spec, !Htest by done. done.
Qed.

(** ** The source layer cache *)

Lemma testbit_set_cache_bit layer sb bn c j :
  0 <= sb < 8 -> 0 <= j < 8 -> 0 <= bn ->
  Z.testbit (set_cache_bit layer sb bn c) j =
    if j =? sb then Z.testbit layer bn else Z.testbit c j.
Proof.
  intros Hs Hj Hb. unfold set_cache_bit. rewrite testbit_wrap, bool_decide_true by lia.
  rewrite Z.lxor_spec, Z.land_spec, Z.lxor_spec, testbit_bit, nz_land_bit by lia. cbn [andb].
  destruct (Z.eqb_spec j sb) as [->|Hne].
  - rewrite bool_decide_true by done. destruct (Z.testbit layer bn); cbn.
    + rewrite Z.bits_m1 by lia. by destruct (Z.testbit c sb).
    + rewrite Z.bits_0. by destruct (Z.testbit c sb).
  - rewrite bool_decide_false by done. by rewrite andb_false_r, xorb_false_r.
Qed.

(** The bit of a line at a position counted from [bn]. *)
Definition line_bit (sb : Z) (line : list Z) (n : Z) : bool :=
  match line !! Z.to_nat n with Some c => Z.testbit c sb | None => false end.

Lemma testbit_get_cache_bits sb line : forall bn j,
  0 <= sb -> 0 <= bn -> 0 <= j ->
  Z.testbit (get_cache_bits sb bn line) j =
    if bn <=? j then line_bit sb line (j - bn) else false.
Proof.
  induction line as [|c line IH]; intros bn j Hs Hb Hj; cbn [get_cache_bits].
  { rewrite Z.bits_0. by destruct (bn <=? j). }
  rewrite Z.lor_spec, Z.shiftl_spec, IH, nz_land_bit by lia.
  destruct (Z.leb_spec bn j), (Z.leb_spec (bn + 1) j); try lia.
  - assert (Z.testbit (if Z.testbit c sb then 1 else 0) (j - bn) = false) as ->.
    { destruct (Z.testbit c sb); [|by rewrite Z.bits_0].
      apply (testbit_out_of_range 1); lia. }
    unfold line_bit. replace (Z.to_nat (j - bn)) with (S (Z.to_nat (j - (bn + 1)))) by lia. done.
  - replace (j - bn) with 0 by lia. rewrite orb_false_r. change (line_bit sb (c :: line) 0) with (Z.testbit c sb).
    by destruct (Z.testbit c sb).
  - rewrite orb_false_r. apply Z.testbit_neg_r. lia.
Qed.

Lemma line_bit_set layer sb sb' line : forall bn n,
  0 <= sb < 8 -> 0 <= sb' < 8 -> 0 <= bn -> 0 <= n ->
  line_bit sb' (set_cache_bits layer sb bn line) n =
    if (sb' =? sb) && (n <? Z.of_nat (length line)) then Z.testbit layer (bn + n)
    else line_bit sb' line n.
Proof.
  induction line as [|c line IH]; intros bn n Hs Hs' Hb Hn; cbn [set_cache_bits length].
  { destruct (Z.ltb_spec n (Z.of_nat 0)); [lia|]. by rewrite andb_false_r. }
  destruct (decide (n = 0)) as [->|Hn0].
  - change (line_bit sb' (?c :: ?l) 0) with (Z.testbit c sb'). rewrite testbit_set_cache_bit, Z.add_0_r by lia.
    destruct (sb' =? sb); [|done]. by destruct (Z.ltb_spec 0 (Z.of_nat (S (length line)))); [|lia].
  - assert (forall c l, line_bit sb' (c :: l) n = line_bit sb' l (n - 1)) as Hcons.
    { intros. unfold line_bit. by replace (Z.to_nat n) with (S (Z.to_nat (n - 1))) by lia. }
    rewrite !Hcons, IH by lia.
    replace (bn + 1 + (n - 1)) with (bn + n) by lia.
    destruct (Z.ltb_spec (n - 1) (Z.of_nat (length line))),
      (Z.ltb_spec n (Z.of_nat (S (length line)))); [done|lia|lia|done].
Qed.

Lemma max_layer_bits_range : 3 <= MAX_LAYER_BITS <= 5 /\ MAX_LAYER <= 2 ^ MAX_LAYER_BITS.
Proof.
  pose proof max_layer. destruct layer_state_bits as [[E1 E2]|[[E1 E2]|[E1 E2]]]; rewrite E1, E2 in *; lia.
Qed.

Lemma read_update_cache n layer e e' cache :
  cache_ok n cache -> 0 <= layer < MAX_LAYER -> 0 <= e < n -> 0 <= e' < n ->
  read_source_layers_cache_impl e' (update_source_layers_cache_impl layer e cache) =
    if e' =? e then layer else read_source_layers_cache_impl e' cache.
Proof.
  intros [Hl Hf] Hlayer He He'. pose proof max_layer_bits_range as [Hmb Hml].
  unfold read_source_layers_cache_impl, update_source_layers_cache_impl.
  destruct (lookup_lt_is_Some_2 cache (Z.to_nat (e' / 8))) as [line Hline]; [dlia|].
  pose proof (Forall_lookup_1 _ _ _ _ Hf Hline) as [Hlen _].
  assert (forall j, 0 <= j ->
    Z.testbit (get_cache_bits (e' mod 8) 0 (set_cache_bits layer (e mod 8) 0 line)) j =
    if e' mod 8 =? e mod 8 then Z.testbit layer j else Z.testbit (get_cache_bits (e' mod 8) 0 line) j)
    as Hbits.
  { intros j Hj. rewrite !testbit_get_cache_bits by dlia.
    destruct (Z.leb_spec 0 j); [|lia]. rewrite line_bit_set, Z.add_0_l, Z.sub_0_r by dlia.
    destruct (e' mod 8 =? e mod 8); [|done]. cbn [andb].
    destruct (Z.ltb_spec j (Z.of_nat (length line))); [done|].
    unfold line_bit. rewrite lookup_ge_None_2 by lia. symmetry.
    apply (testbit_out_of_range MAX_LAYER_BITS); lia. }
  assert (is_byte layer) as Hbyte.
  { unfold is_byte. split; [lia|]. eapply Z.lt_le_trans; [apply Hlayer|]. etrans; [exact Hml|].
    apply Z.pow_le_mono_r; lia. }
  destruct (decide (e' / 8 = e / 8)) as [Hd|Hd].
  - rewrite <-Hd, list_lookup_alter_eq, Hline. cbn [default fmap option_fmap option_map].
    revert Hbits.
    destruct (Z.eqb_spec (e' mod 8) (e mod 8)), (Z.eqb_spec e' e); intros Hbits; [|dlia|dlia|].
    + etrans; [|by apply (wrap_small 8 layer)]. f_equal. by apply Z.bits_inj'.
    + f_equal. by apply Z.bits_inj'.
  - rewrite list_lookup_alter_ne by dlia. by destruct (Z.eqb_spec e' e); [subst|].
Qed.

(** ** A key is released on the layer it was pressed on *)

(** The keys with an entry in one of the two caches. *)
Definition cached_key (q : keypos_t) : Prop :=
  0 <= row q < 256 /\ 0 <= col q < 256 /\
  (in_matrix q = true \/ on_encoder q = true /\ col q < NUM_ENCODERS).

Definition caches_ok (k : keyboard) : Prop :=
  cache_ok (MATRIX_ROWS * MATRIX_COLS) (source_layers_cache (layers k)) /\
  cache_ok NUM_ENCODERS (encoder_source_layers_cache (layers k)).

Definition source_layer (q : keypos_t) (k : keyboard) : Z := eval (read_source_layers_cache q) k.

Lemma row_col_unique n r c r' c' :
  0 <= c < n -> 0 <= c' < n -> r * n + c = r' * n + c' -> r = r' /\ c = c'.
Proof. intros Hc Hc' E. assert (r = r') as -> by nia. split; [done|lia]. Qed.

Lemma entry_number_matrix q :
  0 <= row q -> 0 <= col q -> in_matrix q = true ->
  row q < MATRIX_ROWS /\ col q < MATRIX_COLS /\ entry_number q = row q * MATRIX_COLS + col q /\
  0 <= entry_number q < MATRIX_ROWS * MATRIX_COLS.
Proof.
  intros Hr Hc Hm. unfold in_matrix in Hm. apply andb_prop in Hm as [?%Z.ltb_lt ?%Z.ltb_lt].
  pose proof matrix_rows. pose proof matrix_cols. split; [done|]. split; [done|].
  assert (entry_number q = row q * MATRIX_COLS + col q) as ->.
  { unfold entry_number. rewrite !wrap_small; [done|nia|]. rewrite wrap_small; nia. }
  split; [done|nia].
Qed.

Lemma at_array_inside i n k : 0 <= i < n -> at_array i n k = (tt, k).
Proof.
  intros Hi. unfold at_array. assert (within 0 (n - 1) i = true) as ->; [|done].
  unfold within. rewrite !(proj2 (Z.leb_le _ _)) by lia. done.
Qed.

(** Writing the cache at one key is read back there and nowhere else; the
    entries of the encoders turning left and right are the same. *)
Definition same_entry (q q' : keypos_t) : Prop :=
  in_matrix q = true /\ in_matrix q' = true /\ row q = row q' /\ col q = col q' \/
  in_matrix q = false /\ in_matrix q' = false /\ on_encoder q = true /\ on_encoder q' = true /\
    col q = col q'.

Lemma source_layer_update q q' layer k :
  caches_ok k -> cached_key q -> cached_key q' -> 0 <= layer < MAX_LAYER ->
  let k' := exec (update_source_layers_cache q layer) k in
  caches_ok k' /\ disable_action_cache (layers k') = disable_action_cache (layers k) /\
  source_layer q k' = layer /\
  (~ same_entry q q' -> source_layer q' k' = source_layer q' k).
Proof.
  intros [Hm He] (Hr & Hc & Hq) (Hr' & Hc' & Hq') Hlayer k'. subst k'.
  assert (on_encoder q = true /\ col q < NUM_ENCODERS -> in_matrix q = false ->
    0 <= col q < NUM_ENCODERS) as Henc by lia.
  unfold update_source_layers_cache, source_layer, read_source_layers_cache, eval, caches_ok,
    same_entry, gets.
  destruct (in_matrix q) eqn:Hmq.
  - destruct (entry_number_matrix q) as (? & ? & Hen & Hen0); [lia|lia|done|]. unfold exec, upd_layers, modify.
    cbn [snd fst]. destruct k as [? ? [] ? ? ? ? ? ?]. cbn in *.
    split; [by split; [apply update_cache_ok|]|]. split; [done|].
    rewrite (read_update_cache (MATRIX_ROWS * MATRIX_COLS)), Z.eqb_refl by done.
    split; [done|]. intros Hne. destruct (in_matrix q') eqn:Hmq'; [|done].
    destruct (entry_number_matrix q') as (? & ? & Hen' & Hen0'); [lia|lia|done|].
    rewrite (read_update_cache (MATRIX_ROWS * MATRIX_COLS)) by done.
    destruct (Z.eqb_spec (entry_number q') (entry_number q)) as [E|]; [|done].
    exfalso. apply Hne. left.
    destruct (row_col_unique MATRIX_COLS (row q') (col q') (row q) (col q)); [lia..|]. by split_and!.
  - destruct Hq as [?|[Hon Hlt]]; [done|]. rewrite Hon.
    assert (0 <= col q / 8 < (NUM_ENCODERS + 7) / 8) as Hat by dlia.
    unfold exec. rewrite (run_bind _ _ _ _ _ (at_array_inside _ _ k Hat)).
    unfold upd_layers, modify.
    cbn [snd fst]. destruct k as [? ? [] ? ? ? ? ? ?]. cbn in *.
    split; [by split; [|apply update_cache_ok]|]. split; [done|].
    rewrite (read_update_cache NUM_ENCODERS), Z.eqb_refl by (done || lia).
    split; [done|]. intros Hne. destruct (in_matrix q') eqn:Hmq'; [done|].
    destruct Hq' as [?|[Hon' Hlt']]; [done|]. rewrite Hon'.
    rewrite (read_update_cache NUM_ENCODERS) by (done || lia).
    destruct (Z.eqb_spec (col q') (col q)) as [E|]; [|done].
    exfalso. apply Hne. right. by split_and!.
Qed.

(** What may happen while [q] is down: layers, modifiers, reports and
    everything else but the caches change, and other keys go down and up. *)
Inductive undisturbed (q : keypos_t) : keyboard -> keyboard -> Prop :=
  | other_state k k' :
      source_layers_cache (layers k') = source_layers_cache (layers k) ->
      encoder_source_layers_cache (layers k') = encoder_source_layers_cache (layers k) ->
      disable_action_cache (layers k') = disable_action_cache (layers k) ->
      undisturbed q k k'
  | other_press q' k :
      cached_key q' -> ~ same_entry q' q ->
      undisturbed q k (exec (store_or_get_action true q') k)
  | other_release q' k :
      undisturbed q k (exec (store_or_get_action false q') k).

Lemma layer_switch_range q k : 0 <= eval (layer_switch_get_layer q) k < MAX_LAYER.
Proof.
  pose proof max_layer.
  destruct (topmost_layer_highest (Z.to_nat MAX_LAYER) (active_layers k) (key_action k q))
    as [_ Hat]; [lia|].
  change (eval (layer_switch_get_layer q) k)
    with (topmost_layer (Z.to_nat MAX_LAYER) (active_layers k) (key_action k q)).
  destruct Hat; lia.
Qed.

Lemma store_press_run q k :
  STRICT_LAYER_RELEASE = false -> disable_action_cache (layers k) = false ->
  store_or_get_action true q k =
    (key_action k q (eval (layer_switch_get_layer q) k),
     exec (update_source_layers_cache q (eval (layer_switch_get_layer q) k)) k).
Proof.
  intros Hs Hd. set (layer := eval (layer_switch_get_layer q) k).
  assert (keymap_config (exec (update_source_layers_cache q layer) k) = keymap_config k) as Hc.
  { unfold update_source_layers_cache, at_array, exec.
    destruct (in_matrix q); [done|]. destruct (on_encoder q); [|done]. by destruct (within _ _ _). }
  unfold store_or_get_action. rewrite Hs, run_gets, Hd. cbv iota.
  unfold key_action. rewrite <-Hc. reflexivity.
Qed.

Lemma run_source_layer {B} (g : Z -> stm keyboard B) q k :
  (read_source_layers_cache q ≫= g) k = g (source_layer q k) k.
Proof. done. Qed.

Lemma store_release_run q k :
  STRICT_LAYER_RELEASE = false -> disable_action_cache (layers k) = false ->
  store_or_get_action false q k = (key_action k q (source_layer q k), k).
Proof.
  intros Hs Hd. unfold store_or_get_action. rewrite Hs, run_gets, Hd. cbv iota.
  rewrite run_source_layer. reflexivity.
Qed.

Definition held_from (q : keypos_t) (layer : Z) (k : keyboard) : Prop :=
  caches_ok k /\ disable_action_cache (layers k) = false /\ source_layer q k = layer.

Lemma undisturbed_held q layer k k' :
  STRICT_LAYER_RELEASE = false -> cached_key q ->
  undisturbed q k k' -> held_from q layer k -> held_from q layer k'.
Proof.
  intros Hs Hq Hu (Hc & Hd & Hl). destruct Hu as [k k' E1 E2 E3|q' k Hq' Hne|q' k].
  - unfold held_from, caches_ok, source_layer, read_source_layers_cache, eval, gets in *.
    cbn in *. by rewrite E1, E2, E3.
  - unfold exec. rewrite store_press_run by done. cbn [snd].
    destruct (source_layer_update q' q _ k Hc Hq' Hq (layer_switch_range q' k)) as (Hc' & Hd' & _ & Hother).
    split; [done|]. split; [congruence|]. by rewrite Hother.
  - unfold exec. by rewrite store_release_run.
Qed.

(** C3: whatever layers are switched and whatever other keys go down and up
    while a key is held, its release has the action it has on the layer it was
    pressed on, so that what its press did is undone (in builds that keep the
    source layer cache). *)
Theorem release_uses_press_layer q k k' :
  STRICT_LAYER_RELEASE = false -> disable_action_cache (layers k) = false ->
  caches_ok k -> cached_key q ->
  star (undisturbed q) (exec (store_or_get_action true q) k) k' ->
  let layer := eval (layer_switch_get_layer q) k in
  eval (store_or_get_action true q) k = action_for_key layer q (keymap_config k) /\
  eval (store_or_get_action false q) k' = action_for_key layer q (keymap_config k').
Proof.
  intros Hs Hd Hc Hq Hstar layer.
  assert (held_from q layer (exec (store_or_get_action true q) k)) as Hheld.
  { unfold exec. rewrite store_press_run by done. cbn [snd].
    destruct (source_layer_update q q _ k Hc Hq Hq (layer_switch_range q k)) as (Hc' & Hd' & Hl & _).
    split; [done|]. split; [congruence|done]. }
  apply (star_invariant _ _ _ _ (fun a b => undisturbed_held q layer a b Hs Hq) Hstar) in Hheld.
  destruct Hheld as (_ & Hd' & Hl). unfold eval at 1 2.
  rewrite store_press_run, store_release_run, Hl by done. done.
Qed.

(** ** Tri layer *)

(** [update_tri_layer_state] turns the third layer on exactly when both
    others are on, and leaves the other layers alone. *)
Theorem tri_layer_state s a b c j :
  is_word LAYER_STATE_BITS s -> 0 <= a < LAYER_STATE_BITS -> 0 <= b < LAYER_STATE_BITS ->
  0 <= c < LAYER_STATE_BITS -> 0 <= j ->
  Z.testbit (update_tri_layer_state s a b c) j =
    if j =? c then Z.testbit s a && Z.testbit s b else Z.testbit s j.
Proof.
  intros Hw Ha Hb Hc Hj. unfold update_tri_layer_state. rewrite !layer_bit_small by done.
  assert ((Z.land s (Z.lor (bit a) (bit b)) =? Z.lor (bit a) (bit b)) =
    Z.testbit s a && Z.testbit s b) as ->.
  { apply eq_bool_prop_intro. rewrite !Is_true_true, Z.eqb_eq, andb_true_iff. split.
    - intros E. pose proof (f_equal (fun z => Z.testbit z a) E) as Ea.
      pose proof (f_equal (fun z => Z.testbit z b) E) as Eb. cbv beta in Ea, Eb.
      rewrite Z.land_spec, !Z.lor_spec, !testbit_bit in Ea, Eb by lia.
      rewrite (bool_decide_true (a = a)), orb_true_l, andb_true_r in Ea by done.
      rewrite (bool_decide_true (b = b)), orb_true_r, andb_true_r in Eb by done. done.
    - intros [Ea Eb]. apply Z.bits_inj'. intros i Hi.
      rewrite Z.land_spec, Z.lor_spec, !testbit_bit by lia.
      repeat case_bool_decide; subst; rewrite ?Ea, ?Eb; cbn; try done; apply andb_false_r. }
  destruct (Z.testbit s a && Z.testbit s b).
  - rewrite Z.lor_spec, testbit_bit by lia. destruct (Z.eqb_spec j c); case_bool_decide; try done.
    + apply orb_true_r.
    + apply orb_false_r.
  - rewrite testbit_clear, testbit_bit by lia.
    destruct (Z.eqb_spec j c); case_bool_decide; try done.
    + apply andb_false_r.
    + apply andb_true_r.
Qed.

End layers.
