(* ===== verification/OneshotSpec.v ===== *)
(** * One-shot keys as automata

    The one-shot layer, packed in a byte, refines a machine of four phases;
    the one-shot swap hands is a machine of its own. *)

From S2P Require Import Prelude.
From S2P Require Import Bitwise.
From S2P Require Import Keycodes.
From S2P Require Import Report.
From S2P Require Import State.
From S2P Require Import Host.
From S2P Require Import ActionUtil.
From S2P Require Import ActionCode.
From S2P Require Import Keymap.
From S2P Require Import ActionLayer.
From S2P Require Import Oneshot.
From S2P Require Import Action.
From S2P Require Import Tapping.
From S2P Require Import ActionUtilSpec.
From S2P Require Import Closure.
From S2P Require Import LayerSpec.

(** ** The phases of a one-shot layer *)

(** Not active; its key is down and no other key was pressed; its key is down
    and another key was pressed; its key is up and the layer waits for a key. *)
Inductive phase := Idle | Held (l : Z) | HeldUsed (l : Z) | Waiting (l : Z).

#[global] Instance phase_eq_dec : EqDecision phase.
Proof. solve_decision. Defined.

Inductive oneshot_event := KeyDown (l : Z) | KeyUp | OtherKey.

Definition next_phase (ev : oneshot_event) (p : phase) : phase :=
  match ev, p with
  | KeyDown l, _ => Held l
  | KeyUp, Held l => Waiting l
  | KeyUp, HeldUsed _ => Idle
  | OtherKey, Held l => HeldUsed l
  | OtherKey, Waiting _ => Idle
  | _, p => p
  end.

(** The layers an event switches on and off. *)
Definition switched_on (ev : oneshot_event) : option Z :=
  match ev with KeyDown l => Some l | _ => None end.
Definition switched_off (ev : oneshot_event) (p : phase) : option Z :=
  match ev, p with
  | KeyUp, HeldUsed l => Some l
  | OtherKey, Waiting l => Some l
  | _, _ => None
  end.

(** The phase the byte [LLLL LSSS] stands for. *)
Definition phase_of_data (d : Z) : phase :=
  let l := layer_of_data d in
  let s := state_of_data d in
  if s =? ONESHOT_START then Held l
  else if s =? ONESHOT_PRESSED then HeldUsed l
  else if s =? ONESHOT_OTHER_KEY_PRESSED then Waiting l
  else Idle.

(** No toggled layer, and no layer without a state. *)
Definition data_ok (d : Z) : bool :=
  (0 <=? d) && (d <? 256) && (state_of_data d <? ONESHOT_TOGGLED) && ((d =? 0) || nz (state_of_data d)).

Definition data_range_ok d : data_ok d = true -> 0 <= d < 256.
Proof. unfold data_ok. rewrite !andb_true_iff, Z.leb_le, Z.ltb_lt. tauto. Qed.

(** What [clear_oneshot_layer_state] does to the byte. *)
Definition cleared_data (s d : Z) : Z :=
  let d' := clear_bits d s in
  if negb (nz (state_of_data d')) && negb (d =? d') then 0 else d'.

Definition event_state (ev : oneshot_event) : Z :=
  match ev with KeyUp => ONESHOT_PRESSED | _ => ONESHOT_OTHER_KEY_PRESSED end.

Definition cleared_check (d : Z) : bool :=
  negb (data_ok d) || forallb (fun ev =>
    let d' := clear_bits d (event_state ev) in
    let ended := negb (nz (state_of_data d')) && negb (d =? d') in
    data_ok (cleared_data (event_state ev) d)
    && bool_decide (phase_of_data (cleared_data (event_state ev) d) = next_phase ev (phase_of_data d))
    && bool_decide (switched_off ev (phase_of_data d) =
                    if ended then Some (layer_of_data d') else None)) [KeyUp; OtherKey].
Lemma cleared_checked : all_below 256 cleared_check = true.
Proof. vm_compute. reflexivity. Qed.

Lemma cleared_data_spec d ev :
  data_ok d = true -> ev = KeyUp \/ ev = OtherKey ->
  let d' := clear_bits d (event_state ev) in
  let ended := negb (nz (state_of_data d')) && negb (d =? d') in
  data_ok (cleared_data (event_state ev) d) = true /\
  phase_of_data (cleared_data (event_state ev) d) = next_phase ev (phase_of_data d) /\
  switched_off ev (phase_of_data d) = (if ended then Some (layer_of_data d') else None).
Proof.
  intros Hd Hev d' ended. pose proof (all_below_spec 256 _ d cleared_checked (data_range_ok d Hd)) as H.
  unfold cleared_check in H. rewrite Hd in H. cbn [negb orb forallb] in H.
  rewrite !andb_true_iff, !bool_decide_eq_true in H.
  destruct H as ([[? ?] ?] & [[? ?] ?] & _). by destruct Hev as [-> | ->].
Qed.

Definition started_check (l : Z) : bool :=
  let d := u8 (Z.lor (Z.shiftl l 3) ONESHOT_START) in
  data_ok d && bool_decide (phase_of_data d = Held l).
Lemma started_checked : all_below 32 started_check = true.
Proof. vm_compute. reflexivity. Qed.

(** The layer is between 0 and 31. *)
Lemma layer_of_data_range d : 0 <= d < 256 -> 0 <= layer_of_data d < 32.
Proof. intros Hd. by apply (shiftr_range 8 3). Qed.

Section machine.
Context `{!Config} `{!Hooks} `{!ConfigOk}.

Definition oneshot_phase (k : keyboard) : phase := phase_of_data (oneshot_data k).

(** The code that runs on each event: [OP_ONESHOT] pressed and released, and
    the press of another key. *)
Definition oneshot_step (ev : oneshot_event) : stm keyboard unit :=
  match ev with
  | KeyDown l => set_oneshot_layer l ONESHOT_START
  | _ => clear_oneshot_layer_state (event_state ev)
  end.

(** The layer mask after switching. *)
Definition switch_mask (on off : option Z) (s : Z) : Z :=
  match on, off with
  | Some l, _ => Z.lor s (bit l)
  | None, Some l => clear_bits s (bit l)
  | None, None => s
  end.

Lemma oneshot_enabled_put d k :
  oneshot_enabled (exec (put_oneshot_data d) k) = oneshot_enabled k.
Proof. done. Qed.

Lemma put_oneshot_data_layers d k :
  layers (exec (put_oneshot_data d) k) = (layers k) <| oneshot_layer_data := d |>.
Proof. done. Qed.

Lemma layers_emit o k : layers (exec (emit o) k) = layers k.
Proof. done. Qed.

Lemma set_oneshot_layer_time_layers t k :
  exists time, layers (exec (set_oneshot_layer_time t) k) = (layers k) <| oneshot_layer_time := time |>.
Proof.
  unfold set_oneshot_layer_time, when. destruct (0 <? ONESHOT_TIMEOUT); [by exists (u16 (t k))|].
  exists (oneshot_layer_time (layers k)). change (exec skip k) with k. by destruct (layers k).
Qed.

Lemma set_oneshot_layer_time_config t k :
  keymap_config (exec (set_oneshot_layer_time t) k) = keymap_config k.
Proof. unfold set_oneshot_layer_time, when. by destruct (0 <? ONESHOT_TIMEOUT). Qed.

(** A layer switched on or off, when the keyboard's callback accepts it. *)
Lemma switch_layers_ok l z d :
  layers_ok l -> is_word LAYER_STATE_BITS z -> is_byte d ->
  forall l', layer_state l' = z -> oneshot_layer_data l' = d ->
  default_layer_state l' = default_layer_state l ->
  source_layers_cache l' = source_layers_cache l ->
  encoder_source_layers_cache l' = encoder_source_layers_cache l -> layers_ok l'.
Proof.
  intros (Hw & Hdw & Hd & Hc & He) Hz Hdd l' E1 E2 E3 E4 E5. unfold layers_ok.
  by rewrite E1, E2, E3, E4, E5.
Qed.

(** What a step reads: settings, layers and the byte. *)
Definition oneshot_ready (k : keyboard) : Prop :=
  oneshot_enabled k = true /\ layers_ok (layers k) /\ data_ok (oneshot_data k) = true.

Lemma set_oneshot_layer_run l s k :
  oneshot_enabled k = true -> (forall s, layer_state_set_kb s = s) -> layers_ok (layers k) ->
  0 <= l < LAYER_STATE_BITS ->
  let k' := exec (set_oneshot_layer l s) k in
  keymap_config k' = keymap_config k /\
  exists t, layers k' = (layers k) <| oneshot_layer_data := u8 (Z.lor (Z.shiftl l 3) s) |>
    <| layer_state := Z.lor (layer_state (layers k)) (layer_bit l) |> <| oneshot_layer_time := t |>.
Proof.
  intros He Hkb Hl Hrange k'. subst k'. unfold set_oneshot_layer.
  rewrite exec_bind. change (eval (gets _) k) with (oneshot_enabled k). rewrite He.
  change (exec (gets _) k) with k. rewrite !exec_bind.
  set (k1 := exec (put_oneshot_data _) k). set (k2 := exec (layer_on l) k1).
  assert (layers k2 = (layers k1) <| layer_state := Z.lor (layer_state (layers k1)) (layer_bit l) |>) as Hk2.
  { unfold k2, layer_on. apply (layer_state_after (fun s => Z.lor s (layer_bit l))); [done|].
    apply lor_range; [apply bits_pos|apply Hl|apply layer_word_ok]. }
  assert (keymap_config k2 = keymap_config k) as Hc2.
  { unfold k2, layer_on. rewrite exec_bind. by rewrite layer_state_set_config. }
  destruct (set_oneshot_layer_time_layers now k2) as [t Ht]. split.
  - transitivity (keymap_config (exec (set_oneshot_layer_time now) k2)); [done|].
    by rewrite set_oneshot_layer_time_config.
  - exists t. transitivity ((layers k2) <| oneshot_layer_time := t |>); [exact Ht|by rewrite Hk2].
Qed.

Lemma clear_oneshot_layer_state_run s k :
  oneshot_enabled k = true -> (forall s, layer_state_set_kb s = s) -> layers_ok (layers k) ->
  let k' := exec (clear_oneshot_layer_state s) k in
  let d' := clear_bits (oneshot_data k) s in
  let ended := negb (nz (state_of_data d')) && negb (oneshot_data k =? d') in
  keymap_config k' = keymap_config k /\
  exists t, layers k' = (layers k) <| oneshot_layer_data := cleared_data s (oneshot_data k) |>
    <| layer_state := if ended then clear_bits (layer_state (layers k)) (layer_bit (layer_of_data d'))
                      else layer_state (layers k) |> <| oneshot_layer_time := t |>.
Proof.
  intros He Hkb Hl k' d' ended. subst k'. unfold clear_oneshot_layer_state.
  rewrite exec_bind. change (eval (gets _) k) with (oneshot_data k). change (exec (gets _) k) with k.
  rewrite exec_bind. fold d'. set (k1 := exec (put_oneshot_data d') k).
  assert (oneshot_data k1 = d') as Hd1 by done.
  assert (oneshot_enabled k1 = true) as He1 by exact He.
  unfold get_oneshot_layer_state, get_oneshot_layer, reset_oneshot_layer, exec.
  rewrite !run_gets, Hd1, He1, andb_true_r. unfold cleared_data. fold d'. fold ended.
  destruct ended.
  - rewrite run_gets, Hd1, run_eval. set (k2 := exec (layer_off _) k1).
    assert (layers k2 = (layers k1) <| layer_state :=
      clear_bits (layer_state (layers k1)) (layer_bit (layer_of_data d')) |>) as Hk2.
    { unfold k2, layer_off.
      apply (layer_state_after (fun s => clear_bits s (layer_bit (layer_of_data d')))); [done|].
      apply clear_bits_range; [apply bits_pos|apply Hl]. }
    assert (keymap_config k2 = keymap_config k) as Hc2.
    { unfold k2, layer_off. rewrite exec_bind. by rewrite layer_state_set_config. }
    set (k3 := exec (put_oneshot_data 0) k2). rewrite run_eval. fold k3.
    destruct (set_oneshot_layer_time_layers (fun _ => 0) k3) as [t Ht]. split.
    + transitivity (keymap_config (exec (set_oneshot_layer_time (fun _ => 0)) k3)); [done|].
      by rewrite set_oneshot_layer_time_config.
    + exists t. transitivity ((layers k3) <| oneshot_layer_time := t |>); [exact Ht|].
      unfold k3. by rewrite put_oneshot_data_layers, Hk2.
  - split; [done|]. exists (oneshot_layer_time (layers k)). change ((skip k1).2) with k1.
    unfold k1. rewrite put_oneshot_data_layers. by destruct (layers k).
Qed.

Lemma layers_ok_bytes l d z t :
  layers_ok l -> is_byte d -> is_word LAYER_STATE_BITS z ->
  layers_ok (l <| oneshot_layer_data := d |> <| layer_state := z |> <| oneshot_layer_time := t |>).
Proof. intros (Hw & Hdw & Hd & Hc & He) Hd' Hz. by destruct l. Qed.

(** C17: the byte of the one-shot layer refines the machine of four phases: a
    one-shot layer key switches its layer on when it goes down; the layer stays
    for exactly one other key, whether that key comes before or after the
    release, and is then switched off. *)
Theorem oneshot_layer_refines ev k :
  (forall s, layer_state_set_kb s = s) -> oneshot_ready k ->
  (forall l, ev = KeyDown l -> 0 <= l < LAYER_STATE_BITS) ->
  let k' := exec (oneshot_step ev) k in
  oneshot_ready k' /\ oneshot_phase k' = next_phase ev (oneshot_phase k) /\
  layer_state (layers k') =
    match switched_on ev, switched_off ev (oneshot_phase k) with
    | Some l, _ => Z.lor (layer_state (layers k)) (layer_bit l)
    | None, Some l => clear_bits (layer_state (layers k)) (layer_bit l)
    | None, None => layer_state (layers k)
    end.
Proof.
  intros Hkb (He & Hl & Hd) Hev k'. pose proof bits_pos. 
  assert ((exists l, ev = KeyDown l) \/ ev = KeyUp \/ ev = OtherKey) as [[l ->]|Hev']
    by (destruct ev; eauto).
  - specialize (Hev l eq_refl).
    destruct (set_oneshot_layer_run l ONESHOT_START k He Hkb Hl Hev) as [Hc [t Hlay]].
    fold k' in Hc, Hlay. change (exec (set_oneshot_layer l ONESHOT_START) k) with k' in *.
    pose proof layer_state_bits as Hbits.
    assert (0 <= l < 32) as Hl32 by lia.
    pose proof (all_below_spec 32 _ l started_checked Hl32) as Hst. unfold started_check in Hst.
    apply andb_prop in Hst as [Hok Hph%bool_decide_eq_true].
    unfold oneshot_ready, oneshot_phase, oneshot_data, oneshot_enabled. rewrite Hlay, Hc.
    split; [|split; [exact Hph|done]]. split; [exact He|]. split; [|exact Hok].
    apply layers_ok_bytes; [done|by apply is_byte_u8|]. apply lor_range; [done|apply Hl|apply layer_word_ok].
  - assert (k' = exec (clear_oneshot_layer_state (event_state ev)) k) as Hk'
      by by destruct Hev' as [-> | ->].
    destruct (clear_oneshot_layer_state_run (event_state ev) k He Hkb Hl) as [Hc [t Hlay]].
    rewrite <-Hk' in Hc, Hlay.
    destruct (cleared_data_spec (oneshot_data k) ev Hd Hev') as (Hok & Hph & Hoff).
    unfold oneshot_ready, oneshot_phase at 1, oneshot_data at 1 2, oneshot_enabled.
    rewrite Hlay, Hc. split; [|split].
    + split; [exact He|]. split; [|exact Hok]. apply layers_ok_bytes; [done| |].
      * by apply data_range_ok.
      * case_match; [|apply Hl]. apply clear_bits_range; [done|apply Hl].
    + exact Hph.
    + assert (switched_on ev = None) as -> by by destruct Hev' as [-> | ->].
      unfold oneshot_phase. rewrite Hoff. by case_match.
Qed.

(** When the press of a key ends a one-shot layer, its number is gone by
    the time it is wanted: the release that follows inside [process_action] is
    done with layer 0 switched on instead of the one-shot layer. *)
Theorem oneshot_release_on_layer_0 e a n k :
  (forall s, layer_state_set_kb s = s) -> oneshot_ready k ->
  eval (start_release_oneshot e a n) k = true ->
  let k' := exec (start_release_oneshot e a n) k in
  oneshot_phase k' = Idle /\ eval get_oneshot_layer k' = 0.
Proof.
  intros Hkb (He & Hl & Hd) Hstart k'. subst k'. revert Hstart.
  unfold start_release_oneshot, exec, eval. rewrite !run_gets, He, andb_true_r.
  destruct (is_oneshot_layer_active k && pressed e && ends_oneshot_layer a n); [|done].
  rewrite run_eval. set (k1 := exec (clear_oneshot_layer_state _) k). srun. cbn [fst snd].
  intros Hidle%negb_true_iff. unfold mret, stm_ret. cbn [fst snd].
  destruct (clear_oneshot_layer_state_run ONESHOT_OTHER_KEY_PRESSED k He Hkb Hl) as [_ [t Hlay]].
  fold k1 in Hlay.
  destruct (cleared_data_spec (oneshot_data k) OtherKey Hd) as (Hok & _); [by right|].
  change (event_state OtherKey) with ONESHOT_OTHER_KEY_PRESSED in Hok.
  assert (oneshot_data k1 = cleared_data ONESHOT_OTHER_KEY_PRESSED (oneshot_data k)) as Hd1
    by (unfold oneshot_data at 1; by rewrite Hlay).
  rewrite <-Hd1 in Hok. unfold is_oneshot_layer_active in Hidle.
  assert (oneshot_data k1 = 0) as Hzero.
  { unfold data_ok in Hok. rewrite Hidle, orb_false_r in Hok. apply andb_prop in Hok as [_ Hok].
    by apply Z.eqb_eq in Hok. }
  unfold oneshot_phase, get_oneshot_layer, gets. cbn [fst]. by rewrite Hzero.
Qed.

(** ** Nested calls of process_record *)

(** The callback does not turn a release into a press. *)
Definition keeps_releases : Prop := forall r k,
  pressed (event r) = false -> pressed (event (eval (process_record_quantum r) k).2) = false.

Lemma layer_oneshot_release e v n : returns (layer_oneshot e v n false) (fun d => d = false).
Proof.
  unfold layer_oneshot. apply returns_seq. intros enabled.
  destruct (negb enabled); [|destruct (1 <? ONESHOT_TAP_TOGGLE)];
    apply returns_seq; intros []; by apply returns_ret.
Qed.

Lemma action_layer_tap_release e a n : returns (action_layer_tap e a n false) (fun d => d = false).
Proof.
  unfold action_layer_tap. cbv zeta. destruct (_ =? OP_ONESHOT); [apply layer_oneshot_release|].
  apply returns_seq. intros []. by apply returns_ret.
Qed.

Lemma run_action_release r a : returns (run_action r a false) (fun p => p.2 = false).
Proof.
  unfold run_action. cbv zeta. repeat case_match.
  all: first [ apply returns_seq; intros ?; by apply returns_ret
             | eapply returns_bind; [apply action_layer_tap_release|]; intros ? ->; by apply returns_ret ].
Qed.

Lemma start_release_oneshot_up e a n k :
  pressed e = false -> start_release_oneshot e a n k = (false, k).
Proof. intros Hp. unfold start_release_oneshot. rewrite !run_gets, Hp, andb_false_r. done. Qed.

(** [again] is called with releases only, and not at all for a release. *)
Lemma process_action_again again again' r a k :
  (forall r k, pressed (event r) = false -> again r k = again' r k) ->
  process_action again r a k = process_action again' r a k.
Proof.
  intros Hagain. unfold process_action. cbv zeta. repeat (apply run_cong; intros ? ?).
  case_match; [|done]. repeat (apply run_cong; intros ? ?). unfold mbind, stm_bind.
  rewrite Hagain; done.
Qed.

Lemma process_action_release again again' r a k :
  pressed (event r) = false -> process_action again r a k = process_action again' r a k.
Proof.
  intros Hp. unfold process_action. cbv zeta.
  rewrite !(run_bind _ _ _ _ _ (start_release_oneshot_up _ _ _ _ Hp)), !run_eval.
  pose proof (run_action_release r a k) as Hrel. cbv beta in Hrel. rewrite Hrel. cbn [andb].
  by repeat (apply run_cong; intros ? ?).
Qed.

Lemma process_record_S n r :
  process_record (S n) r =
    if IS_NOEVENT (event r) then mret r else
    q ← process_record_quantum r;
    let r := q.2 in
    if negb q.1 then
      active ← gets is_oneshot_layer_active;
      enabled ← gets oneshot_enabled;
      when (active && pressed (event r) && enabled)
        (clear_oneshot_layer_state ONESHOT_OTHER_KEY_PRESSED);;
      mret r
    else
      r ← process_record_handler (process_record n) r;
      post_process_record_quantum r.
Proof. done. Qed.

Lemma process_record_release n r k :
  keeps_releases -> pressed (event r) = false ->
  process_record (S n) r k = process_record 1 r k.
Proof.
  intros Hkeep Hp. rewrite !process_record_S. destruct (IS_NOEVENT (event r)); [done|].
  rewrite !run_eval. pose proof (Hkeep r k Hp) as Hq.
  set (q := eval (process_record_quantum r) k) in *. cbv zeta. destruct (negb q.1); [done|].
  unfold process_record_handler. rewrite !run_assoc. apply run_cong. intros a s.
  rewrite !run_eval. unfold eval, exec.
  by rewrite (process_action_release (process_record n) (process_record 0)).
Qed.

(** C19: processing a record ends: [process_record] and [process_action] call
    each other at most twice, because the inner call is for a release and a
    release starts no further one.  More fuel changes nothing, for any
    callbacks that leave releases releases. *)
Theorem process_record_fuel n r k :
  keeps_releases -> process_record (2 + n) r k = process_record 2 r k.
Proof.
  intros Hkeep. change (2 + n)%nat with (S (S n)).
  rewrite (process_record_S (S n)), (process_record_S 1).
  destruct (IS_NOEVENT (event r)); [done|]. rewrite !run_eval.
  set (q := eval (process_record_quantum r) k). cbv zeta. destruct (negb q.1); [done|].
  unfold process_record_handler. rewrite !run_assoc. apply run_cong. intros a s.
  rewrite !run_eval. unfold eval, exec.
  rewrite (process_action_again (process_record (S n)) (process_record 1)); [done|].
  intros r' k' Hp. by apply process_record_release.
Qed.

End machine.

(** ** Swapping hands

    A key is released on the side it was pressed on; the one-shot swap is a
    machine of four states. *)

Section hands.
Context `{!Config} `{!Hooks} `{!ConfigOk}.

(** ** The bits that remember which keys were swapped *)

Definition swap_bit (l : list Z) (i : Z) : bool := nz (Z.land (at_ l (i / 8)) (bit (i mod 8))).

Lemma swap_bit_testbit l i : swap_bit l i = Z.testbit (at_ l (i / 8)) (i mod 8).
Proof. apply nz_land_bit. dlia. Qed.

Lemma swap_bit_set l i j on : 0 <= i < 8 * Z.of_nat (length l) -> 0 <= j ->
  swap_bit (set_swap_hands_state i l on) j = if j =? i then on else swap_bit l j.
Proof.
  intros Hi Hj. rewrite !swap_bit_testbit. unfold set_swap_hands_state. cbv zeta.
  rewrite at_put by dlia. destruct (Z.eqb_spec (j / 8) (i / 8)) as [Hd|Hd].
  - assert (Z.testbit (if on then Z.lor (at_ l (i / 8)) (bit (i mod 8))
        else clear_bits (at_ l (i / 8)) (bit (i mod 8))) (j mod 8) =
      if j mod 8 =? i mod 8 then on else Z.testbit (at_ l (i / 8)) (j mod 8)) as ->.
    { destruct (Z.eqb_spec (j mod 8) (i mod 8)) as [->|Hne]; destruct on.
      - rewrite Z.lor_spec, testbit_bit, bool_decide_true by dlia. apply orb_true_r.
      - rewrite testbit_clear, testbit_bit, bool_decide_true by dlia. apply andb_false_r.
      - rewrite Z.lor_spec, testbit_bit, bool_decide_false by dlia. apply orb_false_r.
      - rewrite testbit_clear, testbit_bit, bool_decide_false by dlia. apply andb_true_r. }
    rewrite <-Hd. destruct (Z.eqb_spec (j mod 8) (i mod 8)), (Z.eqb_spec j i); try done; dlia.
  - destruct (Z.eqb_spec j i); [by subst|done].
Qed.

(** ** A key is released where it was pressed *)

Definition key_index (q : keypos_t) : Z := row q * MATRIX_COLS + col q.
Definition is_matrix_key (e : keyevent_t) : Prop :=
  type e = KEY_EVENT /\ 0 <= row (key e) < MATRIX_ROWS /\ 0 <= col (key e) < MATRIX_COLS.

(** Where an event goes, given whether it is swapped. *)
Definition swapped_to (e : keyevent_t) (swapped : bool) : keyevent_t :=
  if swapped then e <| key := hand_swap_config (row (key e)) (col (key e)) |> else e.
Definition is_swapped (e : keyevent_t) (k : keyboard) : bool :=
  if pressed e then swap_hands (hands k) else swap_bit (matrix_swap_state (hands k)) (key_index (key e)).

Lemma process_hand_swap_matrix e k :
  is_matrix_key e ->
  process_hand_swap e k =
    (swapped_to e (is_swapped e k),
     k <| hands := (hands k) <| matrix_swap_state :=
       set_swap_hands_state (key_index (key e)) (matrix_swap_state (hands k)) (is_swapped e k) |> |>).
Proof.
  intros (Ht & Hr & Hc). unfold process_hand_swap. rewrite run_gets.
  assert (IS_KEYEVENT e && in_matrix (key e) = true) as ->.
  { unfold IS_KEYEVENT, in_matrix. rewrite Ht. rewrite !(proj2 (Z.ltb_lt _ _)) by lia. done. }
  unfold is_swapped, should_swap_hands, swap_bit. unfold key_index. cbv zeta. by destruct (pressed e).
Qed.

Lemma key_index_range e : is_matrix_key e -> 0 <= key_index (key e) < MATRIX_ROWS * MATRIX_COLS.
Proof. intros (_ & Hr & Hc). unfold key_index. nia. Qed.

Lemma key_index_other e e' :
  is_matrix_key e -> is_matrix_key e' -> key e <> key e' -> key_index (key e) <> key_index (key e').
Proof.
  intros (_ & Hr & Hc) (_ & Hr' & Hc') Hne Heq. apply Hne. unfold key_index in Heq.
  destruct (row_col_unique MATRIX_COLS (row (key e)) (col (key e)) (row (key e')) (col (key e'))) as [E1 E2];
    [done..|]. destruct (key e), (key e'). cbn in *. congruence.
Qed.

(** What may happen between the press and the release of the key of [e]. *)
Inductive other_hands (e : keyevent_t) : keyboard -> keyboard -> Prop :=
  | hands_state_change k k' :
      matrix_swap_state (hands k') = matrix_swap_state (hands k) -> other_hands e k k'
  | hands_other_key e' k :
      is_matrix_key e' -> key e' <> key e -> other_hands e k (exec (process_hand_swap e') k).

Definition remembers (e : keyevent_t) (swapped : bool) (k : keyboard) : Prop :=
  length (matrix_swap_state (hands k)) = Z.to_nat ((MATRIX_ROWS * MATRIX_COLS + 7) / 8) /\
  swap_bit (matrix_swap_state (hands k)) (key_index (key e)) = swapped.

Lemma other_hands_remembers e swapped k k' :
  is_matrix_key e -> other_hands e k k' -> remembers e swapped k -> remembers e swapped k'.
Proof.
  intros He Hstep [Hl Hb]. pose proof (key_index_range e He). destruct Hstep as [k k' E|e' k He' Hne].
  - split; by rewrite E.
  - pose proof (key_index_range e' He'). unfold exec. rewrite process_hand_swap_matrix by done.
    destruct k as [? ? ? [] ? ? ? ? ?]. cbn in *. split; cbn.
    + unfold set_swap_hands_state. by rewrite length_put.
    + rewrite swap_bit_set by (rewrite ?Hl; dlia).
      destruct (Z.eqb_spec (key_index (key e)) (key_index (key e'))) as [E|]; [|done].
      exfalso. eapply (key_index_other e' e); eauto.
Qed.

(** C18: a key goes up on the side it went down on, whatever happens to the
    swap in between and whatever other keys are pressed and released. *)
Theorem hand_swap_release e t k k' :
  is_matrix_key e -> pressed e = true -> hands_ok (hands k) ->
  star (other_hands e) (exec (process_hand_swap e) k) k' ->
  let up := e <| pressed := false |> <| time := t |> in
  key (eval (process_hand_swap up) k') = key (eval (process_hand_swap e) k).
Proof.
  intros He Hp [Hl _] Hstar up.
  assert (is_matrix_key up) as Hup by done. pose proof (key_index_range e He).
  assert (remembers e (swap_hands (hands k)) (exec (process_hand_swap e) k)) as Hrem.
  { unfold exec. rewrite process_hand_swap_matrix by done. unfold is_swapped. rewrite Hp.
    destruct k as [? ? ? [] ? ? ? ? ?]. cbn in *. split; cbn.
    - unfold set_swap_hands_state. by rewrite length_put.
    - by rewrite swap_bit_set, Z.eqb_refl by (rewrite ?Hl; dlia). }
  apply (star_invariant _ _ _ _ (fun a b => other_hands_remembers e _ a b He) Hstar) in Hrem.
  destruct Hrem as [_ Hb]. unfold eval. rewrite !process_hand_swap_matrix by done. cbn [fst].
  unfold is_swapped. rewrite Hp. change (pressed up) with false. cbv iota.
  change (key up) with (key e). rewrite Hb. unfold swapped_to. by destruct (swap_hands (hands k)).
Qed.

(** ** One-shot swap hands *)

Definition swap_machine (k : keyboard) : swap_hands_oneshot_t * bool :=
  (swap_hands_oneshot (hands k), swap_hands (hands k)).

(** The one-shot swap hands key swaps from its press on, for the keys
    pressed while it is held or, if there are none, for one key after it is
    released; the swap is on whenever the machine is not off. *)
Theorem oneshot_swaphands_machine k :
  (swap_hands_oneshot (hands k) <> SHO_OFF -> swap_hands (hands k) = true) ->
  swap_machine (exec set_oneshot_swaphands k) = (SHO_PRESSED, true) /\
  swap_machine (exec use_oneshot_swaphands k) =
    match swap_hands_oneshot (hands k) with
    | SHO_PRESSED => (SHO_USED, true) | SHO_USED => (SHO_USED, true)
    | SHO_ACTIVE => (SHO_OFF, false) | SHO_OFF => (SHO_OFF, swap_hands (hands k)) end /\
  swap_machine (exec release_oneshot_swaphands k) =
    match swap_hands_oneshot (hands k) with
    | SHO_PRESSED => (SHO_ACTIVE, true) | SHO_ACTIVE => (SHO_ACTIVE, true)
    | SHO_USED => (SHO_OFF, false) | SHO_OFF => (SHO_OFF, swap_hands (hands k)) end /\
  swap_machine (exec clear_oneshot_swaphands k) = (SHO_OFF, false).
Proof.
  intros Hon.
  assert (forall t k, swap_machine (exec (set_oneshot_swaphands_time t) k) = swap_machine k) as Htime.
  { intros t k0. unfold set_oneshot_swaphands_time, when. by destruct (0 <? ONESHOT_TIMEOUT). }
  assert (forall t k, swap_machine (exec (set_oneshot_layer_time t) k) = swap_machine k) as Hltime.
  { intros t k0. unfold set_oneshot_layer_time, when. by destruct (0 <? ONESHOT_TIMEOUT). }
  assert (forall k, swap_machine (exec clear_oneshot_swaphands k) = (SHO_OFF, false)) as Hclear.
  { intros k0. unfold clear_oneshot_swaphands. rewrite !exec_bind. by rewrite Htime. }
  split; [|split; [|split; [|apply Hclear]]].
  - unfold set_oneshot_swaphands. rewrite !exec_bind.
    set (k2 := exec (set_oneshot_swaphands_time now) _).
    assert (swap_machine k2 = (SHO_PRESSED, true)) as Hk2 by (unfold k2; by rewrite Htime).
    change (exec (gets ?f) k2) with k2. case_match; [by rewrite Hltime|done].
  - destruct k as [? ? ? [h held s ? ? ? ? ?] ? ? ? ? ?]. cbn in Hon.
    destruct s; [done|apply Hclear|by rewrite Hon..].
  - destruct k as [? ? ? [h held s ? ? ? ? ?] ? ? ? ? ?]. cbn in Hon.
    destruct s; [done|by rewrite Hon..|apply Hclear].
Qed.

End hands.
