(* ===== verification/TappingSpec.v ===== *)
(** * Tap or hold

    The waiting buffer as a bounded queue, and the decisions of the tapping
    state machine. *)

From S2P Require Import Prelude.
From S2P Require Import Bitwise.
From S2P Require Import Keycodes.
From S2P Require Import Report.
From S2P Require Import State.
From S2P Require Import Host.
From S2P Require Import ActionUtil.
From S2P Require Import ActionCode.
From S2P Require Import Keymap.
From S2P Require Import ActionLayer.
From S2P Require Import Oneshot.
From S2P Require Import Action.
From S2P Require Import Tapping.
From S2P Require Import ActionUtilSpec.
From S2P Require Import Closure.

(** ** The waiting buffer is a queue of at most seven records *)

#[local] Arguments slots : simpl never.

Definition queue (t : tapping_state) : list keyrecord_t := slot_record t <$> waiting_slots t.

Definition ring_check (tail : Z) : bool :=
  all_below 8 (fun head =>
    let q := slots 8 tail head in
    bool_decide (length q <= 7)%nat
    && bool_decide (Forall (fun i => 0 <= i < 8) q)
    && (if next_slot head =? tail then bool_decide (length q = 7%nat)
        else bool_decide (slots 8 tail (next_slot head) = q ++ [head] /\ head ∉ q))
    && (if tail =? head then bool_decide (q = [])
        else bool_decide (q = tail :: slots 8 (next_slot tail) head))).
Lemma ring_checked : all_below 8 ring_check = true.
Proof. vm_compute. reflexivity. Qed.

Lemma slots_spec tail head :
  is_slot tail -> is_slot head ->
  let q := slots 8 tail head in
  (length q <= 7)%nat /\ Forall is_slot q /\
  (if next_slot head =? tail then length q = 7%nat
   else slots 8 tail (next_slot head) = q ++ [head] /\ head ∉ q) /\
  (if tail =? head then q = [] else q = tail :: slots 8 (next_slot tail) head).
Proof.
  intros Ht Hh q. pose proof (all_below_spec 8 _ tail ring_checked Ht) as H. unfold ring_check in H.
  apply (all_below_spec 8 _ head) in H; [|exact Hh]. fold q in H.
  rewrite !andb_true_iff in H. destruct H as [[[H1%bool_decide_eq_true H2%bool_decide_eq_true] H3] H4].
  split; [done|]. split; [done|]. split.
  - destruct (_ =? tail); by apply bool_decide_eq_true in H3.
  - destruct (tail =? head); by apply bool_decide_eq_true in H4.
Qed.

(** The tail is not visited again. *)
Definition fresh_check (tail : Z) : bool :=
  all_below 8 (fun head => (tail =? head) || bool_decide (tail ∉ slots 8 (next_slot tail) head)).
Lemma fresh_checked : all_below 8 fresh_check = true.
Proof. vm_compute. reflexivity. Qed.

Lemma slots_fresh tail head :
  is_slot tail -> is_slot head -> tail <> head -> tail ∉ slots 8 (next_slot tail) head.
Proof.
  intros Ht Hh Hne. pose proof (all_below_spec 8 _ tail fresh_checked Ht) as H. unfold fresh_check in H.
  apply (all_below_spec 8 _ head) in H; [|exact Hh].
  apply orb_true_iff in H as [H%Z.eqb_eq|H%bool_decide_eq_true]; done.
Qed.

Lemma queue_empty t : tapping_ok t -> waiting_buffer_tail t = waiting_buffer_head t <-> queue t = [].
Proof.
  intros (_ & Hh & Ht & _). unfold queue, waiting_slots.
  destruct (slots_spec _ _ Ht Hh) as (_ & _ & _ & H4).
  destruct (Z.eqb_spec (waiting_buffer_tail t) (waiting_buffer_head t)) as [E|E]; rewrite H4.
  - done.
  - split; [done|]. intros Hq. by apply fmap_nil_inv in Hq.
Qed.

Lemma slot_of_queue t i : tapping_ok t -> i ∈ waiting_slots t -> is_slot i.
Proof.
  intros (_ & Hh & Ht & _). destruct (slots_spec _ _ Ht Hh) as (_ & H2 & _).
  rewrite Forall_forall in H2. apply H2.
Qed.

(** Appending at the head, and taking off at the tail. *)
Definition enqueue (r : keyrecord_t) (t : tapping_state) : tapping_state :=
  (assign (Slot (waiting_buffer_head t)) r t) <| waiting_buffer_head := next_slot (waiting_buffer_head t) |>.
Definition dequeue (t : tapping_state) : tapping_state :=
  t <| waiting_buffer_tail := next_slot (waiting_buffer_tail t) |>.

Lemma queue_length t : tapping_ok t -> (length (queue t) <= 7)%nat.
Proof.
  intros (_ & Hh & Ht & _). unfold queue. rewrite length_fmap. apply (slots_spec _ _ Ht Hh).
Qed.

(** The buffer is full when the next slot is the tail. *)
Lemma queue_full t :
  tapping_ok t ->
  (next_slot (waiting_buffer_head t) = waiting_buffer_tail t) <-> (length (queue t) = 7)%nat.
Proof.
  intros (_ & Hh & Ht & _). destruct (slots_spec _ _ Ht Hh) as (_ & _ & H3 & _).
  unfold queue. rewrite length_fmap. fold (waiting_slots t) in H3.
  destruct (Z.eqb_spec (next_slot (waiting_buffer_head t)) (waiting_buffer_tail t)) as [E|E]; [done|].
  destruct H3 as [H3 _]. pose proof (slots_spec _ (next_slot (waiting_buffer_head t)) Ht (is_slot_next _)) as [Hle _].
  rewrite H3, length_app in Hle. cbn in Hle. split; [done|lia].
Qed.

Lemma enqueue_ok r t : tapping_ok t -> tapping_ok (enqueue r t).
Proof.
  intros Hok. destruct (assign_ok (Slot (waiting_buffer_head t)) r t Hok) as (? & ? & ? & ?).
  unfold enqueue, tapping_ok. split; [done|]. split; [apply is_slot_next|]. done.
Qed.

Lemma enqueue_queue r t :
  tapping_ok t -> (length (queue t) < 7)%nat -> queue (enqueue r t) = queue t ++ [r].
Proof.
  intros Hok Hlt. pose proof Hok as (Hl & Hh & Ht & _).
  destruct (slots_spec _ _ Ht Hh) as (_ & H2 & H3 & _). fold (waiting_slots t) in *.
  destruct (Z.eqb_spec (next_slot (waiting_buffer_head t)) (waiting_buffer_tail t)) as [E|E].
  { apply queue_full in E; [lia|done]. }
  destruct H3 as [H3 Hnotin]. unfold queue. unfold waiting_slots at 1.
  change (waiting_buffer_tail (enqueue r t)) with (waiting_buffer_tail t).
  change (waiting_buffer_head (enqueue r t)) with (next_slot (waiting_buffer_head t)).
  rewrite H3, fmap_app. f_equal; cbn [fmap list_fmap].
  - apply list_fmap_ext. intros i x Hx%list_elem_of_lookup_2. unfold slot_record.
    rewrite Forall_forall in H2. specialize (H2 x Hx). assert (x <> waiting_buffer_head t) by (by intros ->).
    change (waiting_buffer (enqueue r t)) with (<[Z.to_nat (waiting_buffer_head t) := r]> (waiting_buffer t)).
    rewrite list_lookup_insert_ne; [done|]. unfold is_slot in *. lia.
  - unfold slot_record.
    change (waiting_buffer (enqueue r t)) with (<[Z.to_nat (waiting_buffer_head t) := r]> (waiting_buffer t)).
    rewrite list_lookup_insert_eq; [done|]. unfold is_slot, WAITING_BUFFER_SIZE in *. lia.
Qed.

Lemma dequeue_queue r0 q t :
  tapping_ok t -> queue t = r0 :: q ->
  waiting_buffer_tail t <> waiting_buffer_head t /\ slot_record t (waiting_buffer_tail t) = r0 /\ queue (dequeue t) = q /\ tapping_ok (dequeue t).
Proof.
  intros Hok Hq. pose proof Hok as (Hl & Hh & Ht & Hrest).
  destruct (slots_spec _ _ Ht Hh) as (_ & _ & _ & H4). unfold queue, waiting_slots in Hq.
  destruct (Z.eqb_spec (waiting_buffer_tail t) (waiting_buffer_head t)); rewrite H4 in Hq; [done|].
  cbn [fmap list_fmap] in Hq. injection Hq as <- <-. split; [done|]. split; [done|]. split; [done|]. split; [exact Hl|]. split; [exact Hh|]. split; [apply is_slot_next|exact Hrest].
Qed.

Section queue.
Context `{!Config} `{!Hooks}.

(** C20: the waiting buffer is a first-in first-out queue: [waiting_buffer_enq]
    appends the record of an event, or refuses it when seven wait already;
    moving the tail on takes the oldest record off; and
    [waiting_buffer_clear] empties it. *)
Theorem waiting_buffer_is_queue r k :
  tapping_ok (tapping k) -> IS_NOEVENT (event r) = false ->
  let q := queue (tapping k) in
  (length q <= 7)%nat /\
  (let k' := exec (waiting_buffer_enq r) k in
   if decide (length q < 7)%nat
   then eval (waiting_buffer_enq r) k = true /\ queue (tapping k') = q ++ [r]
   else eval (waiting_buffer_enq r) k = false /\ k' = k) /\
  (forall r0 q', q = r0 :: q' ->
     r0 = slot_record (tapping k) (waiting_buffer_tail (tapping k)) /\
     queue (tapping (exec (put_tail (next_slot (waiting_buffer_tail (tapping k)))) k)) = q') /\
  queue (tapping (exec waiting_buffer_clear k)) = [].
Proof.
  intros Hok Hr q. set (t := tapping k) in *. split; [by apply queue_length|]. split_and!.
  - cbv zeta. unfold waiting_buffer_enq, eval, exec. rewrite Hr. unfold get_head, get_tail.
    rewrite !run_gets. fold t. pose proof (queue_full t Hok) as Hfull. pose proof (queue_length t Hok).
    destruct (Z.eqb_spec (next_slot (waiting_buffer_head t)) (waiting_buffer_tail t)) as [E|E].
    + rewrite decide_False by (fold q in Hfull; apply Hfull in E; lia). done.
    + assert (length q < 7)%nat as Hlt.
      { assert (length q <> 7%nat) by (by intros Hq; apply E, Hfull). unfold q in *. lia. }
      rewrite decide_True by done. split; [done|]. by apply (enqueue_queue r t).
  - intros r0 q' Hq. by destruct (dequeue_queue r0 q' t Hok Hq) as (_ & -> & Hd & _).
  - done.
Qed.

End queue.
