(* ===== verification/Private.v ===== *)
(** * The state of action_tapping.c is its own

    Everything up to [process_record] neither reads nor writes the tapping
    key, the waiting buffer and the registered taps, as long as the callbacks
    of the keyboard leave them alone too: [private m]. *)

From S2P Require Import Prelude.
From S2P Require Import Keycodes.
From S2P Require Import Report.
From S2P Require Import State.
From S2P Require Import Host.
From S2P Require Import ActionUtil.
From S2P Require Import ActionCode.
From S2P Require Import Keymap.
From S2P Require Import ActionLayer.
From S2P Require Import Oneshot.
From S2P Require Import Action.

Definition with_tapping (t : tapping_state) (k : keyboard) : keyboard := k <| tapping := t |>.

(** Running [m] with another tapping state gives the same, with that state. *)
Definition private {A} (m : stm keyboard A) : Prop :=
  forall t k, m (with_tapping t k) = ((m k).1, with_tapping t (m k).2).

Class HooksPrivate `{!Hooks} : Prop := {
  private_pre_process r : private (pre_process_record_quantum r);
  private_process r : private (process_record_quantum r);
  private_post_process r : private (post_process_record_quantum r);
}.

Lemma private_ret {A} (a : A) : private (mret a).
Proof. done. Qed.
Lemma private_skip : private skip.
Proof. done. Qed.
Lemma private_bind {A B} (m : stm keyboard A) (f : A -> stm keyboard B) :
  private m -> (forall a, private (f a)) -> private (m ≫= f).
Proof.
  intros Hm Hf t k. unfold mbind, stm_bind. rewrite Hm. cbn [fst snd]. apply Hf.
Qed.
Lemma private_when b m : private m -> private (when b m).
Proof. by destruct b. Qed.
Lemma private_gets {A} (f : keyboard -> A) : (forall t k, f (with_tapping t k) = f k) -> private (gets f).
Proof. intros Hf t k. unfold gets. cbn [fst snd]. by rewrite Hf. Qed.
Lemma private_modify (f : keyboard -> keyboard) :
  (forall t k, f (with_tapping t k) = with_tapping t (f k)) -> private (modify f).
Proof. intros Hf t k. unfold modify. cbn [fst snd]. by rewrite Hf. Qed.

Create HintDb private.
#[export] Hint Resolve private_ret private_skip private_pre_process private_process private_post_process
  : private.

(** Statement by statement, like [preserve]. *)
Ltac private1 :=
  match goal with
  | |- private (mbind _ _) => apply private_bind; [|intros ?]
  | |- private (when _ _) => apply private_when
  | |- private (match ?x with _ => _ end) => destruct x
  | |- private (gets _) => apply private_gets; first [done | intros ? ?; reflexivity]
  | |- private (modify _) => apply private_modify; intros ? ?; reflexivity
  | |- private _ => solve [eauto 2 with private]
  | |- private ?m => let rec hd m := lazymatch m with ?f _ => hd f | _ => m end in let h := hd m in lazymatch h with @gets => fail | _ => unfold h end
  end.
Ltac solve_private := intros; cbv zeta; repeat (private1; cbv zeta).

Section private.
Context `{!Config} `{!Hooks}.

Lemma private_emit o : private (emit o).
Proof. intros. unfold emit. solve_private. Qed.
#[local] Hint Resolve private_emit : private.
Lemma private_add_mods m : private (add_mods m).
Proof. intros. unfold add_mods. solve_private. Qed.
#[local] Hint Resolve private_add_mods : private.
Lemma private_del_mods m : private (del_mods m).
Proof. intros. unfold del_mods. solve_private. Qed.
#[local] Hint Resolve private_del_mods : private.
Lemma private_set_mods m : private (set_mods m).
Proof. intros. unfold set_mods. solve_private. Qed.
#[local] Hint Resolve private_set_mods : private.
Lemma private_add_weak_mods m : private (add_weak_mods m).
Proof. intros. unfold add_weak_mods. solve_private. Qed.
#[local] Hint Resolve private_add_weak_mods : private.
Lemma private_del_weak_mods m : private (del_weak_mods m).
Proof. intros. unfold del_weak_mods. solve_private. Qed.
#[local] Hint Resolve private_del_weak_mods : private.
Lemma private_set_weak_mods m : private (set_weak_mods m).
Proof. intros. unfold set_weak_mods. solve_private. Qed.
#[local] Hint Resolve private_set_weak_mods : private.
Lemma private_host_system_send u : private (host_system_send u).
Proof. intros. unfold host_system_send. solve_private. Qed.
#[local] Hint Resolve private_host_system_send : private.
Lemma private_host_consumer_send u : private (host_consumer_send u).
Proof. intros. unfold host_consumer_send. solve_private. Qed.
#[local] Hint Resolve private_host_consumer_send : private.
Lemma private_set_oneshot_time t :
  (forall u k, t (with_tapping u k) = t k) -> private (set_oneshot_time t).
Proof. intros Ht. unfold set_oneshot_time. solve_private. Qed.
#[local] Hint Extern 1 (private (set_oneshot_time _)) => apply private_set_oneshot_time; reflexivity : private.
Lemma private_put_oneshot_mods m : private (put_oneshot_mods m).
Proof. intros. unfold put_oneshot_mods. solve_private. Qed.
#[local] Hint Resolve private_put_oneshot_mods : private.
Lemma private_add_oneshot_locked_mods m : private (add_oneshot_locked_mods m).
Proof. intros. unfold add_oneshot_locked_mods. solve_private. Qed.
#[local] Hint Resolve private_add_oneshot_locked_mods : private.
Lemma private_set_oneshot_locked_mods m : private (set_oneshot_locked_mods m).
Proof. intros. unfold set_oneshot_locked_mods. solve_private. Qed.
#[local] Hint Resolve private_set_oneshot_locked_mods : private.
Lemma private_clear_oneshot_locked_mods  : private (clear_oneshot_locked_mods).
Proof. intros. unfold clear_oneshot_locked_mods. solve_private. Qed.
#[local] Hint Resolve private_clear_oneshot_locked_mods : private.
Lemma private_del_oneshot_locked_mods m : private (del_oneshot_locked_mods m).
Proof. intros. unfold del_oneshot_locked_mods. solve_private. Qed.
#[local] Hint Resolve private_del_oneshot_locked_mods : private.
Lemma private_add_oneshot_mods m : private (add_oneshot_mods m).
Proof. intros. unfold add_oneshot_mods. solve_private. Qed.
#[local] Hint Resolve private_add_oneshot_mods : private.
Lemma private_del_oneshot_mods m : private (del_oneshot_mods m).
Proof. intros. unfold del_oneshot_mods. solve_private. Qed.
#[local] Hint Resolve private_del_oneshot_mods : private.
Lemma private_set_oneshot_mods m : private (set_oneshot_mods m).
Proof. intros. unfold set_oneshot_mods. solve_private. Qed.
#[local] Hint Resolve private_set_oneshot_mods : private.
Lemma private_clear_oneshot_mods  : private (clear_oneshot_mods).
Proof. intros. unfold clear_oneshot_mods. solve_private. Qed.
#[local] Hint Resolve private_clear_oneshot_mods : private.
Lemma private_clear_keyboard_but_mods_and_keys  : private (clear_keyboard_but_mods_and_keys).
Proof. intros. unfold clear_keyboard_but_mods_and_keys. solve_private. Qed.
#[local] Hint Resolve private_clear_keyboard_but_mods_and_keys : private.
Lemma private_clear_keyboard_but_mods  : private (clear_keyboard_but_mods).
Proof. intros. unfold clear_keyboard_but_mods. solve_private. Qed.
#[local] Hint Resolve private_clear_keyboard_but_mods : private.
Lemma private_clear_keyboard  : private (clear_keyboard).
Proof. intros. unfold clear_keyboard. solve_private. Qed.
#[local] Hint Resolve private_clear_keyboard : private.
Lemma private_layer_release  : private (layer_release).
Proof. intros. unfold layer_release. solve_private. Qed.
#[local] Hint Resolve private_layer_release : private.
Lemma private_layer_state_set z : private (layer_state_set z).
Proof. intros. unfold layer_state_set. solve_private. Qed.
#[local] Hint Resolve private_layer_state_set : private.
Lemma private_default_layer_state_set z : private (default_layer_state_set z).
Proof. intros. unfold default_layer_state_set. solve_private. Qed.
#[local] Hint Resolve private_default_layer_state_set : private.
Lemma private_update_source_layers_cache k l : private (update_source_layers_cache k l).
Proof. intros. unfold update_source_layers_cache. solve_private. Qed.
#[local] Hint Resolve private_update_source_layers_cache : private.
Lemma private_layer_move n : private (layer_move n).
Proof. intros. unfold layer_move. solve_private. Qed.
#[local] Hint Resolve private_layer_move : private.
Lemma private_layer_clear  : private (layer_clear).
Proof. intros. unfold layer_clear. solve_private. Qed.
#[local] Hint Resolve private_layer_clear : private.
Lemma private_layer_on n : private (layer_on n).
Proof. intros. unfold layer_on. solve_private. Qed.
#[local] Hint Resolve private_layer_on : private.
Lemma private_layer_off n : private (layer_off n).
Proof. intros. unfold layer_off. solve_private. Qed.
#[local] Hint Resolve private_layer_off : private.
Lemma private_layer_invert n : private (layer_invert n).
Proof. intros. unfold layer_invert. solve_private. Qed.
#[local] Hint Resolve private_layer_invert : private.
Lemma private_layer_or n : private (layer_or n).
Proof. intros. unfold layer_or. solve_private. Qed.
#[local] Hint Resolve private_layer_or : private.
Lemma private_layer_and n : private (layer_and n).
Proof. intros. unfold layer_and. solve_private. Qed.
#[local] Hint Resolve private_layer_and : private.
Lemma private_layer_xor n : private (layer_xor n).
Proof. intros. unfold layer_xor. solve_private. Qed.
#[local] Hint Resolve private_layer_xor : private.
Lemma private_default_layer_set n : private (default_layer_set n).
Proof. intros. unfold default_layer_set. solve_private. Qed.
#[local] Hint Resolve private_default_layer_set : private.
Lemma private_default_layer_or n : private (default_layer_or n).
Proof. intros. unfold default_layer_or. solve_private. Qed.
#[local] Hint Resolve private_default_layer_or : private.
Lemma private_default_layer_and n : private (default_layer_and n).
Proof. intros. unfold default_layer_and. solve_private. Qed.
#[local] Hint Resolve private_default_layer_and : private.
Lemma private_default_layer_xor n : private (default_layer_xor n).
Proof. intros. unfold default_layer_xor. solve_private. Qed.
#[local] Hint Resolve private_default_layer_xor : private.
Lemma private_layer_switch_get_layer k : private (layer_switch_get_layer k).
Proof. intros. unfold layer_switch_get_layer. solve_private. Qed.
#[local] Hint Resolve private_layer_switch_get_layer : private.
Lemma private_read_source_layers_cache k : private (read_source_layers_cache k).
Proof. intros. unfold read_source_layers_cache. solve_private. Qed.
#[local] Hint Resolve private_read_source_layers_cache : private.
Lemma private_layer_switch_get_action k : private (layer_switch_get_action k).
Proof. intros. unfold layer_switch_get_action. solve_private. Qed.
#[local] Hint Resolve private_layer_switch_get_action : private.
Lemma private_store_or_get_action b k : private (store_or_get_action b k).
Proof. intros. unfold store_or_get_action. solve_private. Qed.
#[local] Hint Resolve private_store_or_get_action : private.
Lemma private_update_tri_layer a b c : private (update_tri_layer a b c).
Proof. intros. unfold update_tri_layer. solve_private. Qed.
#[local] Hint Resolve private_update_tri_layer : private.
Lemma private_get_event_keycode e b : private (get_event_keycode e b).
Proof. intros. unfold get_event_keycode. solve_private. Qed.
#[local] Hint Resolve private_get_event_keycode : private.
Lemma private_get_record_keycode r b : private (get_record_keycode r b).
Proof. intros. unfold get_record_keycode. solve_private. Qed.
#[local] Hint Resolve private_get_record_keycode : private.
Lemma private_put_oneshot_data d : private (put_oneshot_data d).
Proof. intros. unfold put_oneshot_data. solve_private. Qed.
#[local] Hint Resolve private_put_oneshot_data : private.
Lemma private_set_oneshot_layer_time t :
  (forall u k, t (with_tapping u k) = t k) -> private (set_oneshot_layer_time t).
Proof. intros Ht. unfold set_oneshot_layer_time. solve_private. Qed.
#[local] Hint Extern 1 (private (set_oneshot_layer_time _)) => apply private_set_oneshot_layer_time; reflexivity : private.
Lemma private_set_oneshot_layer n m : private (set_oneshot_layer n m).
Proof. intros. unfold set_oneshot_layer. solve_private. Qed.
#[local] Hint Resolve private_set_oneshot_layer : private.
Lemma private_reset_oneshot_layer  : private (reset_oneshot_layer).
Proof. intros. unfold reset_oneshot_layer. solve_private. Qed.
#[local] Hint Resolve private_reset_oneshot_layer : private.
Lemma private_clear_oneshot_layer_state m : private (clear_oneshot_layer_state m).
Proof. intros. unfold clear_oneshot_layer_state. solve_private. Qed.
#[local] Hint Resolve private_clear_oneshot_layer_state : private.
Lemma private_upd_config f : private (upd_config f).
Proof. intros. unfold upd_config. solve_private. Qed.
#[local] Hint Resolve private_upd_config : private.
Lemma private_oneshot_set b : private (oneshot_set b).
Proof. intros. unfold oneshot_set. solve_private. Qed.
#[local] Hint Resolve private_oneshot_set : private.
Lemma private_oneshot_toggle  : private (oneshot_toggle).
Proof. intros. unfold oneshot_toggle. solve_private. Qed.
#[local] Hint Resolve private_oneshot_toggle : private.
Lemma private_oneshot_enable_  : private (oneshot_enable_).
Proof. intros. unfold oneshot_enable_. solve_private. Qed.
#[local] Hint Resolve private_oneshot_enable_ : private.
Lemma private_oneshot_disable  : private (oneshot_disable).
Proof. intros. unfold oneshot_disable. solve_private. Qed.
#[local] Hint Resolve private_oneshot_disable : private.
Lemma private_put_swap_oneshot s : private (put_swap_oneshot s).
Proof. intros. unfold put_swap_oneshot. solve_private. Qed.
#[local] Hint Resolve private_put_swap_oneshot : private.
Lemma private_put_swap_hands b : private (put_swap_hands b).
Proof. intros. unfold put_swap_hands. solve_private. Qed.
#[local] Hint Resolve private_put_swap_hands : private.
Lemma private_set_oneshot_swaphands_time t :
  (forall u k, t (with_tapping u k) = t k) -> private (set_oneshot_swaphands_time t).
Proof. intros Ht. unfold set_oneshot_swaphands_time. solve_private. Qed.
#[local] Hint Extern 1 (private (set_oneshot_swaphands_time _)) => apply private_set_oneshot_swaphands_time; reflexivity : private.
Lemma private_set_oneshot_swaphands  : private (set_oneshot_swaphands).
Proof. intros. unfold set_oneshot_swaphands. solve_private. Qed.
#[local] Hint Resolve private_set_oneshot_swaphands : private.
Lemma private_clear_oneshot_swaphands  : private (clear_oneshot_swaphands).
Proof. intros. unfold clear_oneshot_swaphands. solve_private. Qed.
#[local] Hint Resolve private_clear_oneshot_swaphands : private.
Lemma private_release_oneshot_swaphands  : private (release_oneshot_swaphands).
Proof. intros. unfold release_oneshot_swaphands. solve_private. Qed.
#[local] Hint Resolve private_release_oneshot_swaphands : private.
Lemma private_use_oneshot_swaphands  : private (use_oneshot_swaphands).
Proof. intros. unfold use_oneshot_swaphands. solve_private. Qed.
#[local] Hint Resolve private_use_oneshot_swaphands : private.
Lemma private_tap_lock_key l w : private (tap_lock_key l w).
Proof. intros. unfold tap_lock_key. solve_private. Qed.
#[local] Hint Resolve private_tap_lock_key : private.
Lemma private_locking_key a b c d : private (locking_key a b c d).
Proof. intros. unfold locking_key. solve_private. Qed.
#[local] Hint Resolve private_locking_key : private.
Lemma private_register_mouse c b : private (register_mouse c b).
Proof. intros. unfold register_mouse. solve_private. Qed.
#[local] Hint Resolve private_register_mouse : private.
Lemma private_register_code c : private (register_code c).
Proof. intros. unfold register_code. solve_private. Qed.
#[local] Hint Resolve private_register_code : private.
Lemma private_unregister_code c : private (unregister_code c).
Proof. intros. unfold unregister_code. solve_private. Qed.
#[local] Hint Resolve private_unregister_code : private.
Lemma private_tap_code_delay c d : private (tap_code_delay c d).
Proof. intros. unfold tap_code_delay. solve_private. Qed.
#[local] Hint Resolve private_tap_code_delay : private.
Lemma private_tap_code c : private (tap_code c).
Proof. intros. unfold tap_code. solve_private. Qed.
#[local] Hint Resolve private_tap_code : private.
Lemma private_register_mods m : private (register_mods m).
Proof. intros. unfold register_mods. solve_private. Qed.
#[local] Hint Resolve private_register_mods : private.
Lemma private_unregister_mods m : private (unregister_mods m).
Proof. intros. unfold unregister_mods. solve_private. Qed.
#[local] Hint Resolve private_unregister_mods : private.
Lemma private_register_weak_mods m : private (register_weak_mods m).
Proof. intros. unfold register_weak_mods. solve_private. Qed.
#[local] Hint Resolve private_register_weak_mods : private.
Lemma private_unregister_weak_mods m : private (unregister_weak_mods m).
Proof. intros. unfold unregister_weak_mods. solve_private. Qed.
#[local] Hint Resolve private_unregister_weak_mods : private.
Lemma private_neutralize_flashing_modifiers m : private (neutralize_flashing_modifiers m).
Proof. intros. unfold neutralize_flashing_modifiers. solve_private. Qed.
#[local] Hint Resolve private_neutralize_flashing_modifiers : private.
Lemma private_record_action r m : private m -> private (record_action r m).
Proof. intros. unfold record_action. solve_private. Qed.
#[local] Hint Resolve private_record_action : private.
Lemma private_is_tap_record r : private (is_tap_record r).
Proof. intros. unfold is_tap_record. solve_private. Qed.
#[local] Hint Resolve private_is_tap_record : private.
Lemma private_key_with_mods e m c : private (key_with_mods e m c).
Proof. intros. unfold key_with_mods. solve_private. Qed.
#[local] Hint Resolve private_key_with_mods : private.
Lemma private_mods_oneshot e m n : private (mods_oneshot e m n).
Proof. intros. unfold mods_oneshot. solve_private. Qed.
#[local] Hint Resolve private_mods_oneshot : private.
Lemma private_mods_tap_toggle e m n : private (mods_tap_toggle e m n).
Proof. intros. unfold mods_tap_toggle. solve_private. Qed.
#[local] Hint Resolve private_mods_tap_toggle : private.
Lemma private_release_tap c : private (release_tap c).
Proof. intros. unfold release_tap. solve_private. Qed.
#[local] Hint Resolve private_release_tap : private.
Lemma private_cancels_tap r : private (cancels_tap r).
Proof. intros. unfold cancels_tap. solve_private. Qed.
#[local] Hint Resolve private_cancels_tap : private.
Lemma private_mods_tap_key r m c : private (mods_tap_key r m c).
Proof. intros. unfold mods_tap_key. solve_private. Qed.
#[local] Hint Resolve private_mods_tap_key : private.
Lemma private_action_mods_tap r a : private (action_mods_tap r a).
Proof. intros. unfold action_mods_tap. solve_private. Qed.
#[local] Hint Resolve private_action_mods_tap : private.
Lemma private_action_usage e a : private (action_usage e a).
Proof. intros. unfold action_usage. solve_private. Qed.
#[local] Hint Resolve private_action_usage : private.
Lemma private_layer_bitop op z f g h i : private (f z) -> private (g z) -> private (h z) -> private (i z) -> private (layer_bitop op z f g h i).
Proof. intros. unfold layer_bitop. solve_private. Qed.
#[local] Hint Resolve private_layer_bitop : private.
Lemma private_action_layer e a : private (action_layer e a).
Proof. intros. unfold action_layer. solve_private. Qed.
#[local] Hint Resolve private_action_layer : private.
Lemma private_action_layer_mods e a : private (action_layer_mods e a).
Proof. intros. unfold action_layer_mods. solve_private. Qed.
#[local] Hint Resolve private_action_layer_mods : private.
Lemma private_layer_oneshot e v n d : private (layer_oneshot e v n d).
Proof. intros. unfold layer_oneshot. solve_private. Qed.
#[local] Hint Resolve private_layer_oneshot : private.
Lemma private_action_layer_tap e a n d : private (action_layer_tap e a n d).
Proof. intros. unfold action_layer_tap. solve_private. Qed.
#[local] Hint Resolve private_action_layer_tap : private.
Lemma private_toggle_swap_hands  : private (toggle_swap_hands).
Proof. intros. unfold toggle_swap_hands. solve_private. Qed.
#[local] Hint Resolve private_toggle_swap_hands : private.
Lemma private_put_swap_held b : private (put_swap_held b).
Proof. intros. unfold put_swap_held. solve_private. Qed.
#[local] Hint Resolve private_put_swap_held : private.
Lemma private_undo_swap_held  : private (undo_swap_held).
Proof. intros. unfold undo_swap_held. solve_private. Qed.
#[local] Hint Resolve private_undo_swap_held : private.
Lemma private_action_swap_hands r a : private (action_swap_hands r a).
Proof. intros. unfold action_swap_hands. solve_private. Qed.
#[local] Hint Resolve private_action_swap_hands : private.
Lemma private_start_release_oneshot e a n : private (start_release_oneshot e a n).
Proof. intros. unfold start_release_oneshot. solve_private. Qed.
#[local] Hint Resolve private_start_release_oneshot : private.
Lemma private_run_action r a d : private (run_action r a d).
Proof. intros. unfold run_action. solve_private. Qed.
#[local] Hint Resolve private_run_action : private.
Lemma private_update_leds a : private (update_leds a).
Proof. intros. unfold update_leds. solve_private. Qed.
#[local] Hint Resolve private_update_leds : private.
Lemma private_put_retro_counter n : private (put_retro_counter n).
Proof. intros. unfold put_retro_counter. solve_private. Qed.
#[local] Hint Resolve private_put_retro_counter : private.
Lemma private_retro_tapping r e a n : private (retro_tapping r e a n).
Proof. intros. unfold retro_tapping. solve_private. Qed.
#[local] Hint Resolve private_retro_tapping : private.
Section hooked.
Context `{!HooksPrivate}.

Lemma private_process_action again r a : (forall r, private (again r)) -> private (process_action again r a).
Proof. intros. unfold process_action. solve_private. Qed.
#[local] Hint Resolve private_process_action : private.
Lemma private_process_record_handler again r : (forall r, private (again r)) -> private (process_record_handler again r).
Proof. intros. unfold process_record_handler. solve_private. Qed.
#[local] Hint Resolve private_process_record_handler : private.
Lemma private_process_record n r : private (process_record n r).
Proof. revert r. induction n as [|n IH]; intros r; cbn [process_record]; solve_private. Qed.
#[local] Hint Resolve private_process_record : private.
Lemma private_put_action_cache b : private (put_action_cache b).
Proof. intros. unfold put_action_cache. solve_private. Qed.
#[local] Hint Resolve private_put_action_cache : private.
Lemma private_process_record_nocache r : private (process_record_nocache r).
Proof. intros. unfold process_record_nocache. solve_private. Qed.
#[local] Hint Resolve private_process_record_nocache : private.
Lemma private_process_record_tap_hint r : private (process_record_tap_hint r).
Proof. intros. unfold process_record_tap_hint. solve_private. Qed.
#[local] Hint Resolve private_process_record_tap_hint : private.
Lemma private_process_hand_swap e : private (process_hand_swap e).
Proof. intros. unfold process_hand_swap. solve_private. Qed.
#[local] Hint Resolve private_process_hand_swap : private.
End hooked.
End private.
