(* ===== verification/TapHoldSpec.v ===== *)
(** * Tap or hold: what is decided

    The decisions of [process_tapping] on the event sequences that matter,
    for builds without Chordal Hold: which records reach [process_record], in
    which order, and whether the tapping key counts as tapped. *)

From S2P Require Import Prelude.
From S2P Require Import Keycodes.
From S2P Require Import Report.
From S2P Require Import State.
From S2P Require Import ActionUtil.
From S2P Require Import ActionCode.
From S2P Require Import ActionLayer.
From S2P Require Import Action.
From S2P Require Import Tapping.
From S2P Require Import Closure.
From S2P Require Import TappingSpec.
From S2P Require Import Private.

Section run.
Context {A : Type} (m : stm keyboard A) (Hm : private m).

Lemma eval_private t k : eval m (with_tapping t k) = eval m k.
Proof using Hm. unfold eval. by rewrite Hm. Qed.
Lemma exec_private t k : exec m (with_tapping t k) = with_tapping t (exec m k).
Proof using Hm. unfold exec. by rewrite Hm. Qed.
Lemma run_private t k : m (with_tapping t k) = (eval m k, with_tapping t (exec m k)).
Proof using Hm. apply Hm. Qed.
End run.

Lemma with_own_tapping k : with_tapping (tapping k) k = k.
Proof. by destruct k. Qed.
Lemma with_tapping_twice t t' k : with_tapping t (with_tapping t' k) = with_tapping t k.
Proof. done. Qed.

Lemma is_event e : IS_EVENT e = negb (IS_NOEVENT e).
Proof. unfold IS_EVENT, IS_NOEVENT. apply bool_decide_not. Qed.

Section decisions.
Context `{!Config} `{!Hooks} `{!HooksPrivate}.
Hypothesis no_chordal_hold : CHORDAL_HOLD = false.

(** Handling a record. *)
Definition handled (r : keyrecord_t) (k : keyboard) : keyboard := exec (process_record 2 r) k.
Definition unchanged (r : keyrecord_t) (k : keyboard) : Prop := eval (process_record 2 r) k = r.

(** ** The statements, on a state and its tapping part *)

Lemma run_load p t k : load p (with_tapping t k) = (deref p t, with_tapping t k).
Proof. done. Qed.
Lemma run_store p r t k : store_record p r (with_tapping t k) = (tt, with_tapping (assign p r t) k).
Proof. done. Qed.
Lemma run_set_tap p f t k :
  set_tap p f (with_tapping t k) =
    (tt, with_tapping (assign p ((deref p t) <| tap := f (tap (deref p t)) |>) t) k).
Proof. done. Qed.
Lemma run_process_at p t k :
  process_record_at p (with_tapping t k) =
    (tt, with_tapping (assign p (eval (process_record 2 (deref p t)) k) t) (handled (deref p t) k)).
Proof.
  unfold process_record_at. rewrite (run_bind _ _ _ _ _ (run_load p t k)).
  rewrite (run_bind _ _ _ _ _ (run_private _ (private_process_record 2 _) t k)). done.
Qed.

(** What is read of the rest of the state. *)
Definition is_tap (r : keyrecord_t) (k : keyboard) : bool := eval (is_tap_record r) k.
Definition keycode_of (r : keyrecord_t) (k : keyboard) : Z := eval (get_record_keycode r false) k.
Definition tapping_term (r : keyrecord_t) (k : keyboard) : Z := get_tapping_term (keycode_of r k) r.
Definition within (e : keyevent_t) (tk : keyrecord_t) (k : keyboard) : bool :=
  TIMER_DIFF_16 (time e) (time (event tk)) <? tapping_term tk k.

Lemma run_is_tap r t k : is_tap_record r (with_tapping t k) = (is_tap r k, with_tapping t k).
Proof.
  rewrite (run_private _ (private_is_tap_record r)). f_equal.
  unfold is_tap_record, record_action, exec. by repeat case_match.
Qed.

Lemma get_record_keycode_pure r k : exec (get_record_keycode r false) k = k.
Proof.
  unfold get_record_keycode, get_event_keycode. case_match; [done|]. rewrite exec_bind.
  rewrite andb_false_r. by case_match.
Qed.

Lemma run_keycode_at p t k :
  keycode_at p (with_tapping t k) = (keycode_of (deref p t) k, with_tapping t k).
Proof.
  unfold keycode_at. rewrite (run_bind _ _ _ _ _ (run_load p t k)).
  rewrite (run_private _ (private_get_record_keycode _ _)). f_equal.
  by rewrite get_record_keycode_pure.
Qed.

Lemma run_within e t k :
  within_tapping_term e (with_tapping t k) = (within e (tapping_key t) k, with_tapping t k).
Proof.
  unfold within_tapping_term. rewrite (run_bind _ _ _ _ _ (run_load TappingKey t k)).
  by rewrite (run_bind _ _ _ _ _ (run_keycode_at TappingKey t k)).
Qed.

Lemma run_enq r t k :
  IS_NOEVENT (event r) = false -> tapping_ok t -> (length (queue t) < 7)%nat ->
  waiting_buffer_enq r (with_tapping t k) = (true, with_tapping (enqueue r t) k).
Proof.
  intros Hr Hok Hlt. unfold waiting_buffer_enq. rewrite Hr. unfold get_head, get_tail.
  rewrite !run_gets. change (tapping (with_tapping t k)) with t.
  destruct (Z.eqb_spec (next_slot (waiting_buffer_head t)) (waiting_buffer_tail t)) as [E|E]; [|done].
  apply queue_full in E; [lia|done].
Qed.

(** ** The tapping part of the state *)

Record view (t : tapping_state) (tk : keyrecord_t) (q : list keyrecord_t) : Prop := {
  view_ok : tapping_ok t;
  view_key : tapping_key t = tk;
  view_queue : queue t = q;
}.

Lemma view_param r t tk q : view t tk q -> view (assign Param r t) tk q.
Proof. intros [Hok Hk Hq]. by split; [apply assign_ok| |]. Qed.
Lemma view_put_key r t tk q : view t tk q -> view (assign TappingKey r t) r q.
Proof. intros [Hok Hk Hq]. by split; [apply assign_ok| |]. Qed.
Lemma view_enqueue r t tk q :
  view t tk q -> (length q < 7)%nat -> view (enqueue r t) tk (q ++ [r]).
Proof.
  intros [Hok Hk Hq] Hlt. rewrite <-Hq in Hlt |- *. split; [by apply enqueue_ok|done|by apply enqueue_queue].
Qed.

(** The record at the tail changes, then leaves the buffer. *)
Lemma view_drop r' t tk r q :
  view t tk (r :: q) -> view (dequeue (assign (Slot (waiting_buffer_tail t)) r' t)) tk q.
Proof.
  intros [Hok Hk Hq]. destruct (dequeue_queue r q t Hok Hq) as (Hne & _ & <- & Hok').
  split; [|done|].
  - apply (assign_ok (Slot (waiting_buffer_tail t)) r' (dequeue t) Hok').
  - unfold queue. apply list_fmap_ext. intros i x Hx%list_elem_of_lookup_2.
    unfold slot_record.
    change (waiting_buffer (dequeue (assign (Slot (waiting_buffer_tail t)) r' t)))
      with (<[Z.to_nat (waiting_buffer_tail t) := r']> (waiting_buffer t)).
    change (waiting_buffer (dequeue t)) with (waiting_buffer t).
    rewrite list_lookup_insert_ne; [done|].
    pose proof (slot_of_queue _ x Hok' Hx) as Hslot. destruct Hok as (_ & Hh & Ht & _).
    pose proof (slots_fresh _ _ Ht Hh Hne) as Hfresh.
    assert (x <> waiting_buffer_tail t) by (by intros ->). unfold is_slot in *. lia.
Qed.

Lemma view_head t tk r q :
  view t tk (r :: q) ->
  (waiting_buffer_tail t =? waiting_buffer_head t) = false /\
  deref (Slot (waiting_buffer_tail t)) t = r.
Proof.
  intros [Hok _ Hq]. destruct (dequeue_queue r q t Hok Hq) as (Hne & Hr & _).
  split; [by apply Z.eqb_neq|exact Hr].
Qed.

Lemma view_empty t tk : view t tk [] -> (waiting_buffer_tail t =? waiting_buffer_head t) = true.
Proof. intros [Hok _ Hq]. apply Z.eqb_eq. by apply queue_empty. Qed.

(** Where a record is handled from: the parameter, or the tail of the buffer. *)
Definition points (p : record_ref) (t : tapping_state) : Prop :=
  p = Param \/ p = Slot (waiting_buffer_tail t).

Lemma run_process_tapping p t k :
  process_tapping p (with_tapping t k) =
    (let e := event (deref p t) in
     if IS_NOEVENT (event (tapping_key t)) then tapping_idle p e
     else if pressed (event (tapping_key t)) then tapping_pressed p e
     else tapping_released p e) (with_tapping t k).
Proof.
  unfold process_tapping. rewrite (run_bind _ _ _ _ _ (run_load p t k)). rewrite no_chordal_hold.
  cbn [when]. rewrite run_skip. by rewrite (run_bind _ _ _ _ _ (run_load TappingKey t k)).
Qed.

Lemma run_typed {B} e t k (f : bool -> stm keyboard B) :
  (typed ← gets (fun k => waiting_buffer_typed e (tapping k)); f typed) (with_tapping t k) =
  f (waiting_buffer_typed e t) (with_tapping t k).
Proof. done. Qed.
Lemma run_get_tail {B} t k (f : Z -> stm keyboard B) :
  (i ← get_tail; f i) (with_tapping t k) = f (waiting_buffer_tail t) (with_tapping t k).
Proof. done. Qed.
Lemma run_get_head {B} t k (f : Z -> stm keyboard B) :
  (i ← get_head; f i) (with_tapping t k) = f (waiting_buffer_head t) (with_tapping t k).
Proof. done. Qed.
Lemma run_put_tail t k :
  put_tail (next_slot (waiting_buffer_tail t)) (with_tapping t k) = (tt, with_tapping (dequeue t) k).
Proof. done. Qed.
Lemma run_set_tap_count p n t k :
  set_tap_count p n (with_tapping t k) =
    (tt, with_tapping (assign p ((deref p t) <| tap := (tap (deref p t)) <| count := n |> |>) t) k).
Proof. done. Qed.

(** One statement of action_tapping.c. *)
Ltac tstep :=
  first
  [ rewrite run_ret | rewrite run_skip | rewrite run_assoc
  | rewrite (run_bind _ _ _ _ _ (run_load _ _ _))
  | rewrite (run_bind _ _ _ _ _ (run_store _ _ _ _))
  | rewrite (run_bind _ _ _ _ _ (run_set_tap _ _ _ _))
  | rewrite (run_bind _ _ _ _ _ (run_set_tap_count _ _ _ _))
  | rewrite (run_bind _ _ _ _ _ (run_keycode_at _ _ _))
  | rewrite (run_bind _ _ _ _ _ (run_is_tap _ _ _))
  | rewrite (run_bind _ _ _ _ _ (run_within _ _ _))
  | rewrite (run_bind _ _ _ _ _ (run_process_at _ _ _))
  | rewrite run_typed | rewrite run_get_tail | rewrite run_get_head
  | rewrite (run_bind _ _ _ _ _ (run_put_tail _ _)) ].
Ltac tsteps := repeat (tstep; cbv beta); cbn [deref].

(** A record that another key, pressed meanwhile, has marked. *)
Definition interrupt (b : bool) (r : keyrecord_t) : keyrecord_t :=
  r <| tap := (tap r) <| interrupted := b |> |>.

(** The press of a tap-hold key, not yet decided. *)
Definition undecided (r : keyrecord_t) : Prop :=
  IS_NOEVENT (event r) = false /\ pressed (event r) = true /\ count (tap r) = 0.

(** The press of another key. *)
Definition other_press (s : keyrecord_t) : Prop :=
  IS_NOEVENT (event s) = false /\ pressed (event s) = true.

Section waiting.
Hypothesis no_hold_on_other_key : HOLD_ON_OTHER_KEY_PRESS_PER_KEY = false /\ HOLD_ON_OTHER_KEY_PRESS = false.

(** The press of another key within the term marks the tapping key. *)
Lemma run_other_key_pressed p kc t k r b :
  tapping_key t = interrupt b r -> p <> TappingKey ->
  other_key_pressed p kc (with_tapping t k) = (tt, with_tapping (assign TappingKey (interrupt true r) t) k).
Proof using no_chordal_hold no_hold_on_other_key H H0 H1.
  intros Htk Hp. unfold other_key_pressed. tsteps. rewrite no_chordal_hold. cbn [andb].
  unfold tap_hold_on_other_key_press. destruct no_hold_on_other_key as [-> ->]. cbn [when].
  rewrite Htk. done.
Qed.

(** It waits. *)
Lemma other_press_waits p t k r b s :
  undecided r -> other_press s -> deref p t = s -> p <> TappingKey ->
  tapping_key t = interrupt b r -> within (event s) (interrupt b r) k = true ->
  process_tapping p (with_tapping t k) = (false, with_tapping (assign TappingKey (interrupt true r) t) k).
Proof using no_chordal_hold no_hold_on_other_key H H0 H1.
  intros (Hr1 & Hr2 & Hr3) (Hs1 & Hs2) Hp Hpne Htk Hw. rewrite run_process_tapping. rewrite Htk, Hp.
  cbv zeta. change (event (interrupt b r)) with (event r). rewrite Hr1, Hr2. unfold tapping_pressed.
  tsteps. rewrite Htk, Hw, Hs1. change (count (tap (interrupt b r))) with (count (tap r)). rewrite Hr3.
  change (0 =? 0) with true. cbv match. unfold tapping_unsettled. tsteps. rewrite Hs2.
  cbn [negb]. rewrite !andb_false_r. cbn [andb when].
  by rewrite (run_bind _ _ _ _ _ (run_other_key_pressed _ _ _ _ _ _ Htk Hpne)).
Qed.
End waiting.

(** ** Draining the waiting buffer *)

(** The records are handled one after the other. *)
Definition handle_all (rs : list keyrecord_t) (k : keyboard) : keyboard :=
  foldl (fun k r => handled r k) k rs.

(** None of the records is the press of a tap-hold key when its turn comes. *)
Fixpoint plain_run (rs : list keyrecord_t) (k : keyboard) : Prop :=
  match rs with
  | [] => True
  | r :: rs =>
      IS_NOEVENT (event r) = false /\ pressed (event r) && is_tap r k = false /\
      plain_run rs (handled r k)
  end.

Lemma drain_step n t k b t' k' :
  (waiting_buffer_tail t =? waiting_buffer_head t) = false ->
  process_tapping (Slot (waiting_buffer_tail t)) (with_tapping t k) = (b, with_tapping t' k') ->
  drain (S n) (with_tapping t k) =
    if b then drain n (with_tapping (dequeue t') k') else (tt, with_tapping t' k').
Proof.
  intros Hne Hp. cbn [drain]. rewrite run_get_tail, run_get_head, Hne.
  rewrite (run_bind _ _ _ _ _ Hp). by destruct b.
Qed.

Lemma drain_empty n t tk k : view t tk [] -> drain n (with_tapping t k) = (tt, with_tapping t k).
Proof.
  intros Hv. destruct n as [|n]; [done|]. cbn [drain]. rewrite run_get_tail, run_get_head.
  by rewrite (view_empty _ _ Hv).
Qed.

(** With no tapping key. *)
Lemma idle_handles p t k s :
  IS_NOEVENT (event (tapping_key t)) = true -> deref p t = s -> p <> TappingKey ->
  IS_NOEVENT (event s) = false -> pressed (event s) && is_tap s k = false ->
  process_tapping p (with_tapping t k) =
    (true, with_tapping (assign p (eval (process_record 2 s) k) t) (handled s k)).
Proof.
  intros Htk Hp Hpne Hs Hplain. rewrite run_process_tapping, Htk, Hp. cbv zeta.
  unfold tapping_idle. rewrite is_event, Hs. cbn [negb]. tsteps. rewrite Hp, Hplain. tsteps.
  by rewrite Hp.
Qed.

Lemma drain_idle q : forall n t tk k,
  view t tk q -> IS_NOEVENT (event tk) = true -> plain_run q k -> (length q <= n)%nat ->
  exists t', drain n (with_tapping t k) = (tt, with_tapping t' (handle_all q k)) /\ view t' tk [].
Proof.
  induction q as [|s q IH]; intros n t tk k Hv Htk Hplain Hn.
  { exists t. split; [by apply (drain_empty n t tk k)|done]. }
  destruct Hplain as (Hs & Hp & Hplain). destruct n as [|n]; [cbn in Hn; lia|].
  destruct (view_head _ _ _ _ Hv) as [Hne Hhead]. pose proof Hv as [_ Hkey _].
  assert (IS_NOEVENT (event (tapping_key t)) = true) as Htk' by (by rewrite Hkey).
  rewrite (drain_step n t k _ _ _ Hne (idle_handles _ t k s Htk' Hhead ltac:(done) Hs Hp)). cbv match.
  apply IH; [by eapply view_drop|done|done|]. cbn in Hn. lia.
Qed.

(** ** From a press on *)

Definition events (rs : list keyrecord_t) (k : keyboard) : keyboard :=
  foldl (fun k r => exec (action_tapping_process r) k) k rs.
Definition hint (r : keyrecord_t) (k : keyboard) : keyboard := exec (process_record_tap_hint r) k.

Lemma run_event r t k b t' k' :
  process_tapping Param (with_tapping (assign Param r t) k) = (b, with_tapping t' k') ->
  action_tapping_process r (with_tapping t k) =
    if b then drain 8 (with_tapping t' k')
    else
      (r ← load Param;
       enqueued ← waiting_buffer_enq r;
       (if (enqueued : bool) then skip
        else clear_keyboard;; waiting_buffer_clear;; put_tapping_key record_0);;
       drain 8) (with_tapping t' k').
Proof.
  intros Hp. unfold action_tapping_process. rewrite (run_bind _ _ _ _ _ (run_store _ _ _ _)).
  rewrite (run_bind _ _ _ _ _ Hp). by destruct b.
Qed.

(** It is put in the buffer. *)
Lemma run_event_waits r t k t' k' tk q :
  process_tapping Param (with_tapping (assign Param r t) k) = (false, with_tapping t' k') ->
  view t' tk q -> (length q < 7)%nat -> IS_NOEVENT (event (param_record t')) = false ->
  action_tapping_process r (with_tapping t k) =
    drain 8 (with_tapping (enqueue (param_record t') t') k').
Proof.
  intros Hp [Hok _ Hq] Hlt Hr. rewrite (run_event _ _ _ _ _ _ Hp). cbv match. tsteps.
  rewrite <-Hq in Hlt. by rewrite (run_bind _ _ _ _ _ (run_enq _ t' k' Hr Hok Hlt)).
Qed.

(** It is dropped, being no event. *)
Lemma run_event_ticks r t k t' k' :
  process_tapping Param (with_tapping (assign Param r t) k) = (false, with_tapping t' k') ->
  IS_NOEVENT (event (param_record t')) = true ->
  action_tapping_process r (with_tapping t k) = drain 8 (with_tapping t' k').
Proof.
  intros Hp Hr. rewrite (run_event _ _ _ _ _ _ Hp). cbv match. tsteps.
  unfold waiting_buffer_enq. cbn [deref]. by rewrite Hr.
Qed.

Lemma scan_tap_nothing t tk k :
  view t tk [] -> waiting_buffer_scan_tap (with_tapping t k) = (tt, with_tapping t k).
Proof.
  intros [_ _ Hq]. unfold waiting_buffer_scan_tap. tsteps. case_match; [done|].
  change ((idx ← gets (fun k => waiting_slots (tapping k)); scan_tap idx) (with_tapping t k))
    with (scan_tap (waiting_slots t) (with_tapping t k)).
  unfold queue in Hq. apply fmap_nil_inv in Hq. by rewrite Hq.
Qed.

(** A tap-hold key goes down when there is no tapping key. *)
Lemma tap_key_pressed r t tk k :
  view t tk [] -> IS_NOEVENT (event tk) = true ->
  IS_NOEVENT (event r) = false -> pressed (event r) = true -> is_tap r k = true ->
  exists t', action_tapping_process r (with_tapping t k) = (tt, with_tapping t' (hint r k)) /\ view t' r [].
Proof.
  intros Hv Htk Hr Hpr Htap. set (t' := assign TappingKey r (assign Param r t)).
  assert (view t' r []) as Hv' by (eapply view_put_key, view_param, Hv).
  exists t'. split; [|done].
  assert (process_tapping Param (with_tapping (assign Param r t) k) = (true, with_tapping t' (hint r k))) as Hp.
  { rewrite run_process_tapping. change (tapping_key (assign Param r t)) with (tapping_key t).
    rewrite (view_key _ _ _ Hv), Htk. cbv zeta. unfold tapping_idle.
    change (deref Param (assign Param r t)) with r. rewrite is_event, Hr. cbn [negb]. tsteps.
    change (param_record (assign Param r t)) with r. rewrite Hpr, Htap. cbn [andb]. unfold put_tapping_key.
    rewrite run_assoc, (run_bind _ _ _ _ _ (run_store _ _ _ _)).
    rewrite run_assoc, (run_bind _ _ _ _ _ (run_private _ (private_process_record_tap_hint r) _ k)).
    by rewrite (run_bind _ _ _ _ _ (scan_tap_nothing _ _ _ Hv')). }
  rewrite (run_event _ _ _ _ _ _ Hp). cbv match. by apply (drain_empty 8 _ r).
Qed.

(** A press that comes within the term of [r]. *)
Definition early (e : keyevent_t) (r : keyrecord_t) (k : keyboard) : Prop :=
  forall b, within e (interrupt b r) k = true.
Definition late (e : keyevent_t) (r : keyrecord_t) (k : keyboard) : Prop :=
  forall b, within e (interrupt b r) k = false.
Definition waits (r : keyrecord_t) (k : keyboard) (s : keyrecord_t) : Prop :=
  other_press s /\ early (event s) r k.

Section waiting_run.
Hypothesis no_hold_on_other_key : HOLD_ON_OTHER_KEY_PRESS_PER_KEY = false /\ HOLD_ON_OTHER_KEY_PRESS = false.
Context (r : keyrecord_t) (k : keyboard).
Hypothesis r_undecided : undecided r.

Lemma waiting_press b t q s :
  view t (interrupt b r) q -> Forall (waits r k) q -> waits r k s -> (length q < 7)%nat ->
  exists t', action_tapping_process s (with_tapping t k) = (tt, with_tapping t' k) /\
    view t' (interrupt true r) (q ++ [s]).
Proof using All.
  intros Hv Hq [Hs He] Hlt. set (t1 := assign TappingKey (interrupt true r) (assign Param s t)).
  assert (view t1 (interrupt true r) q) as Hv1 by (eapply view_put_key, view_param, Hv).
  rewrite (run_event_waits s t k t1 k (interrupt true r) q).
  - pose proof (view_enqueue s _ _ _ Hv1 Hlt) as Hv2. change (param_record t1) with s.
    set (t2 := enqueue s t1) in *. exists (assign TappingKey (interrupt true r) t2).
    split; [|by eapply view_put_key].
    assert (exists s0 q0, q ++ [s] = s0 :: q0 /\ waits r k s0) as (s0 & q0 & E & [Hs0 He0]).
    { destruct Hq as [|s0 q0 Hs0]; [by exists s, []|by exists s0, (q0 ++ [s])]. }
    rewrite E in Hv2. destruct (view_head _ _ _ _ Hv2) as [Hne Hhead].
    exact (drain_step 7 t2 k false _ _ Hne (other_press_waits no_hold_on_other_key _ t2 k r true s0
      r_undecided Hs0 Hhead ltac:(done) (view_key _ _ _ Hv2) (He0 true))).
  - by apply (other_press_waits no_hold_on_other_key Param _ _ r b s); try done; apply Hv.
  - done.
  - done.
  - by destruct Hs.
Qed.

(** All the presses that follow wait. *)
Lemma waiting_presses ss : forall b t q,
  view t (interrupt b r) q -> Forall (waits r k) (q ++ ss) -> (length (q ++ ss) <= 7)%nat ->
  exists t', events ss (with_tapping t k) = with_tapping t' k /\
    view t' (interrupt (match ss with [] => b | _ => true end) r) (q ++ ss).
Proof using All.
  induction ss as [|s ss IH]; intros b t q Hv Hq Hlen.
  { exists t. by rewrite app_nil_r. }
  pose proof Hq as [Hq1 [Hs _]%Forall_cons]%Forall_app.
  rewrite length_app in Hlen. cbn in Hlen.
  destruct (waiting_press b t q s Hv Hq1 Hs ltac:(lia)) as (t1 & E & Hv1).
  destruct (IH true t1 (q ++ [s])) as (t' & E' & Hv').
  - done.
  - by rewrite <-app_assoc.
  - rewrite !length_app in *. cbn in *. lia.
  - exists t'. rewrite <-app_assoc in Hv'. split; [|by destruct ss]. cbn [events foldl].
    unfold exec. by rewrite E.
Qed.
End waiting_run.

(** ** The decisions *)

(** After the term the key is held. *)
Lemma late_is_held p t k r b s :
  undecided r -> deref p t = s -> tapping_key t = interrupt b r -> late (event s) r k ->
  process_tapping p (with_tapping t k) =
    (false, with_tapping (assign TappingKey record_0 t) (handled (interrupt b r) k)).
Proof.
  intros (Hr1 & Hr2 & Hr3) Hp Htk Hl. rewrite run_process_tapping. rewrite Htk, Hp.
  cbv zeta. change (event (interrupt b r)) with (event r). rewrite Hr1, Hr2. unfold tapping_pressed.
  tsteps. rewrite Htk, Hl. change (count (tap (interrupt b r))) with (count (tap r)). rewrite Hr3.
  change (0 =? 0) with true. cbv match. unfold put_tapping_key. tsteps. by rewrite Htk.
Qed.

Lemma typed_queue e t :
  waiting_buffer_typed e t =
  existsb (fun w => KEYEQ (key e) (key (event w)) && negb (eqb (pressed e) (pressed (event w)))) (queue t).
Proof.
  unfold waiting_buffer_typed, queue. induction (waiting_slots t) as [|i l IH]; [done|].
  cbn [existsb fmap list_fmap]. by rewrite IH.
Qed.

(** The release of [s], which waits: a nested tap. *)
Definition releases_one_of (s' : keyrecord_t) (q : list keyrecord_t) : Prop :=
  IS_NOEVENT (event s') = false /\ pressed (event s') = false /\
  exists s, s ∈ q /\ key (event s) = key (event s') /\ pressed (event s) = true.

Lemma releases_typed s' q t tk :
  view t tk q -> releases_one_of s' q -> waiting_buffer_typed (event s') t = true.
Proof.
  intros [_ _ Hq] (_ & Hp & s & Hin & Hk & Hps). rewrite typed_queue, Hq.
  apply existsb_exists. exists s. split; [by apply list_elem_of_In|]. rewrite Hp, Hps, Hk. cbn [eqb negb].
  unfold KEYEQ. rewrite !Z.eqb_refl. done.
Qed.

(** With Permissive Hold the key is held. *)
Lemma nested_tap_is_held p t k r b s' q :
  undecided r -> deref p t = s' -> view t (interrupt b r) q -> early (event s') r k ->
  releases_one_of s' q -> is_tapping_record s' (interrupt b r) = false ->
  tap_permissive_hold (keycode_of (interrupt b r) k) (interrupt b r) = true ->
  process_tapping p (with_tapping t k) =
    (false, with_tapping (assign TappingKey record_0 t) (handled (interrupt b r) k)).
Proof.
  intros (Hr1 & Hr2 & Hr3) Hp Hv He Hrel Hne Hperm. pose proof (releases_typed _ _ _ _ Hv Hrel) as Htyped.
  pose proof (view_key _ _ _ Hv) as Htk. destruct Hrel as (Hs1 & Hs2 & _).
  rewrite run_process_tapping. rewrite Htk, Hp.
  cbv zeta. change (event (interrupt b r)) with (event r). rewrite Hr1, Hr2. unfold tapping_pressed.
  tsteps. rewrite Htk, He. change (count (tap (interrupt b r))) with (count (tap r)). rewrite Hr3, Hs1.
  change (0 =? 0) with true. cbv match. unfold tapping_unsettled. tsteps.
  rewrite Hp, Htk, Hne, Hs2, Htyped, Hperm, no_chordal_hold. cbn [andb negb].
  unfold permissive_hold. rewrite no_chordal_hold. cbn [when]. unfold put_tapping_key. tsteps.
  by rewrite Htk.
Qed.

(** The key is released within the term: it is tapped. *)
Definition tapped (r : keyrecord_t) : keyrecord_t := r <| tap := (tap r) <| count := 1 |> |>.

Lemma own_release_is_tap t k r b r' :
  undecided r -> tapping_key t = interrupt b r -> early (event r') r k ->
  IS_NOEVENT (event r') = false -> pressed (event r') = false -> is_tapping_record r' (interrupt b r) = true ->
  unchanged (tapped (interrupt b r)) k ->
  process_tapping Param (with_tapping (assign Param r' t) k) =
    (false, with_tapping (assign Param (r' <| tap := tap (tapped (interrupt b r)) |>)
                            (assign TappingKey (tapped (interrupt b r)) t))
              (handled (tapped (interrupt b r)) k)).
Proof.
  intros (Hr1 & Hr2 & Hr3) Htk He Hs1 Hs2 Heq Hun.
  rewrite run_process_tapping. change (deref Param (assign Param r' t)) with r'.
  change (tapping_key (assign Param r' t)) with (tapping_key t). rewrite Htk.
  cbv zeta. change (event (interrupt b r)) with (event r). rewrite Hr1, Hr2. unfold tapping_pressed.
  tsteps. change (tapping_key (assign Param r' t)) with (tapping_key t). rewrite Htk, He.
  change (count (tap (interrupt b r))) with (count (tap r)). rewrite Hr3, Hs1.
  change (0 =? 0) with true. cbv match. unfold tapping_unsettled. tsteps.
  change (tapping_key (assign Param r' t)) with (tapping_key t).
  change (param_record (assign Param r' t)) with r'. rewrite Htk, Heq, Hs2. cbn [andb negb].
  unfold first_tap. tsteps. change (tapping_key (assign Param r' t)) with (tapping_key t). rewrite Htk.
  set (tk := tapped (interrupt b r)) in *.
  change (tapping_key (assign TappingKey ((interrupt b r) <| tap := (tap (interrupt b r)) <| count := 1 |> |>)
    (assign Param r' t))) with tk.
  unfold unchanged in Hun. rewrite Hun. done.
Qed.

(** ** Draining after a tap *)

Lemma tapped_handles p t k tk s :
  tapping_key t = tk -> IS_NOEVENT (event tk) = false -> pressed (event tk) = true -> count (tap tk) = 1 ->
  deref p t = s -> p <> TappingKey ->
  IS_NOEVENT (event s) = false -> pressed (event s) = true -> is_tap s k = false ->
  process_tapping p (with_tapping t k) =
    (true, with_tapping (assign p (eval (process_record 2 s) k) t) (handled s k)).
Proof.
  intros Htk Hk1 Hk2 Hk3 Hp Hpne Hs1 Hs2 Htap. rewrite run_process_tapping. rewrite Htk, Hp. cbv zeta.
  rewrite Hk1, Hk2. unfold tapping_pressed. tsteps. rewrite Htk, Hs1, Hk3.
  change (1 =? 0) with false. cbv match.
  assert (forall after, tapping_tapped p (event s) after (with_tapping t k) =
    (true, with_tapping (assign p (eval (process_record 2 s) k) t) (handled s k))) as Hrec.
  { intros after. unfold tapping_tapped. tsteps. rewrite Hp, Htk, Hs2, Htap. cbn [negb andb].
    rewrite andb_false_r. tsteps. by rewrite Hp. }
  destruct (within _ _ _); apply Hrec.
Qed.

Lemma assign_self p t : assign p (deref p t) t = t.
Proof.
  destruct p as [|i|]; cbn [assign deref]; [by destruct t| |by destruct t].
  unfold slot_record. destruct (waiting_buffer t !! Z.to_nat i) as [r|] eqn:E; cbn [default].
  - rewrite list_insert_id by done. by destruct t.
  - apply lookup_ge_None in E. rewrite list_insert_ge by done. by destruct t.
Qed.

(** The release itself, last in the buffer. *)
Lemma tapped_releases p t k tk r' :
  tapping_key t = tk -> IS_NOEVENT (event tk) = false -> pressed (event tk) = true -> count (tap tk) = 1 ->
  deref p t = r' -> p <> TappingKey -> tap r' = tap tk ->
  IS_NOEVENT (event r') = false -> pressed (event r') = false -> is_tapping_record r' tk = true ->
  exists r'' tk', process_tapping p (with_tapping t k) =
    (true, with_tapping (assign TappingKey tk' (assign p r'' t)) (handled r' k)).
Proof.
  intros Htk Hk1 Hk2 Hk3 Hp Hpne Ht Hs1 Hs2 Heq. rewrite run_process_tapping. rewrite Htk, Hp. cbv zeta.
  rewrite Hk1, Hk2. unfold tapping_pressed. tsteps. rewrite Htk, Hs1, Hk3.
  change (1 =? 0) with false. cbv match.
  assert (forall after, exists r'' tk', tapping_tapped p (event r') after (with_tapping t k) =
    (true, with_tapping (assign TappingKey tk' (assign p r'' t)) (handled r' k))) as Hrel.
  { intros after. unfold tapping_tapped, put_tapping_key. tsteps. rewrite Hp, Htk, Hs2, Heq. cbn [negb andb].
    tsteps. assert ((deref p t) <| tap := tap tk |> = deref p t) as ->.
    { rewrite Hp, <-Ht. by destruct r'. }
    rewrite assign_self, Hp. eauto. }
  destruct (within _ _ _); apply Hrel.
Qed.

Lemma drain_tapped tk r' q : 
  IS_NOEVENT (event tk) = false -> pressed (event tk) = true -> count (tap tk) = 1 ->
  tap r' = tap tk -> IS_NOEVENT (event r') = false -> pressed (event r') = false ->
  is_tapping_record r' tk = true ->
  forall n t k,
  view t tk (q ++ [r']) -> Forall (fun s => pressed (event s) = true) q -> plain_run q k -> (length q < n)%nat ->
  exists t' tk', drain n (with_tapping t k) = (tt, with_tapping t' (handle_all (q ++ [r']) k)) /\ view t' tk' [].
Proof.
  intros Hk1 Hk2 Hk3 Ht Hr1 Hr2 Heq. induction q as [|s q IH]; intros n t k Hv Hq Hplain Hn;
    (destruct n as [|n]; [cbn in Hn; lia|]);
    destruct (view_head _ _ _ _ Hv) as [Hne Hhead]; pose proof (view_key _ _ _ Hv) as Hkey.
  - destruct (tapped_releases _ t k tk r' Hkey Hk1 Hk2 Hk3 Hhead ltac:(done) Ht Hr1 Hr2 Heq)
      as (r'' & tk' & E).
    rewrite (drain_step n t k _ _ _ Hne E). cbv match.
    pose proof (view_put_key tk' _ _ _ (view_drop r'' _ _ _ _ Hv)) as Hv'.
    eexists _, tk'. split; [exact (drain_empty n _ tk' _ Hv')|exact Hv'].
  - destruct Hplain as (Hs & Hp & Hplain). apply Forall_cons in Hq as [Hsp Hq].
    rewrite Hsp in Hp. cbn [andb] in Hp.
    rewrite (drain_step n t k _ _ _ Hne
      (tapped_handles _ t k tk s Hkey Hk1 Hk2 Hk3 Hhead ltac:(done) Hs Hsp Hp)). cbv match.
    apply IH; [by eapply view_drop|done|done|]. cbn in Hn. lia.
Qed.

(** ** A tap-hold key, from its press to the decision *)

(** The press of a tap-hold key when there is no tapping key. *)
Record starts (r : keyrecord_t) (k : keyboard) : Prop := {
  starts_idle : exists tk, view (tapping k) tk [] /\ IS_NOEVENT (event tk) = true;
  starts_event : IS_NOEVENT (event r) = false;
  starts_press : pressed (event r) = true;
  starts_fresh : tap r = {| interrupted := false; count := 0 |};
  starts_tap : is_tap r k = true;
}.

(** The record of the tapping key once the others have been pressed. *)
Definition held (r : keyrecord_t) (ss : list keyrecord_t) : keyrecord_t :=
  interrupt (match ss with [] => false | _ => true end) r.

Section typing.
Hypothesis no_hold_on_other_key : HOLD_ON_OTHER_KEY_PRESS_PER_KEY = false /\ HOLD_ON_OTHER_KEY_PRESS = false.
Context (r : keyrecord_t) (ss : list keyrecord_t) (k : keyboard).
Hypothesis r_starts : starts r k.
Hypothesis ss_wait : Forall (waits r (hint r k)) ss.
Hypothesis ss_room : (length ss <= 6)%nat.

Lemma starts_undecided : undecided r.
Proof using r_starts. destruct r_starts as [_ Hr1 Hr2 Hr3 _]. unfold undecided. by rewrite Hr3. Qed.

Lemma pressed_run :
  exists t, events (r :: ss) k = with_tapping t (hint r k) /\ view t (held r ss) ss.
Proof using All.
  destruct r_starts as [(tk & Hv & Htk) Hr1 Hr2 Hr3 Htap].
  assert (events (r :: ss) k = events (r :: ss) (with_tapping (tapping k) k)) as ->
    by (by rewrite with_own_tapping).
  destruct (tap_key_pressed r _ tk k Hv Htk Hr1 Hr2 Htap) as (t1 & E1 & Hv1).
  assert (interrupt false r = r) as Hfresh by (destruct r as [? [] ?]; cbn in Hr3; by injection Hr3 as -> ->).
  rewrite <-Hfresh in Hv1.
  destruct (waiting_presses no_hold_on_other_key r (hint r k) starts_undecided ss false t1 [] Hv1) as (t & E & Hv2);
    [done|cbn; lia|].
  exists t. split; [|exact Hv2].
  cbn [events foldl]. unfold exec at 2. rewrite E1. exact E.
Qed.

Lemma events_snoc rs x : events (rs ++ [x]) k = exec (action_tapping_process x) (events rs k).
Proof. unfold events. by rewrite foldl_app. Qed.


(** What the last record [x] is to the buffer. *)
Definition arrived (x : keyrecord_t) : list keyrecord_t := if IS_NOEVENT (event x) then [] else [x].

(** Once held, the key and the records that waited are handled in order. *)
Lemma held_run x :
  (forall t, view t (held r ss) ss ->
     process_tapping Param (with_tapping (assign Param x t) (hint r k)) =
       (false, with_tapping (assign TappingKey record_0 (assign Param x t)) (handled (held r ss) (hint r k)))) ->
  plain_run (ss ++ arrived x) (handled (held r ss) (hint r k)) ->
  exists t, events (r :: ss ++ [x]) k = with_tapping t (handle_all (held r ss :: ss ++ arrived x) (hint r k)) /\
    view t record_0 [].
Proof using All.
  intros Hx Hplain. destruct pressed_run as (t & E & Hv).
  change (r :: ss ++ [x]) with ((r :: ss) ++ [x]). rewrite events_snoc, E. specialize (Hx t Hv).
  set (t1 := assign TappingKey record_0 (assign Param x t)) in *.
  assert (view t1 record_0 ss) as Hv1 by (eapply view_put_key, view_param, Hv).
  assert (exists t2, action_tapping_process x (with_tapping t (hint r k)) =
      drain 8 (with_tapping t2 (handled (held r ss) (hint r k))) /\ view t2 record_0 (ss ++ arrived x)
      /\ (length (ss ++ arrived x) <= 8)%nat) as (t2 & E2 & Hv2 & Hlen).
  { unfold arrived. destruct (IS_NOEVENT (event x)) eqn:Hnx.
    - exists t1. rewrite app_nil_r. split; [by apply run_event_ticks|]. split; [done|lia].
    - exists (enqueue x t1). split; [|split].
      + rewrite (run_event_waits _ _ _ _ _ _ _ Hx Hv1); [done|lia|done].
      + apply view_enqueue; [done|lia].
      + rewrite length_app. cbn. lia. }
  destruct (drain_idle _ 8 t2 _ _ Hv2 ltac:(done) Hplain Hlen) as (t' & E' & Hv').
  exists t'. split; [|done]. unfold exec. rewrite E2, E'. done.
Qed.

End typing.

(** C8: a tap-hold key [r] goes down when there is no tapping key, and at most
    six other keys [ss] go down after it within its term.  With the first
    event [x], or tick, past the term, the key is held: [process_record] is
    applied to its record with no tap counted, then to the records of [ss], in
    the order in which they were typed, then to [x] unless it is a tick, and
    then nothing waits and there is no tapping key.  Condition ([plain_run]):
    when its turn comes, by the layers that are on then, none of [ss] is the
    press of a tap-hold key, and neither is [x]; such a press would wait
    undecided itself. *)
Theorem key_is_held_after_term r ss x k :
  HOLD_ON_OTHER_KEY_PRESS_PER_KEY = false /\ HOLD_ON_OTHER_KEY_PRESS = false ->
  starts r k -> Forall (waits r (hint r k)) ss -> (length ss <= 6)%nat ->
  late (event x) r (hint r k) ->
  plain_run (ss ++ arrived x) (handled (held r ss) (hint r k)) ->
  exists t, events (r :: ss ++ [x]) k = with_tapping t (handle_all (held r ss :: ss ++ arrived x) (hint r k)) /\
    view t record_0 [].
Proof using All.
  intros Hho Hr Hss Hlen Hx Hplain. eapply held_run; try done. intros t Hv.
  by eapply late_is_held; [eapply starts_undecided|..|exact Hx]; [done|done|apply Hv].
Qed.

(** C10: with Permissive Hold the same happens within the term when one of the
    keys of [ss] is released, the nested tap: the tapping key is held, then
    the presses are handled, then the release, and then nothing waits and there
    is no tapping key.  Condition ([plain_run]): when its turn comes none of
    [ss] is the press of a tap-hold key; behind such a press the release would
    wait, too. *)
Theorem nested_tap_holds r ss x k :
  HOLD_ON_OTHER_KEY_PRESS_PER_KEY = false /\ HOLD_ON_OTHER_KEY_PRESS = false ->
  tap_permissive_hold (keycode_of (held r ss) (hint r k)) (held r ss) = true ->
  starts r k -> Forall (waits r (hint r k)) ss -> (length ss <= 6)%nat ->
  early (event x) r (hint r k) -> releases_one_of x ss -> is_tapping_record x r = false ->
  plain_run (ss ++ [x]) (handled (held r ss) (hint r k)) ->
  exists t, events (r :: ss ++ [x]) k = with_tapping t (handle_all (held r ss :: ss ++ [x]) (hint r k)) /\
    view t record_0 [].
Proof using All.
  intros Hho Hperm Hr Hss Hlen Hx Hrel Hne Hplain.
  assert (arrived x = [x]) as Ha by (unfold arrived; by destruct Hrel as (-> & _)).
  pose proof (held_run Hho r ss k Hr Hss Hlen x) as Hrun. rewrite Ha in Hrun.
  apply Hrun; [|done]. intros t Hv.
  eapply nested_tap_is_held; [by eapply starts_undecided|done|by apply view_param|exact Hx|exact Hrel|exact Hne|exact Hperm].
Qed.

(** C9: when [r] itself is released within the term, it is tapped:
    [process_record] is applied to its press with one tap counted, then to the
    records of [ss] in order, then to its release with the tap of the press,
    and nothing waits any more.  Conditions: what came in between are presses
    only, at most six, and when its turn comes none of them is the press of a
    tap-hold key ([plain_run]). *)
Theorem key_is_tapped r ss r' k :
  HOLD_ON_OTHER_KEY_PRESS_PER_KEY = false /\ HOLD_ON_OTHER_KEY_PRESS = false ->
  starts r k -> Forall (waits r (hint r k)) ss -> (length ss <= 6)%nat ->
  early (event r') r (hint r k) -> IS_NOEVENT (event r') = false -> pressed (event r') = false ->
  is_tapping_record r' r = true ->
  let tk := tapped (held r ss) in
  unchanged tk (hint r k) -> plain_run ss (handled tk (hint r k)) ->
  exists t tk', events (r :: ss ++ [r']) k =
    with_tapping t (handle_all (tk :: ss ++ [r' <| tap := tap tk |>]) (hint r k)) /\ view t tk' [].
Proof using All.
  intros Hho Hr Hss Hlen Hx Hx1 Hx2 Heq tk Hun Hplain.
  destruct (pressed_run Hho r ss k Hr Hss Hlen) as (t & E & Hv).
  pose proof (starts_undecided r k Hr) as Hu.
  pose proof (own_release_is_tap t (hint r k) r _ r' Hu (view_key _ _ _ Hv) Hx Hx1 Hx2 Heq Hun) as Hp.
  change (tapped (interrupt _ r)) with tk in Hp. set (r2 := r' <| tap := tap tk |>) in *.
  set (t1 := assign Param r2 (assign TappingKey tk t)) in *.
  assert (view t1 tk ss) as Hv1 by (eapply view_param, view_put_key, Hv).
  change (r :: ss ++ [r']) with ((r :: ss) ++ [r']). rewrite events_snoc, E.
  pose proof (run_event_waits _ _ _ _ _ _ _ Hp Hv1 ltac:(lia) Hx1) as Erun.
  pose proof (view_enqueue r2 _ _ _ Hv1 ltac:(lia)) as Hv2.
  destruct (drain_tapped tk r2 ss) with (n := 8%nat) (t := enqueue r2 t1) (k := handled tk (hint r k))
    as (t' & tk' & E' & Hv'); try done.
  - by destruct Hu.
  - by destruct Hu as (_ & ? & _).
  - eapply Forall_impl; [exact Hss|]. by intros s [[_ ?] _].
  - lia.
  - exists t', tk'. split; [|done]. unfold exec. rewrite Erun. change (param_record t1) with r2. by rewrite E'.
Qed.
End decisions.
