(* ===== verification/Sample.v ===== *)
(** * The keyboard core at reset, and a concrete build

    The initialisers of the static variables, and that they satisfy the
    invariant of the core once a host driver is set; then a board, and the
    theorems of the core applied to it. *)
From S2P Require Import Prelude.
From S2P Require Import Bitwise.
From S2P Require Import Keycodes.
From S2P Require Import Report.
From S2P Require Import State.
From S2P Require Import ActionUtil.
From S2P Require Import ActionCode.
From S2P Require Import Keymap.
From S2P Require Import ActionLayer.
From S2P Require Import Oneshot.
From S2P Require Import Action.
From S2P Require Import Tapping.
From S2P Require Import ActionUtilSpec.
From S2P Require Import KeymapSpec.
From S2P Require Import TypingSpec.
From S2P Require Import Closure.
From S2P Require Import Invariant.
From S2P Require Import LayerSpec.
From S2P Require Import OneshotSpec.
From S2P Require Import TappingSpec.
From S2P Require Import Private.
From S2P Require Import TapHoldSpec.

(** action_util.c and report.c *)
Definition keyboard_report_reset : report_keyboard_t := {|
  kb_report_id := 0; kb_mods := 0; kb_reserved := 0; keys := replicate KEYBOARD_REPORT_KEYS 0;
|}.

Definition nkro_report_reset : report_nkro_t := {|
  nkro_report_id := 0; nkro_mods := 0; bits := replicate NKRO_REPORT_BITS 0;
|}.

Definition reports_reset : reports := {|
  keyboard_report := keyboard_report_reset; nkro_report := nkro_report_reset;
  cb_head := 0; cb_tail := 0; cb_count := 0;
|}.

Definition mods_reset : mods_state := {|
  real_mods := 0; weak_mods := 0; weak_override_mods := 0; suppressed_mods := 0;
  oneshot_mods := 0; oneshot_locked_mods := 0; oneshot_time := 0;
  last_report := keyboard_report_reset; last_nkro_report := nkro_report_reset;
|}.

(** action_tapping.c *)
Definition tapping_reset : tapping_state := {|
  param_record := record_0; tapping_key := record_0;
  waiting_buffer := replicate 8 record_0; waiting_buffer_head := 0; waiting_buffer_tail := 0;
  registered_taps := replicate 8 {| col := 0; row := 0 |}; num_registered_taps := 0;
|}.

(** host.c, with a driver set *)
Definition host_reset : host_state := {|
  driver := true; keyboard_leds := 0; last_system_usage := 0; last_consumer_usage := 0; sent := [];
|}.

Section reset.
Context `{!Config}.

(** [((MATRIX_ROWS * MATRIX_COLS) + (CHAR_BIT)-1) / (CHAR_BIT)] *)
Definition cache_lines (n : Z) : nat := Z.to_nat ((n + 7) / 8).

(** action_layer.c *)
Definition cache_reset (n : Z) : list (list Z) :=
  replicate (cache_lines n) (replicate (Z.to_nat MAX_LAYER_BITS) 0).

Definition layers_reset : layers_state := {|
  default_layer_state := 0; layer_state := 0;
  source_layers_cache := cache_reset (MATRIX_ROWS * MATRIX_COLS);
  encoder_source_layers_cache := cache_reset NUM_ENCODERS;
  disable_action_cache := false; oneshot_layer_data := 0; oneshot_layer_time := 0;
|}.

(** action.c *)
Definition hands_reset : hands_state := {|
  swap_hands := false; swap_held := false; swap_hands_oneshot := SHO_OFF; oneshot_swaphands_time := 0;
  matrix_swap_state := replicate (cache_lines (MATRIX_ROWS * MATRIX_COLS)) 0;
  encoder_swap_state := replicate (cache_lines NUM_ENCODERS) 0;
  retro_tapping_counter := 0; tp_buttons := 0;
|}.

(** The keymap settings come from EEPROM, the time from the timer. *)
Definition keyboard_reset (c : keymap_config_t) (protocol : bool) (t : Z) : keyboard := {|
  rep := reports_reset; mods := mods_reset; layers := layers_reset; hands := hands_reset;
  tapping := tapping_reset; host := host_reset; keymap_config := c; keyboard_protocol := protocol;
  now := t;
|}.

Lemma Forall_replicate_byte n : Forall is_byte (replicate n 0).
Proof. by apply Forall_replicate. Qed.

Lemma cache_reset_ok n : cache_ok n (cache_reset n).
Proof.
  split; [apply length_replicate|]. apply Forall_replicate. split; [apply length_replicate|].
  apply Forall_replicate_byte.
Qed.
#[local] Hint Resolve Forall_replicate_byte cache_reset_ok length_replicate : core.

Lemma is_word_0 w : 0 <= w -> is_word w 0.
Proof. intros. split; [done|]. by apply Z.pow_pos_nonneg. Qed.

Lemma layers_reset_ok `{!ConfigOk} : layers_ok layers_reset.
Proof.
  assert (0 <= LAYER_STATE_BITS) by (destruct layer_state_bits as [[-> _]|[[-> _]|[-> _]]]; lia).
  split_and!; cbn; auto using is_word_0, is_byte_0.
Qed.

Lemma hands_reset_ok : hands_ok hands_reset.
Proof. split_and!; cbn; auto; apply length_replicate. Qed.

Lemma reports_reset_ok : reports_ok reports_reset.
Proof. split; split_and!; try done. repeat constructor; by vm_compute. Qed.

Lemma keyboard_reset_ok `{!ConfigOk} c protocol t : keyboard_ok (keyboard_reset c protocol t).
Proof.
  split; cbn.
  - apply reports_reset_ok.
  - split_and!; apply is_byte_0.
  - apply layers_reset_ok.
  - apply hands_reset_ok.
  - assert (- 2 ^ (INT_BITS - 1) <= 0 < 2 ^ (INT_BITS - 1)) by (destruct int_bits as [-> | ->]; done).
    split; [by apply is_word_0|]. split; [by apply is_word_0|]. split; [by apply is_word_0|done].
  - unfold tapping_ok. split_and!; (done || by vm_compute).
  - split_and!; reflexivity.
Qed.
End reset.

(** ** A concrete build

    A board of two rows and four columns with one encoder, four layers, NKRO
    and swap hands; its keyboard at reset; and the theorems of the core applied
    to it, which shows that their hypotheses can hold together. *)

Definition sample_config : Config := {|
  NKRO_ENABLE := true; RING_BUFFERED_6KRO_REPORT_ENABLE := false; KEYBOARD_SHARED_EP := false;
  EXTRAKEY_ENABLE := true; MOUSEKEY_ENABLE := true; POINTING_DEVICE_ENABLE := false;
  PS2_MOUSE_ENABLE := false; PROGRAMMABLE_BUTTON_ENABLE := false; SWAP_HANDS_ENABLE := true;
  ENCODER_MAP_ENABLE := true; DIP_SWITCH_MAP_ENABLE := false; KEY_OVERRIDE_ENABLE := false;
  LOCKING_SUPPORT_ENABLE := false; LOCKING_RESYNC_ENABLE := false; STRICT_LAYER_RELEASE := false;
  SEMI_STRICT_LAYER_RELEASE := false; KEYCODE_IN_RECORD := false; COMBO_ENABLE := false;
  LEGACY_MAGIC_HANDLING := false; RETRO_TAPPING := false; RETRO_TAPPING_PER_KEY := false;
  HOLD_ON_OTHER_KEY_PRESS := false; HOLD_ON_OTHER_KEY_PRESS_PER_KEY := false;
  PERMISSIVE_HOLD := true; PERMISSIVE_HOLD_PER_KEY := false; CHORDAL_HOLD := false;
  DUMMY_MOD_NEUTRALIZER_KEYCODE := None; MODS_TO_NEUTRALIZE := [];
  ONESHOT_TIMEOUT := 3000; ONESHOT_TAP_TOGGLE := 5; TAPPING_TOGGLE := 5; TAP_CODE_DELAY := 0;
  TAP_HOLD_CAPS_DELAY := 80; MATRIX_ROWS := 2; MATRIX_COLS := 4; NUM_ENCODERS := 1;
  NUM_DIP_SWITCHES := 0; INT_BITS := 16; LAYER_STATE_BITS := 16; MAX_LAYER_BITS := 4; MAX_LAYER := 4;
|}.

(** Layer 0: letters, and a layer-tap, a mod-tap and a swap-hands key in the second row; layer 1:
    digits; above it nothing. *)
Definition sample_keymap (layer row col : Z) : Z :=
  match layer, row, col with
  | 0, 1, 0 => LT 1 KC_SPACE
  | 0, 1, 1 => MT 0x02 KC_Z
  | 0, 1, 3 => Z.lor QK_SWAP_HANDS KC_A
  | 0, _, _ => KC_A + 4 * row + col
  | 1, 0, _ => KC_1 + col
  | _, _, _ => KC_TRANSPARENT
  end.

Definition sample_hooks : Hooks := {|
  keycode_at_keymap_location := sample_keymap;
  keycode_at_encodermap_location _ _ cw := if cw then KC_AUDIO_VOL_UP else KC_AUDIO_VOL_DOWN;
  keycode_at_dip_switch_map_location _ _ := KC_NO;
  hand_swap_config r c := {| row := r; col := 3 - c |};
  encoder_hand_swap_config e := e;
  layer_state_set_kb s := s;
  default_layer_state_set_kb s := s;
  command_proc _ := false;
  get_tapping_term _ _ := 200;
  get_quick_tap_term _ _ := 200;
  get_permissive_hold _ _ := true;
  get_hold_on_other_key_press _ _ := false;
  get_retro_tapping _ _ := false;
  get_chordal_hold _ _ _ _ := true;
  pre_process_record_quantum r := mret (true, r);
  process_record_quantum r := mret (true, r);
  post_process_record_quantum r := mret r;
|}.

#[local] Existing Instance sample_config.
#[local] Existing Instance sample_hooks.

#[export] Instance sample_config_ok : @ConfigOk sample_config.
Proof. split; unfold LAYER_STATE_BITS, MAX_LAYER_BITS, MAX_LAYER, MATRIX_ROWS, MATRIX_COLS, NUM_ENCODERS; cbn; lia. Defined.

Lemma sample_hooks_keep P : HooksKeep P.
Proof. split; intros r k Hk; exact Hk. Defined.

Definition sample_keymap_config (nkro_on gui : bool) : keymap_config_t := {|
  swap_control_capslock := false; capslock_to_control := false; swap_lalt_lgui := false;
  swap_ralt_rgui := false; no_gui := gui; swap_grave_esc := false;
  swap_backslash_backspace := false; nkro := nkro_on; swap_lctl_lgui := false;
  swap_rctl_rgui := false; oneshot_enable := true; swap_escape_capslock := false;
  autocorrect_enable := false;
|}.

Definition sample_keyboard (nkro_on : bool) : keyboard :=
  keyboard_reset (sample_keymap_config nkro_on false) true 1000.

Definition sample_event (r c t : Z) (down : bool) : keyevent_t := {|
  key := {| row := r; col := c |}; time := t; type := KEY_EVENT; pressed := down;
|}.
Definition sample_record (r c t : Z) (down : bool) : keyrecord_t := {|
  event := sample_event r c t down; tap := {| interrupted := false; count := 0 |}; keycode := 0;
|}.

Lemma sample_keyboard_ok n : keyboard_ok (sample_keyboard n).
Proof. apply keyboard_reset_ok. Defined.

Lemma sample_synced n : synced (sample_keyboard n).
Proof. by split_and!. Defined.

(** A tap of a layer-tap key types its key: the host sees a space, then not. *)
Example sample_tap_types_space :
  omap (fun o => match o with SendKeyboard r => Some (keys r) | _ => None end)
    (sent (host (foldl (fun k e => exec (action_exec action_tapping_process e) k) (sample_keyboard false)
       [sample_event 1 0 1000 true; sample_event 1 0 1100 false]))) =
  [[KC_SPACE; 0; 0; 0; 0; 0]; [0; 0; 0; 0; 0; 0]].
Proof. by vm_compute. Qed.

(** ** The theorems at this build *)

Lemma send_keyboard_report_spec_witness :
  shown (exec send_keyboard_report (exec (add_key KC_A) (sample_keyboard false))) =
  (0, [KC_A; 0; 0; 0; 0; 0]).
Proof.
  destruct (send_keyboard_report_spec (exec (add_key KC_A) (sample_keyboard false)))
    as (_ & E & _); [by split_and!|]. exact E.
Defined.

Lemma resend_is_silent_witness :
  let k := exec send_keyboard_report (exec (add_key KC_A) (sample_keyboard false)) in
  exec send_keyboard_report k = k.
Proof. apply (resend_is_silent (exec (add_key KC_A) (sample_keyboard false))); by vm_compute. Defined.

Lemma first_nkro_report_sent_twice_witness :
  let k := exec (add_key KC_A) (sample_keyboard true) in
  let r := stamp_nkro (next_nkro_report k) in
  sent (host (exec send_keyboard_report (exec send_keyboard_report k))) = [SendNkro r; SendNkro r].
Proof. apply (first_nkro_report_sent_twice (exec (add_key KC_A) (sample_keyboard true))); by vm_compute. Defined.

Lemma mod_config_agrees_witness :
  mod_config (sample_keymap_config false false) (packed_mod (KC_LEFT_CTRL + 5)) = 0x12.
Proof.
  rewrite (mod_config_agrees (sample_keymap_config false false) 5) by (done || lia). by vm_compute.
Defined.

Lemma no_gui_loses_right_hand_witness :
  right_handed (mod_config (sample_keymap_config false true) MOD_RCTL) = false /\
  right_handed MOD_RCTL = true.
Proof.
  split; [|done].
  apply (no_gui_loses_right_hand (sample_keymap_config false true) MOD_RCTL); [done|by vm_compute].
Defined.

Lemma layer_keycodes_witness :
  run_action (sample_record 0 0 0 true) (action_for_keycode (sample_keymap_config false false) (MO 2))
    true (sample_keyboard false) =
  on_press_release (sample_record 0 0 0 true) (layer_on 2) (layer_off 2) true (sample_keyboard false).
Proof.
  destruct (layer_keycodes (sample_keymap_config false false) 2 (sample_record 0 0 0 true) true
    (sample_keyboard false)) as (_ & _ & E & _); [lia|exact E].
Defined.

Lemma layer_tap_and_layer_mod_witness :
  run_action (sample_record 0 0 0 true)
    (action_for_keycode (sample_keymap_config false false) (LM 2 MOD_RCTL)) true (sample_keyboard false) =
  on_press_release (sample_record 0 0 0 true) (layer_on 3;; register_mods 0x10)
    (unregister_mods 0x10;; layer_off 3) true (sample_keyboard false).
Proof.
  destruct (layer_tap_and_layer_mod (sample_keymap_config false false) 2 KC_SPACE MOD_RCTL
    (sample_record 0 0 0 true) true (sample_keyboard false)) as (_ & E);
    [lia|by vm_compute|by vm_compute|by vm_compute|by vm_compute|exact E].
Defined.

Lemma sample_plain : plain KC_A.
Proof. split; [done|]. intros [? _]. discriminate. Defined.

(** A is down, and is registered again: the host sees it go up in between. *)
Definition a_is_down : keyboard := exec (register_code KC_A) (sample_keyboard false).

Lemma register_code_reaches_host_witness :
  let k' := exec (register_code KC_A) a_is_down in
  shown a_is_down = (0, [KC_A; 0; 0; 0; 0; 0]) /\ synced k' /\ snd (shown k') = [KC_A; 0; 0; 0; 0; 0] /\
  exists os, sent (host a_is_down) `prefix_of` os /\ os `prefix_of` sent (host k') /\
    shown (shown_until os k') = (0, [0; 0; 0; 0; 0; 0]).
Proof.
  intros k'. assert (synced a_is_down) as Hs by (split_and!; by vm_compute).
  assert (reports_ok (rep a_is_down)) as Hr.
  { unfold a_is_down. apply (preserves_register_code keyboard_ok), sample_keyboard_ok. }
  destruct (@register_code_reaches_host sample_config sample_hooks eq_refl KC_A a_is_down sample_plain eq_refl
    Hs Hr) as (H1 & H2 & _ & _ & H3 & _).
  { intros _. left. vm_compute. right. left. }
  split; [by vm_compute|]. split; [exact H1|]. split; [exact H2|].
  destruct (H3 eq_refl) as (os & Ha & Hb & Hc & _). exists os.
  split; [exact Ha|]. split; [exact Hb|]. exact Hc.
Defined.

Lemma unregister_code_reaches_host_witness :
  synced (exec (unregister_code KC_A) (sample_keyboard false)).
Proof.
  apply (@unregister_code_reaches_host sample_config eq_refl KC_A (sample_keyboard false) sample_plain
    (sample_synced false) (ok_reports _ (sample_keyboard_ok false))).
Defined.

Lemma keyboard_invariant_witness :
  keyboard_ok (foldl (fun k e => exec (action_exec action_tapping_process e) k) (sample_keyboard true)
    [sample_event 0 1 1000 true; sample_event 0 1 1010 false]).
Proof.
  pose proof (sample_hooks_keep keyboard_ok) as Hk.
  apply (keyboard_invariant _ (sample_keyboard true)), sample_keyboard_ok.
Defined.

(** The layers: a keyboard with layer 1 on. *)

Definition layer_1_on : keyboard := exec (layer_on 1) (sample_keyboard false).
Definition sample_pos (r c : Z) : keypos_t := {| row := r; col := c |}.

Lemma layer_1_on_ok : keyboard_ok layer_1_on.
Proof. apply (preserves_layer_on keyboard_ok), sample_keyboard_ok. Defined.

Lemma sample_cached r c : 0 <= r < 2 -> 0 <= c < 4 -> cached_key (sample_pos r c).
Proof.
  intros Hr Hc. split; [cbn; lia|]. split; [cbn; lia|]. left. unfold in_matrix, sample_pos.
  change MATRIX_ROWS with 2. change MATRIX_COLS with 4. cbn [row col].
  apply andb_true_intro; split; apply Z.ltb_lt; lia.
Defined.

Lemma topmost_layer_wins_witness :
  eval (layer_switch_get_action (sample_pos 0 2)) layer_1_on = key_action layer_1_on (sample_pos 0 2) 1.
Proof. destruct (topmost_layer_wins (sample_pos 0 2) layer_1_on) as (_ & _ & _ & E). exact E. Defined.

Lemma layer_operations_witness :
  layer_state (layers (exec layer_clear layer_1_on)) = 0.
Proof.
  destruct (layer_operations layer_1_on 2) as (_ & E & _);
    [done|exact (ok_layers _ layer_1_on_ok)|change LAYER_STATE_BITS with 16; lia|exact E].
Defined.

(** A key goes down on layer 1, the layer goes off, the key goes up. *)
Lemma release_uses_press_layer_witness :
  let q := sample_pos 0 2 in
  let k := exec (store_or_get_action true q) layer_1_on in
  eval (store_or_get_action false q) (exec (layer_off 1) k) =
  action_for_key 1 q (keymap_config layer_1_on).
Proof.
  intros q k. destruct (ok_layers _ layer_1_on_ok) as (_ & _ & _ & Hc & He).
  destruct (release_uses_press_layer q layer_1_on (exec (layer_off 1) k)) as [_ E];
    [done|done|by split|by apply sample_cached| |exact E].
  eapply star_step; [|apply star_refl]. by apply other_state.
Defined.

Lemma tri_layer_state_witness : Z.testbit (update_tri_layer_state 6 1 2 3) 3 = true.
Proof.
  rewrite (tri_layer_state 6 1 2 3 3); change LAYER_STATE_BITS with 16; try lia; [done|].
  split; [lia|by vm_compute].
Defined.

(** ** One-shot layers *)

Lemma sample_oneshot_ready : oneshot_ready (sample_keyboard false).
Proof.
  split; [done|]. split; [exact (ok_layers _ (sample_keyboard_ok false))|by vm_compute].
Defined.

Lemma oneshot_layer_refines_witness :
  let k := exec (oneshot_step (KeyDown 2)) (sample_keyboard false) in
  oneshot_ready k /\ layer_state (layers k) = 4.
Proof.
  destruct (oneshot_layer_refines (KeyDown 2) (sample_keyboard false)) as (H1 & _ & H2);
    [done|exact sample_oneshot_ready|intros l [= <-]; change LAYER_STATE_BITS with 16; lia|].
  split; [exact H1|exact H2].
Defined.

Lemma oneshot_release_on_layer_0_witness :
  let k := exec (oneshot_step KeyUp) (exec (oneshot_step (KeyDown 2)) (sample_keyboard false)) in
  eval get_oneshot_layer k = 2 /\
  eval get_oneshot_layer (exec (start_release_oneshot (sample_event 0 0 1100 true) (KC_A) 0) k) = 0.
Proof.
  intros k.
  assert (oneshot_ready k) as Hk.
  { split; [by vm_compute|]. split; [|by vm_compute]. apply (ok_layers k).
    apply (preserves_clear_oneshot_layer_state keyboard_ok).
    apply (preserves_set_oneshot_layer keyboard_ok), sample_keyboard_ok. }
  split; [by vm_compute|].
  destruct (oneshot_release_on_layer_0 (sample_event 0 0 1100 true) KC_A 0 k) as [_ E];
    [done|exact Hk|by vm_compute|exact E].
Defined.

Lemma process_record_fuel_witness :
  process_record 7 (sample_record 0 0 1000 true) (sample_keyboard false) =
  process_record 2 (sample_record 0 0 1000 true) (sample_keyboard false).
Proof.
  apply (process_record_fuel 5 (sample_record 0 0 1000 true) (sample_keyboard false)).
  intros r k Hr. exact Hr.
Defined.

(** ** Hands and the waiting buffer *)

(** The hands are swapped back while the key is down. *)
Lemma hand_swap_release_witness :
  let e := sample_event 0 1 1000 true in
  let k := (sample_keyboard false) <| hands := hands_reset <| swap_hands := true |> |> in
  let k1 := exec (process_hand_swap e) k in
  let k' := k1 <| hands := (hands k1) <| swap_hands := false |> |> in
  key (eval (process_hand_swap (e <| pressed := false |> <| time := 1200 |>)) k') = sample_pos 0 2.
Proof.
  intros e k k1 k'.
  rewrite (hand_swap_release e 1200 k k'); [by vm_compute| |done| |].
  - split; [done|]. change MATRIX_ROWS with 2. change MATRIX_COLS with 4. cbn. lia.
  - exact (hands_reset_ok).
  - eapply star_step; [|apply star_refl]. by apply hands_state_change.
Defined.

Lemma oneshot_swaphands_machine_witness :
  swap_machine (exec set_oneshot_swaphands (sample_keyboard false)) = (SHO_PRESSED, true).
Proof.
  destruct (oneshot_swaphands_machine (sample_keyboard false)) as [E _]; [done|exact E].
Defined.

Lemma waiting_buffer_is_queue_witness :
  queue (tapping (exec (waiting_buffer_enq (sample_record 0 1 1000 true)) (sample_keyboard false))) =
  [sample_record 0 1 1000 true].
Proof.
  destruct (waiting_buffer_is_queue (sample_record 0 1 1000 true) (sample_keyboard false))
    as (_ & E & _); [exact (ok_tapping _ (sample_keyboard_ok false))|done|].
  destruct (decide _) as [|Hn] in E; [exact (proj2 E)|]. exfalso. apply Hn. by vm_compute; lia.
Defined.

(** ** Tap or hold at a concrete build

    The layer-tap key of the sample build, with letters typed after it. *)

#[local] Existing Instance sample_config.
#[local] Existing Instance sample_hooks.

#[local] Instance sample_hooks_private : HooksPrivate.
Proof. by split. Defined.

Definition layer_tap (t : Z) (down : bool) : keyrecord_t := sample_record 1 0 t down.
Definition letter (c t : Z) (down : bool) : keyrecord_t := sample_record 0 c t down.
Definition tick (t : Z) : keyrecord_t := {|
  event := {| key := {| row := 0; col := 0 |}; time := t; type := TICK_EVENT; pressed := false |};
  tap := {| interrupted := false; count := 0 |}; keycode := 0;
|}.
Definition board : keyboard := sample_keyboard false.

Lemma layer_tap_starts : starts (layer_tap 1000 true) board.
Proof.
  split; [|by vm_compute..]. exists record_0. split; [|by vm_compute].
  split; [apply (sample_keyboard_ok false)|by vm_compute..].
Defined.

Lemma letters_wait :
  Forall (waits (layer_tap 1000 true) (hint (layer_tap 1000 true) board)) [letter 0 1050 true; letter 1 1100 true].
Proof. repeat constructor; intros []; by vm_compute. Defined.

(** The letters, held over past the term, become the digits of layer 1. *)
Example hold_types_digits :
  omap (fun o => match o with SendKeyboard r => Some (keys r) | _ => None end)
    (sent (host (events [layer_tap 1000 true; letter 0 1050 true; letter 1 1100 true; tick 1300] board))) =
  [[KC_1; 0; 0; 0; 0; 0]; [KC_1; KC_1 + 1; 0; 0; 0; 0]].
Proof. by vm_compute. Qed.

Lemma key_is_held_after_term_witness :
  exists t, events (layer_tap 1000 true :: [letter 0 1050 true; letter 1 1100 true] ++ [tick 1300]) board =
    with_tapping t (handle_all (held (layer_tap 1000 true) [letter 0 1050 true; letter 1 1100 true]
      :: [letter 0 1050 true; letter 1 1100 true] ++ arrived (tick 1300)) (hint (layer_tap 1000 true) board)) /\
    view t record_0 [].
Proof.
  apply key_is_held_after_term; [done|by split|exact layer_tap_starts|exact letters_wait|cbn; lia| |].
  - intros []; by vm_compute.
  - by vm_compute.
Defined.

Lemma nested_tap_holds_witness :
  exists t, events (layer_tap 1000 true :: [letter 0 1050 true; letter 1 1100 true] ++ [letter 0 1150 false]) board =
    with_tapping t (handle_all (held (layer_tap 1000 true) [letter 0 1050 true; letter 1 1100 true]
      :: [letter 0 1050 true; letter 1 1100 true] ++ [letter 0 1150 false]) (hint (layer_tap 1000 true) board)) /\
    view t record_0 [].
Proof.
  apply nested_tap_holds; [done|by split|by vm_compute|exact layer_tap_starts|exact letters_wait|cbn; lia|..].
  - intros []; by vm_compute.
  - split_and!; [done|done|]. exists (letter 0 1050 true). split; [by left|done].
  - by vm_compute.
  - by vm_compute.
Defined.

Lemma key_is_tapped_witness :
  let tk := tapped (held (layer_tap 1000 true) [letter 0 1050 true; letter 1 1100 true]) in
  exists t tk', events (layer_tap 1000 true :: [letter 0 1050 true; letter 1 1100 true] ++ [layer_tap 1150 false]) board =
    with_tapping t (handle_all (tk :: [letter 0 1050 true; letter 1 1100 true]
      ++ [(layer_tap 1150 false) <| tap := tap tk |>]) (hint (layer_tap 1000 true) board)) /\ view t tk' [].
Proof.
  apply key_is_tapped; [done|by split|exact layer_tap_starts|exact letters_wait|cbn; lia|..].
  - intros []; by vm_compute.
  - done.
  - done.
  - by vm_compute.
  - by vm_compute.
  - by vm_compute.
Defined.
