(* ===== verification/Debounce.v ===== *)
(** * Debouncing the matrix (quantum/debounce/*.c)

    The seven algorithms a keyboard may choose from.  [debounce(raw, cooked,
    num_rows, changed)] is a function of the raw rows, [changed] and the time
    read, on a state that holds the static variables of the file and the array
    [cooked]; the variable [cooked_changed] of that state is the value
    returned.  A row is a [matrix_row_t]: bit [c] is the key in column [c]. *)

From S2P Require Import Prelude.
From S2P Require Import State.

Class DebounceConfig := {
  DEBOUNCE_MS : Z;           (* the macro DEBOUNCE as the keyboard defines it *)
  FAST_TIMER_T_SIZE : Z;
}.

(** [m[r]] *)
Definition row_at (m : list Z) (r : nat) : Z := default 0 (m !! r).

(** The two nested loops over rows and columns; [debounce_pointer++] makes the
    counter of row [r] and column [c] number [r * MATRIX_COLS + c]. *)
Definition cells (rows cols : nat) : list (nat * nat) :=
  seq 0 rows ≫= fun r => (fun c => (r, c)) <$> seq 0 cols.

(** The static variables of the per-key and per-row algorithms and the array
    [cooked]; [C] is [debounce_counter_t].  sym_defer_pk.c has no
    [matrix_need_update] and leaves it alone. *)
Record counters_state (C : Type) := {
  debounce_counters : list C;
  last_time : Z;
  counters_need_update : bool;
  matrix_need_update : bool;
  cooked_changed : bool;
  cooked : list Z;
}.
Arguments debounce_counters {C}.
Arguments last_time {C}.
Arguments counters_need_update {C}.
Arguments matrix_need_update {C}.
Arguments cooked_changed {C}.
Arguments cooked {C}.

Section setters.
Context {C : Type}.
Implicit Types s : counters_state C.

Definition set_counter (i : nat) (n : C) s : counters_state C :=
  {| debounce_counters := <[i := n]> (debounce_counters s); last_time := last_time s;
     counters_need_update := counters_need_update s; matrix_need_update := matrix_need_update s;
     cooked_changed := cooked_changed s; cooked := cooked s |}.

Definition put_cooked (r : nat) (v : Z) s : counters_state C :=
  {| debounce_counters := debounce_counters s; last_time := last_time s;
     counters_need_update := counters_need_update s; matrix_need_update := matrix_need_update s;
     cooked_changed := cooked_changed s; cooked := <[r := v]> (cooked s) |}.

Definition set_last_time (t : Z) s : counters_state C :=
  {| debounce_counters := debounce_counters s; last_time := t;
     counters_need_update := counters_need_update s; matrix_need_update := matrix_need_update s;
     cooked_changed := cooked_changed s; cooked := cooked s |}.

(** [counters_need_update], [matrix_need_update], [cooked_changed] *)
Definition set_flags (need matrix changed : bool) s : counters_state C :=
  {| debounce_counters := debounce_counters s; last_time := last_time s;
     counters_need_update := need; matrix_need_update := matrix; cooked_changed := changed;
     cooked := cooked s |}.

Definition need_counters s : counters_state C :=
  set_flags true (matrix_need_update s) (cooked_changed s) s.
Definition need_matrix s : counters_state C :=
  set_flags (counters_need_update s) true (cooked_changed s) s.
Definition clear_need_matrix s : counters_state C :=
  set_flags (counters_need_update s) false (cooked_changed s) s.
Definition clear_need_counters s : counters_state C :=
  set_flags false (matrix_need_update s) (cooked_changed s) s.
Definition clear_need_both s : counters_state C := set_flags false false (cooked_changed s) s.
Definition clear_changed s : counters_state C :=
  set_flags (counters_need_update s) (matrix_need_update s) false s.
Definition mark_changed s : counters_state C :=
  set_flags (counters_need_update s) (matrix_need_update s) true s.

(** [cooked_changed |= cooked[r] ^ v; cooked[r] = v;] *)
Definition set_cooked (r : nat) (v : Z) s : counters_state C :=
  put_cooked r v (set_flags (counters_need_update s) (matrix_need_update s)
    (cooked_changed s || nz (Z.lxor (row_at (cooked s) r) v)) s).
End setters.

Section debounce.
Context `{!Config} `{!DebounceConfig}.

(** [#if DEBOUNCE > UINT8_MAX] *)
Definition DEBOUNCE : Z := if 255 <? DEBOUNCE_MS then 255 else DEBOUNCE_MS.
Definition COLS : nat := Z.to_nat MATRIX_COLS.
Definition counter_index (rc : nat * nat) : nat := rc.1 * COLS + rc.2.
Definition col_mask (rc : nat * nat) : Z := bit (Z.of_nat rc.2).

Definition TIMER_DIFF_FAST (a b : Z) : Z :=
  if FAST_TIMER_T_SIZE <? 32 then u16 (a - b) else u32 (a - b).

(** [(cooked[row] & ~mask) | (raw[row] & mask)] *)
Definition transfer_bit (rc : nat * nat) (raw : list Z) {C} (s : counters_state C) : Z :=
  Z.lor (clear_bits (row_at (cooked s) rc.1) (col_mask rc)) (Z.land (row_at raw rc.1) (col_mask rc)).

(** ** none.c *)

Definition none_debounce (raw : list Z) (changed : bool) (cooked : list Z) : bool * list Z :=
  if changed && negb (bool_decide (cooked = raw)) then (true, raw) else (false, cooked).

(** ** sym_defer_g.c: one timer for the whole matrix *)

Record global_state := {
  debouncing : bool;
  debouncing_time : Z;
  g_cooked : list Z;
}.

Definition sym_defer_g_debounce (raw : list Z) (changed : bool) (now : Z) (s : global_state)
  : bool * global_state :=
  if changed then (false, {| debouncing := true; debouncing_time := now; g_cooked := g_cooked s |})
  else if debouncing s && (DEBOUNCE <=? TIMER_DIFF_FAST now (debouncing_time s)) then
    let stop c := {| debouncing := false; debouncing_time := debouncing_time s; g_cooked := c |} in
    if bool_decide (g_cooked s = raw) then (false, stop (g_cooked s)) else (true, stop raw)
  else (false, s).

(** ** sym_defer_pr.c: a countdown per row, on the 16-bit timer *)

Record countdown_state := {
  pr_last_time : Z;
  countdowns : list Z;
  last_raw : list Z;
  pr_cooked : list Z;
  pr_changed : bool;
}.

(** The body of the loop for one row; here DEBOUNCE is not limited, but stored
    in a byte. *)
Definition sym_defer_pr_row (raw : list Z) (elapsed : Z) (s : countdown_state) (r : nat)
  : countdown_state :=
  let raw_row := row_at raw r in
  let countdown := row_at (countdowns s) r in
  if negb (raw_row =? row_at (last_raw s) r) then
    {| pr_last_time := pr_last_time s; countdowns := <[r := u8 DEBOUNCE_MS]> (countdowns s);
       last_raw := <[r := raw_row]> (last_raw s); pr_cooked := pr_cooked s;
       pr_changed := pr_changed s |}
  else if elapsed <? countdown then
    {| pr_last_time := pr_last_time s; countdowns := <[r := u8 (countdown - elapsed)]> (countdowns s);
       last_raw := last_raw s; pr_cooked := pr_cooked s; pr_changed := pr_changed s |}
  else if nz countdown then
    {| pr_last_time := pr_last_time s; countdowns := <[r := 0]> (countdowns s);
       last_raw := last_raw s; pr_cooked := <[r := raw_row]> (pr_cooked s);
       pr_changed := pr_changed s || nz (Z.lxor (row_at (pr_cooked s) r) raw_row) |}
  else s.

Definition sym_defer_pr_debounce (raw : list Z) (num_rows : nat) (now : Z) (s : countdown_state)
  : countdown_state :=
  let elapsed16 := TIMER_DIFF_16 now (pr_last_time s) in
  let elapsed := if 255 <? elapsed16 then 255 else elapsed16 in
  foldl (sym_defer_pr_row raw elapsed)
    {| pr_last_time := now; countdowns := countdowns s; last_raw := last_raw s;
       pr_cooked := pr_cooked s; pr_changed := false |} (seq 0 num_rows).

(** [debounce_init]; the matrix is released. *)
Definition sym_defer_pr_init (num_rows : nat) (now : Z) : countdown_state := {|
  pr_last_time := now; countdowns := replicate num_rows 0; last_raw := replicate num_rows 0;
  pr_cooked := replicate num_rows 0; pr_changed := false;
|}.

(** ** The common part of the algorithms with counters *)

(** [if (counters_need_update) { ... }]: [update] is the function of the file
    that counts down. *)
Definition count_down {C} (update : Z -> counters_state C -> counters_state C) (now : Z)
    (s : counters_state C) : counters_state C :=
  if counters_need_update s then
    let elapsed := TIMER_DIFF_FAST now (last_time s) in
    let s := set_last_time now s in
    let elapsed := if 255 <? elapsed then 255 else elapsed in
    if 0 <? elapsed then update elapsed s else s
  else s.

(** The whole of [debounce] in the eager files; [transfer] is the function of
    the file that reads the raw rows. *)
Definition eager_call {C} (update : Z -> counters_state C -> counters_state C)
    (transfer : counters_state C -> counters_state C) (changed : bool) (now : Z)
    (s : counters_state C) : counters_state C :=
  let s := clear_changed s in
  let updated_last := counters_need_update s in
  let s := count_down update now s in
  if changed || matrix_need_update s then
    transfer (if updated_last then s else set_last_time now s)
  else s.

(** After [debounce_init], which sets the counters; the matrix is released. *)
Definition counters_init {C} (counters : list C) (num_rows : nat) : counters_state C := {|
  debounce_counters := counters; last_time := 0; counters_need_update := false;
  matrix_need_update := false; cooked_changed := false; cooked := replicate num_rows 0;
|}.

(** ** sym_defer_pk.c: a key changes when it has differed for DEBOUNCE ms *)

Definition counter_at (s : counters_state Z) (i : nat) : Z := row_at (debounce_counters s) i.

Definition sym_defer_pk_expire (raw : list Z) (elapsed : Z) (s : counters_state Z) (rc : nat * nat)
  : counters_state Z :=
  let n := counter_at s (counter_index rc) in
  if n =? 0 then s
  else if n <=? elapsed then
    let s := set_counter (counter_index rc) 0 s in
    set_cooked rc.1 (transfer_bit rc raw s) s
  else need_counters (set_counter (counter_index rc) (u8 (n - elapsed)) s).

Definition sym_defer_pk_update (raw : list Z) (num_rows : nat) (elapsed : Z) (s : counters_state Z)
  : counters_state Z :=
  foldl (sym_defer_pk_expire raw elapsed) (clear_need_counters s) (cells num_rows COLS).

Definition sym_defer_pk_start_col (delta : Z) (r : nat) (s : counters_state Z) (c : nat)
  : counters_state Z :=
  let i := counter_index (r, c) in
  if nz (Z.land delta (col_mask (r, c))) then
    if counter_at s i =? 0 then need_counters (set_counter i DEBOUNCE s) else s
  else set_counter i 0 s.

Definition sym_defer_pk_start (raw : list Z) (num_rows : nat) (s : counters_state Z)
  : counters_state Z :=
  foldl (fun s r =>
    let delta := Z.lxor (row_at raw r) (row_at (cooked s) r) in
    foldl (sym_defer_pk_start_col delta r) s (seq 0 COLS)) s (seq 0 num_rows).

Definition sym_defer_pk_debounce (raw : list Z) (num_rows : nat) (changed : bool) (now : Z)
    (s : counters_state Z) : counters_state Z :=
  let s := clear_changed s in
  let updated_last := counters_need_update s in
  let s := count_down (sym_defer_pk_update raw num_rows) now s in
  if changed then
    sym_defer_pk_start raw num_rows (if updated_last then s else set_last_time now s)
  else s.

Definition sym_defer_pk_init (num_rows : nat) : counters_state Z :=
  counters_init (replicate (num_rows * COLS) 0) num_rows.

(** ** sym_eager_pk.c: a key changes at once, then not for DEBOUNCE ms *)

(** Shared with sym_eager_pr.c: [i] is the number of a counter. *)
Definition eager_expire (elapsed : Z) (s : counters_state Z) (i : nat) : counters_state Z :=
  let n := counter_at s i in
  if n =? 0 then s
  else if n <=? elapsed then need_matrix (set_counter i 0 s)
  else need_counters (set_counter i (u8 (n - elapsed)) s).

Definition sym_eager_pk_update (num_rows : nat) (elapsed : Z) (s : counters_state Z)
  : counters_state Z :=
  foldl (fun s rc => eager_expire elapsed s (counter_index rc)) (clear_need_both s)
    (cells num_rows COLS).

(** [existing_row] is written back after the columns of its row. *)
Definition sym_eager_pk_transfer_col (delta : Z) (r : nat) (p : counters_state Z * Z) (c : nat)
  : counters_state Z * Z :=
  let i := counter_index (r, c) in
  if nz (Z.land delta (col_mask (r, c))) then
    if counter_at p.1 i =? 0 then
      (mark_changed (need_counters (set_counter i DEBOUNCE p.1)), Z.lxor p.2 (col_mask (r, c)))
    else p
  else p.

Definition sym_eager_pk_transfer_row (raw : list Z) (s : counters_state Z) (r : nat)
  : counters_state Z :=
  let delta := Z.lxor (row_at raw r) (row_at (cooked s) r) in
  let p := foldl (sym_eager_pk_transfer_col delta r) (s, row_at (cooked s) r) (seq 0 COLS) in
  put_cooked r p.2 p.1.

Definition sym_eager_pk_transfer (raw : list Z) (num_rows : nat) (s : counters_state Z)
  : counters_state Z :=
  foldl (sym_eager_pk_transfer_row raw) (clear_need_matrix s) (seq 0 num_rows).

Definition sym_eager_pk_debounce (raw : list Z) (num_rows : nat) (changed : bool) (now : Z)
  : counters_state Z -> counters_state Z :=
  eager_call (sym_eager_pk_update num_rows) (sym_eager_pk_transfer raw num_rows) changed now.

Definition sym_eager_pk_init (num_rows : nat) : counters_state Z :=
  counters_init (replicate (num_rows * COLS) 0) num_rows.

(** ** sym_eager_pr.c: the same by row *)

Definition sym_eager_pr_update (num_rows : nat) (elapsed : Z) (s : counters_state Z)
  : counters_state Z :=
  foldl (eager_expire elapsed) (clear_need_both s) (seq 0 num_rows).

Definition sym_eager_pr_transfer_row (raw : list Z) (s : counters_state Z) (r : nat)
  : counters_state Z :=
  if negb (row_at (cooked s) r =? row_at raw r) && (counter_at s r =? 0) then
    need_counters (set_cooked r (row_at raw r) (set_counter r DEBOUNCE s))
  else s.

Definition sym_eager_pr_transfer (raw : list Z) (num_rows : nat) (s : counters_state Z)
  : counters_state Z :=
  foldl (sym_eager_pr_transfer_row raw) (clear_need_matrix s) (seq 0 num_rows).

Definition sym_eager_pr_debounce (raw : list Z) (num_rows : nat) (changed : bool) (now : Z)
  : counters_state Z -> counters_state Z :=
  eager_call (sym_eager_pr_update num_rows) (sym_eager_pr_transfer raw num_rows) changed now.

Definition sym_eager_pr_init (num_rows : nat) : counters_state Z :=
  counters_init (replicate num_rows 0) num_rows.

(** ** asym_eager_defer_pk.c: presses at once, releases deferred *)

(** [struct { bool pressed : 1; uint8_t time : 7; }] *)
Record asym_counter := { a_pressed : bool; a_time : Z }.

(** [#if DEBOUNCE > 127] *)
Definition ASYM_DEBOUNCE : Z := if 127 <? DEBOUNCE_MS then 127 else DEBOUNCE_MS.

Definition asym_at (s : counters_state asym_counter) (i : nat) : asym_counter :=
  default {| a_pressed := false; a_time := 0 |} (debounce_counters s !! i).

Definition asym_expire (raw : list Z) (elapsed : Z) (s : counters_state asym_counter)
    (rc : nat * nat) : counters_state asym_counter :=
  let d := asym_at s (counter_index rc) in
  if a_time d =? 0 then s
  else if a_time d <=? elapsed then
    let s := set_counter (counter_index rc) {| a_pressed := a_pressed d; a_time := 0 |} s in
    if a_pressed d then need_matrix s
    else set_cooked rc.1 (transfer_bit rc raw s) s
  else
    need_counters (set_counter (counter_index rc)
      {| a_pressed := a_pressed d; a_time := wrap 7 (a_time d - elapsed) |} s).

Definition asym_update (raw : list Z) (num_rows : nat) (elapsed : Z)
    (s : counters_state asym_counter) : counters_state asym_counter :=
  foldl (asym_expire raw elapsed) (clear_need_both s) (cells num_rows COLS).

Definition asym_transfer_col (raw : list Z) (delta : Z) (r : nat)
    (s : counters_state asym_counter) (c : nat) : counters_state asym_counter :=
  let i := counter_index (r, c) in
  let d := asym_at s i in
  if nz (Z.land delta (col_mask (r, c))) then
    if a_time d =? 0 then
      let down := nz (Z.land (row_at raw r) (col_mask (r, c))) in
      let s := need_counters (set_counter i {| a_pressed := down; a_time := ASYM_DEBOUNCE |} s) in
      if down then mark_changed (put_cooked r (Z.lxor (row_at (cooked s) r) (col_mask (r, c))) s)
      else s
    else s
  else if negb (a_time d =? 0) then
    if negb (a_pressed d) then set_counter i {| a_pressed := a_pressed d; a_time := 0 |} s else s
  else s.

Definition asym_transfer (raw : list Z) (num_rows : nat) (s : counters_state asym_counter)
  : counters_state asym_counter :=
  foldl (fun s r =>
    let delta := Z.lxor (row_at raw r) (row_at (cooked s) r) in
    foldl (asym_transfer_col raw delta r) s (seq 0 COLS)) (clear_need_matrix s) (seq 0 num_rows).

Definition asym_eager_defer_pk_debounce (raw : list Z) (num_rows : nat) (changed : bool) (now : Z)
  : counters_state asym_counter -> counters_state asym_counter :=
  eager_call (asym_update raw num_rows) (asym_transfer raw num_rows) changed now.

(** [debounce_init] leaves the bit [pressed] as [malloc] gave it: [garbage]. *)
Definition asym_init (garbage : list bool) (num_rows : nat) : counters_state asym_counter :=
  counters_init ((fun p => {| a_pressed := p; a_time := 0 |}) <$> garbage) num_rows.
End debounce.
