(* ===== verification/DebounceLoops.v ===== *)
(** * The loops of the debounce algorithms, key by key

    Each pass over the matrix acts on every key on its own: what a key's
    counter and its bit of [cooked] become depends only on what they were and
    on the key's raw bit. *)

From S2P Require Import Prelude.
From S2P Require Import State.
From S2P Require Import Debounce.

(** ** Loops that act on each index separately *)

Section local_fold.
Context {S V I : Type} `{!EqDecision I}.
Variables (dom : I -> Prop) (wf : S -> Prop) (view : I -> S -> V).
Variables (step : S -> I -> S) (f : I -> V -> V).

Record local : Prop := {
  local_wf s i : wf s -> dom i -> wf (step s i);
  local_own s i : wf s -> dom i -> view i (step s i) = f i (view i s);
  local_other s i j : wf s -> dom i -> dom j -> j <> i -> view j (step s i) = view j s;
}.

Hypothesis Hlocal : local.

Lemma fold_local l s :
  NoDup l -> Forall dom l -> wf s ->
  wf (foldl step s l) /\
  forall j, dom j -> view j (foldl step s l) = if decide (j ∈ l) then f j (view j s) else view j s.
Proof.
  intros Hnd Hl. revert s. induction l as [|i l IH]; intros s Hs; cbn.
  { split; [done|]. intros j _. case_decide as Hj; [by apply elem_of_nil in Hj|done]. }
  apply NoDup_cons in Hnd as [Hi Hnd]. apply Forall_cons in Hl as [Hdi Hl].
  destruct (IH Hnd Hl (step s i)) as [Hwf Hview]; [by apply Hlocal|]. split; [done|].
  intros j Hj. rewrite Hview by done. destruct (decide (j = i)) as [->|Hne].
  - rewrite decide_False, (local_own Hlocal) by done. rewrite decide_True by left. done.
  - rewrite (local_other Hlocal) by done. destruct (decide (j ∈ l)), (decide (j ∈ i :: l)); set_solver.
Qed.

(** A flag that the body may raise. *)
Lemma fold_flag (flag : S -> bool) (g : I -> V -> bool) l s :
  (forall s i, wf s -> dom i -> flag (step s i) = flag s || g i (view i s)) ->
  NoDup l -> Forall dom l -> wf s ->
  flag (foldl step s l) = flag s || existsb (fun i => g i (view i s)) l.
Proof.
  intros Hflag Hnd Hl. revert s. induction l as [|i l IH]; intros s Hs; cbn.
  { by rewrite orb_false_r. }
  apply NoDup_cons in Hnd as [Hi Hnd]. apply Forall_cons in Hl as [Hdi Hl].
  rewrite IH, Hflag by (done || by apply Hlocal). rewrite <-orb_assoc. f_equal. f_equal.
  rewrite Forall_forall in Hl. clear IH Hnd.
  assert (forall l', (forall j, j ∈ l' -> j ∈ l) ->
    existsb (fun j => g j (view j (step s i))) l' = existsb (fun j => g j (view j s)) l') as Hex.
  { induction l' as [|j l' IH]; intros Hsub; [done|]. cbn. rewrite IH by set_solver.
    rewrite (local_other Hlocal); set_solver. }
  by apply Hex.
Qed.
End local_fold.

Lemma fold_frame {S I T} (step : S -> I -> S) (h : S -> T) l s :
  (forall s i, h (step s i) = h s) -> h (foldl step s l) = h s.
Proof. intros Hh. revert s. induction l as [|i l IH]; intros s; [done|]. cbn. by rewrite IH. Qed.

(** ** The cells of the matrix *)

Lemma elem_of_cells rows cols rc : rc ∈ cells rows cols <-> (rc.1 < rows)%nat /\ (rc.2 < cols)%nat.
Proof.
  destruct rc as [r c]. unfold cells. rewrite list_elem_of_bind. setoid_rewrite list_elem_of_fmap. cbn.
  split.
  - intros (r' & (c' & [= -> ->] & Hc) & Hr). apply elem_of_seq in Hc, Hr. lia.
  - intros [Hr Hc]. exists r. split; [exists c; split; [done|]|]; apply elem_of_seq; lia.
Qed.

Lemma NoDup_cells rows cols : NoDup (cells rows cols).
Proof.
  unfold cells. apply NoDup_bind.
  - intros r r' y Hr Hr' (c & -> & _)%list_elem_of_fmap (c' & [= -> ->] & _)%list_elem_of_fmap. done.
  - intros r _. apply NoDup_fmap_2; [by intros ?? [= ->]|apply NoDup_seq].
  - apply NoDup_seq.
Qed.

Lemma foldl_fmap {A B S} (f : S -> B -> S) (g : A -> B) l s :
  foldl f s (g <$> l) = foldl (fun s a => f s (g a)) s l.
Proof. revert s. induction l as [|a l IH]; intros s; [done|]. cbn. apply IH. Qed.

(** Two loops whose bodies agree where the invariant holds. *)
Lemma foldl_cong {A S} (P : S -> Prop) (f g : S -> A -> S) l s :
  (forall s a, a ∈ l -> P s -> f s a = g s a /\ P (g s a)) -> P s ->
  foldl f s l = foldl g s l /\ P (foldl g s l).
Proof.
  revert s. induction l as [|a l IH]; intros s H Hs; [done|]. cbn.
  destruct (H s a) as [-> Hg]; [by left|done|]. apply IH; [|done]. intros s' b Hb. apply H. by right.
Qed.

(** The nested loops, when each row's loop is the loop of [f] over its cells. *)
Lemma foldl_cells {S} (P : S -> Prop) (row : S -> nat -> S) (f : S -> nat * nat -> S) rows cols s :
  (forall s r, (r < rows)%nat -> P s ->
     row s r = foldl (fun s c => f s (r, c)) s (seq 0 cols) /\
     P (foldl (fun s c => f s (r, c)) s (seq 0 cols))) ->
  P s -> foldl row s (seq 0 rows) = foldl f s (cells rows cols).
Proof.
  intros Hrow Hs. unfold cells.
  assert (forall l s, foldl f s (l ≫= fun r => (fun c => (r, c)) <$> seq 0 cols) =
    foldl (fun s r => foldl (fun s c => f s (r, c)) s (seq 0 cols)) s l) as ->.
  { intros l. induction l as [|r l IH]; intros s'; [done|]. cbn. rewrite foldl_app, foldl_fmap. apply IH. }
  apply (foldl_cong P); [|done]. intros s' r Hr%elem_of_seq Hs'. apply Hrow; [lia|done].
Qed.

(** ** One cell *)

Section cell.
Context {C : Type}.
Implicit Types s : counters_state C.

Lemma row_at_put m r v r' :
  (r < length m)%nat -> row_at (<[r := v]> m) r' = if decide (r' = r) then v else row_at m r'.
Proof.
  intros Hr. unfold row_at. case_decide as E; [subst; by rewrite list_lookup_insert_eq|].
  by rewrite list_lookup_insert_ne by done.
Qed.

Lemma lookup_put {A} (l : list A) i v j d :
  (i < length l)%nat -> default d (<[i := v]> l !! j) = if decide (j = i) then v else default d (l !! j).
Proof.
  intros Hi. case_decide as E; [subst; by rewrite list_lookup_insert_eq|].
  by rewrite list_lookup_insert_ne by done.
Qed.

(** The key's bit of a row. *)
Definition key_bit (m : list Z) (rc : nat * nat) : bool := Z.testbit (row_at m rc.1) (Z.of_nat rc.2).

Lemma nz_land_mask x rc : nz (Z.land x (col_mask rc)) = Z.testbit x (Z.of_nat rc.2).
Proof. apply nz_land_bit. lia. Qed.

Lemma key_bit_put m r v rc :
  (r < length m)%nat ->
  key_bit (<[r := v]> m) rc = if decide (rc.1 = r) then Z.testbit v (Z.of_nat rc.2) else key_bit m rc.
Proof. intros Hr. unfold key_bit. rewrite row_at_put by done. by case_decide. Qed.

Lemma testbit_transfer rc raw s c :
  0 <= c ->
  Z.testbit (transfer_bit rc raw s) c =
    if decide (c = Z.of_nat rc.2) then key_bit raw rc else Z.testbit (row_at (cooked s) rc.1) c.
Proof.
  intros Hc. unfold transfer_bit, col_mask, key_bit.
  rewrite Z.lor_spec, testbit_clear, Z.land_spec, testbit_bit by lia.
  case_decide as E; [subst|]; [rewrite bool_decide_true|rewrite bool_decide_false]; try done.
  - by rewrite !andb_false_r, !andb_true_r.
  - by rewrite !andb_false_r, !andb_true_r, orb_false_r.
Qed.

Lemma testbit_flip rc x c :
  0 <= c ->
  Z.testbit (Z.lxor x (col_mask rc)) c = xorb (Z.testbit x c) (bool_decide (c = Z.of_nat rc.2)).
Proof. intros Hc. unfold col_mask. rewrite Z.lxor_spec, testbit_bit by lia. done. Qed.

(** Whether the row changes when its bit is transferred. *)
Lemma transfer_changes rc raw s :
  nz (Z.lxor (row_at (cooked s) rc.1) (transfer_bit rc raw s)) =
  xorb (key_bit (cooked s) rc) (key_bit raw rc).
Proof.
  apply eq_true_iff_eq. rewrite nz_true. split.
  - intros Hne. destruct (xorb _ _) eqn:E; [done|]. exfalso. apply Hne, Z.bits_inj'. intros c Hc.
    rewrite Z.lxor_spec, testbit_transfer, Z.bits_0 by done. case_decide as Ec; [|by rewrite xorb_nilpotent].
    subst. exact E.
  - intros E H0. assert (Z.testbit (Z.lxor (row_at (cooked s) rc.1) (transfer_bit rc raw s)) (Z.of_nat rc.2) = true).
    { rewrite Z.lxor_spec, testbit_transfer by lia. by rewrite decide_True. }
    by rewrite H0, Z.bits_0 in *.
Qed.
End cell.

(** ** What one call of [debounce] does to one key

    For each algorithm with counters, the pass that counts down and the pass
    that reads the raw rows, seen from one key (or row), and the call they
    make up. *)

(** ** Reading a state after an assignment *)

Section fields.
Context {C : Type}.
Implicit Types s : counters_state C.

Lemma cooked_set_counter i v s : cooked (set_counter i v s) = cooked s.
Proof. done. Qed.
Lemma cooked_set_flags a b c s : cooked (set_flags a b c s) = cooked s.
Proof. done. Qed.
Lemma cooked_put_cooked r v s : cooked (put_cooked r v s) = <[r := v]> (cooked s).
Proof. done. Qed.
Lemma cooked_set_cooked r v s : cooked (set_cooked r v s) = <[r := v]> (cooked s).
Proof. done. Qed.
Lemma cooked_set_last_time t s : cooked (set_last_time t s) = cooked s.
Proof. done. Qed.
Lemma counters_set_counter i v s : debounce_counters (set_counter i v s) = <[i := v]> (debounce_counters s).
Proof. done. Qed.
Lemma counters_set_flags a b c s : debounce_counters (set_flags a b c s) = debounce_counters s.
Proof. done. Qed.
Lemma counters_put_cooked r v s : debounce_counters (put_cooked r v s) = debounce_counters s.
Proof. done. Qed.
Lemma counters_set_cooked r v s : debounce_counters (set_cooked r v s) = debounce_counters s.
Proof. done. Qed.
Lemma counters_set_last_time t s : debounce_counters (set_last_time t s) = debounce_counters s.
Proof. done. Qed.
End fields.

Create HintDb flags.
#[export] Hint Unfold need_counters need_matrix clear_need_matrix clear_need_both clear_need_counters
  clear_changed mark_changed : flags.
Create Rewrite HintDb fields.
#[export] Hint Rewrite @cooked_set_counter @cooked_set_flags @cooked_put_cooked @cooked_set_cooked
  @cooked_set_last_time @counters_set_counter @counters_set_flags @counters_put_cooked
  @counters_set_cooked @counters_set_last_time : fields.
Ltac fields := autounfold with flags; autorewrite with fields.

Section cells.
Context `{!Config} `{!DebounceConfig} (num_rows : nat).

Definition dom (rc : nat * nat) : Prop := (rc.1 < num_rows)%nat /\ (rc.2 < COLS)%nat.

Lemma counter_index_range rc : dom rc -> (counter_index rc < num_rows * COLS)%nat.
Proof. unfold dom, counter_index. nia. Qed.

Lemma counter_index_inj rc rc' : dom rc -> dom rc' -> counter_index rc = counter_index rc' -> rc = rc'.
Proof.
  destruct rc as [r c], rc' as [r' c']. unfold dom, counter_index. cbn. intros [? ?] [? ?] ?.
  assert (r = r') as <- by nia. f_equal. lia.
Qed.

(** [n] counters and the rows of the matrix. *)
Definition sized {C} (n : nat) (s : counters_state C) : Prop :=
  length (debounce_counters s) = n /\ length (cooked s) = num_rows.

(** [sized] after any assignments. *)
Ltac solve_sized :=
  unfold sized in *; fields; rewrite ?length_insert; tauto.

(** ** sym_defer_pk.c *)

Definition key_view (rc : nat * nat) (s : counters_state Z) : Z * bool :=
  (counter_at s (counter_index rc), key_bit (cooked s) rc).

Definition defer_expire1 (e : Z) (b : bool) (v : Z * bool) : Z * bool :=
  if v.1 =? 0 then v else if v.1 <=? e then (0, b) else (u8 (v.1 - e), v.2).
Definition expires (e : Z) (n : Z) : bool := negb (n =? 0) && (n <=? e).

Abbreviation key_sized := (sized (num_rows * COLS)).

(** The counter of one key after that of another is assigned. *)
Lemma counter_put {A} (l : list A) rc rc' v d :
  length l = (num_rows * COLS)%nat -> dom rc -> dom rc' ->
  default d (<[counter_index rc := v]> l !! counter_index rc') =
    if decide (rc' = rc) then v else default d (l !! counter_index rc').
Proof.
  intros Hl Hrc Hrc'. rewrite lookup_put by (rewrite Hl; by apply counter_index_range).
  destruct (decide (rc' = rc)) as [->|Hne]; [by rewrite decide_True|].
  rewrite decide_False; [done|]. intros E. by apply Hne, counter_index_inj.
Qed.

Lemma row_counter_put (l : list Z) rc rc' v :
  length l = (num_rows * COLS)%nat -> dom rc -> dom rc' ->
  row_at (<[counter_index rc := v]> l) (counter_index rc') =
    if decide (rc' = rc) then v else row_at l (counter_index rc').
Proof. apply counter_put. Qed.

Lemma key_bit_flip r c rc' (m : list Z) :
  length m = num_rows -> dom (r, c) ->
  key_bit (<[r := Z.lxor (row_at m r) (col_mask (r, c))]> m) rc' =
    if decide (rc' = (r, c)) then negb (key_bit m (r, c)) else key_bit m rc'.
Proof.
  intros Hl [Hr _]. cbn in Hr. rewrite key_bit_put by lia. rewrite testbit_flip by lia.
  destruct rc' as [r' c']. unfold key_bit. cbn. destruct (decide (r' = r)) as [->|]; cbn.
  - destruct (decide (c' = c)) as [->|].
    + rewrite bool_decide_true, decide_True by done. apply xorb_true_r.
    + rewrite bool_decide_false, decide_False by (congruence || lia). apply xorb_false_r.
  - by rewrite decide_False by congruence.
Qed.

Lemma key_put_transfer r c rc' raw {C} (s : counters_state C) :
  length (cooked s) = num_rows -> dom (r, c) ->
  key_bit (<[r := transfer_bit (r, c) raw s]> (cooked s)) rc' =
    if decide (rc' = (r, c)) then key_bit raw (r, c) else key_bit (cooked s) rc'.
Proof.
  intros Hl [Hr _]. cbn in Hr. rewrite key_bit_put by lia. rewrite testbit_transfer by lia.
  destruct rc' as [r' c']. cbn. destruct (decide (r' = r)) as [->|]; cbn.
  - destruct (decide (c' = c)) as [->|]; [by rewrite !decide_True by (done || lia)|].
    rewrite !decide_False by (congruence || lia). done.
  - by rewrite !decide_False by congruence.
Qed.

(** The view of one key after assignments to a key. *)
Ltac solve_view :=
  unfold counter_at, asym_at; fields; cbn [fst snd];
  repeat match goal with
  | |- context [transfer_bit ?rc ?raw (set_counter ?i ?v ?s)] =>
      change (transfer_bit rc raw (set_counter i v s)) with (transfer_bit rc raw s)
  end;
  rewrite ?row_counter_put, ?counter_put, ?key_put_transfer, ?key_bit_flip by done;
  first [rewrite decide_True by done | rewrite decide_False by done | idtac]; try done.

Lemma defer_expire_local raw e :
  local dom key_sized key_view (sym_defer_pk_expire raw e)
    (fun rc => defer_expire1 e (key_bit raw rc)).
Proof.
  split; unfold sym_defer_pk_expire, key_view, defer_expire1; cbn [fst snd].
  - intros s rc Hs Hrc. repeat case_match; solve_sized.
  - intros s [r c] [Hc Hk] Hrc. repeat case_match; [done|..]; f_equal; solve_view.
  - intros s [r c] rc' [Hc Hk] Hrc Hrc' Hne. repeat case_match; [done|..]; f_equal; solve_view.
Qed.

(** The loop over the columns of a row, when [delta] is computed before it:
    each column may as well compute it. *)
Definition delta_of {C} (raw : list Z) (s : counters_state C) (r : nat) : Z :=
  Z.lxor (row_at raw r) (row_at (cooked s) r).

Lemma delta_bit {C} raw (s : counters_state C) r c :
  nz (Z.land (delta_of raw s r) (col_mask (r, c))) =
    xorb (key_bit raw (r, c)) (key_bit (cooked s) (r, c)).
Proof. unfold delta_of. by rewrite nz_land_mask, Z.lxor_spec. Qed.

Definition defer_start_cell (raw : list Z) (s : counters_state Z) (rc : nat * nat) : counters_state Z :=
  sym_defer_pk_start_col (delta_of raw s rc.1) rc.1 s rc.2.

Definition defer_start1 (b : bool) (v : Z * bool) : Z * bool :=
  if xorb b v.2 then if v.1 =? 0 then (DEBOUNCE, v.2) else v else (0, v.2).

Lemma defer_start_local raw :
  local dom key_sized key_view (defer_start_cell raw) (fun rc => defer_start1 (key_bit raw rc)).
Proof.
  split; unfold defer_start_cell, sym_defer_pk_start_col, key_view, defer_start1;
    intros s [r c]; cbn [fst snd]; rewrite (delta_bit raw s r c).
  - intros Hs Hrc. repeat case_match; solve_sized.
  - intros [Hc Hk] Hrc. repeat case_match; [|done|]; f_equal; solve_view.
  - intros rc' [Hc Hk] Hrc Hrc' Hne. repeat case_match; [|done|]; f_equal; solve_view.
Qed.

Lemma defer_start_col_cooked delta r s c : cooked (sym_defer_pk_start_col delta r s c) = cooked s.
Proof. unfold sym_defer_pk_start_col. by repeat case_match. Qed.

Lemma defer_start_cells raw s :
  sym_defer_pk_start raw num_rows s = foldl (defer_start_cell raw) s (cells num_rows COLS).
Proof.
  apply (foldl_cells (fun _ => True)); [|done]. intros s1 r _ _. split; [|done].
  apply (foldl_cong (fun s' => cooked s' = cooked s1)); [|done]. intros s2 c _ E.
  unfold defer_start_cell, delta_of. cbn. rewrite E. split; [done|].
  by rewrite defer_start_col_cooked.
Qed.

(** ** sym_eager_pk.c and sym_eager_pr.c *)

Definition eager_expire1 {B} (e : Z) (v : Z * B) : Z * B :=
  if v.1 =? 0 then v else if v.1 <=? e then (0, v.2) else (u8 (v.1 - e), v.2).

Lemma eager_expire_local e :
  local dom key_sized key_view (fun s rc => eager_expire e s (counter_index rc))
    (fun _ => eager_expire1 e).
Proof.
  split; unfold eager_expire, key_view, eager_expire1; cbn [fst snd].
  - intros s rc Hs Hrc. repeat case_match; solve_sized.
  - intros s rc [Hc Hk] Hrc. repeat case_match; [done|..]; f_equal; solve_view.
  - intros s rc rc' [Hc Hk] Hrc Hrc' Hne. repeat case_match; [done|..]; f_equal; solve_view.
Qed.

Definition eager_differs {B} `{!EqDecision B} (b : B) (v : Z * B) : bool :=
  negb (bool_decide (v.2 = b)) && (v.1 =? 0).
Definition eager_transfer1 {B} `{!EqDecision B} (b : B) (v : Z * B) : Z * B :=
  if eager_differs b v then (DEBOUNCE, b) else v.

(** [existing_row] written back at once. *)
Definition eager_cell (raw : list Z) (s : counters_state Z) (rc : nat * nat) : counters_state Z :=
  let p := sym_eager_pk_transfer_col (delta_of raw s rc.1) rc.1 (s, row_at (cooked s) rc.1) rc.2 in
  put_cooked rc.1 p.2 p.1.

Lemma put_cooked_same r {C} (s : counters_state C) :
  (r < length (cooked s))%nat -> put_cooked r (row_at (cooked s) r) s = s.
Proof.
  intros Hr. destruct s as [? ? ? ? ? k]. cbn in *. unfold put_cooked; cbn. f_equal.
  unfold row_at. apply list_insert_id. destruct (k !! r) eqn:E; [done|].
  apply lookup_ge_None in E. lia.
Qed.

Lemma eager_cell_put raw delta r s existing c :
  (r < length (cooked s))%nat ->
  nz (Z.land delta (col_mask (r, c))) = xorb (key_bit raw (r, c)) (Z.testbit existing (Z.of_nat c)) ->
  let p := sym_eager_pk_transfer_col delta r (s, existing) c in
  eager_cell raw (put_cooked r existing s) (r, c) = put_cooked r p.2 p.1.
Proof.
  intros Hr Hd. unfold eager_cell, sym_eager_pk_transfer_col. cbn [fst snd].
  rewrite delta_bit, Hd. cbn [cooked put_cooked].
  rewrite key_bit_put, row_at_put by done. cbn [fst snd]. rewrite !decide_True by done.
  change (counter_at (put_cooked r existing s) ?i) with (counter_at s i).
  repeat case_match; cbn [fst snd]; unfold put_cooked; cbn; by rewrite list_insert_insert_eq.
Qed.

Lemma eager_row_cells raw r l s existing delta :
  (r < length (cooked s))%nat -> NoDup l ->
  (forall c, c ∈ l -> nz (Z.land delta (col_mask (r, c))) =
     xorb (key_bit raw (r, c)) (Z.testbit existing (Z.of_nat c))) ->
  let p := foldl (sym_eager_pk_transfer_col delta r) (s, existing) l in
  put_cooked r p.2 p.1 = foldl (fun s c => eager_cell raw s (r, c)) (put_cooked r existing s) l.
Proof.
  intros Hr Hnd. revert s existing Hr. induction l as [|c l IH]; intros s existing Hr Hd; [done|].
  apply NoDup_cons in Hnd as [Hc Hnd]. cbn [foldl].
  rewrite (eager_cell_put raw delta) by (done || apply Hd; by left).
  set (p := sym_eager_pk_transfer_col delta r (s, existing) c).
  pose proof (IH Hnd p.1 p.2) as IH'. rewrite <-surjective_pairing in IH'. apply IH'.
  - unfold p, sym_eager_pk_transfer_col. by repeat case_match.
  - intros c' Hc'. rewrite Hd by (by right). f_equal.
    unfold p, sym_eager_pk_transfer_col. cbn [fst snd]. repeat case_match; [|done|done]. cbn.
    rewrite testbit_flip by lia. rewrite bool_decide_false; [by rewrite xorb_false_r|].
    cbn. intros ?%Nat2Z.inj. by subst.
Qed.

Lemma eager_cell_sized n raw s rc : sized n s -> sized n (eager_cell raw s rc).
Proof.
  intros Hs. unfold eager_cell, sym_eager_pk_transfer_col. repeat case_match; cbn [fst snd]; solve_sized.
Qed.

Lemma fold_sized {C X} n (f : counters_state C -> X -> counters_state C) l s :
  (forall s x, sized n s -> sized n (f s x)) -> sized n s -> sized n (foldl f s l).
Proof. intros Hf. revert s. induction l as [|x l IH]; intros s Hs; [done|]. cbn. by apply IH, Hf. Qed.

Lemma eager_transfer_cells raw s :
  key_sized s ->
  sym_eager_pk_transfer raw num_rows s =
    foldl (eager_cell raw) (clear_need_matrix s) (cells num_rows COLS).
Proof.
  intros Hs. apply (foldl_cells key_sized); [|solve_sized]. intros s1 r Hr [Hc Hk].
  split; [|by apply fold_sized; [intros; by apply eager_cell_sized|]].
  unfold sym_eager_pk_transfer_row. cbv zeta.
  rewrite (eager_row_cells raw) by
    (rewrite ?Hk; done || apply NoDup_seq || (intros c _; apply delta_bit)).
  by rewrite put_cooked_same by (rewrite Hk; done).
Qed.

Lemma eager_cell_local raw :
  local dom key_sized key_view (eager_cell raw) (fun rc => eager_transfer1 (key_bit raw rc)).
Proof.
  assert (forall r c s, (counter_at s (counter_index (r, c)) =? 0) &&
    nz (Z.land (delta_of raw s r) (col_mask (r, c))) = eager_differs (key_bit raw (r, c)) (key_view (r, c) s)) as Hd.
  { intros r c s. rewrite delta_bit. unfold eager_differs, key_view. cbn [fst snd]. rewrite andb_comm.
    f_equal. by destruct (key_bit raw _), (key_bit _ _). }
  split.
  - intros s rc Hs _. by apply eager_cell_sized.
  - intros s [r c] [Hc Hk] Hrc. unfold eager_transfer1. rewrite <-Hd. unfold eager_cell, sym_eager_pk_transfer_col.
    cbn [fst snd].
    destruct (nz _) eqn:En, (_ =? 0); cbn [andb fst snd].
    2-4: by rewrite put_cooked_same by (rewrite Hk; apply Hrc).
    unfold key_view. f_equal; solve_view. rewrite delta_bit in En. by destruct (key_bit raw _), (key_bit _ _).
  - intros s [r c] rc' [Hc Hk] Hrc Hrc' Hne. unfold eager_cell, sym_eager_pk_transfer_col. cbn [fst snd].
    repeat case_match; cbn [fst snd].
    2-3: by rewrite put_cooked_same by (rewrite Hk; apply Hrc).
    unfold key_view. f_equal; solve_view.
Qed.

Definition row_dom (r : nat) : Prop := (r < num_rows)%nat.
Definition row_view (r : nat) (s : counters_state Z) : Z * Z :=
  (counter_at s r, row_at (cooked s) r).

Ltac solve_row :=
  unfold counter_at; fields; rewrite ?row_at_put by (unfold row_dom in *; lia);
  first [rewrite decide_True by done | rewrite decide_False by done | idtac]; try done.

Lemma eager_expire_row_local e :
  local row_dom (sized num_rows) row_view (eager_expire e) (fun _ => eager_expire1 e).
Proof.
  split; unfold eager_expire, row_view, eager_expire1; cbn [fst snd].
  - intros s r Hs Hr. repeat case_match; solve_sized.
  - intros s r [Hc Hk] Hr. repeat case_match; [done|..]; f_equal; solve_row.
  - intros s r r' [Hc Hk] Hr Hr' Hne. repeat case_match; [done|..]; f_equal; solve_row.
Qed.

Lemma eager_row_differs raw s r :
  negb (row_at (cooked s) r =? row_at raw r) && (counter_at s r =? 0) =
  eager_differs (row_at raw r) (row_view r s).
Proof.
  unfold eager_differs, row_view. cbn [fst snd]. f_equal. f_equal. apply eq_true_iff_eq.
  by rewrite Z.eqb_eq, bool_decide_eq_true.
Qed.

Lemma eager_transfer_row_local raw :
  local row_dom (sized num_rows) row_view (sym_eager_pr_transfer_row raw)
    (fun r => eager_transfer1 (row_at raw r)).
Proof.
  split; unfold sym_eager_pr_transfer_row, eager_transfer1.
  - intros s r Hs Hr. repeat case_match; solve_sized.
  - intros s r [Hc Hk] Hr. rewrite eager_row_differs. destruct (eager_differs _ _); [|done].
    unfold row_view. f_equal; solve_row.
  - intros s r r' [Hc Hk] Hr Hr' Hne. case_match; [|done]. unfold row_view. f_equal; solve_row.
Qed.

(** ** asym_eager_defer_pk.c *)

Definition asym_view (rc : nat * nat) (s : counters_state asym_counter) : asym_counter * bool :=
  (asym_at s (counter_index rc), key_bit (cooked s) rc).

Definition asym_expire1 (e : Z) (b : bool) (v : asym_counter * bool) : asym_counter * bool :=
  if a_time v.1 =? 0 then v
  else if a_time v.1 <=? e then
    ({| a_pressed := a_pressed v.1; a_time := 0 |}, if a_pressed v.1 then v.2 else b)
  else ({| a_pressed := a_pressed v.1; a_time := wrap 7 (a_time v.1 - e) |}, v.2).

Lemma asym_expire_local raw e :
  local dom key_sized asym_view (asym_expire raw e) (fun rc => asym_expire1 e (key_bit raw rc)).
Proof.
  split; unfold asym_expire, asym_view, asym_expire1; cbn [fst snd].
  - intros s rc Hs Hrc. repeat case_match; solve_sized.
  - intros s [r c] [Hc Hk] Hrc. repeat case_match; [done|..]; f_equal; solve_view.
  - intros s [r c] rc' [Hc Hk] Hrc Hrc' Hne. repeat case_match; [done|..]; f_equal; solve_view.
Qed.

Definition asym_transfer1 (b : bool) (v : asym_counter * bool) : asym_counter * bool :=
  if xorb b v.2 then
    if a_time v.1 =? 0
    then ({| a_pressed := b; a_time := ASYM_DEBOUNCE |}, if b then negb v.2 else v.2) else v
  else if negb (a_time v.1 =? 0) then
    if negb (a_pressed v.1) then ({| a_pressed := a_pressed v.1; a_time := 0 |}, v.2) else v
  else v.

Definition asym_cell (raw : list Z) (s : counters_state asym_counter) (rc : nat * nat)
  : counters_state asym_counter :=
  asym_transfer_col raw (delta_of raw s rc.1) rc.1 s rc.2.

Lemma asym_down raw r c : nz (Z.land (row_at raw r) (col_mask (r, c))) = key_bit raw (r, c).
Proof. apply nz_land_mask. Qed.

Lemma asym_col_sized n raw delta r s c : sized n s -> sized n (asym_transfer_col raw delta r s c).
Proof. intros Hs. unfold asym_transfer_col. repeat case_match; solve_sized. Qed.

Lemma asym_col_other raw delta r s c rc' :
  length (cooked s) = num_rows -> dom (r, c) -> rc' <> (r, c) ->
  key_bit (cooked (asym_transfer_col raw delta r s c)) rc' = key_bit (cooked s) rc'.
Proof.
  intros Hk Hd Hne. unfold asym_transfer_col. repeat case_match; try done. fields.
  rewrite key_bit_flip by done. by rewrite decide_False.
Qed.

Lemma asym_cell_local raw :
  local dom key_sized asym_view (asym_cell raw) (fun rc => asym_transfer1 (key_bit raw rc)).
Proof.
  split.
  - intros s rc Hs _. by apply asym_col_sized.
  - intros s [r c] [Hc Hk] Hrc. unfold asym_cell, asym_transfer_col, asym_view, asym_transfer1.
    cbn [fst snd]. rewrite delta_bit, asym_down. repeat case_match; try done; f_equal; solve_view.
  - intros s [r c] rc' [Hc Hk] Hrc Hrc' Hne. unfold asym_view. f_equal; [|by apply asym_col_other].
    unfold asym_cell, asym_transfer_col. repeat case_match; try done; solve_view.
Qed.

Lemma asym_row_cells raw r l s delta :
  (forall c, c ∈ l -> (c < COLS)%nat) -> (r < num_rows)%nat -> NoDup l -> key_sized s ->
  (forall c, c ∈ l ->
    nz (Z.land delta (col_mask (r, c))) = nz (Z.land (delta_of raw s r) (col_mask (r, c)))) ->
  foldl (asym_transfer_col raw delta r) s l = foldl (fun s c => asym_cell raw s (r, c)) s l.
Proof.
  intros Hcols Hr Hnd. revert s. induction l as [|c l IH]; intros s Hs Hd; [done|].
  apply NoDup_cons in Hnd as [Hc Hnd]. cbn [foldl].
  assert (asym_transfer_col raw delta r s c = asym_cell raw s (r, c)) as ->.
  { unfold asym_cell, asym_transfer_col. cbn [fst snd]. by rewrite (Hd c) by (by left). }
  apply IH; [intros; apply Hcols; by right|done|by apply asym_col_sized|].
  intros c' Hc'. rewrite (Hd c'), !delta_bit by (by right). f_equal. symmetry.
  apply asym_col_other; [apply Hs|split; [done|apply Hcols; by left]|]. intros [= ->]. done.
Qed.

Lemma asym_transfer_cells raw s :
  key_sized s ->
  asym_transfer raw num_rows s = foldl (asym_cell raw) (clear_need_matrix s) (cells num_rows COLS).
Proof.
  intros Hs. apply (foldl_cells key_sized); [|solve_sized]. intros s1 r Hr Hs1. cbv zeta.
  split; [|by apply fold_sized; [intros; by apply asym_col_sized|]].
  apply asym_row_cells; [intros c [_ Hc]%elem_of_seq; lia|done|apply NoDup_seq|done|done].
Qed.
End cells.
