(* ===== verification/DebounceSim.v ===== *)
(** * From one key to the whole matrix, and from one call to all

    [KeySemantics] says what the two passes of an algorithm do to the view of
    one key; [Automaton] what the key is meant to do over time; [KeyLaws] that
    the first follows the second.  An algorithm that satisfies both then
    refines its automaton on every key, at any length of run. *)

From S2P Require Import Prelude.
From S2P Require Import State.
From S2P Require Import Debounce.
From S2P Require Import DebounceLoops.

(** The view [V] of a key, its raw value [B], and the passes on a view. *)
Class KeySemantics (C I V B : Type) := {
  key_cells : list I;
  key_wf : counters_state C -> Prop;
  view : I -> counters_state C -> V;
  raw_of : list Z -> I -> B;
  update_pass : list Z -> Z -> counters_state C -> counters_state C;
  transfer_pass : list Z -> counters_state C -> counters_state C;
  expire1 : Z -> B -> V -> V;
  counting1 : Z -> V -> bool;        (* raises [counters_need_update] *)
  unlock1 : Z -> V -> bool;          (* raises [matrix_need_update] *)
  expire_flips : Z -> B -> V -> bool;
  transfer1 : B -> V -> V;
  start1 : B -> V -> bool;
  transfer_flips : B -> V -> bool;
}.

(** The abstract behaviour: [astep T b a] is the key after a call at time [T]
    that reads [b]; [shows] is what the matrix says of it. *)
Class Automaton (A B : Type) := {
  astep : Z -> B -> A -> A;
  shows : A -> B;
}.

Section sim.
Context `{!Config} `{!DebounceConfig}.

Definition TIMER_BITS : Z := if FAST_TIMER_T_SIZE <? 32 then 16 else 32.
(** What the timer reads at time [T]. *)
Definition tick (T : Z) : Z := wrap TIMER_BITS T.

Lemma timer_diff T T' : T <= T' < T + 2 ^ TIMER_BITS -> TIMER_DIFF_FAST (tick T') (tick T) = T' - T.
Proof.
  intros HT. unfold TIMER_DIFF_FAST, tick, TIMER_BITS in *.
  destruct (FAST_TIMER_T_SIZE <? 32); unfold wrap; rewrite <-Zminus_mod; by apply Z.mod_small; lia.
Qed.

Section algorithm.
Context {C I V B A : Type} `{!KeySemantics C I V B} `{!Automaton A B} `{!EqDecision B}.

Class PassLaws : Prop := {
  update_law raw e s : key_wf s ->
    key_wf (update_pass raw e s) /\
    (forall i, i ∈ key_cells -> view i (update_pass raw e s) = expire1 e (raw_of raw i) (view i s)) /\
    last_time (update_pass raw e s) = last_time s /\
    counters_need_update (update_pass raw e s) = existsb (fun i => counting1 e (view i s)) key_cells /\
    matrix_need_update (update_pass raw e s) =
      existsb (fun i => unlock1 e (view i s)) key_cells /\
    cooked_changed (update_pass raw e s) =
      cooked_changed s || existsb (fun i => expire_flips e (raw_of raw i) (view i s)) key_cells;
  transfer_law raw s : key_wf s ->
    key_wf (transfer_pass raw s) /\
    (forall i, i ∈ key_cells -> view i (transfer_pass raw s) = transfer1 (raw_of raw i) (view i s)) /\
    last_time (transfer_pass raw s) = last_time s /\
    counters_need_update (transfer_pass raw s) =
      counters_need_update s || existsb (fun i => start1 (raw_of raw i) (view i s)) key_cells /\
    matrix_need_update (transfer_pass raw s) = false /\
    cooked_changed (transfer_pass raw s) =
      cooked_changed s || existsb (fun i => transfer_flips (raw_of raw i) (view i s)) key_cells;
  frame_law (s s' : counters_state C) :
    debounce_counters s' = debounce_counters s -> cooked s' = cooked s ->
    (key_wf s -> key_wf s') /\ forall i, view i s' = view i s;
}.

(** [elapsed_time] is limited to a byte. *)
Definition clip (e : Z) : Z := if 255 <? e then 255 else e.

(** [cell_rel T p v a]: after a call at [T] that read [p], the view is [v] and
    the automaton in [a]. *)
Class KeyLaws (cell_rel : Z -> B -> V -> A -> Prop) (idle : V -> Prop) (out : V -> B) : Prop := {
  rel_step T T' p b v a :
    cell_rel T p v a -> T <= T' ->
    cell_rel T' b (transfer1 b (expire1 (clip (T' - T)) b v)) (astep T' b a);
  rel_quiet T p v a e :
    cell_rel T p v a -> 0 <= e -> unlock1 e v = false ->
    transfer1 p (expire1 e p v) = expire1 e p v /\ transfer_flips p (expire1 e p v) = false;
  rel_zero T p v a b :
    cell_rel T p v a ->
    expire1 0 b v = v /\ unlock1 0 v = false /\ expire_flips 0 b v = false;
  rel_out T p v a : cell_rel T p v a -> out v = shows a;
  rel_flips T p v a b e :
    cell_rel T p v a -> 0 <= e ->
    expire_flips e b v || transfer_flips b (expire1 e b v) =
      negb (bool_decide (out (transfer1 b (expire1 e b v)) = out v));
  idle_stays e b v :
    idle v -> expire1 e b v = v /\ unlock1 e v = false /\ expire_flips e b v = false;
  idle_expired e b v : counting1 e v = false -> idle (expire1 e b v);
  idle_unless_started b v : idle v -> start1 b v = false -> idle (transfer1 b v);
}.

Context `{!PassLaws} {cell_rel : Z -> B -> V -> A -> Prop} {idle : V -> Prop} {out : V -> B}.
Context `{!KeyLaws cell_rel idle out}.

Record simulates (T : Z) (prev : list Z) (s : counters_state C) (a : I -> A) : Prop := {
  sim_wf : key_wf s;
  sim_rel i : i ∈ key_cells -> cell_rel T (raw_of prev i) (view i s) (a i);
  sim_idle i : counters_need_update s = false -> i ∈ key_cells -> idle (view i s);
  sim_time : counters_need_update s = true -> last_time s = tick T;
  sim_matrix : matrix_need_update s = false;
}.

Lemma existsb_false {X} (f : X -> bool) l : existsb f l = false <-> forall x, x ∈ l -> f x = false.
Proof.
  split.
  - intros Hf x Hx. destruct (f x) eqn:E; [|done]. assert (existsb f l = true); [|congruence].
    apply existsb_exists. exists x. split; [by apply list_elem_of_In|done].
  - intros Hf. apply not_true_is_false. intros (x & Hx & E)%existsb_exists.
    rewrite Hf in E; [done|by apply list_elem_of_In].
Qed.

Lemma existsb_ext {X} (f g : X -> bool) l : (forall x, x ∈ l -> f x = g x) -> existsb f l = existsb g l.
Proof.
  induction l as [|x l IH]; intros Hf; [done|]. cbn. rewrite Hf by (by left). f_equal.
  apply IH. intros y Hy. apply Hf. by right.
Qed.

Lemma existsb_or {X} (f g : X -> bool) l :
  existsb f l || existsb g l = existsb (fun x => f x || g x) l.
Proof. induction l as [|x l IH]; [done|]. cbn. rewrite <-IH. by destruct (f x), (g x), (existsb f l). Qed.

(** After counting down. *)
Record counted (T' e : Z) (raw : list Z) (s s1 : counters_state C) : Prop := {
  counted_wf : key_wf s1;
  counted_view i : i ∈ key_cells -> view i s1 = expire1 e (raw_of raw i) (view i s);
  counted_time : counters_need_update s = true -> last_time s1 = tick T';
  counted_need : counters_need_update s1 = true -> counters_need_update s = true;
  counted_idle i : counters_need_update s1 = false -> i ∈ key_cells -> idle (view i s1);
  counted_matrix : matrix_need_update s1 = existsb (fun i => unlock1 e (view i s)) key_cells;
  counted_changed : cooked_changed s1 =
    existsb (fun i => expire_flips e (raw_of raw i) (view i s)) key_cells;
}.

Lemma count_down_counted T T' prev raw s a :
  simulates T prev s a -> T <= T' < T + 2 ^ TIMER_BITS ->
  counted T' (clip (T' - T)) raw s (count_down (update_pass raw) (tick T') (clear_changed s)).
Proof.
  intros [Hwf Hrel Hidle Htime Hm] HT. unfold count_down.
  destruct (frame_law s (clear_changed s)) as [Hwf0 Hv0]; [done..|].
  change (counters_need_update (clear_changed s)) with (counters_need_update s).
  destruct (counters_need_update s) eqn:Hn.
  - change (last_time (clear_changed s)) with (last_time s). rewrite Htime, timer_diff by done.
    fold (clip (T' - T)). set (e := clip (T' - T)).
    destruct (frame_law s (set_last_time (tick T') (clear_changed s))) as [Hwf1 Hv1]; [done..|].
    destruct (0 <? e) eqn:He.
    + destruct (update_law raw e (set_last_time (tick T') (clear_changed s)) (Hwf1 Hwf))
        as (Hu1 & Hu2 & Hu3 & Hu4 & Hu5 & Hu6).
      split; [done| | |done| | |].
      * intros i Hi. by rewrite Hu2, Hv1.
      * by rewrite Hu3.
      * intros i Hu Hi. rewrite Hu2 by done. apply idle_expired.
        rewrite Hu4 in Hu. exact (proj1 (existsb_false _ _) Hu i Hi).
      * rewrite Hu5. apply existsb_ext. intros i Hi. by rewrite Hv1.
      * rewrite Hu6. cbn. apply existsb_ext. intros i Hi. by rewrite Hv1.
    + assert (e = 0) as ->.
      { apply Z.ltb_ge in He. unfold e, clip in *. destruct (Z.ltb_spec 255 (T' - T)); lia. }
      split; [by apply Hwf1| |done| | | |].
      * intros i Hi. rewrite Hv1. symmetry. eapply rel_zero, Hrel, Hi.
      * done.
      * intros i Hn'. change (counters_need_update s = false) in Hn'. congruence.
      * symmetry. transitivity false; [|by rewrite <-Hm]. apply existsb_false. intros i Hi.
        eapply (rel_zero _ _ _ _ (raw_of raw i)), Hrel, Hi.
      * symmetry. apply existsb_false. intros i Hi. eapply rel_zero, Hrel, Hi.
  - pose proof (fun i Hi => idle_stays (clip (T' - T)) (raw_of raw i) (view i s) (Hidle i eq_refl Hi)) as Hst.
    split; [by apply Hwf0| |congruence|by intros| | |].
    + intros i Hi. rewrite Hv0. symmetry. by apply Hst.
    + intros i _ Hi. rewrite Hv0. by apply Hidle.
    + symmetry. transitivity false; [|by rewrite <-Hm]. apply existsb_false. intros i Hi. by apply (Hst i).
    + symmetry. apply existsb_false. intros i Hi. by apply (Hst i).
Qed.

(** One call of [debounce]: the relation is kept, and the result says whether
    any key changed. *)
Lemma eager_call_simulates T T' prev raw changed s a :
  simulates T prev s a -> T <= T' < T + 2 ^ TIMER_BITS ->
  (changed = false -> forall i, i ∈ key_cells -> raw_of raw i = raw_of prev i) ->
  let s' := eager_call (update_pass raw) (transfer_pass raw) changed (tick T') s in
  let a' i := astep T' (raw_of raw i) (a i) in
  simulates T' raw s' a' /\
  cooked_changed s' = existsb (fun i => negb (bool_decide (shows (a' i) = shows (a i)))) key_cells.
Proof.
  intros Hsim HT Hch. set (e := clip (T' - T)).
  assert (0 <= e) as He by (unfold e, clip; destruct (Z.ltb_spec 255 (T' - T)); lia).
  unfold eager_call. cbv zeta.
  change (counters_need_update (clear_changed s)) with (counters_need_update s).
  destruct (count_down_counted T T' prev raw s a Hsim HT) as [Hwf1 Hv1 Ht1 Hn1 Hi1 Hm1 Hc1].
  fold e in Hv1, Hm1, Hc1. set (s1 := count_down _ _ _) in *.
  assert (forall i, i ∈ key_cells ->
    cell_rel T' (raw_of raw i) (transfer1 (raw_of raw i) (view i s1)) (astep T' (raw_of raw i) (a i))) as Hstep.
  { intros i Hi. rewrite Hv1 by done. eapply rel_step; [by apply Hsim|lia]. }
  assert (forall i, i ∈ key_cells ->
    expire_flips e (raw_of raw i) (view i s) || transfer_flips (raw_of raw i) (view i s1) =
    negb (bool_decide (shows (astep T' (raw_of raw i) (a i)) = shows (a i)))) as Hflips.
  { intros i Hi. rewrite Hv1 by done. erewrite rel_flips by (done || by apply Hsim).
    rewrite <-Hv1 by done. by rewrite (rel_out _ _ _ _ (Hstep i Hi)), (rel_out _ _ _ _ (sim_rel _ _ _ _ Hsim i Hi)). }
  destruct (changed || matrix_need_update s1) eqn:Hgo.
  - set (s2 := if counters_need_update s then s1 else set_last_time (tick T') s1).
    assert (debounce_counters s2 = debounce_counters s1 /\ cooked s2 = cooked s1 /\
      counters_need_update s2 = counters_need_update s1 /\ cooked_changed s2 = cooked_changed s1 /\
      last_time s2 = tick T') as (E1 & E2 & E3 & E4 & E5).
    { unfold s2. destruct (counters_need_update s); auto 6. }
    destruct (frame_law s1 s2 E1 E2) as [Hwf2 Hv2].
    destruct (transfer_law raw s2 (Hwf2 Hwf1)) as (Hu1 & Hu2 & Hu3 & Hu4 & Hu5 & Hu6).
    split; [split|].
    + done.
    + intros i Hi. rewrite Hu2, Hv2 by done. by apply Hstep.
    + rewrite Hu4, E3. intros i [Hn Hst]%orb_false_iff Hi. rewrite Hu2, Hv2 by done.
      apply idle_unless_started; [by apply Hi1|].
      rewrite <-Hv2. exact (proj1 (existsb_false _ _) Hst i Hi).
    + intros _. by rewrite Hu3.
    + done.
    + rewrite Hu6, E4, Hc1, existsb_or. apply existsb_ext. intros i Hi. rewrite Hv2. by apply Hflips.
  - apply orb_false_iff in Hgo as [-> Hm]. specialize (Hch eq_refl).
    rewrite Hm in Hm1. symmetry in Hm1.
    assert (forall i, i ∈ key_cells -> transfer1 (raw_of raw i) (view i s1) = view i s1 /\
      transfer_flips (raw_of raw i) (view i s1) = false) as Hq.
    { intros i Hi. rewrite Hv1, Hch by done.
      eapply rel_quiet; [by apply Hsim|done|exact (proj1 (existsb_false _ _) Hm1 i Hi)]. }
    split; [split|].
    + done.
    + intros i Hi. rewrite <-(proj1 (Hq i Hi)). by apply Hstep.
    + done.
    + intros Hn. apply Ht1, Hn1, Hn.
    + done.
    + rewrite Hc1. apply existsb_ext. intros i Hi. rewrite <-Hflips by done.
      by rewrite (proj2 (Hq i Hi)), orb_false_r.
Qed.
End algorithm.
End sim.
Arguments PassLaws C I V B {_}.

(** ** The algorithms with counters refine their automata

    Each key (or row) behaves like a small timed automaton of its own,
    whatever the other keys do: deferred ([sym_defer_pk]), eager
    ([sym_eager_pk], [sym_eager_pr]), or eager down and deferred up
    ([asym_eager_defer_pk]). *)

(** ** The automata *)

(** [since]: for a deferred key, when it was first seen to differ; for an
    eager key, when it last changed. *)
Record timed (B : Type) := { value : B; since : option Z }.
Arguments value {B}.
Arguments since {B}.

Section automata.
Context {B : Type} `{!EqDecision B} (D : Z).

Definition defer_step (T : Z) (b : B) (a : timed B) : timed B :=
  if decide (b = value a) then {| value := value a; since := None |}
  else match since a with
       | None => {| value := value a; since := Some T |}
       | Some t0 => if D <=? T - t0 then {| value := b; since := None |} else a
       end.

Definition unlocked (T : Z) (since : option Z) : option Z :=
  match since with
  | Some t0 => if D <=? T - t0 then None else Some t0
  | None => None
  end.

Definition eager_step (T : Z) (b : B) (a : timed B) : timed B :=
  let locked := unlocked T (since a) in
  if decide (b = value a) then {| value := value a; since := locked |}
  else match locked with
       | None => {| value := b; since := Some T |}
       | Some _ => {| value := value a; since := locked |}
       end.
End automata.

Inductive asym_phase := Settled | LockedDown (t0 : Z) | GoingUp (t0 : Z).
Record asym_key := { down : bool; phase : asym_phase }.

Definition asym_timeout (D T : Z) (b : bool) (a : asym_key) : asym_key :=
  match phase a with
  | LockedDown t0 => if D <=? T - t0 then {| down := down a; phase := Settled |} else a
  | GoingUp t0 => if D <=? T - t0 then {| down := b; phase := Settled |} else a
  | Settled => a
  end.

Definition asym_step (D T : Z) (b : bool) (a : asym_key) : asym_key :=
  let a := asym_timeout D T b a in
  match phase a, xorb b (down a) with
  | Settled, true =>
      if b then {| down := true; phase := LockedDown T |}
      else {| down := down a; phase := GoingUp T |}
  | GoingUp _, false => {| down := down a; phase := Settled |}
  | _, _ => a
  end.

Section refine.
Context `{!Config} `{!DebounceConfig} (num_rows : nat).

Definition sees_bit (raw : list Z) (rc : nat * nat) : bool := key_bit raw rc.

Definition counting (e n : Z) : bool := negb (n =? 0) && (e <? n).

(** ** sym_defer_pk.c *)

Definition defer_semantics : KeySemantics Z (nat * nat) (Z * bool) bool := {|
  key_cells := cells num_rows COLS;
  key_wf := sized num_rows (num_rows * COLS);
  view := key_view;
  raw_of := sees_bit;
  update_pass raw e s := sym_defer_pk_update raw num_rows e (clear_need_matrix s);
  transfer_pass raw s := sym_defer_pk_start raw num_rows (clear_need_matrix s);
  expire1 := defer_expire1;
  counting1 e v := counting e v.1;
  unlock1 e v := false;
  expire_flips e b v := expires e v.1 && xorb v.2 b;
  transfer1 := defer_start1;
  start1 b v := xorb b v.2 && (v.1 =? 0);
  transfer_flips b v := false;
|}.

Definition defer_automaton {B} `{!EqDecision B} : Automaton (timed B) B := {|
  astep := defer_step DEBOUNCE; shows := value;
|}.

Lemma cells_dom : Forall (dom num_rows) (cells num_rows COLS).
Proof. apply Forall_forall. intros rc Hrc%elem_of_cells. exact Hrc. Qed.

(** The laws of a pass that is a loop over local steps. *)
Lemma loop_law {C I V} `{!EqDecision I} (dm : I -> Prop) wf (vw : I -> counters_state C -> V)
    step f l (g1 g2 g3 : I -> V -> bool) (s : counters_state C) :
  local dm wf vw step f -> Forall dm l -> NoDup l -> wf s ->
  (forall s i, wf s -> dm i ->
    last_time (step s i) = last_time s /\
    counters_need_update (step s i) = counters_need_update s || g1 i (vw i s) /\
    matrix_need_update (step s i) = matrix_need_update s || g2 i (vw i s) /\
    cooked_changed (step s i) = cooked_changed s || g3 i (vw i s)) ->
  let s' := foldl step s l in
  wf s' /\ (forall i, i ∈ l -> vw i s' = f i (vw i s)) /\ last_time s' = last_time s /\
  counters_need_update s' = counters_need_update s || existsb (fun i => g1 i (vw i s)) l /\
  matrix_need_update s' = matrix_need_update s || existsb (fun i => g2 i (vw i s)) l /\
  cooked_changed s' = cooked_changed s || existsb (fun i => g3 i (vw i s)) l.
Proof.
  intros Hlocal Hl Hnd Hs Hflags s'. destruct (fold_local dm wf vw step f Hlocal l s Hnd Hl Hs) as [Hwf Hv].
  split; [done|]. split.
  { intros i Hi. rewrite Hv; [by rewrite decide_True|]. by eapply Forall_forall in Hl. }
  assert (last_time s' = last_time s) as Htime.
  { subst s'. clear Hv Hwf Hnd. revert s Hs. induction Hl as [|i l Hi Hl IH]; intros s Hs; [done|]. cbn.
    rewrite IH by (by apply Hlocal). by apply Hflags. }
  split; [done|].
  split_and!; eapply (fold_flag dm wf vw step f Hlocal); try done; intros; by apply Hflags.
Qed.

Ltac flags := cbn; rewrite ?orb_false_r, ?orb_true_r; auto.

Lemma existsb_none {X} (l : list X) : existsb (fun _ => false) l = false.
Proof. by induction l. Qed.

#[local] Instance defer_laws : PassLaws Z (nat * nat) (Z * bool) bool (KeySemantics0 := defer_semantics).
Proof.
  split.
  - intros raw e s Hs.
    destruct (loop_law (dom num_rows) _ key_view _ _ (cells num_rows COLS) (fun _ v => counting e v.1)
      (fun _ _ => false) (fun i v => expires e v.1 && xorb v.2 (key_bit raw i))
      (clear_need_counters (clear_need_matrix s)) (defer_expire_local num_rows raw e) cells_dom
      (NoDup_cells _ _) Hs) as (H1 & H2 & H3 & H4 & H5 & H6).
    { intros s1 rc Hs1 Hrc. unfold sym_defer_pk_expire, counting, expires, key_view. cbn [fst snd].
      destruct (_ =? 0) eqn:E0; cbn [negb andb]; [flags|].
      rewrite Z.ltb_antisym. destruct (_ <=? e) eqn:E1; cbn [negb andb]; [|flags].
      split_and!; [done|flags|flags|]. cbn [cooked_changed set_cooked put_cooked set_flags set_counter].
      f_equal. exact (transfer_changes rc raw (set_counter (counter_index rc) 0 s1)). }
    split_and!; [exact H1|exact H2|exact H3|exact H4| |exact H6].
    refine (eq_trans H5 _). cbn. by rewrite existsb_none.
  - intros raw s Hs.
    destruct (loop_law (dom num_rows) _ key_view _ _ (cells num_rows COLS)
      (fun i v => xorb (key_bit raw i) v.2 && (v.1 =? 0))
      (fun _ _ => false) (fun _ _ => false)
      (clear_need_matrix s) (defer_start_local num_rows raw) cells_dom
      (NoDup_cells _ _) Hs) as (H1 & H2 & H3 & H4 & H5 & H6).
    { intros s1 [r c] Hs1 Hrc. unfold defer_start_cell, sym_defer_pk_start_col, key_view. cbn [fst snd].
      rewrite delta_bit. destruct (xorb _ _); cbn [andb]; [|flags].
      destruct (_ =? 0) eqn:E0; cbn [negb andb]; flags. }
    cbn [transfer_pass defer_semantics]. rewrite defer_start_cells.
    split_and!; [exact H1|exact H2|exact H3|exact H4| |exact H6].
    refine (eq_trans H5 _). cbn. by rewrite existsb_none.
  - intros s s' E1 E2. cbn. unfold sized, key_view, counter_at. by rewrite E1, E2.
Qed.

Lemma clip_spec e : 0 <= e -> 0 <= clip e <= 255 /\ (clip e = e \/ 255 < e /\ clip e = 255).
Proof. unfold clip. destruct (Z.ltb_spec 255 e); lia. Qed.

Lemma debounce_range : 0 < DEBOUNCE_MS -> 0 < DEBOUNCE <= 255.
Proof. unfold DEBOUNCE. destruct (Z.ltb_spec 255 DEBOUNCE_MS); lia. Qed.
Lemma asym_debounce_range : 0 < DEBOUNCE_MS -> 0 < ASYM_DEBOUNCE <= 127.
Proof. unfold ASYM_DEBOUNCE. destruct (Z.ltb_spec 127 DEBOUNCE_MS); lia. Qed.

(** The counter is what is left of the delay [D]; it has [w] bits. *)
Definition running (D T n : Z) (since : option Z) : Prop :=
  match since with
  | None => n = 0
  | Some t0 => t0 <= T /\ n = D - (T - t0) /\ 0 < n
  end.

Lemma running_start D T : 0 < D -> running D T D (Some T).
Proof. unfold running. lia. Qed.

(** Counting down from [running]. *)
Lemma running_expire w D T T' n t0 :
  0 < D <= 255 -> D < 2 ^ w -> running D T n (Some t0) -> T <= T' ->
  (n =? 0) = false /\
  ((D <=? T' - t0) = true /\ (n <=? clip (T' - T)) = true \/
   (D <=? T' - t0) = false /\ (n <=? clip (T' - T)) = false /\
   running D T' (wrap w (n - clip (T' - T))) (Some t0) /\
   (wrap w (n - clip (T' - T)) =? 0) = false).
Proof.
  intros HD Hw (Ht & Hn & Hpos) HT. destruct (clip_spec (T' - T)) as [Hr Hc]; [lia|].
  split; [apply Z.eqb_neq; lia|]. destruct (Z.leb_spec D (T' - t0)).
  - left. split; [done|]. apply Z.leb_le. lia.
  - right. unfold running. rewrite wrap_small by lia.
    split_and!; [done|apply Z.leb_gt| | | |apply Z.eqb_neq]; lia.
Qed.

Lemma running_below w D T n t0 e :
  D < 2 ^ w -> running D T n (Some t0) -> 0 <= e ->
  (n =? 0) = false /\ (e = 0 -> (n <=? e) = false /\ wrap w (n - e) = n) /\
  ((n <=? e) = false -> (wrap w (n - e) =? 0) = false).
Proof.
  intros Hw (Ht & Hn & Hpos) He. split_and!.
  - apply Z.eqb_neq. lia.
  - intros ->. rewrite wrap_small by lia. split; [apply Z.leb_gt|]; lia.
  - intros E%Z.leb_gt. rewrite wrap_small by lia. apply Z.eqb_neq. lia.
Qed.

Hypothesis debounce_on : 0 < DEBOUNCE_MS.

Definition defer_rel (T : Z) (p : bool) (v : Z * bool) (a : timed bool) : Prop :=
  v.2 = value a /\ running DEBOUNCE T v.1 (since a) /\
  v.2 = match since a with None => p | Some _ => negb p end.

Ltac settle := cbn; repeat (case_decide; try congruence); cbn; split_and!; try done; try lia.

#[local] Instance defer_key_laws :
  KeyLaws defer_rel (fun v => v.1 = 0) snd (KeySemantics0 := defer_semantics) (Automaton0 := defer_automaton).
Proof.
  pose proof (debounce_range debounce_on) as HD. assert (DEBOUNCE < 2 ^ 8) as HD8 by lia.
  split; cbn [expire1 transfer1 transfer_flips expire_flips counting1 unlock1 start1 astep shows
    defer_semantics defer_automaton].
  - intros T T' p b [n o] [x [t0|]] (E & Hrun & Ho) HT; cbn in E, Ho; cbn [fst since] in Hrun; subst o;
      unfold defer_rel, defer_start1, defer_expire1, defer_step; cbn [fst snd value since].
    + destruct (running_expire 8 DEBOUNCE T T' n t0 HD HD8 Hrun HT)
        as (E0 & [[E1 E2]|(E1 & E2 & Hrun' & E3)]); rewrite E0, E1, E2; cbn [fst snd]; subst x.
      * destruct b, p; settle.
      * destruct Hrun' as (? & ? & ?). destruct b, p; cbn; rewrite ?E3; settle.
    + cbn in Hrun. subst. destruct b, p; settle.
  - intros T p [n o] [x [t0|]] e (E & Hrun & Ho) He _; cbn in E, Ho; cbn [fst since] in Hrun; subst;
      unfold defer_expire1, defer_start1; cbn [fst snd].
    + destruct (running_below 8 _ _ _ _ e HD8 Hrun He) as (E0 & _ & E1). rewrite E0.
      destruct (n <=? e); cbn; [by destruct p|]. destruct p; cbn; by rewrite E1.
    + cbn in Hrun. subst. by destruct p.
  - intros T p [n o] [x [t0|]] b (E & Hrun & Ho); cbn [fst since] in Hrun; unfold defer_expire1, expires; cbn [fst snd].
    + destruct (running_below 8 _ _ _ _ 0 HD8 Hrun) as (-> & E0 & _); [done|].
      destruct E0 as [-> ->]; done.
    + cbn in Hrun. by subst.
  - intros T p v a (E & _). exact E.
  - intros T p [n o] [x [t0|]] b e (E & Hrun & Ho) He; cbn in E, Ho; cbn [fst since] in Hrun; subst;
      unfold defer_expire1, defer_start1, expires; cbn [fst snd].
    + destruct (running_below 8 _ _ _ _ e HD8 Hrun He) as (-> & _). destruct (n <=? e); cbn; [by destruct b, p|].
      by destruct b, p, (_ =? 0).
    + cbn in Hrun. subst. by destruct b, p.
  - intros e b [n o] E; cbn in *; subst. done.
  - intros e b [n o]. unfold counting, defer_expire1. cbn. destruct (Z.eqb_spec n 0); [done|]. cbn.
    intros ->%Z.ltb_ge%Z.leb_le. done.
  - intros b [n o] E; cbn in *; subst. unfold defer_start1. cbn. by destruct (xorb b o).
Qed.

(** ** sym_eager_pk.c and sym_eager_pr.c *)

Definition eager_semantics {I B} `{!EqDecision B} (n : nat) (index_cells : list I)
    (vw : I -> counters_state Z -> Z * B) (rw : list Z -> I -> B)
    (update : Z -> counters_state Z -> counters_state Z)
    (transfer : list Z -> counters_state Z -> counters_state Z) : KeySemantics Z I (Z * B) B := {|
  key_cells := index_cells;
  key_wf := sized num_rows n;
  view := vw;
  raw_of := rw;
  update_pass _ e s := update e s;
  transfer_pass raw s := transfer raw s;
  expire1 e _ v := eager_expire1 e v;
  counting1 e v := counting e v.1;
  unlock1 e v := expires e v.1;
  expire_flips _ _ _ := false;
  transfer1 := eager_transfer1;
  start1 := eager_differs;
  transfer_flips := eager_differs;
|}.

Definition eager_pk_semantics : KeySemantics Z (nat * nat) (Z * bool) bool :=
  eager_semantics (num_rows * COLS) (cells num_rows COLS) key_view sees_bit
    (sym_eager_pk_update num_rows) (fun raw => sym_eager_pk_transfer raw num_rows).
Definition eager_pr_semantics : KeySemantics Z nat (Z * Z) Z :=
  eager_semantics num_rows (seq 0 num_rows) row_view row_at
    (sym_eager_pr_update num_rows) (fun raw => sym_eager_pr_transfer raw num_rows).

Definition eager_automaton {B} `{!EqDecision B} : Automaton (timed B) B := {|
  astep := eager_step DEBOUNCE; shows := value;
|}.

Lemma eager_expire_flags {B} (vw : Z * B) s i e :
  counter_at s i = vw.1 ->
  last_time (eager_expire e s i) = last_time s /\
  counters_need_update (eager_expire e s i) = counters_need_update s || counting e vw.1 /\
  matrix_need_update (eager_expire e s i) = matrix_need_update s || expires e vw.1 /\
  cooked_changed (eager_expire e s i) = cooked_changed s || false.
Proof.
  intros <-. unfold eager_expire, counting, expires. destruct (_ =? 0); cbn [negb andb]; [flags|].
  rewrite Z.ltb_antisym. destruct (_ <=? e); cbn [negb andb]; flags.
Qed.

#[local] Instance eager_pk_laws :
  PassLaws Z (nat * nat) (Z * bool) bool (KeySemantics0 := eager_pk_semantics).
Proof.
  split.
  - intros raw e s Hs.
    destruct (loop_law (dom num_rows) _ key_view _ _ (cells num_rows COLS) (fun _ v => counting e v.1)
      (fun _ v => expires e v.1) (fun _ _ => false) (clear_need_both s)
      (eager_expire_local num_rows e) cells_dom (NoDup_cells _ _) Hs) as (H1 & H2 & H3 & H4 & H5 & H6).
    { intros s1 rc _ _. by apply eager_expire_flags. }
    split_and!; [exact H1|exact H2|exact H3|exact H4|exact H5|exact H6].
  - intros raw s Hs.
    destruct (loop_law (dom num_rows) _ key_view _ _ (cells num_rows COLS)
      (fun i => eager_differs (key_bit raw i)) (fun _ _ => false)
      (fun i => eager_differs (key_bit raw i)) (clear_need_matrix s) (eager_cell_local num_rows raw)
      cells_dom (NoDup_cells _ _) Hs) as (H1 & H2 & H3 & H4 & H5 & H6).
    { intros s1 [r c] Hs1 Hrc. unfold eager_cell, sym_eager_pk_transfer_col. cbn [fst snd].
      rewrite delta_bit. unfold eager_differs, key_view. cbn [fst snd].
      destruct (key_bit raw _), (key_bit (cooked s1) _); cbn [xorb]; flags; destruct (_ =? 0); flags. }
    cbn [transfer_pass eager_pk_semantics eager_semantics]. rewrite eager_transfer_cells by done.
    split_and!; [exact H1|exact H2|exact H3|exact H4| |exact H6].
    refine (eq_trans H5 _). cbn. by rewrite existsb_none.
  - intros s s' E1 E2. cbn. unfold sized, key_view, counter_at. by rewrite E1, E2.
Qed.

Lemma rows_dom : Forall (row_dom num_rows) (seq 0 num_rows).
Proof. apply Forall_forall. intros r [_ Hr]%elem_of_seq. exact Hr. Qed.

#[local] Instance eager_pr_laws : PassLaws Z nat (Z * Z) Z (KeySemantics0 := eager_pr_semantics).
Proof.
  split.
  - intros raw e s Hs.
    destruct (loop_law (row_dom num_rows) _ row_view _ _ (seq 0 num_rows) (fun _ v => counting e v.1)
      (fun _ v => expires e v.1) (fun _ _ => false) (clear_need_both s)
      (eager_expire_row_local num_rows e) rows_dom (NoDup_seq _ _) Hs) as (H1 & H2 & H3 & H4 & H5 & H6).
    { intros s1 r _ _. by apply eager_expire_flags. }
    split_and!; [exact H1|exact H2|exact H3|exact H4|exact H5|exact H6].
  - intros raw s Hs.
    destruct (loop_law (row_dom num_rows) _ row_view _ _ (seq 0 num_rows)
      (fun r => eager_differs (row_at raw r)) (fun _ _ => false)
      (fun r => eager_differs (row_at raw r)) (clear_need_matrix s)
      (eager_transfer_row_local num_rows raw) rows_dom (NoDup_seq _ _) Hs) as (H1 & H2 & H3 & H4 & H5 & H6).
    { intros s1 r Hs1 Hr. unfold sym_eager_pr_transfer_row. rewrite eager_row_differs.
      destruct (eager_differs _ _) eqn:Ed; [|flags]. split_and!; [done|flags|flags|].
      cbn. f_equal. apply nz_true. rewrite Z.lxor_eq_0_iff. intros E.
      unfold eager_differs, row_view in Ed. cbn in Ed. by rewrite bool_decide_true in Ed. }
    split_and!; [exact H1|exact H2|exact H3|exact H4| |exact H6].
    refine (eq_trans H5 _). cbn. by rewrite existsb_none.
  - intros s s' E1 E2. cbn. unfold sized, row_view, counter_at. by rewrite E1, E2.
Qed.

Definition eager_rel {B} (T : Z) (p : B) (v : Z * B) (a : timed B) : Prop :=
  v.2 = value a /\ running DEBOUNCE T v.1 (since a) /\ (since a = None -> v.2 = p).

#[local] Instance eager_key_laws {I B} `{!EqDecision B} n l vw rw upd tr :
  KeyLaws eager_rel (fun v => v.1 = 0) snd
    (KeySemantics0 := @eager_semantics I B _ n l vw rw upd tr) (Automaton0 := eager_automaton).
Proof.
  pose proof (debounce_range debounce_on) as HD. assert (DEBOUNCE < 2 ^ 8) as HD8 by lia.
  split; cbn [expire1 transfer1 transfer_flips expire_flips counting1 unlock1 start1 astep shows
    eager_semantics eager_automaton].
  - intros T T' p b [k o] [x [t0|]] (E & Hrun & Ho) HT; cbn in E, Ho; cbn [fst since] in Hrun; subst o;
      unfold eager_rel, eager_transfer1, eager_differs, eager_expire1, eager_step, unlocked;
      cbn [fst snd value since].
    + destruct (running_expire 8 DEBOUNCE T T' k t0 HD HD8 Hrun HT)
        as (E0 & [[E1 E2]|(E1 & E2 & Hrun' & E3)]); rewrite E0, E1, E2; cbn [fst snd];
        [change (0 =? 0) with true|rewrite E3]; case_bool_decide; cbn; repeat (case_decide; try congruence);
        cbn; split_and!; (done || lia || congruence || apply Hrun').
    + cbn in Hrun. subst k. rewrite Ho by done. cbn.
      case_bool_decide; cbn; repeat (case_decide; try congruence); cbn; split_and!; (done || lia || congruence).
  - intros T p [k o] [x s0] e (E & Hrun & Ho) He Hu; cbn in E, Ho, Hu; cbn [fst since] in Hrun; subst o.
    unfold eager_expire1, eager_transfer1, eager_differs, expires in *. cbn [fst snd] in *.
    destruct s0 as [t0|].
    + destruct (running_below 8 _ _ _ _ e HD8 Hrun He) as (E0 & _ & E1). rewrite E0 in *. cbn in Hu.
      rewrite Hu. cbn. by rewrite E1, andb_false_r.
    + cbn in Hrun. subst k. cbn. rewrite bool_decide_true by auto. done.
  - intros T p [k o] [x [t0|]] b (E & Hrun & Ho); cbn [fst since] in Hrun;
      unfold eager_expire1, expires; cbn [fst snd].
    + destruct (running_below 8 _ _ _ _ 0 HD8 Hrun) as (-> & E0 & _); [done|].
      destruct E0 as [-> ->]; done.
    + cbn in Hrun. by subst.
  - intros T p v a (E & _). exact E.
  - intros T p [k o] a b e _ _. unfold eager_transfer1, eager_differs, eager_expire1. cbn [fst snd orb].
    destruct (k =? 0) eqn:E0, (k <=? e); cbn [fst snd]; rewrite ?E0; change (0 =? 0) with true;
      case_bool_decide; cbn; rewrite ?bool_decide_true by done;
      repeat (case_match; cbn); rewrite ?bool_decide_true by done; rewrite ?bool_decide_false by congruence; done.
  - intros e b [k o] E; cbn in *; subst. done.
  - intros e b [k o]. unfold counting, eager_expire1. cbn. destruct (Z.eqb_spec k 0); [done|]. cbn.
    intros ->%Z.ltb_ge%Z.leb_le. done.
  - intros b [k o] E Hs; cbn in *; subst. unfold eager_transfer1. by rewrite Hs.
Qed.

(** ** asym_eager_defer_pk.c *)

Definition asym_semantics : KeySemantics asym_counter (nat * nat) (asym_counter * bool) bool := {|
  key_cells := cells num_rows COLS;
  key_wf := sized num_rows (num_rows * COLS);
  view := asym_view;
  raw_of := sees_bit;
  update_pass raw e s := asym_update raw num_rows e s;
  transfer_pass raw s := asym_transfer raw num_rows s;
  expire1 := asym_expire1;
  counting1 e v := counting e (a_time v.1);
  unlock1 e v := expires e (a_time v.1) && a_pressed v.1;
  expire_flips e b v := expires e (a_time v.1) && negb (a_pressed v.1) && xorb v.2 b;
  transfer1 := asym_transfer1;
  start1 b v := xorb b v.2 && (a_time v.1 =? 0);
  transfer_flips b v := xorb b v.2 && (a_time v.1 =? 0) && b;
|}.

Definition asym_automaton : Automaton asym_key bool := {|
  astep := asym_step ASYM_DEBOUNCE; shows := down;
|}.

#[local] Instance asym_laws :
  PassLaws asym_counter (nat * nat) (asym_counter * bool) bool (KeySemantics0 := asym_semantics).
Proof.
  split.
  - intros raw e s Hs.
    destruct (loop_law (dom num_rows) _ asym_view _ _ (cells num_rows COLS)
      (fun _ v => counting e (a_time v.1)) (fun _ v => expires e (a_time v.1) && a_pressed v.1)
      (fun i v => expires e (a_time v.1) && negb (a_pressed v.1) && xorb v.2 (key_bit raw i))
      (clear_need_both s) (asym_expire_local num_rows raw e) cells_dom
      (NoDup_cells _ _) Hs) as (H1 & H2 & H3 & H4 & H5 & H6).
    { intros s1 rc Hs1 Hrc. unfold asym_expire, counting, expires, asym_view. cbn [fst snd].
      destruct (_ =? 0) eqn:E0; cbn [negb andb]; [flags|].
      rewrite Z.ltb_antisym. destruct (_ <=? e) eqn:E1; cbn [negb andb]; [|flags].
      destruct (a_pressed _); cbn [negb andb]; [flags|].
      split_and!; [done|flags|flags|]. cbn [cooked_changed set_cooked put_cooked set_flags set_counter].
      f_equal. exact (transfer_changes rc raw (set_counter (counter_index rc) _ s1)). }
    split_and!; [exact H1|exact H2|exact H3|exact H4|exact H5|exact H6].
  - intros raw s Hs.
    destruct (loop_law (dom num_rows) _ asym_view _ _ (cells num_rows COLS)
      (fun i v => xorb (key_bit raw i) v.2 && (a_time v.1 =? 0)) (fun _ _ => false)
      (fun i v => xorb (key_bit raw i) v.2 && (a_time v.1 =? 0) && key_bit raw i)
      (clear_need_matrix s) (asym_cell_local num_rows raw) cells_dom
      (NoDup_cells _ _) Hs) as (H1 & H2 & H3 & H4 & H5 & H6).
    { intros s1 [r c] Hs1 Hrc. unfold asym_cell, asym_transfer_col, asym_view. cbn [fst snd].
      rewrite delta_bit, asym_down. destruct (xorb _ _); cbn [andb].
      - destruct (_ =? 0); cbn [andb]; [|flags]. destruct (key_bit raw _); flags.
      - destruct (_ =? 0), (a_pressed _); flags. }
    cbn [transfer_pass asym_semantics]. rewrite asym_transfer_cells by done.
    split_and!; [exact H1|exact H2|exact H3|exact H4| |exact H6].
    refine (eq_trans H5 _). cbn. by rewrite existsb_none.
  - intros s s' E1 E2. cbn. unfold sized, asym_view, asym_at. by rewrite E1, E2.
Qed.

Definition asym_rel (T : Z) (p : bool) (v : asym_counter * bool) (a : asym_key) : Prop :=
  v.2 = down a /\
  match phase a with
  | Settled => a_time v.1 = 0 /\ v.2 = p
  | LockedDown t0 => running ASYM_DEBOUNCE T (a_time v.1) (Some t0) /\ a_pressed v.1 = true /\ v.2 = true
  | GoingUp t0 =>
      running ASYM_DEBOUNCE T (a_time v.1) (Some t0) /\ a_pressed v.1 = false /\ v.2 = true /\ p = false
  end.

#[local] Instance asym_key_laws :
  KeyLaws asym_rel (fun v => a_time v.1 = 0) snd (KeySemantics0 := asym_semantics) (Automaton0 := asym_automaton).
Proof.
  pose proof (asym_debounce_range debounce_on) as HD. assert (ASYM_DEBOUNCE < 2 ^ 7) as HD7 by lia.
  assert (0 < ASYM_DEBOUNCE <= 255) as HD8 by lia.
  split; cbn [expire1 transfer1 transfer_flips expire_flips counting1 unlock1 start1 astep shows
    asym_semantics asym_automaton].
  - intros T T' p b [[pr k] o] [x [|t0|t0]] (E & Hph) HT; cbn in E; cbn [fst snd phase a_time a_pressed] in Hph;
      unfold asym_rel, asym_transfer1, asym_expire1, asym_step, asym_timeout; cbn [fst snd phase down a_time a_pressed].
    + destruct Hph as [-> ->]. subst x. cbn. destruct b, p; settle.
    + destruct Hph as (Hrun & -> & ->). subst x.
      destruct (running_expire 7 _ T T' k t0 HD8 HD7 Hrun HT)
        as (E0 & [[E1 E2]|(E1 & E2 & Hrun' & E3)]); rewrite E0, E1, E2; cbn [fst snd phase down a_time a_pressed].
      * destruct b; settle.
      * destruct b; cbn; rewrite ?E3; cbn; auto.
    + destruct Hph as (Hrun & -> & -> & ->). subst x.
      destruct (running_expire 7 _ T T' k t0 HD8 HD7 Hrun HT)
        as (E0 & [[E1 E2]|(E1 & E2 & Hrun' & E3)]); rewrite E0, E1, E2; cbn [fst snd phase down a_time a_pressed].
      * destruct b; settle.
      * destruct b; cbn; rewrite ?E3; cbn; auto.
  - intros T p [[pr k] o] [x [|t0|t0]] e (E & Hph) He Hu; cbn in E, Hu; cbn [fst snd phase a_time a_pressed] in Hph;
      unfold asym_transfer1, asym_expire1, expires in *; cbn [fst snd a_time a_pressed].
    + destruct Hph as [-> ->]. cbn. by destruct p.
    + destruct Hph as (Hrun & -> & ->).
      destruct (running_below 7 _ _ _ _ e HD7 Hrun He) as (E0 & _ & E1). rewrite E0 in *. cbn in Hu.
      rewrite andb_true_r in Hu. rewrite Hu. cbn. rewrite E1 by done. by destruct p.
    + destruct Hph as (Hrun & -> & -> & ->).
      destruct (running_below 7 _ _ _ _ e HD7 Hrun He) as (E0 & _ & E1). rewrite E0 in *.
      destruct (k <=? e); cbn; [done|]. by rewrite E1.
  - intros T p [[pr k] o] [x [|t0|t0]] b (E & Hph); cbn [fst snd phase a_time a_pressed] in Hph;
      unfold asym_expire1, expires; cbn [fst snd a_time a_pressed].
    + by destruct Hph as [-> ->].
    + destruct Hph as (Hrun & Hpr & _). destruct (running_below 7 _ _ _ _ 0 HD7 Hrun) as (-> & E0 & _); [done|].
      destruct E0 as [-> ->]; done.
    + destruct Hph as (Hrun & Hpr & _). destruct (running_below 7 _ _ _ _ 0 HD7 Hrun) as (-> & E0 & _); [done|].
      destruct E0 as [-> ->]; done.
  - intros T p v a (E & _). exact E.
  - intros T p [[pr k] o] a b e _ _. unfold asym_transfer1, asym_expire1, expires. cbn [fst snd a_time a_pressed].
    destruct (k =? 0) eqn:E0, (k <=? e); cbn [fst snd a_time a_pressed]; rewrite ?E0;
      destruct pr, b, o; cbn; rewrite ?E0; cbn; try done; by destruct (wrap _ _ =? 0).
  - intros e b [[pr k] o] E; cbn in *; subst. done.
  - intros e b [[pr k] o]. unfold counting, asym_expire1. cbn. destruct (Z.eqb_spec k 0); [done|]. cbn.
    intros ->%Z.ltb_ge%Z.leb_le. done.
  - intros b [[pr k] o] E Hs; cbn in *; subst. unfold asym_transfer1. cbn in *.
    destruct (xorb b o); cbn in *; [done|]. done.
Qed.
End refine.
