(* ===== verification/DebounceSpec.v ===== *)
(** * Debouncing, over any sequence of scans

    The refinement theorems for whole runs, and what they mean for a key: a
    key that stays put is reported, and a deferred key never chatters. *)

From S2P Require Import Prelude.
From S2P Require Import State.
From S2P Require Import Debounce.
From S2P Require Import DebounceLoops.
From S2P Require Import DebounceSim.

(** ** Runs *)

(** A scan: when, and the raw rows. *)
Definition scan : Type := Z * list Z.

Section runs.
Context `{!Config} `{!DebounceConfig}.

(** [changed] is whether the raw rows differ from those of the last call
    (quantum/matrix.c). *)
Definition scan_step {S} (call : list Z -> bool -> Z -> S -> S) (p : list Z * S) (x : scan)
  : list Z * S :=
  (x.2, call x.2 (negb (bool_decide (x.2 = p.1))) (tick x.1) p.2).

(** From the released matrix. *)
Definition run {S} (num_rows : nat) (call : list Z -> bool -> Z -> S -> S) (s0 : S)
    (scans : list scan) : S :=
  (foldl (scan_step call) (replicate num_rows 0, s0) scans).2.

(** Time goes on, and a timer of [w] bits does not go round, with a delay in
    progress, between two calls. *)
Fixpoint timely (w T : Z) (scans : list scan) : Prop :=
  match scans with
  | [] => True
  | x :: scans => T <= x.1 <= T + 2 ^ w - 256 /\ timely w x.1 scans
  end.

Fixpoint end_time (T : Z) (scans : list scan) : Z :=
  match scans with
  | [] => T
  | x :: scans => end_time x.1 scans
  end.

Lemma timely_app w T l1 l2 :
  timely w T (l1 ++ l2) <-> timely w T l1 /\ timely w (end_time T l1) l2.
Proof. revert T. induction l1 as [|x l1 IH]; intros T; cbn; [tauto|]. rewrite IH. tauto. Qed.

Lemma end_time_app T l1 l2 : end_time T (l1 ++ l2) = end_time (end_time T l1) l2.
Proof. revert T. induction l1 as [|x l1 IH]; intros T; [done|]. apply IH. Qed.

Lemma timely_end w T l : timely w T l -> T <= end_time T l.
Proof.
  revert T. induction l as [|x l IH]; intros T; cbn; [lia|]. intros [? ?%IH]. lia.
Qed.

Section algorithm.
Context {C I V B A : Type} `{!KeySemantics C I V B} `{!Automaton A B} `{!EqDecision B}.
Context `{!PassLaws C I V B} {cell_rel : Z -> B -> V -> A -> Prop} {idle : V -> Prop} {out : V -> B}.
Context `{!KeyLaws cell_rel idle out}.

(** The automaton of one key over a run. *)
Definition key_run (i : I) (a : A) (scans : list scan) : A :=
  foldl (fun a x => astep x.1 (raw_of x.2 i) a) a scans.

Variable call : list Z -> bool -> Z -> counters_state C -> counters_state C.
Hypothesis call_eager : forall raw changed now s,
  matrix_need_update s = false ->
  call raw changed now s = eager_call (update_pass raw) (transfer_pass raw) changed now s.

Lemma scan_step_simulates T prev s a x :
  simulates (cell_rel := cell_rel) (idle := idle) T prev s a -> T <= x.1 < T + 2 ^ TIMER_BITS ->
  let p := scan_step call (prev, s) x in
  simulates (cell_rel := cell_rel) (idle := idle) x.1 p.1 p.2 (fun i => astep x.1 (raw_of x.2 i) (a i)) /\
  cooked_changed p.2 =
    existsb (fun i => negb (bool_decide (shows (astep x.1 (raw_of x.2 i) (a i)) = shows (a i)))) key_cells.
Proof.
  intros Hsim HT. unfold scan_step. cbn [fst snd]. rewrite call_eager by apply Hsim.
  eapply eager_call_simulates; [done|done|].
  intros E%negb_false_iff%bool_decide_eq_true i _. by rewrite E.
Qed.

Lemma run_simulates T prev s a scans :
  simulates (cell_rel := cell_rel) (idle := idle) T prev s a -> timely TIMER_BITS T scans ->
  let p := foldl (scan_step call) (prev, s) scans in
  simulates (cell_rel := cell_rel) (idle := idle) (end_time T scans) p.1 p.2
    (fun i => key_run i (a i) scans).
Proof.
  revert T prev s a. induction scans as [|x scans IH]; intros T prev s a Hsim; [done|].
  intros [Hx Ht]. destruct (scan_step_simulates _ _ _ _ x Hsim) as [Hs _]; [lia|].
  cbv zeta in *. cbn [foldl end_time]. rewrite (surjective_pairing (scan_step call (prev, s) x)).
  exact (IH _ _ _ _ Hs Ht).
Qed.

(** What the last call of a run leaves and returns. *)
Lemma run_refines num_rows s0 (a0 : I -> A) T scans x :
  simulates (cell_rel := cell_rel) (idle := idle) T (replicate num_rows 0) s0 a0 ->
  timely TIMER_BITS T (scans ++ [x]) ->
  let s := run num_rows call s0 (scans ++ [x]) in
  let before i := shows (key_run i (a0 i) scans) in
  let after i := shows (key_run i (a0 i) (scans ++ [x])) in
  (forall i, i ∈ key_cells -> out (view i s) = after i) /\
  cooked_changed s = existsb (fun i => negb (bool_decide (after i = before i))) key_cells.
Proof.
  intros Hsim Hx. pose proof (run_simulates _ _ _ _ _ Hsim Hx) as [_ Hrel _ _ _].
  apply timely_app in Hx as [Ht [Hx _]].
  pose proof (run_simulates _ _ _ _ _ Hsim Ht) as Hpre. cbv zeta in *.
  split.
  - intros i Hi. eapply rel_out, Hrel, Hi.
  - unfold run. rewrite foldl_app. cbn [foldl].
    set (p := foldl (scan_step call) (replicate num_rows 0, s0) scans) in *. rewrite (surjective_pairing p).
    destruct (scan_step_simulates _ _ _ _ x Hpre) as [_ ->]; [lia|].
    apply existsb_ext. intros i _. unfold key_run. by rewrite foldl_app.
Qed.
End algorithm.

(** ** Each algorithm *)

Section algorithms.
Context (num_rows : nat).
Hypothesis debounce_on : 0 < DEBOUNCE_MS.

Definition pk_call raw changed now := sym_defer_pk_debounce raw num_rows changed now.
Definition eager_pk_call raw changed now := sym_eager_pk_debounce raw num_rows changed now.
Definition eager_pr_call raw changed now := sym_eager_pr_debounce raw num_rows changed now.
Definition asym_call raw changed now := asym_eager_defer_pk_debounce raw num_rows changed now.

Lemma set_flags_id {C} (s : counters_state C) :
  matrix_need_update s = false -> clear_need_matrix s = s.
Proof. destruct s. cbn. by intros ->. Qed.

Lemma defer_call_eager raw changed now s :
  matrix_need_update s = false ->
  pk_call raw changed now s =
  eager_call (update_pass (KeySemantics := defer_semantics num_rows) raw)
    (transfer_pass (KeySemantics := defer_semantics num_rows) raw) changed now s.
Proof.
  intros Hm. unfold pk_call, sym_defer_pk_debounce, eager_call. cbv zeta. cbn [update_pass transfer_pass defer_semantics].
  assert (forall e s1, matrix_need_update s1 = false ->
    matrix_need_update (sym_defer_pk_update raw num_rows e s1) = false) as Hu.
  { intros e s1 Hm1. unfold sym_defer_pk_update.
    rewrite (fold_frame _ matrix_need_update); [exact Hm1|].
    intros s2 rc. unfold sym_defer_pk_expire. by repeat case_match. }
  assert (count_down (fun e s => sym_defer_pk_update raw num_rows e (clear_need_matrix s)) now (clear_changed s) =
    count_down (sym_defer_pk_update raw num_rows) now (clear_changed s) /\
    matrix_need_update (count_down (sym_defer_pk_update raw num_rows) now (clear_changed s)) = false) as [-> Hm1].
  { unfold count_down. cbv zeta. destruct (counters_need_update _); [|done].
    destruct (0 <? _); [|done]. by rewrite set_flags_id by done; auto. }
  rewrite Hm1, orb_false_r. destruct changed; [|done].
  rewrite set_flags_id; [done|]. by destruct (counters_need_update _).
Qed.

Definition deferred0 : timed bool := {| value := false; since := None |}.

Lemma key_bit_released rc : key_bit (replicate num_rows 0) rc = false.
Proof.
  unfold key_bit, row_at. destruct (_ !! _) eqn:E; [|apply Z.bits_0]. cbn.
  apply lookup_replicate in E as [-> _]. apply Z.bits_0.
Qed.
Lemma row_at_replicate n i : row_at (replicate n 0) i = 0.
Proof. unfold row_at. destruct (_ !! _) eqn:E; [|done]. by apply lookup_replicate in E as [-> _]. Qed.

Lemma defer_init_simulates T :
  simulates (KeySemantics0 := defer_semantics num_rows) (cell_rel := defer_rel) (idle := fun v => v.1 = 0)
    T (replicate num_rows 0) (sym_defer_pk_init num_rows) (fun _ => deferred0).
Proof.
  split; cbn; try done.
  - split; apply length_replicate.
  - intros rc _. unfold defer_rel, key_view, sees_bit. cbn.
    rewrite key_bit_released. by unfold counter_at; cbn; rewrite row_at_replicate.
  - intros rc _ _. apply row_at_replicate.
Qed.

Lemma eager_pk_init_simulates T :
  simulates (KeySemantics0 := eager_pk_semantics num_rows) (cell_rel := eager_rel) (idle := fun v => v.1 = 0)
    T (replicate num_rows 0) (sym_eager_pk_init num_rows) (fun _ => deferred0).
Proof.
  split; cbn; try done.
  - split; apply length_replicate.
  - intros rc _. unfold eager_rel, key_view, sees_bit. cbn.
    rewrite key_bit_released. by unfold counter_at; cbn; rewrite row_at_replicate.
  - intros rc _ _. apply row_at_replicate.
Qed.

Definition row0 : timed Z := {| value := 0; since := None |}.

Lemma eager_pr_init_simulates T :
  simulates (KeySemantics0 := eager_pr_semantics num_rows) (cell_rel := eager_rel) (idle := fun v => v.1 = 0)
    T (replicate num_rows 0) (sym_eager_pr_init num_rows) (fun _ => row0).
Proof.
  split; cbn; try done.
  - split; apply length_replicate.
  - intros r _. unfold eager_rel, row_view. cbn.
    by unfold counter_at; cbn; rewrite !row_at_replicate.
  - intros r _ _. apply row_at_replicate.
Qed.

Definition asym0 : asym_key := {| down := false; phase := Settled |}.

Lemma asym_init_simulates garbage T :
  length garbage = (num_rows * COLS)%nat ->
  simulates (KeySemantics0 := asym_semantics num_rows) (cell_rel := asym_rel) (idle := fun v => a_time v.1 = 0)
    T (replicate num_rows 0) (asym_init garbage num_rows) (fun _ => asym0).
Proof.
  intros Hg. assert (forall i, a_time (asym_at (asym_init garbage num_rows) i) = 0) as Hzero.
  { intros i. unfold asym_at. cbn. rewrite list_lookup_fmap. by destruct (garbage !! i). }
  split; cbn; try done.
  - split; cbn; [by rewrite length_fmap|apply length_replicate].
  - intros rc _. unfold asym_rel, asym_view, sees_bit. cbn. by rewrite key_bit_released.
Qed.

(** What a run of scans makes of one key. *)
Definition deferred_key (scans : list scan) (rc : nat * nat) : bool :=
  value (foldl (fun a x => defer_step DEBOUNCE x.1 (key_bit x.2 rc) a) deferred0 scans).
Definition eager_key (scans : list scan) (rc : nat * nat) : bool :=
  value (foldl (fun a x => eager_step DEBOUNCE x.1 (key_bit x.2 rc) a) deferred0 scans).
Definition eager_row (scans : list scan) (r : nat) : Z :=
  value (foldl (fun a x => eager_step DEBOUNCE x.1 (row_at x.2 r) a) row0 scans).
Definition asym_key_of (scans : list scan) (rc : nat * nat) : bool :=
  down (foldl (fun a x => asym_step ASYM_DEBOUNCE x.1 (key_bit x.2 rc) a) asym0 scans).

(** The matrix shows [key] for every key of [ks], and the result of the last
    call says whether any of them changed. *)
Definition reports {I B C} `{!EqDecision B} (ks : list I) (bit_of : list Z -> I -> B)
    (key : list scan -> I -> B) (scans : list scan) (x : scan) (s : counters_state C) : Prop :=
  (forall i, i ∈ ks -> bit_of (cooked s) i = key (scans ++ [x]) i) /\
  cooked_changed s =
    existsb (fun i => negb (bool_decide (key (scans ++ [x]) i = key scans i))) ks.

Lemma sym_defer_pk_reports T scans x :
  timely TIMER_BITS T (scans ++ [x]) ->
  reports (cells num_rows COLS) key_bit deferred_key scans x
    (run num_rows pk_call (sym_defer_pk_init num_rows) (scans ++ [x])).
Proof.
  intros Ht.
  exact (run_refines (PassLaws0 := defer_laws num_rows)
    (KeyLaws0 := defer_key_laws num_rows debounce_on) _ defer_call_eager _ _ _ _ _ _ (defer_init_simulates T) Ht).
Qed.

Lemma sym_eager_pk_reports T scans x :
  timely TIMER_BITS T (scans ++ [x]) ->
  reports (cells num_rows COLS) key_bit eager_key scans x
    (run num_rows eager_pk_call (sym_eager_pk_init num_rows) (scans ++ [x])).
Proof.
  intros Ht.
  exact (run_refines (PassLaws0 := eager_pk_laws num_rows)
    (KeyLaws0 := eager_key_laws num_rows debounce_on _ _ _ _ _ _) eager_pk_call (fun _ _ _ _ _ => eq_refl) _ _ _ _ _ _ (eager_pk_init_simulates T) Ht).
Qed.

Lemma sym_eager_pr_reports T scans x :
  timely TIMER_BITS T (scans ++ [x]) ->
  reports (seq 0 num_rows) row_at eager_row scans x
    (run num_rows eager_pr_call (sym_eager_pr_init num_rows) (scans ++ [x])).
Proof.
  intros Ht.
  exact (run_refines (PassLaws0 := eager_pr_laws num_rows)
    (KeyLaws0 := eager_key_laws num_rows debounce_on _ _ _ _ _ _) eager_pr_call (fun _ _ _ _ _ => eq_refl) _ _ _ _ _ _ (eager_pr_init_simulates T) Ht).
Qed.

Lemma asym_reports garbage T scans x :
  length garbage = (num_rows * COLS)%nat -> timely TIMER_BITS T (scans ++ [x]) ->
  reports (cells num_rows COLS) key_bit asym_key_of scans x
    (run num_rows asym_call (asym_init garbage num_rows) (scans ++ [x])).
Proof.
  intros Hg Ht.
  exact (run_refines (PassLaws0 := asym_laws num_rows)
    (KeyLaws0 := asym_key_laws num_rows debounce_on) asym_call (fun _ _ _ _ _ => eq_refl) _ _ _ _ _ _ (asym_init_simulates garbage T Hg) Ht).
Qed.
End algorithms.
End runs.

(** ** The algorithms that start over at every change: sym_defer_g, sym_defer_pr

    The whole matrix, or each row, waits until it has not changed at all for
    the delay. *)

(** [heard]: what the last call read; [quiet]: since when, if it is still to
    be reported. *)
Record restart (B : Type) := { shown : B; heard : B; quiet : option Z }.
Arguments shown {B}.
Arguments heard {B}.
Arguments quiet {B}.

Definition restart_step {B} `{!EqDecision B} (D T : Z) (b : B) (a : restart B) : restart B :=
  if decide (b = heard a) then
    match quiet a with
    | Some t0 => if D <=? T - t0 then {| shown := b; heard := b; quiet := None |} else a
    | None => a
    end
  else {| shown := shown a; heard := b; quiet := Some T |}.

Section restart.
Context `{!Config} `{!DebounceConfig} (num_rows : nat).

(** ** sym_defer_g.c *)

(** The result of the last call and the state. *)
Definition g_call (raw : list Z) (changed : bool) (now : Z) (s : bool * global_state)
  : bool * global_state := sym_defer_g_debounce raw changed now s.2.

Definition g_init : bool * global_state :=
  (false, {| debouncing := false; debouncing_time := 0; g_cooked := replicate num_rows 0 |}).

Definition matrix0 : restart (list Z) :=
  {| shown := replicate num_rows 0; heard := replicate num_rows 0; quiet := None |}.

Definition global_matrix (scans : list scan) : restart (list Z) :=
  foldl (fun a x => restart_step DEBOUNCE x.1 x.2 a) matrix0 scans.

Definition g_rel (T : Z) (p : list Z * (bool * global_state)) (a : restart (list Z)) : Prop :=
  p.1 = heard a /\ g_cooked p.2.2 = shown a /\
  match quiet a with
  | None => debouncing p.2.2 = false
  | Some t0 => debouncing p.2.2 = true /\ debouncing_time p.2.2 = tick t0 /\ t0 <= T /\ T - t0 < DEBOUNCE
  end.

Lemma g_step T p a x :
  0 < DEBOUNCE <= 255 -> g_rel T p a -> T <= x.1 <= T + 2 ^ TIMER_BITS - 256 ->
  let a' := restart_step DEBOUNCE x.1 x.2 a in
  let p' := scan_step g_call p x in
  g_rel x.1 p' a' /\ p'.2.1 = negb (bool_decide (shown a' = shown a)).
Proof.
  intros HD (E1 & E2 & Hq) HT. destruct p as [prev [r s]], x as [T' raw], a as [sh he q]. cbn in *. subst prev.
  unfold restart_step, g_rel, sym_defer_g_debounce. cbn.
  destruct (decide (raw = he)) as [->|Hne]; cbn.
  - rewrite bool_decide_true by done. cbn. destruct q as [t0|]; cbn in *.
    + destruct Hq as (Hd & Ht & ? & ?). rewrite Hd, Ht, timer_diff by lia. cbn.
      destruct (Z.leb_spec DEBOUNCE (T' - t0)); cbn.
      * rewrite E2. case_bool_decide as Eb; cbn; [subst|]; split_and!; try done.
        -- by rewrite bool_decide_true.
        -- rewrite bool_decide_false by congruence. done.
      * rewrite bool_decide_true by done. split_and!; (done || lia).
    + rewrite Hq. cbn. rewrite bool_decide_true by done. by split_and!.
  - rewrite bool_decide_false by done. cbn. rewrite bool_decide_true by done.
    split_and!; (done || lia).
Qed.

Lemma g_run T scans :
  0 < DEBOUNCE_MS -> timely TIMER_BITS T scans ->
  g_rel (end_time T scans) (foldl (scan_step g_call) (replicate num_rows 0, g_init) scans)
    (global_matrix scans).
Proof.
  intros HD%debounce_range. induction scans as [|x scans IH] using rev_ind; [done|].
  intros [Ht [Hx _]]%timely_app. unfold global_matrix. rewrite !foldl_app, end_time_app.
  cbn [foldl end_time]. by apply (g_step _ _ _ _ HD (IH Ht)).
Qed.

(** ** sym_defer_pr.c *)

(** The delay as the byte holds it. *)
Definition PR_DEBOUNCE : Z := u8 DEBOUNCE_MS.

Definition pr_dom (r : nat) : Prop := (r < num_rows)%nat.
Definition pr_sized (s : countdown_state) : Prop :=
  length (countdowns s) = num_rows /\ length (last_raw s) = num_rows /\ length (pr_cooked s) = num_rows.
Definition pr_view (r : nat) (s : countdown_state) : Z * Z * Z :=
  (row_at (countdowns s) r, row_at (last_raw s) r, row_at (pr_cooked s) r).

Definition pr_row1 (e b : Z) (v : Z * Z * Z) : Z * Z * Z :=
  let '(n, l, o) := v in
  if negb (b =? l) then (PR_DEBOUNCE, b, o)
  else if e <? n then (u8 (n - e), l, o)
  else if nz n then (0, l, b) else v.
Definition pr_flips (e b : Z) (v : Z * Z * Z) : bool :=
  let '(n, l, o) := v in (b =? l) && negb (e <? n) && nz n && negb (bool_decide (b = o)).

Lemma pr_row_local raw e :
  local pr_dom pr_sized pr_view (sym_defer_pr_row raw e) (fun r => pr_row1 e (row_at raw r)).
Proof.
  split; unfold sym_defer_pr_row, pr_view, pr_row1, pr_sized, pr_dom.
  - intros s r (H1 & H2 & H3) Hr. repeat case_match; cbn; rewrite ?length_insert; auto.
  - intros s r (H1 & H2 & H3) Hr. repeat case_match; cbn; rewrite ?row_at_put by lia;
      rewrite ?decide_True by done; done.
  - intros s r r' (H1 & H2 & H3) Hr Hr' Hne. repeat case_match; cbn; rewrite ?row_at_put by lia;
      rewrite ?decide_False by done; done.
Qed.

Lemma pr_row_changed raw e s r :
  pr_changed (sym_defer_pr_row raw e s r) = pr_changed s || pr_flips e (row_at raw r) (pr_view r s).
Proof.
  unfold sym_defer_pr_row, pr_flips, pr_view.
  destruct (_ =? _) eqn:E; cbn; [|by rewrite orb_false_r].
  destruct (e <? _); cbn; [by rewrite orb_false_r|].
  destruct (nz (row_at (countdowns s) r)); cbn; [|by rewrite orb_false_r].
  f_equal. apply eq_true_iff_eq. rewrite nz_true, Z.lxor_eq_0_iff, negb_true_iff, bool_decide_eq_false.
  split; congruence.
Qed.

Definition pr_rel (T : Z) (v : Z * Z * Z) (a : restart Z) : Prop :=
  let '(n, l, o) := v in
  l = heard a /\ o = shown a /\
  match quiet a with
  | None => n = 0
  | Some t0 => t0 <= T /\ n = PR_DEBOUNCE - (T - t0) /\ 0 < n
  end.

Lemma pr_row_rel T T' b v a :
  0 < PR_DEBOUNCE -> pr_rel T v a -> T <= T' ->
  let a' := restart_step PR_DEBOUNCE T' b a in
  let e := clip (T' - T) in
  pr_rel T' (pr_row1 e b v) a' /\ pr_flips e b v = negb (bool_decide (shown a' = shown a)).
Proof.
  intros HD Hrel HT a' e. destruct v as [[n l] o], a as [sh he q]. unfold pr_rel in Hrel. cbn in Hrel.
  destruct Hrel as (-> & -> & Hq). assert (PR_DEBOUNCE < 2 ^ 8) by (unfold PR_DEBOUNCE; by apply wrap_range).
  pose proof (clip_spec (T' - T)) as Hc. fold e in Hc.
  subst a'. unfold pr_row1, pr_flips, restart_step. cbn.
  destruct (decide (b = he)) as [->|Hne]; cbn.
  - rewrite Z.eqb_refl. cbn. destruct q as [t0|]; cbn.
    + destruct Hq as (Ht & Hn & Hpos). rewrite (proj2 (nz_true n)) by lia.
      destruct (Z.ltb_spec e n), (Z.leb_spec PR_DEBOUNCE (T' - t0)); try lia; cbn.
      * rewrite wrap_small by lia. rewrite bool_decide_true by done. split_and!; (done || lia).
      * done.
    + subst n. rewrite (proj2 (Z.ltb_ge e 0)) by lia. cbn. rewrite bool_decide_true by done. done.
  - rewrite (proj2 (Z.eqb_neq _ _)) by done. cbn. rewrite bool_decide_true by done.
    split_and!; (done || lia).
Qed.

Definition pr_call (raw : list Z) (changed : bool) (now : Z) (s : countdown_state) : countdown_state :=
  sym_defer_pr_debounce raw num_rows now s.

Definition restart0 : restart Z := {| shown := 0; heard := 0; quiet := None |}.
Definition restart_row (scans : list scan) (r : nat) : restart Z :=
  foldl (fun a x => restart_step PR_DEBOUNCE x.1 (row_at x.2 r) a) restart0 scans.

(** A run of scans; the timer of this file always has 16 bits. *)
Definition pr_run (T0 : Z) (scans : list scan) : countdown_state :=
  foldl (fun s x => pr_call x.2 true (u16 x.1) s) (sym_defer_pr_init num_rows (u16 T0)) scans.

Definition pr_sim (T : Z) (s : countdown_state) (a : nat -> restart Z) : Prop :=
  pr_sized s /\ pr_last_time s = u16 T /\ forall r, (r < num_rows)%nat -> pr_rel T (pr_view r s) (a r).

Lemma pr_rows_dom : Forall pr_dom (seq 0 num_rows).
Proof. apply Forall_forall. intros r [_ Hr]%elem_of_seq. exact Hr. Qed.

Lemma pr_call_sim T s a x changed :
  0 < PR_DEBOUNCE -> pr_sim T s a -> T <= x.1 <= T + 2 ^ 16 - 256 ->
  let a' r := restart_step PR_DEBOUNCE x.1 (row_at x.2 r) (a r) in
  let s' := pr_call x.2 changed (u16 x.1) s in
  pr_sim x.1 s' a' /\
  pr_changed s' = existsb (fun r => negb (bool_decide (shown (a' r) = shown (a r)))) (seq 0 num_rows).
Proof.
  intros HD (Hs & Ht & Hrel) HT a' s'. destruct x as [T' raw]. cbn in *.
  subst s'. unfold pr_call, sym_defer_pr_debounce.
  assert (TIMER_DIFF_16 (u16 T') (pr_last_time s) = T' - T) as ->.
  { rewrite Ht. unfold TIMER_DIFF_16, wrap. rewrite <-Zminus_mod. apply Z.mod_small. lia. }
  fold (clip (T' - T)). set (s0 := {| pr_last_time := _ |}).
  assert (pr_sized s0) as Hs0 by exact Hs.
  destruct (fold_local pr_dom pr_sized pr_view _ _ (pr_row_local raw (clip (T' - T))) (seq 0 num_rows) s0
    (NoDup_seq _ _) pr_rows_dom Hs0) as [Hwf Hview].
  split; [split; [done|split]|].
  - rewrite (fold_frame _ pr_last_time); [done|]. intros s1 r. unfold sym_defer_pr_row. by repeat case_match.
  - intros r Hr. rewrite Hview by done. rewrite decide_True by (apply elem_of_seq; lia).
    apply (pr_row_rel T T'); [done|by apply Hrel|lia].
  - rewrite (fold_flag pr_dom pr_sized pr_view _ _ (pr_row_local raw (clip (T' - T))) pr_changed
      (fun r => pr_flips (clip (T' - T)) (row_at raw r))); try done; [|by intros; apply pr_row_changed|
      apply NoDup_seq|apply pr_rows_dom].
    cbn [pr_changed s0 orb]. apply existsb_ext. intros r [_ Hr]%elem_of_seq.
    exact (proj2 (pr_row_rel T T' _ (pr_view r s0) (a r) HD (Hrel r Hr) (proj1 HT))).
Qed.

Lemma pr_run_sim T scans :
  0 < PR_DEBOUNCE -> timely 16 T scans ->
  pr_sim (end_time T scans) (pr_run T scans) (restart_row scans).
Proof.
  intros HD. induction scans as [|x scans IH] using rev_ind.
  - intros _. split; [split_and!; apply length_replicate|]. split; [done|].
    intros r Hr. unfold pr_view. cbn. by rewrite !row_at_replicate.
  - intros [Ht [Hx _]]%timely_app. unfold pr_run. rewrite foldl_app, end_time_app. cbn [foldl end_time].
    destruct (pr_call_sim _ _ _ x true HD (IH Ht) Hx) as [(Hs & Hl & Hrel) _].
    split; [done|]. split; [done|]. intros r Hr. unfold restart_row. rewrite foldl_app. by apply Hrel.
Qed.
End restart.
