(* ===== verification/DebounceTheorems.v ===== *)
(** * What debouncing guarantees

    Liveness: what stays put for the delay is reported.  Safety: what is
    reported by a deferring algorithm has stayed put for the delay. *)

From S2P Require Import Prelude.
From S2P Require Import State.
From S2P Require Import Debounce.
From S2P Require Import DebounceLoops.
From S2P Require Import DebounceSim.
From S2P Require Import DebounceSpec.

(** The scans end with a stretch, from time [t0] on, in which [f] of the raw
    rows was [b]. *)
Definition stable_since {B} (f : list Z -> B) (b : B) (t0 : Z) (scans : list scan) : Prop :=
  exists pre y suf, scans = pre ++ y :: suf /\ y.1 = t0 /\ Forall (fun x => f x.2 = b) (y :: suf).

Lemma stable_snoc {B} f (b : B) t0 l x : stable_since f b t0 l -> f x.2 = b -> stable_since f b t0 (l ++ [x]).
Proof.
  intros (pre & y & suf & -> & Hy & Hall) Hx. exists pre, y, (suf ++ [x]).
  split_and!; [by rewrite <-app_assoc|done|]. rewrite app_comm_cons. by apply Forall_app_2, Forall_singleton.
Qed.

Lemma stable_now {B} f (b : B) l x : f x.2 = b -> stable_since f b x.1 (l ++ [x]).
Proof. intros Hx. exists l, x, []. split_and!; [done..|]. by apply Forall_singleton. Qed.

(** ** Automata that settle *)

Section settle.
Context `{!Config} `{!DebounceConfig} {A B : Type} (w D : Z).
Variables (step : Z -> B -> A -> A) (shows : A -> B).
Variables (Inv : Z -> A -> Prop) (Settling : B -> Z -> Z -> A -> Prop).

Record settling : Prop := {
  settling_inv T T' b a : Inv T a -> T <= T' -> Inv T' (step T' b a);
  settling_start T T' b a : Inv T a -> T <= T' -> Settling b T' T' (step T' b a);
  settling_step T T' t0 b a : Settling b t0 T a -> T <= T' -> Settling b t0 T' (step T' b a);
  settling_done T t0 b a : Settling b t0 T a -> t0 + D <= T -> shows a = b;
}.

Lemma settles f b t0 T a scans :
  settling -> Inv T a -> timely w T scans -> stable_since f b t0 scans -> t0 + D <= end_time T scans ->
  shows (foldl (fun a x => step x.1 (f x.2) a) a scans) = b.
Proof.
  intros Hs Ha Ht (pre & y & suf & -> & <- & Hall) HD.
  apply timely_app in Ht as [Hpre [Hy Hsuf]]. rewrite end_time_app in HD. cbn in HD.
  rewrite foldl_app. cbn [foldl]. apply Forall_cons in Hall as [Hb Hall].
  assert (Inv (end_time T pre) (foldl (fun a x => step x.1 (f x.2) a) a pre)) as Hinv.
  { clear -Hs Ha Hpre. revert T a Ha Hpre. induction pre as [|x pre IH]; intros T a Ha; [done|].
    intros [Hx Hpre]. apply IH; [|done]. eapply settling_inv; [done|done|lia]. }
  rewrite Hb. pose proof (settling_start Hs _ y.1 b _ Hinv (proj1 Hy)) as Hset.
  revert Hset HD Hsuf. generalize (step y.1 b (foldl (fun a x => step x.1 (f x.2) a) a pre)).
  generalize y.1 at 2 4 5. clear Hinv Hy Hpre.
  induction Hall as [|x suf Hx Hall IH]; intros T1 a1 Hset HD Hsuf; cbn in *.
  - by eapply settling_done.
  - destruct Hsuf as [HT Hsuf]. rewrite Hx. apply (IH x.1); [|done|done]. eapply settling_step; [done|done|lia].
Qed.
End settle.

Section automata.
Context {B : Type} `{!EqDecision B} (D : Z).

Definition since_before (T : Z) (s : option Z) : Prop := forall t0, s = Some t0 -> t0 <= T.
Definition waits (b : B) (t1 T : Z) (shown : B) (s : option Z) : Prop :=
  shown = b \/ exists t0, s = Some t0 /\ t0 <= t1 /\ T - t0 < D.

Lemma defer_settling :
  0 < D ->
  settling D (defer_step (B := B) D) value (fun T a => since_before T (since a))
    (fun b t1 T a => waits b t1 T (value a) (since a)).
Proof.
  intros HD. unfold defer_step, since_before, waits. split.
  - intros T T' b [v [t0|]] Ha HT t; cbn in *; repeat case_match; cbn; intros [= <-];
      try (specialize (Ha t0 eq_refl)); lia.
  - intros T T' b [v [t0|]] Ha HT; cbn in *; case_decide; subst; cbn; auto.
    + specialize (Ha t0 eq_refl). destruct (Z.leb_spec D (T' - t0)); cbn; [by left|].
      right. exists t0. split; [done|lia].
    + right. exists T'. split; [done|lia].
  - intros T T' t1 b [v s] Hw HT; cbn in *. case_decide; subst; cbn; auto.
    destruct Hw as [->|(t0 & -> & Ht & HD')]; [done|].
    destruct (Z.leb_spec D (T' - t0)); cbn; [by left|]. right. exists t0. split; [done|lia].
  - intros T t1 b [v s] [Hv|(t0 & _ & Ht & HD')] Hlast; [done|lia].
Qed.

Lemma eager_settling :
  0 < D ->
  settling D (eager_step (B := B) D) value (fun T a => since_before T (since a))
    (fun b t1 T a => waits b t1 T (value a) (since a)).
Proof.
  intros HD. unfold eager_step, unlocked, since_before, waits. split.
  - intros T T' b [v [t0|]] Ha HT t; cbn in *; repeat case_match; cbn; intros [= <-];
      try (specialize (Ha t0 eq_refl)); simplify_eq; lia.
  - intros T T' b [v [t0|]] Ha HT; cbn in *; case_decide; subst; cbn; auto.
    specialize (Ha t0 eq_refl). destruct (Z.leb_spec D (T' - t0)); cbn; [by left|].
    right. exists t0. split; [done|lia].
  - intros T T' t1 b [v s] Hw HT; cbn in *. case_decide; subst; cbn; auto.
    destruct Hw as [->|(t0 & -> & Ht & HD')]; [done|].
    destruct (Z.leb_spec D (T' - t0)); cbn; [by left|]. right. exists t0. split; [done|lia].
  - intros T t1 b [v s] [Hv|(t0 & _ & Ht & HD')] Hlast; [done|lia].
Qed.

Lemma restart_settling :
  0 < D ->
  settling D (restart_step (B := B) D) shown
    (fun T a => since_before T (quiet a) /\ (quiet a = None -> shown a = heard a))
    (fun b t1 T a => heard a = b /\ (quiet a = None -> shown a = b) /\
       forall t0, quiet a = Some t0 -> t0 <= t1 /\ (T - t0 < D)).
Proof.
  intros HD. unfold restart_step, since_before. split.
  - intros T T' b [s h [t0|]] [Ha Hn] HT; cbn in *; case_decide; cbn; repeat case_match; cbn; split;
      intros; simplify_eq; try (specialize (Ha _ eq_refl)); auto; lia.
  - intros T T' b [s h [t0|]] [Ha Hn] HT; cbn in *; case_decide; cbn; subst; repeat case_match; cbn;
      split_and!; intros; simplify_eq; try (specialize (Ha _ eq_refl)); try done; auto;
      repeat match goal with Hz : (_ <=? _) = false |- _ => apply Z.leb_gt in Hz end; try lia.
  - intros T T' t1 b [s h [t0|]] (E & Hn & Hq) HT; cbn in *; subst b; rewrite decide_True by done; cbn;
      [|split_and!; [done|auto|done]].
    destruct (Hq t0 eq_refl). destruct (Z.leb_spec D (T' - t0)); cbn; [by split_and!|].
    split_and!; [done|done|]. intros t [= <-]. lia.
  - intros T t1 b [s h [t0|]] (E & Hn & Hq) Hlast; cbn in *; [|auto].
    destruct (Hq t0 eq_refl). lia.
Qed.

(** ** Automata that filter *)

Lemma defer_waits_since (f : list Z -> B) a0 (scans : list scan) :
  since a0 = None ->
  let a := foldl (fun a x => defer_step D x.1 (f x.2) a) a0 scans in
  forall t0, since a = Some t0 -> exists pre y suf, scans = pre ++ y :: suf /\ y.1 = t0 /\
    Forall (fun x => f x.2 <> value a) (y :: suf).
Proof.
  intros Ha0. induction scans as [|x scans IH] using rev_ind; [intros a t0 E; cbn in E; congruence|].
  cbv zeta in *. rewrite foldl_app. cbn [foldl].
  set (a := foldl (fun a x => defer_step D x.1 (f x.2) a) a0 scans) in *. intros t0. unfold defer_step.
  destruct (decide (f x.2 = value a)) as [E|Hne]; cbn; [done|].
  destruct (since a) as [t1|] eqn:Es.
  - destruct (D <=? _) eqn:Ed; cbn; [done|]. rewrite Es. intros [= <-].
    destruct (IH t1 eq_refl) as (pre & y & suf & -> & Hy & Hall).
    exists pre, y, (suf ++ [x]). split_and!; [by rewrite <-app_assoc|done|].
    rewrite app_comm_cons. by apply Forall_app_2, Forall_singleton.
  - cbn. intros [= <-]. exists scans, x, []. split_and!; [done..|]. by apply Forall_singleton.
Qed.
End automata.

Section theorems.
Context `{!Config} `{!DebounceConfig} (num_rows : nat).

Lemma last_call (scans : list scan) : scans <> [] -> exists l x, scans = l ++ [x].
Proof. intros Hne. destruct (exists_last Hne) as (l & x & ->). eauto. Qed.

(** C13: each key of the per-key algorithms, and each row of the per-row one,
    follows its own automaton, whatever the other keys do and however often
    the matrix is scanned: deferred, eager, or eager down and deferred up; and
    [debounce] returns whether the matrix changed. *)
Theorem per_key_debounce_refines T scans x garbage :
  0 < DEBOUNCE_MS -> length garbage = (num_rows * COLS)%nat -> timely TIMER_BITS T (scans ++ [x]) ->
  reports (cells num_rows COLS) key_bit deferred_key scans x
    (run num_rows (pk_call num_rows) (sym_defer_pk_init num_rows) (scans ++ [x])) /\
  reports (cells num_rows COLS) key_bit eager_key scans x
    (run num_rows (eager_pk_call num_rows) (sym_eager_pk_init num_rows) (scans ++ [x])) /\
  reports (seq 0 num_rows) row_at eager_row scans x
    (run num_rows (eager_pr_call num_rows) (sym_eager_pr_init num_rows) (scans ++ [x])) /\
  reports (cells num_rows COLS) key_bit asym_key_of scans x
    (run num_rows (asym_call num_rows) (asym_init garbage num_rows) (scans ++ [x])).
Proof.
  intros HD Hg Ht. split_and!.
  - by apply (sym_defer_pk_reports _ HD T).
  - by apply (sym_eager_pk_reports _ HD T).
  - by apply (sym_eager_pr_reports _ HD T).
  - by apply (asym_reports _ HD garbage T).
Qed.

Lemma dom_cells rc : dom num_rows rc -> rc ∈ cells num_rows COLS.
Proof. intros Hrc. by apply elem_of_cells. Qed.

Lemma stable_nonempty {B} f (b : B) t0 scans : stable_since f b t0 scans -> exists l x, scans = l ++ [x].
Proof. intros (pre & y & suf & -> & _). apply last_call. by destruct pre. Qed.

Lemma settled_key T t0 scans rc b :
  0 < DEBOUNCE_MS -> dom num_rows rc -> timely TIMER_BITS T scans ->
  stable_since (fun m => key_bit m rc) b t0 scans -> t0 + DEBOUNCE <= end_time T scans ->
  key_bit (cooked (run num_rows (pk_call num_rows) (sym_defer_pk_init num_rows) scans)) rc = b /\
  key_bit (cooked (run num_rows (eager_pk_call num_rows) (sym_eager_pk_init num_rows) scans)) rc = b.
Proof.
  intros Hon Hrc%dom_cells Ht Hs Hlast. pose proof (debounce_range Hon) as HD.
  assert (deferred_key scans rc = b /\ eager_key scans rc = b) as [<- E].
  { split.
    - by apply (settles TIMER_BITS DEBOUNCE (defer_step DEBOUNCE) value _ _ (fun m => key_bit m rc) b t0 T
        deferred0 scans (defer_settling DEBOUNCE (proj1 HD))).
    - by apply (settles TIMER_BITS DEBOUNCE (eager_step DEBOUNCE) value _ _ (fun m => key_bit m rc) b t0 T
        deferred0 scans (eager_settling DEBOUNCE (proj1 HD))). }
  destruct (stable_nonempty _ _ _ _ Hs) as (l & x & ->).
  split; [|rewrite <-E].
  - by apply (sym_defer_pk_reports _ Hon T l x Ht).
  - by apply (sym_eager_pk_reports _ Hon T l x Ht).
Qed.

(** C11: what has not moved for the delay is reported as it is: a key with
    [sym_defer_pk] and [sym_eager_pk], a row with [sym_defer_pr], the whole
    matrix with [sym_defer_g].  (The fifth symmetric algorithm, [sym_eager_pr],
    is not covered.) *)
Theorem stable_key_is_reported T t0 scans :
  0 < DEBOUNCE_MS ->
  (forall rc b, dom num_rows rc -> timely TIMER_BITS T scans ->
     stable_since (fun m => key_bit m rc) b t0 scans -> t0 + DEBOUNCE <= end_time T scans ->
     key_bit (cooked (run num_rows (pk_call num_rows) (sym_defer_pk_init num_rows) scans)) rc = b /\
     key_bit (cooked (run num_rows (eager_pk_call num_rows) (sym_eager_pk_init num_rows) scans)) rc = b) /\
  (forall r b, (r < num_rows)%nat -> 0 < PR_DEBOUNCE -> timely 16 T scans ->
     stable_since (fun m => row_at m r) b t0 scans -> t0 + PR_DEBOUNCE <= end_time T scans ->
     row_at (pr_cooked (pr_run num_rows T scans)) r = b) /\
  (forall m, timely TIMER_BITS T scans -> stable_since id m t0 scans -> t0 + DEBOUNCE <= end_time T scans ->
     g_cooked (run num_rows g_call (g_init num_rows) scans).2 = m).
Proof.
  intros Hon. pose proof (debounce_range Hon) as HD. split_and!.
  - intros rc b Hrc Ht Hs Hlast. by apply (settled_key T t0).
  - intros r b Hr Hpr Ht Hs Hlast.
    destruct (pr_run_sim num_rows T scans Hpr Ht) as (_ & _ & Hrel).
    destruct (Hrel r Hr) as (_ & -> & _).
    apply (settles 16 PR_DEBOUNCE (restart_step PR_DEBOUNCE) shown _ _ (fun m => row_at m r) b t0 T
      restart0 scans (restart_settling PR_DEBOUNCE Hpr)); [by split|done..].
  - intros m Ht Hs Hlast. destruct (g_run num_rows T scans Hon Ht) as (_ & E & _).
    unfold run. rewrite E.
    apply (settles TIMER_BITS DEBOUNCE (restart_step DEBOUNCE) shown _ _ id m t0 T
      (matrix0 num_rows) scans (restart_settling DEBOUNCE (proj1 HD))); [by split|done..].
Qed.

(** C12: a key of [sym_defer_pk] changes only to a state that the raw matrix
    has shown at every scan for the whole delay: bounces shorter than it are
    never reported. *)
Theorem deferred_key_never_chatters T scans x rc :
  0 < DEBOUNCE_MS -> dom num_rows rc -> timely TIMER_BITS T (scans ++ [x]) ->
  let reported l := key_bit (cooked (run num_rows (pk_call num_rows) (sym_defer_pk_init num_rows) l)) rc in
  reported (scans ++ [x]) <> reported scans ->
  exists t0, stable_since (fun m => key_bit m rc) (reported (scans ++ [x])) t0 (scans ++ [x]) /\
    DEBOUNCE <= x.1 - t0.
Proof.
  intros Hon Hrc%dom_cells Ht reported.
  assert (reported (scans ++ [x]) = deferred_key (scans ++ [x]) rc) as ->
    by (by apply (sym_defer_pk_reports _ Hon T scans x Ht)).
  assert (reported scans = deferred_key scans rc) as ->.
  { destruct (decide (scans = [])) as [->|Hne]; [by apply key_bit_released|].
    destruct (last_call scans Hne) as (l & y & ->). apply timely_app in Ht as [Ht _].
    by apply (sym_defer_pk_reports _ Hon T l y Ht). }
  unfold deferred_key. rewrite foldl_app. cbn [foldl].
  pose proof (defer_waits_since DEBOUNCE (fun m => key_bit m rc) deferred0 scans eq_refl) as Hw.
  cbv zeta in Hw. set (a := foldl (fun a x => defer_step DEBOUNCE x.1 (key_bit x.2 rc) a) deferred0 scans) in *. unfold defer_step.
  destruct (decide _) as [E|Hne]; [done|]. destruct (since a) as [t0|]; [|done].
  destruct (Z.leb_spec DEBOUNCE (x.1 - t0)); [|done]. cbn. intros _. exists t0. split; [|done].
  destruct (Hw t0 eq_refl) as (pre & y & suf & -> & Hy & Hall).
  apply stable_snoc; [|done]. exists pre, y, suf. split_and!; [done|done|].
  eapply Forall_impl; [exact Hall|]. intros z Hz. cbn in Hz.
  by destruct (key_bit z.2 rc), (key_bit x.2 rc), (value a).
Qed.

Definition silent (s : countdown_state) : Prop :=
  Forall (fun n => n = 0) (countdowns s) /\ pr_cooked s = replicate num_rows 0.

Lemma silent_row raw e s r :
  u8 DEBOUNCE_MS = 0 -> 0 <= e -> silent s -> silent (sym_defer_pr_row raw e s r).
Proof.
  intros Hz He [Hc Hk]. assert (row_at (countdowns s) r = 0) as E.
  { unfold row_at. destruct (_ !! r) eqn:El; [|done]. cbn. by eapply Forall_lookup_1 in Hc. }
  unfold sym_defer_pr_row. rewrite E, (proj2 (Z.ltb_ge _ _) He).
  destruct (negb _); [|done]. split; [|done]. by apply Forall_insert.
Qed.

(** Sym_defer_pr.c stores DEBOUNCE in a byte, unlike its siblings without a
    limit and without a case for no debouncing: with DEBOUNCE 0 or 256 no key
    is ever reported. *)
Theorem sym_defer_pr_never_reports T scans :
  u8 DEBOUNCE_MS = 0 -> pr_cooked (pr_run num_rows T scans) = replicate num_rows 0.
Proof.
  intros Hz. cut (silent (pr_run num_rows T scans)); [by intros [_ ?]|].
  induction scans as [|x scans IH] using rev_ind; [split; [by apply Forall_replicate|done]|].
  unfold pr_run. rewrite foldl_app. cbn [foldl]. fold (pr_run num_rows T scans).
  unfold pr_call, sym_defer_pr_debounce.
  set (e := if 255 <? _ then _ else _).
  assert (0 <= e) as He.
  { unfold e, TIMER_DIFF_16. pose proof (wrap_range 16 (u16 x.1 - pr_last_time (pr_run num_rows T scans))).
    destruct (_ <? _); lia. }
  set (s0 := {| pr_last_time := _ |}). assert (silent s0) as Hs by exact IH.
  clearbody s0. revert s0 Hs. generalize (seq 0 num_rows). intros l. clearbody e. clear IH.
  induction l as [|r l IHl]; intros s Hs; [done|]. cbn. by apply IHl, silent_row.
Qed.
End theorems.
