(* ===== verification/Eeprom.v ===== *)
(** * The EEPROM driver (drivers/eeprom/eeprom_driver.c)

    Bytes, words and blocks on top of the two operations a driver implements;
    what users of the EEPROM rely on ([EepromOk]); and the emulated EEPROM as
    such a driver (drivers/eeprom/eeprom_wear_leveling.c). *)

From S2P Require Import Prelude.
From S2P Require Import WearLeveling.
From S2P Require Import WearLevelingSpec.
From S2P Require Import WearLevelingRefine.

(** The driver: reading fills a buffer, of which it returns what it holds
    afterwards. *)
Class EepromDriver := {
  medium : Type;
  eeprom_read_block (buf : list Z) (addr : Z) : stm medium (list Z);
  eeprom_write_block (buf : list Z) (addr : Z) : stm medium unit;
}.

Section driver.
Context `{!EepromDriver}.
Abbreviation M := (stm medium).

(** [ret = 0; eeprom_read_block(&ret, addr, n); return ret;] *)
Definition read_int (n : nat) (addr : Z) : M Z :=
  ret ← eeprom_read_block (replicate n 0) addr; mret (le_int ret).
Definition eeprom_read_byte (addr : Z) : M Z := read_int 1 addr.
Definition eeprom_read_word (addr : Z) : M Z := read_int 2 addr.
Definition eeprom_read_dword (addr : Z) : M Z := read_int 4 addr.

Definition eeprom_write_byte (addr value : Z) : M unit := eeprom_write_block (le_bytes 1 value) addr.
Definition eeprom_write_word (addr value : Z) : M unit := eeprom_write_block (le_bytes 2 value) addr.
Definition eeprom_write_dword (addr value : Z) : M unit := eeprom_write_block (le_bytes 4 value) addr.

(** [read_buf] is not initialised; it is read over entirely. *)
Definition eeprom_update_block (buf : list Z) (addr : Z) : M unit :=
  read_buf ← eeprom_read_block (replicate (length buf) 0) addr;
  when (bool_decide (buf <> read_buf)) (eeprom_write_block buf addr).

Definition eeprom_update_byte (addr value : Z) : M unit :=
  orig ← eeprom_read_byte addr;
  when (negb (orig =? value)) (eeprom_write_byte addr value).
Definition eeprom_update_word (addr value : Z) : M unit :=
  orig ← eeprom_read_word addr;
  when (negb (orig =? value)) (eeprom_write_word addr value).
Definition eeprom_update_dword (addr value : Z) : M unit :=
  orig ← eeprom_read_dword addr;
  when (negb (orig =? value)) (eeprom_write_dword addr value).
End driver.

(** ** The contract

    [eeprom_bytes] is what the EEPROM of [size] bytes holds. *)
Class EepromOk `{!EepromDriver} (size : Z) := {
  eeprom_usable : medium -> Prop;
  eeprom_bytes : medium -> list Z;
  eeprom_size m : eeprom_usable m -> Z.of_nat (length (eeprom_bytes m)) = size;
  eeprom_is_bytes m : eeprom_usable m -> Forall is_byte (eeprom_bytes m);
  read_block_ok buf addr m :
    eeprom_usable m -> 0 <= addr -> addr + Z.of_nat (length buf) <= size ->
    eeprom_read_block buf addr m = (take (length buf) (drop (Z.to_nat addr) (eeprom_bytes m)), m);
  write_block_ok buf addr m :
    eeprom_usable m -> 0 <= addr -> addr + Z.of_nat (length buf) <= size -> Forall is_byte buf ->
    exists m', eeprom_write_block buf addr m = (tt, m') /\ eeprom_usable m' /\
      eeprom_bytes m' = list_inserts (Z.to_nat addr) buf (eeprom_bytes m);
}.

Section contract.
Context `{!EepromDriver} {size : Z} `{!EepromOk size}.

(** [computes m d a d']: on an EEPROM that holds [d], [m] returns [a] and
    leaves [d']. *)
Definition computes {A} (m : stm medium A) (d : list Z) (a : A) (d' : list Z) : Prop :=
  forall s, eeprom_usable s -> eeprom_bytes s = d ->
  exists s', m s = (a, s') /\ eeprom_usable s' /\ eeprom_bytes s' = d'.

Lemma computes_ret {A} (a : A) d : computes (mret a) d a d.
Proof. intros s Hs Hd. by exists s. Qed.
Lemma computes_skip d : computes skip d tt d.
Proof. apply computes_ret. Qed.
Lemma computes_bind {A B} (m : stm medium A) (k : A -> stm medium B) d a d1 b d2 :
  computes m d a d1 -> computes (k a) d1 b d2 -> computes (m ≫= k) d b d2.
Proof.
  intros Hm Hk s Hs Hd. destruct (Hm s Hs Hd) as (s1 & E1 & Hs1 & Hd1).
  destruct (Hk s1 Hs1 Hd1) as (s2 & E2 & Hs2 & Hd2). exists s2. by rewrite (run_bind _ _ _ _ _ E1).
Qed.

Definition is_content (d : list Z) : Prop := Z.of_nat (length d) = size /\ Forall is_byte d.
Lemma computes_content {A} (m : stm medium A) d a d' :
  (is_content d -> computes m d a d') -> computes m d a d'.
Proof.
  intros Hm s Hs Hd. apply Hm; [|done..]. rewrite <-Hd.
  split; [by apply eeprom_size|by apply eeprom_is_bytes].
Qed.

(** The byte at an address. *)
Definition byte_at (d : list Z) (addr : Z) : Z := default 0 (d !! Z.to_nat addr).
Definition in_eeprom (addr : Z) : Prop := 0 <= addr < size.

Lemma computes_read_byte d addr :
  in_eeprom addr -> computes (eeprom_read_byte addr) d (byte_at d addr) d.
Proof.
  intros Ha s Hs <-. exists s. unfold in_eeprom in Ha. unfold eeprom_read_byte, read_int.
  rewrite (run_bind _ _ _ _ _ (read_block_ok (replicate 1 0) addr s Hs ltac:(lia) ltac:(cbn; lia))).
  split; [|done]. unfold mret, stm_ret. f_equal. pose proof (eeprom_size s Hs) as Hlen.
  unfold byte_at. cbn [length replicate].
  destruct (lookup_lt_is_Some_2 (eeprom_bytes s) (Z.to_nat addr)) as [b Hb]; [lia|].
  rewrite Hb, (drop_S _ _ _ Hb). cbn [take le_int]. rewrite take_0. cbn [le_int from_option id]. lia.
Qed.

Lemma computes_update_byte d addr v :
  in_eeprom addr -> is_byte v -> computes (eeprom_update_byte addr v) d tt (<[Z.to_nat addr := v]> d).
Proof.
  intros Ha Hv. apply computes_content. intros [Hlen Hbytes]. unfold in_eeprom in Ha. unfold eeprom_update_byte.
  eapply computes_bind; [by apply computes_read_byte|].
  destruct (Z.eqb_spec (byte_at d addr) v) as [<-|_]; cbn [negb when].
  - unfold byte_at. destruct (lookup_lt_is_Some_2 d (Z.to_nat addr)) as [b Hb]; [lia|].
    rewrite Hb, list_insert_id by done. apply computes_skip.
  - intros s Hs <-. unfold eeprom_write_byte.
    destruct (write_block_ok (le_bytes 1 v) addr s Hs) as (s' & E & Hs' & Hd'); [lia|cbn; lia|apply le_bytes_is_byte|].
    exists s'. split; [done|]. split; [done|]. rewrite Hd'. cbn [le_bytes list_inserts]. by rewrite wrap_small.
Qed.
End contract.

(** [computes] through a function, statement by statement. *)
Ltac computes1 :=
  first
  [ apply computes_ret | apply computes_skip
  | eapply computes_bind; [computes1|]; cbv beta
  | eapply computes_read_byte | eapply computes_update_byte ].

(** ** The emulated EEPROM is an EEPROM *)

Section wear_leveling_driver.
Context `{!WearLevelingConfig, !BackingStore}.

Abbreviation W := (stm wear_leveling).

Definition eeprom_driver_init : W unit := wear_leveling_init;; mret tt.
Definition eeprom_driver_erase : W unit := wear_leveling_erase;; mret tt.

(** When the address is out of range the buffer is left as it was. *)
Definition wear_leveling_read_block (buf : list Z) (addr : Z) : W (list Z) :=
  r ← wear_leveling_read (u32 addr) (length buf);
  mret (if decide (r.1 = WEAR_LEVELING_FAILED) then buf else r.2).
Definition wear_leveling_write_block (buf : list Z) (addr : Z) : W unit :=
  wear_leveling_write (u32 addr) buf;; mret tt.

#[export] Instance wear_leveling_driver : EepromDriver := {|
  medium := wear_leveling;
  eeprom_read_block := wear_leveling_read_block;
  eeprom_write_block := wear_leveling_write_block;
|}.

Context `{!WearLevelingConfigOk, !BackingStoreOk}.

Lemma wear_leveling_read_block_ok buf addr w :
  0 <= addr -> addr + Z.of_nat (length buf) <= WEAR_LEVELING_LOGICAL_SIZE ->
  wear_leveling_read_block buf addr w = (take (length buf) (drop (Z.to_nat addr) (cache w)), w).
Proof using All.
  intros Ha Hle. pose proof logical_max. unfold wear_leveling_read_block. rewrite (wrap_small 32) by lia.
  by srun (read_run addr (length buf) w Ha Hle).
Qed.

Lemma wear_leveling_write_block_ok buf addr w :
  coherent w -> 0 <= addr -> addr + Z.of_nat (length buf) <= WEAR_LEVELING_LOGICAL_SIZE -> Forall is_byte buf ->
  exists w', wear_leveling_write_block buf addr w = (tt, w') /\ coherent w' /\
    cache w' = list_inserts (Z.to_nat addr) buf (cache w).
Proof using All.
  intros Hw Ha Hle Hb. pose proof logical_max. unfold wear_leveling_write_block. rewrite (wrap_small 32) by lia.
  destruct (write_run addr buf w Hw Ha Hle Hb) as (st & w' & E & _ & Hw' & Hc & _).
  exists w'. by srun E.
Qed.

Lemma coherent_is_cache w : coherent w -> is_cache (cache w).
Proof using All. intros [_ Hset]. by apply settled_is_cache. Qed.

#[export] Instance wear_leveling_eeprom : EepromOk WEAR_LEVELING_LOGICAL_SIZE.
Proof using All.
  refine {| eeprom_usable := coherent : @medium wear_leveling_driver -> Prop; eeprom_bytes := cache |}.
  - intros w Hw. destruct (coherent_is_cache w Hw) as [Hlen _]. pose proof (proj1 log_has_room). lia.
  - intros w Hw. by destruct (coherent_is_cache w Hw) as [_ ?].
  - intros buf addr w _. apply wear_leveling_read_block_ok.
  - intros buf addr w. apply wear_leveling_write_block_ok.
Defined.
End wear_leveling_driver.
