(* ===== verification/SendString.v ===== *)
(** * Typing strings (quantum/send_string/send_string.c)

    Characters are typed through three tables; the prefix byte introduces a
    tap, a press, a release or a delay.  A string is the array it lies in, from
    its first character on: reading past the end of the array is a fault, on
    which the model stops ([false]). *)

From S2P Require Import Prelude.
From S2P Require Import Keycodes.
From S2P Require Import State.
From S2P Require Import ActionUtil.
From S2P Require Import Action.

Definition SS_QMK_PREFIX : Z := 1.
Definition SS_TAP_CODE : Z := 1.
Definition SS_DOWN_CODE : Z := 2.
Definition SS_UP_CODE : Z := 3.
Definition SS_DELAY_CODE : Z := 4.

(** Eight flags in a byte, the first one lowest. *)
Definition KCLUT_ENTRY (a b c d e f g h : Z) : Z :=
  let flag x n := Z.shiftl (if nz x then 1 else 0) n in
  Z.lor (Z.lor (Z.lor (Z.lor (Z.lor (Z.lor (Z.lor
    (flag a 0) (flag b 1)) (flag c 2)) (flag d 3)) (flag e 4)) (flag f 5)) (flag g 6)) (flag h 7).

(** The tables are weak: a layout of the host may replace them. *)
Class SendStringTables := {
  ascii_to_keycode_lut : list Z;
  ascii_to_shift_lut : list Z;
  ascii_to_altgr_lut : list Z;
  ascii_to_dead_lut : list Z;
}.

Definition default_keycode_lut : list Z := [
    KC_NO; KC_NO; KC_NO; KC_NO; KC_NO; KC_NO; KC_NO; KC_NO;
    KC_BACKSPACE; KC_TAB; KC_ENTER; KC_NO; KC_NO; KC_NO; KC_NO; KC_NO;
    KC_NO; KC_NO; KC_NO; KC_NO; KC_NO; KC_NO; KC_NO; KC_NO;
    KC_NO; KC_NO; KC_NO; KC_ESCAPE; KC_NO; KC_NO; KC_NO; KC_NO;
    KC_SPACE; KC_1; KC_QUOTE; KC_3; KC_4; KC_5; KC_7; KC_QUOTE;
    KC_9; KC_0; KC_8; KC_EQUAL; KC_COMMA; KC_MINUS; KC_DOT; KC_SLASH;
    KC_0; KC_1; KC_2; KC_3; KC_4; KC_5; KC_6; KC_7;
    KC_8; KC_9; KC_SEMICOLON; KC_SEMICOLON; KC_COMMA; KC_EQUAL; KC_DOT; KC_SLASH;
    KC_2; KC_A; KC_B; KC_C; KC_D; KC_E; KC_F; KC_G;
    KC_H; KC_I; KC_J; KC_K; KC_L; KC_M; KC_N; KC_O;
    KC_P; KC_Q; KC_R; KC_S; KC_T; KC_U; KC_V; KC_W;
    KC_X; KC_Y; KC_Z; KC_LEFT_BRACKET; KC_BACKSLASH; KC_RIGHT_BRACKET; KC_6; KC_MINUS;
    KC_GRAVE; KC_A; KC_B; KC_C; KC_D; KC_E; KC_F; KC_G;
    KC_H; KC_I; KC_J; KC_K; KC_L; KC_M; KC_N; KC_O;
    KC_P; KC_Q; KC_R; KC_S; KC_T; KC_U; KC_V; KC_W;
    KC_X; KC_Y; KC_Z; KC_LEFT_BRACKET; KC_BACKSLASH; KC_RIGHT_BRACKET; KC_GRAVE; KC_DELETE].

Definition default_shift_lut : list Z := [
    KCLUT_ENTRY 0 0 0 0 0 0 0 0;
    KCLUT_ENTRY 0 0 0 0 0 0 0 0;
    KCLUT_ENTRY 0 0 0 0 0 0 0 0;
    KCLUT_ENTRY 0 0 0 0 0 0 0 0;
    KCLUT_ENTRY 0 1 1 1 1 1 1 0;
    KCLUT_ENTRY 1 1 1 1 0 0 0 0;
    KCLUT_ENTRY 0 0 0 0 0 0 0 0;
    KCLUT_ENTRY 0 0 1 0 1 0 1 1;
    KCLUT_ENTRY 1 1 1 1 1 1 1 1;
    KCLUT_ENTRY 1 1 1 1 1 1 1 1;
    KCLUT_ENTRY 1 1 1 1 1 1 1 1;
    KCLUT_ENTRY 1 1 1 0 0 0 1 1;
    KCLUT_ENTRY 0 0 0 0 0 0 0 0;
    KCLUT_ENTRY 0 0 0 0 0 0 0 0;
    KCLUT_ENTRY 0 0 0 0 0 0 0 0;
    KCLUT_ENTRY 0 0 0 1 1 1 1 0].

Definition us_tables : SendStringTables := {|
  ascii_to_keycode_lut := default_keycode_lut;
  ascii_to_shift_lut := default_shift_lut;
  ascii_to_altgr_lut := replicate 16 0;
  ascii_to_dead_lut := replicate 16 0;
|}.

(** [PGM_LOADBIT(mem, pos)] *)
Definition PGM_LOADBIT (mem : list Z) (pos : Z) : option bool :=
  b ← mem !! Z.to_nat (pos / 8); Some (nz (Z.land (Z.shiftr b (pos mod 8)) 0x01)).

Section send_string.
Context `{!Config} `{!Hooks} `{!SendStringTables}.
Abbreviation M := (stm keyboard).

Definition wait_ms (ms : Z) : M unit := emit (WaitMs ms).

(** The entries of the four tables, if the character lies within them. *)
Definition char_entries (c : Z) : option (Z * bool * bool * bool) :=
  keycode ← ascii_to_keycode_lut !! Z.to_nat c;
  is_shifted ← PGM_LOADBIT ascii_to_shift_lut c;
  is_altgred ← PGM_LOADBIT ascii_to_altgr_lut c;
  is_dead ← PGM_LOADBIT ascii_to_dead_lut c;
  Some (keycode, is_shifted, is_altgred, is_dead).

Definition send_char_with_delay (ascii_code interval : Z) : M bool :=
  match char_entries ascii_code with
  | None => mret false
  | Some (keycode, is_shifted, is_altgred, is_dead) =>
      when is_shifted (register_code KC_LEFT_SHIFT;; wait_ms interval);;
      when is_altgred (register_code KC_RIGHT_ALT;; wait_ms interval);;
      tap_code_delay keycode interval;;
      wait_ms interval;;
      when is_altgred (unregister_code KC_RIGHT_ALT;; wait_ms interval);;
      when is_shifted (unregister_code KC_LEFT_SHIFT;; wait_ms interval);;
      when is_dead (tap_code KC_SPACE;; wait_ms interval);;
      mret true
  end.

Definition isdigit (c : Z) : bool := within 48 57 c.

(** Where the loop stands: at a character, or in the digits of a delay of
    [ms] so far, an [int]. *)
Inductive send_mode := AtChar | InDelay (ms : Z).

Fixpoint send_string_loop (mode : send_mode) (string : list Z) (interval : Z) : M bool :=
  match string, mode with
  | [], _ => mret false
  | c :: string, InDelay ms =>
      if isdigit c then
        let ms := ms * 10 + (c - 48) in
        if 2 ^ 31 <=? ms then mret false else send_string_loop (InDelay ms) string interval
      else
        wait_ms ms;;
        wait_ms interval;;
        send_string_loop AtChar string interval
  | c :: string, AtChar =>
      if c =? 0 then mret true
      else if c =? SS_QMK_PREFIX then
        match string with
        | [] => mret false
        | code :: string =>
            if (code =? SS_TAP_CODE) || (code =? SS_DOWN_CODE) || (code =? SS_UP_CODE) then
              match string with
              | [] => mret false
              | keycode :: string =>
                  (if code =? SS_TAP_CODE then tap_code keycode
                   else if code =? SS_DOWN_CODE then register_code keycode
                   else unregister_code keycode);;
                  wait_ms interval;;
                  send_string_loop AtChar string interval
              end
            else if code =? SS_DELAY_CODE then send_string_loop (InDelay 0) string interval
            else
              wait_ms interval;;
              send_string_loop AtChar string interval
        end
      else
        ok ← send_char_with_delay c interval;
        if (ok : bool) then send_string_loop AtChar string interval else mret false
  end.

Definition send_string_with_delay (string : list Z) (interval : Z) : M bool :=
  send_string_loop AtChar string interval.
Definition send_string (string : list Z) : M bool := send_string_with_delay string TAP_CODE_DELAY.
Definition send_char (ascii_code : Z) : M bool := send_char_with_delay ascii_code TAP_CODE_DELAY.

Definition send_nibble (number : Z) : M bool :=
  let n := Z.land number 0xF in
  if within 0 9 n then send_char (u8 (number + 48)) else send_char (u8 (number - 10 + 97)).
Definition send_byte (number : Z) : M bool :=
  send_nibble (Z.shiftr number 4);; send_nibble (Z.land number 0xF).
Definition send_word (number : Z) : M bool :=
  send_byte (Z.shiftr number 8);; send_byte (Z.land number 0xFF).
Definition send_dword (number : Z) : M bool :=
  send_word (u16 (Z.shiftr number 16));; send_word (u16 (Z.land number 0xFFFF)).

(** [key] is the random number modulo 64. *)
Definition tap_base64 (key : Z) : M bool :=
  if within 0 25 key then send_char (key + 65)
  else if within 26 51 key then send_char (key - 26 + 97)
  else if key =? 52 then send_char 48
  else if within 53 61 key then send_char (key - 53 + 49)
  else if key =? 62 then send_char 43
  else send_char 47.
End send_string.
