(* ===== verification/DynamicKeymap.v ===== *)
(** * Dynamic keymaps and macros (quantum/dynamic_keymap.c)

    The keymap, the encoder map and the macros kept in the EEPROM, one area
    after the other.  Functions of the EEPROM alone run on its [medium];
    typing a macro also runs the keyboard, and so runs on the [firmware] that
    pairs them. *)

From S2P Require Import Prelude.
From S2P Require Import Keycodes.
From S2P Require Import State.
From S2P Require Import Action.
From S2P Require Import Eeprom.
From S2P Require Import SendString.

Class DynamicKeymapConfig := {
  DYNAMIC_KEYMAP_EEPROM_ADDR : Z;
  DYNAMIC_KEYMAP_EEPROM_MAX_ADDR : Z;
  DYNAMIC_KEYMAP_LAYER_COUNT : Z;
  DYNAMIC_KEYMAP_MACRO_COUNT : Z;
  DYNAMIC_KEYMAP_MACRO_DELAY : Z;
  (** The tables in flash (keymap_introspection.c). *)
  keycode_at_keymap_location_raw : Z -> Z -> Z -> Z;
  keycode_at_encodermap_location_raw : Z -> Z -> bool -> Z;
}.

Section dynamic_keymap.
Context `{!Config} `{!Hooks} `{!EepromDriver} `{!DynamicKeymapConfig}.
Abbreviation M := (stm medium).

Definition DYNAMIC_KEYMAP_ENCODER_EEPROM_ADDR : Z :=
  DYNAMIC_KEYMAP_EEPROM_ADDR + DYNAMIC_KEYMAP_LAYER_COUNT * MATRIX_ROWS * MATRIX_COLS * 2.
Definition DYNAMIC_KEYMAP_MACRO_EEPROM_ADDR : Z :=
  if ENCODER_MAP_ENABLE
  then DYNAMIC_KEYMAP_ENCODER_EEPROM_ADDR + DYNAMIC_KEYMAP_LAYER_COUNT * NUM_ENCODERS * 2 * 2
  else DYNAMIC_KEYMAP_ENCODER_EEPROM_ADDR.
Definition DYNAMIC_KEYMAP_MACRO_EEPROM_SIZE : Z :=
  DYNAMIC_KEYMAP_EEPROM_MAX_ADDR - DYNAMIC_KEYMAP_MACRO_EEPROM_ADDR + 1.

(** [for (int i = 0; i < n; i++) body(i)] *)
Fixpoint for_each (l : list Z) (body : Z -> M unit) : M unit :=
  match l with
  | [] => skip
  | i :: l => body i;; for_each l body
  end.
Definition for_below (n : Z) (body : Z -> M unit) : M unit := for_each (seqZ 0 n) body.

(** ** The keymap *)

Definition dynamic_keymap_get_layer_count : Z := DYNAMIC_KEYMAP_LAYER_COUNT.

Definition dynamic_keymap_key_to_eeprom_address (layer row column : Z) : Z :=
  DYNAMIC_KEYMAP_EEPROM_ADDR + layer * MATRIX_ROWS * MATRIX_COLS * 2 + row * MATRIX_COLS * 2 + column * 2.

(** Two bytes, big endian. *)
Definition read_keycode (address : Z) : M Z :=
  hi ← eeprom_read_byte address;
  lo ← eeprom_read_byte (address + 1);
  mret (Z.lor (u16 (Z.shiftl hi 8)) lo).
Definition update_keycode (address keycode : Z) : M unit :=
  eeprom_update_byte address (u8 (Z.shiftr keycode 8));;
  eeprom_update_byte (address + 1) (u8 (Z.land keycode 0xFF)).

Definition no_such_key (layer row column : Z) : bool :=
  (DYNAMIC_KEYMAP_LAYER_COUNT <=? layer) || (MATRIX_ROWS <=? row) || (MATRIX_COLS <=? column).

Definition dynamic_keymap_get_keycode (layer row column : Z) : M Z :=
  if no_such_key layer row column then mret KC_NO
  else read_keycode (dynamic_keymap_key_to_eeprom_address layer row column).
Definition dynamic_keymap_set_keycode (layer row column keycode : Z) : M unit :=
  if no_such_key layer row column then skip
  else update_keycode (dynamic_keymap_key_to_eeprom_address layer row column) keycode.

(** ** The encoder map *)

Definition dynamic_keymap_encoder_to_eeprom_address (layer encoder_id : Z) : Z :=
  DYNAMIC_KEYMAP_ENCODER_EEPROM_ADDR + layer * NUM_ENCODERS * 2 * 2 + encoder_id * 2 * 2.

Definition no_such_encoder (layer encoder_id : Z) : bool :=
  (DYNAMIC_KEYMAP_LAYER_COUNT <=? layer) || (NUM_ENCODERS <=? encoder_id).

Definition dynamic_keymap_get_encoder (layer encoder_id : Z) (clockwise : bool) : M Z :=
  if no_such_encoder layer encoder_id then mret KC_NO
  else read_keycode (dynamic_keymap_encoder_to_eeprom_address layer encoder_id + (if clockwise then 0 else 2)).
Definition dynamic_keymap_set_encoder (layer encoder_id : Z) (clockwise : bool) (keycode : Z) : M unit :=
  if no_such_encoder layer encoder_id then skip
  else update_keycode (dynamic_keymap_encoder_to_eeprom_address layer encoder_id
         + (if clockwise then 0 else 2)) keycode.

Definition dynamic_keymap_reset : M unit :=
  for_below DYNAMIC_KEYMAP_LAYER_COUNT (fun layer =>
    for_below MATRIX_ROWS (fun row =>
      for_below MATRIX_COLS (fun column =>
        dynamic_keymap_set_keycode layer row column (keycode_at_keymap_location_raw layer row column)));;
    when ENCODER_MAP_ENABLE (for_below NUM_ENCODERS (fun encoder =>
      dynamic_keymap_set_encoder layer encoder true (keycode_at_encodermap_location_raw layer encoder true);;
      dynamic_keymap_set_encoder layer encoder false (keycode_at_encodermap_location_raw layer encoder false)))).

(** ** Buffers

    The loops of the four buffer functions, on the area of [size] bytes from
    [base] on: the bytes put into [data], or taken from it. *)

Fixpoint get_buffer (base size offset : Z) (n : nat) : M (list Z) :=
  match n with
  | O => mret []
  | S n =>
      b ← (if offset <? size then eeprom_read_byte (base + offset) else mret 0x00);
      data ← get_buffer base size (offset + 1) n;
      mret (b :: data)
  end.
Fixpoint set_buffer (base size offset : Z) (data : list Z) : M unit :=
  match data with
  | [] => skip
  | b :: data =>
      when (offset <? size) (eeprom_update_byte (base + offset) b);;
      set_buffer base size (offset + 1) data
  end.

Definition dynamic_keymap_eeprom_size : Z :=
  u16 (DYNAMIC_KEYMAP_LAYER_COUNT * MATRIX_ROWS * MATRIX_COLS * 2).
Definition dynamic_keymap_get_buffer (offset : Z) (size : nat) : M (list Z) :=
  get_buffer DYNAMIC_KEYMAP_EEPROM_ADDR dynamic_keymap_eeprom_size offset size.
Definition dynamic_keymap_set_buffer (offset : Z) (data : list Z) : M unit :=
  set_buffer DYNAMIC_KEYMAP_EEPROM_ADDR dynamic_keymap_eeprom_size offset data.

Definition dynamic_keycode_at_keymap_location (layer_num row column : Z) : M Z :=
  if (layer_num <? DYNAMIC_KEYMAP_LAYER_COUNT) && (row <? MATRIX_ROWS) && (column <? MATRIX_COLS)
  then dynamic_keymap_get_keycode layer_num row column else mret KC_NO.
Definition dynamic_keycode_at_encodermap_location (layer_num encoder_idx : Z) (clockwise : bool) : M Z :=
  if (layer_num <? DYNAMIC_KEYMAP_LAYER_COUNT) && (encoder_idx <? NUM_ENCODERS)
  then dynamic_keymap_get_encoder layer_num encoder_idx clockwise else mret KC_NO.

(** ** Macros *)

Definition dynamic_keymap_macro_get_count : Z := DYNAMIC_KEYMAP_MACRO_COUNT.
Definition dynamic_keymap_macro_get_buffer_size : Z := u16 DYNAMIC_KEYMAP_MACRO_EEPROM_SIZE.

Definition dynamic_keymap_macro_get_buffer (offset : Z) (size : nat) : M (list Z) :=
  get_buffer DYNAMIC_KEYMAP_MACRO_EEPROM_ADDR DYNAMIC_KEYMAP_MACRO_EEPROM_SIZE offset size.
Definition dynamic_keymap_macro_set_buffer (offset : Z) (data : list Z) : M unit :=
  set_buffer DYNAMIC_KEYMAP_MACRO_EEPROM_ADDR DYNAMIC_KEYMAP_MACRO_EEPROM_SIZE offset data.

Definition dynamic_keymap_macro_reset : M unit :=
  for_below DYNAMIC_KEYMAP_MACRO_EEPROM_SIZE (fun i =>
    eeprom_update_byte (DYNAMIC_KEYMAP_MACRO_EEPROM_ADDR + i) 0).
End dynamic_keymap.

(** ** Typing a macro *)

Record firmware `{!EepromDriver} := {
  fw_keyboard : keyboard;
  fw_medium : medium;
}.

Section macro_send.
Context `{!Config} `{!Hooks} `{!SendStringTables} `{!EepromDriver} `{!DynamicKeymapConfig}.
Abbreviation F := (stm firmware).

Definition on_keyboard {A} (m : stm keyboard A) : F A :=
  fun f => let r := m (fw_keyboard f) in (r.1, f <| fw_keyboard := r.2 |>).
Definition on_eeprom {A} (m : stm medium A) : F A :=
  fun f => let r := m (fw_medium f) in (r.1, f <| fw_medium := r.2 |>).

(** How [dynamic_keymap_macro_send] ends: it returns, or it reads outside the
    macro area, or a string or table is read out of bounds; the model stops
    there. *)
Inductive macro_end := Returned | OutsideMacros | OutsideString.

#[export] Instance macro_end_eq_dec : EqDecision macro_end.
Proof. solve_decision. Defined.

Definition macro_buffer_end : Z :=
  DYNAMIC_KEYMAP_MACRO_EEPROM_ADDR + DYNAMIC_KEYMAP_MACRO_EEPROM_SIZE.

(** [eeprom_read_byte(p)], then [k]. *)
Definition with_byte (p : Z) (k : Z -> F macro_end) : F macro_end :=
  if p <? macro_buffer_end then c ← on_eeprom (eeprom_read_byte p); k c else mret OutsideMacros.

(** [while (id > 0)]: where the macro starts, if there is one. *)
Fixpoint skip_macros (fuel : nat) (id p : Z) : F (option Z) :=
  match fuel with
  | O => mret None
  | S fuel =>
      if id <=? 0 then mret (Some p) else
      if p =? macro_buffer_end then mret None else
      c ← on_eeprom (eeprom_read_byte p);
      skip_macros fuel (if c =? 0 then id - 1 else id) (p + 1)
  end.

(** The loop that collects a delay up to its bar, from [data[i]] on; [None]
    for an abort. *)
Fixpoint read_delay (fuel : nat) (i p : Z) (data : list Z) (k : list Z -> Z -> F macro_end)
  : F macro_end :=
  match fuel with
  | O => mret Returned
  | S fuel =>
      with_byte p (fun c =>
        let data := <[Z.to_nat i := c]> data in
        if c =? 0 then mret Returned
        else if c =? 124 then k (<[Z.to_nat (i + 1) := 0]> data) (p + 1)
        else if i =? 6 then mret Returned
        else read_delay fuel (i + 1) (p + 1) data k)
  end.

(** [send_string_with_delay(data, DYNAMIC_KEYMAP_MACRO_DELAY)], then [k]. *)
Definition send_data (data : list Z) (k : F macro_end) : F macro_end :=
  ok ← on_keyboard (send_string_with_delay data DYNAMIC_KEYMAP_MACRO_DELAY);
  if (ok : bool) then k else mret OutsideString.

(** The loop [while (1)], on the array [data] of 8 bytes.  Each iteration
    reads at least one byte of the macro area. *)
Fixpoint send_macro (fuel : nat) (p : Z) (data : list Z) : F macro_end :=
  match fuel with
  | O => mret OutsideMacros
  | S fuel =>
      with_byte p (fun c =>
        let data := <[1%nat := 0]> (<[0%nat := c]> data) in
        if c =? 0 then mret Returned
        else if c =? SS_QMK_PREFIX then
          with_byte (p + 1) (fun code =>
            let data := <[1%nat := code]> data in
            if code =? 0 then mret Returned
            else if (code =? SS_TAP_CODE) || (code =? SS_DOWN_CODE) || (code =? SS_UP_CODE) then
              with_byte (p + 2) (fun kc =>
                let data := <[2%nat := kc]> data in
                if kc =? 0 then mret Returned else
                let data := <[3%nat := 0]> data in
                send_data data (send_macro fuel (p + 3) data))
            else if code =? SS_DELAY_CODE then
              read_delay 5 2 (p + 2) data (fun data p => send_data data (send_macro fuel p data))
            else send_data data (send_macro fuel (p + 2) data))
        else send_data data (send_macro fuel (p + 1) data))
  end.

Definition dynamic_keymap_macro_send (id : Z) : F macro_end :=
  if DYNAMIC_KEYMAP_MACRO_COUNT <=? id then mret Returned else
  last ← on_eeprom (eeprom_read_byte (macro_buffer_end - 1));
  if negb (last =? 0) then mret Returned else
  let fuel := S (Z.to_nat DYNAMIC_KEYMAP_MACRO_EEPROM_SIZE) in
  start ← skip_macros fuel id DYNAMIC_KEYMAP_MACRO_EEPROM_ADDR;
  match start with
  | None => mret Returned
  | Some p => send_macro fuel p (replicate 8 0)
  end.
End macro_send.
