(* ===== verification/DynamicKeymapSpec.v ===== *)
(** * What the dynamic keymap keeps

    On an EEPROM that keeps its bytes, the keymap and the encoder map are a
    table of keycodes: setting a cell changes that cell alone. *)

From S2P Require Import Prelude.
From S2P Require Import Keycodes.
From S2P Require Import State.
From S2P Require Import Eeprom.
From S2P Require Import DynamicKeymap.

(** The static assertions of dynamic_keymap.c, on an EEPROM of [size] bytes. *)
Class DynamicKeymapOk `{!Config} `{!DynamicKeymapConfig} (size : Z) : Prop := {
  keymap_addr_pos : 0 <= DYNAMIC_KEYMAP_EEPROM_ADDR;
  keymap_max_addr : DYNAMIC_KEYMAP_EEPROM_MAX_ADDR <= size - 1 /\ DYNAMIC_KEYMAP_EEPROM_MAX_ADDR <= 65535;
  macros_fit : 100 <= DYNAMIC_KEYMAP_EEPROM_MAX_ADDR - DYNAMIC_KEYMAP_MACRO_EEPROM_ADDR;
  keymap_sizes : 0 <= DYNAMIC_KEYMAP_LAYER_COUNT /\ 0 <= MATRIX_ROWS /\ 0 <= MATRIX_COLS /\ 0 <= NUM_ENCODERS;
}.

Section table.
Context `{!Config} `{!EepromDriver} `{!DynamicKeymapConfig} {size : Z} `{!EepromOk size} `{!DynamicKeymapOk size}.

(** ** Cells *)

Inductive cell := Key (layer row column : Z) | Encoder (layer encoder_id : Z) (clockwise : bool).

Definition cell_valid (c : cell) : Prop :=
  match c with
  | Key l r c => 0 <= l < DYNAMIC_KEYMAP_LAYER_COUNT /\ 0 <= r < MATRIX_ROWS /\ 0 <= c < MATRIX_COLS
  | Encoder l e _ => ENCODER_MAP_ENABLE = true /\ 0 <= l < DYNAMIC_KEYMAP_LAYER_COUNT /\ 0 <= e < NUM_ENCODERS
  end.
Definition cell_address (c : cell) : Z :=
  match c with
  | Key l r c => dynamic_keymap_key_to_eeprom_address l r c
  | Encoder l e cw => dynamic_keymap_encoder_to_eeprom_address l e + (if cw then 0 else 2)
  end.
(** The keycode that the bytes [d] hold for a cell. *)
Definition cell_value (d : list Z) (c : cell) : Z :=
  Z.lor (u16 (Z.shiftl (byte_at d (cell_address c)) 8)) (byte_at d (cell_address c + 1)).
Definition cell_raw (c : cell) : Z :=
  match c with
  | Key l r c => keycode_at_keymap_location_raw l r c
  | Encoder l e cw => keycode_at_encodermap_location_raw l e cw
  end.

(** The two-byte cells of a table of [m] rows of [n] lie one after the other. *)
Lemma index_bound n m i j : 0 <= i < m -> 0 <= j < n -> 0 <= i * n + j < m * n.
Proof. nia. Qed.
Lemma index_inj n i j i' j' : 0 <= j < n -> 0 <= j' < n -> i * n + j = i' * n + j' -> i = i' /\ j = j'.
Proof. intros. assert (i = i') as <- by (destruct (Z.lt_trichotomy i i') as [?|[?|?]]; nia). lia. Qed.

Definition key_index (l r c : Z) : Z := (l * MATRIX_ROWS + r) * MATRIX_COLS + c.
Definition encoder_index (l e : Z) (cw : bool) : Z := (l * NUM_ENCODERS + e) * 2 + (if cw then 0 else 1).
Lemma key_address l r c : cell_address (Key l r c) = DYNAMIC_KEYMAP_EEPROM_ADDR + 2 * key_index l r c.
Proof. cbn. unfold dynamic_keymap_key_to_eeprom_address, key_index. lia. Qed.
Lemma encoder_address l e cw :
  cell_address (Encoder l e cw) = DYNAMIC_KEYMAP_ENCODER_EEPROM_ADDR + 2 * encoder_index l e cw.
Proof. cbn. unfold dynamic_keymap_encoder_to_eeprom_address, encoder_index. destruct cw; lia. Qed.

Lemma key_index_bound l r c :
  cell_valid (Key l r c) -> 0 <= key_index l r c < DYNAMIC_KEYMAP_LAYER_COUNT * MATRIX_ROWS * MATRIX_COLS.
Proof. intros (Hl & Hr & Hc). apply index_bound; [by apply index_bound|done]. Qed.
Lemma encoder_index_bound l e cw :
  cell_valid (Encoder l e cw) -> 0 <= encoder_index l e cw < DYNAMIC_KEYMAP_LAYER_COUNT * NUM_ENCODERS * 2.
Proof. intros (_ & Hl & He). apply index_bound; [by apply index_bound|destruct cw; lia]. Qed.

(** The keymap, the encoder map and the macros follow each other. *)
Lemma areas :
  DYNAMIC_KEYMAP_ENCODER_EEPROM_ADDR = DYNAMIC_KEYMAP_EEPROM_ADDR
    + 2 * (DYNAMIC_KEYMAP_LAYER_COUNT * MATRIX_ROWS * MATRIX_COLS) /\
  DYNAMIC_KEYMAP_ENCODER_EEPROM_ADDR <= DYNAMIC_KEYMAP_MACRO_EEPROM_ADDR /\
  (ENCODER_MAP_ENABLE = true -> DYNAMIC_KEYMAP_MACRO_EEPROM_ADDR = DYNAMIC_KEYMAP_ENCODER_EEPROM_ADDR
    + 2 * (DYNAMIC_KEYMAP_LAYER_COUNT * NUM_ENCODERS * 2)).
Proof using DynamicKeymapOk0.
  destruct keymap_sizes as (Hl & _ & _ & He). pose proof (Z.mul_nonneg_nonneg _ _ Hl He).
  unfold DYNAMIC_KEYMAP_MACRO_EEPROM_ADDR, DYNAMIC_KEYMAP_ENCODER_EEPROM_ADDR.
  split; [lia|]. split; [destruct ENCODER_MAP_ENABLE; lia|]. intros ->. lia.
Qed.

Lemma cell_in_area c :
  cell_valid c ->
  DYNAMIC_KEYMAP_EEPROM_ADDR <= cell_address c /\ cell_address c + 2 <= DYNAMIC_KEYMAP_MACRO_EEPROM_ADDR.
Proof using DynamicKeymapOk0.
  pose proof areas as (Ha & Hm & He). intros Hc. destruct c as [l r c|l e cw].
  - pose proof (key_index_bound l r c Hc). rewrite key_address. lia.
  - pose proof (encoder_index_bound l e cw Hc). rewrite encoder_address.
    destruct keymap_sizes as (? & ? & ? & _). destruct Hc as (Hen & _). specialize (He Hen). nia.
Qed.

Lemma cells_apart c c' :
  cell_valid c -> cell_valid c' -> c <> c' ->
  cell_address c + 2 <= cell_address c' \/ cell_address c' + 2 <= cell_address c.
Proof using DynamicKeymapOk0.
  pose proof areas as (Ha & Hm & He). intros Hc Hc' Hne.
  destruct c as [l r c|l e cw], c' as [l' r' c'|l' e' cw']; rewrite ?key_address, ?encoder_address.
  - assert (key_index l r c <> key_index l' r' c') as Hidx; [|lia].
    intros E. apply Hne. destruct Hc as (_ & ? & ?), Hc' as (_ & ? & ?).
    apply index_inj in E as [E ->]; [|done..]. by apply index_inj in E as [-> ->].
  - pose proof (key_index_bound l r c Hc). pose proof (encoder_index_bound l' e' cw' Hc'). lia.
  - pose proof (encoder_index_bound l e cw Hc). pose proof (key_index_bound l' r' c' Hc'). lia.
  - assert (encoder_index l e cw <> encoder_index l' e' cw') as Hidx; [|lia].
    intros E. apply Hne. destruct Hc as (_ & ? & ?), Hc' as (_ & ? & ?).
    apply index_inj in E as [E Ecw]; [|destruct cw; lia|destruct cw'; lia].
    apply index_inj in E as [-> ->]; [|done..]. by destruct cw, cw'.
Qed.

Lemma cell_in_eeprom c : cell_valid c -> in_eeprom (size := size) (cell_address c) /\ in_eeprom (size := size) (cell_address c + 1).
Proof using All.
  intros Hc%cell_in_area. pose proof keymap_addr_pos. pose proof keymap_max_addr as [? _]. pose proof macros_fit.
  unfold in_eeprom. lia.
Qed.

(** ** Reading and writing a cell *)

Definition put_cell (c : cell) (v : Z) (d : list Z) : list Z :=
  <[Z.to_nat (cell_address c + 1) := u8 (Z.land v 0xFF)]>
    (<[Z.to_nat (cell_address c) := u8 (Z.shiftr v 8)]> d).

Lemma computes_read_cell c d : cell_valid c -> computes (read_keycode (cell_address c)) d (cell_value d c) d.
Proof using All.
  intros Hc. destruct (cell_in_eeprom c Hc) as [Ha1 Ha2]. unfold read_keycode.
  eapply computes_bind; [by apply computes_read_byte|]. eapply computes_bind; [by apply computes_read_byte|].
  apply computes_ret.
Qed.

Lemma computes_update_cell c v d : cell_valid c -> computes (update_keycode (cell_address c) v) d tt (put_cell c v d).
Proof using All.
  intros Hc. destruct (cell_in_eeprom c Hc) as [Ha1 Ha2]. unfold update_keycode.
  eapply computes_bind; apply computes_update_byte; auto with qmk.
Qed.

Lemma byte_at_put c v d a :
  cell_valid c -> is_content (size := size) d -> 0 <= a ->
  byte_at (put_cell c v d) a =
    if decide (a = cell_address c) then u8 (Z.shiftr v 8)
    else if decide (a = cell_address c + 1) then u8 (Z.land v 0xFF) else byte_at d a.
Proof using All.
  intros Hc [Hlen _] Ha. destruct (cell_in_eeprom c Hc) as [Ha1 Ha2]. unfold in_eeprom in *.
  unfold byte_at, put_cell. case_decide as E1; [subst|case_decide as E2; [subst|]].
  - rewrite list_lookup_insert_ne by lia. rewrite list_lookup_insert_eq by lia. done.
  - rewrite list_lookup_insert_eq; [done|]. rewrite length_insert. lia.
  - by rewrite !list_lookup_insert_ne by lia.
Qed.

Lemma content_put c v d : is_content (size := size) d -> is_content (size := size) (put_cell c v d).
Proof.
  intros [Hlen Hb]. unfold put_cell. split; [by rewrite !length_insert|]. by repeat apply Forall_insert; auto with qmk.
Qed.

Lemma join_bytes v : 0 <= v < 2 ^ 16 -> Z.lor (u16 (Z.shiftl (u8 (Z.shiftr v 8)) 8)) (u8 (Z.land v 0xFF)) = v.
Proof.
  intros Hv. change 0xFF with (Z.ones 8). rewrite Z.land_ones, Z.shiftr_div_pow2, Z.shiftl_mul_pow2 by lia.
  rewrite (wrap_small 16) by (unfold wrap; dlia). rewrite (lor_add 8); [unfold wrap; dlia|done|unfold wrap; dlia|].
  by apply wrap_range.
Qed.

Lemma cell_value_put c v d :
  cell_valid c -> is_content (size := size) d -> 0 <= v < 2 ^ 16 -> cell_value (put_cell c v d) c = v.
Proof using All.
  intros Hc Hd Hv. destruct (cell_in_eeprom c Hc) as [Ha1 Ha2]. unfold in_eeprom in *.
  unfold cell_value. rewrite !byte_at_put by (done || lia).
  rewrite decide_True by done. rewrite decide_False by lia. rewrite decide_True by done. by apply join_bytes.
Qed.

Lemma byte_put_outside c v d a :
  cell_valid c -> is_content (size := size) d -> 0 <= a -> a < cell_address c \/ cell_address c + 2 <= a ->
  byte_at (put_cell c v d) a = byte_at d a.
Proof using All. intros Hc Hd Ha Hout. rewrite byte_at_put by done. by rewrite !decide_False by lia. Qed.

Lemma cell_value_put_other c c' v d :
  cell_valid c -> cell_valid c' -> c <> c' -> is_content (size := size) d ->
  cell_value (put_cell c v d) c' = cell_value d c'.
Proof using All.
  intros Hc Hc' Hne Hd. destruct (cell_in_eeprom c' Hc') as [Ha1 Ha2]. unfold in_eeprom in *.
  pose proof (cells_apart c c' Hc Hc' Hne). unfold cell_value.
  by rewrite !byte_put_outside by (done || lia).
Qed.

(** ** The functions on cells *)

Definition get_cell (c : cell) : stm medium Z :=
  match c with
  | Key l r c => dynamic_keymap_get_keycode l r c
  | Encoder l e cw => dynamic_keymap_get_encoder l e cw
  end.
Definition set_cell (c : cell) (v : Z) : stm medium unit :=
  match c with
  | Key l r c => dynamic_keymap_set_keycode l r c v
  | Encoder l e cw => dynamic_keymap_set_encoder l e cw v
  end.

(** The arguments are unsigned; the encoder functions are compiled in with
    the encoder map. *)
Definition cell_args (c : cell) : Prop :=
  match c with
  | Key l r c => 0 <= l /\ 0 <= r /\ 0 <= c
  | Encoder l e _ => ENCODER_MAP_ENABLE = true /\ 0 <= l /\ 0 <= e
  end.
#[export] Instance cell_valid_dec c : Decision (cell_valid c).
Proof. destruct c; apply _. Defined.
#[export] Instance cell_eq_dec : EqDecision cell.
Proof. solve_decision. Defined.

(** The guards say whether the cell exists. *)
Lemma no_such_key_valid l r c :
  cell_args (Key l r c) -> no_such_key l r c = negb (bool_decide (cell_valid (Key l r c))).
Proof.
  intros Ha. cbn in Ha. unfold no_such_key. case_bool_decide as Hv; cbn in Hv; repeat zcase; cbn; done || lia.
Qed.
Lemma no_such_encoder_valid l e cw :
  cell_args (Encoder l e cw) -> no_such_encoder l e = negb (bool_decide (cell_valid (Encoder l e cw))).
Proof.
  intros [Hen Ha]. unfold no_such_encoder. case_bool_decide as Hv; cbn in Hv; rewrite Hen in Hv;
    repeat zcase; cbn; first [done|lia|exfalso; apply Hv; lia].
Qed.

Lemma get_cell_run c :
  cell_args c -> get_cell c = if decide (cell_valid c) then read_keycode (cell_address c) else mret KC_NO.
Proof.
  intros Ha. destruct c; cbn [get_cell]; unfold dynamic_keymap_get_keycode, dynamic_keymap_get_encoder;
    [rewrite no_such_key_valid by done|erewrite no_such_encoder_valid by done];
    case_decide; by rewrite ?bool_decide_true, ?bool_decide_false by done.
Qed.
Lemma set_cell_run c v :
  cell_args c -> set_cell c v = if decide (cell_valid c) then update_keycode (cell_address c) v else skip.
Proof.
  intros Ha. destruct c; cbn [set_cell]; unfold dynamic_keymap_set_keycode, dynamic_keymap_set_encoder;
    [rewrite no_such_key_valid by done|erewrite no_such_encoder_valid by done];
    case_decide; by rewrite ?bool_decide_true, ?bool_decide_false by done.
Qed.

(** Outside the keymap and the encoder map. *)
Definition outside_maps (a : Z) : Prop :=
  0 <= a /\ (a < DYNAMIC_KEYMAP_EEPROM_ADDR \/ DYNAMIC_KEYMAP_MACRO_EEPROM_ADDR <= a).

Lemma byte_put_outside_maps c v d a :
  cell_valid c -> is_content (size := size) d -> outside_maps a -> byte_at (put_cell c v d) a = byte_at d a.
Proof using All.
  intros Hc Hd [Ha Hout]. pose proof (cell_in_area c Hc). apply byte_put_outside; [done..|lia].
Qed.

(** C14: the keymap and the encoder map are a table of keycodes in the EEPROM:
    reading a cell gives its keycode and writes nothing; after setting it, it
    has the new keycode, every other cell the one it had, and every byte
    outside the two maps, the macros among them, is what it was; a layer, a
    row, a column or an encoder that does not exist reads as [KC_NO], and
    setting it does nothing. *)
Theorem dynamic_keymap_is_table c v d :
  cell_args c -> is_content (size := size) d -> 0 <= v < 2 ^ 16 ->
  if decide (cell_valid c) then
    computes (get_cell c) d (cell_value d c) d /\
    exists d', computes (set_cell c v) d tt d' /\ cell_value d' c = v /\
      (forall c', cell_valid c' -> c' <> c -> cell_value d' c' = cell_value d c') /\
      (forall a, outside_maps a -> byte_at d' a = byte_at d a)
  else computes (get_cell c) d KC_NO d /\ computes (set_cell c v) d tt d.
Proof using All.
  intros Hargs Hd Hv. rewrite get_cell_run, set_cell_run by done. case_decide as Hc.
  - split; [by apply computes_read_cell|]. exists (put_cell c v d). split_and!.
    + by apply computes_update_cell.
    + by apply cell_value_put.
    + intros c' Hc' Hne. by apply cell_value_put_other.
    + intros a Ha. by apply byte_put_outside_maps.
  - split; apply computes_ret.
Qed.

(** ** Resetting to the keymap in flash *)

(** [m] gives the cells of [C] the keycodes in flash; the other cells keep
    theirs or get the one in flash; the rest stays. *)
Definition resets (m : stm medium unit) (C : cell -> Prop) : Prop :=
  forall d, is_content (size := size) d -> exists d', computes m d tt d' /\ is_content (size := size) d' /\
    (forall c, cell_valid c -> C c -> cell_value d' c = cell_raw c) /\
    (forall c, cell_valid c -> cell_value d' c = cell_raw c \/ cell_value d' c = cell_value d c) /\
    (forall a, outside_maps a -> byte_at d' a = byte_at d a).

Lemma resets_skip : resets skip (fun _ => False).
Proof. intros d Hd. exists d. split; [apply computes_skip|]. naive_solver. Qed.

Lemma resets_seq m1 m2 C1 C2 : resets m1 C1 -> resets m2 C2 -> resets (m1;; m2) (fun c => C1 c \/ C2 c).
Proof.
  intros Hm1 Hm2 d Hd. destruct (Hm1 d Hd) as (d1 & E1 & Hd1 & Hset1 & Hany1 & Hout1).
  destruct (Hm2 d1 Hd1) as (d2 & E2 & Hd2 & Hset2 & Hany2 & Hout2). exists d2.
  split; [by eapply computes_bind|]. split; [done|]. split; [|split].
  - intros c Hc [HC|HC]; [|by apply Hset2]. destruct (Hany2 c Hc) as [->| ->]; [done|by apply Hset1].
  - intros c Hc. destruct (Hany2 c Hc) as [->| ->]; [by left|by apply Hany1].
  - intros a Ha. rewrite Hout2 by done. by apply Hout1.
Qed.

Lemma resets_weaken m (C C' : cell -> Prop) : (forall c, C' c -> C c) -> resets m C -> resets m C'.
Proof. intros HC Hm d Hd. destruct (Hm d Hd) as (d' & ? & ? & Hset & ?). exists d'. split_and!; naive_solver. Qed.

Lemma resets_for_each l body (C : Z -> cell -> Prop) :
  (forall i, i ∈ l -> resets (body i) (C i)) -> resets (for_each l body) (fun c => exists i, i ∈ l /\ C i c).
Proof.
  induction l as [|i l IH]; intros Hl; cbn [for_each].
  - eapply resets_weaken, resets_skip. intros c (i & Hi & _). by apply elem_of_nil in Hi.
  - eapply resets_weaken; [|apply resets_seq; [apply (Hl i); left|apply IH; intros j Hj; apply Hl; by right]].
    intros c (j & [->|Hj]%elem_of_cons & HC); [by left|right; by exists j].
Qed.

Lemma resets_for_below n body (C : Z -> cell -> Prop) :
  (forall i, 0 <= i < n -> resets (body i) (C i)) ->
  resets (for_below n body) (fun c => exists i, 0 <= i < n /\ C i c).
Proof.
  intros Hb. eapply resets_weaken; [|apply (resets_for_each (seqZ 0 n) body C)].
  - intros c (i & Hi & HC). exists i. split; [apply elem_of_seqZ; lia|done].
  - intros i Hi%elem_of_seqZ. apply Hb. lia.
Qed.

Lemma resets_when b m C : resets m C -> resets (when b m) (fun c => b = true /\ C c).
Proof.
  intros Hm. destruct b; [by eapply resets_weaken; [|exact Hm]; naive_solver|].
  eapply resets_weaken, resets_skip. naive_solver.
Qed.

Hypothesis raw_keycodes : forall c, cell_valid c -> 0 <= cell_raw c < 2 ^ 16.

Lemma resets_cell c : cell_valid c -> resets (set_cell c (cell_raw c)) (fun c' => c' = c).
Proof using All.
  intros Hc d Hd. assert (cell_args c) as Hargs by (destruct c; cbn in *; naive_solver lia).
  rewrite set_cell_run, decide_True by done. exists (put_cell c (cell_raw c) d). split_and!.
  - by apply computes_update_cell.
  - by apply content_put.
  - intros c' _ ->. by apply cell_value_put; [..|apply raw_keycodes].
  - intros c' Hc'. destruct (decide (c = c')) as [<-|Hne]; [left|right; by apply cell_value_put_other].
    by apply cell_value_put; [..|apply raw_keycodes].
  - intros a Ha. by apply byte_put_outside_maps.
Qed.

Lemma dynamic_keymap_reset_content d :
  is_content (size := size) d ->
  exists d', computes dynamic_keymap_reset d tt d' /\
    (forall c, cell_valid c -> cell_value d' c = cell_raw c) /\
    (forall a, outside_maps a -> byte_at d' a = byte_at d a) /\ is_content (size := size) d'.
Proof using All.
  intros Hd.
  assert (resets dynamic_keymap_reset (fun c => exists l, 0 <= l < DYNAMIC_KEYMAP_LAYER_COUNT /\
    ((exists r, 0 <= r < MATRIX_ROWS /\ exists k, 0 <= k < MATRIX_COLS /\ c = Key l r k) \/
     (ENCODER_MAP_ENABLE = true /\ exists e, 0 <= e < NUM_ENCODERS /\ (c = Encoder l e true \/ c = Encoder l e false)))))
    as Hreset.
  { apply resets_for_below. intros l Hl. apply resets_seq.
    - apply resets_for_below. intros r Hr. apply resets_for_below. intros k Hk. by apply (resets_cell (Key l r k)).
    - destruct ENCODER_MAP_ENABLE eqn:Hen; cbn [when].
      + eapply resets_weaken; [|apply (resets_for_below NUM_ENCODERS); intros e He; apply resets_seq;
          [by apply (resets_cell (Encoder l e true))|by apply (resets_cell (Encoder l e false))]].
        naive_solver.
      + eapply resets_weaken, resets_skip. naive_solver. }
  destruct (Hreset d Hd) as (d' & E & Hd' & Hset & _ & Hout). exists d'. split; [done|]. split; [|done].
  intros c Hc. apply Hset; [done|]. destruct c as [l r k|l e cw]; destruct Hc as (Hc1 & Hc2 & Hc3).
  - exists l. split; [done|]. left. eauto 10.
  - exists l. split; [done|]. right. split; [done|]. exists e. split; [done|]. destruct cw; auto.
Qed.
(** [dynamic_keymap_reset] gives every key of every layer, and both
    directions of every encoder, the keycode they have in flash, and writes
    nothing outside the two maps. *)
Theorem dynamic_keymap_reset_restores d :
  is_content (size := size) d ->
  exists d', computes dynamic_keymap_reset d tt d' /\
    (forall c, cell_valid c -> cell_value d' c = cell_raw c) /\
    (forall a, outside_maps a -> byte_at d' a = byte_at d a).
Proof using All.
  intros Hd. destruct (dynamic_keymap_reset_content d Hd) as (d' & E & Hset & Hout & _). by exists d'.
Qed.
End table.

Section buffers.
Context `{!Config} `{!EepromDriver} `{!DynamicKeymapConfig} {size : Z} `{!EepromOk size} `{!DynamicKeymapOk size}.

(** ** Buffers *)

(** The two areas that are read and written as arrays of bytes. *)
Inductive area := KeymapArea | MacroArea.
Definition area_base (a : area) : Z :=
  match a with KeymapArea => DYNAMIC_KEYMAP_EEPROM_ADDR | MacroArea => DYNAMIC_KEYMAP_MACRO_EEPROM_ADDR end.
Definition area_size (a : area) : Z :=
  match a with
  | KeymapArea => DYNAMIC_KEYMAP_LAYER_COUNT * MATRIX_ROWS * MATRIX_COLS * 2
  | MacroArea => DYNAMIC_KEYMAP_MACRO_EEPROM_SIZE
  end.
Definition get_area (a : area) : Z -> nat -> stm medium (list Z) :=
  match a with KeymapArea => dynamic_keymap_get_buffer | MacroArea => dynamic_keymap_macro_get_buffer end.
Definition set_area (a : area) : Z -> list Z -> stm medium unit :=
  match a with KeymapArea => dynamic_keymap_set_buffer | MacroArea => dynamic_keymap_macro_set_buffer end.

Lemma get_area_run a : get_area a = get_buffer (area_base a) (area_size a).
Proof using DynamicKeymapOk0.
  destruct a; [|done]. cbn. unfold dynamic_keymap_get_buffer, dynamic_keymap_eeprom_size.
  pose proof keymap_addr_pos. pose proof keymap_max_addr. pose proof macros_fit. pose proof areas as (? & ? & _).
  pose proof keymap_sizes as (? & ? & ? & _). rewrite wrap_small; [done|]. split; [|lia]. repeat apply Z.mul_nonneg_nonneg; lia.
Qed.
Lemma set_area_run a : set_area a = set_buffer (area_base a) (area_size a).
Proof using DynamicKeymapOk0.
  destruct a; [|done]. cbn. unfold dynamic_keymap_set_buffer, dynamic_keymap_eeprom_size.
  pose proof keymap_addr_pos. pose proof keymap_max_addr. pose proof macros_fit. pose proof areas as (? & ? & _).
  pose proof keymap_sizes as (? & ? & ? & _). rewrite wrap_small; [done|]. split; [|lia]. repeat apply Z.mul_nonneg_nonneg; lia.
Qed.
Lemma area_fits a : 0 <= area_base a /\ area_base a + area_size a <= size /\ area_base a + area_size a <= 2 ^ 16.
Proof using DynamicKeymapOk0.
  pose proof keymap_addr_pos. pose proof keymap_max_addr. pose proof macros_fit. pose proof areas as (? & ? & _).
  pose proof keymap_sizes as (? & ? & ? & _).
  destruct a; cbn; unfold DYNAMIC_KEYMAP_MACRO_EEPROM_SIZE; [lia|].
  assert (0 <= DYNAMIC_KEYMAP_LAYER_COUNT * MATRIX_ROWS * MATRIX_COLS) by (repeat apply Z.mul_nonneg_nonneg; lia). lia.
Qed.

Lemma computes_set_buffer base sz data : forall off d,
  0 <= base -> 0 <= off -> base + sz <= size -> Forall is_byte data ->
  computes (set_buffer base sz off data) d tt
    (list_inserts (Z.to_nat (base + off)) (take (Z.to_nat (sz - off)) data) d).
Proof using All.
  induction data as [|b data IH]; intros off d Hb Ho Hsz Hdata; cbn [set_buffer].
  { rewrite take_nil. apply computes_skip. }
  apply Forall_cons in Hdata as [Hbyte Hdata]. destruct (Z.ltb_spec off sz) as [Hlt|Hge]; cbn [when].
  - eapply computes_bind.
    + apply computes_update_byte; [|done]. unfold in_eeprom. lia.
    + replace (Z.to_nat (sz - off)) with (S (Z.to_nat (sz - (off + 1)))) by lia. cbn [take list_inserts].
      rewrite list_insert_inserts_lt by lia.
      replace (S (Z.to_nat (base + off))) with (Z.to_nat (base + (off + 1))) by lia.
      by apply IH; try lia.
  - replace (Z.to_nat (sz - off)) with 0%nat by lia. eapply computes_bind; [apply computes_skip|].
    specialize (IH (off + 1) d Hb ltac:(lia) Hsz Hdata).
    by replace (Z.to_nat (sz - (off + 1))) with 0%nat in IH by lia.
Qed.

(** What [get_buffer] returns. *)
Fixpoint buffer_bytes (d : list Z) (base sz off : Z) (n : nat) : list Z :=
  match n with
  | O => []
  | S n => (if off <? sz then byte_at d (base + off) else 0) :: buffer_bytes d base sz (off + 1) n
  end.
Lemma computes_get_buffer base sz d n : forall off,
  0 <= base -> 0 <= off -> base + sz <= size ->
  computes (get_buffer base sz off n) d (buffer_bytes d base sz off n) d.
Proof using All.
  induction n as [|n IH]; intros off Hb Ho Hsz; cbn [get_buffer]; [apply computes_ret|].
  cbn [buffer_bytes]. eapply computes_bind; [|eapply computes_bind; [apply IH; lia|apply computes_ret]].
  destruct (Z.ltb_spec off sz); [|apply computes_ret]. apply computes_read_byte. unfold in_eeprom. lia.
Qed.

Lemma length_buffer_bytes d base sz n : forall off, length (buffer_bytes d base sz off n) = n.
Proof. induction n as [|n IH]; intros off; cbn [buffer_bytes length]; [done|]. by rewrite IH. Qed.
Lemma lookup_buffer_bytes d base sz n : forall off i, (i < n)%nat ->
  buffer_bytes d base sz off n !! i =
    Some (if off + Z.of_nat i <? sz then byte_at d (base + off + Z.of_nat i) else 0).
Proof.
  induction n as [|n IH]; intros off i Hi; [lia|]. destruct i as [|i]; cbn [buffer_bytes].
  - cbn. by rewrite !Z.add_0_r.
  - change ((?x :: ?l) !! S i) with (l !! i). rewrite IH by lia.
    by replace (off + 1 + Z.of_nat i) with (off + Z.of_nat (S i)) by lia;
      replace (base + (off + 1) + Z.of_nat i) with (base + off + Z.of_nat (S i)) by lia.
Qed.

(** [data] as far as the area goes, then zeros. *)
Definition clipped (sz off : Z) (data : list Z) : list Z :=
  let kept := take (Z.to_nat (sz - off)) data in kept ++ replicate (length data - length kept) 0.

Lemma buffer_bytes_inserted d base sz off data :
  0 <= base -> 0 <= off -> base + sz <= Z.of_nat (length d) ->
  buffer_bytes (list_inserts (Z.to_nat (base + off)) (take (Z.to_nat (sz - off)) data) d) base sz off (length data)
    = clipped sz off data.
Proof.
  intros Hb Ho Hsz. unfold clipped. apply (list_eq_same_length _ _ (length data)).
  - rewrite length_app, length_replicate, length_take. lia.
  - apply length_buffer_bytes.
  - intros i x y Hi. rewrite lookup_buffer_bytes by done. intros [= <-]. unfold byte_at.
    destruct (Z.ltb_spec (off + Z.of_nat i) sz) as [Hlt|Hge].
    + rewrite list_lookup_inserts by (rewrite ?length_take; lia).
      rewrite lookup_app_l by (rewrite length_take; lia).
      replace (Z.to_nat (base + off + Z.of_nat i) - Z.to_nat (base + off))%nat with i by lia.
      intros ->. done.
    + rewrite lookup_app_r by (rewrite length_take; lia). intros Hy. by apply lookup_replicate in Hy as [-> _].
Qed.

(** What VIA writes through a buffer it reads back: after [data] was written
    at an offset of the keymap or of the macros, reading as many bytes there
    gives [data] as far as the area reaches, then zeros; no byte outside the
    range written, and none outside the area, has changed. *)
Theorem buffer_roundtrip a off data d :
  is_content (size := size) d -> 0 <= off -> Forall is_byte data ->
  exists d', computes (set_area a off data) d tt d' /\
    computes (get_area a off (length data)) d' (clipped (area_size a) off data) d' /\
    (forall p, 0 <= p -> p < area_base a + off \/ area_base a + off + Z.of_nat (length data) <= p \/
       area_base a + area_size a <= p -> byte_at d' p = byte_at d p).
Proof using All.
  intros [Hlen Hbytes] Ho Hdata. destruct (area_fits a) as (Hb & Hfit & _).
  eexists. split; [|split].
  - rewrite set_area_run. by apply computes_set_buffer.
  - rewrite get_area_run. rewrite <-(buffer_bytes_inserted d (area_base a)) by lia.
    by apply computes_get_buffer.
  - intros p Hp Hout. unfold byte_at.
    destruct (decide (p < area_base a + off)); [by rewrite list_lookup_inserts_lt by lia|].
    rewrite list_lookup_inserts_ge; [done|]. rewrite length_take. lia.
Qed.
End buffers.
