(* ===== verification/DynamicMacros.v ===== *)
(** * Typing the macros of the EEPROM

    [dynamic_keymap_macro_send] reads a macro byte by byte and types it piece
    by piece: the same as typing its text at once.  Which macros are read
    outside the area. *)

From S2P Require Import Prelude.
From S2P Require Import Keycodes.
From S2P Require Import State.
From S2P Require Import Action.
From S2P Require Import Eeprom.
From S2P Require Import SendString.
From S2P Require Import DynamicKeymap.
From S2P Require Import DynamicKeymapSpec.

Section macros.
Context `{!Config} `{!Hooks} `{!SendStringTables} `{!EepromDriver} `{!DynamicKeymapConfig}
  {size : Z} `{!EepromOk size} `{!DynamicKeymapOk size}.

Implicit Types (d : list Z) (k : keyboard) (f : firmware).
Abbreviation START := DYNAMIC_KEYMAP_MACRO_EEPROM_ADDR.
Abbreviation END := macro_buffer_end.
Abbreviation SIZE := DYNAMIC_KEYMAP_MACRO_EEPROM_SIZE.

(** ** Runs that leave the EEPROM as it is *)

(** From a keyboard [k], on an EEPROM that holds [d]. *)
Definition runs {A} (m : stm firmware A) d k (P : A -> keyboard -> Prop) : Prop :=
  forall f, eeprom_usable (fw_medium f) -> eeprom_bytes (fw_medium f) = d -> fw_keyboard f = k ->
  exists a f', m f = (a, f') /\ eeprom_usable (fw_medium f') /\ eeprom_bytes (fw_medium f') = d /\
    P a (fw_keyboard f').

Lemma runs_ret {A} (a : A) d k (P : A -> keyboard -> Prop) : P a k -> runs (mret a) d k P.
Proof. intros HP f Hf Hd <-. by exists a, f. Qed.

Lemma runs_bind {A B} (m : stm firmware A) (g : A -> stm firmware B) d k (Q : A -> keyboard -> Prop) P :
  runs m d k Q -> (forall a k', Q a k' -> runs (g a) d k' P) -> runs (m ≫= g) d k P.
Proof.
  intros Hm Hg f Hf Hd Hk. destruct (Hm f Hf Hd Hk) as (a & f1 & E1 & Hf1 & Hd1 & HQ).
  destruct (Hg a _ HQ f1 Hf1 Hd1 eq_refl) as (b & f2 & E2 & Hf2 & Hd2 & HP).
  exists b, f2. by rewrite (run_bind _ _ _ _ _ E1).
Qed.

Lemma runs_weaken {A} (m : stm firmware A) d k (P Q : A -> keyboard -> Prop) :
  runs m d k P -> (forall a k', P a k' -> Q a k') -> runs m d k Q.
Proof. intros Hm HPQ f Hf Hd Hk. destruct (Hm f Hf Hd Hk) as (a & f' & ? & ? & ? & ?). exists a, f'. auto. Qed.

Lemma runs_eeprom {A} (m : stm medium A) d a k :
  computes m d a d -> runs (on_eeprom m) d k (fun a' k' => a' = a /\ k' = k).
Proof.
  intros Hm f Hf Hd Hk. destruct (Hm _ Hf Hd) as (s' & E & Hs' & Hd').
  exists a, (f <| fw_medium := s' |>). unfold on_eeprom. rewrite E. by split_and!.
Qed.

Lemma area_in_eeprom p : START <= p < END -> in_eeprom (size := size) p.
Proof using All.
  destruct (area_fits (size := size) MacroArea) as (Hb & Hfit & _). cbn in Hb, Hfit.
  unfold in_eeprom, macro_buffer_end. lia.
Qed.

Lemma runs_read {A} (g : Z -> stm firmware A) p d k P :
  START <= p < END -> runs (g (byte_at d p)) d k P ->
  runs (c ← on_eeprom (eeprom_read_byte p); g c) d k P.
Proof using All.
  intros Hp Hg. eapply runs_bind; [eapply runs_eeprom, computes_read_byte; by apply area_in_eeprom|].
  by intros ? ? [-> ->].
Qed.

Lemma runs_with_byte (g : Z -> stm firmware macro_end) p d k P :
  START <= p < END -> runs (g (byte_at d p)) d k P -> runs (with_byte p g) d k P.
Proof using All.
  intros Hp Hg. unfold with_byte. destruct (Z.ltb_spec p END); [|lia]. by apply runs_read.
Qed.

Lemma runs_send_data data (m : stm firmware macro_end) d k (P : macro_end -> keyboard -> Prop) :
  let r := send_string_with_delay data DYNAMIC_KEYMAP_MACRO_DELAY k in
  (if r.1 then runs m d r.2 P else P OutsideString r.2) -> runs (send_data data m) d k P.
Proof.
  cbv zeta. intros Hr [kb md] Hf Hd Hk. cbn in Hk, Hf, Hd. subst kb. set (f := {| fw_keyboard := k; fw_medium := md |}). unfold send_data.
  set (r := send_string_with_delay data DYNAMIC_KEYMAP_MACRO_DELAY k) in *.
  assert (on_keyboard (send_string_with_delay data DYNAMIC_KEYMAP_MACRO_DELAY) f
    = (r.1, f <| fw_keyboard := r.2 |>)) as E by done.
  rewrite (run_bind _ _ _ _ _ E). destruct r as [[] k']; cbn [fst snd] in *.
  - exact (Hr (f <| fw_keyboard := k' |>) Hf Hd eq_refl).
  - by exists OutsideString, (f <| fw_keyboard := k' |>).
Qed.

(** ** Which macros are read outside the area *)

(** The number of macros ended among the [n] bytes from [p] on. *)
Fixpoint macros_in d (p : Z) (n : nat) : Z :=
  match n with
  | O => 0
  | S n => (if byte_at d p =? 0 then 1 else 0) + macros_in d (p + 1) n
  end.
Lemma macros_in_nonneg d n : forall p, 0 <= macros_in d p n.
Proof. induction n as [|n IH]; intros p; cbn [macros_in]; [lia|]. specialize (IH (p + 1)). destruct (_ =? _); lia. Qed.

(** The last of them is ended by the last byte. *)
Lemma macros_in_last d n : forall p, byte_at d (p + Z.of_nat n) = 0 -> 0 < macros_in d p (S n).
Proof.
  induction n as [|n IH]; intros p Hp; cbn [macros_in].
  - rewrite Z.add_0_r in Hp. by rewrite Hp.
  - specialize (IH (p + 1)). replace (p + 1 + Z.of_nat n) with (p + Z.of_nat (S n)) in IH by lia.
    specialize (IH Hp). cbn [macros_in] in IH. destruct (byte_at d p =? 0); lia.
Qed.

(** Where the loop over the earlier macros stops. *)
Lemma runs_skip_macros d k n : forall fuel id p,
  (n < fuel)%nat -> START <= p -> p + Z.of_nat n = END -> 0 <= id ->
  runs (skip_macros fuel id p) d k (fun start k' => k' = k /\
    match start with
    | None => macros_in d p n < id
    | Some p' => p <= p' <= END /\ macros_in d p' (Z.to_nat (END - p')) = macros_in d p n - id
    end).
Proof using All.
  induction n as [|n IH]; intros fuel id p Hfuel Hp Hend Hid; (destruct fuel as [|fuel]; [lia|]);
    cbn [skip_macros].
  - destruct (Z.leb_spec id 0).
    + apply runs_ret. split; [done|]. split; [lia|]. replace (Z.to_nat (END - p)) with 0%nat by lia. cbn. lia.
    + replace (p =? END) with true by (symmetry; apply Z.eqb_eq; lia). apply runs_ret. split; [done|]. cbn. lia.
  - destruct (Z.leb_spec id 0).
    + apply runs_ret. split; [done|]. split; [lia|]. replace (Z.to_nat (END - p)) with (S n) by lia.
      replace id with 0 by lia. lia.
    + replace (p =? END) with false by (symmetry; apply Z.eqb_neq; lia). apply runs_read; [lia|].
      set (z := byte_at d p =? 0). eapply runs_weaken; [apply (IH fuel (if z then id - 1 else id) (p + 1)); destruct z; lia|].
      intros start k' [-> Hs]. split; [done|]. cbn [macros_in]. fold z. destruct start as [p'|]; [|destruct z; lia].
      destruct Hs as [Hp' ->]. destruct z; lia.
Qed.

(** A macro that has its end in the area is not read past it. *)
Definition no_overrun (e : macro_end) (k : keyboard) : Prop := e <> OutsideMacros.

Lemma read_delay_in_bounds d z (g : list Z -> Z -> stm firmware macro_end) n :
  byte_at d z = 0 -> z < END ->
  forall i p data k, START <= p <= z ->
  (forall data p' k', p < p' <= z -> runs (g data p') d k' no_overrun) ->
  runs (read_delay n i p data g) d k no_overrun.
Proof using All.
  intros Hz Hend. induction n as [|n IH]; intros i p data k Hp Hg; cbn [read_delay]; [by apply runs_ret|].
  apply runs_with_byte; [lia|]. cbv beta zeta. destruct (Z.eqb_spec (byte_at d p) 0) as [|Hnz]; [by apply runs_ret|].
  assert (p < z) by (destruct (decide (p = z)); [congruence|lia]).
  case_match; [apply Hg; lia|]. case_match; [by apply runs_ret|].
  apply IH; [lia|]. intros data' p' k' Hp'. apply Hg. lia.
Qed.

Lemma send_macro_in_bounds d z n :
  byte_at d z = 0 -> z < END ->
  forall p data k, START <= p <= z -> (Z.to_nat (z - p) < n)%nat -> runs (send_macro n p data) d k no_overrun.
Proof using All.
  intros Hz Hend. induction n as [|n IH]; intros p data k Hp Hn; [lia|]. cbn [send_macro].
  apply runs_with_byte; [lia|]. cbv beta zeta. destruct (Z.eqb_spec (byte_at d p) 0) as [|Hnz]; [by apply runs_ret|].
  assert (p < z) by (destruct (decide (p = z)); [congruence|lia]).
  assert (forall data' p' k', p < p' <= z -> runs (send_data data' (send_macro n p' data')) d k' no_overrun) as Hsend.
  { intros data' p' k' Hp'. apply runs_send_data. case_match; [|done]. apply IH; lia. }
  case_match; [|apply Hsend; lia].
  apply runs_with_byte; [lia|]. cbv beta zeta. destruct (Z.eqb_spec (byte_at d (p + 1)) 0) as [|Hnz1]; [by apply runs_ret|].
  assert (p + 1 < z) by (destruct (decide (p + 1 = z)) as [<-|]; [congruence|lia]).
  case_match; [|case_match; [|apply Hsend; lia]].
  - apply runs_with_byte; [lia|]. cbv beta zeta. destruct (Z.eqb_spec (byte_at d (p + 2)) 0) as [|Hnz2]; [by apply runs_ret|].
    assert (p + 2 < z) by (destruct (decide (p + 2 = z)) as [<-|]; [congruence|lia]). apply Hsend. lia.
  - eapply read_delay_in_bounds; [exact Hz|done|lia|]. intros data' p' k' Hp'. apply Hsend. lia.
Qed.

Lemma macros_in_zero d n : forall p, 0 < macros_in d p n -> exists z, p <= z < p + Z.of_nat n /\ byte_at d z = 0.
Proof.
  induction n as [|n IH]; intros p Hpos; cbn [macros_in] in Hpos; [lia|].
  destruct (Z.eqb_spec (byte_at d p) 0) as [E|E]; [exists p; split; [lia|done]|].
  destruct (IH (p + 1)) as (z & Hz & E'); [lia|]. exists z. split; [lia|done].
Qed.

(** A macro is never read past the end of the macro area, but for one: when
    [id] macros fill the area to its last byte, typing the macro of number
    [id], which does not exist, starts to read at the first byte after it.  A
    higher number types nothing. *)
Theorem macro_read_bounds id d k :
  let n := macros_in d START (Z.to_nat SIZE) in
  0 <= id < DYNAMIC_KEYMAP_MACRO_COUNT -> byte_at d (END - 1) = 0 ->
  runs (dynamic_keymap_macro_send id) d k (fun e k' =>
    if id <? n then e <> OutsideMacros
    else if id =? n then e = OutsideMacros
    else e = Returned /\ k' = k).
Proof using All.
  cbv zeta. intros Hid Hlast. set (n := macros_in d START (Z.to_nat SIZE)).
  assert (SIZE = END - START /\ 100 < SIZE) as [Hsize Hpos].
  { pose proof (macros_fit (size := size)). unfold macro_buffer_end, DYNAMIC_KEYMAP_MACRO_EEPROM_SIZE in *. lia. }
  unfold dynamic_keymap_macro_send. rewrite (proj2 (Z.leb_gt _ _)) by lia.
  apply runs_read; [lia|]. rewrite Hlast. cbn [negb Z.eqb]. change (negb (0 =? 0)) with false. cbv match zeta.
  eapply runs_bind; [apply (runs_skip_macros d k (Z.to_nat SIZE)); lia|]. fold n.
  intros [p|] k' [-> Hs].
  - destruct Hs as [Hp Hcount].
    pose proof (macros_in_nonneg d (Z.to_nat (END - p)) p).
    destruct (Z.ltb_spec id n) as [Hlt|Hge].
    + destruct (macros_in_zero d (Z.to_nat (END - p)) p) as (z & Hz & Hz0); [lia|].
      apply (send_macro_in_bounds d z); [done|lia..].
    + replace (id =? n) with true by (symmetry; apply Z.eqb_eq; lia).
      assert (p = END) as ->.
      { destruct (decide (p = END)) as [|Hne]; [done|]. exfalso.
        assert (0 < macros_in d p (Z.to_nat (END - p))); [|lia].
        replace (Z.to_nat (END - p)) with (S (Z.to_nat (END - 1 - p))) by lia. apply macros_in_last.
        by replace (p + Z.of_nat (Z.to_nat (END - 1 - p))) with (END - 1) by lia. }
      cbn [send_macro]. unfold with_byte. rewrite Z.ltb_irrefl. by apply runs_ret.
  - destruct (Z.ltb_spec id n); [lia|]. destruct (Z.eqb_spec id n); [lia|]. by apply runs_ret.
Qed.

(** ** Typing a macro is typing its text *)

Inductive token := Text (c : Z) | Command (code kc : Z) | Delay (digits : list Z).

Definition token_ok (t : token) : Prop :=
  match t with
  | Text c => 1 < c /\ is_Some (char_entries c)
  | Command code kc => (code = SS_TAP_CODE \/ code = SS_DOWN_CODE \/ code = SS_UP_CODE) /\ 0 < kc
  | Delay digits => (length digits <= 4)%nat /\ Forall (fun c => isdigit c = true) digits
  end.
Definition encode (t : token) : list Z :=
  match t with
  | Text c => [c]
  | Command code kc => [SS_QMK_PREFIX; code; kc]
  | Delay digits => SS_QMK_PREFIX :: SS_DELAY_CODE :: digits ++ [124]
  end.
Definition text (ts : list token) : list Z := concat (encode <$> ts).

(** What [send_string] does for one token. *)
Definition digits_value (ms : Z) (digits : list Z) : Z := foldl (fun ms c => ms * 10 + (c - 48)) ms digits.
Definition type_token (t : token) (interval : Z) : stm keyboard unit :=
  match t with
  | Text c => send_char_with_delay c interval;; skip
  | Command code kc =>
      (if code =? SS_TAP_CODE then tap_code kc
       else if code =? SS_DOWN_CODE then register_code kc
       else unregister_code kc);;
      wait_ms interval
  | Delay digits => wait_ms (digits_value 0 digits);; wait_ms interval
  end.

Lemma digit_range c : isdigit c = true -> 48 <= c <= 57.
Proof. unfold isdigit, within. intros H'. apply andb_true_iff in H' as [?%Z.leb_le ?%Z.leb_le]. lia. Qed.

Lemma send_digits digits : forall ms rest interval k b,
  Forall (fun c => isdigit c = true) digits -> 0 <= ms < 10 ^ b -> 0 <= b ->
  10 ^ (b + Z.of_nat (length digits)) <= 2 ^ 31 ->
  send_string_loop (InDelay ms) (digits ++ 124 :: rest) interval k =
    (wait_ms (digits_value ms digits);; wait_ms interval;; send_string_loop AtChar rest interval) k.
Proof.
  induction digits as [|c digits IH]; intros ms rest interval k b Hd Hms Hb Hle; [done|].
  apply Forall_cons in Hd as [Hc Hd]. pose proof (digit_range c Hc). cbn [app send_string_loop]. rewrite Hc.
  cbv zeta. cbn [length] in Hle.
  assert (10 ^ (b + 1) = 10 * 10 ^ b) as Hpow by (rewrite Z.pow_add_r; lia).
  assert (10 ^ (b + 1) <= 10 ^ (b + Z.of_nat (S (length digits)))) by (apply Z.pow_le_mono_r; lia).
  rewrite (proj2 (Z.leb_gt _ _)) by lia.
  rewrite (IH _ rest interval k (b + 1)); [done|done|lia|lia|].
  by replace (b + 1 + Z.of_nat (length digits)) with (b + Z.of_nat (S (length digits))) by lia.
Qed.

Lemma send_token t rest interval k :
  token_ok t ->
  send_string_loop AtChar (encode t ++ rest) interval k =
    (type_token t interval;; send_string_loop AtChar rest interval) k.
Proof.
  intros Ht. destruct t as [c|code kc|digits]; cbn [encode app send_string_loop].
  - destruct Ht as [Hc [[[[kc s] a] de] He]]. rewrite (proj2 (Z.eqb_neq c 0)) by lia.
    rewrite (proj2 (Z.eqb_neq c SS_QMK_PREFIX)) by (unfold SS_QMK_PREFIX; lia).
    unfold type_token, send_char_with_delay. by rewrite He.
  - destruct Ht as [[->|[->| ->]] Hkc]; done.
  - destruct Ht as [Hlen Hd]. change (SS_QMK_PREFIX =? 0) with false. rewrite Z.eqb_refl. cbv match.
    change ((SS_DELAY_CODE =? SS_TAP_CODE) || (SS_DELAY_CODE =? SS_DOWN_CODE) || (SS_DELAY_CODE =? SS_UP_CODE))
      with false. rewrite Z.eqb_refl. cbv match. rewrite <-app_assoc. cbn [app].
    rewrite (send_digits digits 0 rest interval k 0); [done|done|lia|lia|].
    assert (10 ^ (0 + Z.of_nat (length digits)) <= 10 ^ 4) by (apply Z.pow_le_mono_r; lia). lia.
Qed.

(** The bytes [bs] lie at [p], in the macro area. *)
Definition holds d (p : Z) (bs : list Z) : Prop :=
  START <= p /\ p + Z.of_nat (length bs) <= END /\
  forall i b, bs !! i = Some b -> byte_at d (p + Z.of_nat i) = b.

Lemma holds_app d p bs bs' :
  holds d p (bs ++ bs') <-> holds d p bs /\ holds d (p + Z.of_nat (length bs)) bs'.
Proof.
  unfold holds. rewrite length_app, Nat2Z.inj_add. split.
  - intros (H1' & H2' & H3'). split_and!; try lia.
    + intros i b Hi. apply H3'. by apply lookup_app_l_Some.
    + intros i b Hi. rewrite <-(H3' (length bs + i)%nat b); [f_equal; lia|].
      rewrite lookup_app_r by lia. rewrite <-Hi. f_equal. lia.
  - intros ((? & ? & H3') & (? & ? & H4')). split_and!; try lia.
    intros i b [Hi|[Hle Hi]]%lookup_app_Some; [by apply H3'|].
    rewrite <-(H4' _ _ Hi). f_equal. lia.
Qed.

Lemma holds_cons d p b bs : holds d p (b :: bs) -> START <= p < END /\ byte_at d p = b /\ holds d (p + 1) bs.
Proof.
  intros Hh. change (b :: bs) with ([b] ++ bs) in Hh. apply holds_app in Hh as [(Hp & Hle & Hb) Hbs].
  cbn in Hle, Hbs. split; [lia|]. split; [|done]. rewrite <-(Hb 0%nat b eq_refl). f_equal. lia.
Qed.

Abbreviation DELAY := DYNAMIC_KEYMAP_MACRO_DELAY.

Lemma read_delay_digits (g : list Z -> Z -> stm firmware macro_end) d k P digits : forall n i p data,
  Forall (fun c => isdigit c = true) digits -> holds d p (digits ++ [124]) ->
  0 <= i -> i + Z.of_nat (length digits) <= 6 -> (length digits < n)%nat ->
  runs (g (list_inserts (Z.to_nat i) (digits ++ [124; 0]) data) (p + Z.of_nat (length digits) + 1)) d k P ->
  runs (read_delay n i p data g) d k P.
Proof using All.
  induction digits as [|c digits IH]; intros n i p data Hd Hh Hi0 Hi Hn Hg; (destruct n as [|n]; [cbn in Hn; lia|]);
    cbn [app] in Hh; apply holds_cons in Hh as (Hp & Hb & Hh); cbn [read_delay];
    (apply runs_with_byte; [done|]); cbv beta zeta; rewrite Hb.
  - change (124 =? 0) with false. change (124 =? 124) with true. cbv match.
    cbn [length app list_inserts] in Hg. rewrite Z.add_0_r in Hg.
    replace (Z.to_nat (i + 1)) with (S (Z.to_nat i)) by lia. by rewrite list_insert_insert_ne by lia.
  - apply Forall_cons in Hd as [Hc Hd]. pose proof (digit_range c Hc). cbn [length] in *.
    rewrite (proj2 (Z.eqb_neq c 0)), (proj2 (Z.eqb_neq c 124)), (proj2 (Z.eqb_neq i 6)) by lia. cbv match.
    apply IH; [done|done|lia|lia|lia|]. cbn [app list_inserts] in Hg. rewrite list_insert_inserts_lt in Hg by lia.
    replace (Z.to_nat (i + 1)) with (S (Z.to_nat i)) by lia.
    by replace (p + 1 + Z.of_nat (length digits) + 1) with (p + Z.of_nat (S (length digits)) + 1) by lia.
Qed.

(** [data] holds a token and its terminator. *)
Lemma runs_send_token t data junk (m : stm firmware macro_end) d k P :
  token_ok t -> data = encode t ++ 0 :: junk ->
  runs m d (exec (type_token t DELAY) k) P -> runs (send_data data m) d k P.
Proof.
  intros Ht -> Hm. apply runs_send_data. unfold send_string_with_delay. rewrite send_token by done.
  unfold mbind, stm_bind. exact Hm.
Qed.

Lemma delay_data digits (x2 x3 x4 x5 x6 x7 : Z) :
  (length digits <= 4)%nat -> exists junk,
  list_inserts 2 (digits ++ [124; 0]) [SS_QMK_PREFIX; SS_DELAY_CODE; x2; x3; x4; x5; x6; x7] =
    encode (Delay digits) ++ 0 :: junk.
Proof.
  intros Hlen. do 5 (destruct digits as [|? digits]; [eexists; cbn; reflexivity|]). cbn in Hlen. lia.
Qed.

Lemma send_macro_token t n p data d k P :
  token_ok t -> holds d p (encode t) -> length data = 8%nat ->
  (forall data', length data' = 8%nat ->
     runs (send_macro n (p + Z.of_nat (length (encode t))) data') d (exec (type_token t DELAY) k) P) ->
  runs (send_macro (S n) p data) d k P.
Proof using All.
  intros Ht Hh Hlen Hnext. do 8 (destruct data as [|? data]; [done|]). destruct data; [|done].
  destruct t as [c|code kc|digits]; cbn [encode] in Hh; cbn [send_macro];
    apply holds_cons in Hh as (Hp & Hb & Hh); (apply runs_with_byte; [done|]); cbv beta zeta; rewrite Hb.
  - pose proof Ht as [Hc _]. rewrite (proj2 (Z.eqb_neq c 0)) by lia.
    rewrite (proj2 (Z.eqb_neq c SS_QMK_PREFIX)) by (unfold SS_QMK_PREFIX; lia). cbv match.
    eapply (runs_send_token (Text c)); [done|reflexivity|]. by apply Hnext.
  - change (SS_QMK_PREFIX =? 0) with false. rewrite Z.eqb_refl. cbv match.
    apply holds_cons in Hh as (Hp1 & Hb1 & Hh). apply runs_with_byte; [done|]. cbv beta zeta. rewrite Hb1.
    apply holds_cons in Hh as (Hp2 & Hb2 & _). pose proof Ht as [Hcode Hkc].
    assert ((code =? 0) = false) as -> by (apply Z.eqb_neq; unfold SS_TAP_CODE, SS_DOWN_CODE, SS_UP_CODE in *; lia).
    assert ((code =? SS_TAP_CODE) || (code =? SS_DOWN_CODE) || (code =? SS_UP_CODE) = true) as ->
      by (by destruct Hcode as [->|[->| ->]]).
    replace (p + 1 + 1) with (p + 2) in * by lia. apply runs_with_byte; [done|]. cbv beta zeta. rewrite Hb2.
    rewrite (proj2 (Z.eqb_neq kc 0)) by lia. cbv match.
    eapply (runs_send_token (Command code kc)); [done|reflexivity|]. by apply Hnext.
  - change (SS_QMK_PREFIX =? 0) with false. rewrite Z.eqb_refl. cbv match.
    apply holds_cons in Hh as (Hp1 & Hb1 & Hh). apply runs_with_byte; [done|]. cbv beta zeta. rewrite Hb1.
    change (SS_DELAY_CODE =? 0) with false.
    change ((SS_DELAY_CODE =? SS_TAP_CODE) || (SS_DELAY_CODE =? SS_DOWN_CODE) || (SS_DELAY_CODE =? SS_UP_CODE))
      with false. rewrite Z.eqb_refl. cbv match. pose proof Ht as [Hdl Hd].
    replace (p + 1 + 1) with (p + 2) in * by lia.
    apply (read_delay_digits _ d k P digits); [done|done|lia|lia|lia|].
    destruct (delay_data digits z1 z2 z3 z4 z5 z6 Hdl) as [junk E].
    cbn [list_insert insert]. change (Z.to_nat 2) with 2%nat.
    eapply (runs_send_token (Delay digits)); [done|exact E|].
    replace (p + 2 + Z.of_nat (length digits) + 1) with (p + Z.of_nat (length (encode (Delay digits))))
      by (cbn [encode length]; rewrite length_app; cbn; lia).
    apply Hnext. by rewrite length_inserts.
Qed.

Fixpoint type_tokens (ts : list token) (interval : Z) : stm keyboard unit :=
  match ts with
  | [] => skip
  | t :: ts => type_token t interval;; type_tokens ts interval
  end.

Lemma send_tokens ts interval : forall k, Forall token_ok ts ->
  send_string_with_delay (text ts ++ [0]) interval k = (true, exec (type_tokens ts interval) k).
Proof.
  induction ts as [|t ts IH]; intros k Hts; [done|]. apply Forall_cons in Hts as [Ht Hts].
  unfold text in *. cbn [fmap list_fmap concat type_tokens]. rewrite <-app_assoc. unfold send_string_with_delay.
  rewrite send_token by done. rewrite exec_bind. by apply IH.
Qed.

Lemma send_macro_text d ts : forall n p data k,
  Forall token_ok ts -> holds d p (text ts ++ [0]) -> length data = 8%nat -> (length ts < n)%nat ->
  runs (send_macro n p data) d k (fun e k' => e = Returned /\ k' = exec (type_tokens ts DELAY) k).
Proof using All.
  induction ts as [|t ts IH]; intros n p data k Hts Hh Hlen Hn; (destruct n as [|n]; [cbn in Hn; lia|]).
  - apply holds_cons in Hh as (Hp & Hb & _). cbn [send_macro]. apply runs_with_byte; [done|]. cbv beta zeta.
    rewrite Hb. by apply runs_ret.
  - apply Forall_cons in Hts as [Ht Hts]. unfold text in *. cbn [fmap list_fmap concat] in Hh.
    rewrite <-app_assoc in Hh. apply holds_app in Hh as [Hh1 Hh2].
    apply (send_macro_token t); [done..|]. intros data' Hlen'. cbn [type_tokens]. rewrite exec_bind.
    apply IH; [done|done|done|cbn in Hn; lia].
Qed.

(** The macros before the one wanted are skipped. *)
Definition stored (ms : list (list token)) : list Z := concat ((fun ts => text ts ++ [0]) <$> ms).

Lemma text_nonzero ts : Forall token_ok ts -> Forall (fun b => b <> 0) (text ts).
Proof.
  induction 1 as [|t ts Ht _ IH]; [done|]. unfold text in *. cbn [fmap list_fmap concat].
  apply Forall_app. split; [|done]. destruct t as [c|code kc|digits]; cbn [encode].
  - destruct Ht as [Hc _]. repeat constructor. lia.
  - destruct Ht as [Hcode Hkc]. unfold SS_TAP_CODE, SS_DOWN_CODE, SS_UP_CODE in Hcode. repeat constructor; [done|lia|lia].
  - destruct Ht as [_ Hd]. constructor; [done|]. constructor; [done|]. apply Forall_app. split; [|repeat constructor; done].
    eapply Forall_impl; [exact Hd|]. intros c Hc%digit_range. lia.
Qed.

Lemma skip_text d k id bs : forall fuel p rest P,
  0 < id -> Forall (fun b => b <> 0) bs -> holds d p (bs ++ 0 :: rest) ->
  runs (skip_macros fuel (id - 1) (p + Z.of_nat (length bs) + 1)) d k P ->
  runs (skip_macros (length bs + S fuel) id p) d k P.
Proof using All.
  induction bs as [|b bs IH]; intros fuel p rest P Hid Hbs Hh Hnext; cbn [length Nat.add skip_macros];
    rewrite (proj2 (Z.leb_gt _ _)) by lia; cbn [app] in Hh; apply holds_cons in Hh as (Hp & Hb & Hh);
    rewrite (proj2 (Z.eqb_neq _ _)) by lia; (apply runs_read; [done|]); rewrite Hb.
  - rewrite Z.eqb_refl. cbn [length] in Hnext. by rewrite Z.add_0_r in Hnext.
  - apply Forall_cons in Hbs as [Hnz Hbs]. rewrite (proj2 (Z.eqb_neq _ _)) by done.
    apply (IH fuel (p + 1) rest); [done..|]. cbn [length] in Hnext.
    by replace (p + 1 + Z.of_nat (length bs)) with (p + Z.of_nat (S (length bs))) by lia.
Qed.

Lemma stored_cons ts ms : stored (ts :: ms) = text ts ++ 0 :: stored ms.
Proof. unfold stored. cbn [fmap list_fmap concat]. by rewrite <-app_assoc. Qed.

Lemma skip_stored d k ms : forall fuel p rest,
  Forall (Forall token_ok) ms -> holds d p (stored ms ++ rest) ->
  runs (skip_macros (length (stored ms) + S fuel) (Z.of_nat (length ms)) p) d k
    (fun start k' => start = Some (p + Z.of_nat (length (stored ms))) /\ k' = k).
Proof using All.
  induction ms as [|ts ms IH]; intros fuel p rest Hms Hh.
  { cbn. apply runs_ret. split; [f_equal; lia|done]. }
  apply Forall_cons in Hms as [Hts Hms]. rewrite stored_cons in *. rewrite length_app. cbn [length].
  replace (length (text ts) + S (length (stored ms)) + S fuel)%nat
    with (length (text ts) + S (length (stored ms) + S fuel))%nat by lia.
  rewrite <-app_assoc in Hh. cbn [app] in Hh.
  eapply skip_text; [lia|by apply text_nonzero|exact Hh|].
  replace (Z.of_nat (S (length ms)) - 1) with (Z.of_nat (length ms)) by lia.
  eapply runs_weaken; [eapply IH; [done|]|].
  - apply holds_app in Hh as [_ Hh]. by apply holds_cons in Hh as (_ & _ & Hh).
  - intros start k' [-> ->]. split; [f_equal; lia|done].
Qed.

Lemma length_text_ge ts : (length ts <= length (text ts))%nat.
Proof.
  induction ts as [|t ts IH]; [done|]. unfold text in *. cbn [fmap list_fmap concat length]. rewrite length_app.
  assert (0 < length (encode t))%nat by (destruct t; cbn; lia). lia.
Qed.

(** C15: when the area holds the texts of macros [ms], one after the other,
    typing the macro of number [id] does to the keyboard what [send_string]
    does with its whole text at once, although it is read and typed in pieces
    of at most seven bytes. *)
Theorem macro_types_its_text (ms : list (list token)) (id : nat) ts d k :
  Forall (Forall token_ok) ms -> ms !! id = Some ts -> Z.of_nat id < DYNAMIC_KEYMAP_MACRO_COUNT ->
  holds d START (stored ms) -> byte_at d (END - 1) = 0 ->
  runs (dynamic_keymap_macro_send (Z.of_nat id)) d k (fun e k' =>
    e = Returned /\ send_string_with_delay (text ts ++ [0]) DELAY k = (true, k')).
Proof using All.
  intros Hms Hts Hid Hh Hlast.
  assert (SIZE = END - START /\ 100 < SIZE) as [Hsize Hpos].
  { pose proof (macros_fit (size := size)). unfold macro_buffer_end, DYNAMIC_KEYMAP_MACRO_EEPROM_SIZE in *. lia. }
  pose proof (lookup_lt_Some _ _ _ Hts) as Hidlt.
  assert (exists pre post, ms = pre ++ ts :: post /\ length pre = id) as (pre & post & -> & <-).
  { exists (take id ms), (drop (S id) ms). split; [by rewrite take_drop_middle|]. rewrite length_take. lia. }
  apply Forall_app in Hms as [Hpre [Htok _]%Forall_cons].
  assert (stored (pre ++ ts :: post) = stored pre ++ (text ts ++ [0]) ++ stored post) as Hst.
  { unfold stored. rewrite fmap_app, concat_app. done. }
  rewrite Hst in Hh. unfold dynamic_keymap_macro_send. rewrite (proj2 (Z.leb_gt _ _)) by lia.
  apply runs_read; [lia|]. rewrite Hlast. change (negb (0 =? 0)) with false. cbv match zeta.
  pose proof Hh as [_ (Hp & Hle & _)]%holds_app. rewrite !length_app in Hle. cbn in Hle.
  replace (S (Z.to_nat SIZE)) with (length (stored pre) + S (Z.to_nat SIZE - length (stored pre)))%nat at 1 by lia.
  eapply runs_bind; [by eapply (skip_stored d k pre)|]. intros ? ? [-> ->].
  apply holds_app in Hh as [_ Hh]. apply holds_app in Hh as [Hh _].
  eapply runs_weaken; [apply (send_macro_text d ts); [done|exact Hh|done|]|].
  - pose proof (length_text_ge ts). lia.
  - intros e k' [-> ->]. split; [done|]. by apply send_tokens.
Qed.
End macros.
