(* ===== verification/Via.v ===== *)
(** * VIA (quantum/via.c)

    The commands with which a program on the host reads and changes the
    dynamic keymap, over raw HID packets; the magic number that says whether
    what the EEPROM holds is to be believed.  Lighting and audio channels are
    not compiled in. *)

From S2P Require Import Prelude.
From S2P Require Import Keycodes.
From S2P Require Import State.
From S2P Require Import Eeprom.
From S2P Require Import SendString.
From S2P Require Import DynamicKeymap.
From S2P Require Import DynamicKeymapSpec.

Definition VIA_PROTOCOL_VERSION : Z := 0x000C.

(** ** Command, value and channel numbers *)

Definition id_get_protocol_version : Z := 0x01.
Definition id_get_keyboard_value : Z := 0x02.
Definition id_set_keyboard_value : Z := 0x03.
Definition id_dynamic_keymap_get_keycode : Z := 0x04.
Definition id_dynamic_keymap_set_keycode : Z := 0x05.
Definition id_dynamic_keymap_reset : Z := 0x06.
Definition id_custom_set_value : Z := 0x07.
Definition id_custom_get_value : Z := 0x08.
Definition id_custom_save : Z := 0x09.
Definition id_eeprom_reset : Z := 0x0A.
Definition id_dynamic_keymap_macro_get_count : Z := 0x0C.
Definition id_dynamic_keymap_macro_get_buffer_size : Z := 0x0D.
Definition id_dynamic_keymap_macro_get_buffer : Z := 0x0E.
Definition id_dynamic_keymap_macro_set_buffer : Z := 0x0F.
Definition id_dynamic_keymap_macro_reset : Z := 0x10.
Definition id_dynamic_keymap_get_layer_count : Z := 0x11.
Definition id_dynamic_keymap_get_buffer : Z := 0x12.
Definition id_dynamic_keymap_set_buffer : Z := 0x13.
Definition id_dynamic_keymap_get_encoder : Z := 0x14.
Definition id_dynamic_keymap_set_encoder : Z := 0x15.
Definition id_unhandled : Z := 0xFF.

Definition id_uptime : Z := 0x01.
Definition id_layout_options : Z := 0x02.
Definition id_switch_matrix_state : Z := 0x03.
Definition id_firmware_version : Z := 0x04.
Definition id_device_indication : Z := 0x05.

Class ViaConfig := {
  VIA_EEPROM_MAGIC_ADDR : Z;
  VIA_EEPROM_LAYOUT_OPTIONS_SIZE : Z;
  VIA_EEPROM_LAYOUT_OPTIONS_DEFAULT : Z;
  VIA_EEPROM_CUSTOM_CONFIG_SIZE : Z;
  VIA_FIRMWARE_VERSION : Z;
  VIA_EEPROM_ALLOW_RESET : bool;
  (** The characters of the build date, "YYYY-MM-DD-hh:mm:ss". *)
  QMK_BUILDDATE : list Z;
  (** The functions of the keyboard: whether it handled a packet itself, and
      what it makes of a custom value command. *)
  via_command_kb : list Z -> bool;
  via_custom_value_command : list Z -> list Z;
}.

(** Calls out of the file. *)
Inductive via_call :=
  | SetLayoutOptionsKb (value : Z)
  | SetDeviceIndication (value : Z)
  | RawHidSend (data : list Z).

Record via_device `{!EepromDriver} := {
  vd_medium : medium;
  vd_calls : list via_call;
  (** What the commands report: the matrix and the clock. *)
  vd_matrix : list Z;
  vd_clock : Z;
}.

Section via.
Context `{!Config} `{!EepromDriver} `{!DynamicKeymapConfig} `{!ViaConfig}.
Abbreviation V := (stm via_device).

Definition via_eeprom {A} (m : stm medium A) : V A :=
  fun v => let r := m (vd_medium v) in (r.1, v <| vd_medium := r.2 |>).
Definition via_emit (c : via_call) : V unit :=
  modify (fun v => v <| vd_calls := vd_calls v ++ [c] |>).

Definition VIA_EEPROM_LAYOUT_OPTIONS_ADDR : Z := VIA_EEPROM_MAGIC_ADDR + 3.
Definition VIA_EEPROM_CUSTOM_CONFIG_ADDR : Z := VIA_EEPROM_LAYOUT_OPTIONS_ADDR + VIA_EEPROM_LAYOUT_OPTIONS_SIZE.
Definition VIA_EEPROM_CONFIG_END : Z := VIA_EEPROM_CUSTOM_CONFIG_ADDR + VIA_EEPROM_CUSTOM_CONFIG_SIZE.

(** ** The magic number: the build date YYMMDD in BCD *)

Definition date_digits (i : nat) : Z :=
  u8 (Z.lor (Z.shiftl (Z.land (default 0 (QMK_BUILDDATE !! i)) 0x0F) 4)
            (Z.land (default 0 (QMK_BUILDDATE !! S i)) 0x0F)).
Definition magic (i : Z) : Z := date_digits (if i =? 0 then 2 else if i =? 1 then 5 else 8).

(** [&&] stops at the first byte that differs. *)
Definition via_eeprom_is_valid : stm medium bool :=
  b0 ← eeprom_read_byte (VIA_EEPROM_MAGIC_ADDR + 0);
  if negb (b0 =? magic 0) then mret false else
  b1 ← eeprom_read_byte (VIA_EEPROM_MAGIC_ADDR + 1);
  if negb (b1 =? magic 1) then mret false else
  b2 ← eeprom_read_byte (VIA_EEPROM_MAGIC_ADDR + 2);
  mret (b2 =? magic 2).

Definition via_eeprom_set_valid (valid : bool) : stm medium unit :=
  eeprom_update_byte (VIA_EEPROM_MAGIC_ADDR + 0) (if valid then magic 0 else 0xFF);;
  eeprom_update_byte (VIA_EEPROM_MAGIC_ADDR + 1) (if valid then magic 1 else 0xFF);;
  eeprom_update_byte (VIA_EEPROM_MAGIC_ADDR + 2) (if valid then magic 2 else 0xFF).

(** ** Layout options, most significant byte first *)

Fixpoint get_layout_bytes (n : nat) (source value : Z) : stm medium Z :=
  match n with
  | O => mret value
  | S n =>
      b ← eeprom_read_byte source;
      get_layout_bytes n (source + 1) (Z.lor (u32 (Z.shiftl value 8)) b)
  end.
Definition via_get_layout_options : stm medium Z :=
  get_layout_bytes (Z.to_nat VIA_EEPROM_LAYOUT_OPTIONS_SIZE) VIA_EEPROM_LAYOUT_OPTIONS_ADDR 0.

Fixpoint set_layout_bytes (n : nat) (target value : Z) : stm medium unit :=
  match n with
  | O => skip
  | S n =>
      eeprom_update_byte target (u8 (Z.land value 0xFF));;
      set_layout_bytes n (target - 1) (Z.shiftr value 8)
  end.
(** Without the call of [via_set_layout_options_kb]. *)
Definition store_layout_options (value : Z) : stm medium unit :=
  set_layout_bytes (Z.to_nat VIA_EEPROM_LAYOUT_OPTIONS_SIZE)
    (VIA_EEPROM_LAYOUT_OPTIONS_ADDR + VIA_EEPROM_LAYOUT_OPTIONS_SIZE - 1) value.
Definition via_set_layout_options (value : Z) : V unit :=
  via_emit (SetLayoutOptionsKb value);;
  via_eeprom (store_layout_options value).

Definition eeconfig_init_via : V unit :=
  via_eeprom (via_eeprom_set_valid false);;
  via_set_layout_options VIA_EEPROM_LAYOUT_OPTIONS_DEFAULT;;
  via_eeprom dynamic_keymap_reset;;
  via_eeprom dynamic_keymap_macro_reset;;
  via_eeprom (via_eeprom_set_valid true).

Definition via_init : V unit :=
  options ← via_eeprom via_get_layout_options;
  via_emit (SetLayoutOptionsKb options);;
  valid ← via_eeprom via_eeprom_is_valid;
  if negb valid then eeconfig_init_via else skip.

(** ** The packets *)

(** [command_data[i]], the packet from its second byte on. *)
Definition cd (data : list Z) (i : nat) : Z := default 0 (data !! S i).
Definition set_cd (i : nat) (v : Z) (data : list Z) : list Z := <[S i := v]> data.
Definition unhandled (data : list Z) : list Z := <[0%nat := id_unhandled]> data.

(** [command_data[i] = (value >> 24) & 0xFF; ...] *)
Definition put_dword (i : nat) (value : Z) (data : list Z) : list Z :=
  set_cd (i + 3) (Z.land value 0xFF) (set_cd (i + 2) (Z.land (Z.shiftr value 8) 0xFF)
    (set_cd (i + 1) (Z.land (Z.shiftr value 16) 0xFF) (set_cd i (Z.land (Z.shiftr value 24) 0xFF) data))).
Definition put_keycode (i : nat) (keycode : Z) (data : list Z) : list Z :=
  set_cd (i + 1) (Z.land keycode 0xFF) (set_cd i (Z.shiftr keycode 8) data).

(** The rows of [id_switch_matrix_state], [bytes] bytes each. *)
Fixpoint put_row (bytes i : nat) (value : Z) (data : list Z) : list Z :=
  match bytes with
  | O => data
  | S bytes => put_row bytes (S i) value (set_cd i (Z.land (Z.shiftr value (8 * Z.of_nat bytes)) 0xFF) data)
  end.
Fixpoint put_rows (n bytes i : nat) (row : Z) (matrix data : list Z) : list Z :=
  match n with
  | O => data
  | S n =>
      if row <? MATRIX_ROWS
      then put_rows n bytes (i + bytes) (row + 1) matrix
             (put_row bytes i (default 0 (matrix !! Z.to_nat row)) data)
      else data
  end.
Definition put_matrix (offset : Z) (matrix data : list Z) : list Z :=
  let bytes := (MATRIX_COLS + 7) / 8 in
  put_rows (Z.to_nat (28 / bytes)) (Z.to_nat bytes) 2 offset matrix data.

Definition get_keyboard_value (data : list Z) : V (list Z) :=
  let id := cd data 0 in
  if id =? id_uptime then clock ← gets vd_clock; mret (put_dword 1 clock data)
  else if id =? id_layout_options then
    value ← via_eeprom via_get_layout_options; mret (put_dword 1 value data)
  else if id =? id_switch_matrix_state then
    matrix ← gets vd_matrix; mret (put_matrix (cd data 1) matrix data)
  else if id =? id_firmware_version then mret (put_dword 1 VIA_FIRMWARE_VERSION data)
  else mret (unhandled data).

Definition set_keyboard_value (data : list Z) : V (list Z) :=
  let id := cd data 0 in
  if id =? id_layout_options then
    via_set_layout_options (Z.lor (Z.lor (Z.shiftl (cd data 1) 24) (Z.shiftl (cd data 2) 16))
                             (Z.lor (Z.shiftl (cd data 3) 8) (cd data 4)));;
    mret data
  else if id =? id_device_indication then via_emit (SetDeviceIndication (cd data 1));; mret data
  else mret (unhandled data).

(** [(command_data[i] << 8) | command_data[i + 1]] *)
Definition cd_word (data : list Z) (i : nat) : Z := Z.lor (Z.shiftl (cd data i) 8) (cd data (S i)).

(** The bytes of a packet from [command_data[3]] on; [None] when [size] of
    them reach beyond the packet. *)
Definition with_room (data : list Z) (k : nat -> V (list Z)) : V (option (list Z)) :=
  let size := Z.to_nat (cd data 2) in
  if (4 + size <=? length data)%nat then r ← k size; mret (Some r) else mret None.
Definition get_into (get : Z -> nat -> stm medium (list Z)) (data : list Z) : V (option (list Z)) :=
  with_room data (fun size =>
    bytes ← via_eeprom (get (cd_word data 0) size); mret (list_inserts 4 bytes data)).
Definition set_from (set : Z -> list Z -> stm medium unit) (data : list Z) : V (option (list Z)) :=
  with_room data (fun size =>
    via_eeprom (set (cd_word data 0) (take size (drop 4 data)));; mret data).

Definition replies (m : V (list Z)) : V (option (list Z)) := r ← m; mret (Some r).

(** The switch of [raw_hid_receive]: the packet as the command leaves it, or
    [None] when it reads or writes beyond the packet; the model stops there. *)
Definition via_command (data : list Z) : V (option (list Z)) :=
  let id := default 0 (data !! 0%nat) in
  if id =? id_get_protocol_version then
    mret (Some (set_cd 1 (Z.land VIA_PROTOCOL_VERSION 0xFF) (set_cd 0 (Z.shiftr VIA_PROTOCOL_VERSION 8) data)))
  else if id =? id_get_keyboard_value then replies (get_keyboard_value data)
  else if id =? id_set_keyboard_value then replies (set_keyboard_value data)
  else if id =? id_dynamic_keymap_get_keycode then replies (
    keycode ← via_eeprom (dynamic_keymap_get_keycode (cd data 0) (cd data 1) (cd data 2));
    mret (put_keycode 3 keycode data))
  else if id =? id_dynamic_keymap_set_keycode then replies (
    via_eeprom (dynamic_keymap_set_keycode (cd data 0) (cd data 1) (cd data 2) (cd_word data 3));; mret data)
  else if id =? id_dynamic_keymap_reset then replies (via_eeprom dynamic_keymap_reset;; mret data)
  else if (id =? id_custom_set_value) || (id =? id_custom_get_value) || (id =? id_custom_save) then
    mret (Some (via_custom_value_command data))
  else if VIA_EEPROM_ALLOW_RESET && (id =? id_eeprom_reset) then replies (
    via_eeprom (via_eeprom_set_valid false);; eeconfig_init_via;; mret data)
  else if id =? id_dynamic_keymap_macro_get_count then
    mret (Some (set_cd 0 dynamic_keymap_macro_get_count data))
  else if id =? id_dynamic_keymap_macro_get_buffer_size then
    mret (Some (put_keycode 0 dynamic_keymap_macro_get_buffer_size data))
  else if id =? id_dynamic_keymap_macro_get_buffer then get_into dynamic_keymap_macro_get_buffer data
  else if id =? id_dynamic_keymap_macro_set_buffer then set_from dynamic_keymap_macro_set_buffer data
  else if id =? id_dynamic_keymap_macro_reset then replies (via_eeprom dynamic_keymap_macro_reset;; mret data)
  else if id =? id_dynamic_keymap_get_layer_count then
    mret (Some (set_cd 0 dynamic_keymap_get_layer_count data))
  else if id =? id_dynamic_keymap_get_buffer then get_into dynamic_keymap_get_buffer data
  else if id =? id_dynamic_keymap_set_buffer then set_from dynamic_keymap_set_buffer data
  else if ENCODER_MAP_ENABLE && (id =? id_dynamic_keymap_get_encoder) then replies (
    keycode ← via_eeprom (dynamic_keymap_get_encoder (cd data 0) (cd data 1) (nz (cd data 2)));
    mret (put_keycode 3 keycode data))
  else if ENCODER_MAP_ENABLE && (id =? id_dynamic_keymap_set_encoder) then replies (
    via_eeprom (dynamic_keymap_set_encoder (cd data 0) (cd data 1) (nz (cd data 2)) (cd_word data 3));; mret data)
  else mret (Some (unhandled data)).

(** [true] when the packet was not overrun. *)
Definition raw_hid_receive (data : list Z) : V bool :=
  if via_command_kb data then mret true else
  r ← via_command data;
  match r with
  | Some data => via_emit (RawHidSend data);; mret true
  | None => mret false
  end.
End via.

(** [process_record_via]: whether the keycode is left to the rest. *)
Definition process_record_via `{!Config} `{!Hooks} `{!SendStringTables} `{!EepromDriver} `{!DynamicKeymapConfig}
  (keycode : Z) (record : keyrecord_t) : stm firmware (bool * macro_end) :=
  if pressed (event record) && within QK_MACRO QK_MACRO_MAX keycode then
    e ← dynamic_keymap_macro_send (u8 (keycode - QK_MACRO)); mret (false, e)
  else mret (true, Returned).

(** ** What VIA keeps

    The options and keycodes set over raw HID are those read back; the packets
    that reach beyond their buffer; and that an initialisation cut short is
    never taken for a finished one. *)

(** The magic number and the layout options lie before the keymap, and the
    date is made of digits. *)
Class ViaOk `{!DynamicKeymapConfig} `{!ViaConfig} : Prop := {
  via_addr_pos : 0 <= VIA_EEPROM_MAGIC_ADDR;
  layout_options_size : 1 <= VIA_EEPROM_LAYOUT_OPTIONS_SIZE <= 4;
  custom_config_size : 0 <= VIA_EEPROM_CUSTOM_CONFIG_SIZE;
  via_before_keymap : VIA_EEPROM_CONFIG_END <= DYNAMIC_KEYMAP_EEPROM_ADDR;
  build_date_digits i : (i < 10)%nat -> i <> 4%nat -> i <> 7%nat -> 48 <= default 0 (QMK_BUILDDATE !! i) <= 57;
}.

Section packets.
Context `{!Config} `{!EepromDriver} `{!DynamicKeymapConfig} `{!ViaConfig}.

(** ** Packets *)

(** The buffer commands: the number of bytes is the fourth of the packet. *)
Definition buffer_command (data : list Z) : Prop :=
  default 0 (data !! 0%nat) ∈ [id_dynamic_keymap_macro_get_buffer; id_dynamic_keymap_macro_set_buffer;
    id_dynamic_keymap_get_buffer; id_dynamic_keymap_set_buffer].

Lemma replies_some m v : eval (replies m) v <> None.
Proof. done. Qed.
Lemma with_room_none data k v : eval (with_room data k) v = None <-> (length data < 4 + Z.to_nat (cd data 2))%nat.
Proof. unfold with_room. destruct (Nat.leb_spec (4 + Z.to_nat (cd data 2)) (length data)); split; done || lia. Qed.

(** A packet is overrun exactly when it is one of the four buffer
    commands with more bytes asked for than follow in it: the number, a byte
    of the packet, is not checked against its length (28 of the 32 bytes are
    left for them). *)
Theorem via_packet_overrun data v :
  eval (via_command data) v = None <->
  buffer_command data /\ (length data < 4 + Z.to_nat (cd data 2))%nat.
Proof.
  unfold via_command, buffer_command. set (id := default 0 (data !! 0%nat)).
  repeat match goal with
  | |- eval (if ?b then _ else _) v = None <-> _ => let E := fresh "E" in destruct b eqn:E
  end; unfold get_into, set_from; rewrite ?with_room_none;
    rewrite ?orb_true_iff, ?andb_true_iff, ?Z.eqb_eq, ?Z.eqb_neq in *;
    (split; [try done | intros [Hin Hlen]]); try done.
  all: try (intros Hlen; split; [|done]; subst id; rewrite elem_of_cons; set_solver).
  all: exfalso; rewrite !elem_of_cons, elem_of_nil in Hin;
    unfold id_get_protocol_version, id_get_keyboard_value, id_set_keyboard_value, id_dynamic_keymap_get_keycode,
      id_dynamic_keymap_set_keycode, id_dynamic_keymap_reset, id_custom_set_value, id_custom_get_value,
      id_custom_save, id_eeprom_reset, id_dynamic_keymap_macro_get_count, id_dynamic_keymap_macro_get_buffer_size,
      id_dynamic_keymap_macro_get_buffer, id_dynamic_keymap_macro_set_buffer, id_dynamic_keymap_macro_reset,
      id_dynamic_keymap_get_layer_count, id_dynamic_keymap_get_buffer, id_dynamic_keymap_set_buffer,
      id_dynamic_keymap_get_encoder, id_dynamic_keymap_set_encoder in *; clearbody id; try lia.
Qed.

End packets.

Section via_spec.
Context `{!Config} `{!EepromDriver} `{!DynamicKeymapConfig} `{!ViaConfig}
  {size : Z} `{!EepromOk size} `{!DynamicKeymapOk size} `{!ViaOk}.

(** ** Addresses *)

Lemma via_areas :
  0 <= VIA_EEPROM_MAGIC_ADDR /\ VIA_EEPROM_LAYOUT_OPTIONS_ADDR = VIA_EEPROM_MAGIC_ADDR + 3 /\
  VIA_EEPROM_LAYOUT_OPTIONS_ADDR + VIA_EEPROM_LAYOUT_OPTIONS_SIZE <= DYNAMIC_KEYMAP_EEPROM_ADDR /\
  DYNAMIC_KEYMAP_EEPROM_ADDR <= DYNAMIC_KEYMAP_MACRO_EEPROM_ADDR /\
  DYNAMIC_KEYMAP_MACRO_EEPROM_ADDR + DYNAMIC_KEYMAP_MACRO_EEPROM_SIZE <= size /\
  100 < DYNAMIC_KEYMAP_MACRO_EEPROM_SIZE.
Proof using All.
  pose proof via_addr_pos. pose proof layout_options_size. pose proof custom_config_size.
  pose proof via_before_keymap as Hv. unfold VIA_EEPROM_CONFIG_END, VIA_EEPROM_CUSTOM_CONFIG_ADDR in Hv.
  pose proof (macros_fit (size := size)). pose proof (keymap_max_addr (size := size)).
  pose proof (areas (size := size)) as (? & ? & _). pose proof (keymap_sizes (size := size)) as (? & ? & ? & _).
  assert (0 <= DYNAMIC_KEYMAP_LAYER_COUNT * MATRIX_ROWS * MATRIX_COLS) by (repeat apply Z.mul_nonneg_nonneg; lia).
  unfold VIA_EEPROM_LAYOUT_OPTIONS_ADDR, DYNAMIC_KEYMAP_MACRO_EEPROM_SIZE in *. lia.
Qed.

Lemma magic_digits i : is_byte (magic i) /\ magic i <> 0xFF.
Proof using All.
  assert (forall j, (j < 9)%nat -> j <> 3%nat -> j <> 4%nat -> j <> 6%nat -> j <> 7%nat ->
    is_byte (date_digits j) /\ date_digits j <> 0xFF) as Hd.
  { intros j ? ? ? ? ?. unfold date_digits. split; [apply is_byte_u8|].
    pose proof (build_date_digits j ltac:(lia) ltac:(done) ltac:(done)) as Ha.
    pose proof (build_date_digits (S j) ltac:(lia) ltac:(lia) ltac:(lia)) as Hb.
    assert (forall x, 48 <= x <= 57 -> Z.land x 0x0F = x - 48) as Hland.
    { intros x Hx. change 0x0F with (Z.ones 4). rewrite Z.land_ones by lia. dlia. }
    rewrite !Hland by done. set (a := default 0 _ - 48) in *. set (b := default 0 _ - 48) in *.
    rewrite Z.shiftl_mul_pow2, (lor_add 4) by (rewrite ?Z.mod_mul; lia). rewrite wrap_small; lia. }
  unfold magic. repeat case_match; apply Hd; lia.
Qed.

(** ** Layout options *)

(** The bytes of a number, most significant first, at [a]. *)
Fixpoint be_at (d : list Z) (n : nat) (a value : Z) : Prop :=
  match n with
  | O => True
  | S n => byte_at d (a + Z.of_nat n) = u8 value /\ be_at d n a (Z.shiftr value 8)
  end.
Lemma be_at_ext d d' n a : forall value,
  (forall i, a <= i < a + Z.of_nat n -> byte_at d' i = byte_at d i) -> be_at d n a value -> be_at d' n a value.
Proof.
  induction n as [|n IH]; intros value Hext; [done|]. cbn [be_at]. intros [Hb Hn].
  split; [rewrite Hext; [done|lia]|]. apply IH; [|done]. intros i Hi. apply Hext. lia.
Qed.

Lemma computes_set_layout_be n : forall base value d,
  0 <= base -> base + Z.of_nat n <= size -> 0 <= value -> is_content (size := size) d ->
  exists d', computes (set_layout_bytes n (base + Z.of_nat n - 1) value) d tt d' /\ be_at d' n base value /\
    (forall a, 0 <= a -> a < base \/ base + Z.of_nat n <= a -> byte_at d' a = byte_at d a) /\
    is_content (size := size) d'.
Proof using All.
  induction n as [|n IH]; intros base value d Hlo Hhi Hv Hd; cbn [set_layout_bytes].
  { exists d. split; [apply computes_skip|]. by split_and!. }
  set (t := base + Z.of_nat (S n) - 1). set (b := u8 (Z.land value 0xFF)).
  assert (is_content (size := size) (<[Z.to_nat t := b]> d)) as Hd1.
  { destruct Hd as [Hlen Hb]. split; [by rewrite length_insert|]. apply Forall_insert; [done|apply is_byte_u8]. }
  destruct (IH base (Z.shiftr value 8) (<[Z.to_nat t := b]> d)) as (d' & E & Hbe & Hout & Hd'); [lia|lia| |done|].
  { by apply Z.shiftr_nonneg. }
  exists d'. split_and!; [|split| |done].
  - eapply computes_bind; [apply computes_update_byte; [unfold in_eeprom; lia|apply is_byte_u8]|].
    by replace (t - 1) with (base + Z.of_nat n - 1) by lia.
  - rewrite Hout by lia. destruct Hd as [Hlen _]. unfold byte_at.
    replace (base + Z.of_nat n) with t by lia. rewrite list_lookup_insert_eq by lia. cbn. unfold b.
    change 0xFF with (Z.ones 8). rewrite Z.land_ones by lia. by apply wrap_wrap.
  - done.
  - intros a Ha Hoa. rewrite Hout by lia. unfold byte_at. by rewrite list_lookup_insert_ne by lia.
Qed.

(** Reading them back, from the most significant byte on. *)
Lemma be_at_lookup d n a : forall value i, be_at d n a value -> 0 <= i < Z.of_nat n ->
  byte_at d (a + i) = u8 (Z.shiftr value (8 * (Z.of_nat n - 1 - i))).
Proof.
  induction n as [|n IH]; intros value i Hbe Hi; [lia|]. destruct Hbe as [Hb Hn].
  destruct (decide (i = Z.of_nat n)) as [->|Hne].
  - rewrite Hb. replace (8 * (Z.of_nat (S n) - 1 - Z.of_nat n)) with 0 by lia. by rewrite Z.shiftr_0_r.
  - rewrite (IH _ i Hn) by lia. rewrite Z.shiftr_shiftr by lia. do 2 f_equal. lia.
Qed.

Lemma shift_in_byte value j :
  0 <= value < 2 ^ 32 -> 0 <= j -> 8 * (j + 1) <= 32 ->
  Z.lor (u32 (Z.shiftl (Z.shiftr value (8 * (j + 1))) 8)) (u8 (Z.shiftr value (8 * j))) = Z.shiftr value (8 * j).
Proof.
  intros Hv Hj Hle. set (x := Z.shiftr value (8 * j)).
  assert (0 <= x < 2 ^ 32) as Hx.
  { unfold x. rewrite Z.shiftr_div_pow2 by lia. split; [apply Z.div_pos; lia|].
    apply Z.div_lt_upper_bound; [lia|]. assert (1 <= 2 ^ (8 * j)) by (apply (Z.pow_le_mono_r 2 0); lia). nia. }
  replace (8 * (j + 1)) with (8 * j + 8) by lia. rewrite <-Z.shiftr_shiftr by lia. fold x.
  rewrite (Z.shiftr_div_pow2 x), Z.shiftl_mul_pow2 by lia.
  rewrite (wrap_small 32) by dlia. rewrite (lor_add 8); [unfold wrap; dlia|done|dlia|by apply wrap_range].
Qed.

Lemma computes_get_layout d base N value n :
  be_at d N base value -> 0 <= base -> base + Z.of_nat N <= size -> 0 <= value < 2 ^ 32 -> (n <= N <= 4)%nat ->
  computes (get_layout_bytes n (base + (Z.of_nat N - Z.of_nat n)) (Z.shiftr value (8 * Z.of_nat n))) d value d.
Proof using All.
  intros Hbe Hb Hsz Hv. induction n as [|n IH]; intros Hn; cbn [get_layout_bytes].
  { rewrite Z.shiftr_0_r. apply computes_ret. }
  eapply computes_bind; [apply computes_read_byte; unfold in_eeprom; lia|].
  rewrite (be_at_lookup d N base value _ Hbe) by lia.
  replace (8 * (Z.of_nat N - 1 - (Z.of_nat N - Z.of_nat (S n)))) with (8 * Z.of_nat n) by lia.
  replace (8 * Z.of_nat (S n)) with (8 * (Z.of_nat n + 1)) by lia. rewrite shift_in_byte by lia.
  replace (base + (Z.of_nat N - Z.of_nat (S n)) + 1) with (base + (Z.of_nat N - Z.of_nat n)) by lia.
  apply IH. lia.
Qed.

Lemma computes_store_layout value d :
  0 <= value -> is_content (size := size) d ->
  let n := Z.to_nat VIA_EEPROM_LAYOUT_OPTIONS_SIZE in
  exists d', computes (store_layout_options value) d tt d' /\ be_at d' n VIA_EEPROM_LAYOUT_OPTIONS_ADDR value /\
    (forall a, 0 <= a -> a < VIA_EEPROM_LAYOUT_OPTIONS_ADDR \/ DYNAMIC_KEYMAP_EEPROM_ADDR <= a ->
       byte_at d' a = byte_at d a) /\ is_content (size := size) d'.
Proof using All.
  intros Hv Hd n. pose proof via_areas as (? & ? & ? & ? & ? & ?). pose proof layout_options_size.
  destruct (computes_set_layout_be n VIA_EEPROM_LAYOUT_OPTIONS_ADDR value d) as (d' & E & Hbe & Hout & Hd');
    [lia|lia|done|done|].
  exists d'. split_and!; [|done| |done].
  - unfold store_layout_options. by replace VIA_EEPROM_LAYOUT_OPTIONS_SIZE with (Z.of_nat n) at 2 by lia.
  - intros a Ha Hoa. apply Hout; lia.
Qed.

(** The layout options read back are the ones set, as far as their bytes
    hold them, and setting them changes neither the magic number nor the
    keymaps. *)
Theorem layout_options_roundtrip value d :
  is_content (size := size) d -> 0 <= value < 2 ^ (8 * VIA_EEPROM_LAYOUT_OPTIONS_SIZE) ->
  exists d', computes (store_layout_options value) d tt d' /\ computes via_get_layout_options d' value d' /\
    (forall a, 0 <= a -> a < VIA_EEPROM_LAYOUT_OPTIONS_ADDR \/ DYNAMIC_KEYMAP_EEPROM_ADDR <= a ->
       byte_at d' a = byte_at d a).
Proof using All.
  intros Hd Hv. pose proof via_areas as (? & ? & ? & ? & ? & ?). pose proof layout_options_size.
  destruct (computes_store_layout value d) as (d' & E & Hbe & Hout & Hd'); [lia|done|].
  exists d'. split_and!; [done| |done].
  assert (2 ^ (8 * VIA_EEPROM_LAYOUT_OPTIONS_SIZE) <= 2 ^ 32) by (apply Z.pow_le_mono_r; lia).
  set (N := Z.to_nat VIA_EEPROM_LAYOUT_OPTIONS_SIZE) in *.
  assert (Z.of_nat N = VIA_EEPROM_LAYOUT_OPTIONS_SIZE) as HN by lia.
  pose proof (computes_get_layout d' VIA_EEPROM_LAYOUT_OPTIONS_ADDR N value N Hbe) as Hget.
  specialize (Hget ltac:(lia) ltac:(lia) ltac:(lia) ltac:(lia)).
  rewrite Z.sub_diag, Z.add_0_r, HN in Hget. rewrite Z.shiftr_div_pow2, Z.div_small in Hget by lia. exact Hget.
Qed.

Lemma run_via_eeprom {A B} (m : stm medium A) d a d' (k : A -> stm via_device B) v :
  eeprom_usable (vd_medium v) -> eeprom_bytes (vd_medium v) = d -> computes m d a d' ->
  exists s', (via_eeprom m ≫= k) v = k a (v <| vd_medium := s' |>) /\ eeprom_usable s' /\ eeprom_bytes s' = d'.
Proof.
  intros Hv Hd Hm. destruct (Hm _ Hv Hd) as (s' & E & Hs' & Hd'). exists s'. split; [|done].
  unfold mbind, stm_bind, via_eeprom. by rewrite E.
Qed.

Lemma split_bytes kc : 0 <= kc < 2 ^ 16 -> Z.lor (Z.shiftl (Z.shiftr kc 8) 8) (Z.land kc 0xFF) = kc.
Proof.
  intros Hkc. change 0xFF with (Z.ones 8). rewrite Z.land_ones, Z.shiftr_div_pow2, Z.shiftl_mul_pow2 by lia.
  rewrite (lor_add 8); [dlia|done|dlia|dlia].
Qed.

Lemma run_receive data data' v v1 :
  via_command_kb data = false -> via_command data v = (Some data', v1) ->
  raw_hid_receive data v = (true, v1 <| vd_calls := vd_calls v1 ++ [RawHidSend data'] |>).
Proof. intros Hk E. unfold raw_hid_receive. rewrite Hk. by rewrite (run_bind _ _ _ _ _ E). Qed.

(** A keycode set with one packet is the one that the next packet reads:
    the reply to it carries the keycode, high byte first, and the rest of the
    packet as it came. *)
Theorem via_keycode_roundtrip l r c kc a b rest rest' v :
  let p1 := id_dynamic_keymap_set_keycode :: l :: r :: c :: Z.shiftr kc 8 :: Z.land kc 0xFF :: rest in
  let p2 := id_dynamic_keymap_get_keycode :: l :: r :: c :: a :: b :: rest' in
  eeprom_usable (vd_medium v) -> cell_valid (Key l r c) -> 0 <= kc < 2 ^ 16 ->
  via_command_kb p1 = false -> via_command_kb p2 = false ->
  exists v', (raw_hid_receive p1;; raw_hid_receive p2) v = (true, v') /\
    vd_calls v' = vd_calls v ++ [RawHidSend p1;
      RawHidSend (id_dynamic_keymap_get_keycode :: l :: r :: c :: Z.shiftr kc 8 :: Z.land kc 0xFF :: rest')].
Proof using All.
  intros p1 p2 Hv Hc Hkc Hk1 Hk2. set (d := eeprom_bytes (vd_medium v)).
  assert (cell_args (Key l r c)) as Hargs by (cbn in *; lia).
  assert (is_content (size := size) d) as Hcontent by (split; [by apply eeprom_size|by apply eeprom_is_bytes]).
  set (d1 := put_cell (Key l r c) kc d).
  assert (computes (dynamic_keymap_set_keycode l r c (cd_word p1 3)) d tt d1) as Hset.
  { change (cd_word p1 3) with (Z.lor (Z.shiftl (Z.shiftr kc 8) 8) (Z.land kc 0xFF)). rewrite split_bytes by done.
    change (dynamic_keymap_set_keycode l r c kc) with (set_cell (Key l r c) kc).
    rewrite set_cell_run, decide_True by done. by apply computes_update_cell. }
  assert (computes (dynamic_keymap_get_keycode l r c) d1 kc d1) as Hget.
  { change (dynamic_keymap_get_keycode l r c) with (get_cell (Key l r c)).
    rewrite get_cell_run, decide_True by done. pose proof (computes_read_cell (Key l r c) d1 Hc) as Hr.
    assert (cell_value d1 (Key l r c) = kc) as Ev by (by apply cell_value_put). by rewrite Ev in Hr. }
  destruct (run_via_eeprom _ d tt d1 (fun _ => mret p1) v Hv eq_refl Hset) as (s1 & E1 & Hs1 & Hd1).
  set (v1 := v <| vd_medium := s1 |>) in *.
  assert (via_command p1 v = (Some p1, v1)) as C1.
  { change (via_command p1) with (replies (via_eeprom (dynamic_keymap_set_keycode l r c (cd_word p1 3));; mret p1)).
    unfold replies. by rewrite (run_bind _ _ _ _ _ E1). }
  rewrite (run_bind _ _ _ _ _ (run_receive _ _ _ _ Hk1 C1)).
  set (v2 := v1 <| vd_calls := vd_calls v1 ++ [RawHidSend p1] |>).
  destruct (run_via_eeprom _ d1 kc d1 (fun kc => mret (put_keycode 3 kc p2)) v2 Hs1 Hd1 Hget) as (s2 & E2 & _).
  assert (via_command p2 v2 = (Some (put_keycode 3 kc p2), v2 <| vd_medium := s2 |>)) as C2.
  { change (via_command p2) with
      (replies (kc ← via_eeprom (dynamic_keymap_get_keycode l r c); mret (put_keycode 3 kc p2))).
    unfold replies. by rewrite (run_bind _ _ _ _ _ E2). }
  rewrite (run_receive _ _ _ _ Hk2 C2). eexists. split; [done|]. cbn. by rewrite <-app_assoc.
Qed.
End via_spec.
