(* ===== verification/ViaInit.v ===== *)
(** * An initialisation of VIA's EEPROM that is cut short

    The contents that the EEPROM goes through while [eeconfig_init_via] runs:
    whenever the power fails, what is found at the next start is either what
    was there before, or not taken for valid, or complete. *)

From S2P Require Import Prelude.
From S2P Require Import Keycodes.
From S2P Require Import State.
From S2P Require Import Eeprom.
From S2P Require Import SendString.
From S2P Require Import DynamicKeymap.
From S2P Require Import DynamicKeymapSpec.
From S2P Require Import Via.

(** ** What a whole initialisation leaves *)

Section complete.
Context `{!Config} `{!EepromDriver} `{!DynamicKeymapConfig} `{!ViaConfig}
  {size : Z} `{!EepromOk size} `{!DynamicKeymapOk size} `{!ViaOk}.

Lemma computes_clear base l : forall d,
  (forall i, i ∈ l -> in_eeprom (size := size) (base + i)) -> is_content (size := size) d ->
  exists d', computes (for_each l (fun i => eeprom_update_byte (base + i) 0)) d tt d' /\
    is_content (size := size) d' /\
    (forall i, i ∈ l -> byte_at d' (base + i) = 0) /\
    (forall a, (forall i, i ∈ l -> a <> base + i) -> 0 <= a -> byte_at d' a = byte_at d a) /\
    (forall a, 0 <= a -> byte_at d a = 0 -> byte_at d' a = 0).
Proof using All.
  induction l as [|i l IH]; intros d Hin Hd; cbn [for_each].
  { exists d. split; [apply computes_skip|]. split; [done|]. split; [|done]. by intros i Hi%elem_of_nil. }
  pose proof (Hin i ltac:(left)) as Hi. unfold in_eeprom in Hi. pose proof Hd as [Hlen Hb].
  set (d1 := <[Z.to_nat (base + i) := 0]> d).
  assert (is_content (size := size) d1) as Hd1 by (unfold d1; split; [by rewrite length_insert|by apply Forall_insert]).
  assert (byte_at d1 (base + i) = 0) as Hz by (unfold byte_at, d1; by rewrite list_lookup_insert_eq by lia).
  destruct (IH d1) as (d' & E & Hd' & Hz' & Hout & Hkeep); [intros j Hj; apply Hin; by right|done|].
  exists d'. split_and!.
  - eapply computes_bind; [by apply computes_update_byte|exact E].
  - done.
  - intros j [->|Hj]%elem_of_cons; [apply Hkeep; [lia|done]|by apply Hz'].
  - intros a Ha Hpos. rewrite Hout; [|intros j Hj; apply Ha; by right|done].
    pose proof (Ha i ltac:(left)). unfold byte_at, d1. by rewrite list_lookup_insert_ne by lia.
  - intros a Ha H0a. apply Hkeep; [done|]. unfold byte_at, d1 in *.
    destruct (decide (a = base + i)) as [->|]; [by rewrite list_lookup_insert_eq by lia|].
    by rewrite list_lookup_insert_ne by lia.
Qed.

(** The three bytes of the magic number. *)
Definition marked (d : list Z) (m : Z -> Z) : Prop :=
  forall i, 0 <= i < 3 -> byte_at d (VIA_EEPROM_MAGIC_ADDR + i) = m i.
Definition mark (b : bool) (i : Z) : Z := if b then magic i else 0xFF.

Lemma computes_set_valid b d :
  is_content (size := size) d ->
  exists d', computes (via_eeprom_set_valid b) d tt d' /\ marked d' (mark b) /\
    (forall a, 0 <= a -> a < VIA_EEPROM_MAGIC_ADDR \/ VIA_EEPROM_LAYOUT_OPTIONS_ADDR <= a -> byte_at d' a = byte_at d a) /\
    is_content (size := size) d'.
Proof using All.
  intros [Hlen Hb]. pose proof via_areas as (? & Hlo & ? & ? & ? & ?). pose proof layout_options_size.
  assert (forall i, is_byte (mark b i)) as Hm by (intros i; destruct b; [apply magic_digits|done]).
  set (A := VIA_EEPROM_MAGIC_ADDR) in *.
  set (d' := <[Z.to_nat (A + 2) := mark b 2]> (<[Z.to_nat (A + 1) := mark b 1]> (<[Z.to_nat (A + 0) := mark b 0]> d))).
  exists d'. split_and!.
  - unfold via_eeprom_set_valid. fold A.
    assert (forall i c, 0 <= i < 3 -> computes (eeprom_update_byte (A + i) (mark b i)) c tt
      (<[Z.to_nat (A + i) := mark b i]> c)) as Hput
      by (intros i c Hi; apply computes_update_byte; [unfold in_eeprom; lia|apply Hm]).
    eapply computes_bind; [by apply (Hput 0)|]. eapply computes_bind; [by apply (Hput 1)|]. by apply (Hput 2).
  - intros i Hi. unfold byte_at, d'. fold A. assert (i = 0 \/ i = 1 \/ i = 2) as [->|[->| ->]] by lia.
    all: rewrite ?(list_lookup_insert_ne _ (Z.to_nat (A + 2)) (Z.to_nat (A + 0))),
      ?(list_lookup_insert_ne _ (Z.to_nat (A + 1)) (Z.to_nat (A + 0))),
      ?(list_lookup_insert_ne _ (Z.to_nat (A + 2)) (Z.to_nat (A + 1))) by lia;
      by rewrite list_lookup_insert_eq by (rewrite ?length_insert; lia).
  - intros a Ha Hout. unfold byte_at, d'. by rewrite !list_lookup_insert_ne by lia.
  - unfold d'. split; [by rewrite !length_insert|]. by repeat apply Forall_insert.
Qed.

Hypothesis raw_keycodes : forall c, cell_valid c -> 0 <= cell_raw c < 2 ^ 16.
Hypothesis default_options : 0 <= VIA_EEPROM_LAYOUT_OPTIONS_DEFAULT.

(** What [eeconfig_init_via] writes, in order. *)
Definition init_via_eeprom : stm medium unit :=
  via_eeprom_set_valid false;;
  store_layout_options VIA_EEPROM_LAYOUT_OPTIONS_DEFAULT;;
  dynamic_keymap_reset;;
  dynamic_keymap_macro_reset;;
  via_eeprom_set_valid true.
Lemma init_via_writes v : vd_medium (exec eeconfig_init_via v) = exec init_via_eeprom (vd_medium v).
Proof. done. Qed.

(** The keymaps of flash, no macro, the default options, and the magic. *)
Definition complete (d : list Z) : Prop :=
  marked d magic /\
  be_at d (Z.to_nat VIA_EEPROM_LAYOUT_OPTIONS_SIZE) VIA_EEPROM_LAYOUT_OPTIONS_ADDR VIA_EEPROM_LAYOUT_OPTIONS_DEFAULT /\
  (forall c, cell_valid c -> cell_value d c = cell_raw c) /\
  (forall i, 0 <= i < DYNAMIC_KEYMAP_MACRO_EEPROM_SIZE -> byte_at d (DYNAMIC_KEYMAP_MACRO_EEPROM_ADDR + i) = 0).

Lemma computes_init d :
  is_content (size := size) d -> exists d', computes init_via_eeprom d tt d' /\ complete d'.
Proof using All.
  intros Hd. pose proof via_areas as (? & Hlo & ? & ? & ? & ?). pose proof layout_options_size.
  destruct (computes_set_valid false d Hd) as (d1 & E1 & _ & _ & Hd1).
  destruct (computes_store_layout VIA_EEPROM_LAYOUT_OPTIONS_DEFAULT d1 default_options Hd1) as (d2 & E2 & Hbe & _ & Hd2).
  destruct (dynamic_keymap_reset_content raw_keycodes d2 Hd2) as (d3 & E3 & Hcells & Hout3 & Hd3).
  destruct (computes_clear DYNAMIC_KEYMAP_MACRO_EEPROM_ADDR (seqZ 0 DYNAMIC_KEYMAP_MACRO_EEPROM_SIZE) d3)
    as (d4 & E4 & Hd4 & Hz & Hout4 & _); [intros i Hi%elem_of_seqZ; unfold in_eeprom; lia|done|].
  destruct (computes_set_valid true d4 Hd4) as (d5 & E5 & Hmark & Hout5 & _).
  exists d5. split; [by repeat (eapply computes_bind; [eassumption|])|].
  assert (forall a, VIA_EEPROM_LAYOUT_OPTIONS_ADDR <= a < DYNAMIC_KEYMAP_MACRO_EEPROM_ADDR -> byte_at d5 a = byte_at d3 a) as H53.
  { intros a Ha. rewrite Hout5 by lia. apply Hout4; [|lia]. intros i Hi%elem_of_seqZ. lia. }
  split_and!; [done| | |].
  - eapply be_at_ext; [|exact Hbe]. intros i Hi. rewrite H53 by lia. apply Hout3. unfold outside_maps. lia.
  - intros c Hc. rewrite <-(Hcells c Hc). unfold cell_value. pose proof (cell_in_area (size := size) c Hc).
    by rewrite !H53 by lia.
  - intros i Hi. rewrite Hout5 by lia. apply Hz, elem_of_seqZ. lia.
Qed.
End complete.

(** ** The contents on the way

    An EEPROM that remembers every content it has had, the latest first. *)

#[local] Instance history_driver : EepromDriver := {|
  medium := list (list Z);
  eeprom_read_block buf addr h := (take (length buf) (drop (Z.to_nat addr) (hd [] h)), h);
  eeprom_write_block buf addr h := (tt, list_inserts (Z.to_nat addr) buf (hd [] h) :: h);
|}.

Section history.
Context `{!Config} `{!DynamicKeymapConfig} `{!ViaConfig} {size : Z}.

#[local] Instance history_ok : EepromOk size.
Proof.
  refine {| eeprom_usable (h : @medium history_driver) := h <> [] /\ Z.of_nat (length (hd [] h)) = size /\ Forall is_byte (hd [] h);
            eeprom_bytes (h : @medium history_driver) := hd [] h |}.
  - by intros m (_ & ? & _).
  - by intros m (_ & _ & ?).
  - done.
  - intros buf addr m (_ & Hlen & Hb) _ _ Hbuf. eexists. split; [done|]. split; [|done].
    split; [done|]. cbn. rewrite length_inserts. split; [done|]. clear Hlen. revert addr.
    induction Hbuf as [|x buf Hx _ IH]; intros addr; cbn [list_inserts]; [done|]. apply Forall_insert; [|done].
    replace (S (Z.to_nat addr)) with (Z.to_nat (Z.of_nat (S (Z.to_nat addr)))) by lia. apply IH.
Defined.

Context `{!DynamicKeymapOk size} `{!ViaOk}.
Implicit Types (h : list (list Z)) (c d : list Z).

(** What the next start makes of a content. *)
Definition taken_for_valid c : Prop := eval via_eeprom_is_valid ([c] : @medium history_driver) = true.

Lemma history_read_byte (h : @medium history_driver) a :
  h <> [] -> Z.of_nat (length (hd [] h)) = size -> 0 <= a < size ->
  eeprom_read_byte a h = (byte_at (hd [] h) a, h).
Proof.
  intros Hh Hlen Ha. unfold eeprom_read_byte, read_int. cbn [eeprom_read_block history_driver].
  unfold mbind, stm_bind, mret, stm_ret. cbn [fst snd]. f_equal. unfold byte_at.
  destruct (lookup_lt_is_Some_2 (hd [] h) (Z.to_nat a)) as [b Hb]; [lia|].
  rewrite Hb. cbn [length replicate]. rewrite (drop_S _ _ _ Hb). cbn [take le_int]. rewrite take_0. cbn [le_int from_option id]. lia.
Qed.

Lemma history_update (h : @medium history_driver) a v :
  h <> [] -> Z.of_nat (length (hd [] h)) = size -> 0 <= a < size -> is_byte v ->
  eeprom_update_byte a v h =
    (tt, if byte_at (hd [] h) a =? v then h else <[Z.to_nat a := v]> (hd [] h) :: h).
Proof.
  intros Hh Hlen Ha Hv. unfold eeprom_update_byte. rewrite (run_bind _ _ _ _ _ (history_read_byte h a Hh Hlen Ha)).
  destruct (byte_at (hd [] h) a =? v); [done|]. cbn. by rewrite wrap_small.
Qed.

Lemma not_taken c i :
  Z.of_nat (length c) = size -> 0 <= i < 3 -> byte_at c (VIA_EEPROM_MAGIC_ADDR + i) <> magic i -> ~ taken_for_valid c.
Proof using All.
  intros Hlen Hi Hne Hval. pose proof (via_areas (size := size)) as (? & ? & ? & ? & ? & ?). pose proof layout_options_size.
  unfold taken_for_valid, via_eeprom_is_valid, eval in Hval.
  assert (forall j, 0 <= j < 3 -> eeprom_read_byte (VIA_EEPROM_MAGIC_ADDR + j) ([c] : @medium history_driver)
    = (byte_at c (VIA_EEPROM_MAGIC_ADDR + j), [c])) as Hread
    by (intros j Hj; apply (history_read_byte [c]); [done|done|lia]).
  rewrite (run_bind _ _ _ _ _ (Hread 0 ltac:(lia))) in Hval. destruct (Z.eqb_spec (byte_at c (VIA_EEPROM_MAGIC_ADDR + 0)) (magic 0)); [|done].
  cbn [negb] in Hval.
  rewrite (run_bind _ _ _ _ _ (Hread 1 ltac:(lia))) in Hval. destruct (Z.eqb_spec (byte_at c (VIA_EEPROM_MAGIC_ADDR + 1)) (magic 1)); [|done].
  cbn [negb] in Hval.
  rewrite (run_bind _ _ _ _ _ (Hread 2 ltac:(lia))) in Hval. destruct (Z.eqb_spec (byte_at c (VIA_EEPROM_MAGIC_ADDR + 2)) (magic 2)); [|done].
  assert (i = 0 \/ i = 1 \/ i = 2) as [->|[->| ->]] by lia; done.
Qed.

(** The first [n] bytes of the magic number are erased, and every content of
    the past is the first one, [d], or not valid. *)
Definition erased (d : list Z) (n : Z) (h : @medium history_driver) : Prop :=
  h <> [] /\ Z.of_nat (length (hd [] h)) = size /\
  (forall i, 0 <= i < n -> byte_at (hd [] h) (VIA_EEPROM_MAGIC_ADDR + i) = 0xFF) /\
  Forall (fun c => c = d \/ ~ taken_for_valid c) h.

(** Erasing the next byte of the magic number. *)
Lemma erase_next d n h :
  0 <= n < 3 -> erased d n h ->
  erased d (n + 1) (exec (eeprom_update_byte (VIA_EEPROM_MAGIC_ADDR + n) 0xFF) h).
Proof using All.
  intros Hn (Hh & Hlen & Hff & Hpast). pose proof (via_areas (size := size)) as (? & ? & ? & ? & ? & ?).
  pose proof layout_options_size. unfold exec. rewrite history_update by (done || lia). cbn [snd].
  destruct (Z.eqb_spec (byte_at (hd [] h) (VIA_EEPROM_MAGIC_ADDR + n)) 0xFF) as [E|E].
  - split_and!; [done|done| |done]. intros i Hi. destruct (decide (i = n)) as [->|]; [done|apply Hff; lia].
  - set (c := <[_ := _]> (hd [] h)). assert (Z.of_nat (length c) = size) as Hc by (unfold c; by rewrite length_insert).
    assert (forall i, 0 <= i < n + 1 -> byte_at c (VIA_EEPROM_MAGIC_ADDR + i) = 0xFF) as Hff'.
    { intros i Hi. unfold byte_at, c. destruct (decide (i = n)) as [->|]; [by rewrite list_lookup_insert_eq by lia|].
      rewrite list_lookup_insert_ne by lia. apply Hff. lia. }
    split_and!; [done|done|done|]. constructor; [|done]. right. apply (not_taken c 0); [done|lia|].
    rewrite Hff' by lia. by apply not_eq_sym, magic_digits.
Qed.

(** Every other write keeps them erased. *)
Lemma preserves_erased d a v :
  VIA_EEPROM_MAGIC_ADDR + 3 <= a < size -> is_byte v -> preserves (erased d 3) (eeprom_update_byte a v).
Proof using All.
  intros Ha Hv h (Hh & Hlen & Hff & Hpast). pose proof (via_areas (size := size)) as (? & ? & ? & ? & ? & ?).
  pose proof layout_options_size. unfold exec. rewrite history_update by (done || lia). cbn [snd].
  case_match; [done|]. set (c := <[_ := _]> (hd [] h)).
  assert (Z.of_nat (length c) = size) as Hc by (unfold c; by rewrite length_insert).
  assert (forall i, 0 <= i < 3 -> byte_at c (VIA_EEPROM_MAGIC_ADDR + i) = 0xFF) as Hff'.
  { intros i Hi. unfold byte_at, c. rewrite list_lookup_insert_ne by lia. by apply Hff. }
  split_and!; [done|done|done|]. constructor; [|done]. right. apply (not_taken c 0); [done|lia|].
  rewrite Hff' by lia. by apply not_eq_sym, magic_digits.
Qed.

Lemma preserves_for_below (P : @medium history_driver -> Prop) n (body : Z -> stm (@medium history_driver) unit) :
  (forall i, 0 <= i < n -> preserves P (body i)) -> preserves P (for_below n body).
Proof.
  intros Hb. unfold for_below. assert (Forall (fun i => 0 <= i < n) (seqZ 0 n)) as Hl.
  { apply Forall_forall. intros i Hi%elem_of_seqZ. lia. }
  induction Hl as [|i l Hi _ IH]; cbn [for_each]; [apply preserves_skip|]. apply preserves_bind; [by apply Hb|done].
Qed.

(** What is written between erasing the magic number and writing it. *)
Lemma preserves_set_cell d (c : cell) v :
  cell_args c -> preserves (erased d 3) (set_cell c v).
Proof using All.
  intros Hargs. rewrite set_cell_run by done. case_decide as Hc; [|apply preserves_skip].
  pose proof (via_areas (size := size)) as (? & ? & ? & ? & ? & ?). pose proof layout_options_size.
  pose proof (cell_in_area (size := size) c Hc).
  unfold update_keycode. apply preserves_bind; [|intros _]; apply preserves_erased; [lia|apply is_byte_u8|lia|apply is_byte_u8].
Qed.

Lemma preserves_reset d : preserves (erased d 3) dynamic_keymap_reset.
Proof using All.
  apply preserves_for_below. intros l Hl. apply preserves_bind; [|intros _].
  - apply preserves_for_below. intros r Hr. apply preserves_for_below. intros c Hc.
    apply (preserves_set_cell d (Key l r c)). cbn. lia.
  - destruct ENCODER_MAP_ENABLE eqn:Hen; [|apply preserves_skip]. apply preserves_for_below. intros e He.
    apply preserves_bind; [|intros _].
    + apply (preserves_set_cell d (Encoder l e true)). cbn. split; [done|lia].
    + apply (preserves_set_cell d (Encoder l e false)). cbn. split; [done|lia].
Qed.

Lemma preserves_macro_reset d : preserves (erased d 3) dynamic_keymap_macro_reset.
Proof using All.
  pose proof (via_areas (size := size)) as (? & ? & ? & ? & ? & ?). pose proof layout_options_size.
  apply preserves_for_below. intros i Hi. apply preserves_erased; [lia|done].
Qed.

Lemma preserves_layout d n : forall target value,
  VIA_EEPROM_MAGIC_ADDR + 3 <= target - Z.of_nat n + 1 -> target < size ->
  preserves (erased d 3) (set_layout_bytes n target value).
Proof using All.
  induction n as [|n IH]; intros target value Hlo Hhi; cbn [set_layout_bytes]; [apply preserves_skip|].
  apply preserves_bind; [|intros _; apply IH; lia]. apply preserves_erased; [lia|apply is_byte_u8].
Qed.

Lemma preserves_store_layout d value : preserves (erased d 3) (store_layout_options value).
Proof using All.
  pose proof (via_areas (size := size)) as (? & ? & ? & ? & ? & ?). pose proof layout_options_size.
  apply preserves_layout; lia.
Qed.

(** Writing the magic number: not valid before its last byte. *)
Lemma mark_history d h :
  erased d 3 h ->
  exists c h', exec (via_eeprom_set_valid true) h = c :: h' /\ Forall (fun c => c = d \/ ~ taken_for_valid c) h'.
Proof using All.
  intros (Hh & Hlen & Hff & Hpast). pose proof (via_areas (size := size)) as (? & ? & ? & ? & ? & ?).
  pose proof layout_options_size. assert (forall i, magic i <> 0xFF) as Hm by (intros i; apply magic_digits).
  assert (forall i, is_byte (magic i)) as Hbyte by (intros i; apply magic_digits).
  unfold via_eeprom_set_valid. rewrite !exec_bind. set (A := VIA_EEPROM_MAGIC_ADDR) in *.
  assert (forall i (h : @medium history_driver), 0 <= i < 3 -> h <> [] -> Z.of_nat (length (hd [] h)) = size ->
    byte_at (hd [] h) (A + i) = 0xFF ->
    exec (eeprom_update_byte (A + i) (magic i)) h = <[Z.to_nat (A + i) := magic i]> (hd [] h) :: h) as Hstep.
  { intros i g Hi Hg Hlg Hffi. unfold exec. rewrite history_update by (done || lia || auto). cbn [snd].
    rewrite Hffi. rewrite (proj2 (Z.eqb_neq _ _)); [done|]. by apply not_eq_sym. }
  rewrite (Hstep 0); [|lia|done|done|by apply Hff]. set (c0 := <[_ := _]> (hd [] h)).
  assert (Z.of_nat (length c0) = size) as Hc0 by (unfold c0; by rewrite length_insert).
  assert (forall i, 1 <= i < 3 -> byte_at c0 (A + i) = 0xFF) as Hff0.
  { intros i Hi. unfold byte_at, c0. rewrite list_lookup_insert_ne by lia. apply Hff. lia. }
  rewrite (Hstep 1); [|lia|done|done|apply Hff0; lia]. cbn [hd]. set (c1 := <[_ := _]> c0).
  assert (Z.of_nat (length c1) = size) as Hc1 by (unfold c1; by rewrite length_insert).
  assert (byte_at c1 (A + 2) = 0xFF) as Hff1.
  { unfold byte_at, c1. rewrite list_lookup_insert_ne by lia. apply Hff0. lia. }
  rewrite (Hstep 2); [|lia|done|done|done]. cbn [hd]. eexists _, _. split; [done|].
  constructor; [right; apply (not_taken c1 2); [done|lia|fold A; rewrite Hff1; by apply not_eq_sym]|].
  constructor; [right; apply (not_taken c0 2); [done|lia|fold A; rewrite Hff0 by lia; by apply not_eq_sym]|done].
Qed.

Hypothesis raw_keycodes : forall c : cell, cell_valid c -> 0 <= cell_raw c < 2 ^ 16.
Hypothesis default_options : 0 <= VIA_EEPROM_LAYOUT_OPTIONS_DEFAULT.

(** C16: power may fail at any moment while VIA initialises the EEPROM: a
    content found at the next start is not taken for valid unless nothing had
    been written yet or everything had: the magic number is erased first and
    written last. *)
Theorem via_init_is_crash_safe d (v : via_device) :
  is_content (size := size) d -> vd_medium v = [d] ->
  let h := vd_medium (exec eeconfig_init_via v) in
  forall c, c ∈ h -> taken_for_valid c -> c = d \/ (c = hd [] h /\ complete c).
Proof using All.
  intros Hd Hv h. assert (h = exec init_via_eeprom ([d] : @medium history_driver)) as Eh0
    by (unfold h; by rewrite init_via_writes, Hv).
  clearbody h. intros c Hc Hval. pose proof Hd as [Hlen Hb].
  destruct (computes_init raw_keycodes default_options d Hd) as (df & Hrun & Hcomplete).
  destruct (Hrun ([d] : @medium history_driver)) as (hf & Ef & _ & Hhd); [by split|done|].
  assert (h = hf) as Eh by (rewrite Eh0; unfold exec; by rewrite Ef).
  assert (erased d 0 [d]) as He.
  { split_and!; [done|done|intros i Hi; lia|]. constructor; [by left|done]. }
  apply (erase_next d 0) in He; [|lia]. apply (erase_next d 1) in He; [|lia]. apply (erase_next d 2) in He; [|lia].
  set (h3 := exec _ _) in He.
  pose proof (preserves_macro_reset d _ (preserves_reset d _ (preserves_store_layout d VIA_EEPROM_LAYOUT_OPTIONS_DEFAULT _ He))) as H4.
  destruct (mark_history d _ H4) as (cf & h' & Eh' & Hpast).
  assert (h = cf :: h') as Eq by (rewrite Eh0; exact Eh').
  rewrite Eq in Hc. apply elem_of_cons in Hc as [->|Hc].
  - right. rewrite Eq. split; [done|]. rewrite <-Eh, Eq in Hhd. cbn in Hhd. by rewrite Hhd.
  - rewrite Forall_forall in Hpast. destruct (Hpast c Hc) as [->|Hn]; [by left|by exfalso].
Qed.
End history.
