(* ===== verification/Feature.v ===== *)
(** * Features on top of the core (quantum/quantum.c)

    A feature of quantum/process_keycode has static variables of its own and
    calls the functions of the core.  Its functions are computations on a pair
    of both; [core] and [own] run what concerns one half. *)

From S2P Require Import Prelude.
From S2P Require Import Keycodes.
From S2P Require Import State.
From S2P Require Import Keymap.

Section feature.
Context {F : Type}.
Implicit Types (s : F * keyboard).

Definition core {A} (m : stm keyboard A) : stm (F * keyboard) A :=
  fun s => let r := m s.2 in (r.1, (s.1, r.2)).
Definition own {A} (m : stm F A) : stm (F * keyboard) A :=
  fun s => let r := m s.1 in (r.1, (r.2, s.2)).

(** ** Running them *)

Lemma run_core {A B} (m : stm keyboard A) (g : A -> stm (F * keyboard) B) s :
  (core m ≫= g) s = g (m s.2).1 (s.1, (m s.2).2).
Proof. done. Qed.
Lemma run_own {A B} (m : stm F A) (g : A -> stm (F * keyboard) B) s :
  (own m ≫= g) s = g (m s.1).1 ((m s.1).2, s.2).
Proof. done. Qed.
Lemma core_unit (m : stm keyboard unit) (s : F) k : core m (s, k) = (tt, (s, exec m k)).
Proof. unfold core, exec. cbn [fst snd]. by destruct (m k) as [[] k']. Qed.

(** What a feature does to the core it does by calling it. *)
Lemma preserves_core {A} (P : F -> keyboard -> Prop) (m : stm keyboard A) :
  (forall f, preserves (P f) m) -> preserves (fun s => P s.1 s.2) (core m).
Proof. intros Hm [f k] Hk. exact (Hm f k Hk). Qed.
Lemma preserves_own {A} (P : F -> keyboard -> Prop) (m : stm F A) :
  (forall k, preserves (fun f => P f k) m) -> preserves (fun s => P s.1 s.2) (own m).
Proof. intros Hm [f k] Hk. exact (Hm k f Hk). Qed.

End feature.

(** ** Modifier bits (quantum/modifiers.h)

    The 5-bit modifiers of keycodes, the 8-bit masks of a report, and the
    keycodes that carry modifiers (quantum/quantum_keycodes.h). *)

Definition MOD_LSFT : Z := 0x02.
Definition MOD_RSFT : Z := 0x12.

Definition MOD_BIT_LCTRL : Z := 0x01.
Definition MOD_BIT_LSHIFT : Z := 0x02.
Definition MOD_BIT_LALT : Z := 0x04.
Definition MOD_BIT_LGUI : Z := 0x08.
Definition MOD_BIT_RCTRL : Z := 0x10.
Definition MOD_BIT_RSHIFT : Z := 0x20.
Definition MOD_BIT_RALT : Z := 0x40.
Definition MOD_BIT_RGUI : Z := 0x80.

Definition MOD_MASK_CTRL : Z := Z.lor MOD_BIT_LCTRL MOD_BIT_RCTRL.
Definition MOD_MASK_SHIFT : Z := Z.lor MOD_BIT_LSHIFT MOD_BIT_RSHIFT.
Definition MOD_MASK_ALT : Z := Z.lor MOD_BIT_LALT MOD_BIT_RALT.
Definition MOD_MASK_GUI : Z := Z.lor MOD_BIT_LGUI MOD_BIT_RGUI.
Definition MOD_MASK_SG : Z := Z.lor MOD_MASK_SHIFT MOD_MASK_GUI.
Definition MOD_MASK_CSG : Z := Z.lor (Z.lor MOD_MASK_CTRL MOD_MASK_SHIFT) MOD_MASK_GUI.

Definition QK_LSFT : Z := 0x0200.
Definition QK_RSFT : Z := 0x1200.
Definition LSFT (kc : Z) : Z := Z.lor QK_LSFT kc.
Definition RSFT (kc : Z) : Z := Z.lor QK_RSFT kc.

(** The masks agree with the bits of the modifier keycodes. *)
Lemma mod_bits :
  MOD_BIT KC_LEFT_SHIFT = MOD_BIT_LSHIFT /\ MOD_BIT KC_RIGHT_SHIFT = MOD_BIT_RSHIFT /\
  MOD_BIT KC_RIGHT_ALT = MOD_BIT_RALT /\ MOD_BIT KC_LEFT_CTRL = MOD_BIT_LCTRL /\
  MOD_BIT KC_RIGHT_GUI = MOD_BIT_RGUI.
Proof. by vm_compute. Qed.
