(* ===== verification/EEConfig.v ===== *)
(** * The configuration in the EEPROM (quantum/eeconfig.c) and the magic
    keycodes (quantum/process_keycode/process_magic.c)

    The fields at the start of the EEPROM, their defaults, the start of the
    keyboard (quantum/keyboard.c: [quantum_init]), and the keycodes that turn
    the switches of the keymap configuration and save them. *)

From S2P Require Import Prelude.
From S2P Require Import Keycodes.
From S2P Require Import Report.
From S2P Require Import State.
From S2P Require Import Host.
From S2P Require Import ActionUtil.
From S2P Require Import ActionLayer.
From S2P Require Import ActionUtilSpec.
From S2P Require Import LayerSpec.
From S2P Require Import WearLevelingSpec.
From S2P Require Import Eeprom.
From S2P Require Import DynamicKeymap.
From S2P Require Import Via.
From S2P Require Import Feature.

(** ** Addresses *)

Definition EECONFIG_MAGIC_NUMBER : Z := 0xFEE5.
Definition EECONFIG_MAGIC_NUMBER_OFF : Z := 0xFFFF.

Definition EECONFIG_MAGIC : Z := 0.
Definition EECONFIG_DEBUG : Z := 2.
Definition EECONFIG_DEFAULT_LAYER : Z := 3.
Definition EECONFIG_KEYMAP : Z := 4.
Definition EECONFIG_BACKLIGHT : Z := 6.
Definition EECONFIG_AUDIO : Z := 7.
Definition EECONFIG_RGBLIGHT : Z := 8.
Definition EECONFIG_UNICODEMODE : Z := 12.
Definition EECONFIG_STENOMODE : Z := 13.
Definition EECONFIG_HANDEDNESS : Z := 14.
Definition EECONFIG_KEYBOARD : Z := 15.
Definition EECONFIG_USER : Z := 19.
Definition EECONFIG_RGB_MATRIX : Z := 23.
Definition EECONFIG_HAPTIC : Z := 31.
Definition EECONFIG_RGBLIGHT_EXTENDED : Z := 35.
Definition EECONFIG_BASE_SIZE : Z := 36.

(** ** The keymap configuration as a word *)

Fixpoint word_of_bits (l : list bool) : Z :=
  match l with
  | [] => 0
  | b :: l => Z.lor (Z.b2z b) (Z.shiftl (word_of_bits l) 1)
  end.
Definition config_bits (c : keymap_config_t) : list bool :=
  [swap_control_capslock c; capslock_to_control c; swap_lalt_lgui c; swap_ralt_rgui c; no_gui c; swap_grave_esc c;
   swap_backslash_backspace c; nkro c; swap_lctl_lgui c; swap_rctl_rgui c; oneshot_enable c; swap_escape_capslock c;
   autocorrect_enable c].
(** The three bits above the last switch are those of [raw]. *)
Definition raw_of_config (raw : Z) (c : keymap_config_t) : Z :=
  Z.lor (word_of_bits (config_bits c)) (Z.land raw 0xE000).
Definition config_of_raw (raw : Z) : keymap_config_t := {|
  swap_control_capslock := Z.testbit raw 0; capslock_to_control := Z.testbit raw 1;
  swap_lalt_lgui := Z.testbit raw 2; swap_ralt_rgui := Z.testbit raw 3; no_gui := Z.testbit raw 4;
  swap_grave_esc := Z.testbit raw 5; swap_backslash_backspace := Z.testbit raw 6; nkro := Z.testbit raw 7;
  swap_lctl_lgui := Z.testbit raw 8; swap_rctl_rgui := Z.testbit raw 9; oneshot_enable := Z.testbit raw 10;
  swap_escape_capslock := Z.testbit raw 11; autocorrect_enable := Z.testbit raw 12;
|}.

(** ** Reading and updating *)

Class EeconfigSizes := {
  EECONFIG_KB_DATA_SIZE : Z;
  EECONFIG_KB_DATA_VERSION : Z;
  EECONFIG_USER_DATA_SIZE : Z;
  EECONFIG_USER_DATA_VERSION : Z;
}.

Section fields.
Context `{!EepromDriver} `{!EeconfigSizes}.
Abbreviation M := (stm medium).

Definition EECONFIG_KB_DATABLOCK : Z := EECONFIG_BASE_SIZE.
Definition EECONFIG_USER_DATABLOCK : Z := EECONFIG_BASE_SIZE + EECONFIG_KB_DATA_SIZE.
Definition EECONFIG_SIZE : Z := EECONFIG_BASE_SIZE + EECONFIG_KB_DATA_SIZE + EECONFIG_USER_DATA_SIZE.

Definition eeconfig_read_debug : M Z := eeprom_read_byte EECONFIG_DEBUG.
Definition eeconfig_update_debug (val : Z) : M unit := eeprom_update_byte EECONFIG_DEBUG val.
Definition eeconfig_read_default_layer : M Z := eeprom_read_byte EECONFIG_DEFAULT_LAYER.
Definition eeconfig_update_default_layer (val : Z) : M unit := eeprom_update_byte EECONFIG_DEFAULT_LAYER val.
Definition eeconfig_read_keymap : M Z := eeprom_read_word EECONFIG_KEYMAP.
Definition eeconfig_update_keymap (val : Z) : M unit := eeprom_update_word EECONFIG_KEYMAP val.
Definition eeconfig_read_audio : M Z := eeprom_read_byte EECONFIG_AUDIO.
Definition eeconfig_update_audio (val : Z) : M unit := eeprom_update_byte EECONFIG_AUDIO val.
Definition eeconfig_read_kb : M Z := eeprom_read_dword EECONFIG_KEYBOARD.
Definition eeconfig_update_kb (val : Z) : M unit := eeprom_update_dword EECONFIG_KEYBOARD val.
Definition eeconfig_read_user : M Z := eeprom_read_dword EECONFIG_USER.
Definition eeconfig_update_user (val : Z) : M unit := eeprom_update_dword EECONFIG_USER val.
Definition eeconfig_read_haptic : M Z := eeprom_read_dword EECONFIG_HAPTIC.
Definition eeconfig_update_haptic (val : Z) : M unit := eeprom_update_dword EECONFIG_HAPTIC val.
Definition eeconfig_read_handedness : M bool := b ← eeprom_read_byte EECONFIG_HANDEDNESS; mret (nz b).
Definition eeconfig_update_handedness (val : bool) : M unit := eeprom_update_byte EECONFIG_HANDEDNESS (Z.b2z val).

(** Blocks of data of the keyboard and of the user, marked with their version. *)
Definition eeconfig_is_kb_datablock_valid : M bool :=
  v ← eeprom_read_dword EECONFIG_KEYBOARD; mret (v =? EECONFIG_KB_DATA_VERSION).
Definition eeconfig_read_kb_datablock (data : list Z) : M (list Z) :=
  valid ← eeconfig_is_kb_datablock_valid;
  if (valid : bool) then eeprom_read_block data EECONFIG_KB_DATABLOCK
  else mret (replicate (Z.to_nat EECONFIG_KB_DATA_SIZE) 0).
Definition eeconfig_update_kb_datablock (data : list Z) : M unit :=
  eeprom_update_dword EECONFIG_KEYBOARD EECONFIG_KB_DATA_VERSION;;
  eeprom_update_block data EECONFIG_KB_DATABLOCK.
Definition eeconfig_init_kb_datablock : M unit :=
  eeconfig_update_kb_datablock (replicate (Z.to_nat EECONFIG_KB_DATA_SIZE) 0).

Definition eeconfig_is_user_datablock_valid : M bool :=
  v ← eeprom_read_dword EECONFIG_USER; mret (v =? EECONFIG_USER_DATA_VERSION).
Definition eeconfig_read_user_datablock (data : list Z) : M (list Z) :=
  valid ← eeconfig_is_user_datablock_valid;
  if (valid : bool) then eeprom_read_block data EECONFIG_USER_DATABLOCK
  else mret (replicate (Z.to_nat EECONFIG_USER_DATA_SIZE) 0).
Definition eeconfig_update_user_datablock (data : list Z) : M unit :=
  eeprom_update_dword EECONFIG_USER EECONFIG_USER_DATA_VERSION;;
  eeprom_update_block data EECONFIG_USER_DATABLOCK.
Definition eeconfig_init_user_datablock : M unit :=
  eeconfig_update_user_datablock (replicate (Z.to_nat EECONFIG_USER_DATA_SIZE) 0).

(** The weak functions, as they are when the keyboard does not define them. *)
Definition default_eeconfig_init_user : M unit := when (EECONFIG_USER_DATA_SIZE =? 0) (eeconfig_update_user 0).
Definition default_eeconfig_init_kb (eeconfig_init_user : M unit) : M unit :=
  when (EECONFIG_KB_DATA_SIZE =? 0) (eeconfig_update_kb 0);; eeconfig_init_user.
End fields.

(** ** Initialisation *)

(** [erase] is [eeprom_driver_erase], where there is a driver. *)
Class EeconfigBuild `{!EepromDriver} := {
  EEPROM_DRIVER_erase : option (stm medium unit);
  VIA_ENABLE : bool;
  eeconfig_init_kb : stm medium unit;
  bootmagic : stm medium unit;           (* what it does to the EEPROM *)
}.

Section init.
Context {CF : Config} {HK : Hooks} `{!EepromDriver} `{!DynamicKeymapConfig} `{!ViaConfig} `{!EeconfigSizes} `{!EeconfigBuild}.
Abbreviation M := (stm medium).
Abbreviation S := (stm (via_device * keyboard)).

Definition device {A} (m : M A) : S A := own (via_eeprom m).

Definition erase_driver : M unit := match EEPROM_DRIVER_erase with Some erase => erase | None => skip end.

(** [eeprom_write_qword] of 0 *)
Definition eeprom_write_qword_0 (addr : Z) : M unit := eeprom_update_block (replicate 8 0) addr.

(** The defaults: one-shot keys and autocorrect are on. *)
Definition eeconfig_defaults (default_layer : Z) : M unit :=
  eeprom_update_byte EECONFIG_DEFAULT_LAYER default_layer;;
  eeprom_update_word EECONFIG_KEYMAP 0x1400;;
  eeprom_update_byte EECONFIG_BACKLIGHT 0;;
  eeprom_update_byte EECONFIG_AUDIO 0;;
  eeprom_update_dword EECONFIG_RGBLIGHT 0;;
  eeprom_update_byte EECONFIG_RGBLIGHT_EXTENDED 0;;
  eeprom_update_byte EECONFIG_UNICODEMODE 0;;
  eeprom_update_byte EECONFIG_STENOMODE 0;;
  eeprom_write_qword_0 EECONFIG_RGB_MATRIX;;
  eeprom_update_dword EECONFIG_HAPTIC 0;;
  when (0 <? EECONFIG_KB_DATA_SIZE) eeconfig_init_kb_datablock;;
  when (0 <? EECONFIG_USER_DATA_SIZE) eeconfig_init_user_datablock.

Definition eeconfig_init_quantum : S unit :=
  device erase_driver;;
  device (eeprom_update_word EECONFIG_MAGIC EECONFIG_MAGIC_NUMBER);;
  device (eeprom_update_byte EECONFIG_DEBUG 0);;
  core (upd_layers (fun l => l <| default_layer_state := 1 |>));;
  default_layer ← core get_default_layer_state;
  device (eeconfig_defaults (u8 default_layer));;
  when VIA_ENABLE (device (via_eeprom_set_valid false);; own eeconfig_init_via);;
  device eeconfig_init_kb.
Definition eeconfig_init : S unit := eeconfig_init_quantum.

Definition eeconfig_enable : M unit := eeprom_update_word EECONFIG_MAGIC EECONFIG_MAGIC_NUMBER.
Definition eeconfig_disable : M unit := erase_driver;; eeprom_update_word EECONFIG_MAGIC EECONFIG_MAGIC_NUMBER_OFF.
Definition eeconfig_is_enabled : M bool :=
  m ← eeprom_read_word EECONFIG_MAGIC;
  if VIA_ENABLE && (m =? EECONFIG_MAGIC_NUMBER) then via_eeprom_is_valid else mret (m =? EECONFIG_MAGIC_NUMBER).
Definition eeconfig_is_disabled : M bool :=
  m ← eeprom_read_word EECONFIG_MAGIC;
  if VIA_ENABLE && negb (m =? EECONFIG_MAGIC_NUMBER_OFF) then valid ← via_eeprom_is_valid; mret (negb valid)
  else mret (m =? EECONFIG_MAGIC_NUMBER_OFF).

(** [debug_config] only steers printing. *)
Definition init_globals : S unit :=
  device eeconfig_read_debug;;
  raw ← device eeconfig_read_keymap;
  core (upd_config (fun _ => config_of_raw raw));;
  device bootmagic;;
  default_layer ← device eeconfig_read_default_layer;
  core (default_layer_set default_layer).
Definition quantum_init : S unit :=
  enabled ← device eeconfig_is_enabled;
  when (negb enabled) eeconfig_init;;
  init_globals.

(** quantum/quantum.c *)
Definition set_single_persistent_default_layer (default_layer : Z) : stm (medium * keyboard) unit :=
  own (eeconfig_update_default_layer (u8 (layer_word (bit default_layer))));;
  core (default_layer_set (layer_word (bit default_layer))).
End init.

(** ** Magic keycodes *)

Definition IS_MAGIC_KEYCODE (code : Z) : bool :=
  within QK_MAGIC_SWAP_CONTROL_CAPS_LOCK QK_MAGIC_TOGGLE_ESCAPE_CAPS_LOCK code.

Definition magic_config (keycode : Z) (c : keymap_config_t) : keymap_config_t :=
  if keycode =? QK_MAGIC_SWAP_CONTROL_CAPS_LOCK then c <| swap_control_capslock := true |>
  else if keycode =? QK_MAGIC_SWAP_ESCAPE_CAPS_LOCK then c <| swap_escape_capslock := true |>
  else if keycode =? QK_MAGIC_CAPS_LOCK_AS_CONTROL_ON then c <| capslock_to_control := true |>
  else if keycode =? QK_MAGIC_SWAP_LALT_LGUI then c <| swap_lalt_lgui := true |>
  else if keycode =? QK_MAGIC_SWAP_RALT_RGUI then c <| swap_ralt_rgui := true |>
  else if keycode =? QK_MAGIC_SWAP_LCTL_LGUI then c <| swap_lctl_lgui := true |>
  else if keycode =? QK_MAGIC_SWAP_RCTL_RGUI then c <| swap_rctl_rgui := true |>
  else if keycode =? QK_MAGIC_GUI_OFF then c <| no_gui := true |>
  else if keycode =? QK_MAGIC_SWAP_GRAVE_ESC then c <| swap_grave_esc := true |>
  else if keycode =? QK_MAGIC_SWAP_BACKSLASH_BACKSPACE then c <| swap_backslash_backspace := true |>
  else if keycode =? QK_MAGIC_NKRO_ON then c <| nkro := true |>
  else if keycode =? QK_MAGIC_SWAP_ALT_GUI then c <| swap_ralt_rgui := true |> <| swap_lalt_lgui := true |>
  else if keycode =? QK_MAGIC_SWAP_CTL_GUI then c <| swap_rctl_rgui := true |> <| swap_lctl_lgui := true |>
  else if keycode =? QK_MAGIC_UNSWAP_CONTROL_CAPS_LOCK then c <| swap_control_capslock := false |>
  else if keycode =? QK_MAGIC_UNSWAP_ESCAPE_CAPS_LOCK then c <| swap_escape_capslock := false |>
  else if keycode =? QK_MAGIC_CAPS_LOCK_AS_CONTROL_OFF then c <| capslock_to_control := false |>
  else if keycode =? QK_MAGIC_UNSWAP_LALT_LGUI then c <| swap_lalt_lgui := false |>
  else if keycode =? QK_MAGIC_UNSWAP_RALT_RGUI then c <| swap_ralt_rgui := false |>
  else if keycode =? QK_MAGIC_UNSWAP_LCTL_LGUI then c <| swap_lctl_lgui := false |>
  else if keycode =? QK_MAGIC_UNSWAP_RCTL_RGUI then c <| swap_rctl_rgui := false |>
  else if keycode =? QK_MAGIC_GUI_ON then c <| no_gui := false |>
  else if keycode =? QK_MAGIC_UNSWAP_GRAVE_ESC then c <| swap_grave_esc := false |>
  else if keycode =? QK_MAGIC_UNSWAP_BACKSLASH_BACKSPACE then c <| swap_backslash_backspace := false |>
  else if keycode =? QK_MAGIC_NKRO_OFF then c <| nkro := false |>
  else if keycode =? QK_MAGIC_UNSWAP_ALT_GUI then c <| swap_ralt_rgui := false |> <| swap_lalt_lgui := false |>
  else if keycode =? QK_MAGIC_UNSWAP_CTL_GUI then c <| swap_rctl_rgui := false |> <| swap_lctl_lgui := false |>
  else if keycode =? QK_MAGIC_TOGGLE_ALT_GUI then
    let c := c <| swap_lalt_lgui := negb (swap_lalt_lgui c) |> in c <| swap_ralt_rgui := swap_lalt_lgui c |>
  else if keycode =? QK_MAGIC_TOGGLE_CTL_GUI then
    let c := c <| swap_lctl_lgui := negb (swap_lctl_lgui c) |> in c <| swap_rctl_rgui := swap_lctl_lgui c |>
  else if keycode =? QK_MAGIC_TOGGLE_BACKSLASH_BACKSPACE then
    c <| swap_backslash_backspace := negb (swap_backslash_backspace c) |>
  else if keycode =? QK_MAGIC_TOGGLE_NKRO then c <| nkro := negb (nkro c) |>
  else if keycode =? QK_MAGIC_TOGGLE_GUI then c <| no_gui := negb (no_gui c) |>
  else if keycode =? QK_MAGIC_TOGGLE_CONTROL_CAPS_LOCK then c <| swap_control_capslock := negb (swap_control_capslock c) |>
  else if keycode =? QK_MAGIC_TOGGLE_ESCAPE_CAPS_LOCK then c <| swap_escape_capslock := negb (swap_escape_capslock c) |>
  else c.

Definition is_nkro_keycode (keycode : Z) : bool :=
  (keycode =? QK_MAGIC_NKRO_ON) || (keycode =? QK_MAGIC_NKRO_OFF) || (keycode =? QK_MAGIC_TOGGLE_NKRO).

Section magic.
Context {CF : Config} {HK : Hooks} `{!EepromDriver}.
Abbreviation M := (stm (medium * keyboard)).

Definition set_hands (keycode : Z) : stm medium unit :=
  if keycode =? QK_MAGIC_EE_HANDS_LEFT then eeconfig_update_handedness true
  else when (keycode =? QK_MAGIC_EE_HANDS_RIGHT) (eeconfig_update_handedness false).

Definition process_magic (keycode : Z) (r : keyrecord_t) : M bool :=
  if pressed (event r) && IS_MAGIC_KEYCODE keycode then
    raw ← own eeconfig_read_keymap;
    core (upd_config (fun _ => config_of_raw raw));;
    when (is_nkro_keycode keycode) (core clear_keyboard);;
    core (upd_config (magic_config keycode));;
    own (set_hands keycode);;
    c ← core (gets keymap_config);
    own (eeconfig_update_keymap (raw_of_config raw c));;
    core clear_keyboard;;
    mret false
  else mret true.
End magic.

(** ** Integers in the EEPROM *)

Section ints.
Context `{!EepromDriver} {size : Z} `{!EepromOk size}.

Definition int_at (n : nat) (d : list Z) (addr : Z) : Z := le_int (take n (drop (Z.to_nat addr) d)).
Definition put_int (n : nat) (addr v : Z) (d : list Z) : list Z := list_inserts (Z.to_nat addr) (le_bytes n v) d.
Definition has_int (n : nat) (addr : Z) : Prop := 0 <= addr /\ addr + Z.of_nat n <= size.

Lemma computes_read_int n d addr : has_int n addr -> computes (read_int n addr) d (int_at n d addr) d.
Proof.
  intros [H0 Hn] s Hs <-. exists s. unfold read_int.
  rewrite (run_bind _ _ _ _ _ (read_block_ok (replicate n 0) addr s Hs ltac:(lia) ltac:(rewrite length_replicate; lia))).
  by rewrite length_replicate.
Qed.

Lemma computes_write_int n d addr v : has_int n addr -> computes (eeprom_write_block (le_bytes n v) addr) d tt (put_int n addr v d).
Proof.
  intros [H0 Hn] s Hs <-.
  destruct (write_block_ok (le_bytes n v) addr s Hs) as (s' & E & Hs' & Hd'); [lia|rewrite length_le_bytes; lia|apply le_bytes_is_byte|].
  by exists s'.
Qed.

Lemma take_drop_lookup {A} n i (l : list A) j : (j < n)%nat -> take n (drop i l) !! j = l !! (i + j)%nat.
Proof. intros Hj. by rewrite lookup_take_lt, lookup_drop by lia. Qed.

Lemma inserts_back i n (d : list Z) : list_inserts i (take n (drop i d)) d = d.
Proof.
  apply list_eq. intros j. destruct (decide (i <= j < i + length (take n (drop i d)))%nat) as [Hj|Hj].
  - destruct (lookup_lt_is_Some_2 (take n (drop i d)) (j - i)) as [x Hx]; [lia|].
    rewrite length_take, length_drop in Hj. rewrite list_lookup_inserts by (rewrite ?length_take, ?length_drop; lia).
    rewrite take_drop_lookup by lia. f_equal. lia.
  - destruct (decide (j < i)%nat); [by rewrite list_lookup_inserts_lt by lia|by rewrite list_lookup_inserts_ge by lia].
Qed.

Lemma put_int_content n a v d : is_content (size := size) d -> is_content (size := size) (put_int n a v d).
Proof.
  intros [Hlen Hb]. split; [by unfold put_int; rewrite length_inserts|]. unfold put_int.
  pose proof (le_bytes_is_byte n v) as Hv. revert Hv. generalize (Z.to_nat a), (le_bytes n v). intros i l Hl. revert i.
  induction Hl as [|x l Hx _ IH]; intros i; cbn [list_inserts]; [done|]. by apply Forall_insert.
Qed.

(** The read, and the write only if the value differs. *)
Lemma computes_update_int n d addr v :
  has_int n addr -> 0 <= v < 2 ^ (8 * Z.of_nat n) ->
  computes (orig ← read_int n addr; when (negb (orig =? v)) (eeprom_write_block (le_bytes n v) addr)) d tt (put_int n addr v d).
Proof.
  intros Ha Hv. apply computes_content. intros [Hlen Hb]. eapply computes_bind; [by apply computes_read_int|].
  destruct (Z.eqb_spec (int_at n d addr) v) as [<-|_]; cbn [negb when]; [|by apply computes_write_int].
  assert (put_int n addr (int_at n d addr) d = d) as ->; [|apply computes_skip].
  unfold put_int, int_at. destruct Ha as [H0 Hn].
  assert (length (take n (drop (Z.to_nat addr) d)) = n) as Hl by (rewrite length_take, length_drop; lia).
  rewrite <-Hl at 1. rewrite le_bytes_int by by apply Forall_take, Forall_drop. apply inserts_back.
Qed.

Lemma le_bytes_0 n : le_bytes n 0 = replicate n 0.
Proof. induction n as [|n IH]; [done|]. cbn [le_bytes replicate]. f_equal. exact IH. Qed.

Lemma computes_update_zeros n d addr :
  has_int n addr -> computes (eeprom_update_block (replicate n 0) addr) d tt (put_int n addr 0 d).
Proof.
  intros Ha. unfold eeprom_update_block. rewrite length_replicate.
  assert (computes (eeprom_read_block (replicate n 0) addr) d (take n (drop (Z.to_nat addr) d)) d) as Hread.
  { intros s Hs <-. exists s. rewrite (read_block_ok (replicate n 0)) by (rewrite ?length_replicate; by destruct Ha).
    by rewrite length_replicate. }
  eapply computes_bind; [exact Hread|]. rewrite <-le_bytes_0.
  case_bool_decide as Heq; cbn [when]; [by apply computes_write_int|].
  assert (put_int n addr 0 d = d) as ->; [|apply computes_skip]. unfold put_int. rewrite Heq. apply inserts_back.
Qed.

(** What is found where. *)
Lemma int_at_put n a v d :
  is_content (size := size) d -> has_int n a -> 0 <= v < 2 ^ (8 * Z.of_nat n) -> int_at n (put_int n a v d) a = v.
Proof.
  intros [Hlen _] [H0 Hn] Hv. unfold int_at, put_int. rewrite <-(le_int_bytes n v Hv) at 2. f_equal.
  apply list_eq. intros j. destruct (decide (j < n)%nat) as [Hj|Hj].
  - rewrite take_drop_lookup by lia. rewrite list_lookup_inserts by (rewrite ?length_le_bytes; lia). f_equal. lia.
  - rewrite !lookup_ge_None_2; [done|rewrite length_le_bytes; lia|rewrite length_take; lia].
Qed.

Definition disjoint_ints (n : nat) (a : Z) (m : nat) (b : Z) : Prop :=
  a + Z.of_nat n <= b \/ b + Z.of_nat m <= a.
Lemma int_at_inserts n a b buf d :
  0 <= a -> 0 <= b -> disjoint_ints n a (length buf) b -> int_at n (list_inserts (Z.to_nat b) buf d) a = int_at n d a.
Proof.
  intros Ha Hb Hdis. unfold int_at. f_equal. apply list_eq. intros j.
  destruct (decide (j < n)%nat) as [Hj|Hj].
  - rewrite !take_drop_lookup by lia. destruct Hdis as [Hd|Hd]; [by rewrite list_lookup_inserts_lt by lia|].
    by rewrite list_lookup_inserts_ge by lia.
  - by rewrite !lookup_ge_None_2 by (rewrite length_take; lia).
Qed.
Lemma int_at_put_other n a m b v d :
  0 <= a -> 0 <= b -> disjoint_ints n a m b -> int_at n (put_int m b v d) a = int_at n d a.
Proof. intros Ha Hb Hdis. apply int_at_inserts; [done|done|]. by rewrite length_le_bytes. Qed.
Lemma byte_at_put_other m b v d a :
  0 <= a -> 0 <= b -> disjoint_ints 1 a m b -> byte_at (put_int m b v d) a = byte_at d a.
Proof.
  intros Ha Hb Hdis. unfold byte_at, put_int. f_equal. destruct Hdis as [Hd|Hd]; [by rewrite list_lookup_inserts_lt by lia|].
  rewrite list_lookup_inserts_ge by (rewrite length_le_bytes; lia). done.
Qed.
End ints.

(** ** The word and its switches *)

Lemma word_of_bits_testbit l i : 0 <= i -> Z.testbit (word_of_bits l) i = nth (Z.to_nat i) l false.
Proof.
  revert i. induction l as [|b l IH]; intros i Hi; cbn [word_of_bits].
  - rewrite Z.bits_0. by destruct (Z.to_nat i).
  - rewrite Z.lor_spec, Z.shiftl_spec by done. destruct (decide (i = 0)) as [->|Hne].
    + rewrite Z.b2z_bit0. cbn. by rewrite orb_false_r.
    + replace (Z.to_nat i) with (S (Z.to_nat (i - 1))) by lia. cbn [nth]. rewrite <-IH by lia.
      destruct b; [rewrite (Z.bits_above_log2 1) by (cbn; lia)|rewrite Z.bits_0]; done.
Qed.

Lemma raw_of_config_testbit w c i :
  0 <= i < 13 -> Z.testbit (raw_of_config w c) i = nth (Z.to_nat i) (config_bits c) false.
Proof.
  intros Hi. unfold raw_of_config. rewrite Z.lor_spec, Z.land_spec, word_of_bits_testbit by lia.
  assert (Z.testbit 0xE000 i = false) as ->; [|by rewrite andb_false_r, orb_false_r].
  change 0xE000 with (Z.shiftl 7 13). rewrite Z.shiftl_spec by lia. apply Z.testbit_neg_r. lia.
Qed.
Lemma raw_of_config_spare w c i :
  13 <= i -> Z.testbit (raw_of_config w c) i = (i <? 16) && Z.testbit w i.
Proof.
  intros Hi. unfold raw_of_config. rewrite Z.lor_spec, Z.land_spec, word_of_bits_testbit by lia.
  rewrite nth_overflow by (cbn; lia). change 0xE000 with (Z.shiftl (Z.ones 3) 13). rewrite Z.shiftl_spec by lia.
  destruct (Z.ltb_spec i 16); [rewrite Z.ones_spec_low by lia|rewrite Z.ones_spec_high by lia]; cbn [orb andb].
  - by rewrite andb_true_r.
  - by rewrite andb_false_r.
Qed.

Lemma config_of_raw_of_config w c : config_of_raw (raw_of_config w c) = c.
Proof. unfold config_of_raw. rewrite !raw_of_config_testbit by lia. by destruct c. Qed.

Lemma below_13 i : 0 <= i < 13 ->
  i ∈ [0; 1; 2; 3; 4; 5; 6; 7; 8; 9; 10; 11; 12].
Proof. intros Hi. change (i ∈ seqZ 0 13). apply elem_of_seqZ. lia. Qed.

Lemma bits_below w i : 0 <= w < 2 ^ 16 -> 16 <= i -> Z.testbit w i = false.
Proof. intros Hw Hi. rewrite <-(Z.mod_small w (2 ^ 16)) by done. by apply Z.mod_pow2_bits_high. Qed.

Lemma raw_of_config_of_raw w : 0 <= w < 2 ^ 16 -> raw_of_config w (config_of_raw w) = w.
Proof.
  intros Hw. apply Z.bits_inj'. intros i Hi. destruct (decide (i < 13)) as [Hl|Hh].
  - rewrite raw_of_config_testbit by lia.
    pose proof (below_13 i ltac:(lia)) as Hin. rewrite !elem_of_cons, elem_of_nil in Hin. by destruct_or! Hin; subst i.
  - rewrite raw_of_config_spare by lia. destruct (Z.ltb_spec i 16); [done|]. symmetry. by apply bits_below.
Qed.

Lemma raw_of_config_range w c : 0 <= raw_of_config w c < 2 ^ 16.
Proof.
  assert (Z.land (raw_of_config w c) (Z.ones 16) = raw_of_config w c) as E.
  { apply Z.bits_inj'. intros i Hi. rewrite Z.land_spec. destruct (decide (i < 16)) as [Hl|Hh].
    - by rewrite Z.ones_spec_low, andb_true_r by lia.
    - rewrite Z.ones_spec_high, andb_false_r by lia. rewrite raw_of_config_spare by lia. by destruct (Z.ltb_spec i 16); [lia|]. }
  rewrite <-E, Z.land_ones by lia. by apply Z.mod_pos_bound.
Qed.

(** What a magic keycode means, as an operation on the saved word: switches
    are set, cleared, or set to the opposite of one of them. *)
Inductive switch := Leave | SetBits (mask : Z) | ClearBits (mask : Z) | Flip (b mask : Z).
Definition apply_switch (sw : switch) (w : Z) : Z :=
  match sw with
  | Leave => w
  | SetBits m => Z.lor w m
  | ClearBits m => Z.ldiff w m
  | Flip b m => if Z.testbit w b then Z.ldiff w m else Z.lor w m
  end.
Definition magic_switches : list (Z * switch) :=
  [ (QK_MAGIC_SWAP_CONTROL_CAPS_LOCK, SetBits (bit 0)); (QK_MAGIC_UNSWAP_CONTROL_CAPS_LOCK, ClearBits (bit 0));
    (QK_MAGIC_TOGGLE_CONTROL_CAPS_LOCK, Flip 0 (bit 0));
    (QK_MAGIC_CAPS_LOCK_AS_CONTROL_OFF, ClearBits (bit 1)); (QK_MAGIC_CAPS_LOCK_AS_CONTROL_ON, SetBits (bit 1));
    (QK_MAGIC_SWAP_LALT_LGUI, SetBits (bit 2)); (QK_MAGIC_UNSWAP_LALT_LGUI, ClearBits (bit 2));
    (QK_MAGIC_SWAP_RALT_RGUI, SetBits (bit 3)); (QK_MAGIC_UNSWAP_RALT_RGUI, ClearBits (bit 3));
    (QK_MAGIC_GUI_ON, ClearBits (bit 4)); (QK_MAGIC_GUI_OFF, SetBits (bit 4)); (QK_MAGIC_TOGGLE_GUI, Flip 4 (bit 4));
    (QK_MAGIC_SWAP_GRAVE_ESC, SetBits (bit 5)); (QK_MAGIC_UNSWAP_GRAVE_ESC, ClearBits (bit 5));
    (QK_MAGIC_SWAP_BACKSLASH_BACKSPACE, SetBits (bit 6)); (QK_MAGIC_UNSWAP_BACKSLASH_BACKSPACE, ClearBits (bit 6));
    (QK_MAGIC_TOGGLE_BACKSLASH_BACKSPACE, Flip 6 (bit 6));
    (QK_MAGIC_NKRO_ON, SetBits (bit 7)); (QK_MAGIC_NKRO_OFF, ClearBits (bit 7)); (QK_MAGIC_TOGGLE_NKRO, Flip 7 (bit 7));
    (QK_MAGIC_SWAP_ALT_GUI, SetBits 0xC); (QK_MAGIC_UNSWAP_ALT_GUI, ClearBits 0xC); (QK_MAGIC_TOGGLE_ALT_GUI, Flip 2 0xC);
    (QK_MAGIC_SWAP_LCTL_LGUI, SetBits (bit 8)); (QK_MAGIC_UNSWAP_LCTL_LGUI, ClearBits (bit 8));
    (QK_MAGIC_SWAP_RCTL_RGUI, SetBits (bit 9)); (QK_MAGIC_UNSWAP_RCTL_RGUI, ClearBits (bit 9));
    (QK_MAGIC_SWAP_CTL_GUI, SetBits 0x300); (QK_MAGIC_UNSWAP_CTL_GUI, ClearBits 0x300); (QK_MAGIC_TOGGLE_CTL_GUI, Flip 8 0x300);
    (QK_MAGIC_EE_HANDS_LEFT, Leave); (QK_MAGIC_EE_HANDS_RIGHT, Leave);
    (QK_MAGIC_SWAP_ESCAPE_CAPS_LOCK, SetBits (bit 11)); (QK_MAGIC_UNSWAP_ESCAPE_CAPS_LOCK, ClearBits (bit 11));
    (QK_MAGIC_TOGGLE_ESCAPE_CAPS_LOCK, Flip 11 (bit 11)) ].

Lemma all_magic_keycodes keycode : IS_MAGIC_KEYCODE keycode = true -> keycode ∈ magic_switches.*1.
Proof.
  intros Hk. apply andb_true_iff in Hk as [H1%Z.leb_le H2%Z.leb_le].
  assert (forallb (fun kc => bool_decide (kc ∈ magic_switches.*1)) (seqZ 0x7000 35) = true) as Hall by (by vm_compute).
  rewrite forallb_forall in Hall. specialize (Hall keycode). apply bool_decide_eq_true in Hall; [done|].
  apply list_elem_of_In, elem_of_seqZ.
  unfold QK_MAGIC_SWAP_CONTROL_CAPS_LOCK, QK_MAGIC_TOGGLE_ESCAPE_CAPS_LOCK in *. lia.
Qed.

Definition switch_mask (sw : switch) : Z :=
  match sw with Leave => 0 | SetBits m | ClearBits m | Flip _ m => m end.
Definition switch_value (sw : switch) (w : Z) : bool :=
  match sw with Leave | ClearBits _ => false | SetBits _ => true | Flip b _ => negb (Z.testbit w b) end.
Lemma apply_switch_testbit sw w i :
  Z.testbit (apply_switch sw w) i = if Z.testbit (switch_mask sw) i then switch_value sw w else Z.testbit w i.
Proof.
  destruct sw as [|m|m|b m]; cbn [apply_switch switch_mask switch_value]; [by rewrite Z.bits_0|..].
  - rewrite Z.lor_spec. by destruct (Z.testbit m i), (Z.testbit w i).
  - rewrite Z.ldiff_spec. by destruct (Z.testbit m i), (Z.testbit w i).
  - destruct (Z.testbit w b); rewrite ?Z.ldiff_spec, ?Z.lor_spec; by destruct (Z.testbit m i), (Z.testbit w i).
Qed.

Lemma magic_config_low kc sw w i :
  (kc, sw) ∈ magic_switches -> 0 <= i < 13 ->
  nth (Z.to_nat i) (config_bits (magic_config kc (config_of_raw w))) false = Z.testbit (apply_switch sw w) i.
Proof.
  intros Hsw Hi. rewrite apply_switch_testbit.
  pose proof (below_13 i Hi) as Hin. unfold magic_switches in Hsw.
  repeat (apply elem_of_cons in Hsw as [Hsw|Hsw]; [injection Hsw as -> ->;
    rewrite !elem_of_cons, elem_of_nil in Hin; destruct_or! Hin; subst i; reflexivity|]).
  by apply elem_of_nil in Hsw.
Qed.

Lemma switch_mask_range kc sw : (kc, sw) ∈ magic_switches -> 0 <= switch_mask sw < 2 ^ 13.
Proof.
  intros Hsw. assert (forallb (fun p => (0 <=? switch_mask p.2) && (switch_mask p.2 <? 2 ^ 13)) magic_switches = true) as Hall
    by (by vm_compute).
  rewrite forallb_forall in Hall. apply list_elem_of_In in Hsw. specialize (Hall _ Hsw). cbn [snd] in Hall.
  apply andb_true_iff in Hall as [?%Z.leb_le ?%Z.ltb_lt]. done.
Qed.

Lemma magic_config_word kc sw w :
  (kc, sw) ∈ magic_switches -> 0 <= w < 2 ^ 16 ->
  raw_of_config w (magic_config kc (config_of_raw w)) = apply_switch sw w.
Proof.
  intros Hsw Hw. apply Z.bits_inj'. intros i Hi. destruct (decide (i < 13)) as [Hl|Hh].
  - rewrite raw_of_config_testbit by lia. apply magic_config_low; [done|lia].
  - rewrite raw_of_config_spare by lia. rewrite apply_switch_testbit.
    pose proof (switch_mask_range _ _ Hsw) as Hm.
    assert (Z.testbit (switch_mask sw) i = false) as ->.
    { rewrite <-(Z.mod_small (switch_mask sw) (2 ^ 13)) by done. apply Z.mod_pow2_bits_high. lia. }
    destruct (Z.ltb_spec i 16); [done|]. symmetry. by apply bits_below.
Qed.

(** ** Nothing is down after [clear_keyboard] *)

Section cleared.
Context {CF : Config} {HK : Hooks}.

(** What clearing leaves alone once the keys are out of the report. *)
Definition switches_and_keys (c : keymap_config_t) (p : bool) (r : reports) (k : keyboard) : Prop :=
  keymap_config k = c /\ keyboard_protocol k = p /\
  keys (keyboard_report (rep k)) = keys (keyboard_report r) /\ bits (nkro_report (rep k)) = bits (nkro_report r).

Lemma sending_frame c p r : preserves (switches_and_keys c p r) send_keyboard_report.
Proof.
  intros k (Hc & Hp & Hk & Hb). destruct (after_oneshot_frame k) as (Hr & _ & _ & _ & Hc' & Hp' & _).
  assert (switches_and_keys c p r (after_oneshot k)) as Ho by (by split_and!; congruence).
  unfold send_keyboard_report, exec. rewrite run_gets.
  destruct (nkro_active k); unfold send_nkro_report, send_6kro_report;
    rewrite (run_bind _ _ _ _ _ (get_mods_for_report_run k)); unfold upd_rep, upd_mods; srun;
    (case_decide; [exact Ho|]); srun; unfold host_nkro_send, host_keyboard_send; srun;
    (destruct (driver _); cbn [negb]; [destruct KEYBOARD_SHARED_EP|]); exact Ho.
Qed.

Lemma clearing_frame c p r : preserves (switches_and_keys c p r) clear_keyboard_but_mods_and_keys.
Proof.
  pose proof (sending_frame c p r).
  unfold clear_keyboard_but_mods_and_keys, host_system_send, host_consumer_send, clear_weak_mods,
    set_weak_mods, emit, upd_mods, upd_host.
  preserve; done.
Qed.

Lemma clear_keyboard_run k :
  switches_and_keys (keymap_config k) (keyboard_protocol k) (clear_keys_from_report (nkro_active k) (rep k)) (exec clear_keyboard k).
Proof.
  unfold clear_keyboard, clear_keyboard_but_mods, clear_mods, set_mods, upd_mods, clear_keys. rewrite !exec_bind.
  apply clearing_frame. by split_and!.
Qed.

Lemma pressed_ext n key r r' :
  keys (keyboard_report r) = keys (keyboard_report r') -> bits (nkro_report r) = bits (nkro_report r') ->
  is_key_pressed n key r = is_key_pressed n key r'.
Proof. unfold is_key_pressed. by intros -> ->. Qed.

(** No key of the report of the mode [n] is pressed. *)
Definition none_pressed (n : bool) (r : reports) : Prop :=
  forall key, reportable n key -> is_key_pressed n key r = false.

Lemma clear_other n n' r : none_pressed n r -> none_pressed n (clear_keys_from_report n' r).
Proof.
  intros H. destruct n, n'; intros key Hk; try by apply clear_keys_pressed.
  - etrans; [|by apply (H key)]. done.
  - etrans; [|by apply (H key)]. done.
Qed.

Lemma clear_keyboard_clears k :
  let k' := exec clear_keyboard k in
  keymap_config k' = keymap_config k /\ nkro_active k' = nkro_active k /\
  none_pressed (nkro_active k) (rep k') /\
  (forall n, none_pressed n (rep k) -> none_pressed n (rep k')).
Proof.
  intros k'. destruct (clear_keyboard_run k) as (Hc & Hp & Hkeys & Hbits). fold k' in Hc, Hp, Hkeys, Hbits.
  split_and!; [done|by unfold nkro_active; rewrite Hc, Hp| |].
  - intros key Hkey. rewrite (pressed_ext _ _ _ _ Hkeys Hbits). by apply clear_keys_pressed.
  - intros n Hn key Hkey. rewrite (pressed_ext _ _ _ _ Hkeys Hbits). by apply clear_other.
Qed.
End cleared.

(** ** A magic keycode *)

Lemma magic_keeps_nkro kc sw c :
  (kc, sw) ∈ magic_switches -> is_nkro_keycode kc = false -> nkro (magic_config kc c) = nkro c.
Proof.
  intros Hsw Hn. unfold magic_switches in Hsw.
  repeat (apply elem_of_cons in Hsw as [Hsw|Hsw]; [injection Hsw as -> ->; first [reflexivity | discriminate Hn]|]).
  by apply elem_of_nil in Hsw.
Qed.
Lemma magic_switches_magic kc sw : (kc, sw) ∈ magic_switches -> IS_MAGIC_KEYCODE kc = true.
Proof.
  intros Hsw. unfold magic_switches in Hsw.
  repeat (apply elem_of_cons in Hsw as [Hsw|Hsw]; [injection Hsw as -> ->; reflexivity|]).
  by apply elem_of_nil in Hsw.
Qed.

Section magic_spec.
Context {CF : Config} {HK : Hooks} `{!EepromDriver} {size : Z} `{!EepromOk size}.
Hypothesis has_config : EECONFIG_BASE_SIZE <= size.

Lemma own_computes {A} (m : stm medium A) d a d' s k :
  computes m d a d' -> eeprom_usable s -> eeprom_bytes s = d ->
  exists s', own m (s, k) = (a, (s', k)) /\ eeprom_usable s' /\ eeprom_bytes s' = d'.
Proof.
  intros Hm Hs Hd. destruct (Hm s Hs Hd) as (s' & E & Hs' & Hd'). exists s'. unfold own. cbn [fst snd]. by rewrite E.
Qed.

Definition hands_after (kc : Z) (d : list Z) : list Z :=
  if kc =? QK_MAGIC_EE_HANDS_LEFT then put_int 1 EECONFIG_HANDEDNESS 1 d
  else if kc =? QK_MAGIC_EE_HANDS_RIGHT then put_int 1 EECONFIG_HANDEDNESS 0 d else d.

Lemma in_config n addr : 0 <= addr -> addr + Z.of_nat n <= EECONFIG_BASE_SIZE -> has_int (size := size) n addr.
Proof. unfold has_int. lia. Qed.

Lemma computes_set_hands kc d : computes (set_hands kc) d tt (hands_after kc d).
Proof.
  unfold set_hands, hands_after, eeconfig_update_handedness, eeprom_update_byte.
  assert (has_int (size := size) 1 EECONFIG_HANDEDNESS) as Ha by (by apply in_config).
  destruct (kc =? QK_MAGIC_EE_HANDS_LEFT); [by apply (computes_update_int 1)|].
  destruct (kc =? QK_MAGIC_EE_HANDS_RIGHT); cbn [when]; [by apply (computes_update_int 1)|apply computes_skip].
Qed.

Lemma hands_after_content kc d : is_content (size := size) d -> is_content (size := size) (hands_after kc d).
Proof. intros Hd. unfold hands_after. repeat case_match; try done; by apply put_int_content. Qed.

Lemma keymap_word d : is_content (size := size) d -> 0 <= int_at 2 d EECONFIG_KEYMAP < 2 ^ 16.
Proof.
  intros [Hlen Hb]. unfold EECONFIG_BASE_SIZE in has_config. unfold int_at.
  assert (length (take 2 (drop (Z.to_nat EECONFIG_KEYMAP) d)) = 2%nat) as Hl
    by (rewrite length_take, length_drop; unfold EECONFIG_KEYMAP; lia).
  pose proof (le_int_range _ (Forall_take _ 2 _ (Forall_drop _ (Z.to_nat EECONFIG_KEYMAP) _ Hb))) as Hr.
  rewrite Hl in Hr. exact Hr.
Qed.

(** The keyboard after the switches have been read, changed and the keyboard
    cleared. *)
Definition after_magic (kc w : Z) (k : keyboard) : keyboard :=
  let k1 := k <| keymap_config := config_of_raw w |> in
  let k2 := if is_nkro_keycode kc then exec clear_keyboard k1 else k1 in
  exec clear_keyboard (k2 <| keymap_config := magic_config kc (keymap_config k2) |>).

Lemma after_magic_config kc w k : keymap_config (after_magic kc w k) = magic_config kc (config_of_raw w).
Proof.
  unfold after_magic. rewrite (proj1 (clear_keyboard_clears _)).
  destruct (is_nkro_keycode kc); [|done].
  change (keymap_config (?x <| keymap_config := ?y |>)) with y. by rewrite (proj1 (clear_keyboard_clears _)).
Qed.

Lemma process_magic_run kc sw r s k :
  (kc, sw) ∈ magic_switches -> pressed (event r) = true -> eeprom_usable s ->
  let w := int_at 2 (eeprom_bytes s) EECONFIG_KEYMAP in
  exists s', process_magic kc r (s, k) = (false, (s', after_magic kc w k)) /\ eeprom_usable s' /\
    eeprom_bytes s' = put_int 2 EECONFIG_KEYMAP (apply_switch sw w) (hands_after kc (eeprom_bytes s)).
Proof.
  intros Hsw Hp Hs w. unfold process_magic. rewrite Hp, (magic_switches_magic _ _ Hsw). cbn [andb].
  assert (is_content (size := size) (eeprom_bytes s)) as Hd by (split; [by apply eeprom_size|by apply eeprom_is_bytes]).
  pose proof (keymap_word _ Hd) as Hw. fold w in Hw.
  destruct (own_computes eeconfig_read_keymap _ _ _ s k (computes_read_int 2 _ EECONFIG_KEYMAP (in_config 2 EECONFIG_KEYMAP ltac:(done) ltac:(done))) Hs eq_refl)
    as (s1 & E1 & Hs1 & Hd1). fold w in E1. srun E1.
  unfold upd_config. rewrite run_core. cbn [modify fst snd].
  set (k1 := k <| keymap_config := config_of_raw w |>).
  set (k2 := if is_nkro_keycode kc then exec clear_keyboard k1 else k1).
  assert (when (is_nkro_keycode kc) (core clear_keyboard) (s1, k1) = (tt, (s1, k2))) as E2
    by (unfold k2; destruct (is_nkro_keycode kc); [apply core_unit|done]).
  srun E2. rewrite run_core. cbn [modify fst snd].
  destruct (own_computes (set_hands kc) _ _ _ s1 (k2 <| keymap_config := magic_config kc (keymap_config k2) |>)
    (computes_set_hands kc _) Hs1 Hd1) as (s2 & E3 & Hs2 & Hd2). srun E3. rewrite run_core. cbn [gets fst snd].
  change (keymap_config (?x <| keymap_config := ?y |>)) with y.
  assert (keymap_config k2 = config_of_raw w) as Ek2 by
    (unfold k2; destruct (is_nkro_keycode kc); [by rewrite (proj1 (clear_keyboard_clears _))|done]).
  rewrite Ek2, (magic_config_word _ _ _ Hsw Hw).
  assert (0 <= apply_switch sw w < 2 ^ 16) as Hw'.
  { rewrite <-(magic_config_word _ _ _ Hsw Hw). apply raw_of_config_range. }
  destruct (own_computes (eeconfig_update_keymap (apply_switch sw w)) _ _ _ s2 (k2 <| keymap_config := magic_config kc (config_of_raw w) |>)
    (computes_update_int 2 _ EECONFIG_KEYMAP _ (in_config 2 EECONFIG_KEYMAP ltac:(done) ltac:(done)) Hw') Hs2 Hd2) as (s3 & E4 & Hs3 & Hd3).
  exists s3. split; [|by split]. srun E4. rewrite (run_bind _ _ _ _ _ (core_unit _ _ _)). srun.
  unfold after_magic. fold k1. fold k2. by rewrite Ek2.
Qed.

(** Both modes: the one before and the one after. *)
Lemma magic_leaves_nothing_down kc sw w k :
  (kc, sw) ∈ magic_switches -> nkro (keymap_config k) = Z.testbit w 7 ->
  none_pressed (nkro_active k) (rep (after_magic kc w k)) /\
  none_pressed (nkro_active (after_magic kc w k)) (rep (after_magic kc w k)).
Proof.
  intros Hsw Hn. set (k1 := k <| keymap_config := config_of_raw w |>).
  assert (nkro_active k1 = nkro_active k) as E1 by (unfold nkro_active; cbn; by rewrite Hn).
  set (k2 := if is_nkro_keycode kc then exec clear_keyboard k1 else k1).
  set (k3 := k2 <| keymap_config := magic_config kc (keymap_config k2) |>).
  change (after_magic kc w k) with (exec clear_keyboard k3).
  destruct (clear_keyboard_clears k3) as (_ & Ha & Hnone & Hkeep). rewrite Ha. split; [|done].
  unfold k2 in *. destruct (is_nkro_keycode kc) eqn:Enk.
  - destruct (clear_keyboard_clears k1) as (_ & _ & Hnone1 & _). rewrite E1 in Hnone1. by apply Hkeep.
  - rewrite <-E1. enough (nkro_active k3 = nkro_active k1) as <- by done.
    unfold nkro_active. change (keymap_config k3) with (magic_config kc (keymap_config k1)).
    by rewrite (magic_keeps_nkro _ _ _ Hsw Enk).
Qed.
End magic_spec.

(** ** Starting *)

Section start.
Context {CF : Config} {HK : Hooks} `{!EepromDriver} `{!DynamicKeymapConfig} `{!ViaConfig} `{!EeconfigSizes} `{!EeconfigBuild}
  {size : Z} `{!EepromOk size}.
Hypothesis has_config : EECONFIG_SIZE <= size.
Hypothesis data_sizes : 0 <= EECONFIG_KB_DATA_SIZE /\ 0 <= EECONFIG_USER_DATA_SIZE.
Implicit Types (v : via_device) (k : keyboard) (d : list Z).

Lemma device_computes {A} (m : stm medium A) d a d' v k :
  computes m d a d' -> eeprom_usable (vd_medium v) -> eeprom_bytes (vd_medium v) = d ->
  exists v', device m (v, k) = (a, (v', k)) /\ eeprom_usable (vd_medium v') /\ eeprom_bytes (vd_medium v') = d'.
Proof.
  intros Hm Hs Hd. destruct (Hm _ Hs Hd) as (s' & E & Hs' & Hd'). exists (v <| vd_medium := s' |>).
  unfold device, own, via_eeprom. cbn [fst snd]. by rewrite E.
Qed.
Lemma device_keeps_core {A} (m : stm medium A) v k : (exec (device m) (v, k)).2 = k.
Proof. done. Qed.

(** What the start takes for a configuration. *)
Definition enabled (d : list Z) : Prop := computes eeconfig_is_enabled d true d.

Lemma start_reads_config v k :
  eeprom_usable (vd_medium v) -> enabled (eeprom_bytes (vd_medium v)) ->
  keymap_config (exec quantum_init (v, k)).2 = config_of_raw (int_at 2 (eeprom_bytes (vd_medium v)) EECONFIG_KEYMAP).
Proof.
  intros Hs Hon. unfold quantum_init.
  destruct (device_computes _ _ _ _ v k Hon Hs eq_refl) as (v1 & E1 & Hs1 & Hd1).
  unfold exec. srun E1. cbn [negb when]. srun. unfold init_globals, eeconfig_read_debug.
  assert (has_int (size := size) 1 EECONFIG_DEBUG /\ has_int (size := size) 2 EECONFIG_KEYMAP) as [Hdbg Hkm]
    by (unfold EECONFIG_SIZE, EECONFIG_BASE_SIZE, EECONFIG_DEBUG, EECONFIG_KEYMAP, has_int in *; lia).
  destruct (device_computes _ _ _ _ v1 k (computes_read_int 1 _ EECONFIG_DEBUG Hdbg) Hs1 Hd1) as (v2 & E2 & Hs2 & Hd2).
  srun E2. destruct (device_computes _ _ _ _ v2 k (computes_read_int 2 _ EECONFIG_KEYMAP Hkm) Hs2 Hd2) as (v3 & E3 & _ & _).
  unfold eeconfig_read_keymap. srun E3. unfold upd_config. rewrite run_core. cbn [modify fst snd].
  match goal with |- keymap_config (snd (snd (?m ?s))) = _ => change (keymap_config (exec m s).2 = config_of_raw (int_at 2 (eeprom_bytes (vd_medium v)) EECONFIG_KEYMAP)) end.
  rewrite exec_bind. destruct (exec (device bootmagic) _) as [v4 k4] eqn:E4.
  pose proof (device_keeps_core bootmagic v3 (k <| keymap_config := config_of_raw (int_at 2 (eeprom_bytes (vd_medium v)) EECONFIG_KEYMAP) |>)) as E5.
  rewrite E4 in E5. cbn [snd] in E5. subst k4.
  unfold exec, device. rewrite run_own, core_unit. cbn [fst snd]. unfold default_layer_set, default_layer_state_set.
  rewrite exec_bind. by rewrite (proj2 (layer_release_frame _)).
Qed.

(** C36: A magic keycode reads the saved word, sets, clears or flips in it the
    switches it names, saves it, and makes it the configuration in use (switches
    that were in use but not saved are lost); it changes nothing else in the
    EEPROM but the hand it may name; whoever starts the keyboard again has the
    same switches.  If the mode in use (NKRO or not) was the saved one, nothing
    is left down, neither in the report of the mode that was on nor in that of
    the mode that is on now; see [unsaved_mode_leaves_keys_down] for the other
    case. *)
Theorem magic_survives_restart kc sw r s k :
  (kc, sw) ∈ magic_switches -> pressed (event r) = true -> eeprom_usable s ->
  let d := eeprom_bytes s in
  let w := int_at 2 d EECONFIG_KEYMAP in
  exists s' k', process_magic kc r (s, k) = (false, (s', k')) /\ eeprom_usable s' /\
    keymap_config k' = config_of_raw (apply_switch sw w) /\
    int_at 2 (eeprom_bytes s') EECONFIG_KEYMAP = apply_switch sw w /\
    (forall a, 0 <= a -> ~ (EECONFIG_KEYMAP <= a < EECONFIG_KEYMAP + 2) -> byte_at (eeprom_bytes s') a = byte_at (hands_after kc d) a) /\
    (forall v k0, vd_medium v = s' -> enabled (eeprom_bytes s') ->
       keymap_config (exec quantum_init (v, k0)).2 = keymap_config k') /\
    (nkro (keymap_config k) = Z.testbit w 7 ->
       none_pressed (nkro_active k) (rep k') /\ none_pressed (nkro_active k') (rep k')).
Proof.
  intros Hsw Hp Hs d w. assert (EECONFIG_BASE_SIZE <= size) as Hbase by (unfold EECONFIG_SIZE in has_config; lia).
  destruct (process_magic_run Hbase kc sw r s k Hsw Hp Hs) as (s' & E & Hs' & Hd'). fold d w in E, Hd'.
  assert (is_content (size := size) d) as Hd by (split; [by apply eeprom_size|by apply eeprom_is_bytes]).
  pose proof (keymap_word Hbase d Hd) as Hw. fold w in Hw.
  assert (0 <= apply_switch sw w < 2 ^ 16) as Hw' by (rewrite <-(magic_config_word _ _ _ Hsw Hw); apply raw_of_config_range).
  assert (keymap_config (after_magic kc w k) = config_of_raw (apply_switch sw w)) as Hc.
  { rewrite after_magic_config, <-(magic_config_word _ _ _ Hsw Hw). by rewrite config_of_raw_of_config. }
  assert (int_at 2 (eeprom_bytes s') EECONFIG_KEYMAP = apply_switch sw w) as Hint.
  { rewrite Hd'. apply (int_at_put (size := size)); [by apply hands_after_content|by apply in_config|done]. }
  exists s', (after_magic kc w k). split_and!; [done|done|done|done| | |].
  - intros a Ha Hout. rewrite Hd'. apply byte_at_put_other; [done|done|]. unfold disjoint_ints. lia.
  - intros v k0 Hv Hon. rewrite Hc. subst s'. by rewrite start_reads_config, Hint.
  - by apply (magic_leaves_nothing_down kc sw).
Qed.

(** ** The defaults *)

Definition field : Type := nat * Z * Z.
Definition put_field (d : list Z) (f : field) : list Z := put_int f.1.1 f.1.2 f.2 d.
Definition put_fields (fs : list field) (d : list Z) : list Z := foldl put_field d fs.
Definition holds_field (d : list Z) (f : field) : Prop := int_at f.1.1 d f.1.2 = f.2.
Definition field_ok (f : field) : Prop := has_int (size := size) f.1.1 f.1.2 /\ 0 <= f.2 < 2 ^ (8 * Z.of_nat f.1.1).
Definition apart (f g : field) : Prop := disjoint_ints f.1.1 f.1.2 g.1.1 g.1.2.
Fixpoint all_apart (fs : list field) : Prop :=
  match fs with [] => True | f :: fs => Forall (apart f) fs /\ all_apart fs end.

Lemma put_fields_content fs d : is_content (size := size) d -> is_content (size := size) (put_fields fs d).
Proof. revert d. induction fs as [|f fs IH]; intros d Hd; [done|]. by apply IH, put_int_content. Qed.

Lemma put_fields_keep fs f d :
  Forall field_ok fs -> field_ok f -> Forall (apart f) fs -> holds_field d f -> holds_field (put_fields fs d) f.
Proof.
  intros Hok Hf. revert d. induction Hok as [|g fs Hg _ IH]; intros d Hapart Hd; [done|].
  apply Forall_cons in Hapart as [Hfg Hapart]. apply IH; [done|]. unfold holds_field, put_field.
  destruct Hf as [[? _] _], Hg as [[? _] _]. by rewrite int_at_put_other.
Qed.

Lemma put_fields_found fs d :
  is_content (size := size) d -> Forall field_ok fs -> all_apart fs -> Forall (holds_field (put_fields fs d)) fs.
Proof.
  intros Hd Hok. revert d Hd. induction Hok as [|f fs Hf Hok IH]; intros d Hd Hapart; [done|].
  destruct Hapart as [Hff Hapart]. change (put_fields (f :: fs) d) with (put_fields fs (put_field d f)). constructor.
  - apply put_fields_keep; [done|done|done|]. destruct Hf as [Hi Hv]. by apply (int_at_put (size := size)).
  - apply IH; [|done]. by apply put_int_content.
Qed.

Definition default_fields (default_layer : Z) : list field :=
  [(1%nat, EECONFIG_DEFAULT_LAYER, default_layer); (2%nat, EECONFIG_KEYMAP, 0x1400); (1%nat, EECONFIG_BACKLIGHT, 0);
   (1%nat, EECONFIG_AUDIO, 0); (4%nat, EECONFIG_RGBLIGHT, 0); (1%nat, EECONFIG_RGBLIGHT_EXTENDED, 0);
   (1%nat, EECONFIG_UNICODEMODE, 0); (1%nat, EECONFIG_STENOMODE, 0); (8%nat, EECONFIG_RGB_MATRIX, 0);
   (4%nat, EECONFIG_HAPTIC, 0)].
(** A block of data: its version, and zeros. *)
Definition block_fields (addr base data_size version : Z) : list field :=
  if 0 <? data_size then [(4%nat, addr, version); (Z.to_nat data_size, base, 0)] else [].
(** The word of the keyboard or the user where there is no block. *)
Definition word_field (addr data_size : Z) : list field := if data_size =? 0 then [(4%nat, addr, 0)] else [].
Definition all_fields : list field :=
  [(2%nat, EECONFIG_MAGIC, EECONFIG_MAGIC_NUMBER); (1%nat, EECONFIG_DEBUG, 0)] ++ default_fields 1 ++
  block_fields EECONFIG_KEYBOARD EECONFIG_KB_DATABLOCK EECONFIG_KB_DATA_SIZE EECONFIG_KB_DATA_VERSION ++
  block_fields EECONFIG_USER EECONFIG_USER_DATABLOCK EECONFIG_USER_DATA_SIZE EECONFIG_USER_DATA_VERSION ++
  word_field EECONFIG_KEYBOARD EECONFIG_KB_DATA_SIZE ++ word_field EECONFIG_USER EECONFIG_USER_DATA_SIZE.

Hypothesis versions : 0 <= EECONFIG_KB_DATA_VERSION < 2 ^ 32 /\ 0 <= EECONFIG_USER_DATA_VERSION < 2 ^ 32.

Lemma all_fields_ok : Forall field_ok all_fields.
Proof.
  unfold all_fields, default_fields, block_fields, word_field. unfold EECONFIG_SIZE, EECONFIG_KB_DATABLOCK, EECONFIG_USER_DATABLOCK in *.
  unfold EECONFIG_BASE_SIZE in *.
  assert (forall n, 0 <= 0 < 2 ^ (8 * Z.of_nat n)) as Hzero by (intros n; pose proof (Z.pow_pos_nonneg 2 (8 * Z.of_nat n)); lia).
  destruct (Z.ltb_spec 0 EECONFIG_KB_DATA_SIZE), (Z.ltb_spec 0 EECONFIG_USER_DATA_SIZE),
    (Z.eqb_spec EECONFIG_KB_DATA_SIZE 0), (Z.eqb_spec EECONFIG_USER_DATA_SIZE 0); try lia; cbn [app].
  all: repeat constructor; cbn [fst snd]; try done; try apply Hzero; try lia.
  all: unfold EECONFIG_MAGIC, EECONFIG_DEBUG, EECONFIG_DEFAULT_LAYER, EECONFIG_KEYMAP, EECONFIG_BACKLIGHT, EECONFIG_AUDIO,
    EECONFIG_RGBLIGHT, EECONFIG_UNICODEMODE, EECONFIG_STENOMODE, EECONFIG_KEYBOARD, EECONFIG_USER,
    EECONFIG_RGB_MATRIX, EECONFIG_HAPTIC, EECONFIG_RGBLIGHT_EXTENDED; lia.
Qed.

Lemma all_fields_apart : all_apart all_fields.
Proof.
  unfold all_fields, default_fields, block_fields, word_field, EECONFIG_KB_DATABLOCK, EECONFIG_USER_DATABLOCK, EECONFIG_BASE_SIZE.
  destruct (Z.ltb_spec 0 EECONFIG_KB_DATA_SIZE), (Z.ltb_spec 0 EECONFIG_USER_DATA_SIZE),
    (Z.eqb_spec EECONFIG_KB_DATA_SIZE 0), (Z.eqb_spec EECONFIG_USER_DATA_SIZE 0); try lia; cbn [app all_apart].
  all: repeat first [exact I | split | apply Forall_nil_2 | apply Forall_cons_2]; unfold apart, disjoint_ints; cbn [fst snd].
  all: unfold EECONFIG_MAGIC, EECONFIG_DEBUG, EECONFIG_DEFAULT_LAYER, EECONFIG_KEYMAP, EECONFIG_BACKLIGHT, EECONFIG_AUDIO,
    EECONFIG_RGBLIGHT, EECONFIG_UNICODEMODE, EECONFIG_STENOMODE, EECONFIG_KEYBOARD, EECONFIG_USER,
    EECONFIG_RGB_MATRIX, EECONFIG_HAPTIC, EECONFIG_RGBLIGHT_EXTENDED; lia.
Qed.

Lemma put_fields_app fs gs d : put_fields (fs ++ gs) d = put_fields gs (put_fields fs d).
Proof. apply foldl_app. Qed.

Lemma computes_field f (m : stm medium unit) (rest : stm medium unit) fs d d' :
  computes m d tt (put_field d f) -> computes rest (put_field d f) tt (put_fields fs (put_field d f)) ->
  d' = put_fields (f :: fs) d -> computes (m;; rest) d tt d'.
Proof. intros Hm Hrest ->. by eapply computes_bind. Qed.

Lemma computes_block addr base data_size version d :
  field_ok (4%nat, addr, version) -> field_ok (Z.to_nat data_size, base, 0) ->
  computes (eeprom_update_dword addr version;; eeprom_update_block (replicate (Z.to_nat data_size) 0) base) d tt
    (put_fields [(4%nat, addr, version); (Z.to_nat data_size, base, 0)] d).
Proof.
  intros [Hi Hv] [Hj _]. eapply computes_bind; [by apply (computes_update_int 4)|]. by apply computes_update_zeros.
Qed.

Lemma computes_when (b : bool) (m : stm medium unit) fs d :
  (b = true -> computes m d tt (put_fields fs d)) -> computes (when b m) d tt (put_fields (if b then fs else []) d).
Proof. destruct b; intros Hm; [by apply Hm|apply computes_skip]. Qed.

Lemma computes_defaults d :
  computes (eeconfig_defaults 1) d tt
    (put_fields (default_fields 1 ++
      block_fields EECONFIG_KEYBOARD EECONFIG_KB_DATABLOCK EECONFIG_KB_DATA_SIZE EECONFIG_KB_DATA_VERSION ++
      block_fields EECONFIG_USER EECONFIG_USER_DATABLOCK EECONFIG_USER_DATA_SIZE EECONFIG_USER_DATA_VERSION) d).
Proof.
  pose proof all_fields_ok as Hok. unfold all_fields in Hok. rewrite !Forall_app in Hok.
  destruct Hok as (_ & Hdef & Hkb & Husr & _). unfold default_fields in Hdef. rewrite !Forall_cons in Hdef.
  destruct Hdef as ((?&?) & (?&?) & (?&?) & (?&?) & (?&?) & (?&?) & (?&?) & (?&?) & (?&?) & (?&?) & _).
  rewrite !put_fields_app. unfold eeconfig_defaults, default_fields, put_fields at 3. cbn [foldl].
  eapply computes_bind; [by apply (computes_update_int 1)|]. eapply computes_bind; [by apply (computes_update_int 2)|].
  eapply computes_bind; [by apply (computes_update_int 1)|]. eapply computes_bind; [by apply (computes_update_int 1)|].
  eapply computes_bind; [by apply (computes_update_int 4)|]. eapply computes_bind; [by apply (computes_update_int 1)|].
  eapply computes_bind; [by apply (computes_update_int 1)|]. eapply computes_bind; [by apply (computes_update_int 1)|].
  eapply computes_bind; [by apply computes_update_zeros|]. eapply computes_bind; [by apply (computes_update_int 4)|].
  unfold block_fields in *. eapply computes_bind; apply computes_when; intros E; rewrite E, !Forall_cons in *.
  - destruct Hkb as (? & ? & _). by apply computes_block.
  - destruct Husr as (? & ? & _). by apply computes_block.
Qed.

Lemma computes_init_kb d :
  computes (default_eeconfig_init_kb default_eeconfig_init_user) d tt
    (put_fields (word_field EECONFIG_KEYBOARD EECONFIG_KB_DATA_SIZE ++ word_field EECONFIG_USER EECONFIG_USER_DATA_SIZE) d).
Proof.
  pose proof all_fields_ok as Hok. unfold all_fields in Hok. rewrite !Forall_app in Hok.
  destruct Hok as (_ & _ & _ & _ & Hk & Hu). rewrite put_fields_app.
  unfold word_field, default_eeconfig_init_kb, default_eeconfig_init_user in *.
  eapply computes_bind; apply computes_when; intros E; rewrite E, !Forall_cons in *.
  - destruct Hk as [[? ?] _]. by apply (computes_update_int 4).
  - destruct Hu as [[? ?] _]. by apply (computes_update_int 4).
Qed.

Hypothesis no_via : VIA_ENABLE = false.
Hypothesis erase_ok : forall d, exists d', computes erase_driver d tt d'.
Hypothesis weak_kb : eeconfig_init_kb = default_eeconfig_init_kb default_eeconfig_init_user.

Definition magic_at (d : list Z) : Z := int_at 2 d EECONFIG_MAGIC.

Lemma has_magic : has_int (size := size) 2 EECONFIG_MAGIC.
Proof. unfold has_int, EECONFIG_MAGIC, EECONFIG_SIZE, EECONFIG_BASE_SIZE in *. lia. Qed.

Lemma computes_enabled d : computes eeconfig_is_enabled d (magic_at d =? EECONFIG_MAGIC_NUMBER) d.
Proof.
  unfold eeconfig_is_enabled. rewrite no_via. cbn [andb]. eapply computes_bind; [apply (computes_read_int 2), has_magic|].
  apply computes_ret.
Qed.

Lemma eeconfig_init_run v k :
  eeprom_usable (vd_medium v) ->
  exists v' k', eeconfig_init (v, k) = (tt, (v', k')) /\ eeprom_usable (vd_medium v') /\
    Forall (holds_field (eeprom_bytes (vd_medium v'))) all_fields /\
    k' = k <| layers := (layers k) <| default_layer_state := 1 |> |>.
Proof.
  intros Hs. pose proof all_fields_ok as Hok.
  destruct (erase_ok (eeprom_bytes (vd_medium v))) as [d0 H0'].
  destruct (device_computes _ _ _ _ v k H0' Hs eq_refl) as (v0 & E0 & Hs0 & Hd0).
  assert (is_content (size := size) d0) as Hc by (rewrite <-Hd0; split; [by apply eeprom_size|by apply eeprom_is_bytes]).
  assert (field_ok (2%nat, EECONFIG_MAGIC, EECONFIG_MAGIC_NUMBER) /\ field_ok (1%nat, EECONFIG_DEBUG, 0)) as [[Hf1 Hf1'] [Hf2 Hf2']].
  { unfold all_fields in Hok. cbn [app] in Hok. rewrite !Forall_cons in Hok. by destruct Hok as (? & ? & _). }
  destruct (device_computes _ _ _ _ v0 k (computes_update_int 2 d0 EECONFIG_MAGIC _ Hf1 Hf1') Hs0 Hd0) as (v1 & E1 & Hs1 & Hd1).
  destruct (device_computes _ _ _ _ v1 k (computes_update_int 1 _ EECONFIG_DEBUG _ Hf2 Hf2') Hs1 Hd1) as (v2 & E2 & Hs2 & Hd2).
  set (k' := k <| layers := (layers k) <| default_layer_state := 1 |> |>).
  destruct (device_computes _ _ _ _ v2 k' (computes_defaults _) Hs2 Hd2) as (v3 & E3 & Hs3 & Hd3).
  destruct (device_computes _ _ _ _ v3 k' (computes_init_kb _) Hs3 Hd3) as (v4 & E4 & Hs4 & Hd4).
  exists v4, k'. split_and!; [|done| |done].
  - unfold eeconfig_init, eeconfig_init_quantum. srun E0. unfold eeprom_update_word, eeprom_update_byte. srun E1. srun E2.
    unfold upd_layers. rewrite run_core. cbn [modify fst snd]. fold k'. srun.
    unfold get_default_layer_state. rewrite run_core. cbn [gets fst snd]. change (default_layer_state (layers k')) with 1.
    change (u8 1) with 1. srun E3. rewrite no_via. cbn [when]. srun. rewrite weak_kb. exact E4.
  - rewrite Hd4. pose proof (put_fields_found all_fields d0 Hc Hok all_fields_apart) as Hall.
    unfold all_fields in Hall at 1. rewrite !put_fields_app in Hall. by rewrite !put_fields_app.
Qed.

Hypothesis no_bootmagic : bootmagic = skip.

Lemma init_globals_run v k :
  eeprom_usable (vd_medium v) ->
  exists v', init_globals (v, k) = (tt, (v', exec (default_layer_set (int_at 1 (eeprom_bytes (vd_medium v)) EECONFIG_DEFAULT_LAYER))
      (k <| keymap_config := config_of_raw (int_at 2 (eeprom_bytes (vd_medium v)) EECONFIG_KEYMAP) |>))) /\
    eeprom_usable (vd_medium v') /\ eeprom_bytes (vd_medium v') = eeprom_bytes (vd_medium v).
Proof.
  intros Hs.
  assert (has_int (size := size) 1 EECONFIG_DEBUG /\ has_int (size := size) 2 EECONFIG_KEYMAP /\
    has_int (size := size) 1 EECONFIG_DEFAULT_LAYER) as (Hdbg & Hkm & Hdl)
    by (unfold EECONFIG_SIZE, EECONFIG_BASE_SIZE, EECONFIG_DEBUG, EECONFIG_KEYMAP, EECONFIG_DEFAULT_LAYER, has_int in *; lia).
  destruct (device_computes _ _ _ _ v k (computes_read_int 1 _ EECONFIG_DEBUG Hdbg) Hs eq_refl) as (v2 & E2 & Hs2 & Hd2).
  destruct (device_computes _ _ _ _ v2 k (computes_read_int 2 _ EECONFIG_KEYMAP Hkm) Hs2 Hd2) as (v3 & E3 & Hs3 & Hd3).
  set (k1 := k <| keymap_config := config_of_raw (int_at 2 (eeprom_bytes (vd_medium v)) EECONFIG_KEYMAP) |>).
  destruct (device_computes _ _ _ _ v3 k1 (computes_skip _) Hs3 Hd3) as (v4 & E4 & Hs4 & Hd4).
  destruct (device_computes _ _ _ _ v4 k1 (computes_read_int 1 _ EECONFIG_DEFAULT_LAYER Hdl) Hs4 Hd4) as (v5 & E5 & Hs5 & Hd5).
  exists v5. split; [|by split]. unfold init_globals, eeconfig_read_debug, eeprom_read_byte. srun E2.
  unfold eeconfig_read_keymap. srun E3. unfold upd_config. rewrite run_core. cbn [modify fst snd]. fold k1.
  rewrite no_bootmagic. srun E4. unfold eeconfig_read_default_layer. srun E5. by rewrite core_unit.
Qed.

(** C37: An EEPROM that is not marked as configured is initialised at the start:
    every field has its default, one-shot keys and autocorrect are on; from
    then on it is taken for configured, and a further start reads the same. *)
Theorem first_start_sets_defaults v k :
  eeprom_usable (vd_medium v) -> magic_at (eeprom_bytes (vd_medium v)) <> EECONFIG_MAGIC_NUMBER ->
  exists v' k', quantum_init (v, k) = (tt, (v', k')) /\ eeprom_usable (vd_medium v') /\
    let d := eeprom_bytes (vd_medium v') in
    Forall (holds_field d) all_fields /\ enabled d /\
    keymap_config k' = config_of_raw 0x1400 /\
    default_layer_state (layers k') = layer_word (default_layer_state_set_kb 1) /\
    forall k0, exists v2 k2, quantum_init (v', k0) = (tt, (v2, k2)) /\ eeprom_bytes (vd_medium v2) = d /\
      keymap_config k2 = keymap_config k' /\ default_layer_state (layers k2) = default_layer_state (layers k').
Proof.
  intros Hs Hm.
  destruct (device_computes _ _ _ _ v k (computes_enabled _) Hs eq_refl) as (v1 & E1 & Hs1 & Hd1).
  rewrite (proj2 (Z.eqb_neq _ _) Hm) in E1.
  destruct (eeconfig_init_run v1 k Hs1) as (v2 & k2 & E2 & Hs2 & Hall & Hk2).
  set (d := eeprom_bytes (vd_medium v2)) in *.
  assert (magic_at d = EECONFIG_MAGIC_NUMBER /\ int_at 2 d EECONFIG_KEYMAP = 0x1400 /\ int_at 1 d EECONFIG_DEFAULT_LAYER = 1) as (Hmagic & Hkm & Hdl).
  { unfold all_fields in Hall. cbn [app default_fields] in Hall. rewrite !Forall_cons in Hall. by destruct Hall as (? & _ & ? & ? & _). }
  assert (enabled d) as Hon by (pose proof (computes_enabled d) as He; rewrite Hmagic in He; exact He).
  assert (forall w k0, eeprom_usable (vd_medium w) -> eeprom_bytes (vd_medium w) = d ->
    exists w' k', init_globals (w, k0) = (tt, (w', k')) /\ eeprom_usable (vd_medium w') /\ eeprom_bytes (vd_medium w') = d /\
      keymap_config k' = config_of_raw 0x1400 /\ default_layer_state (layers k') = layer_word (default_layer_state_set_kb 1)) as Hstart.
  { intros w k0 Hw Hwd. destruct (init_globals_run w k0 Hw) as (w' & E & Hw' & Hwd').
    rewrite Hwd, Hkm, Hdl in E. eexists w', _. split; [exact E|]. split_and!; [done|by rewrite Hwd'| |].
    - unfold default_layer_set, default_layer_state_set. rewrite exec_bind. by rewrite (proj2 (layer_release_frame _)).
    - unfold default_layer_set. by rewrite default_layer_state_set_layers. }
  destruct (Hstart v2 k2 Hs2 eq_refl) as (v' & k' & E & Hs' & Hd' & Hc' & Hl').
  exists v', k'. split; [|split; [done|]].
  - unfold quantum_init. srun E1. cbn [negb when]. srun E2. exact E.
  - cbv zeta. rewrite Hd'. split_and!; [done|done|done|done|]. intros k0.
    destruct (device_computes _ _ _ _ v' k0 Hon Hs' Hd') as (v3 & E3 & Hs3 & Hd3).
    destruct (Hstart v3 k0 Hs3 Hd3) as (v4 & k4 & E4 & _ & Hd4 & Hc4 & Hl4).
    exists v4, k4. split_and!; [|done|by rewrite Hc4|by rewrite Hl4]. unfold quantum_init. srun E3. cbn [negb when]. srun. exact E4.
Qed.

(** ** The default layer and the blocks of data *)

(** The saved default layers are a byte: one from 8 on is saved as none. *)
Lemma default_layer_saved n s k :
  eeprom_usable s -> 8 <= LAYER_STATE_BITS -> 0 <= n < LAYER_STATE_BITS ->
  exists s', set_single_persistent_default_layer n (s, k) = (tt, (s', exec (default_layer_set (bit n)) k)) /\
    int_at 1 (eeprom_bytes s') EECONFIG_DEFAULT_LAYER = if n <? 8 then bit n else 0.
Proof.
  intros Hs Hbits Hn. unfold set_single_persistent_default_layer.
  assert (EECONFIG_BASE_SIZE <= size) as Hbase by (unfold EECONFIG_SIZE in has_config; lia).
  assert (has_int (size := size) 1 EECONFIG_DEFAULT_LAYER) as Ha by (by apply in_config).
  assert (layer_word (bit n) = bit n) as ->.
  { apply wrap_small. unfold bit. rewrite Z.shiftl_1_l. split; [apply Z.pow_nonneg; lia|]. apply Z.pow_lt_mono_r; lia. }
  assert (0 <= u8 (bit n) < 2 ^ (8 * Z.of_nat 1)) as Hv by apply is_byte_u8.
  destruct (own_computes (eeconfig_update_default_layer (u8 (bit n))) _ _ _ s k
    (computes_update_int 1 _ EECONFIG_DEFAULT_LAYER _ Ha Hv) Hs eq_refl) as (s' & E & Hs' & Hd').
  exists s'. srun E. rewrite core_unit. split; [done|]. rewrite Hd'.
  rewrite (int_at_put (size := size)); [|split; [by apply eeprom_size|by apply eeprom_is_bytes]|done|done].
  unfold bit, wrap. rewrite Z.shiftl_1_l. destruct (Z.ltb_spec n 8).
  - apply Z.mod_small. split; [apply Z.pow_nonneg; lia|]. apply Z.pow_lt_mono_r; lia.
  - replace n with (8 + (n - 8)) by lia. rewrite Z.pow_add_r by lia. rewrite Z.mul_comm. by apply Z.mod_mul.
Qed.

Lemma computes_update_bytes buf addr d :
  has_int (size := size) (length buf) addr -> Forall is_byte buf ->
  computes (eeprom_update_block buf addr) d tt (list_inserts (Z.to_nat addr) buf d).
Proof.
  intros [Ha Hn] Hb. unfold eeprom_update_block.
  assert (computes (eeprom_read_block (replicate (length buf) 0) addr) d (take (length buf) (drop (Z.to_nat addr) d)) d) as Hread.
  { intros s Hs <-. exists s. rewrite read_block_ok by (rewrite ?length_replicate; done). by rewrite length_replicate. }
  eapply computes_bind; [exact Hread|]. case_bool_decide as Heq; cbn [when].
  - intros s Hs <-. destruct (write_block_ok buf addr s Hs Ha Hn Hb) as (s' & E & Hs' & Hd'). by exists s'.
  - rewrite Heq at 1. rewrite inserts_back. apply computes_skip.
Qed.

Lemma take_drop_inserts i buf d :
  (i + length buf <= length d)%nat -> take (length buf) (drop i (list_inserts i buf d)) = buf.
Proof.
  intros Hl. apply list_eq. intros j. destruct (decide (j < length buf)%nat).
  - rewrite take_drop_lookup, list_lookup_inserts by lia. f_equal. lia.
  - rewrite !lookup_ge_None_2; [done|lia|rewrite length_take; lia].
Qed.

(** What is stored as the block of the keyboard is what is read back; a block
    of another version is read as zeros. *)
Lemma kb_datablock_roundtrip data buf d :
  Z.of_nat (length data) = EECONFIG_KB_DATA_SIZE -> length buf = length data -> Forall is_byte data -> is_content (size := size) d ->
  (exists d', computes (eeconfig_update_kb_datablock data) d tt d' /\ computes (eeconfig_read_kb_datablock buf) d' data d') /\
  (int_at 4 d EECONFIG_KEYBOARD <> EECONFIG_KB_DATA_VERSION ->
   computes (eeconfig_read_kb_datablock buf) d (replicate (length data) 0) d).
Proof.
  intros Hlen Hbuf Hb Hd.
  assert (has_int (size := size) 4 EECONFIG_KEYBOARD) as Hk by
    (unfold has_int, EECONFIG_KEYBOARD, EECONFIG_SIZE, EECONFIG_BASE_SIZE in *; lia).
  assert (has_int (size := size) (length data) EECONFIG_KB_DATABLOCK) as Hblk by
    (unfold has_int, EECONFIG_KB_DATABLOCK, EECONFIG_SIZE, EECONFIG_BASE_SIZE in *; lia).
  assert (forall d, computes eeconfig_is_kb_datablock_valid d (int_at 4 d EECONFIG_KEYBOARD =? EECONFIG_KB_DATA_VERSION) d) as Hvalid.
  { intros d0. eapply computes_bind; [by apply (computes_read_int 4)|apply computes_ret]. }
  split.
  - set (d1 := put_int 4 EECONFIG_KEYBOARD EECONFIG_KB_DATA_VERSION d).
    exists (list_inserts (Z.to_nat EECONFIG_KB_DATABLOCK) data d1). split.
    + eapply computes_bind; [apply (computes_update_int 4); [done|apply versions]|by apply computes_update_bytes].
    + apply computes_content. intros [Hc _]. rewrite length_inserts in Hc.
      unfold eeconfig_read_kb_datablock. eapply computes_bind; [apply Hvalid|].
      assert (int_at 4 (list_inserts (Z.to_nat EECONFIG_KB_DATABLOCK) data d1) EECONFIG_KEYBOARD = EECONFIG_KB_DATA_VERSION) as ->.
      { rewrite int_at_inserts; [|done..|].
        - apply (int_at_put (size := size)); [done|done|apply versions].
        - left. unfold EECONFIG_KB_DATABLOCK, EECONFIG_BASE_SIZE, EECONFIG_KEYBOARD. lia. }
      rewrite Z.eqb_refl. intros s Hs Hsd. exists s. destruct Hblk as [Hb0 Hb1].
      rewrite read_block_ok by (rewrite ?Hbuf; done). rewrite Hbuf, Hsd. split; [|done].
      rewrite take_drop_inserts; [done|]. lia.
  - intros Hv. unfold eeconfig_read_kb_datablock. eapply computes_bind; [apply Hvalid|].
    rewrite (proj2 (Z.eqb_neq _ _) Hv). replace (Z.to_nat EECONFIG_KB_DATA_SIZE) with (length data) by lia. apply computes_ret.
Qed.
End start.
