(* ===== verification/KeyLock.v ===== *)
(** * Key lock (quantum/process_keycode/process_key_lock.c)

    [QK_LOCK] and then a key: the key stays down until it is pressed again.
    The feature hides events from the code behind it: [process_key_lock]
    returns whether the event is passed on, and the keycode it is passed on
    with. *)

From S2P Require Import Prelude.
From S2P Require Import Keycodes.
From S2P Require Import Report.
From S2P Require Import State.

(** [key_state]: 256 bits in four 64-bit words. *)
Record key_lock := { key_state : list Z; watching : bool }.

Definition key_lock_init : key_lock := {| key_state := [0; 0; 0; 0]; watching := false |}.

Definition BV_64 (shift : Z) : Z := u64 (bit shift).
Definition KEY_ARRAY (code : Z) : Z :=
  if code <? 0x40 then 0 else if code <? 0x80 then 1 else if code <? 0xC0 then 2 else 3.
Definition GET_KEY_ARRAY (code : Z) (s : key_lock) : Z := at_ (key_state s) (KEY_ARRAY code).
Definition GET_CODE_INDEX (code : Z) : Z :=
  if code <? 0x40 then code else if code <? 0x80 then code - 0x40
  else if code <? 0xC0 then code - 0x80 else code - 0xC0.
Definition KEY_STATE (code : Z) (s : key_lock) : bool :=
  Z.land (GET_KEY_ARRAY code s) (BV_64 (GET_CODE_INDEX code)) =? BV_64 (GET_CODE_INDEX code).
Definition SET_KEY_ARRAY_STATE (code val : Z) (s : key_lock) : key_lock :=
  let store i := s <| key_state := put (key_state s) i val |> in
  if within 0x00 0x3F code then store 0
  else if within 0x40 0x7F code then store 1
  else if within 0x80 0xBF code then store 2
  else if within 0xC0 0xFF code then store 3
  else s.
Definition SET_KEY_STATE (code : Z) (s : key_lock) : key_lock :=
  SET_KEY_ARRAY_STATE code (Z.lor (GET_KEY_ARRAY code s) (BV_64 (GET_CODE_INDEX code))) s.
Definition UNSET_KEY_STATE (code : Z) (s : key_lock) : key_lock :=
  SET_KEY_ARRAY_STATE code (clear_bits (GET_KEY_ARRAY code s) (BV_64 (GET_CODE_INDEX code))) s.
Definition IS_STANDARD_KEYCODE (code : Z) : bool := code <=? 0xFF.

Definition translate_keycode (keycode : Z) : Z :=
  if (QK_ONE_SHOT_MOD <? keycode) && (keycode <=? QK_ONE_SHOT_MOD_MAX)
  then Z.lxor keycode QK_ONE_SHOT_MOD else keycode.

Definition put_watching (b : bool) : stm key_lock unit := modify (fun s => s <| watching := b |>).

Definition cancel_key_lock : stm key_lock unit := put_watching false;; modify (UNSET_KEY_STATE 0).

Definition process_key_lock (keycode : Z) (r : keyrecord_t) : stm key_lock (bool * Z) :=
  let translated := translate_keycode keycode in
  if pressed (event r) then
    if negb (IS_STANDARD_KEYCODE translated || (translated =? QK_LOCK)) then
      put_watching false;; mret (true, keycode)
    else if translated =? QK_LOCK then
      w ← gets watching; put_watching (negb w);; mret (false, keycode)
    else
      w ← gets watching;
      if (w : bool) then
        put_watching false;;
        modify (SET_KEY_STATE translated);;
        mret (true, translated)
      else
        down ← gets (KEY_STATE translated);
        if (down : bool) then modify (UNSET_KEY_STATE translated);; mret (false, keycode)
        else mret (true, keycode)
  else
    down ← gets (KEY_STATE translated);
    mret (negb (IS_STANDARD_KEYCODE translated && down), keycode).

(** ** The bit array as a set of keys *)

Section bits_of_keys.
Implicit Types (s : key_lock).

Definition key_lock_ok s : Prop :=
  length (key_state s) = 4%nat /\ Forall (fun w => 0 <= w < 2 ^ 64) (key_state s).

Lemma key_lock_init_ok : key_lock_ok key_lock_init.
Proof. split; [done|]. forall_list. Qed.

Lemma key_index code : 0 <= code <= 0xFF ->
  KEY_ARRAY code = code / 64 /\ GET_CODE_INDEX code = code mod 64.
Proof. intros ?. unfold KEY_ARRAY, GET_CODE_INDEX. repeat zcase; dlia. Qed.

Lemma BV_64_bit i : 0 <= i < 64 -> BV_64 i = bit i.
Proof. intros ?. apply wrap_small. by apply bit_range. Qed.

Lemma KEY_STATE_testbit code s : 0 <= code <= 0xFF ->
  KEY_STATE code s = Z.testbit (at_ (key_state s) (code / 64)) (code mod 64).
Proof.
  intros Hc. unfold KEY_STATE, GET_KEY_ARRAY. destruct (key_index code Hc) as [-> ->].
  assert (0 <= code mod 64 < 64) as Hi by (apply Z.mod_pos_bound; lia).
  rewrite BV_64_bit by done. rewrite <-nz_land_bit by lia.
  set (w := at_ _ _). destruct (nz (Z.land w (bit (code mod 64)))) eqn:E.
  - rewrite nz_land_bit in E by lia. apply Z.eqb_eq, Z.bits_inj'. intros i ?. bits. by subst.
  - apply nz_false in E. rewrite E. apply Z.eqb_neq. pose proof (bit_range 64 _ Hi).
    intros H0. assert (Z.testbit (bit (code mod 64)) (code mod 64) = true) as H1 by (bits; done).
    by rewrite <-H0, Z.bits_0 in H1.
Qed.

(** Storing a word whose bits differ from the old one only at [code]. *)
Lemma store_word code s (f : Z -> Z) b :
  key_lock_ok s -> 0 <= code <= 0xFF ->
  (forall w, 0 <= w < 2 ^ 64 -> 0 <= f w < 2 ^ 64) ->
  (forall w i, 0 <= i -> Z.testbit (f w) i = if i =? code mod 64 then b else Z.testbit w i) ->
  let s' := SET_KEY_ARRAY_STATE code (f (GET_KEY_ARRAY code s)) s in
  key_lock_ok s' /\ watching s' = watching s /\
  forall c, 0 <= c <= 0xFF -> KEY_STATE c s' = if c =? code then b else KEY_STATE c s.
Proof.
  intros [Hlen Hw] Hc Hf Hb. cbv zeta.
  assert (SET_KEY_ARRAY_STATE code (f (GET_KEY_ARRAY code s)) s
    = s <| key_state := put (key_state s) (code / 64) (f (at_ (key_state s) (code / 64))) |>) as ->.
  { unfold GET_KEY_ARRAY. destruct (key_index code Hc) as [-> _].
    unfold SET_KEY_ARRAY_STATE, within.
    repeat zcase; try lia; cbn [andb];
      match goal with |- context [put (key_state s) ?n] => replace (code / 64) with n by dlia end;
      done. }
  assert (0 <= code / 64 < 4) by dlia.
  split; [split|split; [done|]]; cbn.
  - unfold put. by rewrite length_insert.
  - apply Forall_insert; [done|]. apply Hf. unfold at_.
    destruct (lookup_lt_is_Some_2 (key_state s) (Z.to_nat (code / 64))) as [w Ew]; [lia|].
    rewrite Ew. by eapply (Forall_lookup_1 _ _ _ _ Hw).
  - intros c Hc'. rewrite !KEY_STATE_testbit by done. cbn.
    assert (0 <= c mod 64 < 64) by (apply Z.mod_pos_bound; lia).
    rewrite at_put by dlia. destruct (Z.eqb_spec (c / 64) (code / 64)) as [E|E].
    + rewrite Hb, E by lia. repeat zcase; try done; dlia.
    + zcase; [by subst|done].
Qed.

Lemma SET_KEY_STATE_spec code s : key_lock_ok s -> 0 <= code <= 0xFF ->
  let s' := SET_KEY_STATE code s in
  key_lock_ok s' /\ watching s' = watching s /\
  forall c, 0 <= c <= 0xFF -> KEY_STATE c s' = if c =? code then true else KEY_STATE c s.
Proof.
  intros Hs Hc. assert (0 <= code mod 64 < 64) as Hi by (apply Z.mod_pos_bound; lia).
  apply (store_word code s (fun w => Z.lor w (BV_64 (GET_CODE_INDEX code)))); [done..| |];
    destruct (key_index code Hc) as [_ ->]; rewrite BV_64_bit by done.
  - intros w ?. by apply lor_range, bit_range.
  - intros w i ?. bits; zcase; try done; lia.
Qed.

Lemma UNSET_KEY_STATE_spec code s : key_lock_ok s -> 0 <= code <= 0xFF ->
  let s' := UNSET_KEY_STATE code s in
  key_lock_ok s' /\ watching s' = watching s /\
  forall c, 0 <= c <= 0xFF -> KEY_STATE c s' = if c =? code then false else KEY_STATE c s.
Proof.
  intros Hs Hc. assert (0 <= code mod 64 < 64) as Hi by (apply Z.mod_pos_bound; lia).
  apply (store_word code s (fun w => clear_bits w (BV_64 (GET_CODE_INDEX code)))); [done..| |];
    destruct (key_index code Hc) as [_ ->]; rewrite BV_64_bit by done.
  - intros w ?. by apply clear_bits_range.
  - intros w i ?. bits; zcase; try done; lia.
Qed.
End bits_of_keys.

(** ** What key lock does to the keys the host sees

    The board below the feature (which keys are down), the host above it
    (which keys were last passed on as down), and the two in between: the
    host sees a key down exactly while it is held or locked. *)

Inductive lock_event := Down (c : Z) | Up (c : Z).

Definition lock_code (e : lock_event) : Z := match e with Down c | Up c => c end.
Definition is_down (e : lock_event) : bool := match e with Down _ => true | Up _ => false end.
Definition lock_record (e : lock_event) : keyrecord_t :=
  record_0 <| event := (event record_0) <| pressed := is_down e |> |>.

(** Pressing adds a key to a set, releasing takes it out. *)
Definition move (down : bool) (c : Z) (ks : gset Z) : gset Z :=
  if down then {[c]} ∪ ks else ks ∖ {[c]}.

Record board := { held : gset Z; host_down : gset Z; lock : key_lock }.
Definition board_init : board := {| held := ∅; host_down := ∅; lock := key_lock_init |}.

Definition board_step (b : board) (e : lock_event) : board :=
  let r := process_key_lock (lock_code e) (lock_record e) (lock b) in
  {| held := move (is_down e) (lock_code e) (held b);
     host_down := if r.1.1 then move (is_down e) r.1.2 (host_down b) else host_down b;
     lock := r.2 |}.
Definition board_run : list lock_event -> board := foldl board_step board_init.

(** The specification: whether the next key will be locked, and the locked
    keys. *)
Definition lock_machine (m : bool * gset Z) (e : lock_event) : bool * gset Z :=
  match e with
  | Up _ => m
  | Down c =>
      if c =? QK_LOCK then (negb m.1, m.2)
      else if c <=? 0xFF then (false, move m.1 c m.2)
      else (false, m.2)
  end.
Definition machine_run : list lock_event -> bool * gset Z := foldl lock_machine (false, ∅).

(** A keycode that is not a one-shot modifier. *)
Definition plain (e : lock_event) : Prop :=
  0 <= lock_code e /\ translate_keycode (lock_code e) = lock_code e.

(** ** One event *)

Section key_lock_proofs.
Implicit Types (s : key_lock) (b : board) (m : bool * gset Z) (e : lock_event).

Definition tracks s m : Prop :=
  key_lock_ok s /\ watching s = m.1 /\
  forall c, 0 <= c <= 0xFF -> KEY_STATE c s = bool_decide (c ∈ m.2).

(** The keys that a sane host shows. *)
Definition shown (locked : gset Z) (ks : gset Z) (c : Z) : Prop :=
  if c =? QK_LOCK then False else if c <=? 0xFF then c ∈ ks \/ c ∈ locked else c ∈ ks.

Definition board_ok b m : Prop :=
  tracks (lock b) m /\ forall c, 0 <= c -> c ∈ host_down b <-> shown m.2 (held b) c.

Lemma tracks_watching s m w : tracks s m -> tracks (s <| watching := w |>) (w, m.2).
Proof. by intros (Hok & _ & Hk). Qed.

Lemma tracks_store s s' (w down : bool) m c :
  tracks s m -> 0 <= c <= 0xFF ->
  (key_lock_ok s' /\ watching s' = w /\
   forall d, 0 <= d <= 0xFF -> KEY_STATE d s' = if d =? c then down else KEY_STATE d s) ->
  tracks s' (w, move down c m.2).
Proof.
  intros (_ & _ & Hk) Hc (Hok & Hw & Hs). split_and!; [done..|].
  intros d Hd. rewrite Hs, Hk by done. unfold move. cbn.
  destruct (Z.eqb_spec d c), down; symmetry;
    [apply bool_decide_eq_true_2|apply bool_decide_eq_false_2|apply bool_decide_ext..]; set_solver.
Qed.

Lemma tracks_lock s m c : tracks s m -> 0 <= c <= 0xFF ->
  tracks (SET_KEY_STATE c (s <| watching := false |>)) (false, move true c m.2).
Proof.
  intros Hs Hc. apply (tracks_store (s <| watching := false |>) _ _ _ (false, m.2)); [by apply tracks_watching|done|].
  apply SET_KEY_STATE_spec; [apply Hs|done].
Qed.

Lemma tracks_unlock s m c : tracks s m -> 0 <= c <= 0xFF ->
  tracks (UNSET_KEY_STATE c s) (watching s, move false c m.2).
Proof.
  intros Hs Hc. eapply tracks_store; [done..|]. apply UNSET_KEY_STATE_spec; [apply Hs|done].
Qed.

Lemma run_process_key_lock e s :
  plain e ->
  process_key_lock (lock_code e) (lock_record e) s =
  match e with
  | Down c =>
      if c =? QK_LOCK then ((false, c), s <| watching := negb (watching s) |>)
      else if c <=? 0xFF then
        if watching s then ((true, c), SET_KEY_STATE c (s <| watching := false |>))
        else if KEY_STATE c s then ((false, c), UNSET_KEY_STATE c s) else ((true, c), s)
      else ((true, c), s <| watching := false |>)
  | Up c => ((negb ((c <=? 0xFF) && KEY_STATE c s), c), s)
  end.
Proof.
  intros [_ Ht]. unfold process_key_lock, IS_STANDARD_KEYCODE. rewrite Ht. destruct e as [c|c]; [|done].
  cbn [lock_code is_down lock_record]. cbn.
  destruct (Z.eqb_spec c QK_LOCK) as [->|]; [done|]. destruct (c <=? 0xFF); [|done]. cbn.
  rewrite run_gets. destruct (watching s); [done|]. rewrite run_gets. by destruct (KEY_STATE c s).
Qed.

(** What the feature passes on. *)
Lemma process_key_lock_spec e s m :
  plain e -> tracks s m ->
  let r := process_key_lock (lock_code e) (lock_record e) s in
  let c := lock_code e in
  tracks r.2 (lock_machine m e) /\ r.1.2 = c /\
  r.1.1 = if is_down e
          then negb (c =? QK_LOCK) && (negb (c <=? 0xFF) || m.1 || negb (bool_decide (c ∈ m.2)))
          else negb ((c <=? 0xFF) && bool_decide (c ∈ m.2)).
Proof.
  intros He Hs. rewrite run_process_key_lock by done. destruct He as [Hc _]. cbv zeta.
  pose proof Hs as (_ & Hw & Hk). destruct m as [w L].
  destruct e as [c|c]; cbn [lock_code is_down lock_machine fst snd] in *.
  - destruct (Z.eqb_spec c QK_LOCK) as [->|Hl].
    { cbn. rewrite Hw. by split; [apply (tracks_watching _ (w, L))|]. }
    destruct (Z.leb_spec c 0xFF); cbn; [|by split; [apply (tracks_watching _ (w, L))|]].
    rewrite Hw. destruct w; cbn; [by split; [apply (tracks_lock _ (true, L))|]|].
    pose proof (tracks_unlock s (false, L) c Hs ltac:(lia)) as T. rewrite Hw in T.
    rewrite Hk by lia. case_bool_decide; [by split|]. split; [|done]. cbn in *.
    by replace (L ∖ {[c]}) with L by set_solver.
  - split; [done|]. destruct (Z.leb_spec c 0xFF); cbn; [|done]. by rewrite Hk by lia.
Qed.

Lemma board_step_ok b m e : plain e -> board_ok b m -> board_ok (board_step b e) (lock_machine m e).
Proof.
  intros He [Hl Hh]. destruct (process_key_lock_spec e _ _ He Hl) as (Hl' & E1 & E2).
  split; [done|]. intros d Hd. cbn [host_down held board_step]. rewrite E1, E2.
  specialize (Hh d Hd). destruct He as [Hc _]. destruct m as [w L].
  unfold shown in *. destruct e as [c|c]; cbn [is_down lock_code lock_machine move fst snd] in *.
  - destruct (Z.eqb_spec c QK_LOCK) as [->|]; cbn.
    { destruct (Z.eqb_spec d QK_LOCK); [done|]. destruct (d <=? 0xFF); set_solver. }
    destruct (Z.leb_spec c 0xFF), w; cbn; repeat case_bool_decide; cbn;
      destruct (decide (d = c)), (Z.eqb_spec d QK_LOCK), (Z.leb_spec d 0xFF); subst; try done; try lia;
      rewrite ?elem_of_union, ?elem_of_difference, ?elem_of_singleton in *; intuition (auto; lia).
  - destruct (Z.leb_spec c 0xFF); cbn; repeat case_bool_decide; cbn;
      destruct (decide (d = c)), (Z.eqb_spec d QK_LOCK), (Z.leb_spec d 0xFF); subst; try done; try lia;
      rewrite ?elem_of_union, ?elem_of_difference, ?elem_of_singleton in *; intuition (auto; lia).
Qed.

Lemma board_run_ok es : forall b m,
  Forall plain es -> board_ok b m -> board_ok (foldl board_step b es) (foldl lock_machine m es).
Proof.
  induction es as [|e es IH]; intros b m Hes Hb; [done|].
  apply Forall_cons in Hes as [? ?]. apply IH; [done|]. by apply board_step_ok.
Qed.

Lemma board_init_ok : board_ok board_init (false, ∅).
Proof.
  split.
  - split_and!; [apply key_lock_init_ok|done|]. intros c Hc. cbn.
    rewrite KEY_STATE_testbit, bool_decide_false by (set_solver || done). cbn.
    assert (c / 64 = 0 \/ c / 64 = 1 \/ c / 64 = 2 \/ c / 64 = 3) as [-> | [-> | [-> | ->]]] by dlia;
      apply Z.bits_0.
  - intros c Hc. cbn. unfold shown. destruct (c =? QK_LOCK), (c <=? 0xFF); set_solver.
Qed.

(** ** Theorems *)

(** C21: After any sequence of presses and releases of keys other than one-shot
    modifiers ([plain]) the bit array holds the keys of this machine: QK_LOCK
    arms or disarms, the next standard key is then locked, its next press
    unlocks it; and the host sees a standard key down exactly while it is held
    or locked. *)
Theorem key_lock_refines es :
  Forall plain es ->
  let b := board_run es in
  let m := machine_run es in
  watching (lock b) = m.1 /\
  forall c, 0 <= c <= 0xFF ->
    KEY_STATE c (lock b) = bool_decide (c ∈ m.2) /\
    (c ∈ host_down b <-> c ∈ held b \/ c ∈ m.2).
Proof.
  intros Hes. destruct (board_run_ok es _ _ Hes board_init_ok) as [(_ & Hw & Hk) Hh].
  split; [done|]. intros c Hc. split; [by apply Hk|].
  specialize (Hh c ltac:(lia)). unfold shown in Hh.
  destruct (Z.eqb_spec c QK_LOCK); [unfold QK_LOCK in *; lia|].
  by destruct (Z.leb_spec c 0xFF); [|lia].
Qed.

(** The translation of a one-shot modifier keeps its modifier bits and
    takes them for a keycode: locking it locks the key with that code, whose
    next press never reaches the host. *)
Theorem locked_oneshot_swallows_key md :
  1 <= md <= 0x1F ->
  let b := board_run [Down QK_LOCK; Up QK_LOCK; Down (OSM md); Up (OSM md)] in
  KEY_STATE md (lock b) = true /\
  host_down (board_step b (Down md)) = host_down b.
Proof.
  intros Hm.
  assert (all_below 0x20 (fun i => (i =? 0) ||
    let b := board_run [Down QK_LOCK; Up QK_LOCK; Down (OSM i); Up (OSM i)] in
    KEY_STATE i (lock b) && bool_decide (host_down (board_step b (Down i)) = host_down b)) = true)
    as H by (vm_compute; reflexivity).
  pose proof (all_below_spec _ _ md H ltac:(lia)) as Hb. cbv beta zeta in Hb.
  apply orb_prop in Hb as [Hb|Hb]; [apply Z.eqb_eq in Hb; lia|].
  apply andb_prop in Hb as [? ?%bool_decide_eq_true]. split; assumption.
Qed.

(** [cancel_key_lock] disarms, but of the locked keys it lets go of code 0
    only. *)
Lemma cancel_key_lock_keeps_keys s c : key_lock_ok s -> 1 <= c <= 0xFF ->
  watching (exec cancel_key_lock s) = false /\ KEY_STATE c (exec cancel_key_lock s) = KEY_STATE c s.
Proof.
  intros Hs Hc. destruct (UNSET_KEY_STATE_spec 0 (s <| watching := false |>)) as (_ & Hw & Hk); [done|lia|].
  split; [apply Hw|]. rewrite (Hk c ltac:(lia) : KEY_STATE c (exec cancel_key_lock s) = _).
  by destruct (Z.eqb_spec c 0); [lia|].
Qed.
End key_lock_proofs.

Lemma key_lock_refines_witness :
  let es := [Down KC_A; Up KC_A; Down QK_LOCK; Up QK_LOCK; Down KC_A; Up KC_A] in
  let b := board_run es in
  let m := machine_run es in
  watching (lock b) = m.1 /\
  KEY_STATE KC_A (lock b) = bool_decide (KC_A ∈ m.2) /\
  (KC_A ∈ host_down b <-> KC_A ∈ held b \/ KC_A ∈ m.2) /\
  KC_A ∈ m.2.
Proof.
  assert (Forall plain [Down KC_A; Up KC_A; Down QK_LOCK; Up QK_LOCK; Down KC_A; Up KC_A]) as H
    by (repeat (apply Forall_cons_2; [split; [discriminate|reflexivity]|]); apply Forall_nil_2).
  destruct (key_lock_refines _ H) as [Hw Hk].
  destruct (Hk KC_A) as [E1 E2]; [split; discriminate|].
  split_and!; [exact Hw|exact E1|exact E2|]. apply (bool_decide_unpack _). vm_compute. exact I.
Defined.

Lemma locked_oneshot_swallows_key_witness :
  let b := board_run [Down QK_LOCK; Up QK_LOCK; Down (OSM 4); Up (OSM 4)] in
  1 <= 4 <= 0x1F /\ KEY_STATE 4 (lock b) = true /\
  host_down (board_step b (Down KC_A)) = host_down b.
Proof. split; [lia|]. apply (locked_oneshot_swallows_key 4). lia. Defined.
