(* ===== verification/LayerLock.v ===== *)
(** * Layer lock (quantum/layer_lock.c, process_keycode/process_layer_lock.c)

    [QK_LAYER_LOCK] keeps the topmost layer on after its key is released, and
    switches it off again.  The callbacks of the keyboard and of the keymap
    are parameters; [now] is what the 32-bit timer reads. *)

From S2P Require Import Prelude.
From S2P Require Import Bitwise.
From S2P Require Import Keycodes.
From S2P Require Import Report.
From S2P Require Import State.
From S2P Require Import Host.
From S2P Require Import ActionUtil.
From S2P Require Import ActionLayer.
From S2P Require Import Oneshot.
From S2P Require Import Closure.
From S2P Require Import LayerSpec.
From S2P Require Import OneshotSpec.
From S2P Require Import Feature.

Record layer_lock := { locked_layers : Z; layer_lock_timer : Z }.
Definition layer_lock_init : layer_lock := {| locked_layers := 0; layer_lock_timer := 0 |}.

Class LayerLockConfig := {
  LAYER_LOCK_IDLE_TIMEOUT : Z;   (* 0: not defined *)
  layer_lock_set_kb : Z -> stm keyboard bool;
  layer_lock_set_user : Z -> stm keyboard bool;
}.

Section layer_lock.
Context `{!Config} `{!Hooks} `{!LayerLockConfig}.
Abbreviation L := (stm (layer_lock * keyboard)).

Definition layer_locked (layer : Z) (s : layer_lock) : bool :=
  nz (Z.land (locked_layers s) (layer_bit layer)).
Definition is_layer_locked (layer : Z) : L bool := own (gets (layer_locked layer)).

Definition put_locked (f : Z -> Z) : L unit :=
  own (modify (fun s => s <| locked_layers := f (locked_layers s) |>)).
Definition touch_timer (now : Z) : L unit :=
  when (0 <? LAYER_LOCK_IDLE_TIMEOUT) (own (modify (fun s => s <| layer_lock_timer := now |>))).

(** [layer_lock_set_user(locked_layers)], its result ignored. *)
Definition tell_user : L unit :=
  locked ← own (gets locked_layers); core (layer_lock_set_user locked);; mret tt.

Definition layer_lock_invert (now layer : Z) : L unit :=
  locked ← is_layer_locked layer;
  (if (locked : bool) then core (layer_off layer) else
     o ← core get_oneshot_layer;
     when (layer =? o) (core reset_oneshot_layer);;
     core (layer_on layer);;
     touch_timer now);;
  put_locked (fun m => Z.lxor m (layer_bit layer));;
  tell_user.

Definition layer_lock_on (now layer : Z) : L unit :=
  locked ← is_layer_locked layer; when (negb locked) (layer_lock_invert now layer).
Definition layer_lock_off (now layer : Z) : L unit :=
  locked ← is_layer_locked layer; when locked (layer_lock_invert now layer).

Definition layer_lock_all_off : L unit :=
  locked ← own (gets locked_layers);
  core (layer_and (layer_word (Z.lnot locked)));;
  put_locked (fun _ => 0);;
  tell_user.

Definition layer_lock_task (now : Z) : L unit :=
  s ← own (gets (fun s => s));
  when ((0 <? LAYER_LOCK_IDLE_TIMEOUT) && nz (locked_layers s)
        && (LAYER_LOCK_IDLE_TIMEOUT <? u32 (now - layer_lock_timer s))) (
    layer_lock_all_off;;
    touch_timer now).

(** ** process_layer_lock.c *)

Definition handle_mo_or_tt (now layer : Z) (r : keyrecord_t) : L bool :=
  locked ← is_layer_locked layer;
  if (locked : bool) then
    when (pressed (event r)) (layer_lock_invert now layer);; mret false
  else mret true.

(** Layers that something else switched off are unlocked. *)
Definition drop_stale_locks : L unit :=
  locked ← own (gets locked_layers);
  l ← core get_layer_state;
  when (nz (clear_bits locked l)) (
    put_locked (fun m => Z.land m l);;
    locked ← own (gets locked_layers);
    core (layer_lock_set_kb locked);; mret tt).

Definition process_layer_lock (now keycode : Z) (r : keyrecord_t) : L bool :=
  touch_timer now;;
  drop_stale_locks;;
  if keycode =? QK_LAYER_LOCK then
    when (pressed (event r)) (
      l ← core get_layer_state;
      layer_lock_invert now (get_highest_layer l));;
    mret false
  else if within QK_MOMENTARY QK_MOMENTARY_MAX keycode then
    handle_mo_or_tt now (QK_MOMENTARY_GET_LAYER keycode) r
  else if within QK_LAYER_TAP_TOGGLE QK_LAYER_TAP_TOGGLE_MAX keycode then
    handle_mo_or_tt now (QK_LAYER_TAP_TOGGLE_GET_LAYER keycode) r
  else if within QK_LAYER_MOD QK_LAYER_MOD_MAX keycode then
    let layer := QK_LAYER_MOD_GET_LAYER keycode in
    locked ← is_layer_locked layer;
    if (locked : bool) then
      (if pressed (event r) then layer_lock_invert now layer
       else core (clear_mods;; send_keyboard_report));;
      mret false
    else mret true
  else if within QK_LAYER_TAP QK_LAYER_TAP_MAX keycode then
    locked ← is_layer_locked (QK_LAYER_TAP_GET_LAYER keycode);
    mret (negb ((count (tap r) =? 0) && negb (pressed (event r)) && locked))
  else mret true.
End layer_lock.

(** ** What layer lock does to the layers

    Which layers are locked and on after an event, and whether the layer key
    is handled by the core: the release of the key of a locked layer is not,
    so that the layer stays on. *)

(** The callbacks accept the layers and leave them alone. *)
Class LayerLockOk `{!Config} `{!Hooks} `{!LayerLockConfig} : Prop := {
  accepts_layers s : layer_state_set_kb s = s;
  user_keeps_layers z k : layers (exec (layer_lock_set_user z) k) = layers k;
  kb_keeps_layers z k : layers (exec (layer_lock_set_kb z) k) = layers k;
}.

Section spec.
Context `{!Config} `{!Hooks} `{!LayerLockConfig}.
Implicit Types (s : layer_lock * keyboard) (l i : Z).

Definition mask s : Z := layer_state (layers s.2).
Definition lock_ok s : Prop :=
  is_word LAYER_STATE_BITS (locked_layers s.1) /\ is_word LAYER_STATE_BITS (mask s).

(** A lock on a layer that is off is void. *)
Definition live s i : bool := Z.testbit (locked_layers s.1) i && Z.testbit (mask s) i.

(** The layer that a momentary key switches. *)
Definition layer_of_key (keycode : Z) : option Z :=
  if within QK_MOMENTARY QK_MOMENTARY_MAX keycode then Some (QK_MOMENTARY_GET_LAYER keycode)
  else if within QK_LAYER_TAP_TOGGLE QK_LAYER_TAP_TOGGLE_MAX keycode
  then Some (QK_LAYER_TAP_TOGGLE_GET_LAYER keycode)
  else if within QK_LAYER_MOD QK_LAYER_MOD_MAX keycode then Some (QK_LAYER_MOD_GET_LAYER keycode)
  else None.

(** The layer whose lock an event turns. *)
Definition turned (keycode : Z) (r : keyrecord_t) s : option Z :=
  if negb (pressed (event r)) then None
  else if keycode =? QK_LAYER_LOCK then Some (get_highest_layer (mask s))
  else l ← layer_of_key keycode; if live s l then Some l else None.

Definition handled (keycode : Z) (r : keyrecord_t) s : bool :=
  if keycode =? QK_LAYER_LOCK then true
  else match layer_of_key keycode with
  | Some l => live s l
  | None => within QK_LAYER_TAP QK_LAYER_TAP_MAX keycode && (count (tap r) =? 0) &&
            negb (pressed (event r)) && live s (QK_LAYER_TAP_GET_LAYER keycode)
  end.

Definition chosen (l : option Z) (i : Z) : bool := bool_decide (l = Some i).

(** [s'] is [s] with the lock of [l] turned: a locked layer is unlocked and
    off, another one is locked and on. *)
Definition turns (l : option Z) s s' : Prop :=
  lock_ok s' /\
  (forall i, 0 <= i -> Z.testbit (locked_layers s'.1) i = xorb (live s i) (chosen l i)) /\
  (forall i, 0 <= i -> Z.testbit (mask s') i = if chosen l i then negb (live s i) else Z.testbit (mask s) i).

Context `{!ConfigOk} `{!LayerLockOk}.

(** ** The calls of the core *)

Lemma reset_oneshot_layer_mask k : layer_state (layers (exec reset_oneshot_layer k)) = layer_state (layers k).
Proof.
  unfold reset_oneshot_layer. rewrite !exec_bind.
  destruct (set_oneshot_layer_time_layers (fun _ => 0) (exec (put_oneshot_data 0) k)) as [t Ht].
  rewrite layers_emit. change (layers (exec (gets ?f) ?k)) with (layers k).
  unfold get_oneshot_layer. change (layer_state (layers (exec (gets ?f) ?k))) with (layer_state (layers k)).
  by rewrite Ht.
Qed.

Lemma layer_on_mask l k : 0 <= l < LAYER_STATE_BITS -> is_word LAYER_STATE_BITS (layer_state (layers k)) ->
  layer_state (layers (exec (layer_on l) k)) = Z.lor (layer_state (layers k)) (bit l).
Proof.
  intros Hl Hk. pose proof bits_pos. unfold layer_on. rewrite layer_bit_small by done.
  rewrite (layer_state_after (fun m => Z.lor m (bit l))); [done|apply accepts_layers|].
  by apply lor_range, bit_range.
Qed.

Lemma layer_off_mask l k : 0 <= l < LAYER_STATE_BITS -> is_word LAYER_STATE_BITS (layer_state (layers k)) ->
  layer_state (layers (exec (layer_off l) k)) = clear_bits (layer_state (layers k)) (bit l).
Proof.
  intros Hl Hk. pose proof bits_pos. unfold layer_off. rewrite layer_bit_small by done.
  rewrite (layer_state_after (fun m => clear_bits m (bit l))); [done|apply accepts_layers|].
  by apply clear_bits_range.
Qed.

Lemma send_keyboard_report_layers k : layers (exec (clear_mods;; send_keyboard_report) k) = layers k.
Proof.
  assert (preserves (fun k' => layers k' = layers k) (clear_mods;; send_keyboard_report)) as Hk; [|by apply Hk].
  unfold clear_mods, set_mods, send_keyboard_report, send_nkro_report, send_6kro_report, get_mods_for_report,
    clear_oneshot_mods, put_oneshot_mods, set_oneshot_time, emit, host_keyboard_send,
    host_nkro_send, put_keyboard_report, put_nkro_report, emit, upd_mods, upd_rep, upd_host.
  preserve; done.
Qed.

Lemma highest_layer_range m : is_word LAYER_STATE_BITS m -> 0 <= get_highest_layer m < LAYER_STATE_BITS.
Proof.
  intros Hm. unfold get_highest_layer. destruct biton_log2 as (H8 & H16 & H32).
  assert (forall w, 0 < w -> 0 <= m < 2 ^ w -> 0 <= Z.log2 m < w) as Hlog.
  { intros w Hw [? ?]. split; [apply Z.log2_nonneg|]. destruct (decide (m = 0)) as [->|]; [cbn; lia|].
    apply Z.log2_lt_pow2; lia. }
  unfold is_word in Hm.
  destruct layer_state_bits as [[E _]|[[E _]|[E _]]]; rewrite E in *; cbn [Z.eqb Pos.eqb];
    rewrite ?H8, ?H16, ?H32 by done; apply Hlog; lia || done.
Qed.

(** ** The locks *)

Lemma layer_locked_testbit l (s : layer_lock) : 0 <= l -> is_word LAYER_STATE_BITS (locked_layers s) ->
  layer_locked l s = Z.testbit (locked_layers s) l.
Proof.
  intros Hl Hs. pose proof bits_pos. unfold layer_locked. destruct (decide (l < LAYER_STATE_BITS)).
  - by apply nz_land_layer_bit.
  - rewrite (testbit_out_of_range LAYER_STATE_BITS) by (done || lia).
    unfold layer_bit, layer_word, wrap, bit. rewrite Z.shiftl_1_l.
    replace (2 ^ l) with (2 ^ (l - LAYER_STATE_BITS) * 2 ^ LAYER_STATE_BITS)
      by (rewrite <-Z.pow_add_r by lia; f_equal; lia).
    rewrite Z.mod_mul by (pose proof (Z.pow_pos_nonneg 2 LAYER_STATE_BITS); lia). by rewrite Z.land_0_r.
Qed.

(** Statements that change neither the locks nor the mask. *)
Definition same s s' : Prop := locked_layers s'.1 = locked_layers s.1 /\ mask s' = mask s.

Lemma touch_timer_same now s : same s (exec (touch_timer now) s).
Proof. unfold touch_timer. by destruct (0 <? LAYER_LOCK_IDLE_TIMEOUT). Qed.

Lemma tell_user_same s : same s (exec tell_user s).
Proof.
  split; [done|].
  change (layer_state (layers (exec (layer_lock_set_user (locked_layers s.1)) s.2)) = mask s).
  by rewrite user_keeps_layers.
Qed.

Lemma tell_kb_same s :
  same s (exec (locked ← own (gets locked_layers); core (layer_lock_set_kb locked);; mret tt) s).
Proof.
  split; [done|].
  change (layer_state (layers (exec (layer_lock_set_kb (locked_layers s.1)) s.2)) = mask s).
  by rewrite kb_keeps_layers.
Qed.

(** No lock is void. *)
Definition no_stale s : Prop := forall i, 0 <= i -> Z.testbit (locked_layers s.1) i = live s i.

Lemma layer_lock_invert_turns now l s :
  lock_ok s -> no_stale s -> 0 <= l < LAYER_STATE_BITS ->
  turns (Some l) s (exec (layer_lock_invert now l) s).
Proof.
  intros [HL HM] Hn Hl. pose proof bits_pos.
  set (s1 := exec (if layer_locked l s.1 then core (layer_off l) else
    (o ← core get_oneshot_layer; when (l =? o) (core reset_oneshot_layer);; core (layer_on l);; touch_timer now)) s).
  assert (locked_layers s1.1 = locked_layers s.1 /\
    mask s1 = if Z.testbit (locked_layers s.1) l then clear_bits (mask s) (bit l) else Z.lor (mask s) (bit l)) as [E1 E2].
  { subst s1. rewrite layer_locked_testbit by (done || lia). destruct (Z.testbit (locked_layers s.1) l).
    - split; [done|]. by apply layer_off_mask.
    - rewrite !exec_bind.
      set (sr := exec (when (l =? eval (core get_oneshot_layer) s) (core reset_oneshot_layer)) (exec (core get_oneshot_layer) s)).
      assert (same s sr) as [Er Fr].
      { subst sr. unfold when. destruct (l =? _); [|done]. split; [done|]. apply reset_oneshot_layer_mask. }
      destruct (touch_timer_same now (exec (core (layer_on l)) sr)) as [-> ->].
      split; [exact Er|]. rewrite <-Fr. apply layer_on_mask; [done|]. unfold mask in Fr, HM. by rewrite Fr. }
  assert (exec (layer_lock_invert now l) s = exec tell_user (exec (put_locked (fun m => Z.lxor m (layer_bit l))) s1)) as ->.
  { unfold layer_lock_invert, is_layer_locked. rewrite exec_bind. cbn [eval own gets fst snd exec].
    rewrite exec_bind. subst s1. by destruct (layer_locked l s.1). }
  clearbody s1. rewrite layer_bit_small by done.
  assert (is_word LAYER_STATE_BITS (bit l)) as Hb by by apply bit_range.
  split; [|split].
  - destruct (tell_user_same (exec (put_locked (fun m => Z.lxor m (bit l))) s1)) as [F1 F2].
    unfold lock_ok. rewrite F1, F2. cbn. unfold mask in *. cbn. rewrite E1, E2. split; [by apply lxor_range|].
    destruct (Z.testbit _ _); [by apply clear_bits_range|by apply lor_range].
  - intros i Hi. rewrite (proj1 (tell_user_same _)). cbn. rewrite E1, Z.lxor_spec, Hn by done.
    f_equal. rewrite testbit_bit by lia. unfold chosen. apply bool_decide_ext. naive_solver.
  - intros i Hi. rewrite (proj2 (tell_user_same _)). unfold mask at 1. cbn. fold (mask s1). rewrite E2, Hn by lia.
    unfold chosen. case_bool_decide as Hil.
    + injection Hil as ->. destruct (live s i); bits; done.
    + assert (i <> l) by congruence. destruct (live s l); bits; done.
Qed.

Lemma drop_stale_locks_spec s : lock_ok s ->
  let s' := exec drop_stale_locks s in
  lock_ok s' /\ mask s' = mask s /\ forall i, 0 <= i -> Z.testbit (locked_layers s'.1) i = live s i.
Proof.
  intros [HL HM]. pose proof bits_pos. cbv zeta. unfold drop_stale_locks. rewrite !exec_bind.
  cbn [eval own gets core fst snd exec get_layer_state]. fold (mask s). unfold when.
  destruct (nz (clear_bits (locked_layers s.1) (mask s))) eqn:E.
  - rewrite exec_bind. set (s1 := exec (put_locked _) _).
    assert (locked_layers s1.1 = Z.land (locked_layers s.1) (mask s)) as E1 by done.
    assert (mask s1 = mask s) as E2 by done. clearbody s1.
    destruct (tell_kb_same s1) as [F1 F2]. unfold lock_ok. rewrite F1, F2, E1, E2.
    split; [split; [by apply land_range|done]|split; [done|]].
    intros i Hi. by rewrite Z.land_spec.
  - split; [done|split; [done|]]. intros i Hi. apply nz_false in E. unfold live. cbn.
    assert (Z.testbit (clear_bits (locked_layers s.1) (mask s)) i = false) as Hi0 by by rewrite E, Z.bits_0.
    rewrite testbit_clear in Hi0 by done. destruct (Z.testbit (locked_layers s.1) i), (Z.testbit (mask s) i); done.
Qed.

(** After the void locks are dropped, the rest works on the live ones. *)
Definition settled s s2 : Prop :=
  lock_ok s2 /\ mask s2 = mask s /\ forall i, 0 <= i -> Z.testbit (locked_layers s2.1) i = live s i.

Lemma settled_live s s2 i : settled s s2 -> 0 <= i -> live s2 i = live s i.
Proof. intros (_ & Hm & Hl) Hi. unfold live. rewrite Hl, Hm by done. unfold live. by destruct (Z.testbit _ _), (Z.testbit _ _). Qed.

Lemma settled_locked s s2 l : settled s s2 -> 0 <= l -> layer_locked l s2.1 = live s l.
Proof. intros ([Hw _] & _ & Hl) Hi. by rewrite layer_locked_testbit, Hl. Qed.

Lemma settled_turns_none s s2 s' : settled s s2 -> same s2 s' -> turns None s s'.
Proof.
  intros (Hok & Hm & Hl) [E1 E2]. split; [|split].
  - unfold lock_ok. by rewrite E1, E2.
  - intros i Hi. rewrite E1, Hl by done. by rewrite xorb_false_r.
  - intros i Hi. by rewrite E2, Hm.
Qed.

Lemma settled_invert now l s s2 : settled s s2 -> 0 <= l < LAYER_STATE_BITS ->
  turns (Some l) s (exec (layer_lock_invert now l) s2).
Proof.
  intros Hs Hl. destruct (layer_lock_invert_turns now l s2) as (Hok & Ht1 & Ht2); [apply Hs| |done|].
  { intros i Hi. rewrite (settled_live s) by done. by apply Hs. }
  split; [done|]. split; intros i Hi.
  - by rewrite Ht1, (settled_live s) by done.
  - by rewrite Ht2, (settled_live s), (proj1 (proj2 Hs)) by done.
Qed.

Lemma live_range s l : lock_ok s -> 0 <= l -> live s l = true -> 0 <= l < LAYER_STATE_BITS.
Proof.
  intros [Hw _] Hl Hlive. pose proof bits_pos. destruct (decide (l < LAYER_STATE_BITS)); [done|].
  unfold live in Hlive. by rewrite (testbit_out_of_range LAYER_STATE_BITS) in Hlive by (done || lia).
Qed.

Lemma handle_mo_or_tt_spec now l r s s2 : lock_ok s -> settled s s2 -> 0 <= l ->
  eval (handle_mo_or_tt now l r) s2 = negb (live s l) /\
  turns (if negb (pressed (event r)) then None else if live s l then Some l else None) s
    (exec (handle_mo_or_tt now l r) s2).
Proof.
  intros Hok Hs Hl. unfold handle_mo_or_tt. rewrite eval_bind, exec_bind.
  unfold is_layer_locked. cbn [eval own gets fst snd exec].
  change (s2.1, s2.2) with (s2.1, s2.2). rewrite (settled_locked s) by done.
  destruct (live s l) eqn:Elive.
  - split; [done|]. rewrite exec_bind. unfold when. destruct (pressed (event r)); cbn [negb].
    + apply (settled_invert now l s s2); [done|]. by apply (live_range s).
    + exact (settled_turns_none s s2 _ Hs (conj eq_refl eq_refl)).
  - split; [done|]. destruct (negb _); exact (settled_turns_none s s2 _ Hs (conj eq_refl eq_refl)).
Qed.

Lemma layer_of_key_nonneg keycode l : layer_of_key keycode = Some l -> 0 <= l.
Proof.
  unfold layer_of_key. repeat (case_match; try done); intros [= <-]; apply Z.land_nonneg; lia.
Qed.

(** After an event the lock of exactly the layer the key stands for is
    turned: the lock key locks and unlocks the topmost layer, the press of the
    key of a locked layer unlocks it; a locked layer is on and an unlocked one
    off, no other layer changes, and the core does not see the release of the
    key of a locked layer. *)
Theorem process_layer_lock_spec now keycode r s :
  lock_ok s ->
  eval (process_layer_lock now keycode r) s = negb (handled keycode r s) /\
  turns (turned keycode r s) s (exec (process_layer_lock now keycode r) s).
Proof using All.
  intros Hok.
  set (s2 := exec drop_stale_locks (exec (touch_timer now) s)).
  assert (settled s s2) as Hs.
  { destruct (touch_timer_same now s) as [E1 E2].
    destruct (drop_stale_locks_spec (exec (touch_timer now) s)) as (Hd1 & Hd2 & Hd3).
    { unfold lock_ok. by rewrite E1, E2. }
    split; [exact Hd1|]. split; [exact (eq_trans Hd2 E2)|]. intros i Hi.
    rewrite (Hd3 i Hi : Z.testbit (locked_layers s2.1) i = _). unfold live. by rewrite E1, E2. }
  unfold process_layer_lock. rewrite !eval_bind, !exec_bind. fold s2. clearbody s2. destruct s2 as [a k2]. set (s2 := (a, k2)) in *.
  unfold turned, handled. destruct (Z.eqb_spec keycode QK_LAYER_LOCK) as [->|Hk].
  { split; [done|]. rewrite exec_bind. unfold when. destruct (pressed (event r)); cbn [negb].
    - rewrite exec_bind. change (exec (core get_layer_state) s2) with s2.
      change (eval (core get_layer_state) s2) with (mask s2). rewrite <-(proj1 (proj2 Hs)).
      apply (settled_invert now _ s s2); [done|]. apply highest_layer_range, Hs.
    - exact (settled_turns_none s s2 _ Hs (conj eq_refl eq_refl)). }
  pose proof (layer_of_key_nonneg keycode) as Hnn. unfold layer_of_key in *.
  destruct (within QK_MOMENTARY QK_MOMENTARY_MAX keycode); [by apply handle_mo_or_tt_spec; auto|].
  destruct (within QK_LAYER_TAP_TOGGLE QK_LAYER_TAP_TOGGLE_MAX keycode); [by apply handle_mo_or_tt_spec; auto|].
  destruct (within QK_LAYER_MOD QK_LAYER_MOD_MAX keycode).
  - specialize (Hnn _ eq_refl). rewrite eval_bind, exec_bind. unfold is_layer_locked.
    cbn [eval own gets fst snd exec mbind option_bind]. rewrite (settled_locked s) by done.
    destruct (live s _) eqn:Elive.
    + split; [done|]. rewrite exec_bind. destruct (pressed (event r)); cbn [negb].
      * apply (settled_invert now _ s s2); [done|]. by apply (live_range s).
      * apply (settled_turns_none s s2); [done|]. split; [done|].
        change (layer_state (layers (exec (clear_mods;; send_keyboard_report) s2.2)) = mask s2).
        by rewrite send_keyboard_report_layers.
    + split; [done|]. destruct (negb _); exact (settled_turns_none s s2 _ Hs (conj eq_refl eq_refl)).
  - destruct (within QK_LAYER_TAP QK_LAYER_TAP_MAX keycode) eqn:Elt; rewrite ?eval_bind, ?exec_bind.
    + unfold is_layer_locked. cbn [eval own gets fst snd exec].
      assert (0 <= QK_LAYER_TAP_GET_LAYER keycode) by (apply Z.land_nonneg; lia).
      rewrite (settled_locked s) by done. split; [done|]. destruct (negb _); exact (settled_turns_none s s2 _ Hs (conj eq_refl eq_refl)).
    + split; [done|]. destruct (negb _); exact (settled_turns_none s s2 _ Hs (conj eq_refl eq_refl)).
Qed.
End spec.
