(* ===== verification/CapsWord.v ===== *)
(** * Caps Word (quantum/caps_word.c, process_keycode/process_caps_word.c)

    Shift for one word: letters are typed with a weak shift until a key that
    does not belong to a word.  Auto Shift and Space Cadet, which it clears
    when they are compiled in, are not. *)

From S2P Require Import Prelude.
From S2P Require Import Keycodes.
From S2P Require Import Report.
From S2P Require Import State.
From S2P Require Import ActionUtil.
From S2P Require Import Keymap.
From S2P Require Import Action.
From S2P Require Import ActionUtilSpec.
From S2P Require Import TypingSpec.
From S2P Require Import Feature.

(** The static variables; [tapped] and [timer] are those of the double tap. *)
Record caps_word := {
  caps_word_active : bool;
  idle_timer : Z;
  held_mods : Z;
  tapped : bool;
  timer : Z;
}.
Definition caps_word_init : caps_word :=
  {| caps_word_active := false; idle_timer := 0; held_mods := 0; tapped := false; timer := 0 |}.

Class CapsWordConfig := {
  CAPS_WORD_IDLE_TIMEOUT : Z;                       (* 0: none *)
  CAPS_WORD_INVERT_ON_SHIFT : bool;
  BOTH_SHIFTS_TURNS_ON_CAPS_WORD : bool;
  DOUBLE_TAP_SHIFT_TURNS_ON_CAPS_WORD : bool;
  IS_COMMAND : keyboard -> bool;                    (* COMMAND_ENABLE, and its keys are down *)
  caps_word_set_user : bool -> stm keyboard unit;
  caps_word_press_user : Z -> stm keyboard bool;
}.

(** The callback of keymaps that do not define their own. *)
Definition caps_word_press_user_default (keycode : Z) : stm keyboard bool :=
  if within KC_A KC_Z keycode || (keycode =? KC_MINUS) then
    add_weak_mods (MOD_BIT KC_LEFT_SHIFT);; mret true
  else mret (within KC_1 KC_0 keycode || (keycode =? KC_BACKSPACE) || (keycode =? KC_DELETE)
             || (keycode =? LSFT KC_MINUS)).

Section caps_word.
Context `{!Config} `{!Hooks} `{!CapsWordConfig}.
Abbreviation C := (stm (caps_word * keyboard)).

Definition is_caps_word_on : C bool := own (gets caps_word_active).
Definition put_caps_word (b : bool) : C unit := own (modify (fun s => s <| caps_word_active := b |>)).

Definition caps_word_reset_idle_timer : C unit :=
  t ← core (gets now);
  own (modify (fun s => s <| idle_timer := u16 (t + CAPS_WORD_IDLE_TIMEOUT) |>)).

Definition caps_word_on : C unit :=
  active ← is_caps_word_on;
  when (negb active) (
    core clear_mods;;
    core clear_oneshot_mods;;
    when (0 <? CAPS_WORD_IDLE_TIMEOUT) caps_word_reset_idle_timer;;
    put_caps_word true;;
    core (caps_word_set_user true)).

Definition caps_word_off : C unit :=
  active ← is_caps_word_on;
  when active (
    core (unregister_weak_mods MOD_MASK_SHIFT);;
    put_caps_word false;;
    core (caps_word_set_user false)).

Definition caps_word_toggle : C unit :=
  active ← is_caps_word_on; if (active : bool) then caps_word_off else caps_word_on.

Definition caps_word_task : C unit :=
  s ← own (gets (fun s => s));
  t ← core (gets now);
  when ((0 <? CAPS_WORD_IDLE_TIMEOUT) && caps_word_active s && timer_expired t (idle_timer s))
    caps_word_off.

(** ** process_caps_word.c *)

(** The shift key that a one-shot or held mod-tap shift stands for. *)
Definition shift_key (keycode : Z) (r : keyrecord_t) : Z :=
  if keycode =? OSM MOD_LSFT then KC_LEFT_SHIFT
  else if keycode =? OSM MOD_RSFT then KC_RIGHT_SHIFT
  else if within QK_MOD_TAP QK_MOD_TAP_MAX keycode && (count (tap r) =? 0) then
    if QK_MOD_TAP_GET_MODS keycode =? MOD_LSFT then KC_LEFT_SHIFT
    else if QK_MOD_TAP_GET_MODS keycode =? MOD_RSFT then KC_RIGHT_SHIFT
    else keycode
  else keycode.

Definition put_held (f : Z -> Z) : C unit :=
  own (modify (fun s => s <| held_mods := f (held_mods s) |>)).

Definition handle_shift (keycode : Z) (r : keyrecord_t) : C bool :=
  let keycode := shift_key keycode r in
  if (keycode =? KC_LEFT_SHIFT) || (keycode =? KC_RIGHT_SHIFT) then
    let mod_ := MOD_BIT keycode in
    active ← is_caps_word_on;
    held ← own (gets held_mods);
    if (active : bool) then
      put_held (fun h => if pressed (event r) then Z.lor h mod_ else clear_bits h mod_);;
      mret false
    else if nz (Z.land held mod_) then
      put_held (fun h => clear_bits h mod_);;
      core (del_mods mod_);;
      mret (pressed (event r))
    else mret true
  else mret true.

(** Both shifts, or left shift tapped twice, turn Caps Word on. *)
Definition turn_on_by_shifts (keycode : Z) (r : keyrecord_t) (mods : Z) : C unit :=
  command ← core (gets IS_COMMAND);
  when (BOTH_SHIFTS_TURNS_ON_CAPS_WORD && (mods =? MOD_MASK_SHIFT) && negb command) caps_word_on;;
  when (DOUBLE_TAP_SHIFT_TURNS_ON_CAPS_WORD && pressed (event r)) (
    if (keycode =? KC_LEFT_SHIFT) || (keycode =? OSM MOD_LSFT) then
      s ← own (gets (fun s => s));
      when (tapped s && negb (timer_expired (time (event r)) (timer s))) caps_word_on;;
      own (modify (fun s => s <| tapped := true |>
        <| timer := u16 (time (event r) + get_tapping_term keycode r) |>))
    else own (modify (fun s => s <| tapped := false |>))).

(** What a key pressed during Caps Word is: ignored, a stop, or a key whose
    keycode decides. *)
Inductive word_key := Ignored | Stops | Asks (keycode : Z).

Definition mod_tap_word_key (keycode : Z) (r : keyrecord_t) : word_key :=
  if count (tap r) =? 0 then
    let mods := QK_MOD_TAP_GET_MODS keycode in
    if negb CAPS_WORD_INVERT_ON_SHIFT && (mods =? MOD_LSFT) then Asks KC_LEFT_SHIFT
    else if negb CAPS_WORD_INVERT_ON_SHIFT && (mods =? MOD_RSFT) then Asks KC_RIGHT_SHIFT
    else if mods =? Z.lor MOD_RSFT MOD_RALT then Asks (RSFT KC_RIGHT_ALT)
    else if mods =? MOD_RALT then Ignored
    else Stops
  else Asks (QK_MOD_TAP_GET_TAP_KEYCODE keycode).

Definition classify (keycode : Z) (r : keyrecord_t) : word_key :=
  if within QK_MOMENTARY QK_MOMENTARY_MAX keycode
     || within QK_TO QK_TO_MAX keycode
     || within QK_TOGGLE_LAYER QK_TOGGLE_LAYER_MAX keycode
     || within QK_LAYER_TAP_TOGGLE QK_LAYER_TAP_TOGGLE_MAX keycode
     || within QK_ONE_SHOT_LAYER QK_ONE_SHOT_LAYER_MAX keycode
     || within QK_TRI_LAYER_LOWER QK_TRI_LAYER_UPPER keycode
     || (keycode =? KC_RIGHT_ALT) || (keycode =? OSM MOD_RALT) then Ignored
  else if within QK_MOD_TAP QK_MOD_TAP_MAX keycode then mod_tap_word_key keycode r
  else if within QK_LAYER_TAP QK_LAYER_TAP_MAX keycode then
    if count (tap r) =? 0 then Ignored else Asks (QK_LAYER_TAP_GET_TAP_KEYCODE keycode)
  else if SWAP_HANDS_ENABLE && within QK_SWAP_HANDS QK_SWAP_HANDS_MAX keycode then
    if IS_SWAP_HANDS_KEYCODE keycode || (count (tap r) =? 0) then Ignored
    else Asks (QK_SWAP_HANDS_GET_TAP_KEYCODE keycode)
  else Asks keycode.

(** [caps_word_off], and the shifts that are still held take effect. *)
Definition stop_word : C unit :=
  caps_word_off;;
  held ← own (gets held_mods);
  when CAPS_WORD_INVERT_ON_SHIFT (core (add_mods held)).

Definition press_in_word (keycode : Z) : C unit :=
  core clear_weak_mods;;
  goes_on ← core (caps_word_press_user keycode);
  if (goes_on : bool) then
    held ← own (gets held_mods);
    when (CAPS_WORD_INVERT_ON_SHIFT && nz held)
      (w ← core get_weak_mods; core (set_weak_mods (Z.lxor w (MOD_BIT KC_LEFT_SHIFT))));;
    core send_keyboard_report
  else stop_word.

Definition process_caps_word (keycode : Z) (r : keyrecord_t) : C bool :=
  if keycode =? QK_CAPS_WORD_TOGGLE then when (pressed (event r)) caps_word_toggle;; mret false
  else
    goes_on ← (if CAPS_WORD_INVERT_ON_SHIFT then handle_shift keycode r else mret true);
    if negb goes_on then mret false else
    real ← core get_mods;
    oneshot ← core get_oneshot_mods;
    let mods := Z.lor real oneshot in
    active ← is_caps_word_on;
    if negb active then turn_on_by_shifts keycode r mods;; mret true
    else
      when (0 <? CAPS_WORD_IDLE_TIMEOUT) caps_word_reset_idle_timer;;
      when (pressed (event r)) (
        if nz (clear_bits mods (Z.lor MOD_MASK_SHIFT (MOD_BIT KC_RIGHT_ALT))) then stop_word
        else match classify keycode r with
        | Ignored => skip
        | Stops => stop_word
        | Asks keycode => press_in_word keycode
        end);;
      mret true.
End caps_word.

(** ** What Caps Word does to a word

    A key pressed during Caps Word either goes on with the word, with or
    without shift, or ends it, or is ignored; what the host sees then. *)

(** A build with the callbacks that the source provides, and without the
    inverting shift. *)
Class CapsWordPlain `{!CapsWordConfig} : Prop := {
  default_press_user kc : caps_word_press_user kc = caps_word_press_user_default kc;
  silent_set_user b k : exec (caps_word_set_user b) k = k;
  no_inversion : CAPS_WORD_INVERT_ON_SHIFT = false;
}.

(** The keys of a word. *)
Definition shifted (keycode : Z) : bool := within KC_A KC_Z keycode || (keycode =? KC_MINUS).
Definition unshifted (keycode : Z) : bool :=
  within KC_1 KC_0 keycode || (keycode =? KC_BACKSPACE) || (keycode =? KC_DELETE)
  || (keycode =? LSFT KC_MINUS).

Inductive outcome := Leaves | Shifts | Keeps | Ends.

Section spec.
Context `{!Config} `{!Hooks} `{!CapsWordConfig}.
Implicit Types (s : caps_word * keyboard) (k : keyboard).

Definition other_mods k : bool :=
  nz (clear_bits (Z.lor (real_mods (mods k)) (oneshot_mods (mods k)))
       (Z.lor MOD_MASK_SHIFT (MOD_BIT KC_RIGHT_ALT))).

Definition outcome_of (keycode : Z) (r : keyrecord_t) k : outcome :=
  if other_mods k then Ends
  else match classify keycode r with
  | Ignored => Leaves
  | Stops => Ends
  | Asks kc => if shifted kc then Shifts else if unshifted kc then Keeps else Ends
  end.

Definition with_weak (w : Z) k : keyboard := k <| mods := (mods k) <| weak_mods := w |> |>.

Definition stays (o : outcome) : bool := match o with Ends => false | _ => true end.

Lemma with_weak_frame w k : synced k -> synced (with_weak w k).
Proof. done. Qed.

Context `{!CapsWordPlain}.

(** ** The parts *)

Lemma caps_word_off_run s : caps_word_active s.1 = true ->
  exec caps_word_off s =
  (s.1 <| caps_word_active := false |>,
   exec send_keyboard_report (with_weak (clear_bits (weak_mods (mods s.2)) MOD_MASK_SHIFT) s.2)).
Proof.
  intros Ha. destruct s as [c k]. cbn in Ha. unfold caps_word_off. rewrite exec_bind.
  change (eval is_caps_word_on (c, k)) with (caps_word_active c). rewrite Ha. cbn [when].
  etransitivity; [|apply (f_equal (pair (c <| caps_word_active := false |>))), (silent_set_user false)].
  done.
Qed.

Lemma stop_word_run s : exec stop_word s = exec caps_word_off s.
Proof. unfold stop_word. rewrite exec_bind, exec_bind, no_inversion. by destruct (exec caps_word_off s). Qed.

Lemma press_in_word_run kc s : caps_word_active s.1 = true ->
  exec (press_in_word kc) s =
  if shifted kc then (s.1, exec send_keyboard_report (with_weak MOD_BIT_LSHIFT s.2))
  else if unshifted kc then (s.1, exec send_keyboard_report (with_weak 0 s.2))
  else (s.1 <| caps_word_active := false |>, exec send_keyboard_report (with_weak 0 s.2)).
Proof.
  intros Ha. destruct s as [c k]. unfold press_in_word. rewrite exec_bind, exec_bind.
  set (s1 := exec (core clear_weak_mods) (c, k)). assert (s1 = (c, with_weak 0 k)) as -> by done.
  rewrite default_press_user. unfold caps_word_press_user_default.
  fold (shifted kc). destruct (shifted kc).
  - cbn [eval core mbind stm_bind fst snd]. rewrite no_inversion. done.
  - cbn [eval core fst snd exec mret stm_ret]. fold (unshifted kc). destruct (unshifted kc).
    + rewrite exec_bind, no_inversion. done.
    + rewrite stop_word_run, caps_word_off_run by done. done.
Qed.

Lemma process_in_word keycode r s :
  caps_word_active s.1 = true -> pressed (event r) = true -> keycode <> QK_CAPS_WORD_TOGGLE ->
  let s1 := exec (when (0 <? CAPS_WORD_IDLE_TIMEOUT) caps_word_reset_idle_timer) s in
  process_caps_word keycode r s =
  (true, if other_mods s.2 then exec stop_word s1
         else match classify keycode r with
         | Ignored => s1
         | Stops => exec stop_word s1
         | Asks kc => exec (press_in_word kc) s1
         end).
Proof.
  intros Ha Hp Hk. destruct s as [c k]. cbn in Ha. cbv zeta. unfold process_caps_word.
  rewrite (proj2 (Z.eqb_neq _ _) Hk), no_inversion, Hp. rewrite run_ret. cbn [negb].
  rewrite run_core, run_core. cbn [fst snd get_mods get_oneshot_mods gets].
  fold (other_mods k). change (((is_caps_word_on ≫= ?g)) (c, k)) with (g (caps_word_active c) (c, k)).
  rewrite Ha. cbn [negb fst snd]. rewrite run_eval.
  set (s1 := exec (when (0 <? CAPS_WORD_IDLE_TIMEOUT) caps_word_reset_idle_timer) (c, k)).
  cbn [when]. rewrite run_eval. destruct (other_mods k); [done|].
  by destruct (classify keycode r).
Qed.

Lemma idle_timer_frame s :
  let s1 := exec (when (0 <? CAPS_WORD_IDLE_TIMEOUT) caps_word_reset_idle_timer) s in
  caps_word_active s1.1 = caps_word_active s.1 /\ s1.2 = s.2.
Proof. cbv zeta. unfold when. by destruct (0 <? CAPS_WORD_IDLE_TIMEOUT). Qed.

Lemma clear_shift w : Z.land (clear_bits w MOD_MASK_SHIFT) MOD_MASK_SHIFT = 0.
Proof.
  apply Z.bits_inj'. intros i Hi. rewrite Z.land_spec, testbit_clear, Z.bits_0 by done.
  by destruct (Z.testbit w i), (Z.testbit MOD_MASK_SHIFT i).
Qed.

(** A key pressed during Caps Word: whether the word goes on, and what the
    weak modifiers are when the next report goes out. *)
Lemma caps_word_press keycode r s :
  caps_word_active s.1 = true -> pressed (event r) = true -> keycode <> QK_CAPS_WORD_TOGGLE ->
  synced s.2 ->
  let o := outcome_of keycode r s.2 in
  let s' := exec (process_caps_word keycode r) s in
  let w := weak_mods (mods s'.2) in
  eval (process_caps_word keycode r) s = true /\
  caps_word_active s'.1 = stays o /\
  match o with
  | Leaves => s'.2 = s.2
  | Shifts => w = MOD_BIT_LSHIFT /\ report_sent (with_weak w s.2) s'.2
  | Keeps => w = 0 /\ report_sent (with_weak w s.2) s'.2
  | Ends => Z.land w MOD_MASK_SHIFT = 0 /\ report_sent (with_weak w s.2) s'.2
  end.
Proof.
  intros Ha Hp Hk Hs. pose proof (process_in_word keycode r s Ha Hp Hk) as Hrun. cbv zeta in *.
  rewrite (f_equal fst Hrun : eval (process_caps_word keycode r) s = true).
  rewrite (f_equal snd Hrun : exec (process_caps_word keycode r) s = _). cbn [snd]. clear Hrun.
  destruct (idle_timer_frame s) as [Ha1 Hk1]. set (s1 := exec (when _ _) s) in *. clearbody s1.
  rewrite Ha in Ha1. unfold outcome_of.
  assert (forall w, report_sent (with_weak w s1.2) (exec send_keyboard_report (with_weak w s1.2))) as Hsend.
  { intros w. apply send_report_sent, with_weak_frame. by rewrite Hk1. }
  assert (forall w, weak_mods (mods (exec send_keyboard_report (with_weak w s1.2))) = w) as Hw.
  { intros w. by rewrite (sent_weak _ _ (Hsend w)). }
  rewrite <-Hk1. split; [done|].
  destruct (other_mods s1.2); [|destruct (classify keycode r) as [| |kc]].
  - rewrite stop_word_run, caps_word_off_run by done. cbn [fst snd stays]. rewrite Hw. by split; [|split; [apply clear_shift|]].
  - done.
  - rewrite stop_word_run, caps_word_off_run by done. cbn [fst snd stays]. rewrite Hw. by split; [|split; [apply clear_shift|]].
  - rewrite press_in_word_run by done. destruct (shifted kc); [|destruct (unshifted kc)]; cbn [fst snd stays];
      rewrite Hw; by split.
Qed.

(** ** What the host sees *)

(** [process_caps_word] and then the core, which registers the key. *)
Definition type_key (keycode : Z) (r : keyrecord_t) : stm (caps_word * keyboard) unit :=
  process_caps_word keycode r;; core (register_code keycode).

Hypothesis unbuffered : RING_BUFFERED_6KRO_REPORT_ENABLE = false.
Hypothesis no_override : KEY_OVERRIDE_ENABLE = false.

Definition shift_of (m : Z) : bool := nz (Z.land m MOD_MASK_SHIFT).

Lemma shift_of_lor a b : shift_of (Z.lor a b) = shift_of a || shift_of b.
Proof.
  unfold shift_of. rewrite Z.land_lor_distr_l.
  destruct (nz (Z.land a MOD_MASK_SHIFT)) eqn:Ea.
  - apply nz_true in Ea. apply nz_true. intros [? _]%Z.lor_eq_0_iff. done.
  - apply nz_false in Ea. by rewrite Ea, Z.lor_0_l.
Qed.

Lemma register_code_shown code k :
  plain code -> command_proc code = false -> synced k -> reports_ok (rep k) ->
  has_room (nkro_active k) (rep k) code -> key_pressed code k = false ->
  let k' := exec (register_code code) k in
  shown k' = (report_mods k, report_keys k') /\ key_pressed code k' = true.
Proof.
  intros Hp Hcmd Hs Hr Hroom Hup. cbv zeta. rewrite register_code_run, Hup by done. cbv zeta.
  destruct (with_key_frame code k) as (Hs2 & Hr2 & Hn2 & Hm2 & Hnow2 & Hh2).
  pose proof (send_report_sent _ (Hs2 Hs)) as Hsent. pose proof (plain_reportable code (nkro_active k) Hp).
  split.
  - destruct Hsent. rewrite sent_shown, sent_keys. by rewrite (report_mods_mods k).
  - rewrite (key_pressed_sent _ _ _ Hsent).
    rewrite (key_pressed_with unbuffered code code k) by (done || apply Hr). by rewrite bool_decide_true.
Qed.

Lemma classify_basic code r : 0 <= code <= 0xA4 -> classify code r = Asks code.
Proof.
  intros Hc. assert (forall lo hi, (0xA4 <? lo) = true -> within lo hi code = false) as Hw.
  { intros lo hi ?%Z.ltb_lt. unfold within. by destruct (Z.leb_spec lo code); [lia|]. }
  assert (forall x, (0xA4 <? x) = true -> (code =? x) = false) as He.
  { intros x ?%Z.ltb_lt. by destruct (Z.eqb_spec code x); [lia|]. }
  unfold classify. rewrite !Hw, !He by done. by destruct SWAP_HANDS_ENABLE.
Qed.

(** A letter (or minus) typed while Caps Word is on reaches the host with
    shift; a digit, backspace, delete or underscore, and the first key that
    does not belong to a word, without one of Caps Word's own, and exactly that
    last key turns it off. *)
Theorem caps_word_types code r s :
  let k := s.2 in
  caps_word_active s.1 = true -> pressed (event r) = true -> plain code ->
  command_proc code = false -> synced k -> reports_ok (rep k) ->
  has_room (nkro_active k) (rep k) code -> key_pressed code k = false ->
  let s' := exec (type_key code r) s in
  let typed := fst (shown s'.2) in
  key_pressed code s'.2 = true /\ snd (shown s'.2) = report_keys s'.2 /\
  (caps_word_active s'.1 = negb (other_mods k) && (shifted code || unshifted code)) /\
  (negb (other_mods k) && shifted code = true -> shift_of typed = true) /\
  (negb (other_mods k) && shifted code = false ->
     real_mods (mods k) = 0 -> oneshot_mods (mods k) = 0 -> shift_of typed = false).
Proof.
  intros k Ha Hpr Hp Hcmd Hs Hr Hroom Hup. subst k. cbv zeta. unfold type_key. rewrite exec_bind.
  pose proof (plain_range code Hp) as Hrange.
  assert (code <> QK_CAPS_WORD_TOGGLE) as Hk by (unfold QK_CAPS_WORD_TOGGLE; lia).
  destruct (caps_word_press code r s Ha Hpr Hk Hs) as (_ & Hact & Hout). unfold outcome_of in Hact, Hout.
  rewrite classify_basic in Hact, Hout by lia.
  set (s1 := exec (process_caps_word code r) s) in *. clearbody s1.
  assert (report_sent (with_weak (weak_mods (mods s1.2)) s.2) s1.2) as Hsent.
  { by destruct (other_mods s.2); [|destruct (shifted code); [|destruct (unshifted code)]]; apply Hout. }
  assert (caps_word_active s1.1 = negb (other_mods s.2) && (shifted code || unshifted code)) as Hact'.
  { by destruct (other_mods s.2); [|destruct (shifted code); [|destruct (unshifted code)]]. }
  assert (Z.land (weak_mods (mods s1.2)) MOD_MASK_SHIFT =
    if negb (other_mods s.2) && shifted code then MOD_BIT_LSHIFT else 0) as Hw.
  { destruct (other_mods s.2); [by apply Hout|]. destruct (shifted code); [by rewrite (proj1 Hout)|].
    destruct (unshifted code); [by rewrite (proj1 Hout)|]. by apply Hout. }
  destruct (register_code_shown code s1.2) as [Hshown Hdown]; [done|done|apply Hsent|by apply Hsent| | |].
  { eapply sent_room; [done|]. done. }
  { by rewrite (key_pressed_sent _ _ _ Hsent). }
  change (exec (core (register_code code)) s1) with (s1.1, exec (register_code code) s1.2). cbn [fst snd].
  rewrite Hshown. cbn [fst snd]. split_and!; [done..| |].
  - intros E. rewrite E in Hw. unfold report_mods. rewrite no_override, !shift_of_lor.
    unfold shift_of at 2. by rewrite Hw, orb_true_r.
  - intros E Hreal Hone. rewrite E in Hw. unfold report_mods. rewrite no_override, !shift_of_lor.
    unfold shift_of at 2. rewrite Hw, (sent_real _ _ Hsent), orb_false_r.
    change (real_mods (mods (with_weak ?w ?k))) with (real_mods (mods k)). rewrite Hreal.
    unfold live_oneshot_mods. rewrite (sent_oneshot _ _ Hsent).
    change (oneshot_mods (mods (with_weak ?w ?k))) with (oneshot_mods (mods k)). rewrite Hone.
    by destruct (uses_oneshot _), (has_oneshot_mods_timed_out _).
Qed.
End spec.
