(* ===== verification/MacroRecorder.v ===== *)
(** * Recorded macros (quantum/process_keycode/process_dynamic_macro.c)

    Two macros grow towards each other in one buffer of key records.  A
    pointer into the buffer is an index of it; the second macro is read and
    written downwards, so that the end of a second macro that fills the buffer
    is [-1].  Playing a macro processes its records one after the other, where
    they lie in the buffer, by process_record; that asks this feature first
    again, so that a macro can play or record macros.  The recursion has fuel
    ([process_recorded]): a macro that plays itself never ends, in C it runs
    over the stack.  Nested calls that process_action makes (the release when a
    one-shot layer ends) do not come back to the feature here. *)

From S2P Require Import Prelude.
From S2P Require Import Keycodes.
From S2P Require Import State.
From S2P Require Import ActionUtil.
From S2P Require Import ActionLayer.
From S2P Require Import Oneshot.
From S2P Require Import Action.
From S2P Require Import Feature.

Class MacroConfig := {
  DYNAMIC_MACRO_SIZE : Z;
  DYNAMIC_MACRO_NO_NESTING : bool;
  DYNAMIC_MACRO_DELAY : option Z;
  dynamic_macro_record_start_user : Z -> stm keyboard unit;
  dynamic_macro_play_user : Z -> stm keyboard unit;
  dynamic_macro_record_key_user : Z -> keyrecord_t -> stm keyboard unit;
  dynamic_macro_record_end_user : Z -> stm keyboard unit;
  dynamic_macro_valid_key_user : Z -> keyrecord_t -> bool;
}.

Record recorder := {
  macro_buffer : list keyrecord_t;
  macro_end : Z;
  r_macro_end : Z;
  macro_pointer : Z;
  macro_id : Z;
}.

Section macro_recorder.
Context `{!Config} `{!Hooks} `{!MacroConfig}.
Abbreviation R := (stm (recorder * keyboard)).

Definition r_macro_buffer : Z := DYNAMIC_MACRO_SIZE - 1.
Definition recorder_init : recorder := {|
  macro_buffer := replicate (Z.to_nat DYNAMIC_MACRO_SIZE) record_0;
  macro_end := 0; r_macro_end := DYNAMIC_MACRO_SIZE - 1; macro_pointer := 0; macro_id := 0;
|}.

Definition put_pointer (p : Z) : R unit := own (modify (fun s => s <| macro_pointer := p |>)).
Definition put_id (i : Z) : R unit := own (modify (fun s => s <| macro_id := i |>)).

(** [*p], and [*p = r]: an access outside the buffer is none. *)
Definition slot_at (p : Z) (s : recorder) : keyrecord_t :=
  if p <? 0 then record_0 else default record_0 (macro_buffer s !! Z.to_nat p).
Definition store (p : Z) (r : keyrecord_t) : R unit :=
  own (modify (fun s => if p <? 0 then s
    else s <| macro_buffer := <[Z.to_nat p := r]> (macro_buffer s) |>)).

Definition dynamic_macro_record_start (start direction : Z) : R unit :=
  core (dynamic_macro_record_start_user direction);;
  core clear_keyboard;;
  core layer_clear;;
  put_pointer start.

(** The loop of [dynamic_macro_play]; [process] is [process_record] of a slot,
    false when its recursion did not end. *)
Fixpoint play_loop (process : Z -> R bool) (fuel : nat) (p stop direction : Z) : R bool :=
  if p =? stop then mret true else
  match fuel with
  | O => mret false
  | S fuel =>
      ended ← process p;
      if negb ended then mret false else
      core (match DYNAMIC_MACRO_DELAY with Some ms => emit (WaitMs ms) | None => skip end);;
      play_loop process fuel (p + direction) stop direction
  end.

Definition dynamic_macro_play (process : Z -> R bool) (start stop direction : Z) : R bool :=
  saved ← core get_layer_state;
  core clear_keyboard;;
  core layer_clear;;
  ended ← play_loop process (Z.to_nat DYNAMIC_MACRO_SIZE) start stop direction;
  if negb ended then mret false else
  core clear_keyboard;;
  core (layer_state_set saved);;
  core (dynamic_macro_play_user direction);;
  mret true.

Definition dynamic_macro_record_key (start macro2_end direction : Z) (r : keyrecord_t) : R unit :=
  p ← own (gets macro_pointer);
  if negb (pressed (event r)) && (p =? start) then skip else
  when (negb (p - direction =? macro2_end)) (
    store p r;;
    put_pointer (p + direction));;
  core (dynamic_macro_record_key_user direction r).

(** Where the trailing presses start. *)
Fixpoint trim (fuel : nat) (start p direction : Z) (s : recorder) : Z :=
  match fuel with
  | O => p
  | S fuel =>
      if negb (p =? start) && pressed (event (slot_at (p - direction) s))
      then trim fuel start (p - direction) direction s else p
  end.

Definition dynamic_macro_record_end (start p direction : Z) (put_end : Z -> recorder -> recorder)
  : R unit :=
  core (dynamic_macro_record_end_user direction);;
  own (modify (fun s => put_end (trim (Z.to_nat DYNAMIC_MACRO_SIZE) start p direction s) s)).

Definition put_macro_end (p : Z) (s : recorder) : recorder := s <| macro_end := p |>.
Definition put_r_macro_end (p : Z) (s : recorder) : recorder := s <| r_macro_end := p |>.

Definition dynamic_macro_stop_recording : R unit :=
  s ← own (gets (fun s => s));
  (if macro_id s =? 1 then dynamic_macro_record_end 0 (macro_pointer s) 1 put_macro_end
   else when (macro_id s =? 2)
     (dynamic_macro_record_end r_macro_buffer (macro_pointer s) (-1) put_r_macro_end));;
  put_id 0.

(** A press or a release while a macro is being recorded. *)
Definition while_recording (keycode : Z) (r : keyrecord_t) : R bool :=
  if (keycode =? QK_DYNAMIC_MACRO_RECORD_START_1) || (keycode =? QK_DYNAMIC_MACRO_RECORD_START_2)
     || (keycode =? QK_DYNAMIC_MACRO_RECORD_STOP) then
    when (xorb (pressed (event r)) (negb (keycode =? QK_DYNAMIC_MACRO_RECORD_STOP)))
      dynamic_macro_stop_recording;;
    mret false
  else if DYNAMIC_MACRO_NO_NESTING
       && ((keycode =? QK_DYNAMIC_MACRO_PLAY_1) || (keycode =? QK_DYNAMIC_MACRO_PLAY_2)) then
    mret false
  else
    s ← own (gets (fun s => s));
    when (dynamic_macro_valid_key_user keycode r)
      (if macro_id s =? 1 then dynamic_macro_record_key 0 (r_macro_end s) 1 r
       else when (macro_id s =? 2) (dynamic_macro_record_key r_macro_buffer (macro_end s) (-1) r));;
    mret true.

(** Whether the event is passed on; [None] if a macro it plays does not end. *)
Definition process_dynamic_macro (process : Z -> R bool) (keycode : Z) (r : keyrecord_t)
  : R (option bool) :=
  s ← own (gets (fun s => s));
  if macro_id s =? 0 then
    if pressed (event r) then mret (Some true)
    else if keycode =? QK_DYNAMIC_MACRO_RECORD_START_1 then
      dynamic_macro_record_start 0 1;; put_id 1;; mret (Some false)
    else if keycode =? QK_DYNAMIC_MACRO_RECORD_START_2 then
      dynamic_macro_record_start r_macro_buffer (-1);; put_id 2;; mret (Some false)
    else if keycode =? QK_DYNAMIC_MACRO_PLAY_1 then
      ended ← dynamic_macro_play process 0 (macro_end s) 1;
      mret (if ended : bool then Some false else None)
    else if keycode =? QK_DYNAMIC_MACRO_PLAY_2 then
      ended ← dynamic_macro_play process r_macro_buffer (r_macro_end s) (-1);
      mret (if ended : bool then Some false else None)
    else mret (Some true)
  else passed ← while_recording keycode r; mret (Some passed).

(** *** process_record (quantum/action.c) with this feature in front of the core,
    whose hook is what comes after the feature *)

Definition process_record_after (passed : bool) (r : keyrecord_t) : R keyrecord_t :=
  if passed then core (process_record 2 r) else
  active ← core (gets is_oneshot_layer_active);
  enabled ← core (gets oneshot_enabled);
  when (active && pressed (event r) && enabled)
    (core (clear_oneshot_layer_state ONESHOT_OTHER_KEY_PRESSED));;
  mret r.

(** The record in slot [p] of the buffer: what changes it changes the macro. *)
Fixpoint process_recorded (fuel : nat) (p : Z) : R bool :=
  match fuel with
  | O => mret false
  | S fuel =>
      r ← own (gets (slot_at p));
      if IS_NOEVENT (event r) then mret true else
      kc ← core (get_record_keycode r true);
      passed ← process_dynamic_macro (process_recorded fuel) kc r;
      match passed with
      | None => mret false
      | Some passed =>
          r ← process_record_after passed r;
          when passed (store p r);;
          mret true
      end
  end.

(** A record of its own: what a key event brings. *)
Definition process_record_recording (fuel : nat) (r : keyrecord_t) : R (option keyrecord_t) :=
  if IS_NOEVENT (event r) then mret (Some r) else
  kc ← core (get_record_keycode r true);
  passed ← process_dynamic_macro (process_recorded fuel) kc r;
  match passed with
  | None => mret None
  | Some passed => r ← process_record_after passed r; mret (Some r)
  end.
End macro_recorder.

(** ** Recorded macros: what is played is what was recorded

    Slot [j] of a macro counts from its own end of the buffer, so that the two
    macros are treated alike: the invariant keeps them apart, recording fills
    the slots from 0 on, and playing goes through them in that order. *)

Inductive macro := Macro1 | Macro2.
#[global] Instance macro_eq_dec : EqDecision macro.
Proof. solve_decision. Defined.

Section spec.
Context `{!Config} `{!Hooks} `{!MacroConfig}.
Implicit Types (m : macro) (s : recorder) (k : keyboard) (i j : Z) (r : keyrecord_t).
Abbreviation SIZE := DYNAMIC_MACRO_SIZE.

Definition other m : macro := match m with Macro1 => Macro2 | Macro2 => Macro1 end.
Definition id_of m : Z := match m with Macro1 => 1 | Macro2 => 2 end.
Definition dir m : Z := match m with Macro1 => 1 | Macro2 => -1 end.
Definition base m : Z := match m with Macro1 => 0 | Macro2 => r_macro_buffer end.
Definition end_of m s : Z := match m with Macro1 => macro_end s | Macro2 => r_macro_end s end.
Definition put_end m : Z -> recorder -> recorder :=
  match m with Macro1 => put_macro_end | Macro2 => put_r_macro_end end.

(** The place of slot [j], and the slot of a place. *)
Definition pos m j : Z := base m + dir m * j.
Definition slot_of m (p : Z) : Z := match m with Macro1 => p | Macro2 => r_macro_buffer - p end.

Definition len m s : Z := slot_of m (end_of m s).
Definition room m s : Z := SIZE - len (other m) s.
Definition slots m s j (n : nat) : list keyrecord_t := (fun i => slot_at (pos m i) s) <$> seqZ j (Z.of_nat n).
Definition contents m s : list keyrecord_t := slots m s 0 (Z.to_nat (len m s)).

Record recorder_ok s : Prop := {
  ok_buffer : Z.of_nat (length (macro_buffer s)) = SIZE;
  ok_len m : 0 <= len m s;
  ok_apart : len Macro1 s + len Macro2 s <= SIZE;
  ok_id : macro_id s = 0 \/ exists m, macro_id s = id_of m;
  ok_pointer m : macro_id s = id_of m -> 0 <= slot_of m (macro_pointer s) <= room m s;
}.

Lemma other_other m : other (other m) = m.
Proof. by destruct m. Qed.
Lemma slot_pos m j : slot_of m (pos m j) = j.
Proof. destruct m; unfold slot_of, pos, base, dir; lia. Qed.
Lemma pos_slot m p : pos m (slot_of m p) = p.
Proof. destruct m; unfold slot_of, pos, base, dir; lia. Qed.
Lemma pos_inj m i j : pos m i = pos m j -> i = j.
Proof. intros E. by rewrite <-(slot_pos m i), E, slot_pos. Qed.
Lemma pos_succ m j : pos m j + dir m = pos m (j + 1).
Proof. destruct m; unfold pos, base, dir; lia. Qed.
Lemma pos_range m j : 0 <= j < SIZE -> 0 <= pos m j < SIZE.
Proof. destruct m; unfold pos, base, dir, r_macro_buffer; lia. Qed.
Lemma pos_other m j : pos (other m) j = pos m (SIZE - 1 - j).
Proof. destruct m; unfold pos, base, dir, other, r_macro_buffer; lia. Qed.

Lemma room_len s m : recorder_ok s -> 0 <= len m s <= room m s /\ room m s <= SIZE.
Proof.
  intros [_ Hl Ha _ _]. pose proof (Hl Macro1). pose proof (Hl Macro2).
  unfold room. destruct m; cbn [other]; lia.
Qed.

(** ** Slots *)

Definition store_at (p : Z) r s : recorder :=
  if p <? 0 then s else s <| macro_buffer := <[Z.to_nat p := r]> (macro_buffer s) |>.

(** [s'] has the variables of [s] and a buffer of the same length. *)
Definition same_but_buffer s s' : Prop :=
  macro_end s' = macro_end s /\ r_macro_end s' = r_macro_end s /\ macro_pointer s' = macro_pointer s /\
  macro_id s' = macro_id s /\ length (macro_buffer s') = length (macro_buffer s).

Lemma store_at_same p r s : same_but_buffer s (store_at p r s).
Proof. unfold store_at. destruct (p <? 0); split_and!; try done. cbn. apply length_insert. Qed.

Lemma same_len m s s' : same_but_buffer s s' -> len m s' = len m s.
Proof. intros (E1 & E2 & _). unfold len, end_of. destruct m; congruence. Qed.

Lemma same_ok s s' : same_but_buffer s s' -> recorder_ok s -> recorder_ok s'.
Proof.
  intros Hs [? ? ? ? ?]. pose proof Hs as (_ & _ & E3 & E4 & E5).
  split; unfold room in *; intros *; rewrite ?(same_len _ _ _ Hs), ?E3, ?E4, ?E5; auto.
Qed.

Lemma slot_at_store m i j r s : Z.of_nat (length (macro_buffer s)) = SIZE ->
  0 <= i < SIZE -> 0 <= j < SIZE ->
  slot_at (pos m i) (store_at (pos m j) r s) = if i =? j then r else slot_at (pos m i) s.
Proof.
  intros Hlen Hi Hj. pose proof (pos_range m i Hi). pose proof (pos_range m j Hj).
  unfold store_at, slot_at. destruct (Z.ltb_spec (pos m j) 0), (Z.ltb_spec (pos m i) 0); try lia. cbn.
  destruct (Z.eqb_spec i j) as [->|Hij].
  - by rewrite list_lookup_insert_eq by lia.
  - rewrite list_lookup_insert_ne; [done|]. intros E. apply Hij, (pos_inj m). lia.
Qed.

Lemma slots_ext m s s' j n :
  (forall i, j <= i < j + Z.of_nat n -> slot_at (pos m i) s' = slot_at (pos m i) s) ->
  slots m s' j n = slots m s j n.
Proof. intros E. apply list_fmap_ext. intros ? i Hi%list_elem_of_lookup_2%elem_of_seqZ. by apply E. Qed.

Lemma slots_S m s j n : slots m s j (S n) = slot_at (pos m j) s :: slots m s (j + 1) n.
Proof. unfold slots. rewrite seqZ_cons by lia. cbn. do 3 f_equal; lia. Qed.

Lemma slots_snoc m s n : slots m s 0 (S n) = slots m s 0 n ++ [slot_at (pos m (Z.of_nat n)) s].
Proof.
  unfold slots. replace (Z.of_nat (S n)) with (Z.of_nat n + 1) by lia.
  rewrite seqZ_app, fmap_app by lia. by rewrite (seqZ_cons (0 + Z.of_nat n) 1), (seqZ_nil _ (Z.pred 1)) by lia.
Qed.

(** The other macro lies beyond the room of this one. *)
Lemma store_keeps_other m j r s : recorder_ok s -> 0 <= j < room m s ->
  contents (other m) (store_at (pos m j) r s) = contents (other m) s.
Proof.
  intros Hok Hj. pose proof (room_len s m Hok). pose proof (ok_len s Hok (other m)).
  unfold contents. rewrite (same_len _ s) by apply store_at_same.
  apply slots_ext. intros i Hi. rewrite !pos_other. unfold room in *.
  rewrite slot_at_store by (apply Hok || lia). by destruct (Z.eqb_spec (SIZE - 1 - i) j); [lia|].
Qed.

(** ** Recording *)

Fixpoint drop_while {A} (f : A -> bool) (l : list A) : list A :=
  match l with
  | [] => []
  | x :: l' => if f x then drop_while f l' else l
  end.
Definition is_press r : bool := pressed (event r).
Definition trim_presses (rs : list keyrecord_t) : list keyrecord_t :=
  reverse (drop_while is_press (reverse rs)).

(** What a macro of capacity [cap] keeps of what is typed. *)
Definition recorded (cap : Z) (rs : list keyrecord_t) : list keyrecord_t :=
  trim_presses (take (Z.to_nat cap) (drop_while (negb ∘ is_press) rs)).

Definition record_step (cap : Z) (rs : list keyrecord_t) r : list keyrecord_t :=
  if negb (is_press r) && bool_decide (rs = []) then rs
  else if Z.of_nat (length rs) =? cap then rs else rs ++ [r].

Lemma record_steps_nonempty cap rs : forall acc,
  acc <> [] -> Z.of_nat (length acc) <= cap ->
  foldl (record_step cap) acc rs = take (Z.to_nat cap) (acc ++ rs).
Proof.
  induction rs as [|r rs IH]; intros acc Hne Hlen; cbn [foldl].
  - rewrite app_nil_r, take_ge; [done|lia].
  - unfold record_step at 2. rewrite bool_decide_false, andb_false_r by done.
    destruct (Z.eqb_spec (Z.of_nat (length acc)) cap) as [E|].
    + rewrite IH by (done || lia). rewrite !take_app_le by lia. done.
    + rewrite IH; [by rewrite <-app_assoc|by destruct acc|rewrite length_app; cbn; lia].
Qed.

Lemma record_steps cap rs : 0 <= cap ->
  foldl (record_step cap) [] rs = take (Z.to_nat cap) (drop_while (negb ∘ is_press) rs).
Proof.
  intros Hcap. induction rs as [|r rs IH]; cbn [foldl drop_while]; [by rewrite take_nil|].
  unfold record_step at 2. cbn [bool_decide length]. unfold compose at 1.
  destruct (is_press r); cbn [negb andb]; [|by rewrite bool_decide_true].
  destruct (Z.eqb_spec (Z.of_nat 0) cap) as [<-|]; cbn [app].
  - rewrite IH. by rewrite !take_0.
  - rewrite record_steps_nonempty; [done|done|cbn; lia].
Qed.

(** While macro [m] is recorded, the slots up to the pointer hold [rs]. *)
Record recording m (rs : list keyrecord_t) (others : list keyrecord_t) (cap : Z) s : Prop := {
  rec_ok : recorder_ok s;
  rec_id : macro_id s = id_of m;
  rec_pointer : macro_pointer s = pos m (Z.of_nat (length rs));
  rec_slots : slots m s 0 (length rs) = rs;
  rec_other : contents (other m) s = others;
  rec_room : room m s = cap;
}.

Lemma recording_length m rs others cap s : recording m rs others cap s -> Z.of_nat (length rs) <= cap.
Proof.
  intros Hr. pose proof (ok_pointer s (rec_ok _ _ _ _ _ Hr) m (rec_id _ _ _ _ _ Hr)) as Hp.
  rewrite (rec_pointer _ _ _ _ _ Hr), slot_pos, (rec_room _ _ _ _ _ Hr) in Hp. lia.
Qed.

Lemma end_of_other m s : end_of (other m) s = pos m (room m s - 1).
Proof.
  unfold room, len. rewrite <-(pos_slot (other m) (end_of (other m) s)) at 1. rewrite pos_other.
  f_equal. lia.
Qed.

Lemma run_record_key m r s k : macro_id s = id_of m ->
  (dynamic_macro_record_key (base m) (end_of (other m) s) (dir m) r (s, k)).2.1 =
  if negb (is_press r) && (macro_pointer s =? base m) then s
  else if macro_pointer s =? pos m (room m s) then s
  else (store_at (macro_pointer s) r s) <| macro_pointer := macro_pointer s + dir m |>.
Proof.
  intros Hid. unfold dynamic_macro_record_key. rewrite run_own. cbn [gets fst snd]. unfold is_press.
  destruct (negb (pressed (event r)) && (macro_pointer s =? base m)); [done|].
  rewrite end_of_other.
  assert (macro_pointer s - dir m =? pos m (room m s - 1) = (macro_pointer s =? pos m (room m s))) as ->.
  { pose proof (pos_succ m (room m s - 1)) as E. replace (room m s - 1 + 1) with (room m s) in E by lia.
    apply Bool.eq_iff_eq_true. rewrite !Z.eqb_eq. lia. }
  by destruct (macro_pointer s =? pos m (room m s)).
Qed.

Lemma pointer_ok m j s : recorder_ok s -> macro_id s = id_of m -> 0 <= j <= room m s ->
  recorder_ok (s <| macro_pointer := pos m j |>).
Proof.
  intros [? ? ? ? ?] Hid Hj. split; try done. intros m' Hm'.
  change (macro_id s = id_of m') in Hm'. rewrite Hid in Hm'.
  assert (m' = m) as -> by by destruct m, m'. cbn. rewrite slot_pos. done.
Qed.

Lemma record_key_recording m r rs others cap s k : recording m rs others cap s ->
  recording m (record_step cap rs r) others cap
    (dynamic_macro_record_key (base m) (end_of (other m) s) (dir m) r (s, k)).2.1.
Proof.
  intros Hrec. pose proof (recording_length _ _ _ _ _ Hrec) as Hlen.
  pose proof Hrec as [Hok Hid Hp Hs Ho Hc]. rewrite run_record_key by done. unfold record_step.
  pose proof (room_len s m Hok) as Hroom.
  assert (macro_pointer s =? base m = bool_decide (rs = [])) as ->.
  { rewrite Hp. replace (base m) with (pos m 0) by (destruct m; unfold pos, base, dir; lia).
    apply Bool.eq_iff_eq_true. rewrite Z.eqb_eq, bool_decide_eq_true. split.
    - intros E%pos_inj. destruct rs; [done|cbn in E; lia].
    - by intros ->. }
  destruct (negb (is_press r) && bool_decide (rs = [])); [done|].
  assert (macro_pointer s =? pos m (room m s) = (Z.of_nat (length rs) =? cap)) as ->.
  { rewrite Hp, Hc. apply Bool.eq_iff_eq_true. rewrite !Z.eqb_eq. split; [apply pos_inj|by intros ->]. }
  destruct (Z.eqb_spec (Z.of_nat (length rs)) cap) as [|Hne]; [done|].
  set (s1 := store_at (macro_pointer s) r s). pose proof (store_at_same (macro_pointer s) r s) as Hsame.
  fold s1 in Hsame. rewrite Hp, pos_succ.
  split.
  - apply pointer_ok; [by apply (same_ok s)|by rewrite (proj1 (proj2 (proj2 (proj2 Hsame))))|].
    unfold room. rewrite (same_len _ _ _ Hsame). fold (room m s). lia.
  - change (macro_id s1 = id_of m). by rewrite (proj1 (proj2 (proj2 (proj2 Hsame)))).
  - cbn. rewrite length_app. cbn. f_equal. lia.
  - rewrite length_app. cbn [length]. rewrite Nat.add_1_r.
    change (slots m (s1 <| macro_pointer := ?p |>)) with (slots m s1). rewrite slots_snoc.
    subst s1. rewrite Hp. rewrite slot_at_store, Z.eqb_refl by (apply Hok || lia). f_equal.
    transitivity (slots m s 0 (length rs)); [|done]. apply slots_ext. intros i Hi. rewrite slot_at_store by (apply Hok || lia).
    by destruct (Z.eqb_spec i (Z.of_nat (length rs))); [lia|].
  - change (contents (other m) (s1 <| macro_pointer := ?p |>)) with (contents (other m) s1). subst s1.
    rewrite Hp, store_keeps_other; [done|done|lia].
  - change (room m (s1 <| macro_pointer := ?p |>)) with (room m s1). unfold room.
    rewrite (same_len _ _ _ Hsame). done.
Qed.

(** ** Stopping *)

Lemma trim_presses_snoc rs r :
  trim_presses (rs ++ [r]) = if is_press r then trim_presses rs else rs ++ [r].
Proof.
  unfold trim_presses. rewrite reverse_app. change (reverse [r]) with [r]. cbn [app drop_while].
  destruct (is_press r); [done|].
  by rewrite reverse_cons, reverse_involutive.
Qed.

Lemma trim_presses_prefix rs : trim_presses rs = take (length (trim_presses rs)) rs.
Proof.
  induction rs as [|r rs IH] using rev_ind; [done|]. rewrite trim_presses_snoc.
  destruct (is_press r); [|by rewrite take_ge by lia].
  assert (length (trim_presses rs) <= length rs)%nat by (rewrite IH, length_take; lia).
  by rewrite take_app_le by lia.
Qed.

Lemma slots_take m s n n' : (n <= n')%nat -> slots m s 0 n = take n (slots m s 0 n').
Proof.
  intros Hn. unfold slots. rewrite <-fmap_take. f_equal. apply list_eq. intros i.
  destruct (decide (i < n)%nat).
  - rewrite lookup_take_lt by done. by rewrite !lookup_seqZ_lt by lia.
  - rewrite lookup_take_ge by lia. apply lookup_seqZ_ge. lia.
Qed.

Lemma trim_spec m s rs : forall fuel,
  (length rs <= fuel)%nat -> slots m s 0 (length rs) = rs ->
  trim fuel (base m) (pos m (Z.of_nat (length rs))) (dir m) s = pos m (Z.of_nat (length (trim_presses rs))).
Proof.
  assert (base m = pos m 0) as Hbase by (destruct m; unfold pos, base, dir; lia).
  induction rs as [|r rs IH] using rev_ind; intros fuel Hfuel Hs.
  - cbn [length]. rewrite Hbase. destruct fuel; cbn [trim]; [done|]. by rewrite Z.eqb_refl.
  - rewrite length_app in Hfuel, Hs |- *. cbn [length] in *. rewrite Nat.add_1_r in Hfuel, Hs |- *.
    destruct fuel as [|fuel]; [lia|]. rewrite slots_snoc in Hs. apply app_inj_2 in Hs as [Hs Hr]; [|done].
    injection Hr as Hr. cbn [trim].
    assert (pos m (Z.of_nat (S (length rs))) =? base m = false) as ->.
    { apply Z.eqb_neq. rewrite Hbase. intros E%pos_inj. lia. }
    assert (pos m (Z.of_nat (S (length rs))) - dir m = pos m (Z.of_nat (length rs))) as ->.
    { pose proof (pos_succ m (Z.of_nat (length rs))). replace (Z.of_nat (S (length rs))) with (Z.of_nat (length rs) + 1) by lia. lia. }
    rewrite Hr, trim_presses_snoc. cbn [negb andb]. fold (is_press r). destruct (is_press r).
    + apply IH; [lia|done].
    + rewrite length_app. cbn [length]. do 2 f_equal. lia.
Qed.

Lemma trim_length rs : (length (trim_presses rs) <= length rs)%nat.
Proof. rewrite trim_presses_prefix, length_take. lia. Qed.

Lemma run_stop m s k : macro_id s = id_of m ->
  (dynamic_macro_stop_recording (s, k)).2.1 =
  (put_end m (trim (Z.to_nat SIZE) (base m) (macro_pointer s) (dir m) s) s) <| macro_id := 0 |>.
Proof.
  intros Hid. unfold dynamic_macro_stop_recording. rewrite run_own. cbn [gets fst snd]. rewrite Hid.
  by destruct m.
Qed.

Lemma stop_recording m rs others cap s k : recording m rs others cap s ->
  let s' := (dynamic_macro_stop_recording (s, k)).2.1 in
  recorder_ok s' /\ macro_id s' = 0 /\ contents m s' = trim_presses rs /\ contents (other m) s' = others.
Proof.
  intros Hrec. pose proof (recording_length _ _ _ _ _ Hrec) as Hlen.
  destruct Hrec as [Hok Hid Hp Hs Ho Hc]. cbv zeta. rewrite (run_stop m) by done.
  pose proof (room_len s m Hok) as Hroom. pose proof (trim_length rs) as Htl.
  rewrite Hp, trim_spec by (done || lia). set (n := length (trim_presses rs)) in *.
  set (s' := (put_end m (pos m (Z.of_nat n)) s) <| macro_id := 0 |>).
  assert (len m s' = Z.of_nat n) as Hlen'.
  { unfold len. assert (end_of m s' = pos m (Z.of_nat n)) as -> by by subst s'; destruct m.
    by rewrite slot_pos. }
  assert (len (other m) s' = len (other m) s) as Hlo by by subst s'; destruct m.
  assert (macro_buffer s' = macro_buffer s) as Hb by by subst s'; destruct m.
  assert (forall m' j n', slots m' s' j n' = slots m' s j n') as Hslots.
  { intros. unfold slots, slot_at. by rewrite Hb. }
  assert (macro_id s' = 0) as Hid' by by subst s'; destruct m.
  clearbody s'. split_and!; [|done| |].
  - destruct Hok as [Hob Hol Hoa Hoi Hop]. split.
    + by rewrite Hb.
    + intros m'. destruct (decide (m' = m)) as [->|Hne]; [lia|].
      assert (m' = other m) as -> by by destruct m, m'. rewrite Hlo. apply Hol.
    + unfold room in *. destruct m; cbn [other] in *; lia.
    + by left.
    + intros m' Hm'. rewrite Hid' in Hm'. by destruct m'.
  - unfold contents. rewrite Hslots, Hlen', Nat2Z.id.
    rewrite (slots_take m s n (length rs)), Hs by lia. subst n. by rewrite <-trim_presses_prefix.
  - unfold contents. by rewrite Hslots, Hlo.
Qed.

(** ** A whole recording *)

(** What arrives: a keycode, its record, and the keyboard at that time, which
    the keys of the macro change as they are typed. *)
Definition typed : Type := Z * keyrecord_t * keyboard.
Context (fuel : nat).
Definition step_recorder s (e : typed) : recorder :=
  (process_dynamic_macro (process_recorded fuel) e.1.1 e.1.2 (s, e.2)).2.1.

Definition start_key m : Z :=
  match m with
  | Macro1 => QK_DYNAMIC_MACRO_RECORD_START_1
  | Macro2 => QK_DYNAMIC_MACRO_RECORD_START_2
  end.
Definition is_recorder_key (keycode : Z) : bool :=
  (keycode =? QK_DYNAMIC_MACRO_RECORD_START_1) || (keycode =? QK_DYNAMIC_MACRO_RECORD_START_2)
  || (keycode =? QK_DYNAMIC_MACRO_RECORD_STOP).
Definition is_play_key (keycode : Z) : bool :=
  (keycode =? QK_DYNAMIC_MACRO_PLAY_1) || (keycode =? QK_DYNAMIC_MACRO_PLAY_2).

Definition starts m (e : typed) : Prop := e.1.1 = start_key m /\ pressed (event e.1.2) = false.
Definition stops (e : typed) : Prop :=
  is_recorder_key e.1.1 = true /\
  xorb (pressed (event e.1.2)) (negb (e.1.1 =? QK_DYNAMIC_MACRO_RECORD_STOP)) = true.
Definition ordinary (e : typed) : Prop :=
  is_recorder_key e.1.1 = false /\ DYNAMIC_MACRO_NO_NESTING && is_play_key e.1.1 = false.

(** The records that the keymap lets into a macro. *)
Definition valid_records (es : list typed) : list keyrecord_t :=
  (fun e : typed => e.1.2) <$> filter (fun e : typed => dynamic_macro_valid_key_user e.1.1 e.1.2 = true) es.

Lemma start_recording m s (e : typed) : recorder_ok s -> macro_id s = 0 -> starts m e ->
  recording m [] (contents (other m) s) (room m s) (step_recorder s e).
Proof.
  intros Hok Hid [Hkc Hup]. destruct e as [[kc r] k]. cbn in Hkc, Hup. subst kc.
  assert (step_recorder s (start_key m, r, k) =
    s <| macro_pointer := base m |> <| macro_id := id_of m |>) as ->.
  { unfold step_recorder, process_dynamic_macro. rewrite run_own. cbn [gets fst snd]. rewrite Hid, Hup.
    by destruct m. }
  pose proof (room_len s m Hok). destruct Hok as [? ? ? ? ?].
  assert (base m = pos m 0) as Hbase by (destruct m; unfold pos, base, dir; lia).
  split; try done.
  - split; try done; [right; by exists m|]. intros m' Hm'.
    change (id_of m = id_of m') in Hm'. assert (m' = m) as -> by by destruct m, m'.
    cbn. rewrite Hbase, slot_pos. change (0 <= 0 <= room m s). lia.
Qed.

Lemma run_while_recording process kc r s k m : macro_id s = id_of m ->
  (process_dynamic_macro process kc r (s, k)).2.1 = (while_recording kc r (s, k)).2.1.
Proof.
  intros Hid. unfold process_dynamic_macro. rewrite run_own. cbn [gets fst snd]. rewrite Hid.
  by replace (id_of m =? 0) with false by by destruct m.
Qed.

Lemma record_ordinary m rs others cap s (e : typed) : recording m rs others cap s -> ordinary e ->
  recording m (if dynamic_macro_valid_key_user e.1.1 e.1.2 then record_step cap rs e.1.2 else rs)
    others cap (step_recorder s e).
Proof.
  intros Hrec [Hk Hp]. destruct e as [[kc r] k]. cbn in Hk, Hp |- *.
  unfold step_recorder. cbn [fst snd].
  pose proof (rec_id _ _ _ _ _ Hrec) as Hid. rewrite (run_while_recording _ _ _ _ _ m) by done.
  unfold while_recording. fold (is_recorder_key kc). fold (is_play_key kc). rewrite Hk, Hp.
  rewrite run_own. cbn [gets fst snd]. rewrite Hid.
  pose proof (record_key_recording m r rs others cap s k Hrec) as Hnext.
  destruct (dynamic_macro_valid_key_user kc r); cbn [when]; [|done].
  by destruct m.
Qed.

Lemma record_session m others cap es : forall rs s,
  recording m rs others cap s -> Forall ordinary es ->
  recording m (foldl (record_step cap) rs (valid_records es)) others cap (foldl step_recorder s es).
Proof.
  induction es as [|e es IH]; intros rs s Hrec Hes; [done|]. apply Forall_cons in Hes as [He Hes].
  cbn [foldl]. pose proof (record_ordinary m rs others cap s e Hrec He) as Hnext.
  unfold valid_records. rewrite filter_cons.
  destruct (dynamic_macro_valid_key_user e.1.1 e.1.2); case_decide; try done; by apply IH.
Qed.

(** C22: Starting a macro, typing, stopping: the macro then holds what was typed,
    from the first press on, as far as the other macro leaves room, without the
    presses at its end; the other macro is untouched, and the two stay apart in
    the buffer. *)
Theorem macro_records_what_is_typed m s (start stop : typed) (es : list typed) :
  recorder_ok s -> macro_id s = 0 -> starts m start -> Forall ordinary es -> stops stop ->
  let s' := step_recorder (foldl step_recorder (step_recorder s start) es) stop in
  recorder_ok s' /\ macro_id s' = 0 /\
  contents m s' = recorded (room m s) (valid_records es) /\
  contents (other m) s' = contents (other m) s.
Proof.
  intros Hok Hid Hstart Hes [Hkey Hstop]. cbv zeta.
  pose proof (start_recording m s start Hok Hid Hstart) as Hrec.
  pose proof (record_session m _ _ es _ _ Hrec Hes) as Hses.
  set (s1 := foldl step_recorder _ es) in *. clearbody s1.
  assert (0 <= room m s) by (pose proof (room_len s m Hok); lia).
  rewrite record_steps in Hses by done.
  destruct stop as [[kc r] k]. cbn in Hkey, Hstop.
  assert (step_recorder s1 (kc, r, k) = (dynamic_macro_stop_recording (s1, k)).2.1) as ->.
  { unfold step_recorder. cbn [fst snd].
    rewrite (run_while_recording _ _ _ _ _ m) by apply Hses.
    unfold while_recording. fold (is_recorder_key kc). rewrite Hkey, Hstop. done. }
  by apply (stop_recording _ _ _ _ _ k) in Hses.
Qed.
End spec.
