(* ===== verification/MacroPlay.v ===== *)
(** * Playing a recorded macro

    Playing a macro whose records play and record no macro ends, and processes
    them in the order in which they were recorded; each slot then holds what
    [process_record] made of its record.  Whatever a macro plays or records,
    only its own slots are processed and the two macros stay apart. *)

From S2P Require Import Prelude.
From S2P Require Import Keycodes.
From S2P Require Import State.
From S2P Require Import ActionUtil.
From S2P Require Import ActionLayer.
From S2P Require Import Action.
From S2P Require Import Feature.
From S2P Require Import MacroRecorder.

Section play.
Context `{!Config} `{!Hooks} `{!MacroConfig}.
Implicit Types (m : macro) (s : recorder) (k : keyboard) (i j : Z) (r : keyrecord_t).
Abbreviation SIZE := DYNAMIC_MACRO_SIZE.

(** The specification: the records one after the other, and what they became. *)
Definition pause : stm keyboard unit :=
  match DYNAMIC_MACRO_DELAY with Some ms => emit (WaitMs ms) | None => skip end.
Definition plain_record r : stm keyboard keyrecord_t :=
  if IS_NOEVENT (event r) then mret r else get_record_keycode r true;; process_record 2 r.
Fixpoint replay (rs : list keyrecord_t) : stm keyboard (list keyrecord_t) :=
  match rs with
  | [] => mret []
  | r :: rs => r' ← plain_record r; pause;; rs' ← replay rs; mret (r' :: rs')
  end.

(** No record of [rs], played from [k] on, plays a macro or starts one. *)
Definition is_macro_key (kc : Z) : bool :=
  (kc =? QK_DYNAMIC_MACRO_RECORD_START_1) || (kc =? QK_DYNAMIC_MACRO_RECORD_START_2) || is_play_key kc.
Fixpoint quiet (rs : list keyrecord_t) k : bool :=
  match rs with
  | [] => true
  | r :: rs =>
      negb (IS_NOEVENT (event r)) &&
      (pressed (event r) || negb (is_macro_key (eval (get_record_keycode r true) k))) &&
      quiet rs (exec (plain_record r;; pause) k)
  end.

(** A playback starts and ends with everything released; the layers are
    those before it. *)
Definition play_spec m (rs : list keyrecord_t) : stm keyboard (list keyrecord_t) :=
  saved ← get_layer_state;
  clear_keyboard;;
  layer_clear;;
  rs' ← replay rs;
  clear_keyboard;;
  layer_state_set saved;;
  dynamic_macro_play_user (dir m);;
  mret rs'.

Lemma length_replay rs : forall k, length (replay rs k).1 = length rs.
Proof.
  induction rs as [|r rs IH]; intros k; [done|].
  cbn [replay]. rewrite (run_eval (plain_record r)), (run_eval pause), (run_eval (replay rs)).
  apply (f_equal S), IH.
Qed.

(** The slots from [j] on replaced by [rs]. *)
Fixpoint put_slots m j (rs : list keyrecord_t) s : recorder :=
  match rs with
  | [] => s
  | r :: rs => put_slots m (j + 1) rs (store_at (pos m j) r s)
  end.

Lemma same_but_buffer_trans s1 s2 s3 :
  same_but_buffer s1 s2 -> same_but_buffer s2 s3 -> same_but_buffer s1 s3.
Proof. intros (?&?&?&?&?) (?&?&?&?&?). split_and!; congruence. Qed.

Lemma put_slots_same m rs : forall j s, same_but_buffer s (put_slots m j rs s).
Proof.
  induction rs as [|r rs IH]; intros j s; [by split_and!|].
  eapply same_but_buffer_trans; [apply (store_at_same (pos m j) r)|apply IH].
Qed.

Lemma slot_put_slots m rs : forall j s i, Z.of_nat (length (macro_buffer s)) = SIZE ->
  0 <= j -> j + Z.of_nat (length rs) <= SIZE -> 0 <= i < SIZE ->
  slot_at (pos m i) (put_slots m j rs s) =
  if (j <=? i) && (i <? j + Z.of_nat (length rs)) then default record_0 (rs !! Z.to_nat (i - j))
  else slot_at (pos m i) s.
Proof.
  induction rs as [|r rs IH]; intros j s i Hlen Hj Hfit Hi; cbn [put_slots length] in *.
  - repeat zcase; cbn; (done || lia).
  - rewrite IH by (try (rewrite (proj2 (proj2 (proj2 (proj2 (store_at_same _ _ _)))))); lia).
    rewrite slot_at_store by lia.
    destruct (Z.eqb_spec i j) as [->|Hne].
    + repeat zcase; try lia; cbn [andb]; by rewrite Z.sub_diag.
    + repeat zcase; try lia; cbn [andb]; try done.
      replace (Z.to_nat (i - j)) with (S (Z.to_nat (i - (j + 1)))) by lia. done.
Qed.

Lemma slots_put_slots m s rs j n : Z.of_nat (length (macro_buffer s)) = SIZE ->
  0 <= j -> n = length rs -> j + Z.of_nat n <= SIZE -> slots m (put_slots m j rs s) j n = rs.
Proof.
  intros Hlen Hj -> Hfit. apply list_eq. intros i. unfold slots. rewrite list_lookup_fmap.
  destruct (decide (i < length rs)%nat) as [Hi|Hi].
  - rewrite lookup_seqZ_lt by lia. cbn. rewrite slot_put_slots by lia.
    destruct (Z.leb_spec j (j + Z.of_nat i)), (Z.ltb_spec (j + Z.of_nat i) (j + Z.of_nat (length rs))); try lia. cbn.
    replace (Z.to_nat (j + Z.of_nat i - j)) with i by lia.
    by destruct (lookup_lt_is_Some_2 rs i Hi) as [x ->].
  - rewrite lookup_seqZ_ge by lia. by rewrite lookup_ge_None_2 by lia.
Qed.

(** One slot. *)
Lemma run_recorded fuel r s k p :
  macro_id s = 0 -> slot_at p s = r -> IS_NOEVENT (event r) = false ->
  pressed (event r) || negb (is_macro_key (eval (get_record_keycode r true) k)) = true ->
  process_recorded (S fuel) p (s, k) =
    (true, (store_at p (plain_record r k).1 s, (plain_record r k).2)).
Proof.
  intros Hid Hr He Hq. cbn [process_recorded]. rewrite run_own. cbn [gets fst snd]. rewrite Hr, He.
  unfold plain_record. rewrite He, run_core. cbn [fst snd].
  change ((get_record_keycode r true k).1) with (eval (get_record_keycode r true) k).
  change ((get_record_keycode r true k).2) with (exec (get_record_keycode r true) k).
  set (kc := eval _ k) in *. set (k1 := exec _ k).
  assert (process_dynamic_macro (process_recorded fuel) kc r (s, k1) = (Some true, (s, k1))) as E.
  { unfold process_dynamic_macro. rewrite run_own. cbn [gets fst snd]. rewrite Hid. cbn [Z.eqb].
    destruct (pressed (event r)); [done|]. cbn [orb] in Hq. unfold is_macro_key, is_play_key in Hq.
    apply negb_true_iff in Hq. rewrite !orb_false_iff in Hq. destruct Hq as [[-> ->] [-> ->]]. done. }
  rewrite (run_bind _ _ _ _ _ E). cbv iota. unfold process_record_after. rewrite run_core. cbn [fst snd when].
  rewrite (run_eval (get_record_keycode r true)). reflexivity.
Qed.

(** The loop. *)
Lemma run_play_loop m again n : forall fuel j s k,
  (n <= fuel)%nat -> 0 <= j -> j + Z.of_nat n <= SIZE -> Z.of_nat (length (macro_buffer s)) = SIZE ->
  macro_id s = 0 -> quiet (slots m s j n) k = true ->
  let p := replay (slots m s j n) k in
  play_loop (process_recorded (S again)) fuel (pos m j) (pos m (j + Z.of_nat n)) (dir m) (s, k) =
    (true, (put_slots m j p.1 s, p.2)).
Proof.
  induction n as [|n IH]; intros fuel j s k Hfuel Hj Hfit Hlen Hid Hq; cbv zeta.
  - rewrite Z.add_0_r. destruct fuel; cbn [play_loop]; by rewrite Z.eqb_refl.
  - destruct fuel as [|fuel]; [lia|]. rewrite slots_S in Hq |- *. cbn [play_loop replay quiet] in *.
    apply andb_true_iff in Hq as [[He%negb_true_iff Hq1]%andb_true_iff Hq2].
    destruct (Z.eqb_spec (pos m j) (pos m (j + Z.of_nat (S n)))) as [E%pos_inj|_]; [lia|].
    rewrite (run_bind _ _ _ _ _ (run_recorded again _ s k _ Hid eq_refl He Hq1)). cbn [negb].
    set (r := slot_at (pos m j) s) in *. set (q := plain_record r k) in *.
    rewrite (run_eval (plain_record r)). change (eval (plain_record r) k) with q.1.
    change (exec (plain_record r) k) with q.2.
    set (s1 := store_at (pos m j) q.1 s).
    pose proof (store_at_same (pos m j) q.1 s) as (_ & _ & _ & Hid1 & Hlen1). fold s1 in Hid1, Hlen1.
    assert ((core pause;; play_loop (process_recorded (S again)) fuel (pos m j + dir m) (pos m (j + Z.of_nat (S n))) (dir m)) (s1, q.2)
      = play_loop (process_recorded (S again)) fuel (pos m (j + 1)) (pos m (j + 1 + Z.of_nat n)) (dir m) (s1, (pause q.2).2)) as E.
    { rewrite pos_succ. replace (j + 1 + Z.of_nat n) with (j + Z.of_nat (S n)) by lia. done. }
    etransitivity; [exact E|]. clear E.
    assert (slots m s1 (j + 1) n = slots m s (j + 1) n) as Hslots.
    { apply slots_ext. intros i Hi. subst s1. rewrite slot_at_store by lia. by destruct (Z.eqb_spec i j); [lia|]. }
    rewrite IH by (lia || congruence || (rewrite Hslots; exact Hq2)). rewrite (run_eval pause), (run_eval (replay _)).
    change (exec pause q.2) with (pause q.2).2. by rewrite Hslots.
Qed.

(** Playing a macro whose records play and start no macro ends, does to the
    keyboard what its records do one after the other, and leaves every slot
    with what became of its record; the other macro stays as it was. *)
Theorem macro_plays_its_records m fuel s k :
  recorder_ok s -> macro_id s = 0 ->
  quiet (contents m s) (exec (clear_keyboard;; layer_clear) k) = true ->
  let p := play_spec m (contents m s) k in
  exists s', dynamic_macro_play (process_recorded (S fuel)) (base m) (end_of m s) (dir m) (s, k) = (true, (s', p.2)) /\
    recorder_ok s' /\ contents m s' = p.1 /\ contents (other m) s' = contents (other m) s.
Proof.
  intros Hok Hid Hquiet. cbv zeta. pose proof (room_len s m Hok) as Hroom. pose proof (ok_buffer s Hok) as Hlen.
  set (k1 := exec (clear_keyboard;; layer_clear) k) in *.
  set (p := replay (contents m s) k1).
  assert (play_spec m (contents m s) k = (p.1, exec (clear_keyboard;; layer_state_set (layer_state (layers k));;
     dynamic_macro_play_user (dir m)) p.2)) as -> by done.
  cbn [fst snd]. exists (put_slots m 0 p.1 s). pose proof (put_slots_same m p.1 0 s) as Hsame.
  assert (length p.1 = Z.to_nat (len m s)) as Hp.
  { subst p. rewrite length_replay. unfold contents, slots. rewrite length_fmap, length_seqZ. lia. }
  split_and!.
  - unfold dynamic_macro_play. rewrite run_core, run_core, run_core. cbn [fst snd get_layer_state gets].
    change ((layer_clear _).2) with k1.
    pose proof (run_play_loop m fuel (Z.to_nat (len m s)) (Z.to_nat SIZE) 0 s k1 ltac:(lia) ltac:(lia) ltac:(lia) Hlen
      Hid Hquiet) as Hloop.
    cbv zeta in Hloop. fold (contents m s) in Hloop. fold p in Hloop.
    assert (pos m 0 = base m) as E1 by (destruct m; unfold pos, base, dir; lia).
    assert (pos m (0 + Z.of_nat (Z.to_nat (len m s))) = end_of m s) as E2.
    { rewrite <-(pos_slot m (end_of m s)). f_equal. unfold len in *. lia. }
    rewrite E1, E2 in Hloop. rewrite (run_bind _ _ _ _ _ Hloop). done.
  - by apply (same_ok s).
  - unfold contents. rewrite (same_len _ _ _ Hsame). apply slots_put_slots; lia.
  - unfold contents. rewrite (same_len _ _ _ Hsame). apply slots_ext. intros i Hi.
    rewrite !pos_other. pose proof (ok_len s Hok (other m)). unfold room in *.
    rewrite slot_put_slots by lia.
    destruct (Z.leb_spec 0 (SIZE - 1 - i)), (Z.ltb_spec (SIZE - 1 - i) (0 + Z.of_nat (length p.1))); done || lia.
Qed.

(** ** The invariant *)

Lemma is_recording m s : recorder_ok s -> macro_id s = id_of m ->
  recording m (slots m s 0 (Z.to_nat (slot_of m (macro_pointer s)))) (contents (other m) s) (room m s) s.
Proof.
  intros Hok Hid. pose proof (ok_pointer s Hok m Hid) as Hp.
  assert (length (slots m s 0 (Z.to_nat (slot_of m (macro_pointer s)))) = Z.to_nat (slot_of m (macro_pointer s))) as Hl.
  { unfold slots. rewrite length_fmap, length_seqZ. lia. }
  split; try done; rewrite Hl; [|done].
  rewrite Z2Nat.id by lia. by rewrite pos_slot.
Qed.

Lemma while_recording_ok kc r s k m : recorder_ok s -> macro_id s = id_of m ->
  recorder_ok (while_recording kc r (s, k)).2.1.
Proof.
  intros Hok Hid. pose proof (is_recording m s Hok Hid) as Hrec.
  unfold while_recording. destruct (_ || _).
  - destruct (xorb _ _); [|done]. exact (proj1 (stop_recording m _ _ _ s k Hrec)).
  - destruct (_ && _); [done|]. rewrite run_own. cbn [gets fst snd].
    destruct (dynamic_macro_valid_key_user kc r); [|done]. rewrite Hid.
    destruct (record_key_recording m r _ _ _ s k Hrec) as [Hnext _ _ _ _ _].
    by destruct m.
Qed.

(** *** Computations that keep the invariant *)

Definition keeps {A} (f : stm (recorder * keyboard) A) : Prop :=
  forall s k, recorder_ok s -> recorder_ok (f (s, k)).2.1.

Lemma keeps_bind {A B} (f : stm (recorder * keyboard) A) (g : A -> stm (recorder * keyboard) B) :
  keeps f -> (forall a, keeps (g a)) -> keeps (f ≫= g).
Proof.
  intros Hf Hg s k Hok. rewrite run_eval. unfold exec. specialize (Hf s k Hok).
  destruct (f (s, k)) as [a [s' k']]. by apply Hg.
Qed.
Lemma keeps_core {A} (f : stm keyboard A) : keeps (core f).
Proof. by intros s k Hok. Qed.
Lemma keeps_ret {A} (a : A) : keeps (mret a).
Proof. by intros s k Hok. Qed.
Lemma keeps_read {A} (f : recorder -> A) : keeps (own (gets f)).
Proof. by intros s k Hok. Qed.
Lemma keeps_store p r : keeps (store p r).
Proof. intros s k Hok. exact (same_ok s (store_at p r s) (store_at_same p r s) Hok). Qed.
Lemma keeps_when b (f : stm (recorder * keyboard) unit) : keeps f -> keeps (when b f).
Proof. intros Hf. destruct b; [done|by intros s k]. Qed.
#[local] Hint Resolve keeps_core keeps_ret keeps_read keeps_store keeps_when : keeps.
Ltac keep := repeat (apply keeps_bind; [|intros ?]); auto with keeps.

Lemma keeps_play process start stop direction :
  (forall p, keeps (process p)) -> keeps (dynamic_macro_play process start stop direction).
Proof.
  intros Hp. assert (forall n p, keeps (play_loop process n p stop direction)) as Hloop.
  { induction n as [|n IH]; intros p; cbn [play_loop]; (destruct (p =? stop); [auto with keeps|]); [auto with keeps|].
    apply keeps_bind; [done|]. intros []; cbn [negb]; [|auto with keeps]. keep. }
  unfold dynamic_macro_play. do 3 (apply keeps_bind; [auto with keeps|intros ?]).
  apply keeps_bind; [done|]. intros []; cbn [negb]; keep.
Qed.

Lemma keeps_process_dynamic_macro process kc r :
  (forall p, keeps (process p)) -> keeps (process_dynamic_macro process kc r).
Proof.
  intros Hp s k Hok. unfold process_dynamic_macro. rewrite run_own. cbn [gets fst snd].
  destruct (ok_id s Hok) as [Hid|[m Hid]].
  - rewrite Hid. cbn [Z.eqb]. destruct (pressed (event r)) eqn:Hup; [done|].
    assert (forall m, kc = start_key m -> recorder_ok (step_recorder 0 s (kc, r, k))) as Hstart.
    { intros m ->. destruct (start_recording 0 m s (start_key m, r, k)) as [Hnext _ _ _ _ _]; [done..|by split|done]. }
    unfold step_recorder, process_dynamic_macro in Hstart. cbn [fst snd] in Hstart.
    rewrite run_own in Hstart. cbn [gets fst snd] in Hstart. rewrite Hid, Hup in Hstart. cbn [Z.eqb] in Hstart.
    destruct (Z.eqb_spec kc QK_DYNAMIC_MACRO_RECORD_START_1); [by apply (Hstart Macro1)|].
    destruct (Z.eqb_spec kc QK_DYNAMIC_MACRO_RECORD_START_2); [by apply (Hstart Macro2)|].
    assert (forall start stop d, recorder_ok ((ended ← dynamic_macro_play process start stop d;
      mret (if ended : bool then Some false else None)) (s, k)).2.1) as Hplay.
    { intros start stop d. apply (keeps_bind (dynamic_macro_play process start stop d)); [|auto with keeps|done].
      by apply keeps_play. }
    destruct (kc =? QK_DYNAMIC_MACRO_PLAY_1); [apply Hplay|].
    destruct (kc =? QK_DYNAMIC_MACRO_PLAY_2); [apply Hplay|done].
  - rewrite Hid. replace (id_of m =? 0) with false by by destruct m.
    rewrite run_eval. unfold exec. cbn [mret stm_ret snd fst]. by apply (while_recording_ok _ _ _ _ m).
Qed.
#[local] Hint Resolve keeps_process_dynamic_macro : keeps.

Lemma keeps_after passed r : keeps (process_record_after passed r).
Proof. unfold process_record_after. destruct passed; [auto with keeps|]. keep.
Qed.
#[local] Hint Resolve keeps_after : keeps.

Lemma keeps_recorded fuel : forall p, keeps (process_recorded fuel p).
Proof.
  induction fuel as [|fuel IH]; intros p; cbn [process_recorded]; [auto with keeps|].
  apply keeps_bind; [auto with keeps|]. intros r. destruct (IS_NOEVENT (event r)); [auto with keeps|].
  apply keeps_bind; [auto with keeps|]. intros kc. apply keeps_bind; [auto with keeps|].
  intros [passed|]; keep.
Qed.

Lemma keeps_record fuel r : keeps (process_record_recording fuel r).
Proof.
  unfold process_record_recording. destruct (IS_NOEVENT (event r)); [auto with keeps|].
  apply keeps_bind; [auto with keeps|]. intros kc. apply keeps_bind; [auto using keeps_recorded with keeps|].
  intros [passed|]; keep.
Qed.

(** A playback processes slots of its own macro only. *)
Lemma play_own_slots process process' m n : forall fuel j x,
  0 <= j -> j + Z.of_nat n <= SIZE ->
  (forall i x, j <= i < j + Z.of_nat n -> process (pos m i) x = process' (pos m i) x) ->
  play_loop process fuel (pos m j) (pos m (j + Z.of_nat n)) (dir m) x =
  play_loop process' fuel (pos m j) (pos m (j + Z.of_nat n)) (dir m) x.
Proof.
  induction n as [|n IH]; intros fuel j x Hj Hfit Hsame.
  - rewrite Z.add_0_r. destruct fuel; cbn [play_loop]; by rewrite Z.eqb_refl.
  - destruct fuel as [|fuel]; cbn [play_loop]; [done|]. case_match; [done|].
    rewrite !run_eval. unfold eval, exec. rewrite <-Hsame by lia.
    destruct (process (pos m j) x) as [[] x']; cbn [fst snd negb]; [|done].
    rewrite !run_eval, pos_succ. replace (j + Z.of_nat (S n)) with (j + 1 + Z.of_nat n) by lia.
    apply IH; [lia|lia|]. intros i y Hi. apply Hsame. lia.
Qed.

(** C26: Whatever events arrive, and whatever the macros that are played record
    or play themselves, even without end, the two macros do not overlap in
    their buffer, the pointer of the recording stays in the room that the other
    macro leaves, and a playback processes only slots of the macro played. *)
Theorem recorder_invariant fuel (rs : list keyrecord_t) s k :
  recorder_ok s ->
  let s' := (foldl (fun x r => (process_record_recording fuel r x).2) (s, k) rs).1 in
  recorder_ok s' /\
  forall m process process' k,
    (forall i x, 0 <= i < len m s' -> process (pos m i) x = process' (pos m i) x) ->
    dynamic_macro_play process (base m) (end_of m s') (dir m) (s', k) =
    dynamic_macro_play process' (base m) (end_of m s') (dir m) (s', k).
Proof.
  intros Hok s'. assert (recorder_ok s') as Hok'.
  { subst s'. revert s k Hok. induction rs as [|r rs IH]; intros s k Hok; [done|]. cbn [foldl].
    pose proof (keeps_record fuel r s k Hok) as Hnext.
    destruct (process_record_recording fuel r (s, k)).2 as [s1 k1]. by apply IH. }
  split; [done|]. clearbody s'. clear Hok s k. intros m process process' k Hsame.
  pose proof (room_len s' m Hok') as Hroom.
  assert (base m = pos m 0) as -> by (destruct m; unfold pos, base, dir; lia).
  assert (end_of m s' = pos m (0 + Z.of_nat (Z.to_nat (len m s')))) as ->.
  { rewrite <-(pos_slot m (end_of m s')). f_equal. unfold len in *. lia. }
  unfold dynamic_macro_play. rewrite !run_eval. unfold eval, exec.
  rewrite (play_own_slots process process') by (lia || (intros; apply Hsame; lia)). done.
Qed.
End play.
