(* ===== verification/DeferredExec.v ===== *)
(** * Deferred execution (quantum/deferred_exec.c)

    A table of callbacks with the time at which each is due.  A callback with
    its argument is an element of a type of closures, what the closures do is
    a parameter: they may call back into the table.  [now] is what the 32-bit
    timer reads. *)

From S2P Require Import Prelude.

Definition INVALID_DEFERRED_TOKEN : Z := 0.

(** [(int32_t)TIMER_DIFF_32(a, b)] *)
Definition diff_32 (a b : Z) : Z := i_wrap 32 (u32 (a - b)).

Section deferred.
Context {closure world : Type}.

(** A free entry has no closure. *)
Record deferred_executor_t := {
  token : Z;
  trigger_time : Z;
  callback : option closure;
}.

Record deferred := {
  current_token : Z;
  table : list deferred_executor_t;
  last_execution_time : Z;
  outside : world;
}.

Definition free_entry : deferred_executor_t :=
  {| token := INVALID_DEFERRED_TOKEN; trigger_time := 0; callback := None |}.

Definition deferred_init (n : nat) (w : world) : deferred := {|
  current_token := 0; table := replicate n free_entry; last_execution_time := 0; outside := w;
|}.

Definition token_can_be_used (t : list deferred_executor_t) (tok : Z) : bool :=
  negb (tok =? INVALID_DEFERRED_TOKEN) && forallb (fun e => negb (token e =? tok)) t.

(** The loop of [allocate_token]: the result, and the new [current_token]. *)
Fixpoint search_token (fuel : nat) (t : list deferred_executor_t) (first cur : Z) : Z * Z :=
  if token_can_be_used t cur then (cur, cur) else
  match fuel with
  | O => (INVALID_DEFERRED_TOKEN, cur)
  | S fuel =>
      let cur := u8 (cur + 1) in
      if cur =? first then (INVALID_DEFERRED_TOKEN, cur) else search_token fuel t first cur
  end.

(** A byte has 256 values. *)
Definition allocate_token : stm deferred Z :=
  fun s =>
    let first := u8 (current_token s + 1) in
    let p := search_token 256 (table s) first first in
    (p.1, s <| current_token := p.2 |>).

(** The first entry with a token. *)
Fixpoint find_entry (t : list deferred_executor_t) (tok : Z) : option nat :=
  match t with
  | [] => None
  | e :: t => if token e =? tok then Some O else S <$> find_entry t tok
  end.

Definition put_entry (i : nat) (e : deferred_executor_t) : stm deferred unit :=
  modify (fun s => s <| table := <[i := e]> (table s) |>).

Definition defer_exec_advanced (now delay_ms : Z) (f : option closure) : stm deferred Z :=
  t ← gets table;
  match f with
  | None => mret INVALID_DEFERRED_TOKEN
  | Some f =>
      if (delay_ms =? 0) then mret INVALID_DEFERRED_TOKEN else
      match find_entry t INVALID_DEFERRED_TOKEN with
      | None => mret INVALID_DEFERRED_TOKEN
      | Some i =>
          tok ← allocate_token;
          if tok =? INVALID_DEFERRED_TOKEN then mret INVALID_DEFERRED_TOKEN else
          cur ← gets current_token;
          put_entry i {| token := cur; trigger_time := u32 (now + delay_ms); callback := Some f |};;
          mret cur
      end
  end.

Definition extend_deferred_exec_advanced (now tok delay_ms : Z) : stm deferred bool :=
  t ← gets table;
  if (delay_ms =? 0) || (tok =? INVALID_DEFERRED_TOKEN) then mret false else
  match find_entry t tok with
  | None => mret false
  | Some i =>
      modify (fun s => s <| table :=
        alter (fun e => e <| trigger_time := u32 (now + delay_ms) |>) i (table s) |>);;
      mret true
  end.

Definition cancel_deferred_exec_advanced (tok : Z) : stm deferred bool :=
  t ← gets table;
  if tok =? INVALID_DEFERRED_TOKEN then mret false else
  match find_entry t tok with
  | None => mret false
  | Some i => put_entry i free_entry;; mret true
  end.

(** ** The task *)

Variable invoke : closure -> Z -> stm deferred Z.

Definition is_due (now : Z) (e : deferred_executor_t) : bool :=
  negb (token e =? INVALID_DEFERRED_TOKEN) && (diff_32 (trigger_time e) now <=? 0).

Definition entry_at (i : nat) (s : deferred) : deferred_executor_t := default free_entry (table s !! i).

(** Entry [i] of the table; a due entry always has a callback. *)
Definition run_entry (now : Z) (i : nat) : stm deferred unit :=
  e ← gets (entry_at i);
  if is_due now e then
    match callback e with
    | None => skip
    | Some f =>
        delay ← invoke f (trigger_time e);
        e' ← gets (entry_at i);
        if negb (token e' =? token e) then skip
        else if 0 <? delay
        then put_entry i (e' <| trigger_time := u32 (trigger_time e' + delay) |>)
        else put_entry i free_entry
    end
  else skip.

Fixpoint run_entries (now : Z) (i n : nat) : stm deferred unit :=
  match n with
  | O => skip
  | S n => run_entry now i;; run_entries now (S i) n
  end.

Definition deferred_exec_advanced_task (now : Z) : stm deferred unit :=
  s ← gets (fun s => s);
  when (0 <? diff_32 now (last_execution_time s)) (
    modify (fun s => s <| last_execution_time := now |>);;
    run_entries now 0 (length (table s))).
End deferred.
Arguments deferred_executor_t : clear implicits.
Arguments deferred : clear implicits.

(** ** Deferred execution: a map from tokens to what is due

    The table refines a finite map; the tokens handed out are fresh; a pass
    runs what is due, in the order of the table, and keeps the pace of what
    repeats. *)

Section spec.
Context {closure world : Type}.
Abbreviation entry := (deferred_executor_t closure).
Abbreviation state := (deferred closure world).
Implicit Types (t : list entry) (s : state) (e : entry) (tok : Z).

(** ** The map a table stands for *)

Definition pending t : gmap Z (Z * closure) :=
  list_to_map (omap (fun e =>
    if token e =? INVALID_DEFERRED_TOKEN then None
    else f ← callback e; Some (token e, (trigger_time e, f))) t).

Definition live t : list Z := filter (fun tok => tok <> 0) (token <$> t).

(** Live tokens are bytes and differ; a live entry has a callback. *)
Record table_ok t : Prop := {
  live_distinct : NoDup (live t);
  tokens_bytes : Forall (fun e => is_byte (token e)) t;
  callbacks : Forall (fun e => token e <> 0 -> is_Some (callback e)) t;
}.
Definition deferred_ok s : Prop := table_ok (table s) /\ is_byte (current_token s).

Lemma live_cons e t : live (e :: t) = if token e =? 0 then live t else token e :: live t.
Proof. unfold live. rewrite fmap_cons, filter_cons. destruct (Z.eqb_spec (token e) 0); by case_decide. Qed.

Lemma elem_of_live tok t : tok ∈ live t <-> tok <> 0 /\ exists e, e ∈ t /\ token e = tok.
Proof.
  unfold live. rewrite list_elem_of_filter, list_elem_of_fmap. naive_solver.
Qed.

Lemma pending_lookup t tok e : table_ok t -> e ∈ t -> token e = tok -> tok <> 0 ->
  pending t !! tok = (fun f => (trigger_time e, f)) <$> callback e.
Proof.
  intros [Hd _ Hc]. unfold pending. induction t as [|e0 t IH]; [by intros ?%elem_of_nil|].
  rewrite live_cons in Hd. apply Forall_cons in Hc as [Hc0 Hc]. intros [->|He]%elem_of_cons <- Hn.
  - cbn. unfold INVALID_DEFERRED_TOKEN. destruct (Z.eqb_spec (token e0) 0) as [|Hne]; [done|].
    destruct (Hc0 Hne) as [f ->]. cbn. by rewrite lookup_insert_eq.
  - cbn. unfold INVALID_DEFERRED_TOKEN in *. destruct (Z.eqb_spec (token e0) 0) as [|Hne].
    { by apply IH. }
    apply NoDup_cons in Hd as [Hnin Hd]. destruct (Hc0 Hne) as [f ->]. cbn.
    rewrite lookup_insert_ne; [by apply IH|]. intros E. apply Hnin. rewrite E. apply elem_of_live. eauto.
Qed.

Lemma pending_none t tok : tok <> 0 -> (forall e, e ∈ t -> token e <> tok) -> pending t !! tok = None.
Proof.
  intros Hn. unfold pending. induction t as [|e0 t IH]; intros Ht; [done|]. cbn.
  assert (token e0 <> tok) by (apply Ht; left).
  assert (pending t !! tok = None) as Hp by (apply IH; intros e He; apply Ht; by right).
  destruct (_ =? _); [done|]. destruct (callback e0); [|done]. cbn. by rewrite lookup_insert_ne.
Qed.

Lemma pending_zero t : pending t !! 0 = None.
Proof.
  unfold pending. induction t as [|e0 t IH]; [done|]. cbn. unfold INVALID_DEFERRED_TOKEN in *.
  destruct (Z.eqb_spec (token e0) 0) as [|Hne]; [done|]. destruct (callback e0); [|done]. cbn.
  by rewrite lookup_insert_ne.
Qed.

(** ** Finding entries *)

Lemma find_entry_some t tok i : find_entry t tok = Some i -> exists e, t !! i = Some e /\ token e = tok.
Proof.
  revert i. induction t as [|e t IH]; intros i; [done|]. cbn. destruct (Z.eqb_spec (token e) tok).
  - intros [= <-]. by exists e.
  - intros (j & Hj & ->)%fmap_Some. by apply IH.
Qed.

Lemma find_entry_none t tok : find_entry t tok = None -> forall e, e ∈ t -> token e <> tok.
Proof.
  induction t as [|e t IH]; [intros _ e ?%elem_of_nil; done|]. cbn.
  destruct (Z.eqb_spec (token e) tok); [done|]. intros Hn%fmap_None e' [->|He]%elem_of_cons; [done|].
  by apply IH.
Qed.

(** ** Replacing an entry *)

Lemma live_insert t i e0 e : t !! i = Some e0 -> NoDup (live t) ->
  (token e <> 0 -> forall j e', j <> i -> t !! j = Some e' -> token e' <> token e) ->
  NoDup (live (<[i := e]> t)).
Proof.
  revert i. induction t as [|e1 t IH]; intros i Hi Hd Hf; [done|]. destruct i as [|i].
  - change (<[0%nat := e]> (e1 :: t)) with (e :: t). rewrite live_cons in *. injection Hi as ->. destruct (Z.eqb_spec (token e) 0) as [|Hn].
    + destruct (token e0 =? 0); [done|]. by apply NoDup_cons in Hd as [_ Hd].
    + apply NoDup_cons. split.
      * intros (_ & e' & [j Hj]%list_elem_of_lookup & E)%elem_of_live. by apply (Hf Hn (S j) e').
      * destruct (token e0 =? 0); [done|]. by apply NoDup_cons in Hd as [_ Hd].
  - change (<[S i := e]> (e1 :: t)) with (e1 :: <[i := e]> t). change (t !! i = Some e0) in Hi.
    rewrite live_cons in *. destruct (Z.eqb_spec (token e1) 0) as [|Hn].
    + apply IH; [done|done|]. intros Hne j e' Hj. apply (Hf Hne (S j)). congruence.
    + apply NoDup_cons in Hd as [Hnin Hd]. apply NoDup_cons. split.
      * intros (_ & e' & [j Hj]%list_elem_of_lookup & E)%elem_of_live.
        destruct (decide (j = i)) as [->|Hji].
        -- rewrite list_lookup_insert_eq in Hj by by eapply lookup_lt_Some. injection Hj as <-.
           apply (Hf ltac:(congruence) 0%nat e1); done.
        -- rewrite list_lookup_insert_ne in Hj by done. apply Hnin, elem_of_live. split; [done|].
           exists e'. split; [by apply list_elem_of_lookup_2 in Hj|done].
      * apply IH; [done|done|]. intros Hne j e' Hj. apply (Hf Hne (S j)). congruence.
Qed.

Lemma table_ok_insert t i e0 e : table_ok t -> t !! i = Some e0 ->
  is_byte (token e) -> (token e <> 0 -> is_Some (callback e)) ->
  (token e <> 0 -> forall j e', j <> i -> t !! j = Some e' -> token e' <> token e) ->
  table_ok (<[i := e]> t).
Proof.
  intros [Hd Hb Hc] Hi Hbe Hce Hf. split; [by eapply live_insert|by apply Forall_insert|by apply Forall_insert].
Qed.

(** The entries of two live tokens are apart. *)
Lemma live_unique t i j e e' : NoDup (live t) -> t !! i = Some e -> t !! j = Some e' ->
  token e <> 0 -> token e' = token e -> i = j.
Proof.
  revert i j. induction t as [|e1 t IH]; intros i j Hd Hi Hj Hn E; [done|]. rewrite live_cons in Hd.
  destruct i as [|i], j as [|j]; cbn [lookup list_lookup] in Hi, Hj; [done| | |].
  - injection Hi as ->. destruct (Z.eqb_spec (token e) 0); [done|]. apply NoDup_cons in Hd as [Hnin _].
    destruct Hnin. apply elem_of_live. split; [done|]. exists e'. split; [by apply list_elem_of_lookup_2 in Hj|done].
  - injection Hj as ->. rewrite E in Hd. destruct (Z.eqb_spec (token e) 0); [done|]. apply NoDup_cons in Hd as [Hnin _].
    destruct Hnin. apply elem_of_live. split; [done|]. exists e. split; [by apply list_elem_of_lookup_2 in Hi|done].
  - f_equal. apply (IH i j); try done. destruct (token e1 =? 0); [done|]. by apply NoDup_cons in Hd as [_ Hd].
Qed.

Lemma pending_insert t i e0 e : table_ok t -> t !! i = Some e0 -> table_ok (<[i := e]> t) ->
  pending (<[i := e]> t) =
  match callback e with
  | Some f => if token e =? 0 then delete (token e0) (pending t)
              else <[token e := (trigger_time e, f)]> (delete (token e0) (pending t))
  | None => delete (token e0) (pending t)
  end.
Proof.
  intros Ht Hi Ht'. pose proof (lookup_lt_Some _ _ _ Hi) as Hlt.
  assert ((<[i := e]> t) !! i = Some e) as Hie by by rewrite list_lookup_insert_eq.
  pose proof (Forall_lookup_1 _ _ _ _ (callbacks _ Ht') Hie) as Hcb. cbn in Hcb.
  assert (forall tok, tok <> token e -> pending (<[i := e]> t) !! tok = delete (token e0) (pending t) !! tok) as Hother.
  { intros tok Hne. destruct (decide (tok = 0)) as [->|Hn].
    { rewrite pending_zero. destruct (decide (token e0 = 0)) as [->|]; [by rewrite lookup_delete_eq|].
      by rewrite lookup_delete_ne, pending_zero. }
    destruct (decide (tok = token e0)) as [->|Hne0].
    - rewrite lookup_delete_eq. apply pending_none; [done|]. intros e' [j Hj]%list_elem_of_lookup E.
      destruct (decide (j = i)) as [->|Hji]; [congruence|].
      rewrite list_lookup_insert_ne in Hj by done. apply Hji. symmetry.
      apply (live_unique t i j e0 e'); try done. apply Ht.
    - rewrite lookup_delete_ne by done.
      destruct (find_entry t tok) as [j|] eqn:Hfind.
      + apply find_entry_some in Hfind as (e' & Hj & <-).
        assert (j <> i) by congruence.
        rewrite (pending_lookup t _ e') by (try done; by eapply list_elem_of_lookup_2).
        apply pending_lookup; try done. apply (list_elem_of_lookup_2 _ j). by rewrite list_lookup_insert_ne.
      + rewrite (pending_none t) by (try done; by apply find_entry_none).
        apply pending_none; [done|]. intros e' [j Hj]%list_elem_of_lookup.
        destruct (decide (j = i)) as [->|]; [congruence|]. rewrite list_lookup_insert_ne in Hj by done.
        apply (find_entry_none _ _ Hfind). by eapply list_elem_of_lookup_2. }
  assert (token e <> 0 -> pending (<[i := e]> t) !! token e = (fun f => (trigger_time e, f)) <$> callback e) as Hself.
  { intros Hn. apply pending_lookup; try done. by eapply list_elem_of_lookup_2. }
  apply map_eq. intros tok. destruct (Z.eqb_spec (token e) 0) as [E|Hn].
  - destruct (decide (tok = 0)) as [->|Hn].
    + rewrite pending_zero. assert (delete (token e0) (pending t) !! 0 = None) as Hd.
      { destruct (decide (token e0 = 0)) as [->|]; [by rewrite lookup_delete_eq|].
        by rewrite lookup_delete_ne, pending_zero. }
      by destruct (callback e).
    + rewrite Hother by congruence. by destruct (callback e).
  - destruct (Hcb Hn) as [f E]. rewrite E in *. destruct (decide (tok = token e)) as [->|].
    + by rewrite Hself, lookup_insert_eq.
    + by rewrite Hother, lookup_insert_ne.
Qed.

(** ** Tokens *)

Lemma token_free t tok : token_can_be_used t tok = true <-> tok <> 0 /\ forall e, e ∈ t -> token e <> tok.
Proof.
  unfold token_can_be_used, INVALID_DEFERRED_TOKEN. rewrite andb_true_iff, negb_true_iff, Z.eqb_neq, forallb_forall.
  split; intros [Hn Hf]; (split; [done|]); intros e He.
  - apply list_elem_of_In in He. specialize (Hf e He). by apply negb_true_iff, Z.eqb_neq in Hf.
  - apply list_elem_of_In in He. by apply negb_true_iff, Z.eqb_neq, Hf.
Qed.

Lemma search_token_sound t first fuel : forall cur, is_byte cur ->
  let p := search_token fuel t first cur in
  is_byte p.2 /\ (p.1 <> 0 -> p.2 = p.1 /\ token_can_be_used t p.1 = true).
Proof.
  induction fuel as [|fuel IH]; intros cur Hcur; cbn [search_token];
    destruct (token_can_be_used t cur) eqn:E; try done.
  assert (is_byte (u8 (cur + 1))) by apply is_byte_u8.
  destruct (u8 (cur + 1) =? first); [done|]. by apply IH.
Qed.

Lemma search_token_complete t first x fuel : forall d cur, is_byte cur -> is_byte x ->
  token_can_be_used t x = true -> (x - cur) mod 256 = Z.of_nat d -> (d <= fuel)%nat ->
  (forall k, 1 <= k <= Z.of_nat d -> u8 (cur + k) <> first) ->
  (search_token fuel t first cur).1 <> 0.
Proof.
  induction fuel as [|fuel IH]; intros d cur Hcur Hx Hfree Hd Hfuel Hk; cbn [search_token];
    destruct (token_can_be_used t cur) eqn:E; try by apply token_free in E as [].
  - assert (x = cur) by (unfold is_byte in *; dlia). congruence.
  - destruct d as [|d]; [assert (x = cur) by (unfold is_byte in *; dlia); congruence|].
    destruct (Z.eqb_spec (u8 (cur + 1)) first) as [E1|]; [by destruct (Hk 1 ltac:(lia))|].
    apply (IH d); try done.
    + apply is_byte_u8.
    + unfold wrap, is_byte in *. dlia.
    + lia.
    + intros k Hk'. replace (u8 (u8 (cur + 1) + k)) with (u8 (cur + (k + 1))) by (unfold wrap; dlia).
      apply Hk. lia.
Qed.

Lemma length_live t : (length (live t) <= length t)%nat.
Proof. unfold live. rewrite <-(length_fmap token t). apply length_filter. Qed.

(** A free entry leaves a token free. *)
Lemma some_token_free t i : table_ok t -> find_entry t 0 = Some i -> (length t <= 255)%nat ->
  exists x, is_byte x /\ token_can_be_used t x = true.
Proof.
  intros Ht (e & Hi & He)%find_entry_some Hlen.
  destruct (decide (Forall (fun x => x ∈ live t) (seqZ 1 255))) as [Hall|Hnot].
  - exfalso. assert (seqZ 1 255 ⊆+ live t) as Hsub%submseteq_length.
    { apply NoDup_submseteq; [apply NoDup_seqZ|]. intros x Hx. by apply (proj1 (Forall_forall _ _) Hall). }
    rewrite length_seqZ in Hsub.
    assert (length (live t) < length t)%nat; [|lia].
    clear Hall Hsub Hlen Ht. revert i Hi. induction t as [|e1 t IH]; intros i Hi; [done|].
    rewrite live_cons. pose proof (length_live t) as Hl. destruct i as [|i]; cbn in Hi.
    + injection Hi as ->. rewrite He. cbn. lia.
    + specialize (IH i Hi). destruct (token e1 =? 0); cbn; lia.
  - apply not_Forall_Exists in Hnot; [|apply _]. apply Exists_exists in Hnot as (x & Hx%elem_of_seqZ & Hn).
    exists x. split; [unfold is_byte; lia|]. apply token_free. split; [lia|]. intros e' He' E.
    apply Hn, elem_of_live. split; [lia|eauto].
Qed.

Lemma allocate_token_spec s : deferred_ok s ->
  let p := allocate_token s in
  table p.2 = table s /\ is_byte (current_token p.2) /\
  (p.1 <> 0 -> current_token p.2 = p.1 /\ token_can_be_used (table s) p.1 = true) /\
  (p.1 = 0 -> (255 < length (table s))%nat \/ find_entry (table s) 0 = None).
Proof.
  intros [Ht Hc]. cbv zeta. unfold allocate_token. cbn [fst snd].
  set (first := u8 (current_token s + 1)). assert (is_byte first) as Hf by apply is_byte_u8.
  destruct (search_token_sound (table s) first 256 first Hf) as [Hb Hs]. split_and!; [done|done|done|].
  intros E. destruct (decide (length (table s) <= 255)%nat) as [Hlen|]; [|left; lia]. right.
  destruct (find_entry (table s) 0) as [i|] eqn:Hfind; [|done].
  destruct (some_token_free _ _ Ht Hfind Hlen) as (x & Hx & Hfree).
  exfalso. revert E.
  apply (search_token_complete _ first x 256 (Z.to_nat ((x - first) mod 256))); try done.
  - rewrite Z2Nat.id; [done|]. apply Z.mod_pos_bound. lia.
  - pose proof (Z.mod_pos_bound (x - first) 256). lia.
  - intros k Hk. pose proof (Z.mod_pos_bound (x - first) 256). unfold wrap, is_byte in *. dlia.
Qed.

(** ** The operations on the map *)

Definition has_room s : Prop := find_entry (table s) 0 <> None /\ (length (table s) <= 255)%nat.

Lemma free_is_zero t i e : find_entry t 0 = Some i -> t !! i = Some e -> token e = 0.
Proof. intros (e' & Hi & He)%find_entry_some Hi'. congruence. Qed.

Lemma defer_spec now delay f s : deferred_ok s -> 0 < delay ->
  let p := defer_exec_advanced now delay (Some f) s in
  deferred_ok p.2 /\ (has_room s -> p.1 <> 0) /\
  if p.1 =? 0 then pending (table p.2) = pending (table s)
  else pending (table s) !! p.1 = None /\
       pending (table p.2) = <[p.1 := (u32 (now + delay), f)]> (pending (table s)).
Proof.
  intros Hok Hd. cbv zeta. unfold defer_exec_advanced. rewrite run_gets.
  destruct (Z.eqb_spec delay 0); [lia|]. unfold INVALID_DEFERRED_TOKEN.
  destruct (find_entry (table s) 0) as [i|] eqn:Hfind; cbn [fst snd mret stm_ret Z.eqb]; [|by split_and!; [done|intros [? _]|done]].
  rewrite run_eval. destruct (allocate_token_spec s Hok) as (Htab & Hcur & Hsome & Hnone).
  set (tok := eval allocate_token s). set (s1 := exec allocate_token s).
  change ((allocate_token s).1) with tok in *. change ((allocate_token s).2) with s1 in *. clearbody tok s1.
  destruct (Z.eqb_spec tok 0) as [E|Hn]; cbn [fst snd mret stm_ret Z.eqb].
  - rewrite Htab. split_and!; [by split; rewrite ?Htab; [apply Hok|]| |done].
    intros [_ Hlen]. destruct (Hnone E); [lia|congruence].
  - rewrite run_gets. destruct (Hsome Hn) as [Ecur [_ Hfresh]%token_free].
    change ((put_entry i ?e;; mret ?c) s1) with (c, s1 <| table := <[i := e]> (table s1) |>). cbn [fst snd].
    rewrite Ecur, Htab. set (e := {| token := tok; trigger_time := _; callback := _ |}).
    pose proof Hfind as (e0 & Hi & He0)%find_entry_some. destruct Hok as [Ht Hc].
    assert (table_ok (<[i := e]> (table s))) as Ht'.
    { apply (table_ok_insert _ i e0); try done; [change (is_byte tok); by rewrite <-Ecur|].
      intros _ j e' _ Hj. apply Hfresh. by eapply list_elem_of_lookup_2. }
    destruct (Z.eqb_spec tok 0) as [|_]; [done|]. split; [by split|]. split; [done|]. split.
    + by apply pending_none.
    + change (table (?x <| table := ?y |>)) with y. rewrite (pending_insert _ i e0) by done.
      subst e. cbn [callback token trigger_time]. destruct (Z.eqb_spec tok 0); [done|]. f_equal. rewrite He0. apply delete_id, pending_zero.
Qed.

Lemma find_is_some t tok : table_ok t -> tok <> 0 ->
  match find_entry t tok with
  | Some i => exists e f, t !! i = Some e /\ token e = tok /\ callback e = Some f /\
      pending t !! tok = Some (trigger_time e, f)
  | None => pending t !! tok = None
  end.
Proof.
  intros Ht Hn. destruct (find_entry t tok) as [i|] eqn:E.
  - apply find_entry_some in E as (e & Hi & He). exists e.
    pose proof (Forall_lookup_1 _ _ _ _ (callbacks _ Ht) Hi) as Hcb. cbn in Hcb.
    destruct Hcb as [f Hf]; [congruence|]. exists f. split_and!; try done.
    rewrite (pending_lookup t tok e); [by rewrite Hf|done|by eapply list_elem_of_lookup_2|done|done].
  - apply pending_none; [done|]. by apply find_entry_none.
Qed.

Lemma extend_spec now tok delay s : deferred_ok s -> 0 < delay -> tok <> 0 ->
  let p := extend_deferred_exec_advanced now tok delay s in
  deferred_ok p.2 /\ (p.1 = true <-> is_Some (pending (table s) !! tok)) /\
  pending (table p.2) = alter (fun q => (u32 (now + delay), q.2)) tok (pending (table s)).
Proof.
  intros Hok Hd Hn. cbv zeta. unfold extend_deferred_exec_advanced. rewrite run_gets.
  unfold INVALID_DEFERRED_TOKEN. destruct (Z.eqb_spec delay 0), (Z.eqb_spec tok 0); try lia. cbn [orb].
  destruct Hok as [Ht Hc]. pose proof (find_is_some _ tok Ht Hn) as Hfind.
  destruct (find_entry (table s) tok) as [i|].
  - destruct Hfind as (e & f & Hi & He & Hf & Hp).
    change ((modify ?g;; mret true) s) with (true, g s). cbn [fst snd].
    set (e' := e <| trigger_time := u32 (now + delay) |>).
    assert (alter (fun e => e <| trigger_time := u32 (now + delay) |>) i (table s) = <[i := e']> (table s)) as Ealter.
    { apply list_eq. intros j. destruct (decide (j = i)) as [->|].
      - rewrite list_lookup_alter_eq, Hi, list_lookup_insert_eq by by eapply lookup_lt_Some. done.
      - by rewrite list_lookup_alter_ne, list_lookup_insert_ne. }
    change (table (?x <| table := ?y |>)) with y. rewrite Hp, Ealter.
    assert (table_ok (<[i := e']> (table s))) as Ht'.
    { apply (table_ok_insert _ i e); try done.
      - apply (Forall_lookup_1 _ _ _ _ (tokens_bytes _ Ht) Hi).
      - intros _ j e1 Hji Hj E1. apply Hji. symmetry.
        apply (live_unique (table s) i j e e1); try done; [apply Ht|congruence]. }
    split; [by split|]. split; [by split; [eauto|]|].
    assert (callback e' = Some f /\ token e' = tok /\ trigger_time e' = u32 (now + delay)) as (F1 & F2 & F3).
    { by split_and!. }
    rewrite (pending_insert _ i e e') by done. rewrite F1, F2, F3, He. destruct (Z.eqb_spec tok 0); [done|].
    apply map_eq. intros x. destruct (decide (x = tok)) as [->|].
    + by rewrite lookup_insert_eq, lookup_alter_eq, Hp.
    + by rewrite lookup_insert_ne, lookup_delete_ne, lookup_alter_ne.
  - cbn [fst snd mret stm_ret]. rewrite Hfind. split; [done|]. split.
    + split; [done|]. by intros [? ?].
    + apply map_eq. intros x. destruct (decide (x = tok)) as [->|].
      * by rewrite lookup_alter_eq, Hfind.
      * by rewrite lookup_alter_ne.
Qed.

Lemma cancel_spec tok s : deferred_ok s -> tok <> 0 ->
  let p := cancel_deferred_exec_advanced tok s in
  deferred_ok p.2 /\ (p.1 = true <-> is_Some (pending (table s) !! tok)) /\
  pending (table p.2) = delete tok (pending (table s)).
Proof.
  intros Hok Hn. cbv zeta. unfold cancel_deferred_exec_advanced. rewrite run_gets.
  unfold INVALID_DEFERRED_TOKEN. destruct (Z.eqb_spec tok 0); [done|].
  destruct Hok as [Ht Hc]. pose proof (find_is_some _ tok Ht Hn) as Hfind.
  destruct (find_entry (table s) tok) as [i|].
  - destruct Hfind as (e & f & Hi & He & Hf & Hp).
    change ((put_entry i ?e;; mret true) s) with (true, s <| table := <[i := e]> (table s) |>). cbn [fst snd].
    assert (table_ok (<[i := free_entry]> (table s))) as Ht' by by apply (table_ok_insert _ i e).
    change (table (?x <| table := ?y |>)) with y. rewrite Hp. split; [by split|]. split; [by split; [eauto|]|].
    rewrite (pending_insert _ i e) by done. by rewrite He.
  - cbn [fst snd mret stm_ret]. rewrite Hfind. split; [done|]. split; [split; [done|by intros [? ?]]|].
    by rewrite delete_id.
Qed.

(** The table refines a finite map: a deferral gets a fresh token whenever
    an entry is free (in a table of at most 255), extending and cancelling
    change exactly the entry of their token and report whether there was one,
    and the live tokens stay distinct. *)
Theorem deferred_refines_map s : deferred_ok s ->
  (forall now delay f, 0 < delay ->
     let p := defer_exec_advanced now delay (Some f) s in
     deferred_ok p.2 /\ (has_room s -> p.1 <> 0) /\
     if p.1 =? 0 then pending (table p.2) = pending (table s)
     else pending (table s) !! p.1 = None /\
          pending (table p.2) = <[p.1 := (u32 (now + delay), f)]> (pending (table s))) /\
  (forall now tok delay, 0 < delay -> tok <> 0 ->
     let p := extend_deferred_exec_advanced now tok delay s in
     deferred_ok p.2 /\ (p.1 = true <-> is_Some (pending (table s) !! tok)) /\
     pending (table p.2) = alter (fun q => (u32 (now + delay), q.2)) tok (pending (table s))) /\
  (forall tok, tok <> 0 ->
     let p := cancel_deferred_exec_advanced tok s in
     deferred_ok p.2 /\ (p.1 = true <-> is_Some (pending (table s) !! tok)) /\
     pending (table p.2) = delete tok (pending (table s))).
Proof.
  intros Hok. split; [|split]; intros *; [by apply defer_spec|by apply extend_spec|by apply cancel_spec].
Qed.
End spec.

(** ** A pass *)

Section pass.
Context {closure world : Type}.
Abbreviation entry := (deferred_executor_t closure).
Abbreviation state := (deferred closure world).
Implicit Types (s : state) (e : entry).

(** Closures that leave the table alone. *)
Variable call : closure -> Z -> stm world Z.
Definition outside_only (f : closure) (trig : Z) : stm state Z :=
  fun s => let r := call f trig (outside s) in (r.1, s <| outside := r.2 |>).

(** What becomes of an entry, and the call made for it. *)
Definition pass_entry (now : Z) e : stm world entry :=
  if is_due now e then
    match callback e with
    | None => mret e
    | Some f =>
        delay ← call f (trigger_time e);
        mret (if 0 <? delay then e <| trigger_time := u32 (trigger_time e + delay) |> else free_entry)
    end
  else mret e.
Fixpoint pass (now : Z) (t : list entry) : stm world (list entry) :=
  match t with
  | [] => mret []
  | e :: t => e' ← pass_entry now e; t' ← pass now t; mret (e' :: t')
  end.

Lemma length_pass now t : forall w, length (pass now t w).1 = length t.
Proof.
  induction t as [|e t IH]; intros w; [done|]. cbn [pass]. rewrite (run_eval (pass_entry now e)), (run_eval (pass now t)).
  apply (f_equal S), IH.
Qed.

Lemma run_entry_pass now i e s : table s !! i = Some e ->
  run_entry outside_only now i s =
  let r := pass_entry now e (outside s) in (tt, s <| table := <[i := r.1]> (table s) |> <| outside := r.2 |>).
Proof.
  intros Hi. destruct s as [c t l w]. cbn in Hi. unfold run_entry, pass_entry. rewrite run_gets.
  assert (forall w' : world, entry_at i {| current_token := c; table := t; last_execution_time := l; outside := w' |} = e)
    as He by (intros w'; unfold entry_at; cbn; by rewrite Hi).
  rewrite He. cbn [table outside].
  destruct (is_due now e); [|cbn; by rewrite list_insert_id].
  destruct (callback e) as [f|]; [|cbn; by rewrite list_insert_id].
  rewrite run_eval, run_gets. cbv zeta. rewrite (run_eval (call f (trigger_time e))).
  unfold eval, exec, outside_only. cbn [fst snd outside]. set (r := call f (trigger_time e) w).
  change (?x <| outside := r.2 |>) with {| current_token := c; table := t; last_execution_time := l; outside := r.2 |}.
  rewrite He. rewrite Z.eqb_refl. by destruct (0 <? r.1).
Qed.

Lemma run_entries_pass now n : forall i s, (i + n = length (table s))%nat ->
  run_entries outside_only now i n s =
  let r := pass now (drop i (table s)) (outside s) in
  (tt, s <| table := take i (table s) ++ r.1 |> <| outside := r.2 |>).
Proof.
  induction n as [|n IH]; intros i s Hlen; cbn [run_entries].
  - rewrite drop_ge, take_ge by lia. cbn. rewrite app_nil_r. by destruct s.
  - destruct (lookup_lt_is_Some_2 (table s) i) as [e Hi]; [lia|].
    rewrite (run_eval (run_entry outside_only now i)). unfold exec. rewrite (run_entry_pass _ _ e) by done.
    destruct s as [c t l w]. cbv zeta. cbn [table outside] in *. cbn [fst snd].
    set (r := pass_entry now e w).
    change (?x <| table := ?a |> <| outside := ?b |>) with
      {| current_token := c; table := a; last_execution_time := l; outside := b |}.
    rewrite IH by (cbn [table]; rewrite length_insert; lia). cbv zeta. cbn [table outside].
    rewrite (drop_S t e i) by done. cbn [pass].
    rewrite (run_eval (pass_entry now e)), (run_eval (pass now _)). unfold eval, exec. fold r. cbn [fst snd mret stm_ret].
    rewrite drop_insert_lt by lia.
    assert (take (S i) (<[i := r.1]> t) = take i t ++ [r.1]) as ->; [|by rewrite <-app_assoc].
    by rewrite (take_S_r _ i r.1), take_insert_ge by (lia || by rewrite list_lookup_insert_eq by lia).
Qed.

(** A pass, run at most once per millisecond, calls exactly the entries that
    are due, in the order of the table; what repeats is due again its delay
    after the time it was due, not after the time it ran, and what does not
    is freed. *)
Theorem task_runs_what_is_due now s :
  exec (deferred_exec_advanced_task outside_only now) s =
  if 0 <? diff_32 now (last_execution_time s) then
    let r := pass now (table s) (outside s) in
    s <| last_execution_time := now |> <| table := r.1 |> <| outside := r.2 |>
  else s.
Proof.
  unfold deferred_exec_advanced_task. rewrite exec_bind. unfold when.
  change (eval (gets (fun s => s)) s) with s. change (exec (gets (fun s => s)) s) with s.
  destruct (0 <? diff_32 now (last_execution_time s)); [|done]. rewrite exec_bind. unfold exec.
  rewrite run_entries_pass by done. cbn. by destruct s.
Qed.
End pass.

(** ** A concrete table *)

(** Three entries; closure [n] counts its calls and repeats every [n]
    milliseconds, 0 once. *)
Definition sample_call (f : nat) (trig : Z) : stm (list (nat * Z)) Z :=
  fun w => (Z.of_nat f, w ++ [(f, trig)]).
Definition sample_deferred : deferred nat (list (nat * Z)) := deferred_init 3 [].
Definition sample_pending : deferred nat (list (nat * Z)) :=
  (defer_exec_advanced 0 5 (Some 10%nat) (defer_exec_advanced 0 7 (Some 0%nat) sample_deferred).2).2.

Lemma sample_deferred_ok : deferred_ok sample_deferred.
Proof.
  split; [|vm_compute; done]. split; [apply NoDup_nil_2| |]; repeat (apply Forall_cons_2; [done|]); apply Forall_nil_2.
Defined.

Lemma deferred_refines_map_witness :
  let p := defer_exec_advanced 0 5 (Some 10%nat) sample_deferred in
  deferred_ok sample_deferred /\
  (deferred_ok p.2 /\ (has_room sample_deferred -> p.1 <> 0) /\
   if p.1 =? 0 then pending (table p.2) = pending (table sample_deferred)
   else pending (table sample_deferred) !! p.1 = None /\
        pending (table p.2) = <[p.1 := (u32 (0 + 5), 10%nat)]> (pending (table sample_deferred))).
Proof.
  split; [exact sample_deferred_ok|].
  destruct (deferred_refines_map sample_deferred sample_deferred_ok) as (Hd & _ & _).
  exact (Hd 0 5 10%nat eq_refl).
Defined.

(** Two passes late: the repeating one is called for 5 and then for 15. *)
Example sample_passes :
  outside (exec (deferred_exec_advanced_task (outside_only sample_call) 16)
    (exec (deferred_exec_advanced_task (outside_only sample_call) 9) sample_pending)) =
  [(0%nat, 7); (10%nat, 5); (10%nat, 15)].
Proof. by vm_compute. Qed.
