(* ===== verification/Encoder.v ===== *)
(** * Rotary encoders (quantum/encoder.c, drivers/encoder/encoder_quadrature.c)

    The quadrature driver turns the changes of two contacts per encoder into
    events, which wait in a ring until the task gives them to the core.  What
    the contacts read is a parameter. *)

From S2P Require Import Prelude.
From S2P Require Import Keycodes.
From S2P Require Import State.
From S2P Require Import Action.
From S2P Require Import Tapping.
From S2P Require Import Feature.

Class EncoderConfig := {
  MAX_QUEUED_ENCODER_EVENTS : Z;
  ENCODER_MAP_KEY_DELAY : Z;
  SPLIT_KEYBOARD : bool;
  ENCODER_DEFAULT_PIN_API_IMPL : bool;
  NUM_ENCODERS_LEFT : Z;
  NUM_ENCODERS_RIGHT : Z;
  encoder_resolutions : Z -> Z;
  ENCODER_DEFAULT_POS : option Z;
  ENCODER_CLOCKWISE : bool;            (* false with ENCODER_DIRECTION_FLIP *)
  encoder_update_user : Z -> bool -> stm keyboard bool;
}.

Record encoder_event_t := { index : Z; clockwise : bool }.

Record encoder_events_t := {
  enqueued : Z;
  dequeued : Z;
  head : Z;
  tail : Z;
  queue : list encoder_event_t;
}.

(** The static variables of both files. *)
Record encoder := {
  encoder_events : encoder_events_t;
  signal_queue_drain : bool;
  encoder_state : list Z;
  encoder_pulses : list Z;
  thisHand : Z;
  thisCount : Z;
}.

Section encoder.
Context `{!Config} `{!Hooks} `{!EncoderConfig}.

Definition no_events : encoder_events_t := {|
  enqueued := 0; dequeued := 0; head := 0; tail := 0;
  queue := replicate (Z.to_nat MAX_QUEUED_ENCODER_EVENTS) {| index := 0; clockwise := false |};
|}.

Definition encoder_at_start : encoder := {|
  encoder_events := no_events; signal_queue_drain := false;
  encoder_state := replicate (Z.to_nat NUM_ENCODERS) 0;
  encoder_pulses := replicate (Z.to_nat NUM_ENCODERS) 0;
  thisHand := 0; thisCount := 0;
|}.

(** ** The queue *)

Definition encoder_queue_full_advanced (events : encoder_events_t) : bool :=
  tail events =? (head events + 1) mod MAX_QUEUED_ENCODER_EVENTS.
Definition encoder_queue_empty_advanced (events : encoder_events_t) : bool :=
  head events =? tail events.

(** The member [index] has 7 bits. *)
Definition encoder_queue_event_advanced (i : Z) (cw : bool) : stm encoder_events_t bool :=
  events ← gets (fun events => events);
  if encoder_queue_full_advanced events then mret false else
  modify (fun q => q <| queue := <[Z.to_nat (head q) := {| index := wrap 7 i; clockwise := cw |}]> (queue q) |>);;
  modify (fun q => q <| head := u8 ((head q + 1) mod MAX_QUEUED_ENCODER_EVENTS) |>);;
  modify (fun q => q <| enqueued := u8 (enqueued q + 1) |>);;
  mret true.

(** The event, when there is one. *)
Definition encoder_dequeue_event_advanced : stm encoder_events_t (option encoder_event_t) :=
  events ← gets (fun events => events);
  if encoder_queue_empty_advanced events then mret None else
  modify (fun q => q <| tail := u8 ((tail q + 1) mod MAX_QUEUED_ENCODER_EVENTS) |>);;
  modify (fun q => q <| dequeued := u8 (dequeued q + 1) |>);;
  mret (queue events !! Z.to_nat (tail events)).

Definition on_events {A} (m : stm encoder_events_t A) : stm encoder A :=
  fun s => let r := m (encoder_events s) in (r.1, s <| encoder_events := r.2 |>).

Definition encoder_queue_event (i : Z) (cw : bool) : stm encoder bool :=
  on_events (encoder_queue_event_advanced i cw).
Definition encoder_dequeue_event : stm encoder (option encoder_event_t) :=
  on_events encoder_dequeue_event_advanced.
Definition encoder_queue_drain : stm encoder unit :=
  on_events (modify (fun q => q <| tail := head q |> <| dequeued := enqueued q |>)).
Definition encoder_signal_queue_drain : stm encoder unit :=
  modify (fun s => s <| signal_queue_drain := true |>).

(** ** The quadrature driver *)

(** -1: one step clockwise. *)
Definition encoder_LUT : list Z := [0; -1; 1; 0; 1; 0; 0; -1; -1; 0; 0; 1; 0; 1; -1; 0].

Definition pulses_of (i : Z) (s : encoder) : Z := default 0 (encoder_pulses s !! Z.to_nat i).
Definition state_of (i : Z) (s : encoder) : Z := default 0 (encoder_state s !! Z.to_nat i).
Definition put_pulses (i v : Z) : stm encoder unit :=
  modify (fun s => s <| encoder_pulses := <[Z.to_nat i := v]> (encoder_pulses s) |>).
Definition put_state (i v : Z) : stm encoder unit :=
  modify (fun s => s <| encoder_state := <[Z.to_nat i := v]> (encoder_state s) |>).

Definition queue_if (b : bool) (i : Z) (cw : bool) : stm encoder unit :=
  if b then encoder_queue_event i cw;; skip else skip.

Definition encoder_handle_state_change (i state : Z) : stm encoder unit :=
  hand ← gets thisHand;
  let index := if SPLIT_KEYBOARD then u8 (i + hand) else i in
  let resolution := encoder_resolutions index in
  modify (fun s => s <| encoder_pulses := alter (fun p =>
    i8 (p + default 0 (encoder_LUT !! Z.to_nat (Z.land state 15)))) (Z.to_nat i) (encoder_pulses s) |>);;
  p ← gets (pulses_of i);
  match ENCODER_DEFAULT_POS with
  | Some pos =>
      when ((resolution <=? p) || (p <=? - resolution) || (Z.land state 3 =? pos)) (
        queue_if (1 <=? p) index (negb ENCODER_CLOCKWISE);;
        queue_if (p <=? -1) index ENCODER_CLOCKWISE;;
        put_pulses i (Z.rem p resolution);;
        put_pulses i 0)
  | None =>
      queue_if (resolution <=? p) index (negb ENCODER_CLOCKWISE);;
      queue_if (p <=? - resolution) index ENCODER_CLOCKWISE;;
      put_pulses i (Z.rem p resolution)
  end.

Definition encoder_quadrature_handle_read (i pin_a_state pin_b_state : Z) : stm encoder unit :=
  let state := Z.lor pin_a_state (u8 (Z.shiftl pin_b_state 1)) in
  old ← gets (state_of i);
  when (negb (Z.land old 3 =? state)) (
    let new := Z.lor (u8 (Z.shiftl old 2)) state in
    put_state i new;;
    encoder_handle_state_change i new).

Fixpoint for_encoders (i : Z) (n : nat) (body : Z -> stm encoder unit) : stm encoder unit :=
  match n with
  | O => skip
  | S n => body i;; for_encoders (i + 1) n body
  end.

(** [read i b] is what contact [b] of encoder [i] reads. *)
Definition encoder_driver_task (read : Z -> bool -> Z) : stm encoder unit :=
  n ← gets thisCount;
  for_encoders 0 (Z.to_nat n) (fun i => encoder_quadrature_handle_read i (read i false) (read i true)).

Definition encoder_quadrature_post_init (read : Z -> bool -> Z) : stm encoder unit :=
  if ENCODER_DEFAULT_PIN_API_IMPL then
    n ← gets thisCount;
    for_encoders 0 (Z.to_nat n) (fun i =>
      put_state i (u8 (Z.lor (Z.shiftl (read i false) 0) (Z.shiftl (read i true) 1))))
  else modify (fun s => s <| encoder_state := replicate (Z.to_nat NUM_ENCODERS) 0 |>).

Definition encoder_driver_init (isLeftHand : bool) (read : Z -> bool -> Z) : stm encoder unit :=
  modify (fun s => s
    <| thisHand := if SPLIT_KEYBOARD then if isLeftHand then 0 else NUM_ENCODERS_LEFT else thisHand s |>
    <| thisCount := if SPLIT_KEYBOARD then if isLeftHand then NUM_ENCODERS_LEFT else NUM_ENCODERS_RIGHT
                    else NUM_ENCODERS |>);;
  encoder_quadrature_post_init read.

Definition encoder_init (isLeftHand : bool) (read : Z -> bool -> Z) : stm encoder unit :=
  modify (fun s => s <| encoder_events := no_events |>);;
  encoder_driver_init isLeftHand read.

(** ** The task *)

Definition encoder_update_kb (i : Z) (cw : bool) : stm keyboard bool :=
  res ← encoder_update_user i cw;
  when res (
    if cw then
      tap_code_delay (if EXTRAKEY_ENABLE then KC_AUDIO_VOL_UP
                      else if MOUSEKEY_ENABLE then KC_MS_WH_UP else KC_PAGE_DOWN) 10
    else
      tap_code_delay (if EXTRAKEY_ENABLE then KC_AUDIO_VOL_DOWN
                      else if MOUSEKEY_ENABLE then KC_MS_WH_DOWN else KC_PAGE_UP) 10);;
  mret res.

(** [MAKE_ENCODER_CW_EVENT], [MAKE_ENCODER_CCW_EVENT] *)
Definition encoder_keyevent (cw : bool) (i time : Z) (press : bool) : keyevent_t := {|
  key := {| col := i; row := if cw then KEYLOC_ENCODER_CW else KEYLOC_ENCODER_CCW |};
  time := time;
  type := if cw then ENCODER_CW_EVENT else ENCODER_CCW_EVENT;
  pressed := press;
|}.

Definition handle_event (e : encoder_event_t) : stm keyboard unit :=
  if ENCODER_MAP_ENABLE then
    t ← gets now;
    action_exec action_tapping_process (encoder_keyevent (clockwise e) (index e) t true);;
    when (0 <? ENCODER_MAP_KEY_DELAY) (emit (WaitMs ENCODER_MAP_KEY_DELAY));;
    t ← gets now;
    action_exec action_tapping_process (encoder_keyevent (clockwise e) (index e) t false);;
    when (0 <? ENCODER_MAP_KEY_DELAY) (emit (WaitMs ENCODER_MAP_KEY_DELAY))
  else encoder_update_kb (index e) (clockwise e);; skip.

Fixpoint handle_events (fuel : nat) (changed : bool) : stm (encoder * keyboard) bool :=
  match fuel with
  | O => mret changed
  | S fuel =>
      e ← own encoder_dequeue_event;
      match e with
      | None => mret changed
      | Some e => core (handle_event e);; handle_events fuel true
      end
  end.

(** The ring never holds [MAX_QUEUED_ENCODER_EVENTS] events. *)
Definition encoder_handle_queue : stm (encoder * keyboard) bool :=
  handle_events (Z.to_nat MAX_QUEUED_ENCODER_EVENTS) false.

(** [master] is what [should_process_encoder] returns. *)
Definition encoder_task (master : bool) (read : Z -> bool -> Z) : stm (encoder * keyboard) bool :=
  changed1 ← (if SPLIT_KEYBOARD && master then encoder_handle_queue else mret false);
  drain ← own (gets signal_queue_drain);
  when drain (
    own (modify (fun s => s <| signal_queue_drain := false |>));;
    own encoder_queue_drain);;
  own (encoder_driver_task read);;
  changed2 ← (if master then encoder_handle_queue else mret false);
  mret (changed1 || changed2).
End encoder.

(** ** Rotary encoders: the queue and the count of steps

    The ring is a queue of bounded length, the task gives the core every event
    that waits, and the driver reports a detent exactly when the encoder is a
    resolution away from the last one, however its contacts bounce. *)

Class EncoderOk `{!Config} `{!EncoderConfig} : Prop := {
  queue_size : 1 <= MAX_QUEUED_ENCODER_EVENTS <= 256;
  no_default_pos : ENCODER_DEFAULT_POS = None;
  resolution_range i : 1 <= encoder_resolutions i <= 127;
}.

Section spec.
Context `{!Config} `{!Hooks} `{!EncoderConfig} `{!EncoderOk}.
Implicit Types (q : encoder_events_t) (s : encoder) (k : keyboard) (e : encoder_event_t).
Abbreviation SIZE := MAX_QUEUED_ENCODER_EVENTS.

(** ** The ring as a queue *)

Definition used q : Z := (head q - tail q) mod SIZE.
Definition nth_event q (j : Z) : encoder_event_t :=
  default {| index := 0; clockwise := false |} (queue q !! Z.to_nat ((tail q + j) mod SIZE)).
Definition waiting q : list encoder_event_t := nth_event q <$> seqZ 0 (used q).

Record queue_ok q : Prop := {
  ok_head : 0 <= head q < SIZE;
  ok_tail : 0 <= tail q < SIZE;
  ok_length : Z.of_nat (length (queue q)) = SIZE;
  ok_counts : u8 (enqueued q - dequeued q) = used q;
}.

Lemma used_range q : 0 <= used q < SIZE.
Proof. apply Z.mod_pos_bound. pose proof queue_size. lia. Qed.

Lemma length_waiting q : Z.of_nat (length (waiting q)) = used q.
Proof. unfold waiting. rewrite length_fmap, length_seqZ. pose proof (used_range q). lia. Qed.

(** Positions of the ring, as sums without [mod]. *)
Lemma ring_cases a : 0 <= a < 2 * SIZE -> a mod SIZE = if a <? SIZE then a else a - SIZE.
Proof.
  intros Ha. pose proof queue_size. zcase.
  - apply Z.mod_small. lia.
  - symmetry. apply Z.mod_unique_pos with 1; lia.
Qed.

Lemma used_cases q : queue_ok q ->
  used q = if tail q <=? head q then head q - tail q else head q - tail q + SIZE.
Proof.
  intros Hq. destruct Hq. pose proof queue_size. unfold used. zcase.
  - apply Z.mod_small. lia.
  - symmetry. apply Z.mod_unique_pos with (-1); lia.
Qed.

Lemma head_after_tail q : queue_ok q -> head q = (tail q + used q) mod SIZE.
Proof.
  intros Hq. rewrite (used_cases q Hq). destruct Hq. rewrite ring_cases by (zcase; lia). repeat zcase; lia.
Qed.

Lemma full_spec q : queue_ok q -> encoder_queue_full_advanced q = (used q =? SIZE - 1).
Proof.
  intros Hq. unfold encoder_queue_full_advanced. rewrite (used_cases q Hq). destruct Hq.
  pose proof queue_size. rewrite ring_cases by lia. repeat zcase; (done || lia).
Qed.

Lemma empty_spec q : queue_ok q -> encoder_queue_empty_advanced q = (used q =? 0).
Proof.
  intros Hq. unfold encoder_queue_empty_advanced. rewrite (used_cases q Hq). destruct Hq. repeat zcase; (done || lia).
Qed.

(** *** The operations, and those of a list of at most [SIZE - 1] events *)

Inductive queue_op := Enqueue (i : Z) (cw : bool) | Dequeue | Drain.
Inductive queue_result := Queued (b : bool) | Got (e : option encoder_event_t) | Drained.

Definition run_queue_op (o : queue_op) : stm encoder_events_t queue_result :=
  match o with
  | Enqueue i cw => b ← encoder_queue_event_advanced i cw; mret (Queued b)
  | Dequeue => e ← encoder_dequeue_event_advanced; mret (Got e)
  | Drain => modify (fun q => q <| tail := head q |> <| dequeued := enqueued q |>);; mret Drained
  end.

Definition fifo_op (o : queue_op) : stm (list encoder_event_t) queue_result := fun l =>
  match o with
  | Enqueue i cw => if Z.of_nat (length l) =? SIZE - 1 then (Queued false, l)
                    else (Queued true, l ++ [{| index := wrap 7 i; clockwise := cw |}])
  | Dequeue => (Got (hd_error l), drop 1 l)
  | Drain => (Drained, [])
  end.

Fixpoint run_all {S} (f : queue_op -> stm S queue_result) (os : list queue_op) : stm S (list queue_result) :=
  match os with
  | [] => mret []
  | o :: os => r ← f o; rs ← run_all f os; mret (r :: rs)
  end.

Lemma counts_step x n : 0 <= n < SIZE -> 0 <= n + x < SIZE -> u8 (n + x) = n + x.
Proof. intros. pose proof queue_size. apply wrap_small. lia. Qed.

Lemma encoder_enqueue_ok i cw q : queue_ok q -> used q <> SIZE - 1 ->
  let q' := (q <| queue := <[Z.to_nat (head q) := {| index := wrap 7 i; clockwise := cw |}]> (queue q) |>
               <| head := u8 ((head q + 1) mod SIZE) |> <| enqueued := u8 (enqueued q + 1) |>) in
  queue_ok q' /\ waiting q' = waiting q ++ [{| index := wrap 7 i; clockwise := cw |}].
Proof.
  intros Hq Hn q'. pose proof queue_size as Hs. pose proof (used_range q) as Hu.
  pose proof (ok_head q Hq) as Hh. pose proof (ok_tail q Hq) as Ht. pose proof (ok_length q Hq) as Hl.
  assert (head q' = (head q + 1) mod SIZE) as Eh.
  { cbn. apply wrap_small. pose proof (Z.mod_pos_bound (head q + 1) SIZE). lia. }
  assert (tail q' = tail q) as Et by done.
  assert (used q' = used q + 1) as Eu.
  { unfold used. rewrite Eh, Et, Zminus_mod_idemp_l. unfold used in *.
    replace (head q + 1 - tail q) with (head q - tail q + 1) by lia.
    rewrite <-Zplus_mod_idemp_l. apply Z.mod_small. lia. }
  split; [split|].
  - rewrite Eh. apply Z.mod_pos_bound. lia.
  - done.
  - cbn. by rewrite length_insert.
  - rewrite Eu. change (u8 (u8 (enqueued q + 1) - dequeued q) = used q + 1).
    pose proof (ok_counts q Hq) as Hc. rewrite <-(wrap_small 8 (used q + 1)) by lia.
    rewrite <-Hc. unfold wrap. rewrite Zminus_mod_idemp_l, Zplus_mod_idemp_l. apply (f_equal (fun z => z mod 2 ^ 8)). lia.
  - unfold waiting. rewrite Eu, seqZ_app, fmap_app by lia. f_equal.
    + apply list_fmap_ext. intros _ j Hj%list_elem_of_lookup_2. apply elem_of_seqZ in Hj.
      unfold nth_event. rewrite Et. cbn [queue]. f_equal. unfold q'. cbn.
      apply list_lookup_insert_ne. rewrite (head_after_tail q Hq).
      rewrite !ring_cases by lia. repeat zcase; lia.
    + change (seqZ (0 + used q) 1) with [used q]. cbn [fmap list_fmap]. f_equal.
      unfold nth_event. rewrite Et, <-(head_after_tail q Hq). unfold q'. cbn.
      by rewrite list_lookup_insert_eq by lia.
Qed.

Lemma dequeue_ok q : queue_ok q -> used q <> 0 ->
  let q' := (q <| tail := u8 ((tail q + 1) mod SIZE) |> <| dequeued := u8 (dequeued q + 1) |>) in
  queue_ok q' /\ waiting q = nth_event q 0 :: waiting q' /\
  queue q !! Z.to_nat (tail q) = Some (nth_event q 0).
Proof.
  intros Hq Hn q'. pose proof queue_size as Hs. pose proof (used_range q) as Hu.
  pose proof (ok_head q Hq) as Hh. pose proof (ok_tail q Hq) as Ht. pose proof (ok_length q Hq) as Hl.
  assert (tail q' = (tail q + 1) mod SIZE) as Et.
  { cbn. apply wrap_small. pose proof (Z.mod_pos_bound (tail q + 1) SIZE). lia. }
  assert (head q' = head q) as Eh by done.
  assert (used q' = used q - 1) as Eu.
  { unfold used. rewrite Eh, Et, Zminus_mod_idemp_r. unfold used in *.
    replace (head q - (tail q + 1)) with (head q - tail q - 1) by lia.
    rewrite <-Zminus_mod_idemp_l. apply Z.mod_small. lia. }
  split_and!; [split|..].
  - done.
  - rewrite Et. apply Z.mod_pos_bound. lia.
  - done.
  - rewrite Eu. change (u8 (enqueued q - u8 (dequeued q + 1)) = used q - 1).
    pose proof (ok_counts q Hq) as Hc. rewrite <-(wrap_small 8 (used q - 1)) by lia.
    rewrite <-Hc. unfold wrap. rewrite Zminus_mod_idemp_r, Zminus_mod_idemp_l. apply (f_equal (fun z => z mod 2 ^ 8)). lia.
  - unfold waiting. rewrite Eu, seqZ_cons, fmap_cons by lia. f_equal.
    replace (Z.succ 0) with (1 + 0) by lia. replace (Z.pred (used q)) with (used q - 1) by lia.
    rewrite <-(fmap_add_seqZ 1 0 (used q - 1)), <-list_fmap_compose.
    apply list_fmap_ext. intros _ j Hj%list_elem_of_lookup_2. apply elem_of_seqZ in Hj. cbn [compose].
    unfold nth_event. rewrite Et. cbn [queue]. f_equal. unfold q'. cbn. do 2 f_equal.
    rewrite Zplus_mod_idemp_l. f_equal. lia.
  - unfold nth_event. rewrite Z.add_0_r, Z.mod_small by lia.
    by destruct (lookup_lt_is_Some_2 (queue q) (Z.to_nat (tail q)) ltac:(lia)) as [x ->].
Qed.

Lemma run_enqueue i cw q : queue_ok q ->
  let p := encoder_queue_event_advanced i cw q in
  queue_ok p.2 /\ (Queued p.1, waiting p.2) = fifo_op (Enqueue i cw) (waiting q).
Proof.
  intros Hq. cbv zeta. unfold encoder_queue_event_advanced. rewrite run_gets, (full_spec q Hq).
  cbn [fifo_op]. rewrite length_waiting. destruct (Z.eqb_spec (used q) (SIZE - 1)); [done|].
  destruct (encoder_enqueue_ok i cw q Hq n) as [Hq' E]. srun. split; [exact Hq'|]. by rewrite <-E.
Qed.

Lemma run_dequeue q : queue_ok q ->
  let p := encoder_dequeue_event_advanced q in
  queue_ok p.2 /\ (Got p.1, waiting p.2) = fifo_op Dequeue (waiting q).
Proof.
  intros Hq. cbv zeta. unfold encoder_dequeue_event_advanced. rewrite run_gets, (empty_spec q Hq).
  cbn [fifo_op]. destruct (Z.eqb_spec (used q) 0) as [E|Hn].
  - split; [done|]. unfold waiting. cbn [fst snd mret stm_ret]. by rewrite E.
  - destruct (dequeue_ok q Hq Hn) as (Hq' & E & Hx). srun. split; [exact Hq'|]. rewrite E. cbn [hd_error drop].
    cbn [fst mret stm_ret]. by rewrite Hx, drop_0.
Qed.

Lemma run_queue_op_ok o q : queue_ok q ->
  let p := run_queue_op o q in
  queue_ok p.2 /\ (p.1, waiting p.2) = fifo_op o (waiting q).
Proof.
  destruct o as [i cw| |]; intros Hq.
  - exact (run_enqueue i cw q Hq).
  - exact (run_dequeue q Hq).
  - cbn. pose proof queue_size. assert (forall q', head q' = tail q' -> used q' = 0) as Hz.
    { intros q' E. unfold used. by rewrite E, Z.sub_diag, Z.mod_0_l by lia. }
    split; [destruct Hq; split; try done|].
    + rewrite Hz by done. cbn. by rewrite Z.sub_diag.
    + unfold waiting. by rewrite Hz.
Qed.

(** The ring of encoder events is a queue of at most one event less than it
    has places, which refuses events while it is full. *)
Theorem encoder_queue_is_fifo os q :
  queue_ok q ->
  let p := run_all run_queue_op os q in
  queue_ok p.2 /\ (p.1, waiting p.2) = run_all fifo_op os (waiting q).
Proof.
  revert q. induction os as [|o os IH]; intros q Hq; [done|]. cbv zeta. cbn [run_all].
  rewrite !run_eval. destruct (run_queue_op_ok o q Hq) as [Hq' E]. destruct (IH _ Hq') as [Hq'' E'].
  unfold eval, exec. rewrite <-E. cbn [fst snd]. split; [exact Hq''|].
  cbn. by rewrite <-E'.
Qed.

(** ** The task empties the queue *)

Fixpoint handle_all (es : list encoder_event_t) : stm keyboard unit :=
  match es with
  | [] => skip
  | e :: es => handle_event e;; handle_all es
  end.

Definition same_driver s s' : Prop :=
  signal_queue_drain s' = signal_queue_drain s /\ encoder_state s' = encoder_state s /\
  encoder_pulses s' = encoder_pulses s /\ thisHand s' = thisHand s /\ thisCount s' = thisCount s.

Lemma run_handle_events fuel : forall changed s k,
  queue_ok (encoder_events s) -> (length (waiting (encoder_events s)) < fuel)%nat ->
  exists s', handle_events fuel changed (s, k)
      = (changed || nz (used (encoder_events s)), (s', exec (handle_all (waiting (encoder_events s))) k)) /\
    queue_ok (encoder_events s') /\ waiting (encoder_events s') = [] /\ same_driver s s'.
Proof.
  induction fuel as [|fuel IH]; intros changed s k Hq Hf; [lia|]. cbn [handle_events].
  rewrite run_own. unfold encoder_dequeue_event, on_events.
  destruct (run_dequeue (encoder_events s) Hq) as [Hq' E].
  cbn [fst snd]. destruct (encoder_dequeue_event_advanced (encoder_events s)) as [r q'] eqn:Er. cbn [fst snd] in *.
  cbn [fifo_op] in E. pose proof (length_waiting (encoder_events s)) as Hl.
  destruct (waiting (encoder_events s)) as [|e es] eqn:Ew; cbn in E; injection E as -> Hw'.
  - cbn in Hl. assert (nz (used (encoder_events s)) = false) as -> by by apply nz_false.
    rewrite orb_false_r. exists (s <| encoder_events := q' |>). by split_and!.
  - rewrite run_core. rewrite drop_0 in Hw'.
    destruct (IH true (s <| encoder_events := q' |>) (exec (handle_event e) k)) as (s' & E' & Hok' & Hw & Hsame).
    { exact Hq'. }
    { change (length (waiting q') < fuel)%nat. rewrite Hw'. cbn in Hf. lia. }
    exists s'. split_and!; [|done|done|exact Hsame]. etransitivity; [exact E'|].
    change (waiting (encoder_events (s <| encoder_events := q' |>))) with (waiting q'). rewrite Hw'.
    assert (nz (used (encoder_events s)) = true) as ->; [|by rewrite orb_true_r].
    apply nz_true. cbn in Hl. lia.
Qed.

(** The task gives the core every event that waits, in the order in which
    they came, reports whether there was one, and leaves the queue empty. *)
Theorem encoder_handle_queue_empties s k :
  queue_ok (encoder_events s) ->
  exists s', encoder_handle_queue (s, k)
      = (nz (used (encoder_events s)), (s', exec (handle_all (waiting (encoder_events s))) k)) /\
    queue_ok (encoder_events s') /\ waiting (encoder_events s') = [] /\ same_driver s s'.
Proof.
  intros Hq. apply (run_handle_events _ false); [done|].
  pose proof (length_waiting (encoder_events s)). pose proof (used_range (encoder_events s)). lia.
Qed.

(** ** Counting steps

    The contacts pass through four states per period; positions count the
    states from some origin, growing counterclockwise. *)

Definition gray (p : Z) : Z := default 0 ([0; 2; 3; 1] !! Z.to_nat (p mod 4)).
Definition read_position (i p : Z) : stm encoder unit :=
  encoder_quadrature_handle_read i (Z.land (gray p) 1) (Z.shiftr (gray p) 1).
Fixpoint read_positions (i : Z) (ps : list Z) : stm encoder unit :=
  match ps with
  | [] => skip
  | p :: ps => read_position i p;; read_positions i ps
  end.

(** No position is missed. *)
Fixpoint walk (p : Z) (ps : list Z) : Prop :=
  match ps with
  | [] => True
  | p' :: ps => -1 <= p' - p <= 1 /\ walk p' ps
  end.

(** The specification: a detent is passed when the encoder is [res] away from
    the last one, [d]; the events, and the last detent. *)
Fixpoint detents (res d : Z) (ps : list Z) : list bool * Z :=
  match ps with
  | [] => ([], d)
  | p :: ps =>
      if p =? d + res then let r := detents res (d + res) ps in (negb ENCODER_CLOCKWISE :: r.1, r.2)
      else if p =? d - res then let r := detents res (d - res) ps in (ENCODER_CLOCKWISE :: r.1, r.2)
      else detents res d ps
  end.

Definition event_index i s : Z := if SPLIT_KEYBOARD then u8 (i + thisHand s) else i.
Definition queue_all (i : Z) (cws : list bool) q : encoder_events_t :=
  foldl (fun q cw => exec (encoder_queue_event_advanced i cw) q) q cws.

(** Encoder [i] is at position [p], [d] being the last detent. *)
Record at_position (i d p : Z) s : Prop := {
  at_state : Z.land (state_of i s) 3 = gray p;
  at_state_byte : is_byte (state_of i s);
  at_pulses : encoder_pulses s !! Z.to_nat i = Some (p - d);
  at_index : is_Some (encoder_state s !! Z.to_nat i);
  at_near : - encoder_resolutions (event_index i s) < p - d < encoder_resolutions (event_index i s);
}.

(** What is not encoder [i], and not the queue, is as it was. *)
Definition other_encoders (i : Z) s s' : Prop :=
  (forall j, j <> Z.to_nat i -> encoder_state s' !! j = encoder_state s !! j /\
     encoder_pulses s' !! j = encoder_pulses s !! j) /\
  thisHand s' = thisHand s /\ thisCount s' = thisCount s /\ signal_queue_drain s' = signal_queue_drain s.

Lemma other_encoders_trans i s1 s2 s3 : other_encoders i s1 s2 -> other_encoders i s2 s3 -> other_encoders i s1 s3.
Proof.
  intros (H12 & ? & ? & ?) (H23 & ? & ? & ?). split_and!; try congruence.
  intros j Hj. destruct (H12 j Hj), (H23 j Hj). split; congruence.
Qed.

Definition shift_in (old st : Z) : Z := Z.lor (u8 (Z.shiftl old 2)) st.

Lemma shift_in_table old st : is_byte old -> 0 <= st < 4 ->
  is_byte (shift_in old st) /\ Z.land (shift_in old st) 3 = st /\
  Z.land (shift_in old st) 15 = 4 * Z.land old 3 + st.
Proof.
  intros Ho Hs. split.
  { apply lor_range; [done|apply is_byte_u8|]. norm_pow. lia. }
  assert (all_below 256 (fun o => all_below 4 (fun x =>
    (Z.land (shift_in o x) 3 =? x) && (Z.land (shift_in o x) 15 =? 4 * Z.land o 3 + x))) = true) as Hall by by vm_compute.
  pose proof (all_below_spec _ _ old Hall Ho) as Hx. pose proof (all_below_spec _ _ st Hx Hs) as Hy.
  cbn beta in Hy. clear Hall Hx. apply andb_true_iff in Hy as [E1%Z.eqb_eq E2%Z.eqb_eq]. by split.
Qed.

Lemma gray_range p : 0 <= gray p < 4.
Proof.
  unfold gray. pose proof (Z.mod_pos_bound p 4 ltac:(lia)).
  assert (p mod 4 = 0 \/ p mod 4 = 1 \/ p mod 4 = 2 \/ p mod 4 = 3) as [-> | [-> | [-> | ->]]] by lia; vm_compute; by split.
Qed.

Lemma contacts p : Z.lor (Z.land (gray p) 1) (u8 (Z.shiftl (Z.shiftr (gray p) 1) 1)) = gray p.
Proof.
  pose proof (gray_range p).
  assert (gray p = 0 \/ gray p = 1 \/ gray p = 2 \/ gray p = 3) as [-> | [-> | [-> | ->]]] by lia; done.
Qed.

(** The table of the driver is the difference of neighbouring positions. *)
Lemma LUT_counts p p' : -1 <= p' - p <= 1 ->
  default 0 (encoder_LUT !! Z.to_nat (4 * gray p + gray p')) = p' - p /\ (gray p = gray p' <-> p = p').
Proof.
  intros Hd. set (r := p mod 4). assert (0 <= r < 4) as Hr by (apply Z.mod_pos_bound; lia).
  assert (p' mod 4 = (r + (p' - p)) mod 4) as E.
  { unfold r. rewrite Zplus_mod_idemp_l. apply (f_equal (fun z => z mod 4)). lia. }
  unfold gray. fold r. rewrite E. set (x := p' - p) in *.
  assert (p = p' <-> x = 0) as -> by lia. clearbody r x. clear E.
  assert (r = 0 \/ r = 1 \/ r = 2 \/ r = 3) as [-> | [-> | [-> | ->]]] by lia;
    assert (x = -1 \/ x = 0 \/ x = 1) as [-> | [-> | ->]] by lia; vm_compute; done.
Qed.

(** The new state of the encoder and its pulses, [d] past the last detent. *)
Definition with_read (i st d : Z) s : encoder :=
  (s <| encoder_state := <[Z.to_nat i := st]> (encoder_state s) |>
     <| encoder_pulses := <[Z.to_nat i := d]> (encoder_pulses s) |>).
Definition events_at (res x : Z) : list bool :=
  if x =? res then [negb ENCODER_CLOCKWISE] else if x =? - res then [ENCODER_CLOCKWISE] else [].

Lemma run_state_change i st x s y :
  let res := encoder_resolutions (event_index i s) in
  encoder_pulses s !! Z.to_nat i = Some y ->
  default 0 (encoder_LUT !! Z.to_nat (Z.land st 15)) = x - y ->
  - res <= x <= res ->
  encoder_handle_state_change i st s =
  (tt, (s <| encoder_pulses := <[Z.to_nat i := Z.rem x res]> (encoder_pulses s) |>
          <| encoder_events := queue_all (event_index i s) (events_at res x) (encoder_events s) |>)).
Proof.
  intros res Hy Hlut Hx. pose proof (resolution_range (event_index i s)) as Hres. fold res in Hres.
  unfold encoder_handle_state_change. rewrite run_gets. fold (event_index i s). cbv zeta. fold res.
  rewrite run_modify, run_gets, Hlut, no_default_pos.
  assert (alter (fun p => i8 (p + (x - y))) (Z.to_nat i) (encoder_pulses s)
    = <[Z.to_nat i := x]> (encoder_pulses s)) as Ea.
  { apply list_eq. intros j. destruct (decide (j = Z.to_nat i)) as [->|Hj].
    - rewrite list_lookup_alter_eq, list_lookup_insert_eq by by eapply lookup_lt_Some. rewrite Hy. cbn. f_equal.
      unfold i_wrap. replace (y + (x - y)) with x by lia. rewrite Z.mod_small; norm_pow; lia.
    - by rewrite list_lookup_alter_ne, list_lookup_insert_ne. }
  rewrite Ea. clear Ea. set (s1 := s <| encoder_pulses := _ |>).
  assert (pulses_of i s1 = x) as ->.
  { unfold pulses_of, s1. destruct s; cbn in *. by rewrite list_lookup_insert_eq by by eapply lookup_lt_Some. }
  clear Hlut. destruct s as [ev dr st' pu th tc]. unfold s1, events_at, queue_if. cbn in Hy.
  destruct (Z.leb_spec res x), (Z.leb_spec x (- res)), (Z.eqb_spec x res), (Z.eqb_spec x (- res)); try lia;
    unfold encoder_queue_event, on_events, put_pulses, modify, mbind, stm_bind, skip, mret, stm_ret;
    cbn -[encoder_queue_event_advanced Z.rem]; by rewrite list_insert_insert_eq.
Qed.

Lemma rem_small x res : - res < x < res -> Z.rem x res = x.
Proof. intros. apply Z.rem_small_iff; lia. Qed.

Lemma detents_one res d x : 1 <= res -> - res < x < res \/ x = res \/ x = - res ->
  detents res d [d + x] = (events_at res x, d + x - Z.rem x res).
Proof.
  intros Hr Hx. cbn [detents]. unfold events_at. destruct Hx as [Hx|[-> | ->]].
  - repeat zcase; try lia. f_equal. rewrite rem_small by lia. lia.
  - rewrite Z.rem_same by lia. repeat zcase; try lia. cbn. f_equal. lia.
  - rewrite Z.rem_opp_l, Z.rem_same by lia. repeat zcase; try lia. cbn. f_equal. lia.
Qed.

Lemma run_read_position i d p p' s :
  at_position i d p s -> -1 <= p' - p <= 1 ->
  let r := detents (encoder_resolutions (event_index i s)) d [p'] in
  let s' := exec (read_position i p') s in
  at_position i r.2 p' s' /\ other_encoders i s s' /\
  encoder_events s' = queue_all (event_index i s) r.1 (encoder_events s).
Proof.
  intros [Hst Hb Hp Hi Hn] Hd. cbv zeta. pose proof (resolution_range (event_index i s)) as Hres.
  set (res := encoder_resolutions (event_index i s)) in *.
  destruct (LUT_counts p p' Hd) as [Hlut Heq].
  unfold read_position, encoder_quadrature_handle_read. rewrite contacts. cbv zeta.
  unfold exec at 1 2 3. rewrite run_gets, Hst.
  assert (detents res d [p'] = (events_at res (p' - d), p' - Z.rem (p' - d) res)) as ->.
  { replace p' with (d + (p' - d)) at 1 3 by lia. apply detents_one; lia. }
  destruct (Z.eqb_spec (gray p) (gray p')) as [E|Hne].
  - apply Heq in E as <-. cbn [when negb snd fst]. rewrite rem_small by lia.
    replace (p - (p - d)) with d by lia. unfold events_at. repeat zcase; try lia.
    split; [by split|]. by split_and!.
  - cbn [when negb]. fold (shift_in (state_of i s) (gray p')).
    destruct (shift_in_table (state_of i s) (gray p') Hb (gray_range p')) as (Hb' & Hst' & Hlow).
    set (st := shift_in (state_of i s) (gray p')) in *. unfold put_state. rewrite run_modify.
    set (s1 := s <| encoder_state := _ |>).
    pose proof (run_state_change i st (p' - d) s1 (p - d)) as Hrun. cbv zeta in Hrun.
    change (encoder_resolutions (event_index i s1)) with res in Hrun.
    rewrite Hrun; [|exact Hp| |lia]; [|rewrite Hlow, Hst, Hlut; lia]. cbn [fst snd].
    clear Hrun. apply lookup_lt_Some in Hp. destruct Hi as [? Hi%lookup_lt_Some].
    assert (- res < Z.rem (p' - d) res < res) by (apply Z.rem_bound_abs || pose proof (Z.rem_bound_abs (p' - d) res); lia).
    unfold s1. clear s1. destruct s as [ev dr es pu th tc]. cbn in Hp, Hi. split; [split|split; [|done]].
    + unfold state_of. cbn. by rewrite list_lookup_insert_eq.
    + unfold state_of. cbn. by rewrite list_lookup_insert_eq.
    + cbn. rewrite list_lookup_insert_eq by done. f_equal. lia.
    + cbn. rewrite list_lookup_insert_eq by done. by eexists.
    + change (encoder_resolutions (event_index i _)) with res. lia.
    + split; [|done]. intros j Hj. cbn. by rewrite !list_lookup_insert_ne by done.
Qed.

Lemma detents_cons res d p ps :
  detents res d (p :: ps) =
  ((detents res d [p]).1 ++ (detents res (detents res d [p]).2 ps).1, (detents res (detents res d [p]).2 ps).2).
Proof. cbn [detents]. repeat zcase; cbn; try done. by destruct (detents res d ps). Qed.

Lemma event_index_other i s s' : other_encoders i s s' -> event_index i s' = event_index i s.
Proof. intros (_ & E & _). unfold event_index. by rewrite E. Qed.

(** However the contacts bounce, the driver queues exactly the detents: an
    event whenever the encoder is a resolution away from where it was at the
    last one.  What it remembers is the distance to that detent; the other
    encoders are untouched. *)
Theorem encoder_reports_detents i d p ps s :
  at_position i d p s -> walk p ps ->
  let r := detents (encoder_resolutions (event_index i s)) d ps in
  let s' := exec (read_positions i ps) s in
  at_position i r.2 (default p (last ps)) s' /\ other_encoders i s s' /\
  encoder_events s' = queue_all (event_index i s) r.1 (encoder_events s).
Proof.
  revert d p s. induction ps as [|p' ps IH]; intros d p s Hat Hw; [done|]. cbv zeta.
  destruct Hw as [Hd Hw]. destruct (run_read_position i d p p' s Hat Hd) as (Hat1 & Ho1 & Hq1).
  set (s1 := exec (read_position i p') s) in *. specialize (IH _ p' s1 Hat1 Hw). cbv zeta in IH.
  rewrite (event_index_other i s s1 Ho1) in IH. destruct IH as (Hat2 & Ho2 & Hq2).
  rewrite detents_cons. cbn [fst snd read_positions]. rewrite exec_bind. fold s1.
  replace (default p (last (p' :: ps))) with (default p' (last ps)) by (rewrite last_cons; by destruct (last ps)).
  split_and!; [exact Hat2|by eapply other_encoders_trans|]. rewrite Hq2, Hq1. unfold queue_all. by rewrite foldl_app.
Qed.
End spec.
