(* ===== verification/Quantum.v ===== *)
(** * Modified keycodes (quantum/quantum.c)

    Registering and unregistering a 16-bit keycode: its modifiers are weak,
    except those of a modifier keycode. *)

From S2P Require Import Prelude.
From S2P Require Import Keycodes.
From S2P Require Import Report.
From S2P Require Import State.
From S2P Require Import ActionUtil.
From S2P Require Import ActionCode.
From S2P Require Import Keymap.
From S2P Require Import Action.
From S2P Require Import ActionUtilSpec.
From S2P Require Import TypingSpec.
From S2P Require Import Feature.

Section quantum.
Context `{!Config} `{!Hooks}.
Abbreviation M := (stm keyboard).

Definition QK_RMODS_MIN : Z := 0x1000.
Definition QK_LCTL : Z := 0x0100.
Definition QK_LALT : Z := 0x0400.
Definition QK_LGUI : Z := 0x0800.

Definition flag (code m kc : Z) : Z := if nz (Z.land code m) then MOD_BIT kc else 0.

Definition extract_mod_bits (code : Z) : Z :=
  if within QK_MODS QK_MODS_MAX code then
    if nz (Z.land code QK_RMODS_MIN) then
      Z.lor (Z.lor (Z.lor (flag code QK_LCTL KC_RIGHT_CTRL) (flag code QK_LSFT KC_RIGHT_SHIFT))
        (flag code QK_LALT KC_RIGHT_ALT)) (flag code QK_LGUI KC_RIGHT_GUI)
    else
      Z.lor (Z.lor (Z.lor (flag code QK_LCTL KC_LEFT_CTRL) (flag code QK_LSFT KC_LEFT_SHIFT))
        (flag code QK_LALT KC_LEFT_ALT)) (flag code QK_LGUI KC_LEFT_GUI)
  else 0.

Definition do_code16 (code : Z) (f : Z -> M unit) : M unit := f (extract_mod_bits code).

(** [register_code] takes a byte. *)
Definition register_code16 (code : Z) : M unit :=
  (if IS_MODIFIER_KEYCODE code || (code =? KC_NO) then do_code16 code register_mods
   else do_code16 code register_weak_mods);;
  register_code (u8 code).

Definition unregister_code16 (code : Z) : M unit :=
  unregister_code (u8 code);;
  (if IS_MODIFIER_KEYCODE code || (code =? KC_NO) then do_code16 code unregister_mods
   else do_code16 code unregister_weak_mods).

Fixpoint wait_each_ms (n : nat) : M unit :=
  match n with
  | O => skip
  | S n => emit (WaitMs 1);; wait_each_ms n
  end.

Definition tap_code16_delay (code delay : Z) : M unit :=
  register_code16 code;; wait_each_ms (Z.to_nat delay);; unregister_code16 code.
Definition tap_code16 (code : Z) : M unit :=
  tap_code16_delay code (if code =? KC_CAPS_LOCK then TAP_HOLD_CAPS_DELAY else TAP_CODE_DELAY).
End quantum.

(** ** Modified keycodes: what the host sees

    Tapping a keycode with modifiers shows the key together with exactly these
    modifiers added, then neither. *)

Section spec.
Context `{!Config} `{!Hooks}.
Implicit Types (k : keyboard) (code : Z).
Hypothesis unbuffered : RING_BUFFERED_6KRO_REPORT_ENABLE = false.
Hypothesis no_override : KEY_OVERRIDE_ENABLE = false.

Definition weaken (f : Z -> Z) k : keyboard := k <| mods := (mods k) <| weak_mods := f (weak_mods (mods k)) |> |>.

(** The keys are as they were, nothing is out of step with the host, and the
    only modifiers are the real ones and [w]. *)
Record calm (w : Z) k0 k : Prop := {
  calm_synced : synced k;
  calm_ok : reports_ok (rep k);
  calm_keys : report_keys k = report_keys k0;
  calm_nkro : nkro_active k = nkro_active k0;
  calm_real : real_mods (mods k) = real_mods (mods k0);
  calm_weak : weak_mods (mods k) = w;
  calm_oneshot : oneshot_mods (mods k) = 0;
}.

Lemma calm_mods w k0 k : calm w k0 k -> report_mods k = Z.lor (real_mods (mods k0)) w.
Proof.
  intros []. unfold report_mods, live_oneshot_mods. rewrite no_override, calm_oneshot0, calm_real0, calm_weak0.
  destruct (has_oneshot_mods_timed_out k); by rewrite Z.lor_0_r.
Qed.

Lemma calm_weaken f w k0 k : calm w k0 k -> calm (f w) k0 (weaken f k).
Proof. intros []. split; try done. cbn. by rewrite calm_weak0. Qed.

Lemma calm_send w k0 k : calm w k0 k ->
  let k' := exec send_keyboard_report k in
  calm w k0 k' /\ shown k' = (Z.lor (real_mods (mods k0)) w, report_keys k0).
Proof.
  intros Hc. pose proof (calm_mods w k0 k Hc) as Hm. destruct Hc. cbv zeta.
  pose proof (send_report_sent k calm_synced0) as Hs. pose proof (nkro_active_sent _ _ Hs) as Hn. destruct Hs. split.
  - split; [done|by apply sent_ok|congruence|congruence|congruence|congruence|].
    rewrite sent_oneshot, calm_oneshot0. by destruct (uses_oneshot k).
  - by rewrite sent_shown, Hm, calm_keys0.
Qed.

(** The weak modifiers of a keycode, on and off. *)
Lemma weak_mods_run m w k0 k : calm w k0 k -> 0 <= w ->
  calm (Z.lor w m) k0 (exec (register_weak_mods m) k) /\
  calm (clear_bits w m) k0 (exec (unregister_weak_mods m) k) /\
  (shown k = (Z.lor (real_mods (mods k0)) w, report_keys k0) ->
   shown (exec (unregister_weak_mods m) k) = (Z.lor (real_mods (mods k0)) (clear_bits w m), report_keys k0)).
Proof.
  intros Hc Hw. unfold register_weak_mods, unregister_weak_mods. destruct (nz m) eqn:Em; cbn [when].
  - split; [|split].
    + exact (proj1 (calm_send _ _ _ (calm_weaken (fun w => Z.lor w m) w k0 k Hc))).
    + exact (proj1 (calm_send _ _ _ (calm_weaken (fun w => clear_bits w m) w k0 k Hc))).
    + intros _. exact (proj2 (calm_send _ _ _ (calm_weaken (fun w => clear_bits w m) w k0 k Hc))).
  - apply nz_false in Em as ->. rewrite Z.lor_0_r.
    assert (clear_bits w 0 = w) as -> by (unfold clear_bits; apply Z.land_m1_r). by split_and!.
Qed.

Lemma calm_self k : synced k -> reports_ok (rep k) -> oneshot_mods (mods k) = 0 -> calm (weak_mods (mods k)) k k.
Proof. by split. Qed.

Lemma calm_has_room w k0 k c : calm w k0 k ->
  has_room (nkro_active k0) (rep k0) c -> has_room (nkro_active k) (rep k) c.
Proof.
  intros []. unfold has_room. rewrite calm_nkro0. intros Hroom Hf. specialize (Hroom Hf).
  unfold report_keys in calm_keys0. rewrite calm_nkro0, Hf in calm_keys0. by rewrite calm_keys0.
Qed.

Lemma extract_mod_bits_nonneg code : 0 <= extract_mod_bits code.
Proof.
  unfold extract_mod_bits. destruct (within _ _ _); [|done].
  destruct (nz _); rewrite !Z.lor_nonneg; unfold flag; by repeat destruct (nz _).
Qed.

(** Tapping a basic keycode with modifiers first shows the host the key and
    the modifiers, added to those held, then takes both away again. *)
Theorem code16_reaches_host code k :
  within QK_MODS QK_MODS_MAX code = true -> plain (u8 code) -> command_proc (u8 code) = false ->
  synced k -> reports_ok (rep k) -> has_room (nkro_active k) (rep k) (u8 code) ->
  key_pressed (u8 code) k = false -> oneshot_mods (mods k) = 0 -> 0 <= weak_mods (mods k) ->
  let m := extract_mod_bits code in
  let k1 := exec (register_code16 code) k in
  let k2 := exec (unregister_code16 code) k1 in
  shown k1 = (Z.lor (real_mods (mods k)) (Z.lor (weak_mods (mods k)) m), report_keys k1) /\
  shown k2 = (Z.lor (real_mods (mods k)) (clear_bits (weak_mods (mods k)) m), report_keys k2) /\
  forall key, reportable (nkro_active k) key ->
    key_pressed key k1 = bool_decide (key = u8 code) || key_pressed key k /\
    key_pressed key k2 = key_pressed key k.
Proof.
  intros Hr Hp Hcmd Hs Hok Hroom Hup Ho Hw m k1 k2. set (c := u8 code) in *. set (w := weak_mods (mods k)).
  assert (IS_MODIFIER_KEYCODE code || (code =? KC_NO) = false) as Hkind.
  { unfold within, QK_MODS, QK_MODS_MAX in Hr. unfold IS_MODIFIER_KEYCODE, within, KC_LEFT_CTRL, KC_RIGHT_GUI, KC_NO.
    apply andb_prop in Hr as [?%Z.leb_le ?%Z.leb_le]. repeat zcase; (done || lia). }
  pose proof (calm_self k Hs Hok Ho) as Hc. fold w in Hc.
  destruct (weak_mods_run m w k k Hc Hw) as (Hc0 & _ & _). set (k0 := exec (register_weak_mods m) k) in *.
  assert (key_pressed c k0 = false) as Hup0.
  { rewrite <-Hup. apply key_pressed_keys; [apply Hc0|apply Hc0]. }
  assert (k1 = exec send_keyboard_report (with_key c k0)) as Hk1.
  { unfold k1, register_code16. rewrite Hkind, exec_bind. change (exec (do_code16 code register_weak_mods) k) with k0.
    fold c. rewrite register_code_run, Hup0 by done. done. }
  destruct (with_key_frame c k0) as (Hws & Hwr & Hwn & Hwm & Hwt & _).
  assert (calm (Z.lor w m) (with_key c k0) (with_key c k0)) as Hc1.
  { destruct Hc0. rewrite <-calm_weak0, <-Hwm. apply calm_self; [by apply Hws|by apply Hwr|by rewrite Hwm]. }
  destruct (calm_send _ _ _ Hc1) as [Hc1' Hshow1]. rewrite <-Hk1 in Hc1', Hshow1.
  assert (real_mods (mods (with_key c k0)) = real_mods (mods k)) as Hreal1 by (rewrite Hwm; apply Hc0).
  set (ka := with_key c k0) in *.
  destruct (without_key_frame c k1) as (Hos & Hor & Hon & Hom & Hot & _). set (kb := without_key c k1) in *.
  assert (calm (Z.lor w m) kb kb) as Hcb.
  { destruct Hc1'. rewrite <-calm_weak0, <-Hom. apply calm_self; [by apply Hos|by apply Hor|by rewrite Hom]. }
  assert (real_mods (mods kb) = real_mods (mods k)) as Hrealb by (rewrite Hom; destruct Hc1'; congruence).
  destruct (calm_send _ _ _ Hcb) as [Hcb' Hshowb]. set (kc := exec send_keyboard_report kb) in *.
  assert (0 <= Z.lor w m) as Hwm0.
  { apply Z.lor_nonneg. split; [done|]. apply extract_mod_bits_nonneg. }
  destruct (weak_mods_run m _ _ _ Hcb' Hwm0) as (_ & Hc2 & Hshow2). specialize (Hshow2 Hshowb).
  assert (k2 = exec (unregister_weak_mods m) kc) as Hk2.
  { unfold k2, unregister_code16. rewrite Hkind, exec_bind. fold c. rewrite unregister_code_run by done. done. }
  rewrite <-Hk2 in Hc2, Hshow2.
  assert (clear_bits (Z.lor w m) m = clear_bits w m) as Ecl.
  { unfold clear_bits. apply Z.bits_inj'. intros i Hi. rewrite !Z.land_spec, Z.lor_spec, Z.lnot_spec by done.
    by destruct (Z.testbit w i), (Z.testbit m i). }
  pose proof (plain_reportable c (nkro_active k) Hp) as Hrep.
  assert (nkro_active k1 = nkro_active k) as En1 by (destruct Hc1', Hc0; congruence).
  assert (forall key, reportable (nkro_active k) key ->
    key_pressed key k1 = bool_decide (key = c) || key_pressed key k) as Hkey1.
  { intros key Hkey. rewrite (key_pressed_keys key ka k1) by apply Hc1'. unfold ka.
    rewrite (key_pressed_with unbuffered); [|by apply Hc0|done| |by eapply calm_has_room].
    - f_equal. apply key_pressed_keys; apply Hc0.
    - by rewrite (calm_nkro _ _ _ Hc0). }
  split_and!.
  - rewrite Hshow1, Hreal1. f_equal. symmetry. apply Hc1'.
  - rewrite Hshow2, Ecl, Hrealb. f_equal. symmetry. apply Hc2.
  - intros key Hkey. split; [by apply Hkey1|]. rewrite (key_pressed_keys key kb k2) by apply Hc2.
    unfold kb. rewrite (key_pressed_without unbuffered); [|by apply Hc1'|done|by rewrite En1].
    rewrite Hkey1 by done. case_bool_decide as E; [|done]. by rewrite E, Hup.
Qed.
End spec.

(** ** Numbers as characters (quantum.c)

    [get_numeric_str] writes a number with its digits at the end of a buffer;
    [get_u8_str] and [get_u16_str] keep the last number in a buffer of their
    own and write it only when it changes. *)

(** The characters from the last to the first. *)
Fixpoint numeric_chars (len : nat) (first : bool) (curr_num curr_pad : Z) : list Z :=
  match len with
  | O => []
  | S len =>
      let c := 48 + curr_num mod 10 in
      (if (c =? 48) && first then 48 else if 0 <? curr_num then c else curr_pad)
      :: numeric_chars len false (curr_num / 10) curr_pad
  end.
Definition get_numeric_str (buf_len : nat) (curr_num curr_pad : Z) : list Z :=
  rev (numeric_chars (pred buf_len) true curr_num curr_pad) ++ [0].

(** The static variables of one of the two functions. *)
Record number_str := { number_buf : list Z; last_num : Z; last_pad : Z }.
Definition number_str_0 (buf_len : nat) : number_str :=
  {| number_buf := replicate buf_len 0; last_num := 0xFF; last_pad := 0 |}.

Definition get_number_str (buf_len : nat) (curr_num curr_pad : Z) : stm number_str (list Z) :=
  s ← gets (fun s => s);
  if (last_num s =? curr_num) && (last_pad s =? curr_pad) then mret (number_buf s) else
  let buf := get_numeric_str buf_len curr_num curr_pad in
  modify (fun _ => {| number_buf := buf; last_num := curr_num; last_pad := curr_pad |});;
  mret buf.
Definition get_u8_str : Z -> Z -> stm number_str (list Z) := get_number_str 4.
Definition get_u16_str : Z -> Z -> stm number_str (list Z) := get_number_str 6.

(** Reading the digits again. *)
Definition digit_value (c : Z) : Z := if within 48 57 c then c - 48 else 0.
Fixpoint chars_value (cs : list Z) : Z :=
  match cs with [] => 0 | c :: cs => digit_value c + 10 * chars_value cs end.

Lemma numeric_chars_value len first num pad :
  0 <= num < 10 ^ Z.of_nat len -> digit_value pad = 0 -> chars_value (numeric_chars len first num pad) = num.
Proof.
  revert first num. induction len as [|len IH]; intros first num Hn Hpad; [cbn in *; lia|].
  rewrite Nat2Z.inj_succ, Z.pow_succ_r in Hn by lia. cbn [numeric_chars chars_value].
  rewrite IH; [|dlia|done]. pose proof (Z.mod_pos_bound num 10 ltac:(lia)) as Hm.
  assert (digit_value (48 + num mod 10) = num mod 10) as Hd.
  { unfold digit_value, within. destruct (Z.leb_spec 48 (48 + num mod 10)), (Z.leb_spec (48 + num mod 10) 57); cbn; lia. }
  destruct ((48 + num mod 10 =? 48) && first) eqn:E.
  - apply andb_true_iff in E as [?%Z.eqb_eq _]. change (digit_value 48) with 0. dlia.
  - destruct (Z.ltb_spec 0 num); [rewrite Hd; dlia|]. assert (num = 0) as -> by lia. rewrite Hpad. reflexivity.
Qed.

Lemma numeric_chars_length len first num pad : length (numeric_chars len first num pad) = len.
Proof. revert first num. induction len as [|len IH]; intros; cbn; [done|by rewrite IH]. Qed.

(** The variables are those of the last number written, or of none. *)
Definition number_str_ok (len : nat) (s : number_str) : Prop :=
  s = number_str_0 len \/ number_buf s = get_numeric_str len (last_num s) (last_pad s).

(** With a padding other than the terminator the kept string is the one
    that would be written, and its digits are the number's. *)
Theorem number_str_is_decimal len num pad s :
  number_str_ok len s -> pad <> 0 -> digit_value pad = 0 -> (0 < len)%nat -> 0 <= num < 10 ^ (Z.of_nat len - 1) ->
  let cs := eval (get_number_str len num pad) s in
  cs = get_numeric_str len num pad /\ chars_value (rev (removelast cs)) = num /\ length cs = len /\
  number_str_ok len (exec (get_number_str len num pad) s).
Proof.
  intros Hok Hp0 Hpad Hlen Hn cs.
  assert (cs = get_numeric_str len num pad /\ number_str_ok len (exec (get_number_str len num pad) s)) as [-> Hok'].
  { unfold cs, get_number_str, eval, exec. rewrite run_gets.
    destruct (Z.eqb_spec (last_num s) num) as [E1|], (Z.eqb_spec (last_pad s) pad) as [E2|]; cbn [andb];
      try (split; [done|by right]).
    cbn [mret stm_ret fst snd]. split; [|done].
    destruct Hok as [->| ->]; [|by rewrite E1, E2]. by cbn in E2. }
  unfold get_numeric_str. rewrite removelast_last, rev_involutive, length_app, length_rev, !numeric_chars_length.
  rewrite numeric_chars_value; [|by replace (Z.of_nat (pred len)) with (Z.of_nat len - 1) by lia|done].
  cbn [length]. split_and!; [done|done|lia|done].
Qed.
