(* ===== verification/Unicode.v ===== *)
(** * Typing Unicode (quantum/unicode/, process_keycode/process_unicode*.c)

    A code point is typed as its hexadecimal digits between a start and a
    finish that depend on the input mode of the host; a string of UTF-8 is
    decoded code point by code point.  The input mode is kept in the EEPROM. *)

From S2P Require Import Prelude.
From S2P Require Import Keycodes.
From S2P Require Import State.
From S2P Require Import Host.
From S2P Require Import ActionUtil.
From S2P Require Import Action.
From S2P Require Import Eeprom.
From S2P Require Import SendString.
From S2P Require Import Feature.
From S2P Require Import Quantum.

(** ** Decoding UTF-8 (utf8.c)

    A pointer is an address, [mem] what the memory holds; the code point and
    the next address. *)

Definition decode_utf8 (mem : Z -> Z) (str : Z) : Z * Z :=
  let s i := mem (str + i) in
  let '(code_point, next) :=
    if s 0 <? 0x80 then (s 0, str + 1)
    else if Z.land (s 0) 0xE0 =? 0xC0 then
      (Z.lor (Z.shiftl (Z.land (s 0) 0x1F) 6) (Z.shiftl (Z.land (s 1) 0x3F) 0), str + 2)
    else if Z.land (s 0) 0xF0 =? 0xE0 then
      (Z.lor (Z.lor (Z.shiftl (Z.land (s 0) 0x0F) 12) (Z.shiftl (Z.land (s 1) 0x3F) 6))
         (Z.shiftl (Z.land (s 2) 0x3F) 0), str + 3)
    else if (Z.land (s 0) 0xF8 =? 0xF0) && (s 0 <=? 0xF4) then
      (Z.lor (Z.lor (Z.lor (Z.shiftl (Z.land (s 0) 0x07) 18) (Z.shiftl (Z.land (s 1) 0x3F) 12))
         (Z.shiftl (Z.land (s 2) 0x3F) 6)) (Z.shiftl (Z.land (s 3) 0x3F) 0), str + 4)
    else (-1, str + 1) in
  (if (0xD800 <=? code_point) && (code_point <=? 0xDFFF) then -1 else code_point, next).

(** ** Input modes (unicode.c) *)

Definition UNICODE_MODE_MACOS : Z := 0.
Definition UNICODE_MODE_LINUX : Z := 1.
Definition UNICODE_MODE_WINDOWS : Z := 2.
Definition UNICODE_MODE_BSD : Z := 3.
Definition UNICODE_MODE_WINCOMPOSE : Z := 4.
Definition UNICODE_MODE_EMACS : Z := 5.

Class UnicodeConfig `{!EepromDriver} := {
  UNICODE_KEY_MAC : Z;
  UNICODE_KEY_LNX : Z;
  UNICODE_KEY_WINC : Z;
  UNICODE_SELECTED_MODES : list Z;       (* []: not defined *)
  UNICODE_CYCLE_PERSIST : bool;
  UNICODE_TYPE_DELAY : Z;
  EECONFIG_UNICODEMODE : Z;
  unicode_input_mode_set_kb : Z -> stm keyboard unit;
}.

Section unicode.
Context `{!Config} `{!Hooks} `{!SendStringTables} `{!EepromDriver} `{!UnicodeConfig}.

Record unicode := {
  input_mode : Z;
  unicode_saved_mods : Z;
  unicode_saved_led_state : Z;
  selected_index : Z;
  unicode_eeprom : medium;
}.
Abbreviation M := (stm (unicode * keyboard)).

Definition on_unicode_eeprom {A} (m : stm medium A) : M A :=
  own (fun u => let r := m (unicode_eeprom u) in (r.1, u <| unicode_eeprom := r.2 |>)).
Definition put_mode (mode : Z) : M unit := own (modify (fun u => u <| input_mode := mode |>)).
Definition put_selected (i : Z) : M unit := own (modify (fun u => u <| selected_index := i |>)).
Definition get_unicode_input_mode : M Z := own (gets input_mode).

Definition selected (i : Z) : Z := default 0 (UNICODE_SELECTED_MODES !! Z.to_nat i).
Definition selected_count : Z := Z.of_nat (length UNICODE_SELECTED_MODES).

(** The index of the first selected mode that is [mode], or [selected_count]. *)
Fixpoint find_mode (modes : list Z) (mode : Z) : Z :=
  match modes with
  | [] => 0
  | m :: modes => if m =? mode then 0 else 1 + find_mode modes mode
  end.

Definition unicode_input_mode_init : M unit :=
  raw ← on_unicode_eeprom (eeprom_read_byte EECONFIG_UNICODEMODE);
  put_mode raw;;
  (match UNICODE_SELECTED_MODES with
   | [] => skip
   | _ =>
     if UNICODE_CYCLE_PERSIST then
       let i := find_mode UNICODE_SELECTED_MODES raw in
       if i =? selected_count then put_selected 0;; put_mode (selected 0)
       else put_selected i
     else put_selected 0;; put_mode (selected 0)
   end);;
  mode ← get_unicode_input_mode;
  core (unicode_input_mode_set_kb mode).

Definition persist_unicode_input_mode : M unit :=
  mode ← get_unicode_input_mode;
  on_unicode_eeprom (eeprom_update_byte EECONFIG_UNICODEMODE mode).

Definition set_unicode_input_mode (mode : Z) : M unit :=
  put_mode mode;;
  persist_unicode_input_mode;;
  core (unicode_input_mode_set_kb mode).

Definition cycle_unicode_input_mode (offset : Z) : M unit :=
  match UNICODE_SELECTED_MODES with
  | [] => skip
  | _ =>
    i ← own (gets selected_index);
    let i := Z.rem (i + offset) selected_count in
    let i := if i <? 0 then i + selected_count else i in
    put_selected i;;
    put_mode (selected i);;
    when UNICODE_CYCLE_PERSIST persist_unicode_input_mode;;
    core (unicode_input_mode_set_kb (selected i))
  end.

Definition unicode_input_mode_step : M unit := cycle_unicode_input_mode 1.
Definition unicode_input_mode_step_reverse : M unit := cycle_unicode_input_mode (-1).

(** ** Typing *)

Definition LCTL (kc : Z) : Z := Z.lor QK_LCTL kc.
Definition caps_lock (leds : Z) : bool := Z.testbit leds 1.
Definition num_lock (leds : Z) : bool := Z.testbit leds 0.

Definition start_keys (mode leds : Z) : stm keyboard unit :=
  if mode =? UNICODE_MODE_MACOS then register_code UNICODE_KEY_MAC
  else if mode =? UNICODE_MODE_LINUX then tap_code16 UNICODE_KEY_LNX
  else if mode =? UNICODE_MODE_WINDOWS then
    when (negb (num_lock leds)) (tap_code KC_NUM_LOCK);;
    register_code KC_LEFT_ALT;;
    emit (WaitMs UNICODE_TYPE_DELAY);;
    tap_code KC_KP_PLUS
  else if mode =? UNICODE_MODE_WINCOMPOSE then tap_code UNICODE_KEY_WINC;; tap_code KC_U
  else when (mode =? UNICODE_MODE_EMACS)
    (tap_code16 (LCTL KC_X);; tap_code16 KC_8;; tap_code16 KC_ENTER).

Definition unicode_input_start : M unit :=
  leds ← core host_keyboard_leds;
  own (modify (fun u => u <| unicode_saved_led_state := leds |>));;
  mode ← get_unicode_input_mode;
  core (when ((mode =? UNICODE_MODE_LINUX) && caps_lock leds) (tap_code KC_CAPS_LOCK));;
  m ← core get_mods;
  own (modify (fun u => u <| unicode_saved_mods := m |>));;
  core clear_mods;;
  core clear_weak_mods;;
  core (start_keys mode leds);;
  core (emit (WaitMs UNICODE_TYPE_DELAY)).

Definition finish_keys (mode leds : Z) : stm keyboard unit :=
  if mode =? UNICODE_MODE_MACOS then unregister_code UNICODE_KEY_MAC
  else if mode =? UNICODE_MODE_LINUX then
    tap_code KC_SPACE;; when (caps_lock leds) (tap_code KC_CAPS_LOCK)
  else if mode =? UNICODE_MODE_WINDOWS then
    unregister_code KC_LEFT_ALT;; when (negb (num_lock leds)) (tap_code KC_NUM_LOCK)
  else if mode =? UNICODE_MODE_WINCOMPOSE then tap_code KC_ENTER
  else when (mode =? UNICODE_MODE_EMACS) (tap_code16 KC_ENTER).

Definition cancel_keys (mode leds : Z) : stm keyboard unit :=
  if mode =? UNICODE_MODE_MACOS then unregister_code UNICODE_KEY_MAC
  else if mode =? UNICODE_MODE_LINUX then
    tap_code KC_ESCAPE;; when (caps_lock leds) (tap_code KC_CAPS_LOCK)
  else if mode =? UNICODE_MODE_WINCOMPOSE then tap_code KC_ESCAPE
  else if mode =? UNICODE_MODE_WINDOWS then
    unregister_code KC_LEFT_ALT;; when (negb (num_lock leds)) (tap_code KC_NUM_LOCK)
  else when (mode =? UNICODE_MODE_EMACS) (tap_code16 (LCTL KC_G)).

(** The saved modifiers are registered again. *)
Definition end_input (keys : Z -> Z -> stm keyboard unit) : M unit :=
  u ← own (gets (fun u => u));
  core (keys (input_mode u) (unicode_saved_led_state u));;
  core (set_mods (unicode_saved_mods u)).
Definition unicode_input_finish : M unit := end_input finish_keys.
Definition unicode_input_cancel : M unit := end_input cancel_keys.

Definition send_nibble_wrapper (digit : Z) : M unit :=
  mode ← get_unicode_input_mode;
  if mode =? UNICODE_MODE_WINDOWS then
    core (tap_code (u8 (if digit <? 10 then KC_KP_1 + (10 + digit - 1) mod 10 else KC_A + (digit - 10))))
  else core (send_nibble digit);; skip.

Definition nibble (hex i : Z) : Z := Z.land (Z.shiftr hex (i * 4)) 0xF.

Definition register_hex (hex : Z) : M unit :=
  send_nibble_wrapper (nibble hex 3);; send_nibble_wrapper (nibble hex 2);;
  send_nibble_wrapper (nibble hex 1);; send_nibble_wrapper (nibble hex 0).

(** The loop over the nibbles [n - 1] down to 0. *)
Fixpoint hex32_loop (n : nat) (hex : Z) (first_digit needs_leading_zero : bool) : M unit :=
  match n with
  | O => skip
  | S n =>
      let i := Z.of_nat n in
      let digit := nibble hex i in
      when (first_digit && needs_leading_zero && (9 <? digit)) (send_nibble_wrapper 0);;
      let must_send := i <? 4 in
      if nz digit || negb first_digit || must_send then
        send_nibble_wrapper digit;; hex32_loop n hex false needs_leading_zero
      else hex32_loop n hex first_digit needs_leading_zero
  end.
Definition register_hex32 (hex : Z) : M unit :=
  mode ← get_unicode_input_mode;
  hex32_loop 8 hex true (mode =? UNICODE_MODE_WINCOMPOSE).

Definition register_unicode (code_point : Z) : M unit :=
  mode ← get_unicode_input_mode;
  if (0x10FFFF <? code_point) || ((0xFFFF <? code_point) && (mode =? UNICODE_MODE_WINDOWS)) then skip else
  unicode_input_start;;
  (if (0xFFFF <? code_point) && (mode =? UNICODE_MODE_MACOS) then
     let code_point := code_point - 0x10000 in
     let lo := Z.land code_point 0x3FF in
     let hi := Z.shiftr (Z.land code_point 0xFFC00) 10 in
     register_hex32 (hi + 0xD800);; register_hex32 (lo + 0xDC00)
   else register_hex32 code_point);;
  unicode_input_finish.

(** Whether the end of the string was found. *)
Fixpoint send_unicode_loop (fuel : nat) (mem : Z -> Z) (str : Z) : M bool :=
  if mem str =? 0 then mret true else
  match fuel with
  | O => mret false
  | S fuel =>
      let '(code_point, next) := decode_utf8 mem str in
      when (0 <=? code_point) (register_unicode code_point);;
      send_unicode_loop fuel mem next
  end.
(** [str] is NULL when there is none. *)
Definition send_unicode_string (fuel : nat) (mem : Z -> Z) (str : option Z) : M bool :=
  match str with None => mret true | Some str => send_unicode_loop fuel mem str end.

(** ** The keycodes (process_unicode_common.c, process_unicode.c) *)

Definition QK_UNICODE_GET_CODE_POINT (kc : Z) : Z := Z.land kc 0x7FFF.

Definition process_unicode (keycode : Z) (r : keyrecord_t) : M bool :=
  when (pressed (event r) && within QK_UNICODE QK_UNICODE_MAX keycode)
    (register_unicode (QK_UNICODE_GET_CODE_POINT keycode));;
  mret true.

(** With UNICODE_ENABLE. *)
Definition process_unicode_common (keycode : Z) (r : keyrecord_t) : M bool :=
  when (pressed (event r)) (
    m ← core get_mods;
    let shifted := nz (Z.land m MOD_MASK_SHIFT) in
    if keycode =? QK_UNICODE_MODE_NEXT then
      if shifted then unicode_input_mode_step_reverse else unicode_input_mode_step
    else if keycode =? QK_UNICODE_MODE_PREVIOUS then
      if shifted then unicode_input_mode_step else unicode_input_mode_step_reverse
    else if keycode =? QK_UNICODE_MODE_MACOS then set_unicode_input_mode UNICODE_MODE_MACOS
    else if keycode =? QK_UNICODE_MODE_LINUX then set_unicode_input_mode UNICODE_MODE_LINUX
    else if keycode =? QK_UNICODE_MODE_WINDOWS then set_unicode_input_mode UNICODE_MODE_WINDOWS
    else if keycode =? QK_UNICODE_MODE_BSD then set_unicode_input_mode UNICODE_MODE_BSD
    else if keycode =? QK_UNICODE_MODE_WINCOMPOSE then set_unicode_input_mode UNICODE_MODE_WINCOMPOSE
    else when (keycode =? QK_UNICODE_MODE_EMACS) (set_unicode_input_mode UNICODE_MODE_EMACS));;
  process_unicode keycode r.
End unicode.
