(* ===== verification/UnicodeSpec.v ===== *)
(** * Unicode: what is typed

    Decoding inverts UTF-8; a number is typed as its hexadecimal digits; typing
    leaves the modifiers and the input mode as they were; the input mode
    survives a restart. *)

From S2P Require Import Prelude.
From S2P Require Import Keycodes.
From S2P Require Import State.
From S2P Require Import Host.
From S2P Require Import ActionUtil.
From S2P Require Import Action.
From S2P Require Import TypingSpec.
From S2P Require Import Eeprom.
From S2P Require Import SendString.
From S2P Require Import Feature.
From S2P Require Import Quantum.
From S2P Require Import Unicode.

(** ** UTF-8 *)

Definition scalar (cp : Z) : Prop := 0 < cp <= 0x10FFFF /\ ~ 0xD800 <= cp <= 0xDFFF.

(** The reference encoder. *)
Definition encode_utf8 (cp : Z) : list Z :=
  if cp <? 0x80 then [cp]
  else if cp <? 0x800 then [0xC0 + cp / 64; 0x80 + cp mod 64]
  else if cp <? 0x10000 then [0xE0 + cp / 4096; 0x80 + cp / 64 mod 64; 0x80 + cp mod 64]
  else [0xF0 + cp / 262144; 0x80 + cp / 4096 mod 64; 0x80 + cp / 64 mod 64; 0x80 + cp mod 64].

(** [bs] is in memory from [str] on. *)
Definition loaded (mem : Z -> Z) (str : Z) (bs : list Z) : Prop :=
  forall i b, bs !! i = Some b -> mem (str + Z.of_nat i) = b.

Lemma loaded_app mem str bs1 bs2 : loaded mem str (bs1 ++ bs2) ->
  loaded mem str bs1 /\ loaded mem (str + Z.of_nat (length bs1)) bs2.
Proof.
  intros Hl. split; intros i b Hb.
  - apply Hl. by apply lookup_app_l_Some.
  - replace (str + Z.of_nat (length bs1) + Z.of_nat i) with (str + Z.of_nat (length bs1 + i)) by lia.
    apply Hl. rewrite lookup_app_r by lia. by replace (length bs1 + i - length bs1)%nat with i by lia.
Qed.

Lemma continuation b : 0 <= b < 64 -> Z.land (0x80 + b) 0x3F = b.
Proof.
  intros Hb. apply Z.eqb_eq.
  exact (all_below_spec 64 (fun b => Z.land (0x80 + b) 0x3F =? b) b ltac:(by vm_compute) Hb).
Qed.

Lemma lead_2 a : 0 <= a < 32 -> (0xC0 + a <? 0x80) = false /\ Z.land (0xC0 + a) 0xE0 = 0xC0 /\ Z.land (0xC0 + a) 0x1F = a.
Proof.
  intros Ha. assert (all_below 32 (fun a => (Z.land (0xC0 + a) 0xE0 =? 0xC0) && (Z.land (0xC0 + a) 0x1F =? a)) = true) as Hall
    by by vm_compute.
  pose proof (all_below_spec _ _ a Hall Ha) as Hx. clear Hall. apply andb_true_iff in Hx as [E1%Z.eqb_eq E2%Z.eqb_eq].
  split; [apply Z.ltb_ge; lia|by split].
Qed.

Lemma lead_3 a : 0 <= a < 16 -> (0xE0 + a <? 0x80) = false /\ (Z.land (0xE0 + a) 0xE0 =? 0xC0) = false /\
  Z.land (0xE0 + a) 0xF0 = 0xE0 /\ Z.land (0xE0 + a) 0x0F = a.
Proof.
  intros Ha. assert (all_below 16 (fun a => negb (Z.land (0xE0 + a) 0xE0 =? 0xC0) &&
    ((Z.land (0xE0 + a) 0xF0 =? 0xE0) && (Z.land (0xE0 + a) 0x0F =? a))) = true) as Hall by by vm_compute.
  pose proof (all_below_spec _ _ a Hall Ha) as Hx. clear Hall.
  apply andb_true_iff in Hx as [E0%negb_true_iff [E1%Z.eqb_eq E2%Z.eqb_eq]%andb_true_iff].
  split; [apply Z.ltb_ge; lia|by split_and!].
Qed.

Lemma lead_4 a : 0 <= a <= 4 -> (0xF0 + a <? 0x80) = false /\ (Z.land (0xF0 + a) 0xE0 =? 0xC0) = false /\
  (Z.land (0xF0 + a) 0xF0 =? 0xE0) = false /\ (Z.land (0xF0 + a) 0xF8 =? 0xF0) && (0xF0 + a <=? 0xF4) = true /\
  Z.land (0xF0 + a) 0x07 = a.
Proof.
  intros Ha. assert (a = 0 \/ a = 1 \/ a = 2 \/ a = 3 \/ a = 4) as [-> | [-> | [-> | [-> | ->]]]] by lia; by vm_compute.
Qed.

(** Bit fields put together are sums. *)
Lemma join n a b : 0 <= n -> 0 <= b < 2 ^ n -> Z.lor (Z.shiftl a n) b = a * 2 ^ n + b.
Proof.
  intros Hn Hb. rewrite Z.shiftl_mul_pow2 by done. apply (lor_add n); [done| |done]. apply Z.mod_mul. lia.
Qed.

Lemma not_surrogate cp : scalar cp -> (0xD800 <=? cp) && (cp <=? 0xDFFF) = false.
Proof. intros [_ H]. repeat zcase; (done || lia). Qed.

Ltac bytes :=
  change (Z.to_nat 0) with 0%nat; change (Z.to_nat 1) with 1%nat; change (Z.to_nat 2) with 2%nat;
  change (Z.to_nat 3) with 3%nat; cbn [lookup_total list_lookup_total length].

Lemma decode_encode mem str cp : scalar cp -> loaded mem str (encode_utf8 cp) ->
  decode_utf8 mem str = (cp, str + Z.of_nat (length (encode_utf8 cp))).
Proof.
  intros Hcp Hl. pose proof (not_surrogate cp Hcp) as Hs. destruct Hcp as [Hcp _].
  assert (forall i, 0 <= i < Z.of_nat (length (encode_utf8 cp)) -> mem (str + i) = encode_utf8 cp !!! Z.to_nat i) as Hm.
  { intros i Hi. replace i with (Z.of_nat (Z.to_nat i)) at 1 by lia. apply Hl. apply list_lookup_lookup_total_lt. lia. }
  clear Hl. unfold decode_utf8. cbv zeta. unfold encode_utf8 in *. destruct (Z.ltb_spec cp 0x80) as [H1|H1].
  { rewrite (Hm 0) by (cbn; lia). bytes. destruct (Z.ltb_spec cp 128); [|lia]. by rewrite Hs. }
  destruct (Z.ltb_spec cp 0x800) as [H2|H2].
  { rewrite (Hm 0), (Hm 1) by (cbn; lia). bytes.
    destruct (lead_2 (cp / 64)) as (-> & -> & ->); [dlia|]. rewrite Z.eqb_refl, Z.shiftl_0_r, continuation by dlia.
    rewrite (join 6) by dlia. assert (cp / 64 * 2 ^ 6 + cp mod 64 = cp) as -> by dlia. by rewrite Hs. }
  destruct (Z.ltb_spec cp 0x10000) as [H3|H3].
  { rewrite (Hm 0), (Hm 1), (Hm 2) by (cbn; lia). bytes.
    destruct (lead_3 (cp / 4096)) as (-> & -> & -> & ->); [dlia|].
    rewrite Z.eqb_refl, Z.shiftl_0_r, !continuation by dlia.
    rewrite <-Z.lor_assoc, (join 6), (join 12) by dlia.
    assert (cp / 4096 * 2 ^ 12 + (cp / 64 mod 64 * 2 ^ 6 + cp mod 64) = cp) as -> by dlia. by rewrite Hs. }
  rewrite (Hm 0), (Hm 1), (Hm 2), (Hm 3) by (cbn; lia). bytes.
  destruct (lead_4 (cp / 262144)) as (-> & -> & -> & -> & ->); [dlia|].
  rewrite Z.shiftl_0_r, !continuation by dlia.
  rewrite <-!Z.lor_assoc, (join 6), (join 12), (join 18) by dlia.
  assert (cp / 262144 * 2 ^ 18 + (cp / 4096 mod 64 * 2 ^ 12 + (cp / 64 mod 64 * 2 ^ 6 + cp mod 64)) = cp) as -> by dlia.
  by rewrite Hs.
Qed.

Lemma encode_nonzero cp : scalar cp -> exists b bs, encode_utf8 cp = b :: bs /\ 0 < b.
Proof.
  intros [Hcp _]. unfold encode_utf8. repeat zcase; do 2 eexists; (split; [reflexivity|]); dlia.
Qed.

(** ** Hexadecimal digits *)

(** The low [n] digits, most significant first; without zeros in front of the
    last four; and what they stand for. *)
Fixpoint nibbles (n : nat) (hex : Z) : list Z :=
  match n with O => [] | S n => nibble hex (Z.of_nat n) :: nibbles n hex end.
Fixpoint significant (ds : list Z) : list Z :=
  match ds with
  | d :: ds' => if (d =? 0) && (4 <=? length ds')%nat then significant ds' else ds
  | [] => []
  end.
Definition value_from (a : Z) (ds : list Z) : Z := foldl (fun a d => 16 * a + d) a ds.
Definition value (ds : list Z) : Z := value_from 0 ds.
(** WinCompose takes a leading letter for a command. *)
Definition leading_zero (wincompose : bool) (ds : list Z) : list Z :=
  match ds with d :: _ => if wincompose && (9 <? d) then [0] else [] | [] => [] end.

Lemma length_nibbles n hex : length (nibbles n hex) = n.
Proof. induction n; cbn; auto. Qed.

Lemma nibble_div hex i : 0 <= i -> nibble hex i = hex / 2 ^ (4 * i) mod 16.
Proof.
  intros Hi. unfold nibble. rewrite Z.shiftr_div_pow2 by lia. replace (i * 4) with (4 * i) by lia.
  change 0xF with (Z.ones 4). by rewrite Z.land_ones.
Qed.

Lemma nibble_range hex i : 0 <= i -> 0 <= nibble hex i < 16.
Proof. intros. rewrite nibble_div by done. apply Z.mod_pos_bound. lia. Qed.

Lemma value_nibbles n : forall a hex, 0 <= hex ->
  value_from a (nibbles n hex) = a * 2 ^ (4 * Z.of_nat n) + hex mod 2 ^ (4 * Z.of_nat n).
Proof.
  induction n as [|n IH]; intros a hex Hhex; cbn [nibbles].
  - change (a = a * 1 + hex mod 1). rewrite Z.mod_1_r. lia.
  - change (value_from a (?d :: ?ds)) with (value_from (16 * a + d) ds). rewrite IH by done.
    rewrite nibble_div by lia. set (p := 2 ^ (4 * Z.of_nat n)).
    assert (2 ^ (4 * Z.of_nat (S n)) = p * 16) as ->.
    { unfold p. replace (4 * Z.of_nat (S n)) with (4 * Z.of_nat n + 4) by lia. by rewrite Z.pow_add_r by lia. }
    assert (0 < p) by (apply Z.pow_pos_nonneg; lia). rewrite Zmod_recombine || rewrite Z.rem_mul_r by lia. lia.
Qed.

Lemma value_significant ds : value (significant ds) = value ds.
Proof.
  induction ds as [|d ds IH]; [done|]. cbn [significant]. destruct (Z.eqb_spec d 0) as [->|]; [|done]. cbn [andb].
  destruct (4 <=? length ds)%nat; [|done]. by rewrite IH.
Qed.

Lemma significant_shape ds : (4 <= length ds)%nat ->
  (4 <= length (significant ds))%nat /\
  ((4 < length (significant ds))%nat -> forall d, hd_error (significant ds) = Some d -> d <> 0).
Proof.
  induction ds as [|d ds IH]; intros Hl; [cbn in Hl; lia|]. cbn [significant].
  destruct (Z.eqb_spec d 0) as [->|Hd]; cbn [andb].
  - destruct (Nat.leb_spec 4 (length ds)); [by apply IH|]. cbn in *. split; [done|lia].
  - split; [done|]. intros _ d' [= <-]. done.
Qed.

Lemma Forall_significant (P : Z -> Prop) ds : Forall P ds -> Forall P (significant ds).
Proof. induction 1 as [|d ds Hd Hds IH]; [done|]. cbn [significant]. destruct (_ && _); [done|by constructor]. Qed.

Section typing.
Context `{!Config} `{!Hooks} `{!SendStringTables} `{!EepromDriver} `{!UnicodeConfig}.
Implicit Types (u : unicode) (k : keyboard).

Fixpoint send_digits (ds : list Z) : stm (unicode * keyboard) unit :=
  match ds with [] => skip | d :: ds => send_nibble_wrapper d;; send_digits ds end.
Fixpoint register_all (cps : list Z) : stm (unicode * keyboard) unit :=
  match cps with [] => skip | cp :: cps => register_unicode cp;; register_all cps end.

Lemma run_unit {S} (m : stm S unit) s : m s = (tt, exec m s).
Proof. unfold exec. by destruct (m s) as [[] ?]. Qed.

Lemma send_digits_app ds1 ds2 s : send_digits (ds1 ++ ds2) s = (send_digits ds1;; send_digits ds2) s.
Proof.
  revert s. induction ds1 as [|d ds1 IH]; intros s; [done|]. cbn [app send_digits].
  rewrite run_assoc. rewrite !(run_eval (send_nibble_wrapper d)). apply IH.
Qed.

Lemma hex32_rest n hex z s : hex32_loop n hex false z s = send_digits (nibbles n hex) s.
Proof.
  revert s. induction n as [|n IH]; intros s; [done|]. cbn [hex32_loop nibbles send_digits andb negb when].
  rewrite run_skip, orb_true_r. cbn [orb]. rewrite !run_eval. apply IH.
Qed.

Lemma hex32_start n hex z : forall s, let ds := significant (nibbles n hex) in
  hex32_loop n hex true z s = send_digits (leading_zero z ds ++ ds) s.
Proof.
  induction n as [|n IH]; intros s; [done|]. cbv zeta in *. cbn [hex32_loop nibbles significant].
  rewrite length_nibbles. set (d := nibble hex (Z.of_nat n)). cbn [andb negb].
  assert ((Z.of_nat n <? 4) = negb (4 <=? n)%nat) as ->.
  { destruct (Nat.leb_spec 4 n); [apply Z.ltb_ge; lia|apply Z.ltb_lt; lia]. }
  unfold nz. rewrite orb_false_r. destruct (Z.eqb_spec d 0) as [Hd|Hd]; cbn [negb andb orb].
  - destruct (4 <=? n)%nat; cbn [negb].
    + assert (z && (9 <? d) = false) as -> by (rewrite Hd; apply andb_false_r). cbn [when]. rewrite run_skip. apply IH.
    + cbn [leading_zero]. assert (z && (9 <? d) = false) as -> by (rewrite Hd; apply andb_false_r).
      cbn [when]. rewrite run_skip. cbn [app send_digits]. rewrite !(run_eval (send_nibble_wrapper d)). apply hex32_rest.
  - cbn [leading_zero]. destruct (z && (9 <? d)); cbn [when app send_digits].
    + rewrite !(run_eval (send_nibble_wrapper 0)), !(run_eval (send_nibble_wrapper d)). apply hex32_rest.
    + rewrite run_skip, !(run_eval (send_nibble_wrapper d)). apply hex32_rest.
Qed.

(** A number is typed as its hexadecimal digits, at least four of them and
    without other zeros in front, except that WinCompose gets a zero before a
    letter. *)
Theorem register_hex32_types hex u k :
  0 <= hex < 2 ^ 32 ->
  exists ds, register_hex32 hex (u, k) =
      send_digits (leading_zero (input_mode u =? UNICODE_MODE_WINCOMPOSE) ds ++ ds) (u, k) /\
    value ds = hex /\ Forall (fun d => 0 <= d < 16) ds /\ (4 <= length ds <= 8)%nat /\
    ((4 < length ds)%nat -> forall d, hd_error ds = Some d -> d <> 0).
Proof.
  intros Hhex. exists (significant (nibbles 8 hex)).
  destruct (significant_shape (nibbles 8 hex)) as [Hlen Hhd]; [rewrite length_nibbles; lia|]. split_and!.
  - unfold register_hex32, get_unicode_input_mode. rewrite (run_own (gets input_mode)). apply hex32_start.
  - rewrite value_significant. unfold value. rewrite value_nibbles by lia. rewrite Z.mod_small by (norm_pow; lia). lia.
  - apply Forall_significant. repeat constructor; by apply nibble_range.
  - done.
  - clear. assert (forall ds, (length (significant ds) <= length ds)%nat) as Hle.
    { induction ds as [|d ds IH]; [done|]. cbn [significant]. destruct (_ && _); cbn; lia. }
    etransitivity; [apply Hle|]. by rewrite length_nibbles.
  - done.
Qed.

(** ** What typing leaves as it was *)

Definition same_mode u u' : Prop :=
  input_mode u' = input_mode u /\ selected_index u' = selected_index u /\ unicode_eeprom u' = unicode_eeprom u.

Lemma start_saves u k :
  let s := exec unicode_input_start (u, k) in
  same_mode u s.1 /\ unicode_saved_mods s.1 = real_mods (mods k).
Proof.
  cbv zeta. unfold unicode_input_start, get_unicode_input_mode, exec at 1 2.
  set (caps := when ((input_mode u =? UNICODE_MODE_LINUX) && caps_lock (host_keyboard_leds k).1) (tap_code KC_CAPS_LOCK)).
  set (k0 := (caps (host_keyboard_leds k).2).2).
  assert (real_mods (mods k0) = real_mods (mods k)) as E.
  { unfold k0, caps. change ((host_keyboard_leds k).2) with k. destruct (_ && _); [|done].
    exact (tap_basic_keeps_real (real_mods (mods k)) KC_CAPS_LOCK eq_refl ltac:(done) ltac:(done) ltac:(done) k eq_refl). }
  rewrite <-E. by split_and!.
Qed.

Lemma preserves_own_same (P : unicode -> Prop) {A} (m : stm keyboard A) :
  preserves (fun s : unicode * keyboard => P s.1) (core m).
Proof. by intros s. Qed.

Lemma digits_keep_own u ds : preserves (fun s : unicode * keyboard => s.1 = u) (send_digits ds).
Proof.
  induction ds as [|d ds IH]; cbn [send_digits]; [by preserve|]. apply preserves_bind; [|done].
  unfold send_nibble_wrapper, get_unicode_input_mode. apply preserves_bind; [by intros s|]. intros mode.
  destruct (_ =? _); [by intros s|]. by intros s.
Qed.

Lemma hex32_keeps_own u hex : preserves (fun s : unicode * keyboard => s.1 = u) (register_hex32 hex).
Proof.
  intros s Hs. unfold register_hex32, get_unicode_input_mode, exec. rewrite (run_own (gets input_mode)).
  rewrite hex32_start. by apply digits_keep_own.
Qed.

(** Typing a code point leaves the real modifiers, the input mode and the
    EEPROM as they were. *)
Theorem register_unicode_restores cp u k :
  let s := exec (register_unicode cp) (u, k) in
  real_mods (mods s.2) = real_mods (mods k) /\ same_mode u s.1.
Proof.
  cbv zeta. unfold register_unicode, get_unicode_input_mode, exec at 1 2. rewrite (run_own (gets input_mode)).
  cbn [gets fst snd]. destruct (_ || _); [by split_and!|].
  destruct (start_saves u k) as [Hsame Hsaved]. set (s := exec unicode_input_start (u, k)) in *.
  rewrite run_eval. fold s. 
  match goal with |- context [if ?b then ?x else register_hex32 cp] => set (digits := if b then x else register_hex32 cp) end.
  assert (preserves (fun s' : unicode * keyboard => s'.1 = s.1) digits) as Hd.
  { unfold digits. destruct (_ && _); [apply preserves_bind; [|intros _]|]; apply hex32_keeps_own. }
  specialize (Hd s eq_refl). rewrite run_eval. set (s' := exec digits s) in *.
  unfold unicode_input_finish, end_input. rewrite (run_own (gets _)). cbn [gets fst snd].
  rewrite run_core. rewrite Hd, Hsaved. by split.
Qed.

(** ** Strings *)

Lemma send_unicode_run cps mem : forall fuel str s,
  Forall scalar cps -> loaded mem str (concat (encode_utf8 <$> cps) ++ [0]) -> (length cps <= fuel)%nat ->
  send_unicode_loop fuel mem str s = (true, exec (register_all cps) s).
Proof.
  induction cps as [|cp cps IH]; intros fuel str s Hcps Hl Hf.
  - assert (mem str = 0) as E by (rewrite <-(Z.add_0_r str); by apply (Hl 0%nat)).
    destruct fuel; cbn [send_unicode_loop]; by rewrite E.
  - destruct fuel as [|fuel]; [cbn in Hf; lia|]. apply Forall_cons in Hcps as [Hcp Hcps].
    cbn [fmap list_fmap concat] in Hl. rewrite <-app_assoc in Hl. apply loaded_app in Hl as [Hcpl Hl].
    cbn [send_unicode_loop]. destruct (encode_nonzero cp Hcp) as (b & bs & Eb & Hb).
    assert (mem str = b) as -> by (rewrite <-(Z.add_0_r str); apply (Hcpl 0%nat); by rewrite Eb).
    destruct (Z.eqb_spec b 0); [lia|]. rewrite (decode_encode mem str cp Hcp Hcpl).
    destruct (Z.leb_spec 0 cp) as [_|]; [|destruct Hcp; lia]. cbn [when]. rewrite run_eval.
    rewrite IH; [done|done|done|cbn in Hf; lia].
Qed.

(** C24: A string of UTF-8 is typed code point by code point, and the loop ends
    at its terminator. *)
Theorem send_unicode_string_types cps mem str fuel s :
  Forall scalar cps -> loaded mem str (concat (encode_utf8 <$> cps) ++ [0]) -> (length cps <= fuel)%nat ->
  send_unicode_string fuel mem (Some str) s = (true, exec (register_all cps) s).
Proof. apply send_unicode_run. Qed.

(** The terminator of a string that ends inside a code point is taken for
    part of it: reading goes on in the memory after the string. *)
Theorem truncated_utf8_reads_on mem str fuel s :
  0xC0 <= mem str < 0xE0 -> mem (str + 1) = 0 ->
  send_unicode_string (S fuel) mem (Some str) s =
  (register_unicode (Z.shiftl (mem str - 0xC0) 6);; send_unicode_string fuel mem (Some (str + 2))) s.
Proof.
  intros Hm Hend. cbn [send_unicode_string send_unicode_loop]. destruct (Z.eqb_spec (mem str) 0); [lia|].
  unfold decode_utf8. cbv zeta. rewrite Z.add_0_r, Hend.
  destruct (lead_2 (mem str - 0xC0)) as (E1 & E2 & E3); [lia|].
  replace (0xC0 + (mem str - 0xC0)) with (mem str) in E1, E2, E3 by lia. rewrite E1, E2, E3, Z.eqb_refl.
  change (Z.shiftl (Z.land 0 0x3F) 0) with 0. rewrite Z.lor_0_r.
  assert (0 <= Z.shiftl (mem str - 0xC0) 6 < 0x800) as Hr by (rewrite Z.shiftl_mul_pow2 by lia; norm_pow; lia).
  destruct (_ && _) eqn:E; [apply andb_prop in E as [?%Z.leb_le _]; lia|].
  by destruct (Z.leb_spec 0 (Z.shiftl (mem str - 0xC0) 6)); [|lia].
Qed.

(** ** The input mode *)

Context {size : Z} `{!EepromOk size}.
Hypothesis mode_in_eeprom : in_eeprom (size := size) EECONFIG_UNICODEMODE.

(** What the EEPROM says the mode is. *)
Definition stored_mode u : Z := byte_at (eeprom_bytes (unicode_eeprom u)) EECONFIG_UNICODEMODE.

Definition is_selected (mode : Z) : Prop := UNICODE_SELECTED_MODES = [] \/ mode ∈ UNICODE_SELECTED_MODES.

Definition restart u : unicode :=
  {| input_mode := 0; unicode_saved_mods := 0; unicode_saved_led_state := 0; selected_index := 0;
     unicode_eeprom := unicode_eeprom u |}.

Lemma persist_run u k : eeprom_usable (unicode_eeprom u) -> is_byte (input_mode u) ->
  exists m', persist_unicode_input_mode (u, k) = (tt, (u <| unicode_eeprom := m' |>, k)) /\
    eeprom_usable m' /\ stored_mode (u <| unicode_eeprom := m' |>) = input_mode u.
Proof using All.
  intros Hu Hb. unfold persist_unicode_input_mode, get_unicode_input_mode. rewrite (run_own (gets input_mode)).
  cbn [gets fst snd].
  destruct (computes_update_byte (eeprom_bytes (unicode_eeprom u)) EECONFIG_UNICODEMODE (input_mode u)
    mode_in_eeprom Hb (unicode_eeprom u) Hu eq_refl) as (m' & E & Hu' & Ed).
  exists m'. unfold on_unicode_eeprom, own. cbn [fst snd]. rewrite E. split_and!; [done|done|].
  unfold stored_mode. change (unicode_eeprom (u <| unicode_eeprom := m' |>)) with m'. rewrite Ed.
  unfold byte_at. rewrite list_lookup_insert_eq; [done|].
  pose proof (eeprom_size _ Hu). unfold in_eeprom in mode_in_eeprom. lia.
Qed.

Lemma find_mode_spec modes mode : 0 <= find_mode modes mode <= Z.of_nat (length modes) /\
  (mode ∈ modes -> find_mode modes mode < Z.of_nat (length modes) /\ modes !! Z.to_nat (find_mode modes mode) = Some mode).
Proof.
  induction modes as [|m modes [Hr IH]]; [split; [cbn; lia|by intros ?%elem_of_nil]|]. cbn [find_mode length].
  destruct (Z.eqb_spec m mode) as [->|Hne]; [split; [lia|]; intros _; split; [lia|done]|].
  split; [lia|]. intros [->|Hin]%elem_of_cons; [done|]. destruct (IH Hin) as [Hlt Hlook]. split; [lia|].
  replace (Z.to_nat (1 + find_mode modes mode)) with (S (Z.to_nat (find_mode modes mode))) by lia. done.
Qed.

Lemma init_finds u k : eeprom_usable (unicode_eeprom u) -> is_selected (stored_mode u) ->
  UNICODE_SELECTED_MODES = [] \/ UNICODE_CYCLE_PERSIST = true ->
  input_mode (exec unicode_input_mode_init (u, k)).1 = stored_mode u.
Proof using All.
  intros Hu Hsel Hpersist. unfold unicode_input_mode_init, exec.
  destruct (computes_read_byte (eeprom_bytes (unicode_eeprom u)) EECONFIG_UNICODEMODE
    mode_in_eeprom (unicode_eeprom u) Hu eq_refl) as (m' & E & Hu' & Ed).
  set (u1 := u <| unicode_eeprom := m' |>).
  assert (on_unicode_eeprom (eeprom_read_byte EECONFIG_UNICODEMODE) (u, k) = (stored_mode u, (u1, k))) as Er
    by (unfold on_unicode_eeprom, own; cbn [fst snd]; by rewrite E).
  rewrite (run_bind _ _ _ _ _ Er).
  unfold put_mode, put_selected. rewrite run_own. cbn [modify fst snd].
  assert (forall (m : stm (unicode * keyboard) unit) s,
    input_mode ((m;; mode ← get_unicode_input_mode; core (unicode_input_mode_set_kb mode)) s).2.1
      = input_mode (exec m s).1) as Hlast by done.
  rewrite Hlast. cbn [fst snd]. destruct UNICODE_SELECTED_MODES as [|m0 modes] eqn:Em; [done|].
  destruct Hpersist as [|Hp]; [done|]. rewrite Hp. destruct Hsel as [|Hin]; [congruence|].
  destruct (find_mode_spec UNICODE_SELECTED_MODES (stored_mode u)) as [_ Hfound].
  destruct (Hfound Hin) as [Hlt Hlook]. rewrite Em in Hlt. unfold selected_count. rewrite Em.
  destruct (Z.eqb_spec (find_mode (m0 :: modes) (stored_mode u)) (Z.of_nat (length (m0 :: modes)))); [lia|done].
Qed.

(** The input mode set with a key is the mode after the next start. *)
Theorem mode_survives_restart mode u k k' :
  eeprom_usable (unicode_eeprom u) -> is_byte mode -> is_selected mode ->
  UNICODE_SELECTED_MODES = [] \/ UNICODE_CYCLE_PERSIST = true ->
  let s := exec (set_unicode_input_mode mode) (u, k) in
  input_mode s.1 = mode /\ input_mode (exec unicode_input_mode_init (restart s.1, k')).1 = mode.
Proof using All.
  intros Hu Hb Hsel Hp s. set (u1 := u <| input_mode := mode |>).
  destruct (persist_run u1 k Hu Hb) as (m' & E & Hu' & Es). set (u2 := u1 <| unicode_eeprom := m' |>) in *.
  assert (s.1 = u2) as ->.
  { unfold s, set_unicode_input_mode, put_mode, exec. rewrite run_own. cbn [modify fst snd]. fold u1.
    by rewrite (run_bind _ _ _ _ _ E). }
  split; [done|]. change (stored_mode u2 = mode) in Es.
  assert (stored_mode (restart u2) = mode) as Er by done. rewrite init_finds; [done|done| |done]. by rewrite Er.
Qed.

(** ** Cycling *)

Lemma persist_keeps u k :
  let s := exec persist_unicode_input_mode (u, k) in
  input_mode s.1 = input_mode u /\ selected_index s.1 = selected_index u /\ s.2 = k.
Proof. by split_and!. Qed.

Lemma wrap_step i o n : 0 <= i < n -> -1 <= o <= 1 ->
  (let j := Z.rem (i + o) n in if j <? 0 then j + n else j) = (i + o) mod n.
Proof.
  intros Hi Ho. cbv zeta. destruct (Z.le_gt_cases 0 (i + o)) as [Hp|Hp].
  - rewrite Z.rem_mod_nonneg by lia. pose proof (Z.mod_pos_bound (i + o) n). zcase; lia.
  - assert (i + o = -1) as -> by lia. destruct (decide (n = 1)) as [->|]; [done|].
    change (-1) with (- (1)). rewrite Z.rem_opp_l, Z.rem_small by lia. change (- (1)) with (-1). destruct (Z.ltb_spec (-1) 0); [|lia].
    apply Z.mod_unique_pos with (-1); lia.
Qed.

Lemma cycle_run offset u k : -1 <= offset <= 1 -> 0 <= selected_index u < selected_count ->
  let s := exec (cycle_unicode_input_mode offset) (u, k) in
  selected_index s.1 = (selected_index u + offset) mod selected_count /\
  input_mode s.1 = selected ((selected_index u + offset) mod selected_count).
Proof.
  intros Ho Hi. cbv zeta. set (i := (selected_index u + offset) mod selected_count).
  pose proof (wrap_step (selected_index u) offset selected_count Hi Ho) as Ei. fold i in Ei.
  unfold cycle_unicode_input_mode, exec. destruct UNICODE_SELECTED_MODES as [|m modes] eqn:Em.
  { unfold selected_count in Hi. rewrite Em in Hi. cbn in Hi. lia. }
  rewrite run_own. cbn [gets fst snd]. cbv zeta in Ei |- *. rewrite Ei.
  unfold put_selected, put_mode. rewrite !run_own. cbn [modify fst snd].
  set (u1 := u <| selected_index := i |> <| input_mode := selected i |>).
  destruct UNICODE_CYCLE_PERSIST; cbn [when]; [|done].
  destruct (persist_keeps u1 k) as (E1 & E2 & _). rewrite run_eval. by split.
Qed.

(** Stepping through the selected modes goes round, and a step back undoes
    a step. *)
Theorem mode_cycle u k :
  0 <= selected_index u < selected_count ->
  let s := exec unicode_input_mode_step (u, k) in
  let s' := exec unicode_input_mode_step_reverse s in
  selected_index s.1 = (selected_index u + 1) mod selected_count /\ input_mode s.1 = selected (selected_index s.1) /\
  selected_index s'.1 = selected_index u /\ input_mode s'.1 = selected (selected_index u).
Proof.
  intros Hi s. destruct (cycle_run 1 u k ltac:(lia) Hi) as [E1 E2]. fold unicode_input_mode_step in E1, E2. fold s in E1, E2.
  assert (0 <= selected_index s.1 < selected_count) as Hi' by (rewrite E1; apply Z.mod_pos_bound; lia).
  intros s'. destruct (cycle_run (-1) s.1 s.2 ltac:(lia) Hi') as [E3 E4].
  assert (exec (cycle_unicode_input_mode (-1)) (s.1, s.2) = s') as Es by (unfold s'; by destruct s). rewrite Es in E3, E4.
  assert ((selected_index s.1 + -1) mod selected_count = selected_index u) as Eback.
  { rewrite E1, Zplus_mod_idemp_l. replace (selected_index u + 1 + -1) with (selected_index u) by lia. by apply Z.mod_small. }
  rewrite Eback in *. split_and!; congruence.
Qed.
End typing.
