(* ===== verification/Ucis.v ===== *)
(** * Unicode by index and by name (quantum/unicode/unicodemap.c, ucis.c)

    Two ways to choose a code point: a keycode that holds an index into a
    table of code points, and a mnemonic that is typed and then replaced. *)

From S2P Require Import Prelude.
From S2P Require Import Keycodes.
From S2P Require Import State.
From S2P Require Import Host.
From S2P Require Import ActionUtil.
From S2P Require Import Oneshot.
From S2P Require Import Action.
From S2P Require Import Eeprom.
From S2P Require Import SendString.
From S2P Require Import Feature.
From S2P Require Import Unicode.

Record ucis_symbol_t := { mnemonic : list Z; code_points : list Z }.

Class UcisConfig := {
  unicode_map : Z -> Z;
  UCIS_MAX_INPUT_LENGTH : Z;
  ucis_symbol_table : list ucis_symbol_t;
}.

Section ucis.
Context `{!Config} `{!Hooks} `{!SendStringTables} `{!EepromDriver} `{!UnicodeConfig} `{!UcisConfig}.

(** ** The map *)

Definition QK_UNICODEMAP_GET_INDEX (kc : Z) : Z := Z.land kc 0x3FFF.
Definition QK_UNICODEMAP_PAIR_GET_UNSHIFTED_INDEX (kc : Z) : Z := Z.land kc 0x7F.
Definition QK_UNICODEMAP_PAIR_GET_SHIFTED_INDEX (kc : Z) : Z := Z.land (Z.shiftr kc 7) 0x7F.

(** The result is a [uint8_t]. *)
Definition unicodemap_index (keycode : Z) : stm keyboard Z :=
  if QK_UNICODEMAP_PAIR <=? keycode then
    real ← get_mods;
    weak ← get_weak_mods;
    oneshot ← gets (fun k => oneshot_mods (mods k));
    leds ← host_keyboard_leds;
    let m := Z.lor (Z.lor real weak) oneshot in
    let shift := nz (Z.land m MOD_MASK_SHIFT) in
    mret (u8 (if xorb shift (caps_lock leds) then QK_UNICODEMAP_PAIR_GET_SHIFTED_INDEX keycode
              else QK_UNICODEMAP_PAIR_GET_UNSHIFTED_INDEX keycode))
  else mret (u8 (QK_UNICODEMAP_GET_INDEX keycode)).

Definition unicodemap_get_code_point (index : Z) : Z := unicode_map index.
Definition register_unicodemap (index : Z) : stm (unicode * keyboard) unit :=
  register_unicode (unicodemap_get_code_point index).

Definition process_unicodemap (keycode : Z) (r : keyrecord_t) : stm (unicode * keyboard) bool :=
  when (within QK_UNICODEMAP QK_UNICODEMAP_PAIR_MAX keycode && pressed (event r)) (
    i ← core (unicodemap_index keycode);
    register_unicodemap i);;
  mret true.

(** ** Mnemonics *)

Record ucis := { count : Z; active : bool; input : list Z }.
Definition ucis_at_start : ucis :=
  {| count := 0; active := false; input := replicate (Z.to_nat UCIS_MAX_INPUT_LENGTH) 0 |}.

Abbreviation M := (stm (ucis * (unicode * keyboard))).
Definition mine {A} (m : stm ucis A) : M A := fun s => let r := m s.1 in (r.1, (r.2, s.2)).
Definition types {A} (m : stm (unicode * keyboard) A) : M A := fun s => let r := m s.2 in (r.1, (s.1, r.2)).

Definition ucis_start : M unit :=
  mine (modify (fun u => u <| count := 0 |> <| active := true |>));;
  types (register_unicode 0x2328).

Definition keycode_to_char (keycode : Z) : Z :=
  if within KC_A KC_Z keycode then 97 + (keycode - KC_A)
  else if within KC_1 KC_9 keycode then 49 + (keycode - KC_1)
  else if keycode =? KC_0 then 48
  else 0.

Definition ucis_add (keycode : Z) : stm ucis bool :=
  let c := keycode_to_char keycode in
  if nz c then
    modify (fun u => u <| input := <[Z.to_nat (count u) := c]> (input u) |> <| count := u8 (count u + 1) |>);;
    mret true
  else mret false.

Definition ucis_remove_last : stm ucis bool :=
  n ← gets count;
  if nz n then modify (fun u => u <| count := n - 1 |>);; mret true else mret false.

(** The loop at [input[i]]; [None]: it reads past the end of the array. *)
Fixpoint match_from (i : Z) (n : Z) (rest m : list Z) : option bool :=
  match rest with
  | [] => None
  | c :: rest =>
      if c =? 0 then Some true
      else if (n <? i) || negb (c =? default 0 (hd_error m)) then Some false
      else match_from (i + 1) n rest (tl m)
  end.
Definition match_mnemonic (u : ucis) (m : list Z) : option bool := match_from 0 (count u) (input u) m.

(** The index of the first match, when there is one. *)
Fixpoint find_symbol (u : ucis) (i : nat) (t : list ucis_symbol_t) : option (option nat) :=
  match t with
  | [] => Some None
  | s :: t =>
      match match_mnemonic u (mnemonic s) with
      | None => None
      | Some true => Some (Some i)
      | Some false => find_symbol u (S i) t
      end
  end.

(** The code points of an entry end with a zero or its array. *)
Fixpoint register_code_points (cps : list Z) : stm (unicode * keyboard) unit :=
  match cps with
  | [] => skip
  | cp :: cps => if cp =? 0 then skip else register_unicode cp;; register_code_points cps
  end.
Definition register_ucis (index : nat) : stm (unicode * keyboard) unit :=
  register_code_points (default [] (code_points <$> ucis_symbol_table !! index)).

Fixpoint backspaces (n : nat) : stm keyboard unit :=
  match n with O => skip | S n => tap_code KC_BACKSPACE;; backspaces n end.

(** [false]: the search left the array. *)
Definition ucis_finish : M bool :=
  u ← mine (gets (fun u => u));
  match find_symbol u 0 ucis_symbol_table with
  | None => mret false
  | Some found =>
      (match found with
       | Some i => types (core (backspaces (S (Z.to_nat (count u)))));; types (register_ucis i)
       | None => skip
       end);;
      mine (modify (fun u => u <| active := false |>));;
      mret true
  end.

Definition ucis_cancel : stm ucis unit := modify (fun u => u <| count := 0 |> <| active := false |>).

Definition process_ucis (keycode : Z) (r : keyrecord_t) : M bool :=
  u ← mine (gets (fun u => u));
  if active u && pressed (event r) then
    let special := (keycode =? KC_SPACE) || (keycode =? KC_ENTER) || (keycode =? KC_ESCAPE) || (keycode =? KC_BACKSPACE) in
    if (UCIS_MAX_INPUT_LENGTH <=? count u) && negb special then mret false else
    added ← mine (ucis_add keycode);
    if (added : bool) then mret true
    else if keycode =? KC_BACKSPACE then mine ucis_remove_last
    else if keycode =? KC_ESCAPE then mine ucis_cancel;; mret false
    else if (keycode =? KC_SPACE) || (keycode =? KC_ENTER) then ucis_finish;; mret false
    else mret true
  else mret true.
End ucis.

(** ** Mnemonics: what is found

    Typing a mnemonic in a clean buffer replaces it by the first symbol whose
    name it begins; what an earlier, longer input left in the buffer hides
    symbols; indices of the map are cut to a byte. *)

Section spec.
Context `{!Config} `{!Hooks} `{!SendStringTables} `{!EepromDriver} `{!UnicodeConfig} `{!UcisConfig}.
Implicit Types (u : ucis) (cs m : list Z).
Hypothesis input_length : 0 <= UCIS_MAX_INPUT_LENGTH <= 255.

(** The press of a key, and of several. *)
Definition press_of : keyrecord_t := record_0 <| event := (event record_0) <| pressed := true |> |>.
Fixpoint type_keys (ks : list Z) : stm (ucis * (unicode * keyboard)) unit :=
  match ks with [] => skip | kc :: ks => process_ucis kc press_of;; type_keys ks end.

Definition chars (ks : list Z) : list Z := keycode_to_char <$> ks.
Definition names (ks : list Z) : Prop := Forall (fun kc => keycode_to_char kc <> 0) ks.

(** [cs] was typed, [rest] follows it in the buffer. *)
Definition holds (cs rest : list Z) u : Prop :=
  active u = true /\ count u = Z.of_nat (length cs) /\ input u = cs ++ rest /\
  Z.of_nat (length (input u)) = UCIS_MAX_INPUT_LENGTH.

Lemma run_mine {A B} (m : stm ucis A) (g : A -> stm (ucis * (unicode * keyboard)) B) s :
  (mine m ≫= g) s = g (m s.1).1 ((m s.1).2, s.2).
Proof. done. Qed.

Lemma type_key_run kc cs c rest u s : keycode_to_char kc <> 0 -> holds cs (c :: rest) u ->
  exists u', process_ucis kc press_of (u, s) = (true, (u', s)) /\ holds (cs ++ [keycode_to_char kc]) rest u'.
Proof.
  intros Hkc (Ha & Hc & Hi & Hl). rewrite Hi, length_app in Hl. cbn [length] in Hl.
  exists (u <| input := <[Z.to_nat (count u) := keycode_to_char kc]> (input u) |> <| count := u8 (count u + 1) |>).
  unfold process_ucis. rewrite run_mine. cbn [gets fst snd]. rewrite Ha. change (pressed (event press_of)) with true. cbn [andb].
  destruct (Z.leb_spec UCIS_MAX_INPUT_LENGTH (count u)) as [|_]; [lia|]. cbn [andb].
  rewrite run_mine. unfold ucis_add. apply nz_true in Hkc as ->. split; [done|].
  split_and!; [done| | |].
  - cbn. rewrite length_app, Hc. cbn [length]. rewrite wrap_small by (norm_pow; lia). lia.
  - cbn. rewrite Hc, Hi, Nat2Z.id, <-app_assoc. rewrite insert_app_r_alt by lia. by rewrite Nat.sub_diag.
  - cbn. rewrite length_insert, Hi, length_app. cbn [length]. lia.
Qed.

Lemma type_keys_run ks : forall cs rest1 rest2 u s, names ks -> length rest1 = length ks ->
  holds cs (rest1 ++ rest2) u ->
  exists u', type_keys ks (u, s) = (tt, (u', s)) /\ holds (cs ++ chars ks) rest2 u'.
Proof.
  induction ks as [|kc ks IH]; intros cs rest1 rest2 u s Hn Hlen Hu.
  - destruct rest1; [|done]. exists u. by rewrite app_nil_r.
  - destruct rest1 as [|c rest1]; [done|]. apply Forall_cons in Hn as [Hkc Hn].
    destruct (type_key_run kc cs c (rest1 ++ rest2) u s Hkc Hu) as (u1 & E1 & H1').
    destruct (IH _ rest1 rest2 u1 s Hn ltac:(cbn in Hlen; lia) H1') as (u2 & E2 & H2').
    exists u2. cbn [type_keys]. rewrite (run_bind _ _ _ _ _ E1), E2. split; [done|].
    unfold chars in *. cbn [fmap list_fmap]. by rewrite <-app_assoc in H2'.
Qed.

(** ** Matching *)

Lemma match_from_spec cs rest n : forall i m, Forall (fun c => c <> 0) cs -> i + Z.of_nat (length cs) <= n + 1 ->
  match_from i n (cs ++ 0 :: rest) m = Some (bool_decide (cs `prefix_of` m)).
Proof.
  induction cs as [|c cs IH]; intros i m Hcs Hi.
  - cbn. by rewrite bool_decide_true by apply prefix_nil.
  - apply Forall_cons in Hcs as [Hc Hcs]. cbn [app match_from]. destruct (Z.eqb_spec c 0) as [|_]; [done|].
    cbn [length] in Hi. destruct (Z.ltb_spec n i) as [|_]; [lia|]. cbn [orb].
    destruct m as [|d m]; cbn [hd_error default from_option tl id].
    + destruct (Z.eqb_spec c 0); [done|]. cbn [negb].
      rewrite bool_decide_false; [done|]. by intros ?%prefix_nil_not.
    + destruct (Z.eqb_spec c d) as [->|Hne]; cbn [negb].
      * rewrite IH by (done || lia). f_equal. apply bool_decide_ext. split; [apply prefix_cons|apply prefix_cons_inv_2].
      * rewrite bool_decide_false; [done|]. intros ?%prefix_cons_inv_1. done.
Qed.

(** The first symbol whose mnemonic begins with [cs]. *)
Definition symbol_for cs : option nat :=
  fst <$> list_find (fun s => cs `prefix_of` mnemonic s) ucis_symbol_table.

Lemma find_symbol_spec cs u : (forall m, match_mnemonic u m = Some (bool_decide (cs `prefix_of` m))) ->
  forall i t, find_symbol u i t = Some ((fun p => (i + fst p)%nat) <$> list_find (fun s => cs `prefix_of` mnemonic s) t).
Proof.
  intros Hm i t. revert i. induction t as [|s t IH]; intros i; [done|]. cbn [find_symbol list_find]. rewrite Hm.
  case_bool_decide as E.
  - rewrite decide_True by done. cbn. by rewrite Nat.add_0_r.
  - rewrite decide_False by done. rewrite IH. f_equal. destruct (list_find _ t) as [[j x]|]; cbn; [|done]. f_equal. lia.
Qed.

Lemma chars_nonzero ks : names ks -> Forall (fun c => c <> 0) (chars ks).
Proof. intros Hn. unfold chars. by apply Forall_fmap. Qed.

(** What finishing does when the search ends with [found]. *)
Definition replace_by (n : nat) (found : option nat) : stm (unicode * keyboard) unit :=
  match found with Some i => core (backspaces (S n));; register_ucis i | None => skip end.

Lemma ucis_finish_run found u s : active u = true -> find_symbol u 0 ucis_symbol_table = Some found ->
  process_ucis KC_ENTER press_of (u, s) =
  (false, (u <| active := false |>, exec (replace_by (Z.to_nat (count u)) found) s)).
Proof.
  intros Ha Hf. unfold process_ucis. rewrite run_mine. cbn [gets fst snd]. rewrite Ha. change (pressed (event press_of)) with true. cbn [andb].
  replace (negb _) with false by done. rewrite andb_false_r. rewrite run_mine.
  change (KC_ENTER =? KC_BACKSPACE) with false. change (KC_ENTER =? KC_ESCAPE) with false.
  change ((KC_ENTER =? KC_SPACE) || (KC_ENTER =? KC_ENTER)) with true. cbv iota.
  assert (ucis_finish (u, s) = (true, (u <| active := false |>, exec (replace_by (Z.to_nat (count u)) found) s))) as E.
  { unfold ucis_finish. rewrite run_mine. cbn [gets fst snd]. rewrite Hf. by destruct found. }
  cbn [fst snd]. change ((ucis_add KC_ENTER u).1) with false. change ((ucis_add KC_ENTER u).2) with u. cbv iota.
  by rewrite (run_bind _ _ _ _ _ E).
Qed.

(** In a buffer that is clean behind it, the name typed is replaced by the
    first symbol whose mnemonic it begins; without one, nothing is typed. *)
Theorem ucis_types_symbol ks rest1 rest u s :
  names ks -> length rest1 = length ks -> holds [] (rest1 ++ 0 :: rest) u ->
  exists u', (type_keys ks;; process_ucis KC_ENTER press_of) (u, s) =
    (false, (u', exec (replace_by (length ks) (symbol_for (chars ks))) s)) /\ active u' = false.
Proof.
  intros Hn Hlen Hu. destruct (type_keys_run ks [] rest1 (0 :: rest) u s Hn Hlen Hu) as (u1 & E1 & Ha & Hc & Hi & Hl).
  cbn [app] in Hc, Hi. rewrite (run_bind _ _ _ _ _ E1).
  assert (Z.to_nat (count u1) = length ks) as Hcount by (rewrite Hc; unfold chars; rewrite length_fmap; lia).
  rewrite (ucis_finish_run (symbol_for (chars ks))); [rewrite Hcount; by eexists|done|].
  rewrite (find_symbol_spec (chars ks)).
  - done.
  - intros m. unfold match_mnemonic. rewrite Hi. apply match_from_spec; [by apply chars_nonzero|lia].
Qed.

(** ** What an earlier input leaves behind *)

Lemma match_leftover cs c rest n : forall i m, Forall (fun c => c <> 0) cs -> c <> 0 ->
  (length m <= length cs)%nat -> match_from i n (cs ++ c :: rest) m = Some false.
Proof.
  induction cs as [|c0 cs IH]; intros i m Hcs Hc Hm.
  - destruct m; [|cbn in Hm; lia]. cbn. destruct (Z.eqb_spec c 0); [done|]. cbn. by rewrite orb_true_r.
  - apply Forall_cons in Hcs as [Hc0 Hcs]. cbn [app match_from]. destruct (Z.eqb_spec c0 0); [done|].
    destruct (_ || _) eqn:E; [done|]. apply IH; [done..|]. destruct m; cbn in *; lia.
Qed.

(** What an earlier, longer input left in the buffer stays there: no
    mnemonic is found that is not longer than the name typed, not even the
    name itself. *)
Theorem ucis_leftover_hides ks rest1 c rest u s :
  names ks -> length rest1 = length ks -> c <> 0 -> holds [] (rest1 ++ c :: rest) u ->
  Forall (fun sym => (length (mnemonic sym) <= length ks)%nat) ucis_symbol_table ->
  exists u', (type_keys ks;; process_ucis KC_ENTER press_of) (u, s) = (false, (u', s)) /\ active u' = false.
Proof.
  intros Hn Hlen Hc0 Hu Ht. destruct (type_keys_run ks [] rest1 (c :: rest) u s Hn Hlen Hu) as (u1 & E1 & Ha & Hc & Hi & Hl).
  cbn [app] in Hc, Hi. rewrite (run_bind _ _ _ _ _ E1). rewrite (ucis_finish_run None); [by eexists|done|].
  generalize 0%nat. induction Ht as [|sym t Hsym Ht IH]; intros i; [done|]. cbn [find_symbol].
  unfold match_mnemonic. rewrite Hi, match_leftover; [apply IH|by apply chars_nonzero|done|].
  unfold chars. by rewrite length_fmap.
Qed.

(** ** The map *)

(** The index of a keycode of the map has 14 bits, of which a byte is used. *)
Theorem unicodemap_index_is_a_byte i k : 256 <= i < 0x4000 ->
  eval (unicodemap_index (Z.lor QK_UNICODEMAP i)) k = i mod 256 /\ i mod 256 <> i.
Proof.
  intros Hi. split; [|dlia]. unfold unicodemap_index.
  assert (Z.lor QK_UNICODEMAP i = QK_UNICODEMAP + i) as ->.
  { unfold QK_UNICODEMAP. apply (lor_add 14); [done|done|]. norm_pow. lia. }
  unfold QK_UNICODEMAP_PAIR, QK_UNICODEMAP. destruct (Z.leb_spec 0xC000 (0x8000 + i)); [lia|].
  cbn [eval mret stm_ret fst]. unfold QK_UNICODEMAP_GET_INDEX.
  change 0x3FFF with (Z.ones 14). rewrite Z.land_ones by done. unfold eval, wrap. cbn [fst mret stm_ret]. dlia.
Qed.
End spec.
