(* ===== verification/GraveEscape.v ===== *)
(** * Grave Escape (process_keycode/process_grave_esc.c)

    One key that is Escape, or Grave while Shift or GUI is held.  What goes up
    is what went down. *)

From S2P Require Import Prelude.
From S2P Require Import Keycodes.
From S2P Require Import Report.
From S2P Require Import State.
From S2P Require Import ActionUtil.
From S2P Require Import Keymap.
From S2P Require Import ActionUtilSpec.
From S2P Require Import TypingSpec.
From S2P Require Import Feature.

Class GraveEscConfig := {
  GRAVE_ESC_ALT_OVERRIDE : bool;
  GRAVE_ESC_CTRL_OVERRIDE : bool;
  GRAVE_ESC_GUI_OVERRIDE : bool;
  GRAVE_ESC_SHIFT_OVERRIDE : bool;
}.

Section grave_esc.
Context `{!Config} `{!Hooks} `{!GraveEscConfig}.

(** The state is [grave_esc_was_shifted]. *)
Abbreviation M := (stm (bool * keyboard)).

Definition is_shifted (mods : Z) : bool :=
  let shifted := Z.land mods MOD_MASK_SG in
  let shifted := if GRAVE_ESC_ALT_OVERRIDE && nz (Z.land mods MOD_MASK_ALT) then 0 else shifted in
  let shifted := if GRAVE_ESC_CTRL_OVERRIDE && nz (Z.land mods MOD_MASK_CTRL) then 0 else shifted in
  let shifted := if GRAVE_ESC_GUI_OVERRIDE && nz (Z.land mods MOD_MASK_GUI) then 0 else shifted in
  let shifted := if GRAVE_ESC_SHIFT_OVERRIDE && nz (Z.land mods MOD_MASK_SHIFT) then 0 else shifted in
  nz shifted.

Definition process_grave_esc (keycode : Z) (r : keyrecord_t) : M bool :=
  if keycode =? QK_GRAVE_ESCAPE then
    mods ← core get_mods;
    let shifted := is_shifted mods in
    (if pressed (event r) then
       own (modify (fun _ => shifted));;
       core (add_key (if shifted then KC_GRAVE else KC_ESCAPE))
     else
       was_shifted ← own (gets (fun b => b));
       core (del_key (if was_shifted : bool then KC_GRAVE else KC_ESCAPE)));;
    core send_keyboard_report;;
    mret false
  else mret true.

(** ** What goes up is what went down *)

Definition grave_key (b : bool) : Z := if b then KC_GRAVE else KC_ESCAPE.

Lemma grave_key_plain b : LOCKING_SUPPORT_ENABLE = false -> plain (grave_key b).
Proof. intros E. split; [by destruct b|]. rewrite E. by intros [? _]. Qed.

Hypothesis unbuffered : RING_BUFFERED_6KRO_REPORT_ENABLE = false.
Hypothesis no_locking : LOCKING_SUPPORT_ENABLE = false.

(** The press shows the host Escape, or Grave with Shift or GUI held; the
    release, whatever is held then and whatever happened in between, takes
    exactly this key away. *)
Theorem grave_esc_releases_its_key b k r :
  synced k -> reports_ok (rep k) -> pressed (event r) = true ->
  (forall b', has_room (nkro_active k) (rep k) (grave_key b')) ->
  let s := exec (process_grave_esc QK_GRAVE_ESCAPE r) (b, k) in
  let key := grave_key (is_shifted (real_mods (mods k))) in
  snd (shown s.2) = report_keys s.2 /\
  (forall kc, reportable (nkro_active k) kc ->
    key_pressed kc s.2 = bool_decide (kc = key) || key_pressed kc k) /\
  forall k' r', synced k' -> reports_ok (rep k') -> pressed (event r') = false ->
    let s' := exec (process_grave_esc QK_GRAVE_ESCAPE r') (s.1, k') in
    snd (shown s'.2) = report_keys s'.2 /\
    forall kc, reportable (nkro_active k') kc ->
      key_pressed kc s'.2 = negb (bool_decide (kc = key)) && key_pressed kc k'.
Proof.
  intros Hs Hr Hp Hroom s key.
  assert (s = (is_shifted (real_mods (mods k)), exec send_keyboard_report (with_key key k))) as ->.
  { unfold s, process_grave_esc, exec. rewrite Z.eqb_refl, Hp. done. }
  cbn [fst snd]. pose proof (grave_key_plain (is_shifted (real_mods (mods k))) no_locking) as Hplain. fold key in Hplain.
  destruct (with_key_frame key k) as (Hws & _). pose proof (send_report_sent _ (Hws Hs)) as Hsent.
  split_and!.
  - destruct Hsent. by rewrite sent_shown, sent_keys.
  - intros kc Hkc. rewrite (key_pressed_sent _ _ _ Hsent).
    apply (key_pressed_with unbuffered); [apply Hr|done|done|apply Hroom].
  - intros k' r' Hs' Hr' Hp'.
    assert (exec (process_grave_esc QK_GRAVE_ESCAPE r') (is_shifted (real_mods (mods k)), k') =
      (is_shifted (real_mods (mods k)), exec send_keyboard_report (without_key key k'))) as ->.
    { unfold process_grave_esc, exec. rewrite Z.eqb_refl, Hp'. done. }
    cbn [fst snd]. destruct (without_key_frame key k') as (Hos & _).
    pose proof (send_report_sent _ (Hos Hs')) as Hsent'. split.
    + destruct Hsent'. by rewrite sent_shown, sent_keys.
    + intros kc Hkc. rewrite (key_pressed_sent _ _ _ Hsent').
      apply (key_pressed_without unbuffered); [apply Hr'|done|done].
Qed.
End grave_esc.
