(* ===== verification/TriLayer.v ===== *)
(** * Tri layer (quantum/tri_layer.c, process_keycode/process_tri_layer.c)

    Two keys switch a lower and an upper layer; a third layer, the adjust
    layer, is on exactly while both are. *)

From S2P Require Import Prelude.
From S2P Require Import Bitwise.
From S2P Require Import Keycodes.
From S2P Require Import State.
From S2P Require Import ActionLayer.
From S2P Require Import Closure.
From S2P Require Import LayerSpec.
From S2P Require Import Feature.

Record tri_layer := {
  tri_layer_lower_layer : Z;
  tri_layer_upper_layer : Z;
  tri_layer_adjust_layer : Z;
}.

Section tri_layer.
Context `{!Config} `{!Hooks}.
Abbreviation M := (stm (tri_layer * keyboard)).

Definition set_tri_layer_lower_layer (layer : Z) : stm tri_layer unit :=
  modify (fun t => t <| tri_layer_lower_layer := layer |>).
Definition set_tri_layer_upper_layer (layer : Z) : stm tri_layer unit :=
  modify (fun t => t <| tri_layer_upper_layer := layer |>).
Definition set_tri_layer_adjust_layer (layer : Z) : stm tri_layer unit :=
  modify (fun t => t <| tri_layer_adjust_layer := layer |>).
Definition set_tri_layer_layers (lower raise adjust : Z) : stm tri_layer unit :=
  modify (fun _ => {| tri_layer_lower_layer := lower; tri_layer_upper_layer := raise; tri_layer_adjust_layer := adjust |}).

Definition get_tri_layer_lower_layer : stm tri_layer Z := gets tri_layer_lower_layer.
Definition get_tri_layer_upper_layer : stm tri_layer Z := gets tri_layer_upper_layer.
Definition get_tri_layer_adjust_layer : stm tri_layer Z := gets tri_layer_adjust_layer.

Definition update_adjust : M unit :=
  lower ← own get_tri_layer_lower_layer;
  upper ← own get_tri_layer_upper_layer;
  adjust ← own get_tri_layer_adjust_layer;
  core (update_tri_layer lower upper adjust).

Definition process_tri_layer (keycode : Z) (r : keyrecord_t) : M bool :=
  if keycode =? QK_TRI_LAYER_LOWER then
    l ← own get_tri_layer_lower_layer;
    core (if pressed (event r) then layer_on l else layer_off l);;
    update_adjust;;
    mret false
  else if keycode =? QK_TRI_LAYER_UPPER then
    l ← own get_tri_layer_upper_layer;
    core (if pressed (event r) then layer_on l else layer_off l);;
    update_adjust;;
    mret false
  else mret true.

(** ** The adjust layer *)

Context `{!ConfigOk}.
Hypothesis accepts : forall s, layer_state_set_kb s = s.

Definition on_mask (k : keyboard) (i : Z) : bool := Z.testbit (layer_state (layers k)) i.
Definition is_layer (i : Z) : Prop := 0 <= i < LAYER_STATE_BITS.

Lemma layer_word_bit z i : is_layer i -> Z.testbit (layer_word z) i = Z.testbit z i.
Proof. intros Hi. unfold layer_word. unfold is_layer in Hi. rewrite testbit_wrap by lia. by rewrite bool_decide_true by lia. Qed.

Lemma set_mask z k i : is_layer i -> on_mask (exec (layer_state_set z) k) i = Z.testbit z i.
Proof.
  intros Hi. unfold on_mask. rewrite layer_state_set_layers. cbn. rewrite accepts. by apply layer_word_bit.
Qed.

Lemma layer_bit_spec l i : is_layer l -> is_layer i -> Z.testbit (layer_bit l) i = bool_decide (i = l).
Proof. intros Hl Hi. unfold layer_bit. rewrite layer_word_bit by done. apply testbit_bit. apply Hl. Qed.

Lemma switch_mask (b : bool) l k i : is_layer l -> is_layer i ->
  on_mask (exec (if b then layer_on l else layer_off l) k) i = if bool_decide (i = l) then b else on_mask k i.
Proof.
  intros Hl Hi. assert (0 <= i) by apply Hi.
  destruct b; unfold layer_on, layer_off; rewrite exec_bind, set_mask, layer_word_bit by done.
  - rewrite Z.lor_spec, layer_bit_spec by done. unfold on_mask. case_bool_decide; [apply orb_true_r|apply orb_false_r].
  - rewrite testbit_clear, layer_bit_spec by done. unfold on_mask. case_bool_decide; [apply andb_false_r|apply andb_true_r].
Qed.

(** Both bits of a mask are set. *)
Lemma both_set z l u : is_layer l -> is_layer u ->
  (Z.land z (Z.lor (layer_bit l) (layer_bit u)) =? Z.lor (layer_bit l) (layer_bit u)) = Z.testbit z l && Z.testbit z u.
Proof.
  intros Hl Hu. assert (forall i, is_layer i -> 0 <= i) as Hpos by (intros i [? _]; done).
  pose proof layer_state_bits as Hbits. assert (0 <= LAYER_STATE_BITS) by (unfold is_layer in *; lia).
  apply eq_true_iff_eq. rewrite Z.eqb_eq, andb_true_iff. split.
  - intros E. split.
    + pose proof (f_equal (fun z => Z.testbit z l) E) as Eb. cbn beta in Eb.
      rewrite Z.land_spec, Z.lor_spec, !layer_bit_spec, (bool_decide_true (l = l)) in Eb by done.
      by destruct (Z.testbit z l).
    + pose proof (f_equal (fun z => Z.testbit z u) E) as Eb. cbn beta in Eb.
      rewrite Z.land_spec, Z.lor_spec, !layer_bit_spec, (bool_decide_true (u = u)), orb_true_r in Eb by done.
      by destruct (Z.testbit z u).
  - intros [El Eu]. apply Z.bits_inj'. intros i Hi. rewrite Z.land_spec.
    destruct (decide (i < LAYER_STATE_BITS)) as [Hlt|Hge].
    + rewrite Z.lor_spec, !layer_bit_spec by done. do 2 case_bool_decide; subst; rewrite ?El, ?Eu; try done.
      by destruct (Z.testbit z i).
    + rewrite Z.lor_spec. unfold layer_bit, layer_word. rewrite !testbit_wrap by done.
      rewrite bool_decide_false by lia. apply andb_false_r.
Qed.

Lemma adjust_mask lower upper adjust k i :
  is_layer lower -> is_layer upper -> is_layer adjust -> is_layer i ->
  on_mask (exec (update_tri_layer lower upper adjust) k) i =
    if bool_decide (i = adjust) then on_mask k lower && on_mask k upper else on_mask k i.
Proof.
  intros Hl Hu Ha Hi. assert (0 <= i) by apply Hi. unfold update_tri_layer. rewrite exec_bind, set_mask by done.
  change (eval get_layer_state k) with (layer_state (layers k)). unfold update_tri_layer_state.
  rewrite both_set by done. fold (on_mask k lower) (on_mask k upper). destruct (_ && _).
  - rewrite Z.lor_spec, layer_bit_spec by done. unfold on_mask. case_bool_decide; [apply orb_true_r|apply orb_false_r].
  - rewrite testbit_clear, layer_bit_spec by done. unfold on_mask. case_bool_decide; [apply andb_false_r|apply andb_true_r].
Qed.

(** A key of the two switches its layer, and afterwards the adjust layer is
    on exactly if both layers are; no other layer changes. *)
Theorem tri_layer_adjusts keycode r t k layer :
  is_layer (tri_layer_lower_layer t) -> is_layer (tri_layer_upper_layer t) -> is_layer (tri_layer_adjust_layer t) ->
  tri_layer_adjust_layer t <> tri_layer_lower_layer t -> tri_layer_adjust_layer t <> tri_layer_upper_layer t ->
  (keycode = QK_TRI_LAYER_LOWER /\ layer = tri_layer_lower_layer t \/
   keycode = QK_TRI_LAYER_UPPER /\ layer = tri_layer_upper_layer t) ->
  let s := exec (process_tri_layer keycode r) (t, k) in
  s.1 = t /\ eval (process_tri_layer keycode r) (t, k) = false /\
  on_mask s.2 (tri_layer_adjust_layer t) = on_mask s.2 (tri_layer_lower_layer t) && on_mask s.2 (tri_layer_upper_layer t) /\
  forall i, is_layer i -> i <> tri_layer_adjust_layer t ->
    on_mask s.2 i = if bool_decide (i = layer) then pressed (event r) else on_mask k i.
Proof.
  intros Hl Hu Ha Hal Hau Hk s. set (k1 := exec (if pressed (event r) then layer_on layer else layer_off layer) k).
  set (k2 := exec (update_tri_layer (tri_layer_lower_layer t) (tri_layer_upper_layer t) (tri_layer_adjust_layer t)) k1).
  assert (is_layer layer) as Hlay by by destruct Hk as [[_ ->]|[_ ->]].
  assert (process_tri_layer keycode r (t, k) = (false, (t, k2))) as E.
  { unfold process_tri_layer. destruct Hk as [[-> ->]|[-> ->]]; done. }
  unfold s, exec, eval. rewrite E. cbn [fst snd]. split_and!; [done|done| |].
  - unfold k2. rewrite !adjust_mask by done. by rewrite bool_decide_true, !bool_decide_false by done.
  - intros i Hi Hne. unfold k2. rewrite adjust_mask by done. rewrite bool_decide_false by done. by apply switch_mask.
Qed.
End tri_layer.
