(* ===== verification/TapDance.v ===== *)
(** * Tap dance (process_keycode/process_tap_dance.c)

    A key whose meaning depends on how often it is tapped.  The functions of an
    action are callbacks on its state and the keyboard; those of the two
    ready-made kinds of action are below.  A callback does not call
    [reset_tap_dance]. *)

From S2P Require Import Prelude.
From S2P Require Import Keycodes.
From S2P Require Import State.
From S2P Require Import ActionUtil.
From S2P Require Import ActionLayer.
From S2P Require Import Action.
From S2P Require Import Feature.
From S2P Require Import Quantum.

Record tap_dance_state_t := {
  interrupting_keycode : Z;
  count : Z;
  weak_mods : Z;
  oneshot_mods : Z;
  pressed : bool;
  finished : bool;
  interrupted : bool;
}.

Definition tap_dance_state_0 : tap_dance_state_t := {|
  interrupting_keycode := 0; count := 0; weak_mods := 0; oneshot_mods := 0;
  pressed := false; finished := false; interrupted := false;
|}.

Definition tap_dance_user_fn_t : Type := stm (tap_dance_state_t * keyboard) unit.

(** [None] is NULL. *)
Record tap_dance_fns := {
  on_each_tap : option tap_dance_user_fn_t;
  on_dance_finished : option tap_dance_user_fn_t;
  on_reset : option tap_dance_user_fn_t;
  on_each_release : option tap_dance_user_fn_t;
}.

(** The functions of [tap_dance_actions], by index. *)
Class TapDanceConfig := { tap_dance_fn : Z -> tap_dance_fns }.

(** The states of [tap_dance_actions] and the static variables. *)
Record tap_dance := {
  states : list tap_dance_state_t;
  active_td : Z;
  last_tap_time : Z;
}.

Definition QK_TAP_DANCE_GET_INDEX (kc : Z) : Z := Z.land kc 0xFF.

Section tap_dance.
Context `{!Config} `{!Hooks} `{!TapDanceConfig}.
Abbreviation M := (stm (tap_dance * keyboard)).

Definition state_at (i : Z) (t : tap_dance) : tap_dance_state_t :=
  default tap_dance_state_0 (states t !! Z.to_nat i).
Definition put_state_at (i : Z) (st : tap_dance_state_t) (t : tap_dance) : tap_dance :=
  t <| states := <[Z.to_nat i := st]> (states t) |>.

(** Running a function on [action->state]. *)
Definition on_state {A} (i : Z) (m : stm (tap_dance_state_t * keyboard) A) : M A :=
  fun s => let r := m (state_at i s.1, s.2) in (r.1, (put_state_at i r.2.1 s.1, r.2.2)).
Definition upd_state (f : tap_dance_state_t -> tap_dance_state_t) : stm (tap_dance_state_t * keyboard) unit :=
  own (modify f).
Definition call (f : option tap_dance_user_fn_t) : stm (tap_dance_state_t * keyboard) unit :=
  match f with Some f => f | None => skip end.
Definition put_active (td : Z) : M unit := own (modify (fun t => t <| active_td := td |>)).

(** ** The ready-made actions *)

Definition tap_dance_pair_on_each_tap (kc2 : Z) : tap_dance_user_fn_t :=
  st ← own (gets (fun st => st));
  when (count st =? 2) (core (register_code16 kc2);; upd_state (fun st => st <| finished := true |>)).
Definition tap_dance_pair_finished (kc1 : Z) : tap_dance_user_fn_t := core (register_code16 kc1).
Definition tap_dance_pair_reset (kc1 kc2 : Z) : tap_dance_user_fn_t :=
  st ← own (gets (fun st => st));
  if count st =? 1 then core (emit (WaitMs TAP_CODE_DELAY));; core (unregister_code16 kc1)
  else when (count st =? 2) (core (unregister_code16 kc2)).

Definition tap_dance_dual_role_on_each_tap (layer : Z) : tap_dance_user_fn_t :=
  st ← own (gets (fun st => st));
  when (count st =? 2) (core (layer_move layer);; upd_state (fun st => st <| finished := true |>)).
Definition tap_dance_dual_role_finished (kc layer : Z) (layer_function : Z -> stm keyboard unit) : tap_dance_user_fn_t :=
  st ← own (gets (fun st => st));
  if count st =? 1 then core (register_code16 kc)
  else when (count st =? 2) (core (layer_function layer)).
Definition tap_dance_dual_role_reset (kc : Z) : tap_dance_user_fn_t :=
  st ← own (gets (fun st => st));
  when (count st =? 1) (core (emit (WaitMs TAP_CODE_DELAY));; core (unregister_code16 kc)).

Definition ACTION_TAP_DANCE_DOUBLE (kc1 kc2 : Z) : tap_dance_fns := {|
  on_each_tap := Some (tap_dance_pair_on_each_tap kc2);
  on_dance_finished := Some (tap_dance_pair_finished kc1);
  on_reset := Some (tap_dance_pair_reset kc1 kc2);
  on_each_release := None;
|}.
Definition ACTION_TAP_DANCE_LAYER_MOVE (kc layer : Z) : tap_dance_fns := {|
  on_each_tap := Some (tap_dance_dual_role_on_each_tap layer);
  on_dance_finished := Some (tap_dance_dual_role_finished kc layer layer_move);
  on_reset := Some (tap_dance_dual_role_reset kc);
  on_each_release := None;
|}.
Definition ACTION_TAP_DANCE_LAYER_TOGGLE (kc layer : Z) : tap_dance_fns := {|
  on_each_tap := None;
  on_dance_finished := Some (tap_dance_dual_role_finished kc layer layer_invert);
  on_reset := Some (tap_dance_dual_role_reset kc);
  on_each_release := None;
|}.

(** ** The steps of a dance, on the state of its action *)

Definition process_tap_dance_action_on_each_tap (i : Z) : stm (tap_dance_state_t * keyboard) unit :=
  upd_state (fun st => st <| count := u8 (count st + 1) |>);;
  real ← core get_mods;
  upd_state (fun st => st <| weak_mods := real |>);;
  weak ← core get_weak_mods;
  upd_state (fun st => st <| weak_mods := Z.lor (weak_mods st) weak |>);;
  oneshot ← core (gets (fun k => State.oneshot_mods (mods k)));
  upd_state (fun st => st <| oneshot_mods := oneshot |>);;
  call (on_each_tap (tap_dance_fn i)).

Definition process_tap_dance_action_on_each_release (i : Z) : stm (tap_dance_state_t * keyboard) unit :=
  call (on_each_release (tap_dance_fn i)).

Definition process_tap_dance_action_on_reset (i : Z) : stm (tap_dance_state_t * keyboard) unit :=
  call (on_reset (tap_dance_fn i));;
  st ← own (gets (fun st => st));
  core (del_weak_mods (weak_mods st));;
  core (del_mods (oneshot_mods st));;
  core send_keyboard_report;;
  upd_state (fun _ => tap_dance_state_0).

Definition process_tap_dance_action_on_dance_finished (i : Z) : M unit :=
  st ← own (gets (state_at i));
  when (negb (finished st)) (on_state i (
    upd_state (fun st => st <| finished := true |>);;
    core (add_weak_mods (weak_mods st));;
    core (add_mods (oneshot_mods st));;
    core send_keyboard_report;;
    call (on_dance_finished (tap_dance_fn i))));;
  put_active 0;;
  st ← own (gets (state_at i));
  when (negb (pressed st)) (on_state i (process_tap_dance_action_on_reset i)).

(** ** Events and time *)

Definition preprocess_tap_dance (keycode : Z) (r : keyrecord_t) : M bool :=
  td ← own (gets active_td);
  if negb (State.pressed (event r)) then mret false
  else if (td =? 0) || (keycode =? td) then mret false
  else
    let i := QK_TAP_DANCE_GET_INDEX td in
    on_state i (upd_state (fun st => st <| interrupted := true |> <| interrupting_keycode := keycode |>));;
    process_tap_dance_action_on_dance_finished i;;
    core clear_weak_mods;;
    mret true.

Definition process_tap_dance (keycode : Z) (r : keyrecord_t) : M bool :=
  (if within QK_TAP_DANCE QK_TAP_DANCE_MAX keycode then
     let i := QK_TAP_DANCE_GET_INDEX keycode in
     on_state i (upd_state (fun st => st <| pressed := State.pressed (event r) |>));;
     if State.pressed (event r) then
       t ← core (gets now);
       own (modify (fun d => d <| last_tap_time := t |>));;
       on_state i (process_tap_dance_action_on_each_tap i);;
       st ← own (gets (state_at i));
       put_active (if finished st then 0 else keycode)
     else
       on_state i (process_tap_dance_action_on_each_release i);;
       st ← own (gets (state_at i));
       when (finished st) (
         on_state i (process_tap_dance_action_on_reset i);;
         td ← own (gets active_td);
         when (td =? keycode) (put_active 0))
   else skip);;
  mret true.

Definition tap_dance_task : M unit :=
  d ← own (gets (fun d => d));
  t ← core (gets now);
  if (active_td d =? 0) || (TIMER_DIFF_16 t (last_tap_time d) <=? get_tapping_term (active_td d) record_0) then skip
  else
    let i := QK_TAP_DANCE_GET_INDEX (active_td d) in
    st ← own (gets (state_at i));
    when (negb (interrupted st)) (process_tap_dance_action_on_dance_finished i).

Definition reset_tap_dance (i : Z) : M unit :=
  put_active 0;; on_state i (process_tap_dance_action_on_reset i).
End tap_dance.

(** ** Tap dance: no dance is left over

    Whatever is typed, a dance that began is finished and reset: once no tap
    dance key is down and the term has passed, every state is as at the start. *)

Section spec.
Context `{!Config} `{!Hooks} `{!TapDanceConfig}.
Implicit Types (d : tap_dance) (k : keyboard) (st : tap_dance_state_t) (i : Z).

(** A callback changes nothing of the state but, at most, that it is finished. *)
Definition plain_fn (f : option tap_dance_user_fn_t) : Prop :=
  forall st k, exists b, (exec (call f) (st, k)).1 = st <| finished := finished st || b |>.
Class TapDancePlain : Prop := {
  plain_tap i : plain_fn (on_each_tap (tap_dance_fn i));
  plain_finished i : plain_fn (on_dance_finished (tap_dance_fn i));
  plain_reset i : plain_fn (on_reset (tap_dance_fn i));
  plain_release i : plain_fn (on_each_release (tap_dance_fn i));
}.

(** A state is as at the start, or that of a finished dance whose key is down,
    or that of the dance in progress. *)
Definition settled i d : Prop :=
  let st := state_at i d in
  st = tap_dance_state_0 \/
  (finished st = true /\ pressed st = true) \/
  (finished st = false /\ interrupted st = false /\ active_td d = QK_TAP_DANCE + i).

Record dance_ok d : Prop := {
  ok_settled i : 0 <= i < Z.of_nat (length (states d)) -> settled i d;
  ok_active : active_td d = 0 \/ exists i, 0 <= i < Z.of_nat (length (states d)) /\
    active_td d = QK_TAP_DANCE + i /\ finished (state_at i d) = false;
  ok_size : Z.of_nat (length (states d)) <= 256;
}.

Definition on_table i d : Prop := 0 <= i < Z.of_nat (length (states d)).

Lemma index_of i : 0 <= i < 256 -> QK_TAP_DANCE_GET_INDEX (QK_TAP_DANCE + i) = i.
Proof.
  intros Hi. unfold QK_TAP_DANCE_GET_INDEX, QK_TAP_DANCE. change 0xFF with (Z.ones 8). rewrite Z.land_ones by done. dlia.
Qed.

Lemma length_put_action i st d : length (states (put_state_at i st d)) = length (states d).
Proof. apply length_insert. Qed.

Lemma state_put i j st d : on_table i d -> 0 <= j ->
  state_at j (put_state_at i st d) = if bool_decide (j = i) then st else state_at j d.
Proof.
  intros Hi Hj. unfold on_table in Hi. unfold state_at, put_state_at. cbn. case_bool_decide as E.
  - subst. by rewrite list_lookup_insert_eq by lia.
  - by rewrite list_lookup_insert_ne by lia.
Qed.

(** ** The steps *)

Context `{!TapDancePlain}.

(** [d'] is [d] but for the state of [i] and the active key. *)
Definition changes i d d' : Prop :=
  length (states d') = length (states d) /\
  forall j, 0 <= j -> j <> i -> state_at j d' = state_at j d.

Lemma on_state_changes {A} i (m : stm (tap_dance_state_t * keyboard) A) d k : on_table i d ->
  let d' := (on_state i m (d, k)).2.1 in
  changes i d d' /\ active_td d' = active_td d /\ state_at i d' = (exec m (state_at i d, k)).1.
Proof.
  intros Hi d'. unfold d', on_state. cbn [fst snd]. split_and!; [split_and!|done|].
  - apply length_put_action.
  - intros j Hj Hne. rewrite state_put by done. by rewrite bool_decide_false.
  - rewrite state_put by (done || apply Hi). by rewrite bool_decide_true.
Qed.

Lemma changes_trans i d1 d2 d3 : changes i d1 d2 -> changes i d2 d3 -> changes i d1 d3.
Proof.
  intros (? & H12) (? & H23). split_and!; [congruence|].
  intros j Hj Hne. by rewrite H23, H12.
Qed.

Lemma changes_table i j d d' : changes i d d' -> on_table j d -> on_table j d'.
Proof. intros (E & _) Hj. unfold on_table in *. lia. Qed.

Lemma put_active_changes td i d k : changes i d (exec (put_active td) (d, k)).1.
Proof. by split_and!. Qed.

Lemma reset_clears i s : (exec (process_tap_dance_action_on_reset i) s).1 = tap_dance_state_0.
Proof. done. Qed.

Lemma finish_part_state i st k :
  let m := (upd_state (fun st => st <| finished := true |>);; core (add_weak_mods (weak_mods st));;
            core (add_mods (oneshot_mods st));; core send_keyboard_report;;
            call (on_dance_finished (tap_dance_fn i))) in
  (exec m (st, k)).1 = st <| finished := true |>.
Proof.
  cbv zeta. rewrite !exec_bind.
  destruct (plain_finished i (st <| finished := true |>)
    (exec send_keyboard_report (exec (add_mods (oneshot_mods st)) (exec (add_weak_mods (weak_mods st)) k)))) as [b E].
  etransitivity; [exact E|]. by destruct st.
Qed.

(** Finishing a dance: its key is down still, or its state is reset. *)
Lemma dance_finish_run i d k : on_table i d ->
  let d' := (exec (process_tap_dance_action_on_dance_finished i) (d, k)).1 in
  changes i d d' /\ active_td d' = 0 /\
  (state_at i d' = tap_dance_state_0 \/
   (pressed (state_at i d) = true /\ finished (state_at i d') = true /\ pressed (state_at i d') = true)).
Proof.
  intros Hi d'. unfold d', process_tap_dance_action_on_dance_finished, exec. rewrite run_own. cbn [gets fst snd].
  set (st := state_at i d). rewrite run_eval.
  match goal with |- context [exec ?m (d, k)] => set (s1 := exec m (d, k)) end.
  assert (changes i d s1.1 /\ state_at i s1.1 = st <| finished := true |>) as [Hc1 Hst1].
  { unfold s1. destruct (finished st) eqn:Ef; cbn [negb when].
    - split; [by split_and!|]. change (state_at i d = st <| finished := true |>). fold st. destruct st; cbn in *. congruence.
    - destruct (on_state_changes i (upd_state (fun st => st <| finished := true |>);; core (add_weak_mods (weak_mods st));;
        core (add_mods (oneshot_mods st));; core send_keyboard_report;; call (on_dance_finished (tap_dance_fn i))) d k Hi) as (Hc & _ & E).
      split; [exact Hc|]. etransitivity; [exact E|]. apply finish_part_state. }
  unfold put_active. rewrite run_own. cbn [modify fst snd]. set (d2 := s1.1 <| active_td := 0 |>).
  assert (changes i d d2) as Hc2 by exact Hc1. assert (state_at i d2 = st <| finished := true |>) as Hst2 by exact Hst1.
  rewrite run_own. cbn [gets fst snd]. rewrite Hst2.
  change (pressed (st <| finished := true |>)) with (pressed st). destruct (pressed st) eqn:Ep; cbn [negb when].
  - split; [exact Hc2|]. split; [done|]. right. change (state_at i (skip (d2, s1.2)).2.1) with (state_at i d2). rewrite Hst2.
    split; [done|]. split; [done|]. exact Ep.
  - destruct (on_state_changes i (process_tap_dance_action_on_reset i) d2 s1.2 (changes_table _ _ _ _ Hc2 Hi)) as (Hc3 & Ea3 & E3).
    split; [by eapply changes_trans|]. split; [exact Ea3|]. left. exact E3.
Qed.

(** ** The invariant *)

Lemma settled_active i d : dance_ok d -> on_table i d -> active_td d = QK_TAP_DANCE + i ->
  finished (state_at i d) = false /\ interrupted (state_at i d) = false.
Proof.
  intros Hok Hi Ha. destruct (ok_active d Hok) as [E|(j & Hj & E & Hf)]; [rewrite E in Ha; unfold QK_TAP_DANCE, on_table in *; lia|].
  assert (j = i) as -> by lia. split; [done|].
  destruct (ok_settled d Hok i Hi) as [E0|[[E0 _]|(_ & ? & _)]]; [by rewrite E0|congruence|done].
Qed.

(** After one state and the active key changed. *)
Lemma dance_ok_change i d d' : dance_ok d -> on_table i d -> changes i d d' -> settled i d' ->
  (active_td d' = 0 \/ (active_td d' = QK_TAP_DANCE + i /\ finished (state_at i d') = false)) ->
  (active_td d = 0 \/ active_td d = QK_TAP_DANCE + i) -> dance_ok d'.
Proof.
  intros Hok Hi (El & Eo) Hs Ha Hbefore. split.
  - intros j Hj. destruct (decide (j = i)) as [->|Hne]; [done|]. rewrite El in Hj.
    pose proof (ok_settled d Hok j Hj) as Hsj. unfold settled in *. rewrite Eo by (done || apply Hj).
    destruct Hsj as [?|[?|(_ & _ & E)]]; [by left|by right; left|]. unfold QK_TAP_DANCE, on_table in *. lia.
  - destruct Ha as [?|[? ?]]; [by left|right]. exists i. split; [unfold on_table in Hi; lia|done].
  - rewrite El. apply Hok.
Qed.

(** After the state of [i] was reset, while another dance may be in progress. *)
Lemma dance_ok_keep i d d' : dance_ok d -> on_table i d -> changes i d d' -> state_at i d' = tap_dance_state_0 ->
  (active_td d' = active_td d /\ active_td d <> QK_TAP_DANCE + i \/ active_td d' = 0 /\ active_td d = QK_TAP_DANCE + i) ->
  dance_ok d'.
Proof.
  intros Hok Hi (El & Eo) Hs Ha. split.
  - intros j Hj. rewrite El in Hj. unfold settled. destruct (decide (j = i)) as [->|Hne]; [by left|].
    rewrite Eo by (done || apply Hj).
    destruct (ok_settled d Hok j Hj) as [?|[?|(? & ? & E)]]; [by left|by right; left|right; right].
    destruct Ha as [[Ha _]|[_ Ha]]; [by rewrite Ha|lia].
  - destruct Ha as [[Ha Hn]|[Ha _]]; [|by left]. rewrite Ha.
    destruct (ok_active d Hok) as [?|(j & Hj & E & Hf)]; [by left|right]. exists j. rewrite El, Eo by lia. done.
  - rewrite El. apply Hok.
Qed.

Lemma finish_ok i d k : dance_ok d -> on_table i d -> active_td d = QK_TAP_DANCE + i ->
  dance_ok (exec (process_tap_dance_action_on_dance_finished i) (d, k)).1.
Proof.
  intros Hok Hi Ha. destruct (dance_finish_run i d k Hi) as (Hc & Ha' & Hst).
  apply (dance_ok_change i d); [done..| | |by right].
  - destruct Hst as [?|(_ & ? & ?)]; [by left|by right; left].
  - by left.
Qed.

Lemma dance_ok_interrupt i kc d : on_table i d -> dance_ok d -> active_td d = QK_TAP_DANCE + i ->
  let d' := put_state_at i ((state_at i d) <| interrupted := true |> <| interrupting_keycode := kc |>) d in
  forall k, dance_ok (exec (process_tap_dance_action_on_dance_finished i) (d', k)).1.
Proof.
  intros Hi Hok Ha d' k. assert (changes i d d') as Hc.
  { split_and!; [apply length_put_action|]. intros j Hj Hne. unfold d'. rewrite state_put by done. by rewrite bool_decide_false. }
  destruct (dance_finish_run i d' k (changes_table _ _ _ _ Hc Hi)) as (Hc' & Ha' & Hst).
  apply (dance_ok_change i d); [done|done|by eapply changes_trans| |by left|by right].
  destruct Hst as [?|(_ & ? & ?)]; [by left|by right; left].
Qed.

(** A callback and the state at the start. *)
Lemma plain_keeps f st k : plain_fn f ->
  let st' := (exec (call f) (st, k)).1 in
  pressed st' = pressed st /\ interrupted st' = interrupted st /\ (finished st' = false -> st' = st).
Proof.
  intros Hf. destruct (Hf st k) as [b E]. cbv zeta. rewrite E. split_and!; [done..|].
  destruct st as [? ? ? ? ? f0 ?]. cbn. destruct f0, b; cbn; done.
Qed.

Lemma tap_state i st k :
  let st' := (exec (process_tap_dance_action_on_each_tap i) (st, k)).1 in
  pressed st' = pressed st /\ interrupted st' = interrupted st /\ (finished st = true -> finished st' = true).
Proof.
  cbv zeta. unfold process_tap_dance_action_on_each_tap. rewrite !exec_bind.
  match goal with |- context [exec (call ?f) ?s] => destruct s as [st1 k1] eqn:Es end.
  assert (pressed st1 = pressed st /\ interrupted st1 = interrupted st /\ finished st1 = finished st) as (E1 & E2 & E3).
  { assert (st1 = (st1, k1).1) as -> by done. rewrite <-Es. done. }
  destruct (plain_tap i st1 k1) as [b E]. rewrite E. rewrite <-E1, <-E2, <-E3. split_and!; [done..|].
  intros Hf. cbn. by rewrite Hf.
Qed.

Lemma run_on_state {A B} i (m : stm (tap_dance_state_t * keyboard) A) (g : A -> stm (tap_dance * keyboard) B) s :
  (on_state i m ≫= g) s = g (on_state i m s).1 (on_state i m s).2.
Proof. done. Qed.

Definition after_preprocess d i : Prop := active_td d = 0 \/ active_td d = QK_TAP_DANCE + i.

Lemma action_in_range i : 0 <= i < 256 -> within QK_TAP_DANCE QK_TAP_DANCE_MAX (QK_TAP_DANCE + i) = true.
Proof. intros Hi. unfold within, QK_TAP_DANCE, QK_TAP_DANCE_MAX. repeat zcase; (done || lia). Qed.

Lemma process_press_ok i r d k : dance_ok d -> on_table i d -> after_preprocess d i -> State.pressed (event r) = true ->
  dance_ok (exec (process_tap_dance (QK_TAP_DANCE + i) r) (d, k)).1.
Proof.
  intros Hok Hi Ha Hp. assert (0 <= i < 256) as Hb by (pose proof (ok_size d Hok); unfold on_table in Hi; lia).
  unfold process_tap_dance, exec. rewrite action_in_range, index_of by done. cbv zeta. rewrite Hp.
  rewrite run_eval. cbn [snd mret stm_ret]. unfold exec. rewrite run_on_state.
  set (upd := upd_state _). destruct (on_state_changes i upd d k Hi) as (Hc1 & Ha1 & Hs1).
  destruct (on_state i upd (d, k)) as [[] [d1 k1]] eqn:E1. cbn [fst snd] in *.
  assert (pressed (state_at i d1) = true /\ interrupted (state_at i d1) = interrupted (state_at i d) /\
    finished (state_at i d1) = finished (state_at i d)) as (Hp1 & Hi1 & Hf1) by by rewrite Hs1.
  rewrite run_core, run_own. cbn [gets modify fst snd]. set (d2 := d1 <| last_tap_time := now k1 |>).
  assert (on_table i d2) as Hi2 by exact (changes_table _ _ _ _ Hc1 Hi).
  rewrite run_on_state. destruct (on_state_changes i (process_tap_dance_action_on_each_tap i) d2 k1 Hi2) as (Hc3 & Ha3 & Hs3).
  destruct (on_state i (process_tap_dance_action_on_each_tap i) (d2, k1)) as [[] [d3 k3]] eqn:E3. cbn [fst snd] in *.
  change (state_at i d2) with (state_at i d1) in Hs3.
  destruct (tap_state i (state_at i d1) k1) as (Hp3 & Hi3 & Hf3). rewrite <-Hs3 in Hp3, Hi3, Hf3.
  rewrite run_own. cbn [gets fst snd]. set (td := if finished (state_at i d3) then 0 else QK_TAP_DANCE + i).
  change ((put_active td (d3, k3)).2.1) with (d3 <| active_td := td |>).
  apply (dance_ok_change i d); [done|done| | | |done].
  - exact (changes_trans _ _ _ _ Hc1 Hc3).
  - unfold settled. change (state_at i (d3 <| active_td := td |>)) with (state_at i d3).
    destruct (finished (state_at i d3)) eqn:Ef; [right; left; split; [done|congruence]|].
    right; right. subst td. cbn [active_td]. split; [done|]. split; [|done]. rewrite Hi3, Hi1.
    destruct (ok_settled d Hok i Hi) as [->|[[Hfin _]|(_ & ? & _)]]; [done| |done].
    discriminate Hf3. congruence.
  - subst td. cbn. destruct (finished (state_at i d3)) eqn:Ef; [by left|right]. by split.
Qed.

Lemma process_release_ok i r d k : dance_ok d -> on_table i d -> State.pressed (event r) = false ->
  dance_ok (exec (process_tap_dance (QK_TAP_DANCE + i) r) (d, k)).1.
Proof.
  intros Hok Hi Hp. assert (0 <= i < 256) as Hb by (pose proof (ok_size d Hok); unfold on_table in Hi; lia).
  unfold process_tap_dance, exec. rewrite action_in_range, index_of by done. cbv zeta. rewrite Hp.
  rewrite run_eval. cbn [snd mret stm_ret]. unfold exec. rewrite run_on_state.
  set (upd := upd_state _). destruct (on_state_changes i upd d k Hi) as (Hc1 & Ha1 & Hs1).
  destruct (on_state i upd (d, k)) as [[] [d1 k1]] eqn:E1. cbn [fst snd] in *.
  assert (state_at i d1 = (state_at i d) <| pressed := false |>) as Hst1 by exact Hs1. clear Hs1 E1.
  assert (on_table i d1) as Hi1 by exact (changes_table _ _ _ _ Hc1 Hi).
  rewrite run_on_state. destruct (on_state_changes i (process_tap_dance_action_on_each_release i) d1 k1 Hi1) as (Hc3 & Ha3 & Hs3).
  destruct (on_state i (process_tap_dance_action_on_each_release i) (d1, k1)) as [[] [d3 k3]] eqn:E3. cbn [fst snd] in *.
  destruct (plain_keeps (on_each_release (tap_dance_fn i)) (state_at i d1) k1 (plain_release i)) as (Hp3 & Hi3 & Hf3).
  change (exec (call (on_each_release (tap_dance_fn i)))) with (exec (process_tap_dance_action_on_each_release i)) in Hp3, Hi3, Hf3.
  rewrite <-Hs3 in Hp3, Hi3, Hf3. clear E3 Hs3.
  pose proof (changes_trans _ _ _ _ Hc1 Hc3) as Hc. pose proof (changes_table _ _ _ _ Hc Hi) as Hi3t.
  assert (active_td d3 = active_td d) as Ha by congruence.
  rewrite run_own. cbn [gets fst snd]. destruct (finished (state_at i d3)) eqn:Ef; cbn [when].
  - rewrite run_on_state. destruct (on_state_changes i (process_tap_dance_action_on_reset i) d3 k3 Hi3t) as (Hc4 & Ha4 & Hs4).
    destruct (on_state i (process_tap_dance_action_on_reset i) (d3, k3)) as [[] [d4 k4]]. cbn [fst snd] in *.
    rewrite reset_clears in Hs4. rewrite run_own. cbn [gets fst snd].
    set (d5 := if active_td d4 =? QK_TAP_DANCE + i then d4 <| active_td := 0 |> else d4).
    assert ((when (active_td d4 =? QK_TAP_DANCE + i) (put_active 0) (d4, k4)).2.1 = d5) as ->.
    { unfold d5. by destruct (_ =? _). }
    assert (changes i d d5 /\ state_at i d5 = tap_dance_state_0 /\
      (active_td d5 = active_td d /\ active_td d <> QK_TAP_DANCE + i \/
       active_td d5 = 0 /\ active_td d = QK_TAP_DANCE + i)) as (Hc5 & Hs5 & Ha5).
    { pose proof (changes_trans _ _ _ _ Hc Hc4) as Hc5. unfold d5.
      destruct (Z.eqb_spec (active_td d4) (QK_TAP_DANCE + i)); (split; [exact Hc5|split; [exact Hs4|]]); [right|left];
        split; (done || congruence). }
    by apply (dance_ok_keep i d).
  - change ((skip (d3, k3)).2.1) with d3. specialize (Hf3 eq_refl).
    assert (finished (state_at i d) = false) as Hfd by (rewrite Hf3, Hst1 in Ef; exact Ef).
    destruct (ok_settled d Hok i Hi) as [E0|[[? _]|(_ & Hint & Hact)]]; [|congruence|].
    + assert (state_at i d3 = tap_dance_state_0) as E3 by (rewrite Hf3, Hst1, E0; done).
      destruct (decide (active_td d = QK_TAP_DANCE + i)) as [Hact|Hne].
      * apply (dance_ok_change i d); [done..|by left|right; split; congruence|by right].
      * apply (dance_ok_keep i d); [done..|left; split; congruence].
    + apply (dance_ok_change i d); [done|done|done| |right; split; congruence|by right].
      right; right. rewrite Hf3, Hst1. split_and!; [exact Hfd|exact Hint|congruence].
Qed.

(** The table keeps its length. *)
Definition sized (n : nat) (s : tap_dance * keyboard) : Prop := length (states s.1) = n.

Lemma sized_on_state {A} n i (m : stm (tap_dance_state_t * keyboard) A) : preserves (sized n) (on_state i m).
Proof. intros [d k] Hn. unfold sized, exec, on_state. cbn [fst snd]. by rewrite length_put_action. Qed.
Lemma sized_put_active n td : preserves (sized n) (put_active td).
Proof. by intros [d k] Hn. Qed.
Lemma sized_core {A} n (m : stm keyboard A) : preserves (sized n) (core m).
Proof. by intros [d k] Hn. Qed.
Lemma sized_gets {A} n (f : tap_dance -> A) : preserves (sized n) (own (gets f)).
Proof. by intros [d k] Hn. Qed.
Lemma sized_time n t : preserves (sized n) (own (modify (fun d => d <| last_tap_time := t |>))).
Proof. by intros [d k] Hn. Qed.
#[local] Hint Resolve sized_on_state sized_put_active sized_core sized_gets sized_time : preserves.

Lemma process_length kc r n : preserves (sized n) (process_tap_dance kc r).
Proof. unfold process_tap_dance. preserve. Qed.

(** ** Events, time, and what else happens *)

Inductive step_of := Key (kc kc' : Z) (r : keyrecord_t) | Task | Elsewhere (f : keyboard -> keyboard).

(** The keycode is looked up again after a dance was interrupted. *)
Definition run_step (o : step_of) : stm (tap_dance * keyboard) unit :=
  match o with
  | Key kc kc' r => b ← preprocess_tap_dance kc r; process_tap_dance (if (b : bool) then kc' else kc) r;; skip
  | Task => tap_dance_task
  | Elsewhere f => core (modify f)
  end.
Fixpoint run_steps (os : list step_of) : stm (tap_dance * keyboard) unit :=
  match os with [] => skip | o :: os => run_step o;; run_steps os end.

(** The keycodes of the keymap that are in the table. *)
Definition known (n : Z) (kc : Z) : Prop :=
  within QK_TAP_DANCE QK_TAP_DANCE_MAX kc = true -> kc - QK_TAP_DANCE < n.
Definition step_known (n : Z) (o : step_of) : Prop :=
  match o with Key kc kc' _ => known n kc /\ known n kc' | _ => True end.

Lemma process_ok kc r d k : dance_ok d -> known (Z.of_nat (length (states d))) kc ->
  (State.pressed (event r) = true -> active_td d = 0 \/ active_td d = kc) ->
  dance_ok (exec (process_tap_dance kc r) (d, k)).1.
Proof.
  intros Hok Hk Ha. destruct (within QK_TAP_DANCE QK_TAP_DANCE_MAX kc) eqn:Ew.
  - assert (on_table (kc - QK_TAP_DANCE) d) as Hi.
    { specialize (Hk Ew). unfold on_table, within in *. apply andb_prop in Ew as [?%Z.leb_le ?%Z.leb_le]. lia. }
    replace kc with (QK_TAP_DANCE + (kc - QK_TAP_DANCE)) by lia. destruct (State.pressed (event r)) eqn:Hp.
    + apply process_press_ok; [done..| |done]. unfold after_preprocess.
      replace (QK_TAP_DANCE + (kc - QK_TAP_DANCE)) with kc by lia. by apply Ha.
    + by apply process_release_ok.
  - unfold process_tap_dance, exec. by rewrite Ew.
Qed.

Lemma active_on_table d : dance_ok d -> active_td d <> 0 ->
  exists i, on_table i d /\ active_td d = QK_TAP_DANCE + i /\ QK_TAP_DANCE_GET_INDEX (active_td d) = i.
Proof.
  intros Hok Hn. destruct (ok_active d Hok) as [?|(i & Hi & E & _)]; [done|]. exists i. split; [done|]. split; [done|].
  rewrite E. apply index_of. pose proof (ok_size d Hok). lia.
Qed.

Lemma preprocess_ok kc r d k : dance_ok d ->
  let s := exec (preprocess_tap_dance kc r) (d, k) in
  dance_ok s.1 /\ length (states s.1) = length (states d) /\
  (State.pressed (event r) = true ->
   if eval (preprocess_tap_dance kc r) (d, k) then active_td s.1 = 0 else active_td s.1 = 0 \/ active_td s.1 = kc).
Proof.
  intros Hok. cbv zeta. unfold preprocess_tap_dance, exec, eval. rewrite run_own. cbn [gets fst snd].
  destruct (State.pressed (event r)); cbn [negb]; [|by split_and!].
  destruct (Z.eqb_spec (active_td d) 0) as [E|Hn]; cbn [orb]; [split_and!; [done..|by left]|].
  destruct (Z.eqb_spec kc (active_td d)) as [E|Hne]; [split_and!; [done..|by right]|].
  destruct (active_on_table d Hok Hn) as (i & Hi & Ea & ->).
  rewrite run_on_state. set (upd := upd_state _).
  change (on_state i upd (d, k)) with (tt, (put_state_at i
    ((state_at i d) <| interrupted := true |> <| interrupting_keycode := kc |>) d, k)). cbn [fst snd].
  pose proof (dance_ok_interrupt i kc d Hi Hok Ea k) as Hok'. set (d' := put_state_at i _ d) in *.
  assert (on_table i d') as Hi' by (unfold on_table, d'; by rewrite length_put_action).
  destruct (dance_finish_run i d' k Hi') as ((El & _) & Ha & _). rewrite run_eval.
  destruct (exec (process_tap_dance_action_on_dance_finished i) (d', k)) as [d2 k2]. cbn [fst snd] in *.
  rewrite run_core. split_and!; [exact Hok'| |done]. cbn. rewrite El. apply length_put_action.
Qed.

Lemma task_ok d k : dance_ok d ->
  let d' := (exec tap_dance_task (d, k)).1 in dance_ok d' /\ length (states d') = length (states d).
Proof.
  intros Hok. cbv zeta. unfold tap_dance_task, exec. rewrite run_own, run_core. cbn [gets fst snd].
  destruct (Z.eqb_spec (active_td d) 0) as [E|Hn]; cbn [orb]; [done|]. destruct (_ <=? _); [done|].
  destruct (active_on_table d Hok Hn) as (i & Hi & Ea & ->). rewrite run_own. cbn [gets fst snd].
  destruct (interrupted _); cbn [negb when]; [done|]. split; [by apply finish_ok|]. by apply dance_finish_run.
Qed.

Lemma step_ok o d k : dance_ok d -> step_known (Z.of_nat (length (states d))) o ->
  let d' := (exec (run_step o) (d, k)).1 in dance_ok d' /\ length (states d') = length (states d).
Proof.
  intros Hok Hk. destruct o as [kc kc' r| |f]; cbn [run_step].
  - destruct Hk as [Hk Hk']. destruct (preprocess_ok kc r d k Hok) as (Hok1 & El1 & Ha1). cbv zeta. rewrite exec_bind.
    set (b := eval (preprocess_tap_dance kc r) (d, k)) in *. set (s1 := exec (preprocess_tap_dance kc r) (d, k)) in *.
    clearbody b s1. destruct s1 as [d1 k1]. cbn [fst snd] in *.
    set (kc1 := if b then kc' else kc).
    assert (known (Z.of_nat (length (states d1))) kc1) as Hk1 by (rewrite El1; by destruct b).
    assert (State.pressed (event r) = true -> active_td d1 = 0 \/ active_td d1 = kc1) as Ha by (intros Hp; specialize (Ha1 Hp); destruct b; auto).
    pose proof (process_ok kc1 r d1 k1 Hok1 Hk1 Ha) as Hok2. rewrite exec_bind.
    split; [exact Hok2|]. rewrite <-El1. by apply (process_length kc1 r (length (states d1)) (d1, k1)).
  - by apply task_ok.
  - by split.
Qed.

Lemma steps_ok os d k : dance_ok d -> Forall (step_known (Z.of_nat (length (states d)))) os ->
  let d' := (exec (run_steps os) (d, k)).1 in dance_ok d' /\ length (states d') = length (states d).
Proof.
  intros Hok Hos. revert d k Hok Hos. induction os as [|o os IH]; intros d k Hok Hos; [done|].
  apply Forall_cons in Hos as [Ho Hos]. cbv zeta. cbn [run_steps]. rewrite exec_bind.
  destruct (step_ok o d k Hok Ho) as [Hok1 El1]. destruct (exec (run_step o) (d, k)) as [d1 k1]. cbn [fst] in *.
  rewrite <-El1 in *. by apply IH.
Qed.

Definition tap_dance_at_start (n : nat) : tap_dance :=
  {| states := replicate n tap_dance_state_0; active_td := 0; last_tap_time := 0 |}.

Lemma start_ok n : (n <= 256)%nat -> dance_ok (tap_dance_at_start n).
Proof.
  intros Hn. split; cbn [states active_td tap_dance_at_start]; rewrite ?length_replicate; [|by left|lia].
  intros i Hi. left. unfold state_at. cbn. by rewrite lookup_replicate_2 by lia.
Qed.

(** C23: Whatever is typed, in whatever rhythm: once no tap dance key is down
    and the term of the last tap has passed, the task leaves no dance behind.
    Every state is as at the start. *)
Theorem no_dance_left os n k :
  (n <= 256)%nat -> Forall (step_known (Z.of_nat n)) os ->
  let s := exec (run_steps os) (tap_dance_at_start n, k) in
  Forall (fun st => pressed st = false) (states s.1) ->
  active_td s.1 = 0 \/ get_tapping_term (active_td s.1) record_0 < TIMER_DIFF_16 (now s.2) (last_tap_time s.1) ->
  let d := (exec tap_dance_task s).1 in
  states d = replicate n tap_dance_state_0 /\ active_td d = 0.
Proof.
  intros Hn Hos s Hup Helapsed d.
  assert (length (states (tap_dance_at_start n)) = n) as El0 by apply length_replicate.
  destruct (steps_ok os (tap_dance_at_start n) k (start_ok n Hn) ltac:(by rewrite El0)) as [Hok El].
  fold s in Hok, El. rewrite El0 in El. clearbody s. destruct s as [d0 k0]. cbn [fst snd] in *.
  assert (forall i, on_table i d0 -> pressed (state_at i d0) = false) as Hup'.
  { intros i Hi. unfold on_table in Hi. destruct (lookup_lt_is_Some_2 (states d0) (Z.to_nat i)) as [st Hst]; [lia|].
    unfold state_at. rewrite Hst. exact (Forall_lookup_1 _ _ _ _ Hup Hst). }
  assert (length (states d) = n /\ active_td d = 0 /\ forall i, on_table i d -> state_at i d = tap_dance_state_0) as (Eld & Ead & Hall).
  { unfold d, tap_dance_task, exec. rewrite run_own, run_core. cbn [gets fst snd].
    destruct (Z.eqb_spec (active_td d0) 0) as [E|Hne]; cbn [orb].
    - split_and!; [done..|]. intros i Hi. change (state_at i d0 = tap_dance_state_0).
      destruct (ok_settled d0 Hok i Hi) as [?|[[_ Hp]|(_ & _ & Ha)]]; [done| |].
      + by rewrite (Hup' i Hi) in Hp.
      + unfold QK_TAP_DANCE, on_table in *. cbn in Hi. lia.
    - destruct Helapsed as [|Hlt]; [done|]. destruct (Z.leb_spec (TIMER_DIFF_16 (now k0) (last_tap_time d0))
        (get_tapping_term (active_td d0) record_0)); [lia|].
      destruct (active_on_table d0 Hok Hne) as (i & Hi & Ea & ->). rewrite run_own. cbn [gets fst snd].
      destruct (settled_active i d0 Hok Hi Ea) as [_ ->]. cbn [negb when].
      destruct (dance_finish_run i d0 k0 Hi) as ((El1 & Eo) & Ha1 & Hst). unfold exec in *.
      split_and!; [congruence|done|]. intros j Hj. unfold on_table in Hj. rewrite El1 in Hj.
      destruct (decide (j = i)) as [->|Hji].
      + destruct Hst as [?|(Hp & _)]; [done|]. by rewrite (Hup' i Hi) in Hp.
      + rewrite Eo by lia. destruct (ok_settled d0 Hok j Hj) as [?|[[_ Hp]|(_ & _ & Ha)]]; [done| |lia].
        by rewrite (Hup' j Hj) in Hp. }
  split; [|done]. apply list_eq. intros j. destruct (decide (j < n)%nat) as [Hj|Hj].
  - rewrite lookup_replicate_2 by done. specialize (Hall (Z.of_nat j)). unfold on_table, state_at in Hall.
    rewrite Nat2Z.id in Hall. destruct (lookup_lt_is_Some_2 (states d) j) as [st Hst]; [lia|].
    rewrite Hst in *. f_equal. apply Hall. lia.
  - rewrite !lookup_ge_None_2 by (rewrite ?length_replicate; lia). done.
Qed.
End spec.
