(* ===== verification/Autocorrect.v ===== *)
(** * Autocorrect (quantum/process_keycode/process_autocorrect.c)

    The last keys typed are kept in a buffer.  After each one the typos of a
    dictionary are looked for at its end: a trie of the reversed typos, laid
    out in an array of bytes.  A typo found is corrected by backspaces and by
    typing the end of the correction.

    Reading outside the dictionary and writing outside the array the corrected
    word is gathered in are faults ([None]). *)
From S2P Require Import Prelude.
From S2P Require Import Keycodes.
From S2P Require Import State.
From S2P Require Import ActionUtil.
From S2P Require Import Action.
From S2P Require Import SendString.
From S2P Require Import Feature.

(** The dictionary is generated; the weak [apply_autocorrect] is given the
    backspaces, what is typed after them, the typo and the corrected word. *)
Class AutocorrectConfig := {
  autocorrect_data : list Z;
  AUTOCORRECT_MIN_LENGTH : Z;
  AUTOCORRECT_MAX_LENGTH : Z;
  apply_autocorrect : Z -> list Z -> list Z -> list Z -> stm keyboard bool;
}.

Record autocorrect := {
  typo_buffer : list Z;
  typo_buffer_size : Z;
}.

(** What the search ends with: nothing, or the leaf of a typo. *)
Inductive found := NoTypo | Typo (state code : Z).

#[global] Instance found_eq_dec : EqDecision found.
Proof. solve_decision. Defined.

(** The characters of a C string, if there is a NUL in the array. *)
Fixpoint c_string (bytes : list Z) : option (list Z) :=
  match bytes with
  | [] => None
  | b :: bytes => if b =? 0 then Some [] else cons b <$> c_string bytes
  end.

(** [strcpy(a + p, s)] *)
Definition put_string (a : list Z) (p : Z) (s : list Z) : option (list Z) :=
  let n := Z.of_nat (length s) + 1 in
  if (0 <=? p) && (p + n <=? Z.of_nat (length a)) then
    Some (take (Z.to_nat p) a ++ s ++ [0] ++ drop (Z.to_nat (p + n)) a)
  else None.

Section autocorrect.
Context `{!Config} `{!Hooks} `{!SendStringTables} `{!AutocorrectConfig}.
Abbreviation M := (stm (autocorrect * keyboard)).

Definition autocorrect_at_start : autocorrect := {|
  typo_buffer := KC_SPACE :: replicate (Z.to_nat (AUTOCORRECT_MAX_LENGTH - 1)) 0;
  typo_buffer_size := 1;
|}.

Definition put_size (n : Z) : M unit := own (modify (fun a => a <| typo_buffer_size := n |>)).
Definition put_autocorrect_enable (f : bool -> bool) : M unit :=
  core (upd_config (fun c => c <| autocorrect_enable := f (autocorrect_enable c) |>)).
Definition save_keymap_config : M unit :=
  core (c ← gets keymap_config; emit (EeconfigUpdateKeymap c)).

Definition autocorrect_is_enabled : M bool :=
  core (gets (fun k => autocorrect_enable (keymap_config k))).
Definition autocorrect_enable_ : M unit :=
  put_autocorrect_enable (fun _ => true);; save_keymap_config.
Definition autocorrect_disable : M unit :=
  put_autocorrect_enable (fun _ => false);; put_size 0;; save_keymap_config.
Definition autocorrect_toggle : M unit :=
  put_autocorrect_enable negb;; put_size 0;; save_keymap_config.

(** ** Which keys count *)

(** The result, and [keycode], [typo_buffer_size] and [mods] as they are left. *)
Definition process_autocorrect_default_handler (keycode : Z) (r : keyrecord_t) (size mods : Z) :
  bool * (Z * Z * Z) :=
  let excluded := (false, (keycode, size, mods)) in
  let checked keycode :=
    if nz (clear_bits mods MOD_MASK_SHIFT) then (false, (keycode, 0, mods))
    else (true, (keycode, size, mods)) in
  let tapped keycode' := if count (tap r) =? 0 then excluded else checked keycode' in
  if (keycode =? KC_LEFT_SHIFT) || (keycode =? KC_RIGHT_SHIFT) || (keycode =? KC_CAPS_LOCK)
     || within QK_TO QK_TO_MAX keycode || within QK_MOMENTARY QK_MOMENTARY_MAX keycode
     || within QK_DEF_LAYER QK_DEF_LAYER_MAX keycode
     || within QK_TOGGLE_LAYER QK_TOGGLE_LAYER_MAX keycode
     || within QK_ONE_SHOT_LAYER QK_ONE_SHOT_LAYER_MAX keycode
     || within QK_LAYER_TAP_TOGGLE QK_LAYER_TAP_TOGGLE_MAX keycode
     || within QK_LAYER_MOD QK_LAYER_MOD_MAX keycode
     || within QK_ONE_SHOT_MOD QK_ONE_SHOT_MOD_MAX keycode then excluded
  else if within QK_LSFT (QK_LSFT + 255) keycode || within QK_RSFT (QK_RSFT + 255) keycode then
    let mod_ := if within QK_LSFT (QK_LSFT + 255) keycode then MOD_LSFT else MOD_RSFT in
    (true, (QK_MODS_GET_BASIC_KEYCODE keycode, size, Z.lor mods mod_))
  else if within QK_LAYER_TAP QK_LAYER_TAP_MAX keycode then
    tapped (QK_LAYER_TAP_GET_TAP_KEYCODE keycode)
  else if within QK_MOD_TAP QK_MOD_TAP_MAX keycode then
    tapped (QK_MOD_TAP_GET_TAP_KEYCODE keycode)
  else if within QK_SWAP_HANDS QK_SWAP_HANDS_MAX keycode then
    if SWAP_HANDS_ENABLE then
      if IS_SWAP_HANDS_KEYCODE keycode then excluded
      else tapped (QK_SWAP_HANDS_GET_TAP_KEYCODE keycode)
    else excluded
  else checked keycode.

(** The weak [process_autocorrect_user]. *)
Definition process_autocorrect_user := process_autocorrect_default_handler.

(** The key to append to the buffer and the size it is appended at, or the
    size the buffer is left with. *)
Definition keycode_buffer_check (keycode mods size : Z) : Z + Z * Z :=
  if within KC_A KC_Z keycode then inr (keycode, size)
  else if within KC_1 KC_0 keycode || within KC_TAB KC_SEMICOLON keycode
       || within KC_GRAVE KC_SLASH keycode then inr (KC_SPACE, size)
  else if keycode =? KC_ENTER then inr (KC_SPACE, 0)
  else if keycode =? KC_BACKSPACE then inl (if 0 <? size then size - 1 else size)
  else if keycode =? KC_QUOTE then
    inr (if nz (Z.land mods MOD_MASK_SHIFT) then KC_SPACE else keycode, size)
  else inl 0.

Definition append_key (key size : Z) (a : autocorrect) : autocorrect :=
  let n := Z.to_nat AUTOCORRECT_MAX_LENGTH in
  let full := AUTOCORRECT_MAX_LENGTH <=? size in
  let b := if full then drop 1 (typo_buffer a) ++ drop (n - 1) (typo_buffer a) else typo_buffer a in
  let size := if full then AUTOCORRECT_MAX_LENGTH - 1 else size in
  {| typo_buffer := <[Z.to_nat size := key]> b; typo_buffer_size := u8 (size + 1) |}.

(** ** The search *)

Definition DICTIONARY_SIZE : Z := Z.of_nat (length autocorrect_data).
Definition pgm_read_byte (i : Z) : option Z := autocorrect_data !! Z.to_nat i.

(** The loop over the children of a node. *)
Fixpoint find_child (fuel : nat) (state code key_i : Z) : option (option Z) :=
  match fuel with
  | O => None
  | S fuel =>
      if code =? key_i then Some (Some state)
      else if code =? 0 then Some None
      else
        let state := u16 (state + 3) in
        code ← pgm_read_byte state;
        find_child fuel state code key_i
  end.

Definition next_state (state code key_i : Z) : option (option Z) :=
  if nz (Z.land code 64) then
    child ← find_child (length autocorrect_data) state (Z.land code 63) key_i;
    match child with
    | None => Some None
    | Some state =>
        lo ← pgm_read_byte (state + 1);
        hi ← pgm_read_byte (state + 2);
        Some (Some (u16 (Z.lor lo (Z.shiftl hi 8))))
    end
  else if negb (code =? key_i) then Some None
  else
    let state := u16 (state + 1) in
    code ← pgm_read_byte state;
    Some (Some (if code =? 0 then u16 (state + 1) else state)).

(** The loop over the buffer, from its last key on. *)
Fixpoint search (keys : list Z) (state code : Z) : option found :=
  match keys with
  | [] => Some NoTypo
  | key_i :: keys =>
      next ← next_state state code key_i;
      match next with
      | None => Some NoTypo
      | Some state =>
          if DICTIONARY_SIZE <=? state then Some NoTypo
          else
            code ← pgm_read_byte state;
            if nz (Z.land code 128) then Some (Typo state code) else search keys state code
      end
  end.

Definition content (a : autocorrect) : list Z :=
  take (Z.to_nat (typo_buffer_size a)) (typo_buffer a).

Definition find_typo (a : autocorrect) : option found :=
  code ← pgm_read_byte 0; search (reverse (content a)) 0 code.

(** ** The correction *)

(** The loop that counts the typo, from the end of the buffer: its length and
    its start. *)
Fixpoint typo_extent (keys : list Z) (i size typo_len : Z) : Z * Z :=
  match keys with
  | [] => (typo_len, 0)
  | key :: keys =>
      if (key =? KC_SPACE) && negb (i =? size) then (typo_len, i)
      else typo_extent keys (i - 1) size (u8 (typo_len + 1))
  end.

Definition space_last (a : autocorrect) : bool :=
  bool_decide (last (content a) = Some KC_SPACE).

(** The typo, and the array of the corrected word. *)
Definition gather_words (a : autocorrect) (backspaces : Z) (changes : list Z) :
  option (list Z * list Z) :=
  let size := typo_buffer_size a in
  let (len, start) := typo_extent (reverse (content a)) size size 0 in
  let len := if space_last a then u8 (len - 1) else len in
  let typo := (fun key => u8 (key - KC_A + 97)) <$>
    take (Z.to_nat len) (drop (Z.to_nat start) (typo_buffer a)) in
  let offset := if space_last a then backspaces else u8 (backspaces + 1) in
  correct ← put_string (replicate (Z.to_nat (AUTOCORRECT_MAX_LENGTH + 10)) 0) 0 typo;
  changes ← c_string changes;
  correct ← put_string correct (len - offset) changes;
  Some (typo, correct).

Fixpoint tap_backspaces (n : nat) : stm keyboard unit :=
  match n with
  | O => skip
  | S n => tap_code KC_BACKSPACE;; tap_backspaces n
  end.

Definition correct_typo (a : autocorrect) (state code : Z) : stm keyboard bool :=
  let backspaces := Z.land code 63 in
  let changes := drop (Z.to_nat (state + 1)) autocorrect_data in
  match gather_words a backspaces changes with
  | None => mret false
  | Some (typo, correct) =>
      apply ← apply_autocorrect backspaces changes typo correct;
      if (apply : bool) then
        tap_backspaces (Z.to_nat backspaces);;
        send_string changes
      else mret true
  end.

(** ** The event *)

Definition process_autocorrect (keycode : Z) (r : keyrecord_t) : M (option bool) :=
  mods ← core get_mods;
  oneshot ← core get_oneshot_mods;
  let mods := Z.lor mods oneshot in
  if within QK_AUTOCORRECT_ON QK_AUTOCORRECT_TOGGLE keycode && pressed (event r) then
    (if keycode =? QK_AUTOCORRECT_ON then autocorrect_enable_
     else if keycode =? QK_AUTOCORRECT_OFF then autocorrect_disable
     else autocorrect_toggle);;
    mret (Some false)
  else
  enabled ← autocorrect_is_enabled;
  if negb enabled then put_size 0;; mret (Some true)
  else if negb (pressed (event r)) then mret (Some true)
  else
  size ← own (gets typo_buffer_size);
  let '(accepted, (keycode, size, mods)) := process_autocorrect_user keycode r size mods in
  put_size size;;
  if negb accepted then mret (Some true)
  else match keycode_buffer_check keycode mods size with
  | inl size => put_size size;; mret (Some true)
  | inr (key, size) =>
      own (modify (append_key key size));;
      a ← own (gets (fun a => a));
      if typo_buffer_size a <? AUTOCORRECT_MIN_LENGTH then mret (Some true)
      else match find_typo a with
      | None => mret None
      | Some NoTypo => mret (Some true)
      | Some (Typo state code) =>
          ok ← core (correct_typo a state code);
          if negb ok then mret None
          else if key =? KC_SPACE then
            own (modify (fun a => a <| typo_buffer := <[0%nat := KC_SPACE]> (typo_buffer a) |>
                                    <| typo_buffer_size := 1 |>));;
            mret (Some true)
          else put_size 0;; mret (Some false)
      end
  end.
End autocorrect.

(** ** The dictionary of autocorrect that comes with the code
    (quantum/process_keycode/autocorrect_data_default.h) *)

From Stdlib Require Import String Ascii.

Definition default_autocorrect_data : list Z := [
    108; 43; 0; 6; 71; 0; 7; 81; 0; 8; 199; 0; 9; 240; 1; 10; 250; 1; 11; 26; 2; 17; 53; 2; 18;
    190; 2; 19; 202; 2; 21; 212; 2; 22; 20; 3; 23; 67; 3; 28; 16; 4; 0; 72; 50; 0; 22; 60; 0; 0;
    11; 23; 44; 8; 11; 23; 44; 0; 132; 0; 8; 22; 18; 18; 15; 0; 132; 115; 101; 115; 0; 11; 23; 12;
    26; 22; 0; 129; 99; 104; 0; 68; 94; 0; 8; 106; 0; 15; 174; 0; 21; 187; 0; 0; 12; 15; 25; 17;
    12; 0; 131; 97; 108; 105; 100; 0; 74; 119; 0; 12; 129; 0; 21; 140; 0; 24; 165; 0; 0; 17; 12;
    22; 0; 131; 103; 110; 101; 100; 0; 25; 21; 8; 7; 0; 131; 105; 118; 101; 100; 0; 72; 147; 0; 24;
    156; 0; 0; 9; 8; 21; 0; 129; 114; 101; 100; 0; 6; 6; 18; 0; 129; 114; 101; 100; 0; 15; 6; 17;
    12; 0; 129; 100; 101; 0; 18; 22; 8; 21; 11; 23; 0; 130; 104; 111; 108; 100; 0; 4; 26; 18; 9; 0;
    131; 114; 119; 97; 114; 100; 0; 68; 233; 0; 6; 246; 0; 7; 4; 1; 8; 16; 1; 10; 52; 1; 15; 81; 1;
    21; 90; 1; 22; 117; 1; 23; 144; 1; 24; 215; 1; 25; 228; 1; 0; 6; 19; 22; 8; 16; 4; 17; 0; 130;
    97; 99; 101; 0; 19; 4; 22; 8; 16; 4; 17; 0; 131; 112; 97; 99; 101; 0; 12; 21; 8; 25; 18; 0;
    130; 114; 105; 100; 101; 0; 23; 0; 68; 25; 1; 17; 36; 1; 0; 21; 4; 24; 10; 0; 130; 110; 116;
    101; 101; 0; 4; 21; 24; 4; 10; 0; 135; 117; 97; 114; 97; 110; 116; 101; 101; 0; 68; 59; 1; 7;
    69; 1; 0; 24; 10; 44; 0; 131; 97; 117; 103; 101; 0; 8; 15; 12; 25; 12; 21; 19; 0; 130; 103;
    101; 0; 22; 4; 9; 0; 130; 108; 115; 101; 0; 76; 97; 1; 24; 109; 1; 0; 24; 20; 4; 0; 132; 99;
    113; 117; 105; 114; 101; 0; 23; 44; 0; 130; 114; 117; 101; 0; 4; 0; 79; 126; 1; 24; 134; 1; 0;
    9; 0; 131; 97; 108; 115; 101; 0; 6; 8; 5; 0; 131; 97; 117; 115; 101; 0; 4; 0; 71; 156; 1; 19;
    193; 1; 21; 203; 1; 0; 18; 16; 0; 80; 166; 1; 18; 181; 1; 0; 18; 6; 4; 0; 135; 99; 111; 109;
    109; 111; 100; 97; 116; 101; 0; 6; 6; 4; 0; 132; 109; 111; 100; 97; 116; 101; 0; 7; 24; 0; 132;
    112; 100; 97; 116; 101; 0; 8; 19; 8; 22; 0; 132; 97; 114; 97; 116; 101; 0; 10; 8; 15; 15; 18;
    6; 0; 130; 97; 103; 117; 101; 0; 8; 12; 6; 8; 21; 0; 131; 101; 105; 118; 101; 0; 12; 8; 11; 6;
    0; 130; 105; 101; 102; 0; 17; 0; 76; 3; 2; 21; 16; 2; 0; 15; 8; 12; 6; 0; 133; 101; 105; 108;
    105; 110; 103; 0; 12; 23; 22; 0; 131; 114; 105; 110; 103; 0; 70; 33; 2; 23; 44; 2; 0; 12; 23;
    26; 22; 0; 131; 105; 116; 99; 104; 0; 10; 12; 8; 11; 0; 129; 104; 116; 0; 72; 69; 2; 10; 80; 2;
    18; 89; 2; 21; 156; 2; 24; 167; 2; 0; 22; 18; 18; 11; 6; 0; 131; 115; 101; 110; 0; 12; 21; 23;
    22; 0; 129; 110; 103; 0; 12; 0; 86; 98; 2; 23; 124; 2; 0; 68; 105; 2; 22; 114; 2; 0; 12; 15; 0;
    131; 105; 115; 111; 110; 0; 4; 6; 6; 18; 0; 131; 105; 111; 110; 0; 76; 131; 2; 22; 146; 2; 0;
    23; 12; 19; 8; 21; 0; 134; 101; 116; 105; 116; 105; 111; 110; 0; 18; 19; 0; 131; 105; 116; 105;
    111; 110; 0; 23; 24; 8; 21; 0; 131; 116; 117; 114; 110; 0; 85; 174; 2; 23; 183; 2; 0; 23; 8;
    21; 0; 130; 117; 114; 110; 0; 8; 21; 0; 128; 114; 110; 0; 7; 8; 24; 22; 19; 0; 131; 101; 117;
    100; 111; 0; 24; 18; 18; 15; 0; 129; 107; 117; 112; 0; 72; 219; 2; 18; 3; 3; 0; 76; 229; 2; 15;
    238; 2; 17; 248; 2; 0; 11; 23; 44; 0; 130; 101; 105; 114; 0; 23; 12; 9; 0; 131; 108; 116; 101;
    114; 0; 23; 22; 12; 15; 0; 130; 101; 110; 101; 114; 0; 23; 4; 21; 8; 23; 17; 12; 0; 135; 116;
    101; 114; 97; 116; 111; 114; 0; 72; 30; 3; 17; 38; 3; 24; 51; 3; 0; 15; 4; 9; 0; 129; 115; 101;
    0; 4; 12; 23; 17; 18; 6; 0; 131; 97; 105; 110; 115; 0; 22; 17; 8; 6; 17; 18; 6; 0; 133; 115;
    101; 110; 115; 117; 115; 0; 74; 86; 3; 11; 96; 3; 15; 118; 3; 17; 129; 3; 22; 218; 3; 24; 232;
    3; 0; 11; 24; 4; 6; 0; 130; 103; 104; 116; 0; 71; 103; 3; 10; 110; 3; 0; 12; 26; 0; 129; 116;
    104; 0; 17; 8; 15; 0; 129; 116; 104; 0; 22; 24; 8; 21; 0; 131; 115; 117; 108; 116; 0; 68; 139;
    3; 8; 150; 3; 22; 210; 3; 0; 21; 4; 19; 19; 4; 0; 130; 101; 110; 116; 0; 85; 157; 3; 25; 200;
    3; 0; 68; 164; 3; 21; 175; 3; 0; 19; 4; 0; 132; 112; 97; 114; 101; 110; 116; 0; 4; 19; 0; 68;
    185; 3; 19; 193; 3; 0; 133; 112; 97; 114; 101; 110; 116; 0; 4; 0; 131; 101; 110; 116; 0; 8; 15;
    8; 21; 0; 130; 97; 110; 116; 0; 18; 6; 0; 130; 110; 115; 116; 0; 12; 9; 8; 17; 4; 16; 0; 132;
    105; 102; 101; 115; 116; 0; 83; 239; 3; 23; 6; 4; 0; 87; 246; 3; 24; 254; 3; 0; 17; 12; 0; 131;
    112; 117; 116; 0; 18; 0; 130; 116; 112; 117; 116; 0; 19; 24; 18; 0; 131; 116; 112; 117; 116; 0;
    70; 29; 4; 8; 41; 4; 11; 51; 4; 21; 69; 4; 0; 8; 24; 20; 8; 21; 9; 0; 129; 110; 99; 121; 0; 23;
    9; 4; 22; 0; 130; 101; 116; 121; 0; 6; 21; 4; 21; 12; 8; 11; 0; 135; 105; 101; 114; 97; 114;
    99; 104; 121; 0; 4; 5; 12; 15; 0; 130; 114; 97; 114; 121; 0].

#[local] Open Scope string_scope.

(** The typos and their corrections, as the comment above the data lists them;
    a colon is the boundary of a word. *)
Definition default_corrections : list (string * string) := [
    (":guage", "gauge"); (":the:the:", "the"); (":thier", "their");
    (":ture", "true"); ("accomodate", "accommodate"); ("acommodate", "accommodate");
    ("aparent", "apparent"); ("aparrent", "apparent"); ("apparant", "apparent");
    ("apparrent", "apparent"); ("aquire", "acquire"); ("becuase", "because");
    ("cauhgt", "caught"); ("cheif", "chief"); ("choosen", "chosen");
    ("cieling", "ceiling"); ("collegue", "colleague"); ("concensus", "consensus");
    ("contians", "contains"); ("cosnt", "const"); ("dervied", "derived");
    ("fales", "false"); ("fasle", "false"); ("fitler", "filter");
    ("flase", "false"); ("foward", "forward"); ("frequecy", "frequency");
    ("gaurantee", "guarantee"); ("guaratee", "guarantee"); ("heigth", "height");
    ("heirarchy", "hierarchy"); ("inclued", "include"); ("interator", "iterator");
    ("intput", "input"); ("invliad", "invalid"); ("lenght", "length");
    ("liasion", "liaison"); ("libary", "library"); ("listner", "listener");
    ("looses:", "loses"); ("looup", "lookup"); ("manefist", "manifest");
    ("namesapce", "namespace"); ("namespcae", "namespace"); ("occassion", "occasion");
    ("occured", "occurred"); ("ouptut", "output"); ("ouput", "output");
    ("overide", "override"); ("postion", "position"); ("priviledge", "privilege");
    ("psuedo", "pseudo"); ("recieve", "receive"); ("refered", "referred");
    ("relevent", "relevant"); ("repitition", "repetition"); ("retrun", "return");
    ("retun", "return"); ("reuslt", "result"); ("reutrn", "return");
    ("saftey", "safety"); ("seperate", "separate"); ("singed", "signed");
    ("stirng", "string"); ("strign", "string"); ("swithc", "switch");
    ("swtich", "switch"); ("thresold", "threshold"); ("udpate", "update");
    ("widht", "width")].

#[local] Close Scope string_scope.

Definition default_autocorrect : AutocorrectConfig := {|
  autocorrect_data := default_autocorrect_data;
  AUTOCORRECT_MIN_LENGTH := 5;
  AUTOCORRECT_MAX_LENGTH := 10;
  apply_autocorrect _ _ _ _ := mret true;
|}.

Fixpoint chars (s : string) : list Z :=
  match s with
  | EmptyString => []
  | String c s => Z.of_N (N_of_ascii c) :: chars s
  end.

(** The key of a character of a typo. *)
Definition typo_key (c : Z) : Z := if c =? 58 then KC_SPACE else c - 97 + KC_A.

(** The keys of each typo, and the characters of its correction. *)
Definition default_typos : list (list Z * list Z) :=
  (fun '(typo, correction) => (typo_key <$> chars typo, chars correction)) <$> default_corrections.
