(* ===== verification/AutocorrectSpec.v ===== *)
(** * Autocorrect: typos are found and corrected

    The bytes of a dictionary as a trie of reversed typos; the search finds a
    typo exactly when the buffer ends with it; with the dictionary that comes
    with the code, what is then typed turns the typo into its correction. *)

From S2P Require Import Prelude.
From S2P Require Import Keycodes.
From S2P Require Import State.
From S2P Require Import ActionUtil.
From S2P Require Import Action.
From S2P Require Import SendString.
From S2P Require Import Feature.
From S2P Require Import Autocorrect.

(** A typo of a dictionary: its keys from the last one on, and its leaf. *)
Notation reversed_typo := (list Z * Z)%type.

Definition prepend (key : Z) (ts : list reversed_typo) : list reversed_typo :=
  (fun t => (key :: t.1, t.2)) <$> ts.

Lemma elem_of_prepend key ts w l :
  (w, l) ∈ prepend key ts <-> exists w', w = key :: w' /\ (w', l) ∈ ts.
Proof.
  unfold prepend. rewrite list_elem_of_fmap. split.
  - intros ([w' l'] & [= -> ->] & ?). eauto.
  - intros (w' & -> & ?). by exists (w', l).
Qed.

Section dictionary.
Context {AC : AutocorrectConfig}.

Definition is_leaf (code : Z) : bool := nz (Z.land code 128).
Definition has_children (code : Z) : bool := nz (Z.land code 64).
Definition is_key (code : Z) : Prop := 0 < code < 64.

(** Words that start with another key. *)
Definition other_head (key : Z) (t : reversed_typo) : Prop :=
  match t.1 with [] => False | key' :: _ => key' <> key end.

(** ** The typos below a node of the trie *)

Inductive typos_at : Z -> list reversed_typo -> Prop :=
| at_leaf s code :
    pgm_read_byte s = Some code -> is_leaf code = true -> typos_at s [([], s)]
| at_chain s key next ts :
    pgm_read_byte s = Some key -> is_key key ->
    pgm_read_byte (s + 1) = Some next ->
    typos_at (if next =? 0 then s + 2 else s + 1) ts ->
    typos_at s (prepend key ts)
| at_branch s code ts :
    pgm_read_byte s = Some code -> is_leaf code = false -> has_children code = true ->
    children_at s (Z.land code 63) ts ->
    typos_at s ts
with children_at : Z -> Z -> list reversed_typo -> Prop :=
| no_child s : children_at s 0 []
| one_child s key lo hi code ts ts' :
    is_key key ->
    pgm_read_byte (s + 1) = Some lo -> pgm_read_byte (s + 2) = Some hi ->
    0 <= lo < 256 -> 0 <= hi < 256 ->
    typos_at (lo + 256 * hi) ts ->
    pgm_read_byte (s + 3) = Some code ->
    children_at (s + 3) code ts' ->
    Forall (other_head key) ts' ->
    children_at s key (prepend key ts ++ ts').

Scheme typos_at_mind := Minimality for typos_at Sort Prop
  with children_at_mind := Minimality for children_at Sort Prop.
Combined Scheme dictionary_ind from typos_at_mind, children_at_mind.

(** What a search that goes on at a node returns. *)
Definition search_from (keys : list Z) (s : Z) : option found :=
  code ← pgm_read_byte s;
  if is_leaf code then Some (Typo s code) else search keys s code.

(** [o] is the right answer for the typos [ts]. *)
Definition finds (o : option found) (ts : list reversed_typo) (keys : list Z) : Prop :=
  (forall w l, (w, l) ∈ ts -> w `prefix_of` keys ->
    exists code, pgm_read_byte l = Some code /\ is_leaf code = true /\ o = Some (Typo l code)) /\
  ((forall w l, (w, l) ∈ ts -> ~ w `prefix_of` keys) -> o = Some NoTypo).

Lemma finds_prepend o ts key keys : finds o ts keys -> finds o (prepend key ts) (key :: keys).
Proof.
  intros [Hf Hn]. split.
  - intros w l (w' & -> & Hin)%elem_of_prepend Hp%prefix_cons_inv_2. eauto.
  - intros H. apply Hn. intros w l Hin Hp. apply (H (key :: w) l); [|by apply prefix_cons].
    apply elem_of_prepend. eauto.
Qed.

Lemma finds_other key key' ts keys :
  key <> key' -> finds (Some NoTypo) (prepend key ts) (key' :: keys).
Proof.
  intros Hne. split; [|done].
  intros w l (w' & -> & _)%elem_of_prepend ->%prefix_cons_inv_1. done.
Qed.

Lemma finds_app_l o ts ts' key keys :
  Forall (other_head key) ts' -> finds o ts (key :: keys) -> finds o (ts ++ ts') (key :: keys).
Proof.
  intros Ho [Hf Hn]. split.
  - intros w l [Hin|Hin]%elem_of_app Hp; [eauto|].
    rewrite Forall_forall in Ho. specialize (Ho _ Hin). unfold other_head in Ho. cbn in Ho.
    destruct w as [|key' w]; [done|]. by apply prefix_cons_inv_1 in Hp.
  - intros H. apply Hn. intros w l Hin. apply (H w l). apply elem_of_app. by left.
Qed.

Lemma finds_app_r o key ts ts' key' keys :
  key <> key' -> finds o ts' (key' :: keys) -> finds o (prepend key ts ++ ts') (key' :: keys).
Proof.
  intros Hne [Hf Hn]. split.
  - intros w l [Hin|Hin]%elem_of_app Hp; [|eauto].
    apply elem_of_prepend in Hin as (w' & -> & _). by apply prefix_cons_inv_1 in Hp.
  - intros H. apply Hn. intros w l Hin. apply (H w l). apply elem_of_app. by right.
Qed.

Lemma finds_nil ts : Forall (fun t => t.1 <> []) ts -> finds (Some NoTypo) ts [].
Proof.
  intros Hne. split; [|done]. intros w l Hin ->%prefix_nil_inv.
  rewrite Forall_forall in Hne. by specialize (Hne _ Hin).
Qed.

(** The words below a node that is no leaf. *)
Lemma words_nonempty :
  (forall s ts, typos_at s ts -> forall code, pgm_read_byte s = Some code -> is_leaf code = false ->
    Forall (fun t => t.1 <> []) ts) /\
  (forall s code ts, children_at s code ts -> Forall (fun t => t.1 <> []) ts).
Proof.
  assert (forall key ts, Forall (fun t : reversed_typo => t.1 <> []) (prepend key ts)) as Hpre.
  { intros. apply Forall_fmap, Forall_forall. by intros [] ?. }
  apply dictionary_ind; [|intros; simplify_eq; auto using Forall_app_2..].
  intros s code Hr Hl code' Hr'. congruence.
Qed.

Hypothesis size_fits : DICTIONARY_SIZE <= 2 ^ 16 - 4.

Lemma read_in_dictionary s code : 0 <= s -> pgm_read_byte s = Some code -> 0 <= s < DICTIONARY_SIZE.
Proof.
  intros Hs Hr%lookup_lt_Some. unfold DICTIONARY_SIZE. lia.
Qed.

Lemma typos_at_inside s ts : 0 <= s -> typos_at s ts -> s < DICTIONARY_SIZE.
Proof.
  intros Hs Ht. revert Hs. destruct Ht as [? ? Hr| ? ? ? ? Hr| ? ? ? Hr]; intros Hs;
    apply read_in_dictionary in Hr; lia.
Qed.

Lemma key_bits key : is_key key -> has_children key = false /\ is_leaf key = false.
Proof.
  intros Hk. unfold is_key in Hk.
  assert (all_below 64 (fun c => negb (has_children c) && negb (is_leaf c)) = true) as Hall by done.
  apply (all_below_spec _ _ key) in Hall; [|lia].
  apply andb_prop in Hall as [?%negb_true_iff ?%negb_true_iff]. done.
Qed.

(** A step of the search, and where it goes on. *)
Lemma search_step key keys s code :
  search (key :: keys) s code =
    (next ← next_state s code key;
     match next with
     | None => Some NoTypo
     | Some s' => if DICTIONARY_SIZE <=? s' then Some NoTypo else search_from keys s'
     end).
Proof. done. Qed.

Lemma search_on keys s ts :
  0 <= s -> typos_at s ts ->
  (if DICTIONARY_SIZE <=? s then Some NoTypo else search_from keys s) = search_from keys s.
Proof.
  intros Hs Ht. pose proof (typos_at_inside s ts Hs Ht). by destruct (Z.leb_spec DICTIONARY_SIZE s); [lia|].
Qed.

Lemma link_value lo hi : 0 <= lo < 256 -> 0 <= hi < 256 -> u16 (Z.lor lo (Z.shiftl hi 8)) = lo + 256 * hi.
Proof.
  intros Hlo Hhi. rewrite Z.shiftl_mul_pow2 by lia.
  rewrite Z.lor_comm, (lor_add 8); [|lia| |lia].
  - rewrite wrap_small by dlia. lia.
  - apply Z.mod_mul. lia.
Qed.

(** ** The search is right *)

Definition Fuel (fuel : nat) (s : Z) : Prop := DICTIONARY_SIZE - s < 3 * Z.of_nat fuel.

(** What follows the loop over the children. *)
Definition follow (child : option Z) (keys : list Z) : option found :=
  match child with
  | None => Some NoTypo
  | Some s =>
      lo ← pgm_read_byte (s + 1);
      hi ← pgm_read_byte (s + 2);
      let s' := u16 (Z.lor lo (Z.shiftl hi 8)) in
      if DICTIONARY_SIZE <=? s' then Some NoTypo else search_from keys s'
  end.

Lemma search_finds :
  (forall s ts, typos_at s ts -> 0 <= s ->
    forall keys, Forall (fun key => key <> 0) keys -> finds (search_from keys s) ts keys) /\
  (forall s code ts, children_at s code ts -> 0 <= s < DICTIONARY_SIZE ->
    forall fuel key keys, Fuel fuel s -> key <> 0 -> Forall (fun key => key <> 0) keys ->
    exists child, find_child fuel s code key = Some child /\ finds (follow child keys) ts (key :: keys)).
Proof.
  apply dictionary_ind.
  - intros s code Hr Hl Hs keys Hk. unfold search_from. rewrite Hr. cbn. rewrite Hl. split.
    + intros w l [= -> ->]%list_elem_of_singleton _. eauto.
    + intros H. destruct (H [] s); [by apply list_elem_of_singleton|apply prefix_nil].
  - intros s key next ts Hr Hkey Hr' Ht IH Hs keys Hk. destruct (key_bits key Hkey) as [Hc Hl].
    unfold search_from. rewrite Hr. cbn [mbind option_bind]. rewrite Hl.
    destruct keys as [|key' keys].
    { apply finds_nil. apply Forall_fmap, Forall_forall. by intros [] ?. }
    apply Forall_cons in Hk as [Hk0 Hk]. rewrite search_step. unfold next_state.
    fold (has_children key). rewrite Hc. destruct (Z.eqb_spec key key') as [<-|Hne]; cbn [negb].
    2: { by apply finds_other. }
    apply finds_prepend. pose proof (read_in_dictionary (s + 1) _ ltac:(lia) Hr').
    rewrite (wrap_small 16 (s + 1)) by lia. rewrite Hr'. cbn [mbind option_bind].
    rewrite (wrap_small 16) by lia. replace (s + 1 + 1) with (s + 2) by lia.
    rewrite (search_on _ _ ts) by (case_match; lia || done). apply IH; [case_match; lia|done].
  - intros s code ts Hr Hl Hc Hch IH Hs keys Hk. unfold search_from. rewrite Hr.
    cbn [mbind option_bind]. rewrite Hl. destruct keys as [|key keys].
    { apply finds_nil. by apply (proj2 words_nonempty _ _ _ Hch). }
    apply Forall_cons in Hk as [Hk0 Hk]. pose proof (read_in_dictionary s _ Hs Hr) as Hin.
    destruct (IH Hin (length autocorrect_data) key keys) as (child & E & Hf); [|done..|].
    { unfold Fuel, DICTIONARY_SIZE in *. lia. }
    rewrite search_step. unfold next_state. fold (has_children code). rewrite Hc, E. cbn [mbind option_bind].
    destruct child as [s'|]; [|done]. unfold follow in Hf.
    by destruct (pgm_read_byte (s' + 1)), (pgm_read_byte (s' + 2)).
  - intros s Hs fuel key keys Hfuel Hk0 Hk. destruct fuel as [|fuel]; [unfold Fuel in Hfuel; lia|].
    exists None. cbn [find_child]. destruct (Z.eqb_spec 0 key); [done|]. split; [done|]. split; [|done].
    by intros ? ? ?%elem_of_nil.
  - intros s key lo hi code ts ts' Hkey Hlo Hhi Hlo' Hhi' Ht IH Hr Hch IHc Ho Hs fuel key' keys Hfuel Hk0 Hk.
    destruct fuel as [|fuel]; [unfold Fuel in Hfuel; lia|]. cbn [find_child].
    destruct (Z.eqb_spec key key') as [<-|Hne].
    + exists (Some s). split; [done|]. apply finds_app_l; [done|]. apply finds_prepend.
      unfold follow. rewrite Hlo, Hhi. cbn [mbind option_bind]. rewrite link_value by done.
      rewrite (search_on _ _ ts) by (done || lia). apply IH; [lia|done].
    + unfold is_key in Hkey. destruct (Z.eqb_spec key 0); [lia|].
      pose proof (read_in_dictionary (s + 3) _ ltac:(lia) Hr).
      rewrite (wrap_small 16) by lia. rewrite Hr. cbn [mbind option_bind].
      destruct (IHc ltac:(lia) fuel key' keys) as (child & E & Hf); [unfold Fuel in *; lia|done|done|].
      exists child. split; [done|]. by apply finds_app_r.
Qed.

Lemma root_is_no_leaf ts code :
  typos_at 0 ts -> Forall (fun t => t.1 <> []) ts -> pgm_read_byte 0 = Some code -> is_leaf code = false.
Proof.
  intros Ht Hne Hr. inversion Ht as [? ? Hr' Hl|? key ? ? Hr' Hkey|? ? ? Hr']; simplify_eq.
  - by apply Forall_inv in Hne.
  - by apply key_bits.
  - congruence.
Qed.

(** C28: Whatever the dictionary: when the buffer ends with one of the typos
    its bytes stand for, the search returns the leaf of that typo, and
    otherwise it returns that there is none; it never reads outside the
    dictionary. *)
Theorem find_typo_is_lookup ts a :
  typos_at 0 ts -> Forall (fun t => t.1 <> []) ts -> Forall (fun key => key <> 0) (content a) ->
  (forall w l, (w, l) ∈ ts -> reverse w `suffix_of` content a ->
    exists code, pgm_read_byte l = Some code /\ find_typo a = Some (Typo l code)) /\
  ((forall w l, (w, l) ∈ ts -> ~ reverse w `suffix_of` content a) -> find_typo a = Some NoTypo).
Proof.
  intros Ht Hne Hkeys.
  destruct (proj1 search_finds 0 ts Ht ltac:(lia) (reverse (content a))) as [Hf Hn].
  { by apply Forall_reverse. }
  assert (find_typo a = search_from (reverse (content a)) 0) as ->.
  { unfold find_typo, search_from. destruct (pgm_read_byte 0) as [code|] eqn:Hr; [|done].
    cbn. by rewrite (root_is_no_leaf ts code). }
  assert (forall w, reverse w `suffix_of` content a <-> w `prefix_of` reverse (content a)) as Hiff.
  { intros w. by rewrite suffix_prefix_reverse, reverse_involutive. }
  split.
  - intros w l Hin Hs%Hiff. destruct (Hf w l Hin Hs) as (code & ? & _ & ?). eauto.
  - intros H. apply Hn. intros w l Hin Hp%Hiff. by apply (H w l).
Qed.

(** ** Reading a dictionary *)

Definition is_keyb (code : Z) : bool := within 1 63 code.

Lemma is_keyb_true code : is_keyb code = true -> is_key code.
Proof. intros [?%Z.leb_le ?%Z.leb_le]%andb_prop. unfold is_key. lia. Qed.

Definition other_headb (key : Z) (t : reversed_typo) : bool :=
  match t.1 with [] => false | key' :: _ => negb (key' =? key) end.

Lemma other_headb_true key ts : forallb (other_headb key) ts = true -> Forall (other_head key) ts.
Proof.
  intros H. apply Forall_forall. intros t Hin.
  pose proof (proj1 (forallb_forall _ _) H t (proj1 (list_elem_of_In _ _) Hin)) as Ht.
  unfold other_headb, other_head in *. destruct t.1 as [|key' w]; [done|].
  by apply negb_true_iff, Z.eqb_neq in Ht.
Qed.

Fixpoint read_typos (fuel : nat) (s : Z) : option (list reversed_typo) :=
  match fuel with
  | O => None
  | S fuel =>
      code ← pgm_read_byte s;
      if is_leaf code then Some [([], s)]
      else if has_children code then read_children fuel s (Z.land code 63)
      else if is_keyb code then
        next ← pgm_read_byte (s + 1);
        ts ← read_typos fuel (if next =? 0 then s + 2 else s + 1);
        Some (prepend code ts)
      else None
  end
with read_children (fuel : nat) (s code : Z) : option (list reversed_typo) :=
  match fuel with
  | O => None
  | S fuel =>
      if code =? 0 then Some []
      else if is_keyb code then
        lo ← pgm_read_byte (s + 1);
        hi ← pgm_read_byte (s + 2);
        if within 0 255 lo && within 0 255 hi then
          ts ← read_typos fuel (lo + 256 * hi);
          next ← pgm_read_byte (s + 3);
          ts' ← read_children fuel (s + 3) next;
          if forallb (other_headb code) ts' then Some (prepend code ts ++ ts') else None
        else None
      else None
  end.

Lemma read_typos_sound fuel :
  (forall s ts, read_typos fuel s = Some ts -> typos_at s ts) /\
  (forall s code ts, read_children fuel s code = Some ts -> children_at s code ts).
Proof.
  induction fuel as [|fuel [IH IHc]]; [done|]. split.
  - intros s ts. cbn [read_typos].
    intros (code & Hr & E)%bind_Some. destruct (is_leaf code) eqn:Hl.
    { simplify_eq. by eapply at_leaf. }
    destruct (has_children code) eqn:Hc; [by eapply at_branch; eauto|].
    destruct (is_keyb code) eqn:Hk; [|done]. apply is_keyb_true in Hk.
    apply bind_Some in E as (next & Hr' & (ts' & ? & [= <-])%bind_Some). eapply at_chain; eauto.
  - intros s code ts. cbn [read_children]. destruct (Z.eqb_spec code 0) as [->|_].
    { intros [= <-]. constructor. }
    destruct (is_keyb code) eqn:Hk; [|done]. apply is_keyb_true in Hk.
    intros (lo & Hlo & (hi & Hhi & E)%bind_Some)%bind_Some.
    destruct (within 0 255 lo && within 0 255 hi) eqn:Hb; [|done].
    apply andb_prop in Hb as [[?%Z.leb_le ?%Z.leb_le]%andb_prop [?%Z.leb_le ?%Z.leb_le]%andb_prop].
    apply bind_Some in E as (ts1 & ? & (next & ? & (ts2 & ? & E)%bind_Some)%bind_Some).
    destruct (forallb (other_headb code) ts2) eqn:Ho; [|done]. apply other_headb_true in Ho.
    simplify_eq. eapply (one_child s code lo hi); eauto; lia.
Qed.
End dictionary.

(** ** The buffer *)

Section buffer.
Context `{!Config} `{!Hooks} `{!SendStringTables} {AC : AutocorrectConfig}.

Record buffer_ok (a : autocorrect) : Prop := {
  buffer_length : Z.of_nat (length (typo_buffer a)) = AUTOCORRECT_MAX_LENGTH;
  buffer_size : 0 <= typo_buffer_size a <= AUTOCORRECT_MAX_LENGTH;
  buffer_keys : Forall is_key (content a);
}.

Hypothesis max_length : 1 <= AUTOCORRECT_MAX_LENGTH <= 127.

Lemma length_content a : buffer_ok a -> length (content a) = Z.to_nat (typo_buffer_size a).
Proof. intros [Hl Hs _]. unfold content. rewrite length_take. lia. Qed.

(** A key is appended, at the expense of the oldest one when the buffer is full. *)
Lemma content_append key a :
  buffer_ok a ->
  content (append_key key (typo_buffer_size a) a) =
    drop (if AUTOCORRECT_MAX_LENGTH <=? typo_buffer_size a then 1 else 0) (content a) ++ [key] /\
  length (typo_buffer (append_key key (typo_buffer_size a) a)) = length (typo_buffer a) /\
  typo_buffer_size (append_key key (typo_buffer_size a) a) =
    Z.min (typo_buffer_size a + 1) AUTOCORRECT_MAX_LENGTH.
Proof.
  intros [Hl Hs _]. destruct a as [b n]. unfold content, append_key.
  cbn [typo_buffer typo_buffer_size] in *.
  assert (forall c i x, (i < length c)%nat -> take (S i) (<[i := x]> c : list Z) = take i c ++ [x]) as Htake.
  { intros c i x Hi. rewrite (take_S_r _ _ x) by (by apply list_lookup_insert_eq). by rewrite take_insert_ge. }
  destruct (Z.leb_spec AUTOCORRECT_MAX_LENGTH n).
  - assert (n = AUTOCORRECT_MAX_LENGTH) as -> by lia.
    assert (length (drop 1 b ++ drop (Z.to_nat AUTOCORRECT_MAX_LENGTH - 1) b) = length b) as Hlen.
    { rewrite length_app, !length_drop. lia. }
    rewrite (wrap_small 8) by lia. split_and!.
    + replace (Z.to_nat (AUTOCORRECT_MAX_LENGTH - 1 + 1)) with (S (Z.to_nat (AUTOCORRECT_MAX_LENGTH - 1))) by lia.
      rewrite Htake by (rewrite Hlen; lia). f_equal.
      rewrite take_app_le by (rewrite length_drop; lia).
      replace (Z.to_nat AUTOCORRECT_MAX_LENGTH) with (length b) by lia. rewrite firstn_all.
      apply take_ge. rewrite length_drop. lia.
    + by rewrite length_insert.
    + lia.
  - rewrite (wrap_small 8) by lia. split_and!.
    + replace (Z.to_nat (n + 1)) with (S (Z.to_nat n)) by lia. by rewrite Htake by lia.
    + by rewrite length_insert.
    + lia.
Qed.

Lemma append_ok key a : buffer_ok a -> is_key key -> buffer_ok (append_key key (typo_buffer_size a) a).
Proof.
  intros Ha Hk. destruct (content_append key a Ha) as (Hc & Hl & Hs). destruct Ha as [Hl' Hs' Hk'].
  split; [by rewrite Hl|lia|]. rewrite Hc. apply Forall_app. split; [by apply Forall_drop|by constructor].
Qed.

(** A typo no longer than the buffer is still at its end. *)
Lemma suffix_append typo key a :
  buffer_ok a -> Z.of_nat (length typo) <= AUTOCORRECT_MAX_LENGTH -> typo `suffix_of` content a ++ [key] ->
  typo `suffix_of` content (append_key key (typo_buffer_size a) a).
Proof.
  intros Ha Hlen [pre Hpre]. destruct (content_append key a Ha) as (-> & _ & _).
  pose proof (length_content a Ha) as Hlc. destruct (Z.leb_spec AUTOCORRECT_MAX_LENGTH (typo_buffer_size a)).
  - destruct (content a) as [|c cs] eqn:Ec; cbn [drop]; [by exists pre|].
    destruct pre as [|x pre].
    + apply (f_equal length) in Hpre. cbn in Hpre. rewrite length_app in Hpre. cbn in Hpre, Hlc. lia.
    + cbn in Hpre. injection Hpre as _ Hpre. rewrite drop_0. by exists pre.
  - by exists pre.
Qed.

Lemma put_size_ok n a : buffer_ok a -> 0 <= n <= typo_buffer_size a -> buffer_ok (a <| typo_buffer_size := n |>).
Proof.
  intros [Hl Hs Hk] Hn. destruct a as [b m]. split; cbn in *; [done|lia|].
  unfold content in *. cbn in *. replace n with (n `min` m) by lia.
  rewrite Z2Nat.inj_min, <-take_take. by apply Forall_take.
Qed.

(** ** The word at the end of the buffer *)

Fixpoint letters_before (keys : list Z) : Z :=
  match keys with
  | [] => 0
  | key :: keys => if key =? KC_SPACE then 0 else 1 + letters_before keys
  end.

Lemma letters_before_range keys : 0 <= letters_before keys <= Z.of_nat (length keys).
Proof. induction keys as [|key keys IH]; cbn [letters_before length]; [lia|]. case_match; lia. Qed.

Lemma letters_before_app keys keys' : letters_before keys <= letters_before (keys ++ keys').
Proof.
  pose proof (letters_before_range keys'). induction keys as [|key keys IH]; cbn [letters_before app]; [lia|].
  case_match; lia.
Qed.

Lemma typo_extent_run keys size n :
  Z.of_nat (length keys) < size -> 0 <= n -> n + Z.of_nat (length keys) < 2 ^ 8 ->
  typo_extent keys (Z.of_nat (length keys)) size n =
    (n + letters_before keys, Z.of_nat (length keys) - letters_before keys).
Proof.
  revert n. induction keys as [|key keys IH]; intros n Hs Hn Hb; cbn [typo_extent letters_before length] in *.
  { f_equal; lia. }
  destruct (Z.eqb_spec key KC_SPACE); cbn [andb].
  - destruct (Z.eqb_spec (Z.of_nat (S (length keys))) size); [lia|]. cbn. f_equal; lia.
  - rewrite (wrap_small 8) by lia. replace (Z.of_nat (S (length keys)) - 1) with (Z.of_nat (length keys)) by lia.
    rewrite IH by lia. f_equal; lia.
Qed.

(** The length of the last word of the buffer, a boundary at the end not counted. *)
Definition last_word (reversed : list Z) : Z :=
  match reversed with
  | [] => 0
  | key :: keys => (if key =? KC_SPACE then 0 else 1) + letters_before keys
  end.

Lemma put_string_ok a p s :
  0 <= p -> p + Z.of_nat (length s) < Z.of_nat (length a) ->
  exists a', put_string a p s = Some a' /\ length a' = length a.
Proof.
  intros Hp Hl. unfold put_string.
  destruct (Z.leb_spec 0 p); [|lia]. destruct (Z.leb_spec (p + (Z.of_nat (length s) + 1)) (Z.of_nat (length a))); [|lia].
  eexists. split; [done|]. rewrite !length_app, length_take, length_drop. cbn [length]. lia.
Qed.

Lemma gather_words_run a backspaces changes text :
  buffer_ok a -> content a <> [] -> 0 <= backspaces < 64 -> c_string changes = Some text ->
  let offset := if space_last a then backspaces else backspaces + 1 in
  let word := last_word (reverse (content a)) in
  (offset <= word -> word - offset + Z.of_nat (length text) < AUTOCORRECT_MAX_LENGTH + 10 ->
    exists words, gather_words a backspaces changes = Some words) /\
  (word < offset -> gather_words a backspaces changes = None).
Proof.
  intros Ha Hne Hb Ht offset word. unfold gather_words.
  pose proof (length_content a Ha) as Hlc. destruct Ha as [Hl Hs _].
  assert (space_last a = match reverse (content a) with [] => false | key :: _ => key =? KC_SPACE end) as Hsl.
  { unfold space_last. rewrite <-head_reverse. destruct (reverse (content a)) as [|key keys]; cbn; [done|].
    destruct (Z.eqb_spec key KC_SPACE); case_bool_decide; congruence. }
  unfold word in *. clear word. pose proof (length_reverse (content a)) as Hlr.
  destruct (reverse (content a)) as [|key keys] eqn:Er.
  { apply (f_equal reverse) in Er. rewrite reverse_involutive in Er. done. }
  cbn [last_word length] in *. pose proof (letters_before_range keys) as Hlb.
  cbn [typo_extent]. rewrite Z.eqb_refl, andb_false_r.
  replace (typo_buffer_size a - 1) with (Z.of_nat (length keys)) by lia. rewrite (wrap_small 8 (0 + 1)) by lia.
  rewrite typo_extent_run by lia.
  set (len := if space_last a then u8 (0 + 1 + letters_before keys - 1) else 0 + 1 + letters_before keys).
  assert (len = (if key =? KC_SPACE then 0 else 1) + letters_before keys) as Hlen.
  { unfold len. rewrite Hsl. destruct (key =? KC_SPACE); [|lia]. rewrite wrap_small by lia. lia. }
  assert ((if space_last a then backspaces else u8 (backspaces + 1)) = offset) as ->.
  { unfold offset. destruct (space_last a); [done|]. by rewrite wrap_small by lia. }
  fold len. rewrite <-Hlen in *. clearbody len offset.
  destruct (put_string_ok (replicate (Z.to_nat (AUTOCORRECT_MAX_LENGTH + 10)) 0) 0
    ((fun key => u8 (key - KC_A + 97)) <$> take (Z.to_nat len)
      (drop (Z.to_nat (Z.of_nat (length keys) - letters_before keys)) (typo_buffer a)))) as (c & Ec & Hc).
  { lia. }
  { rewrite length_fmap, length_take, length_replicate. destruct (key =? KC_SPACE); lia. }
  rewrite Ec, Ht. cbn [mbind option_bind]. rewrite length_replicate in Hc. split.
  - intros Hoff Hfit. destruct (put_string_ok c (len - offset) text) as (c' & -> & _); [lia|lia|]. cbn. eauto.
  - intros Hoff. unfold put_string. destruct (Z.leb_spec 0 (len - offset)); [lia|]. done.
Qed.
End buffer.
