(* ===== verification/AutocorrectTyping.v ===== *)
(** * Autocorrect: what is typed with the dictionary that comes with the code *)

From S2P Require Import Prelude.
From S2P Require Import Keycodes.
From S2P Require Import Report.
From S2P Require Import State.
From S2P Require Import ActionUtil.
From S2P Require Import Action.
From S2P Require Import Sample.
From S2P Require Import SendString.
From S2P Require Import Feature.
From S2P Require Import Autocorrect.
From S2P Require Import AutocorrectSpec.

#[local] Existing Instance default_autocorrect.

(** ** The entries *)

Definition default_table : list reversed_typo := default [] (read_typos 64 0).

Lemma default_table_read : typos_at 0 default_table.
Proof.
  assert (read_typos 64 0 = Some default_table) as H by (by vm_compute).
  by apply (proj1 (read_typos_sound 64)) in H.
Qed.

Lemma default_nonempty : Forall (fun t : reversed_typo => t.1 <> []) default_table.
Proof.
  apply Forall_forall. intros t Hin%list_elem_of_In.
  assert (forallb (fun t : reversed_typo => negb (bool_decide (t.1 = []))) default_table = true) as H by (by vm_compute).
  rewrite forallb_forall in H. specialize (H t Hin). by apply negb_true_iff, bool_decide_eq_false in H.
Qed.

(** The text the host has of a typo whose last key is not yet sent. *)
Definition typed_text (typo : list Z) : list Z :=
  (fun key => if key =? KC_SPACE then 32 else key - KC_A + 97) <$>
  removelast (match typo with key :: keys => if key =? KC_SPACE then keys else typo | [] => [] end).

(** The typo that is a word repeated. *)
Definition the_the : list Z := typo_key <$> [58; 116; 104; 101; 58; 116; 104; 101; 58].

(** Backspaces and text of a leaf. *)
Definition leaf_action (l : Z) : option (Z * list Z) :=
  code ← pgm_read_byte l;
  text ← c_string (drop (Z.to_nat (l + 1)) autocorrect_data);
  Some (Z.land code 63, text).

(** The leaf [l] corrects [typo]. *)
Definition corrects (typo correction : list Z) (l : Z) : bool :=
  match leaf_action l with
  | None => false
  | Some (n, text) =>
      let kept := Z.of_nat (length (typed_text typo)) - n in
      let offset := if bool_decide (last typo = Some KC_SPACE) then n else n + 1 in
      let word := last_word (reverse typo) in
      (0 <=? kept) && bool_decide (take (Z.to_nat kept) (typed_text typo) ++ text = correction) &&
      forallb (within 97 122) text &&
      ((Z.of_nat (length text) <? offset + 10)) &&
      ((offset <=? word) || bool_decide (typo = the_the))
  end.

Definition find_leaf (typo : list Z) : option Z :=
  snd <$> head (filter (fun t : reversed_typo => t.1 = reverse typo) default_table).

Lemma default_entries :
  forallb (fun '(typo, correction) =>
    match find_leaf typo with Some l => corrects typo correction l | None => false end &&
    (Z.of_nat (length typo) <=? 10) && (5 <=? Z.of_nat (length typo))) default_typos = true.
Proof. by vm_compute. Qed.

#[local] Opaque default_table.

Lemma find_leaf_in typo l : find_leaf typo = Some l -> (reverse typo, l) ∈ default_table.
Proof.
  unfold find_leaf. intros ([w l'] & Hh & [= <-])%fmap_Some. cbn.
  apply head_Some_elem_of in Hh.
  apply list_elem_of_filter in Hh as [Hw Hin]. cbn in Hw. subst w. exact Hin.
Qed.

(** What the table says about an entry. *)
Record entry (typo correction : list Z) (l n : Z) (text : list Z) : Prop := {
  entry_code : exists code, pgm_read_byte l = Some code /\ Z.land code 63 = n;
  entry_text : c_string (drop (Z.to_nat (l + 1)) autocorrect_data) = Some text;
  entry_range : 0 <= n < 64;
  entry_kept : n <= Z.of_nat (length (typed_text typo));
  entry_result : take (length (typed_text typo) - Z.to_nat n) (typed_text typo) ++ text = correction;
  entry_letters : Forall (fun c => 97 <= c <= 122) text;
  entry_room : Z.of_nat (length text) < (if bool_decide (last typo = Some KC_SPACE) then n else n + 1) + 10;
  entry_word : typo <> the_the ->
    (if bool_decide (last typo = Some KC_SPACE) then n else n + 1) <= last_word (reverse typo);
}.

Lemma default_entry typo correction :
  (typo, correction) ∈ default_typos ->
  5 <= Z.of_nat (length typo) <= 10 /\
  exists l n text, (reverse typo, l) ∈ default_table /\ entry typo correction l n text.
Proof.
  intros Hin%list_elem_of_In. pose proof (proj1 (forallb_forall _ _) default_entries _ Hin) as H. cbv beta iota in H.
  apply andb_prop in H as [[H Hlen%Z.leb_le]%andb_prop Hmin%Z.leb_le]. split; [lia|].
  destruct (find_leaf typo) as [l|] eqn:El; [|done]. apply find_leaf_in in El.
  unfold corrects in H. destruct (leaf_action l) as [[n text]|] eqn:Ea; [|done].
  exists l, n, text. split; [done|].
  unfold leaf_action in Ea. apply bind_Some in Ea as (code & Hcode & (text' & Htext & [= <- <-])%bind_Some).
  apply andb_prop in H as [[[[Hk%Z.leb_le Hr%bool_decide_eq_true]%andb_prop Hl]%andb_prop Hroom%Z.ltb_lt]%andb_prop Hw].
  assert (0 <= Z.land code 63 < 64) as Hn.
  { change 63 with (Z.ones 6). rewrite Z.land_ones by lia. apply Z.mod_pos_bound. lia. }
  split; [by eauto|done|done|lia| | |done|].
  - rewrite <-Hr. f_equal. f_equal. lia.
  - apply Forall_forall. intros c Hc%list_elem_of_In. rewrite forallb_forall in Hl.
    specialize (Hl c Hc). apply andb_prop in Hl as [?%Z.leb_le ?%Z.leb_le]. lia.
  - intros Hne. apply orb_prop in Hw as [?%Z.leb_le|?%bool_decide_eq_true]; done.
Qed.

Lemma the_the_entry : exists l, (reverse the_the, l) ∈ default_table /\ entry the_the [116; 104; 101] l 4 [].
Proof.
  assert (bool_decide (find_leaf the_the = Some 58) = true) as E%bool_decide_eq_true by (by vm_compute).
  exists 58. split; [by apply find_leaf_in|].
  split; [exists 132; split; vm_compute; reflexivity|vm_compute; reflexivity|lia|vm_compute; discriminate|
    vm_compute; reflexivity|constructor|vm_compute; reflexivity|by intros []].
Qed.

(** ** What is typed *)

Section typing.
Context {CF : Config} {HK : Hooks} {ST : SendStringTables}.
Implicit Types (a : autocorrect) (k : keyboard).

(** The letters, one by one. *)
Fixpoint type_text (text : list Z) : stm keyboard unit :=
  match text with
  | [] => skip
  | c :: text => send_char c;; type_text text
  end.

(** The tables have an entry for each lower case letter. *)
Hypothesis letters_typed : forall c, 97 <= c <= 122 -> is_Some (char_entries c).

Lemma send_char_ok c k : 97 <= c <= 122 -> eval (send_char c) k = true.
Proof.
  intros Hc. destruct (letters_typed c Hc) as [[[[keycode s] g] d] E].
  unfold send_char, send_char_with_delay. rewrite E. done.
Qed.

Lemma send_string_types text rest k :
  Forall (fun c => 97 <= c <= 122) text -> c_string rest = Some text ->
  send_string rest k = (true, exec (type_text text) k).
Proof.
  unfold send_string, send_string_with_delay. intros Ht. revert rest k.
  induction Ht as [|c text Hc Ht IH]; intros rest k Hr; (destruct rest as [|c' rest]; [done|]);
    cbn [c_string send_string_loop] in *; destruct (Z.eqb_spec c' 0).
  - done.
  - by destruct (c_string rest).
  - done.
  - apply fmap_Some in Hr as (text' & Hr & [= <- <-]).
    destruct (Z.eqb_spec c SS_QMK_PREFIX); [unfold SS_QMK_PREFIX in *; lia|].
    rewrite run_eval. fold (send_char c). rewrite (send_char_ok c k Hc).
    by rewrite IH.
Qed.

(** The press counts as [key]: a letter, or the boundary of a word. *)
Definition counts_as (keycode : Z) (r : keyrecord_t) (key : Z) a k : Prop :=
  exists keycode' mods',
    process_autocorrect_user keycode r (typo_buffer_size a)
      (Z.lor (real_mods (mods k)) (oneshot_mods (mods k))) =
      (true, (keycode', typo_buffer_size a, mods')) /\
    keycode_buffer_check keycode' mods' (typo_buffer_size a) = inr (key, typo_buffer_size a).

(** Up to the search. *)
Lemma process_searches keycode r key a k :
  pressed (event r) = true -> within QK_AUTOCORRECT_ON QK_AUTOCORRECT_TOGGLE keycode = false ->
  autocorrect_enable (keymap_config k) = true -> counts_as keycode r key a k ->
  let a' := append_key key (typo_buffer_size a) a in
  AUTOCORRECT_MIN_LENGTH <= typo_buffer_size a' ->
  process_autocorrect keycode r (a, k) =
    match find_typo a' with
    | None => (None, (a', k))
    | Some NoTypo => (Some true, (a', k))
    | Some (Typo state code) =>
        let k' := exec (correct_typo a' state code) k in
        if eval (correct_typo a' state code) k then
          if key =? KC_SPACE then
            (Some true, (a' <| typo_buffer := <[0%nat := KC_SPACE]> (typo_buffer a') |> <| typo_buffer_size := 1 |>, k'))
          else (Some false, (a' <| typo_buffer_size := 0 |>, k'))
        else (None, (a', k'))
    end.
Proof.
  intros Hp Hkc He (keycode' & mods' & Hu & Hc) a' Hmin. unfold process_autocorrect.
  unfold get_mods, get_oneshot_mods. rewrite run_core, run_core. cbn [gets fst snd]. rewrite Hkc, Hp. cbn [andb].
  unfold autocorrect_is_enabled. rewrite run_core. cbn [gets fst snd]. rewrite He. cbn [negb].
  rewrite run_own. cbn [gets fst snd]. rewrite Hu. unfold put_size. rewrite run_own. cbn [modify fst snd].
  assert (a <| typo_buffer_size := typo_buffer_size a |> = a) as -> by (by destruct a). cbn [negb]. rewrite Hc. cbv iota beta.
  rewrite run_own. cbn [modify fst snd]. rewrite run_own. cbn [gets fst snd]. fold a'.
  destruct (Z.ltb_spec (typo_buffer_size a') AUTOCORRECT_MIN_LENGTH); [lia|].
  destruct (find_typo a') as [[|state code]|]; [done| |done].
  rewrite run_core. cbn [fst snd]. unfold eval, exec.
  destruct (correct_typo a' state code k) as [[] k']; cbn [negb fst snd]; [|done].
  by destruct (key =? KC_SPACE).
Qed.

Lemma counts_as_key keycode r key a k : counts_as keycode r key a k -> is_key key.
Proof.
  intros (keycode' & mods' & _ & H). unfold keycode_buffer_check, is_key in *.
  destruct (within KC_A KC_Z keycode') eqn:E.
  { apply andb_prop in E as [?%Z.leb_le ?%Z.leb_le]. simplify_eq. unfold KC_A, KC_Z in *. lia. }
  assert (0 < KC_SPACE < 64) by done. repeat case_match; simplify_eq; try done.
  match goal with Hq : (_ =? KC_QUOTE) = true |- _ => apply Z.eqb_eq in Hq; by rewrite Hq end.
Qed.

Lemma default_size : DICTIONARY_SIZE <= 2 ^ 16 - 4.
Proof. by vm_compute. Qed.
Lemma default_max : 1 <= AUTOCORRECT_MAX_LENGTH <= 127.
Proof. done. Qed.

(** The buffer that ends with a typo. *)
Lemma last_word_suffix typo keys :
  typo <> [] -> typo `suffix_of` keys ->
  last_word (reverse typo) <= last_word (reverse keys) <= Z.of_nat (length keys) /\ last keys = last typo.
Proof.
  intros Hne [pre ->]. rewrite reverse_app, <-(length_reverse (pre ++ typo)), reverse_app.
  pose proof (head_reverse typo) as Hh. destruct (reverse typo) as [|key w] eqn:E.
  { apply (f_equal reverse) in E. by rewrite reverse_involutive in E. }
  cbn [app last_word length]. pose proof (letters_before_app w (reverse pre)).
  pose proof (letters_before_range (w ++ reverse pre)). split; [case_match; lia|].
  rewrite last_app, <-Hh. done.
Qed.

Lemma correct_typo_entry typo correction l n text code a k :
  entry typo correction l n text -> pgm_read_byte l = Some code ->
  buffer_ok a -> typo <> [] -> typo `suffix_of` content a ->
  (typo <> the_the ->
    correct_typo a l code k = (true, exec (tap_backspaces (Z.to_nat n);; type_text text) k)) /\
  (last_word (reverse (content a)) < (if bool_decide (last typo = Some KC_SPACE) then n else n + 1) ->
    correct_typo a l code k = (false, k)).
Proof.
  intros [(code' & Hcode & Hn) Htext Hrange _ _ Hletters Hroom Hword] Hc Ha Hne Hsuf.
  rewrite Hc in Hcode. injection Hcode as <-.
  destruct (last_word_suffix typo (content a) Hne Hsuf) as [Hlw Hlast].
  pose proof (length_content default_max a Ha) as Hlen. pose proof (buffer_size a Ha) as Hsize.
  change AUTOCORRECT_MAX_LENGTH with 10 in Hsize.
  assert (content a <> []) as Hca.
  { intros E. rewrite E in Hsuf. by apply suffix_nil_inv in Hsuf. }
  destruct (gather_words_run default_max a n _ text Ha Hca Hrange Htext) as [Hok Hbad].
  unfold space_last in Hok, Hbad. rewrite Hlast in Hok, Hbad. change AUTOCORRECT_MAX_LENGTH with 10 in Hok.
  unfold correct_typo. rewrite Hn. split.
  - intros Hthe. specialize (Hword Hthe). destruct Hok as [[tw cw] ->]; [lia..|].
    cbn [apply_autocorrect default_autocorrect]. rewrite run_ret, run_eval.
    by rewrite (send_string_types text).
  - intros Hlt. by rewrite Hbad.
Qed.

(** Everything up to the correction. *)
Lemma typo_completed typo l keycode r key a k :
  (reverse typo, l) ∈ default_table -> 5 <= Z.of_nat (length typo) <= 10 -> buffer_ok a -> pressed (event r) = true ->
  within QK_AUTOCORRECT_ON QK_AUTOCORRECT_TOGGLE keycode = false ->
  autocorrect_enable (keymap_config k) = true -> counts_as keycode r key a k ->
  typo `suffix_of` content a ++ [key] ->
  let a' := append_key key (typo_buffer_size a) a in
  exists code,
    pgm_read_byte l = Some code /\
    buffer_ok a' /\ typo <> [] /\ typo `suffix_of` content a' /\
    process_autocorrect keycode r (a, k) =
      (let k' := exec (correct_typo a' l code) k in
       if eval (correct_typo a' l code) k then
         if key =? KC_SPACE then
           (Some true, (a' <| typo_buffer := <[0%nat := KC_SPACE]> (typo_buffer a') |> <| typo_buffer_size := 1 |>, k'))
         else (Some false, (a' <| typo_buffer_size := 0 |>, k'))
       else (None, (a', k'))).
Proof.
  intros Hl Hlen Ha Hp Hkc He Hcount Hsuf a'. pose proof (counts_as_key _ _ _ _ _ Hcount) as Hkey.
  assert (buffer_ok a') as Ha' by (by apply (append_ok default_max)).
  assert (typo `suffix_of` content a') as Hsuf'.
  { apply (suffix_append default_max); [done| |done]. change AUTOCORRECT_MAX_LENGTH with 10. lia. }
  assert (Forall (fun key => key <> 0) (content a')) as Hkeys.
  { eapply Forall_impl; [by apply buffer_keys|]. unfold is_key. intros. cbv beta in *. lia. }
  destruct (proj1 (find_typo_is_lookup default_size _ a' default_table_read default_nonempty Hkeys)
    (reverse typo) l Hl) as (code & Hcode & Hfind).
  { by rewrite reverse_involutive. }
  exists code. split_and!; [done..| |done|].
  { intros ->. cbn in Hlen. lia. }
  rewrite (process_searches keycode r key); [|done..|].
  - fold a'. by rewrite Hfind.
  - fold a'. change AUTOCORRECT_MIN_LENGTH with 5.
    pose proof (length_content default_max a' Ha') as Hc. pose proof (buffer_size a' Ha').
    apply suffix_length in Hsuf'. lia.
Qed.

(** C27: With the dictionary that comes with the code: a key that completes one
    of its typos, all but the repeated word [the the], is answered by
    backspaces and letters that turn what the host has of the typo into its
    correction; the buffer starts over, and the key is sent on when it is the
    boundary of a word and kept when it is a letter. *)
Theorem autocorrect_corrects typo correction keycode r key a k :
  (typo, correction) ∈ default_typos -> typo <> the_the ->
  buffer_ok a -> pressed (event r) = true -> within QK_AUTOCORRECT_ON QK_AUTOCORRECT_TOGGLE keycode = false ->
  autocorrect_enable (keymap_config k) = true -> counts_as keycode r key a k ->
  typo `suffix_of` content a ++ [key] ->
  exists n text a',
    (n <= length (typed_text typo))%nat /\
    take (length (typed_text typo) - n) (typed_text typo) ++ text = correction /\
    content a' = (if key =? KC_SPACE then [KC_SPACE] else []) /\
    process_autocorrect keycode r (a, k) =
      (Some (key =? KC_SPACE), (a', exec (tap_backspaces n;; type_text text) k)).
Proof.
  intros Hin Hthe Ha Hp Hkc He Hcount Hsuf.
  destruct (default_entry _ _ Hin) as (Hlen & l & n & text & Hl & Hentry).
  destruct (typo_completed _ _ _ _ _ _ _ Hl Hlen Ha Hp Hkc He Hcount Hsuf)
    as (code & Hcode & Ha' & Hne & Hsuf' & ->).
  destruct (correct_typo_entry _ _ _ _ _ _ _ k Hentry Hcode Ha' Hne Hsuf') as [Hrun _].
  unfold eval, exec at 1 2. rewrite Hrun by done. cbn [fst snd].
  destruct Hentry as [_ _ ? Hkept Hres _ _ _]. exists (Z.to_nat n), text.
  pose proof (buffer_length _ Ha') as Hb. set (a' := append_key key (typo_buffer_size a) a) in *.
  destruct (key =? KC_SPACE) eqn:Ek; eexists; (split; [lia|]; split; [done|]; split; [|reflexivity]); [|done].
  change (take 1 (<[0%nat := KC_SPACE]> (typo_buffer a')) = [KC_SPACE]).
  by destruct (typo_buffer a').
Qed.

(** The repeated word of the dictionary that comes with the code: the
    place the correction is copied to lies one byte before the array it is
    gathered in. *)
Theorem repeated_word_leaves_array keycode r a k :
  buffer_ok a -> pressed (event r) = true -> within QK_AUTOCORRECT_ON QK_AUTOCORRECT_TOGGLE keycode = false ->
  autocorrect_enable (keymap_config k) = true -> counts_as keycode r KC_SPACE a k ->
  the_the `suffix_of` content a ++ [KC_SPACE] ->
  eval (process_autocorrect keycode r) (a, k) = None.
Proof.
  intros Ha Hp Hkc He Hcount Hsuf. destruct the_the_entry as (l & Hl & Hentry).
  destruct (typo_completed _ _ _ _ _ _ _ Hl ltac:(done) Ha Hp Hkc He Hcount Hsuf)
    as (code & Hcode & Ha' & Hne & Hsuf' & E).
  destruct (correct_typo_entry _ _ _ _ _ _ _ k Hentry Hcode Ha' Hne Hsuf') as [_ Hrun].
  unfold eval at 1. rewrite E. unfold eval, exec. rewrite Hrun; [done|].
  destruct Hsuf' as [pre ->]. rewrite reverse_app. done.
Qed.
End typing.

(** ** On the board of [Sample] *)

#[local] Existing Instance sample_config.
#[local] Existing Instance sample_hooks.
#[local] Existing Instance us_tables.

Lemma us_letters c : 97 <= c <= 122 -> is_Some (char_entries c).
Proof.
  intros Hc. assert (all_below 26 (fun i => bool_decide (is_Some (char_entries (97 + i)))) = true) as Hall by (by vm_compute).
  apply (all_below_spec _ _ (c - 97)) in Hall; [|lia]. apply bool_decide_eq_true in Hall.
  by replace (97 + (c - 97)) with c in Hall by lia.
Qed.

Definition autocorrect_keyboard : keyboard :=
  let k := sample_keyboard false in
  k <| keymap_config := (keymap_config k) <| autocorrect_enable := true |> |>.

(** After these keys, a boundary first. *)
Definition after_keys (keys : list Z) : autocorrect := {|
  typo_buffer := keys ++ replicate (10 - length keys) 0;
  typo_buffer_size := Z.of_nat (length keys);
|}.

Lemma after_keys_ok keys :
  (length keys <= 10)%nat -> Forall is_key keys -> buffer_ok (after_keys keys).
Proof.
  intros Hl Hk. split; cbn.
  - rewrite length_app, length_replicate. change AUTOCORRECT_MAX_LENGTH with 10. lia.
  - change AUTOCORRECT_MAX_LENGTH with 10. lia.
  - unfold content. cbn. by rewrite Nat2Z.id, take_app_length.
Qed.

(** [ture] at the start of a word. *)
Lemma autocorrect_corrects_witness :
  let typo := [KC_SPACE; KC_A + 19; KC_A + 20; KC_A + 17; KC_A + 4] in
  let a := after_keys (removelast typo) in
  let r := sample_record 0 0 1000 true in
  exists n text a',
    (n <= length (typed_text typo))%nat /\
    take (length (typed_text typo) - n) (typed_text typo) ++ text = [116; 114; 117; 101] /\
    content a' = [] /\
    process_autocorrect (KC_A + 4) r (a, autocorrect_keyboard) =
      (Some false, (a', exec (tap_backspaces n;; type_text text) autocorrect_keyboard)).
Proof.
  set (typo := [KC_SPACE; KC_A + 19; KC_A + 20; KC_A + 17; KC_A + 4]). cbv zeta.
  assert ((typo, [116; 114; 117; 101]) ∈ default_typos) as Hin.
  { assert (bool_decide ((typo, [116; 114; 117; 101]) ∈ default_typos) = true) as H by (by vm_compute).
    by apply bool_decide_eq_true in H. }
  assert (typo <> the_the) as Hne by (intros H; by apply (f_equal length) in H).
  assert (buffer_ok (after_keys (removelast typo))) as Hok.
  { apply after_keys_ok; [cbn; lia|]. repeat (apply Forall_cons_2; [done|]). apply Forall_nil_2. }
  assert (counts_as (KC_A + 4) (sample_record 0 0 1000 true) (KC_A + 4) (after_keys (removelast typo))
    autocorrect_keyboard) as Hcount.
  { exists (KC_A + 4), 0. split; vm_compute; reflexivity. }
  exact (autocorrect_corrects us_letters typo [116; 114; 117; 101] (KC_A + 4) (sample_record 0 0 1000 true)
    (KC_A + 4) (after_keys (removelast typo)) autocorrect_keyboard
    Hin Hne Hok eq_refl eq_refl eq_refl Hcount (reflexivity (R := suffix) _)).
Defined.

Lemma repeated_word_leaves_array_witness :
  let a := after_keys (removelast the_the) in
  eval (process_autocorrect KC_SPACE (sample_record 0 0 1000 true)) (a, autocorrect_keyboard) = None.
Proof.
  cbv zeta.
  assert (buffer_ok (after_keys (removelast the_the))) as Hok.
  { apply after_keys_ok; [cbn; lia|]. repeat (apply Forall_cons_2; [done|]). apply Forall_nil_2. }
  assert (counts_as KC_SPACE (sample_record 0 0 1000 true) KC_SPACE (after_keys (removelast the_the))
    autocorrect_keyboard) as Hcount.
  { exists KC_SPACE, 0. split; vm_compute; reflexivity. }
  exact (repeated_word_leaves_array us_letters KC_SPACE (sample_record 0 0 1000 true)
    (after_keys (removelast the_the)) autocorrect_keyboard
    Hok eq_refl eq_refl eq_refl Hcount (reflexivity (R := suffix) _)).
Defined.

(** The buffer at the start, looked up in the dictionary. *)
Lemma find_typo_is_lookup_witness : find_typo autocorrect_at_start = Some NoTypo.
Proof.
  refine (proj2 (find_typo_is_lookup default_size default_table autocorrect_at_start
    default_table_read default_nonempty _) _).
  - repeat (apply Forall_cons_2; [done|]). apply Forall_nil_2.
  - intros w l Hin Hs.
    assert (forallb (fun t : reversed_typo => (2 <=? Z.of_nat (length t.1))) default_table = true) as H by (by vm_compute).
    rewrite forallb_forall in H. specialize (H (w, l) (proj1 (list_elem_of_In _ _) Hin)). apply Z.leb_le in H.
    apply suffix_length in Hs. rewrite length_reverse in Hs.
    change (length w <= 1)%nat in Hs. change (2 <= Z.of_nat (length w)) in H. lia.
Defined.
