(* ===== verification/Secure.v ===== *)
(** * Secure (quantum/secure.c, process_keycode/process_secure.c)

    Features are locked until a sequence of keys is pressed after a request.
    [now] is what the 32-bit timer reads; the hook of the keyboard is a
    parameter. *)

From S2P Require Import Prelude.
From S2P Require Import Keycodes.
From S2P Require Import Report.
From S2P Require Import State.
From S2P Require Import ActionUtil.
From S2P Require Import ActionLayer.
From S2P Require Import Feature.

Inductive secure_status_t := SECURE_LOCKED | SECURE_PENDING | SECURE_UNLOCKED.

#[global] Instance secure_status_eq_dec : EqDecision secure_status_t.
Proof. solve_decision. Defined.

(** [offset] is a static variable of [secure_keypress_event]. *)
Record secure := {
  secure_status : secure_status_t;
  unlock_time : Z;
  idle_time : Z;
  offset : Z;
}.

Definition secure_at_start : secure := {|
  secure_status := SECURE_LOCKED; unlock_time := 0; idle_time := 0; offset := 0;
|}.

Class SecureConfig := {
  SECURE_UNLOCK_TIMEOUT : Z;
  SECURE_IDLE_TIMEOUT : Z;
  SECURE_UNLOCK_SEQUENCE : list (Z * Z);
  SECURE_DISABLE_KEYCODES : bool;
  secure_hook_kb : secure_status_t -> stm keyboard bool;
}.

Section secure.
Context `{!Config} `{!Hooks} `{!SecureConfig}.
Abbreviation M := (stm (secure * keyboard)).

Definition secure_hook_quantum (status : secure_status_t) : stm keyboard unit :=
  when (bool_decide (status = SECURE_PENDING)) (clear_keyboard;; layer_clear).
Definition secure_hook (status : secure_status_t) : M unit :=
  core (secure_hook_quantum status);; core (secure_hook_kb status);; mret tt.

Definition secure_get_status : M secure_status_t := own (gets secure_status).
Definition secure_is_locked : M bool := s ← secure_get_status; mret (bool_decide (s = SECURE_LOCKED)).
Definition secure_is_unlocking : M bool := s ← secure_get_status; mret (bool_decide (s = SECURE_PENDING)).

Definition put_status (s : secure_status_t) : M unit := own (modify (fun f => f <| secure_status := s |>)).
Definition put_idle_time (now : Z) : M unit := own (modify (fun f => f <| idle_time := now |>)).
Definition put_offset (n : Z) : M unit := own (modify (fun f => f <| offset := n |>)).

Definition secure_lock : M unit := put_status SECURE_LOCKED;; secure_hook SECURE_LOCKED.
Definition secure_unlock (now : Z) : M unit :=
  put_status SECURE_UNLOCKED;; put_idle_time now;; secure_hook SECURE_UNLOCKED.
Definition secure_request_unlock (now : Z) : M unit :=
  locked ← secure_is_locked;
  when locked (put_status SECURE_PENDING;; own (modify (fun f => f <| unlock_time := now |>)));;
  s ← secure_get_status;
  secure_hook s.
Definition secure_activity_event (now : Z) : M unit :=
  s ← secure_get_status;
  when (bool_decide (s = SECURE_UNLOCKED)) (put_idle_time now).

(** Reading past the sequence is a fault: [offset] is below its length. *)
Definition secure_keypress_event (now row col : Z) : M unit :=
  o ← own (gets offset);
  if bool_decide (SECURE_UNLOCK_SEQUENCE !! Z.to_nat o = Some (row, col)) then
    put_offset (u8 (o + 1));;
    when (u8 (o + 1) =? Z.of_nat (length SECURE_UNLOCK_SEQUENCE)) (put_offset 0;; secure_unlock now)
  else put_offset 0;; secure_lock.

Definition elapsed32 (now t : Z) : Z := u32 (now - t).

Definition secure_task (now : Z) : M unit :=
  when (nz SECURE_UNLOCK_TIMEOUT) (
    s ← own (gets (fun f => f));
    when (bool_decide (secure_status s = SECURE_PENDING)
          && (SECURE_UNLOCK_TIMEOUT <=? elapsed32 now (unlock_time s))) secure_lock);;
  when (nz SECURE_IDLE_TIMEOUT) (
    s ← own (gets (fun f => f));
    when (bool_decide (secure_status s = SECURE_UNLOCKED)
          && (SECURE_IDLE_TIMEOUT <=? elapsed32 now (idle_time s))) secure_lock).

(** ** process_secure.c *)

Definition preprocess_secure (now keycode : Z) (r : keyrecord_t) : M bool :=
  unlocking ← secure_is_unlocking;
  if (unlocking : bool) then
    when (pressed (event r)) (secure_keypress_event now (row (key (event r))) (col (key (event r))));;
    mret false
  else mret true.

Definition process_secure (now keycode : Z) (r : keyrecord_t) : M bool :=
  if SECURE_DISABLE_KEYCODES || pressed (event r) then mret true
  else if keycode =? QK_SECURE_LOCK then secure_lock;; mret false
  else if keycode =? QK_SECURE_UNLOCK then secure_unlock now;; mret false
  else if keycode =? QK_SECURE_TOGGLE then
    locked ← secure_is_locked;
    (if (locked : bool) then secure_unlock now else secure_lock);;
    mret false
  else if keycode =? QK_SECURE_REQUEST then secure_request_unlock now;; mret false
  else mret true.

(** ** What happens to the status

    The status depends on no other part of the keyboard. *)

Inductive secure_event :=
  | Pressed (row col : Z)           (* a key, seen by [preprocess_secure] *)
  | Request
  | Task.

Definition secure_run (now : Z) (e : secure_event) : M unit :=
  match e with
  | Pressed row col =>
      preprocess_secure now 0 {|
        event := {| key := {| col := col; row := row |}; time := 0; type := KEY_EVENT; pressed := true |};
        tap := {| interrupted := false; count := 0 |}; keycode := 0 |};;
      mret tt
  | Request => secure_request_unlock now
  | Task => secure_task now
  end.

Fixpoint secure_trace (es : list (Z * secure_event)) : M unit :=
  match es with
  | [] => skip
  | (now, e) :: es => secure_run now e;; secure_trace es
  end.

(** The variables alone. *)
Definition locked_ (s : secure) : secure := s <| secure_status := SECURE_LOCKED |>.
Definition unlocked_ (now : Z) (s : secure) : secure :=
  s <| secure_status := SECURE_UNLOCKED |> <| idle_time := now |>.

Definition secure_step (now : Z) (e : secure_event) (s : secure) : secure :=
  match e, secure_status s with
  | Pressed row col, SECURE_PENDING =>
      if bool_decide (SECURE_UNLOCK_SEQUENCE !! Z.to_nat (offset s) = Some (row, col)) then
        let o := u8 (offset s + 1) in
        if o =? Z.of_nat (length SECURE_UNLOCK_SEQUENCE) then unlocked_ now (s <| offset := 0 |>)
        else s <| offset := o |>
      else locked_ (s <| offset := 0 |>)
  | Request, SECURE_LOCKED => s <| secure_status := SECURE_PENDING |> <| unlock_time := now |>
  | Task, SECURE_PENDING =>
      if nz SECURE_UNLOCK_TIMEOUT && (SECURE_UNLOCK_TIMEOUT <=? elapsed32 now (unlock_time s))
      then locked_ s else s
  | Task, SECURE_UNLOCKED =>
      if nz SECURE_IDLE_TIMEOUT && (SECURE_IDLE_TIMEOUT <=? elapsed32 now (idle_time s))
      then locked_ s else s
  | _, _ => s
  end.

Lemma secure_lock_status s k : (exec secure_lock (s, k)).1 = locked_ s.
Proof. done. Qed.

Lemma timeout_status (b : bool) (expired : secure -> bool) s k :
  (exec (when b (s ← own (gets (fun f => f)); when (expired s) secure_lock)) (s, k)).1 =
    if b && expired s then locked_ s else s.
Proof. destruct b; [|done]. unfold exec. cbn [when andb]. rewrite run_own. cbn. by destruct (expired s). Qed.

Lemma secure_run_status now e s k : (exec (secure_run now e) (s, k)).1 = secure_step now e s.
Proof.
  destruct e as [x y| |]; unfold secure_run.
  - destruct s as [[] u i o]; [done| |done].
    unfold exec, preprocess_secure, secure_is_unlocking, secure_get_status, secure_step, secure_keypress_event.
    cbn [secure_status offset]. srun. rewrite run_own. cbn [gets fst snd secure_status]. srun.
    rewrite (bool_decide_true (SECURE_PENDING = SECURE_PENDING)) by done. cbn [when event key row col pressed]. srun.
    rewrite run_own. cbn [gets fst snd offset].
    destruct (bool_decide (SECURE_UNLOCK_SEQUENCE !! Z.to_nat o = Some (x, y))); [|done].
    by destruct (u8 (o + 1) =? Z.of_nat (length SECURE_UNLOCK_SEQUENCE)).
  - by destruct s as [[] u i o].
  - unfold secure_task. rewrite exec_bind.
    rewrite (surjective_pairing (exec (when (nz SECURE_UNLOCK_TIMEOUT) _) (s, k))), timeout_status.
    rewrite (timeout_status _ (fun s => bool_decide (secure_status s = SECURE_PENDING)
      && (SECURE_UNLOCK_TIMEOUT <=? elapsed32 now (unlock_time s)))).
    destruct s as [[] u i o]; unfold secure_step; cbn [secure_status unlock_time idle_time];
      rewrite ?(bool_decide_true (SECURE_PENDING = SECURE_PENDING)), ?(bool_decide_true (SECURE_UNLOCKED = SECURE_UNLOCKED)) by done;
      rewrite ?bool_decide_false by done; rewrite ?andb_false_r; cbn [andb]; try done.
    destruct (nz SECURE_UNLOCK_TIMEOUT && (SECURE_UNLOCK_TIMEOUT <=? elapsed32 now u));
      cbn [locked_ secure_status]; by rewrite bool_decide_false, andb_false_r.
Qed.

Lemma secure_trace_status es s k :
  (exec (secure_trace es) (s, k)).1 = foldl (fun s e => secure_step e.1 e.2 s) s es.
Proof.
  revert s k. induction es as [|[now e] es IH]; intros s k; [done|].
  cbn [secure_trace foldl fst snd]. rewrite exec_bind.
  rewrite (surjective_pairing (exec (secure_run now e) (s, k))), IH. by rewrite secure_run_status.
Qed.

(** ** The sequence *)

Abbreviation SEQ := SECURE_UNLOCK_SEQUENCE.

Definition presses (now : Z) (ks : list (Z * Z)) : list (Z * secure_event) :=
  (fun k => (now, Pressed k.1 k.2)) <$> ks.

Definition run (es : list (Z * secure_event)) (s : secure) : secure :=
  foldl (fun s e => secure_step e.1 e.2 s) s es.

Hypothesis sequence_length : 1 <= Z.of_nat (length SEQ) < 256.

Lemma run_cons now e es s : run ((now, e) :: es) s = run es (secure_step now e s).
Proof. done. Qed.
Lemma run_app es es' s : run (es ++ es') s = run es' (run es s).
Proof. apply foldl_app. Qed.

(** Keys of the sequence, from where it stands. *)
Lemma run_matching now ks : forall s,
  secure_status s = SECURE_PENDING -> 0 <= offset s ->
  take (length ks) (drop (Z.to_nat (offset s)) SEQ) = ks ->
  run (presses now ks) s =
    (if offset s + Z.of_nat (length ks) =? Z.of_nat (length SEQ)
     then (if bool_decide (ks = []) then s else unlocked_ now (s <| offset := 0 |>))
     else s <| offset := offset s + Z.of_nat (length ks) |>).
Proof.
  induction ks as [|[row col] ks IH]; intros [st u i o] Hst Ho Hks; cbn in Hst, Ho, Hks; subst st.
  { cbn. case_match; [done|]. f_equal. lia. }
  cbn [length]. cbn [length] in Hks.
  destruct (drop (Z.to_nat o) SEQ) as [|x rest] eqn:Ed; [done|]. cbn in Hks. injection Hks as -> Hks.
  assert (SEQ !! Z.to_nat o = Some (row, col)) as Hl.
  { rewrite <-(Nat.add_0_r (Z.to_nat o)), <-lookup_drop, Ed. done. }
  pose proof (lookup_lt_Some _ _ _ Hl) as Hlt.
  assert (drop (Z.to_nat (o + 1)) SEQ = rest) as Hd.
  { replace (Z.to_nat (o + 1)) with (Z.to_nat o + 1)%nat by lia. by rewrite <-drop_drop, Ed. }
  cbn [presses fmap list_fmap run foldl fst snd]. unfold secure_step at 2. cbn [secure_status offset].
  rewrite bool_decide_true by done. rewrite (wrap_small 8) by lia.
  fold (run (presses now ks)). destruct (Z.eqb_spec (o + 1) (Z.of_nat (length SEQ))) as [E|E].
  - assert (rest = []) as -> by (rewrite <-Hd; apply drop_ge; lia). rewrite take_nil in Hks. subst ks.
    cbn [length]. destruct (Z.eqb_spec (o + Z.of_nat 1) (Z.of_nat (length SEQ))); [|lia]. done.
  - change (run (presses now ks) {| secure_status := SECURE_PENDING; unlock_time := u; idle_time := i; offset := o + 1 |} =
      (if o + Z.of_nat (S (length ks)) =? Z.of_nat (length SEQ)
       then if bool_decide ((row, col) :: ks = []) then {| secure_status := SECURE_PENDING; unlock_time := u; idle_time := i; offset := o |}
            else unlocked_ now {| secure_status := SECURE_PENDING; unlock_time := u; idle_time := i; offset := 0 |}
       else {| secure_status := SECURE_PENDING; unlock_time := u; idle_time := i; offset := o + Z.of_nat (S (length ks)) |})).
    rewrite IH; [|done|cbn; lia|cbn; by rewrite Hd]. cbn [offset].
    replace (o + 1 + Z.of_nat (length ks)) with (o + Z.of_nat (S (length ks))) by lia.
    destruct (Z.eqb_spec (o + Z.of_nat (S (length ks))) (Z.of_nat (length SEQ))); [|done].
    destruct ks; [cbn in *; lia|]. done.
Qed.

Lemma run_locked now ks s : secure_status s = SECURE_LOCKED -> run (presses now ks) s = s.
Proof.
  intros Hs. induction ks as [|x ks IH]; [done|]. cbn [presses fmap list_fmap run foldl fst snd].
  unfold secure_step at 2. rewrite Hs. apply IH.
Qed.

Lemma first_mismatch (ks seq : list (Z * Z)) :
  ~ ks `prefix_of` seq -> (length ks <= length seq)%nat ->
  exists p x q, ks = p ++ x :: q /\ p `prefix_of` seq /\ seq !! length p <> Some x.
Proof.
  revert seq. induction ks as [|k ks IH]; intros seq Hn Hl.
  { destruct Hn. apply prefix_nil. }
  destruct seq as [|k' seq]; [cbn in Hl; lia|]. destruct (decide (k = k')) as [<-|Hne].
  - destruct (IH seq) as (p & x & q & -> & Hp & Hx).
    + intros Hp. apply Hn. by apply prefix_cons.
    + cbn in Hl. lia.
    + exists (k :: p), x, q. split; [done|]. split; [by apply prefix_cons|done].
  - exists [], k, ks. split; [done|]. split; [apply prefix_nil|]. cbn. congruence.
Qed.

(** After a request, with the sequence at its start: the keys pressed
    unlock the keyboard exactly if they are the sequence; a part of it leaves
    the request open, and the first other key locks. *)
Theorem secure_unlocks_on_sequence now t ks s k :
  secure_status s = SECURE_LOCKED -> offset s = 0 ->
  let s' := (exec (secure_trace ((t, Request) :: presses now ks)) (s, k)).1 in
  (length ks <= length SEQ)%nat ->
  secure_status s' =
    (if bool_decide (ks = SEQ) then SECURE_UNLOCKED
     else if bool_decide (ks `prefix_of` SEQ) then SECURE_PENDING else SECURE_LOCKED) /\
  (secure_status s' <> SECURE_PENDING -> offset s' = 0).
Proof.
  intros Hst Ho s' Hlen. subst s'. rewrite secure_trace_status. destruct s as [st u i o]. cbn in Hst, Ho. subst.
  change (foldl _ _ _) with (run (presses now ks)
    {| secure_status := SECURE_PENDING; unlock_time := t; idle_time := i; offset := 0 |}).
  set (s := {| secure_status := SECURE_PENDING; unlock_time := t; idle_time := i; offset := 0 |}).
  destruct (decide (ks `prefix_of` SEQ)) as [Hpre|Hpre].
  - destruct Hpre as [rest Hrest]. rewrite (run_matching now ks s); [|done|done|].
    2: { cbn [offset]. rewrite Hrest. change (Z.to_nat 0) with 0%nat. by rewrite drop_0, take_app_length. }
    cbn [offset]. rewrite Z.add_0_l. destruct (Z.eqb_spec (Z.of_nat (length ks)) (Z.of_nat (length SEQ))) as [E|E].
    + assert (ks = SEQ) as ->.
      { rewrite Hrest, length_app in E. rewrite Hrest. destruct rest; [by rewrite app_nil_r|cbn in E; lia]. }
      rewrite (bool_decide_true (SEQ = SEQ)) by done. rewrite bool_decide_false; [done|].
      intros Enil. rewrite Enil in sequence_length. cbn in sequence_length. lia.
    + rewrite bool_decide_false by (by intros ->). rewrite bool_decide_true by (by exists rest). by split.
  - rewrite bool_decide_false by (intros ->; by destruct Hpre). rewrite bool_decide_false by done.
    destruct (first_mismatch ks SEQ Hpre Hlen) as (p & x & q & -> & Hp & Hx).
    pose proof (prefix_length _ _ Hp) as Hlp. destruct Hp as [rest Hrest].
    unfold presses. rewrite fmap_app, fmap_cons, run_app. fold (presses now p). rewrite (run_matching now p s); [|done|done|].
    2: { cbn [offset]. rewrite Hrest. change (Z.to_nat 0) with 0%nat. by rewrite drop_0, take_app_length. }
    cbn [offset]. rewrite Z.add_0_l.
    assert (length p < length SEQ)%nat as Hlt by (rewrite length_app in Hlen; cbn in Hlen; lia).
    destruct (Z.eqb_spec (Z.of_nat (length p)) (Z.of_nat (length SEQ))); [lia|].
    rewrite run_cons. fold (presses now q).
    assert (secure_step now (Pressed x.1 x.2) (s <| offset := Z.of_nat (length p) |>) =
      {| secure_status := SECURE_LOCKED; unlock_time := t; idle_time := i; offset := 0 |}) as ->.
    { change (s <| offset := _ |>) with
        {| secure_status := SECURE_PENDING; unlock_time := t; idle_time := i; offset := Z.of_nat (length p) |}.
      unfold secure_step. cbn [secure_status offset]. rewrite Nat2Z.id.
      rewrite bool_decide_false by (by destruct x). done. }
    by rewrite run_locked.
Qed.

(** The keys already pressed are not forgotten when a request times out:
    after another request the rest of the sequence unlocks. *)
Theorem secure_sequence_in_two_requests p q t1 t2 t3 t4 t5 s k :
  SEQ = p ++ q -> p <> [] -> q <> [] ->
  secure_status s = SECURE_LOCKED -> offset s = 0 ->
  0 < SECURE_UNLOCK_TIMEOUT <= elapsed32 t3 t1 ->
  let s1 := (exec (secure_trace ((t1, Request) :: presses t2 p ++ [(t3, Task)])) (s, k)).1 in
  let s2 := (exec (secure_trace ((t4, Request) :: presses t5 q)) (s1, k)).1 in
  secure_status s1 = SECURE_LOCKED /\ secure_status s2 = SECURE_UNLOCKED.
Proof.
  intros Hseq Hp Hq Hst Ho Ht s1 s2. subst s1 s2. rewrite !secure_trace_status.
  destruct s as [st u i o]. cbn in Hst, Ho. subst.
  assert (length p + length q = length SEQ)%nat as Hlen by (rewrite Hseq, length_app; lia).
  assert (length q <> 0)%nat as Hq0 by (by destruct q).
  change (foldl _ _ ((t1, Request) :: _)) with (run (presses t2 p ++ [(t3, Task)])
    {| secure_status := SECURE_PENDING; unlock_time := t1; idle_time := i; offset := 0 |}).
  rewrite run_app, (run_matching t2 p); [|done|done|].
  2: { cbn [offset]. rewrite Hseq. change (Z.to_nat 0) with 0%nat. by rewrite drop_0, take_app_length. }
  cbn [offset]. rewrite Z.add_0_l.
  destruct (Z.eqb_spec (Z.of_nat (length p)) (Z.of_nat (length SEQ))); [lia|].
  rewrite run_cons. cbn [run foldl].
  assert (secure_step t3 Task {| secure_status := SECURE_PENDING; unlock_time := t1; idle_time := i; offset := Z.of_nat (length p) |} =
    {| secure_status := SECURE_LOCKED; unlock_time := t1; idle_time := i; offset := Z.of_nat (length p) |}) as Estep.
  { unfold secure_step. cbn [secure_status unlock_time].
    assert (nz SECURE_UNLOCK_TIMEOUT = true) as -> by (apply nz_true; lia).
    by destruct (Z.leb_spec SECURE_UNLOCK_TIMEOUT (elapsed32 t3 t1)); [|lia]. }
  change (_ <| offset := _ |>) with {| secure_status := SECURE_PENDING; unlock_time := t1; idle_time := i; offset := Z.of_nat (length p) |}.
  rewrite Estep. clear Estep.
  change (foldl _ _ (presses t5 q)) with (run (presses t5 q)
    {| secure_status := SECURE_PENDING; unlock_time := t4; idle_time := i; offset := Z.of_nat (length p) |}).
  split; [done|]. rewrite (run_matching t5 q); [|done|cbn; lia|].
  2: { cbn [offset]. rewrite Nat2Z.id, Hseq, drop_app_length. apply firstn_all. }
  cbn [offset]. destruct (Z.eqb_spec (Z.of_nat (length p) + Z.of_nat (length q)) (Z.of_nat (length SEQ))); [|lia].
  by rewrite bool_decide_false.
Qed.

(** Nothing that is typed puts the idle timeout off: the function that would is
    called from nowhere. *)
Theorem secure_locks_although_typing es now s k :
  secure_status s = SECURE_UNLOCKED -> Forall (fun e => e.2 <> Request) es ->
  0 < SECURE_IDLE_TIMEOUT <= elapsed32 now (idle_time s) ->
  secure_status (exec (secure_trace (es ++ [(now, Task)])) (s, k)).1 = SECURE_LOCKED.
Proof.
  intros Hst Hes Ht. rewrite secure_trace_status, foldl_app. cbn [foldl fst snd].
  assert (secure_status (run es s) = SECURE_LOCKED \/ run es s = s) as Hrun.
  { clear Ht. induction es as [|[t e] es IH] using rev_ind; [by right|].
    apply Forall_app in Hes as [Hes [He _]%Forall_cons]. cbn in He. rewrite run_app, run_cons. cbn [run foldl].
    destruct (IH Hes) as [Hl| ->].
    - left. unfold secure_step. rewrite Hl. by destruct e.
    - unfold secure_step. rewrite Hst. destruct e; [by right|done|].
      case_match; [by left|by right]. }
  change (foldl _ s es) with (run es s). destruct Hrun as [Hl| ->].
  - unfold secure_step. by rewrite Hl.
  - unfold secure_step. rewrite Hst.
    assert (nz SECURE_IDLE_TIMEOUT = true) as -> by (apply nz_true; lia).
    by destruct (Z.leb_spec SECURE_IDLE_TIMEOUT (elapsed32 now (idle_time s))); [|lia].
Qed.
End secure.
