(* ===== verification/KeyOverride.v ===== *)
(** * Key overrides (quantum/process_keycode/process_key_override.c)

    A modifier and a key together are replaced by another key: the override
    suppresses modifiers, adds those of its replacement, and registers the
    replacement in place of the trigger. *)

From S2P Require Import Prelude.
From S2P Require Import Keycodes.
From S2P Require Import Report.
From S2P Require Import State.
From S2P Require Import Host.
From S2P Require Import ActionUtil.
From S2P Require Import Keymap.
From S2P Require Import ActionLayer.
From S2P Require Import Oneshot.
From S2P Require Import Action.
From S2P Require Import ActionUtilSpec.
From S2P Require Import TypingSpec.
From S2P Require Import Invariant.
From S2P Require Import Feature.
From S2P Require Import Quantum.
From S2P Require Import Secure.

(** ** Overrides *)

Definition ko_option_activation_trigger_down : Z := 1.
Definition ko_option_activation_required_mod_down : Z := 2.
Definition ko_option_activation_negative_mod_up : Z := 4.
Definition ko_options_all_activations : Z := 7.
Definition ko_option_one_mod : Z := 8.
Definition ko_option_no_reregister_trigger : Z := 16.
Definition ko_option_no_unregister_on_other_key_down : Z := 32.

(** The context of [custom_action] is part of the function here. *)
Record key_override_t := {
  trigger : Z;
  trigger_mods : Z;
  ko_layers : Z;
  negative_mod_mask : Z;
  ko_suppressed_mods : Z;
  replacement : Z;
  ko_options : Z;
  custom_action : option (bool -> stm keyboard bool);
  ko_enabled : option Z;                 (* what the pointer points to *)
}.

(** An override is its position in [key_overrides]. *)
Record key_override := {
  active_override : option nat;
  active_override_trigger_is_down : bool;
  last_key_down : Z;
  last_key_down_time : Z;
  defer_reference_time : Z;
  defer_delay : Z;
  deferred_register : Z;
  overrides_enabled : bool;
}.

Definition key_override_at_start : key_override := {|
  active_override := None; active_override_trigger_is_down := false; last_key_down := 0; last_key_down_time := 0;
  defer_reference_time := 0; defer_delay := 0; deferred_register := 0; overrides_enabled := true;
|}.

Class KeyOverrideConfig := {
  key_overrides : list key_override_t;   (* up to the null *)
  KEY_OVERRIDE_REPEAT_DELAY : Z;
  KEY_OVERRIDE_INCLUDE_WEAK_MODS : bool;
}.

Definition QK_RCTL : Z := 0x1100.
Definition QK_RALT : Z := 0x1400.
Definition QK_RGUI : Z := 0x1800.
Definition SAFE_RANGE : Z := 0x7E40.      (* QK_USER *)

Definition all_mods : Z :=
  Z.lor (Z.lor (Z.lor QK_LCTL QK_LSFT) (Z.lor QK_LALT QK_LGUI)) (Z.lor (Z.lor QK_RCTL QK_RSFT) (Z.lor QK_RALT QK_RGUI)).
Definition clear_mods_from (keycode : Z) : Z :=
  if within QK_MODS QK_MODS_MAX keycode then clear_bits keycode all_mods else keycode.

Definition one_side (m : Z) : Z := Z.lor (Z.land m 0xF) (Z.shiftr m 4).
Definition key_override_matches_active_modifiers (o : key_override_t) (m : Z) : bool :=
  if nz (Z.land (negative_mod_mask o) m) then false
  else if trigger_mods o =? 0 then true
  else if nz (Z.land (ko_options o) ko_option_one_mod) then nz (Z.land (trigger_mods o) m)
  else one_side (Z.land (trigger_mods o) m) =? one_side (trigger_mods o).

Definition check_activation_event (o : key_override_t) (key_down is_mod : bool) : bool :=
  let options := if Z.land (ko_options o) ko_options_all_activations =? 0 then ko_options_all_activations else ko_options o in
  if is_mod then
    if key_down then nz (Z.land options ko_option_activation_required_mod_down)
    else nz (Z.land options ko_option_activation_negative_mod_up)
  else if key_down then nz (Z.land options ko_option_activation_trigger_down) else false.

Section key_override.
Context {CF : Config} {HK : Hooks} {KC : KeyOverrideConfig}.
Abbreviation M := (stm (key_override * keyboard)).

Definition get_override (i : nat) : option key_override_t := key_overrides !! i.

Definition schedule_deferred_register (keycode : Z) : M unit :=
  t ← core (gets now);
  s ← own (gets (fun s => s));
  (if elapsed32 t (last_key_down_time s) <? KEY_OVERRIDE_REPEAT_DELAY then
     own (modify (fun s => s <| defer_reference_time := last_key_down_time s |> <| defer_delay := KEY_OVERRIDE_REPEAT_DELAY |>))
   else own (modify (fun s => s <| defer_reference_time := u32 t |> <| defer_delay := 50 |>)));;
  own (modify (fun s => s <| deferred_register := keycode |>)).

(** [custom_action], and whether the replacement is still to be handled. *)
Definition run_custom (o : key_override_t) (activated wanted : bool) : M bool :=
  match custom_action o with
  | Some f => b ← core (f activated); mret (wanted && b)
  | None => mret wanted
  end.

(** [mod_free_replacement] is a byte here. *)
Definition unregister_replacement (o : key_override_t) : M unit :=
  let mod_free_replacement := u8 (clear_mods_from (replacement o)) in
  unregister ← run_custom o false (negb (mod_free_replacement =? KC_NO) && (mod_free_replacement <? SAFE_RANGE));
  when unregister
    (if IS_BASIC_KEYCODE mod_free_replacement then core (del_key mod_free_replacement)
     else core send_keyboard_report;; core (unregister_code mod_free_replacement)).

Definition clear_active_override (allow_reregister : bool) : M unit :=
  s ← own (gets (fun s => s));
  match active_override s with
  | None => skip
  | Some i =>
      match get_override i with
      | None => skip
      | Some o =>
          own (modify (fun s => s <| deferred_register := 0 |>));;
          core clear_suppressed_override_mods;;
          core clear_weak_override_mods;;
          unregister_replacement o;;
          when (allow_reregister && negb (nz (Z.land (ko_options o) ko_option_no_reregister_trigger)) &&
                active_override_trigger_is_down s && negb (trigger o =? KC_NO) && (trigger o <? SAFE_RANGE))
            (schedule_deferred_register (trigger o));;
          core send_keyboard_report;;
          own (modify (fun s => s <| active_override := None |> <| active_override_trigger_is_down := false |>))
      end
  end.

Definition key_override_on : M unit := own (modify (fun s => s <| overrides_enabled := true |>)).
Definition key_override_off : M unit :=
  own (modify (fun s => s <| overrides_enabled := false |>));; clear_active_override false.
Definition key_override_is_enabled : M bool := own (gets overrides_enabled).
Definition key_override_toggle : M unit :=
  on ← key_override_is_enabled; if (on : bool) then key_override_off else key_override_on.

(** The tests of the loop of [try_activating_override], in their order. *)
Definition may_activate (s : key_override) (keycode layer : Z) (key_down is_mod : bool) (active_mods : Z)
    (i : nat) (o : key_override_t) : bool :=
  negb ((active_mods =? 0) && negb (trigger_mods o =? 0))
  && nz (Z.land (ko_layers o) (bit layer))
  && check_activation_event o key_down is_mod
  && negb ((trigger o =? keycode) && negb key_down)
  && negb (bool_decide (active_override s = Some i))
  && match ko_enabled o with Some b => nz (Z.land b 1) | None => true end
  && key_override_matches_active_modifiers o active_mods
  && ((trigger o =? KC_NO) || (trigger o =? keycode) && key_down || (last_key_down s =? trigger o)).

Definition register_replacement (o : key_override_t) (is_mod : bool) : M unit :=
  let mod_free_replacement := clear_mods_from (replacement o) in
  register ← run_custom o true (negb (mod_free_replacement =? KC_NO) && (mod_free_replacement <? SAFE_RANGE));
  if (register : bool) then
    core (set_weak_override_mods (extract_mod_bits (replacement o)));;
    if is_mod then schedule_deferred_register mod_free_replacement;; core send_keyboard_report
    else if IS_BASIC_KEYCODE mod_free_replacement then core (add_key mod_free_replacement)
    else
      core send_keyboard_report;;
      core (emit (WaitMs 10));;
      core (register_code (u8 mod_free_replacement))
  else core send_keyboard_report.

Definition activate (keycode : Z) (key_down is_mod : bool) (active_mods : Z) (i : nat) (o : key_override_t) : M bool :=
  let trigger_down := (trigger o =? keycode) && key_down in
  clear_active_override false;;
  core (neutralize_flashing_modifiers active_mods);;
  own (modify (fun s => s <| active_override := Some i |> <| active_override_trigger_is_down := true |>));;
  core (set_suppressed_override_mods (ko_suppressed_mods o));;
  when (negb trigger_down && negb (trigger o =? KC_NO))
    (if IS_BASIC_KEYCODE (trigger o) then core (del_key (trigger o)) else core (unregister_code (u8 (trigger o))));;
  register_replacement o is_mod;;
  mret (negb trigger_down).

(** Whether the key action should be sent, and whether an override was
    activated. *)
Fixpoint try_overrides (os : list key_override_t) (i : nat) (keycode layer : Z) (key_down is_mod : bool) (active_mods : Z) :
  M (bool * bool) :=
  match os with
  | [] => mret (true, false)
  | o :: os =>
      s ← own (gets (fun s => s));
      if may_activate s keycode layer key_down is_mod active_mods i o then
        send ← activate keycode key_down is_mod active_mods i o; mret (send, true)
      else try_overrides os (S i) keycode layer key_down is_mod active_mods
  end.
Definition try_activating_override keycode layer key_down is_mod active_mods : M (bool * bool) :=
  try_overrides key_overrides 0 keycode layer key_down is_mod active_mods.

Definition key_override_task : M unit :=
  s ← own (gets (fun s => s));
  t ← core (gets now);
  if deferred_register s =? 0 then skip
  else when (defer_delay s <=? elapsed32 t (defer_reference_time s)) (
    core (register_code16 (deferred_register s));;
    own (modify (fun s => s <| deferred_register := 0 |> <| defer_reference_time := 0 |> <| defer_delay := 0 |>))).

(** The modifiers that count, with the event that is about to happen. *)
Definition effective_mods (keycode : Z) (key_down is_mod : bool) (k : keyboard) : Z :=
  let m := mods k in
  let e := real_mods m in
  let e := if KEY_OVERRIDE_INCLUDE_WEAK_MODS then Z.lor e (weak_mods m) else e in
  let e := Z.lor e (Z.lor (oneshot_locked_mods m) (oneshot_mods m)) in
  if is_mod then if key_down then Z.lor e (MOD_BIT keycode) else clear_bits e (MOD_BIT keycode) else e.

Definition note_key (keycode : Z) (key_down : bool) : M unit :=
  t ← core (gets now);
  when key_down (own (modify (fun s => s <| last_key_down := keycode |> <| last_key_down_time := u32 t |> <| deferred_register := 0 |>)));;
  s ← own (gets (fun s => s));
  when (negb key_down && (keycode =? last_key_down s))
    (own (modify (fun s => s <| last_key_down := 0 |> <| last_key_down_time := 0 |> <| deferred_register := 0 |>))).

(** What ends an override. *)
Definition deactivate_override (keycode : Z) (key_down is_mod : bool) (effective : Z) : M unit :=
  s ← own (gets (fun s => s));
  match active_override s ≫= get_override with
  | None => skip
  | Some o =>
      if is_mod then
        when (negb (key_override_matches_active_modifiers o effective)) (clear_active_override true)
      else
        let lifted := (keycode =? trigger o) && negb key_down in
        let other := key_down && negb (nz (Z.land (ko_options o) ko_option_no_unregister_on_other_key_down)) in
        when lifted (own (modify (fun s => s <| active_override_trigger_is_down := false |>)));;
        when (lifted || other) (clear_active_override false)
  end.

Definition process_key_override (keycode : Z) (r : keyrecord_t) : M bool :=
  let key_down := pressed (event r) in
  let is_mod := IS_MODIFIER_KEYCODE keycode in
  if key_down && (keycode =? QK_KEY_OVERRIDE_TOGGLE) then key_override_toggle;; mret false
  else if key_down && (keycode =? QK_KEY_OVERRIDE_ON) then key_override_on;; mret false
  else if key_down && (keycode =? QK_KEY_OVERRIDE_OFF) then key_override_off;; mret false
  else
    on ← key_override_is_enabled;
    if negb on then mret true else
    effective ← core (gets (effective_mods keycode key_down is_mod));
    when (negb is_mod) (note_key keycode key_down);;
    result ← (if is_mod || key_down then
      layer ← core (read_source_layers_cache (key (event r)));
      result ← try_activating_override keycode layer key_down is_mod effective;
      when (negb result.1) (core send_keyboard_report);;
      mret result
    else mret (true, false));
    when (negb result.2) (deactivate_override keycode key_down is_mod effective);;
    mret result.1.
End key_override.

(** ** The trigger is replaced *)

Section replaced.
Context {CF : Config} {HK : Hooks} {KC : KeyOverrideConfig}.

Definition with_override (suppressed added : Z) (k : keyboard) : keyboard :=
  k <| mods := (mods k) <| suppressed_mods := suppressed |> <| weak_override_mods := added |> |>.

(** What the host is shown of the modifiers [m] under an override. *)
Definition overridden (o : key_override_t) (m : Z) : Z :=
  Z.lor (clear_bits m (ko_suppressed_mods o)) (extract_mod_bits (replacement o)).

(** A replacement that is a key with modifiers, without an action of its own. *)
Record simple_override (o : key_override_t) : Prop := {
  so_custom : custom_action o = None;
  so_replacement : plain (clear_mods_from (replacement o));
  so_trigger : IS_MODIFIER_KEYCODE (trigger o) = false /\ trigger o <> QK_KEY_OVERRIDE_TOGGLE /\
    trigger o <> QK_KEY_OVERRIDE_ON /\ trigger o <> QK_KEY_OVERRIDE_OFF;
}.

(** The state in which the overrides are tried when [keycode] goes down. *)
Definition noted (keycode : Z) (s : key_override) (k : keyboard) : key_override :=
  s <| last_key_down := keycode |> <| last_key_down_time := u32 (now k) |> <| deferred_register := 0 |>.

Lemma try_first os n i o s k keycode layer down is_mod m :
  os !! i = Some o -> may_activate s keycode layer down is_mod m (n + i) o = true ->
  (forall j o', (j < i)%nat -> os !! j = Some o' -> may_activate s keycode layer down is_mod m (n + j) o' = false) ->
  try_overrides os n keycode layer down is_mod m (s, k) =
    (send ← activate keycode down is_mod m (n + i) o; mret (send, true)) (s, k).
Proof.
  revert n i. induction os as [|o0 os IH]; intros n i Hi Hmay Hno; [done|]. cbn [try_overrides].
  rewrite run_own. cbn [gets fst snd]. destruct i as [|i].
  - cbn in Hi. simplify_eq. rewrite Nat.add_0_r in Hmay |- *. by rewrite Hmay.
  - pose proof (Hno 0%nat o0 ltac:(lia) eq_refl) as H0. rewrite Nat.add_0_r in H0. rewrite H0.
    replace (n + S i)%nat with (S n + i)%nat in * by lia.
    apply (IH (S n) i); [done|done|]. intros j o' Hj Ho'.
    replace (S n + j)%nat with (n + S j)%nat by lia. apply Hno; [lia|done].
Qed.

Lemma plain_replacement o : plain (clear_mods_from (replacement o)) ->
  u8 (clear_mods_from (replacement o)) = clear_mods_from (replacement o) /\
  negb (clear_mods_from (replacement o) =? KC_NO) && (clear_mods_from (replacement o) <? SAFE_RANGE) = true /\
  IS_BASIC_KEYCODE (clear_mods_from (replacement o)) = true.
Proof.
  intros Hp. pose proof (plain_range _ Hp) as Hr. split; [apply wrap_small; lia|]. split; [|apply Hp].
  unfold KC_NO, SAFE_RANGE. destruct (Z.eqb_spec (clear_mods_from (replacement o)) 0); [lia|]. cbn [negb andb].
  apply Z.ltb_lt. lia.
Qed.

Lemma activate_by_trigger i o s k m :
  active_override s = None -> simple_override o -> DUMMY_MOD_NEUTRALIZER_KEYCODE = None ->
  activate (trigger o) true false m i o (s, k) =
    (false, (s <| active_override := Some i |> <| active_override_trigger_is_down := true |>,
             with_key (clear_mods_from (replacement o))
               (with_override (ko_suppressed_mods o) (extract_mod_bits (replacement o)) k))).
Proof.
  intros Ha Hso Hd. destruct (plain_replacement o (so_replacement _ Hso)) as (H8 & Hw & Hb).
  unfold activate. rewrite Z.eqb_refl. cbn [andb negb].
  assert (clear_active_override false (s, k) = (tt, (s, k))) as E.
  { unfold clear_active_override. rewrite run_own. cbn [gets fst snd]. by rewrite Ha. }
  srun E. unfold neutralize_flashing_modifiers. rewrite Hd. rewrite run_core. cbn [skip mret stm_ret fst snd].
  rewrite run_own. cbn [modify fst snd]. rewrite run_core. cbn [fst snd when]. srun.
  unfold register_replacement, run_custom. rewrite (so_custom _ Hso). srun. rewrite Hw. srun.
  rewrite run_core. cbn [fst snd]. rewrite Hb. srun. rewrite run_core. cbn [fst snd]. done.
Qed.

Lemma trigger_down i o r s k :
  key_overrides !! i = Some o -> simple_override o -> DUMMY_MOD_NEUTRALIZER_KEYCODE = None ->
  overrides_enabled s = true -> active_override s = None -> pressed (event r) = true ->
  let layer := eval (read_source_layers_cache (key (event r))) k in
  let m := effective_mods (trigger o) true false k in
  may_activate (noted (trigger o) s k) (trigger o) layer true false m i o = true ->
  (forall j o', (j < i)%nat -> key_overrides !! j = Some o' ->
     may_activate (noted (trigger o) s k) (trigger o) layer true false m j o' = false) ->
  process_key_override (trigger o) r (s, k) =
    (false, ((noted (trigger o) s k) <| active_override := Some i |> <| active_override_trigger_is_down := true |>,
             exec send_keyboard_report (with_key (clear_mods_from (replacement o))
               (with_override (ko_suppressed_mods o) (extract_mod_bits (replacement o)) k)))).
Proof.
  intros Hi Hso Hd Hon Ha Hp layer m Hmay Hno. unfold process_key_override. rewrite Hp.
  destruct (so_trigger _ Hso) as (Hmod & Ht1 & Ht2 & Ht3).
  rewrite (proj2 (Z.eqb_neq _ _) Ht1), (proj2 (Z.eqb_neq _ _) Ht2), (proj2 (Z.eqb_neq _ _) Ht3). cbn [andb].
  unfold key_override_is_enabled. rewrite run_own. cbn [gets fst snd]. rewrite Hon. cbn [negb]. rewrite Hmod.
  rewrite run_core. cbn [gets fst snd negb when]. fold m. unfold note_key. srun. rewrite run_core. cbn [gets fst snd when].
  srun. rewrite run_own. cbn [modify fst snd]. fold (noted (trigger o) s k). srun. rewrite run_own. cbn [gets fst snd negb andb when orb].
  assert (core (read_source_layers_cache (key (event r))) (noted (trigger o) s k, k) = (layer, (noted (trigger o) s k, k))) as El by done.
  srun El.
  unfold try_activating_override.
  assert (active_override (noted (trigger o) s k) = None) as Ha' by exact Ha.
  pose proof (try_first key_overrides 0 i o (noted (trigger o) s k) k (trigger o) layer true false m Hi Hmay Hno) as E.
  cbn [plus] in E. rewrite (run_bind _ _ _ _ _ (activate_by_trigger i o _ k m Ha' Hso Hd)) in E. srun E.
  cbn [fst snd negb when]. rewrite (run_bind _ _ _ _ _ (core_unit _ _ _)). srun. done.
Qed.

Lemma trigger_up i o r s k :
  key_overrides !! i = Some o -> simple_override o ->
  overrides_enabled s = true -> active_override s = Some i -> pressed (event r) = false ->
  exists s', active_override s' = None /\
    process_key_override (trigger o) r (s, k) =
      (true, (s', exec send_keyboard_report (without_key (clear_mods_from (replacement o)) (with_override 0 0 k)))).
Proof.
  intros Hi Hso Hon Ha Hp. destruct (plain_replacement o (so_replacement _ Hso)) as (H8 & Hw & Hb).
  unfold process_key_override. rewrite Hp. destruct (so_trigger _ Hso) as (Hmod & _). cbn [andb].
  unfold key_override_is_enabled. rewrite run_own. cbn [gets fst snd]. rewrite Hon. cbn [negb]. rewrite Hmod.
  rewrite run_core. cbn [gets fst snd negb]. cbn [when]. unfold note_key. srun. rewrite run_core. cbn [gets fst snd]. srun.
  change (when false ?m) with (@skip (key_override * keyboard)). srun.
  rewrite run_own. cbn [gets fst snd negb andb]. srun.
  set (s1 := if trigger o =? last_key_down s then s <| last_key_down := 0 |> <| last_key_down_time := 0 |> <| deferred_register := 0 |> else s).
  assert (when (trigger o =? last_key_down s)
    (own (modify (fun s => s <| last_key_down := 0 |> <| last_key_down_time := 0 |> <| deferred_register := 0 |>))) (s, k) = (tt, (s1, k))) as E1.
  { unfold s1. destruct (trigger o =? last_key_down s); reflexivity. }
  assert (active_override s1 = Some i) as Ha1 by (unfold s1; destruct (trigger o =? last_key_down s); exact Ha).
  srun E1. cbn [orb fst snd negb when]. srun. cbn [fst snd negb when]. unfold deactivate_override. srun. rewrite run_own. cbn [gets fst snd].
  rewrite Ha1. cbn [mbind option_bind]. unfold get_override. rewrite Hi. rewrite Z.eqb_refl. cbn [andb negb orb when].
  srun. rewrite run_own. cbn [modify fst snd]. unfold clear_active_override. srun. rewrite run_own. cbn [gets fst snd].
  change (active_override (s1 <| active_override_trigger_is_down := false |>)) with (active_override s1). rewrite Ha1.
  unfold get_override. rewrite Hi. srun. rewrite run_own. cbn [modify fst snd]. srun. rewrite run_core. cbn [fst snd].
  srun. rewrite run_core. cbn [fst snd].
  unfold unregister_replacement, run_custom. rewrite (so_custom _ Hso), H8, Hw. srun. cbn [when]. rewrite Hb.
  srun. rewrite run_core. cbn [fst snd]. cbn [andb when]. srun. rewrite (run_bind _ _ _ _ _ (core_unit _ _ _)).
  rewrite run_own. cbn [modify fst snd]. eexists. split; [|done]. done.
Qed.

(** The modifiers that are down, real, weak and one-shot. *)
Definition down_mods (k : keyboard) : Z :=
  Z.lor (Z.lor (real_mods (mods k)) (weak_mods (mods k))) (live_oneshot_mods k).

Lemma report_mods_override a b k : KEY_OVERRIDE_ENABLE = true ->
  report_mods (with_override a b k) = Z.lor (clear_bits (down_mods k) a) b.
Proof. intros He. unfold report_mods. rewrite He. reflexivity. Qed.

Lemma with_override_frame a b k :
  (synced k -> synced (with_override a b k)) /\ rep (with_override a b k) = rep k /\
  nkro_active (with_override a b k) = nkro_active k.
Proof. split_and!; try done.  Qed.

Hypothesis unbuffered : RING_BUFFERED_6KRO_REPORT_ENABLE = false.
Hypothesis enabled_in_report : KEY_OVERRIDE_ENABLE = true.
Hypothesis no_dummy : DUMMY_MOD_NEUTRALIZER_KEYCODE = None.

(** C35: The first override of the list that the trigger activates: its press does
    not get any further; the host is shown the replacement, with the modifiers
    that are down less those suppressed and plus those of the replacement.  At
    the release of the trigger, whatever happened in between, the replacement
    goes up and the modifiers that are down are shown again. *)
Theorem override_replaces_trigger i o r r' s k :
  key_overrides !! i = Some o -> simple_override o ->
  overrides_enabled s = true -> active_override s = None -> pressed (event r) = true -> pressed (event r') = false ->
  let layer := eval (read_source_layers_cache (key (event r))) k in
  let m := effective_mods (trigger o) true false k in
  may_activate (noted (trigger o) s k) (trigger o) layer true false m i o = true ->
  (forall j o', (j < i)%nat -> key_overrides !! j = Some o' ->
     may_activate (noted (trigger o) s k) (trigger o) layer true false m j o' = false) ->
  let code := clear_mods_from (replacement o) in
  synced k -> reports_ok (rep k) -> has_room (nkro_active k) (rep k) code ->
  (exists s1 k1, process_key_override (trigger o) r (s, k) = (false, (s1, k1)) /\
     active_override s1 = Some i /\ overrides_enabled s1 = true /\ synced k1 /\ reports_ok (rep k1) /\
     shown k1 = (overridden o (down_mods k), report_keys k1) /\
     forall key, reportable (nkro_active k) key -> key_pressed key k1 = bool_decide (key = code) || key_pressed key k) /\
  (forall s' k', active_override s' = Some i -> overrides_enabled s' = true -> synced k' -> reports_ok (rep k') ->
     exists s2 k2, process_key_override (trigger o) r' (s', k') = (true, (s2, k2)) /\
       active_override s2 = None /\ synced k2 /\ shown k2 = (down_mods k', report_keys k2) /\
       forall key, reportable (nkro_active k') key ->
         key_pressed key k2 = negb (bool_decide (key = code)) && key_pressed key k').
Proof.
  intros Hi Hso Hon Ha Hp Hp' layer m Hmay Hno code Hs Hr Hroom.
  pose proof (so_replacement _ Hso) as Hplain. fold code in Hplain. split.
  - eexists _, _. split; [by apply trigger_down|]. fold code.
    set (ko := with_override (ko_suppressed_mods o) (extract_mod_bits (replacement o)) k).
    destruct (with_override_frame (ko_suppressed_mods o) (extract_mod_bits (replacement o)) k) as (Hso' & Hrep & Hn).
    destruct (with_key_frame code ko) as (Hs1 & Hr1 & Hn1 & Hm1 & Hnow1 & _).
    pose proof (send_report_sent _ (Hs1 (Hso' Hs))) as Hsent.
    split_and!; [done|done|apply Hsent|apply Hsent, Hr1; exact Hr| |].
    + rewrite (sent_shown _ _ Hsent), (sent_keys _ _ Hsent). f_equal.
      rewrite (report_mods_mods ko) by done. by apply report_mods_override.
    + intros key Hkey. rewrite (key_pressed_sent _ _ _ Hsent), key_pressed_with; try done.
      by apply Hr.
  - intros s' k' Ha' Hon' Hs' Hr'. destruct (trigger_up i o r' s' k' Hi Hso Hon' Ha' Hp') as (s2 & Ha2 & E).
    eexists s2, _. split; [exact E|]. fold code. set (ko := with_override 0 0 k').
    destruct (with_override_frame 0 0 k') as (Hso' & Hrep & Hn).
    destruct (without_key_frame code ko) as (Hs1 & Hr1 & Hn1 & Hm1 & Hnow1 & _).
    pose proof (send_report_sent _ (Hs1 (Hso' Hs'))) as Hsent.
    split_and!; [done|apply Hsent| |].
    + rewrite (sent_shown _ _ Hsent), (sent_keys _ _ Hsent). f_equal.
      rewrite (report_mods_mods ko) by done. unfold ko. rewrite report_mods_override by done.
      unfold clear_bits. by rewrite Z.lor_0_r, Z.land_m1_r.
    + intros key Hkey. rewrite (key_pressed_sent _ _ _ Hsent), key_pressed_without; try done. by apply Hr'.
Qed.
End replaced.

(** ** A replacement of more than a byte

    Custom keycodes are not to be registered or unregistered, but at the end
    of an override the replacement has been cut to a byte before the test. *)

Section wide.
Context {CF : Config} {HK : Hooks} {KC : KeyOverrideConfig}.

(** An override whose replacement is a custom keycode: its activation adds no
    key, its end takes the key of the low byte out of the report. *)
Lemma custom_keycode_releases_low_byte o s k :
  SAFE_RANGE <= replacement o <= 0xFFFF -> custom_action o = None -> IS_BASIC_KEYCODE (u8 (replacement o)) = true ->
  (forall is_mod, register_replacement o is_mod (s, k) = (tt, (s, exec send_keyboard_report k))) /\
  unregister_replacement o (s, k) = (tt, (s, without_key (u8 (replacement o)) k)).
Proof.
  intros Hr Hc Hb. assert (clear_mods_from (replacement o) = replacement o) as Em.
  { unfold clear_mods_from. destruct (within QK_MODS QK_MODS_MAX (replacement o)) eqn:E; [|done].
    apply andb_true_iff in E as [_ E%Z.leb_le]. unfold QK_MODS_MAX, SAFE_RANGE in *. lia. }
  assert ((u8 (replacement o) =? KC_NO) = false /\ u8 (replacement o) <? SAFE_RANGE = true) as [H1 H2].
  { apply andb_true_iff in Hb as [Hb1%Z.leb_le Hb2%Z.leb_le]. unfold KC_NO, SAFE_RANGE, KC_A, KC_EXSEL in *. split; [apply Z.eqb_neq|apply Z.ltb_lt]; lia. }
  split.
  - intros is_mod. unfold register_replacement, run_custom. rewrite Em, Hc.
    assert (replacement o <? SAFE_RANGE = false) as -> by (apply Z.ltb_ge; lia). rewrite andb_false_r. srun. by rewrite core_unit.
  - unfold unregister_replacement, run_custom. rewrite Em, Hc, H1, H2. srun. cbn [negb andb when]. rewrite Hb. by rewrite core_unit.
Qed.
End wide.
