(* ===== verification/Leader.v ===== *)
(** * The leader key (quantum/leader.c, process_keycode/process_leader.c)

    After the leader key up to five keys are collected; when the sequence
    times out the keymap is called, which looks at the keys.  The two
    callbacks of the keymap are parameters, the second of the sequence. *)

From S2P Require Import Prelude.
From S2P Require Import Keycodes.
From S2P Require Import Report.
From S2P Require Import State.
From S2P Require Import ActionUtil.
From S2P Require Import Action.
From S2P Require Import Feature.

Record leader := {
  leading : bool;
  leader_time : Z;
  leader_sequence : list Z;
  leader_sequence_size : Z;
}.

Definition leader_at_start : leader := {|
  leading := false; leader_time := 0; leader_sequence := replicate 5 0; leader_sequence_size := 0;
|}.

Class LeaderConfig := {
  LEADER_TIMEOUT : Z;
  LEADER_NO_TIMEOUT : bool;
  LEADER_KEY_STRICT_KEY_PROCESSING : bool;
  LEADER_PER_KEY_TIMING : bool;
  leader_start_user : stm keyboard unit;
  leader_end_user : list Z -> stm keyboard unit;
}.

Section leader.
Context {CF : Config} {HK : Hooks} {LC : LeaderConfig}.
Abbreviation M := (stm (leader * keyboard)).

Definition leader_reset_timer : M unit :=
  t ← core (gets now); own (modify (fun l => l <| leader_time := t |>)).

Definition leader_start : M unit :=
  l ← own (gets leading);
  if (l : bool) then skip else
  core leader_start_user;;
  own (modify (fun l => l <| leading := true |>));;
  leader_reset_timer;;
  own (modify (fun l => l <| leader_sequence_size := 0 |> <| leader_sequence := replicate 5 0 |>)).

Definition leader_end : M unit :=
  own (modify (fun l => l <| leading := false |>));;
  s ← own (gets leader_sequence);
  core (leader_end_user s).

Definition leader_sequence_active : M bool := own (gets leading).

Definition leader_sequence_timed_out : M bool :=
  l ← own (gets (fun l => l));
  t ← core (gets now);
  let late := LEADER_TIMEOUT <? TIMER_DIFF_16 t (leader_time l) in
  mret (if LEADER_NO_TIMEOUT then (0 <? leader_sequence_size l) && late else late).

Definition leader_task : M unit :=
  active ← leader_sequence_active;
  if (active : bool) then late ← leader_sequence_timed_out; when late leader_end else skip.

Definition leader_sequence_add (keycode : Z) : M bool :=
  n ← own (gets leader_sequence_size);
  if 5 <=? n then mret false else
  when (LEADER_NO_TIMEOUT && (n =? 0)) leader_reset_timer;;
  own (modify (fun l => l <| leader_sequence := <[Z.to_nat n := keycode]> (leader_sequence l) |>
                         <| leader_sequence_size := u8 (n + 1) |>));;
  mret true.

Definition leader_sequence_is (kc1 kc2 kc3 kc4 kc5 : Z) (l : leader) : bool :=
  bool_decide (leader_sequence l = [kc1; kc2; kc3; kc4; kc5]).
Definition leader_sequence_one_key kc := leader_sequence_is kc 0 0 0 0.
Definition leader_sequence_two_keys kc1 kc2 := leader_sequence_is kc1 kc2 0 0 0.
Definition leader_sequence_three_keys kc1 kc2 kc3 := leader_sequence_is kc1 kc2 kc3 0 0.
Definition leader_sequence_four_keys kc1 kc2 kc3 kc4 := leader_sequence_is kc1 kc2 kc3 kc4 0.
Definition leader_sequence_five_keys kc1 kc2 kc3 kc4 kc5 := leader_sequence_is kc1 kc2 kc3 kc4 kc5.

Definition process_leader (keycode : Z) (r : keyrecord_t) : M bool :=
  if negb (pressed (event r)) then mret true else
  active ← leader_sequence_active;
  late ← leader_sequence_timed_out;
  if (active : bool) && negb late then
    let keycode := if LEADER_KEY_STRICT_KEY_PROCESSING then keycode else get_tap_keycode keycode in
    ok ← leader_sequence_add keycode;
    if negb ok then leader_end;; mret true
    else when LEADER_PER_KEY_TIMING leader_reset_timer;; mret false
  else when (keycode =? QK_LEADER) leader_start;; mret true.

(** ** What is collected *)

(** The time passes. *)
Definition wait_until (t : Z) : M unit := core (modify (fun k => k <| now := t |>)).

(** Keys at their times; whether all of them were kept. *)
Fixpoint type_keys (ks : list (Z * Z * keyrecord_t)) : M bool :=
  match ks with
  | [] => mret true
  | (t, keycode, r) :: ks =>
      wait_until t;;
      passed ← process_leader keycode r;
      rest ← type_keys ks;
      mret (negb passed && rest)
  end.

Definition collected (keycode : Z) : Z :=
  if LEADER_KEY_STRICT_KEY_PROCESSING then keycode else get_tap_keycode keycode.

(** The time the sequence counts from after [n] keys, the last one at [t]. *)
Definition counts_from (start : Z) (n : nat) (t : Z) : Z :=
  if LEADER_PER_KEY_TIMING || (LEADER_NO_TIMEOUT && (n =? 0)%nat) then t else start.

(** Each key comes before the sequence times out. *)
Fixpoint in_time (start : Z) (n : nat) (ks : list (Z * Z * keyrecord_t)) : Prop :=
  match ks with
  | [] => True
  | (t, _, r) :: ks =>
      pressed (event r) = true /\
      (LEADER_NO_TIMEOUT = true /\ n = 0%nat \/ TIMER_DIFF_16 t start <= LEADER_TIMEOUT) /\
      in_time (counts_from start n t) (S n) ks
  end.

Fixpoint last_time (start : Z) (n : nat) (ks : list (Z * Z * keyrecord_t)) : Z :=
  match ks with [] => start | (t, _, _) :: ks => last_time (counts_from start n t) (S n) ks end.

Definition keys_of (ks : list (Z * Z * keyrecord_t)) : list Z := (fun k => collected k.1.2) <$> ks.

Definition collecting (start : Z) (sequence : list Z) : leader := {|
  leading := true; leader_time := start;
  leader_sequence := sequence ++ replicate (5 - length sequence) 0;
  leader_sequence_size := Z.of_nat (length sequence);
|}.

Definition final_time (t : Z) (ks : list (Z * Z * keyrecord_t)) : Z :=
  match last ks with None => t | Some k => k.1.1 end.

Lemma insert_next (l : list Z) x n :
  <[length l := x]> (l ++ replicate (S n) 0) = (l ++ [x]) ++ replicate n 0.
Proof.
  rewrite insert_app_r_alt by lia. rewrite Nat.sub_diag, <-app_assoc. done.
Qed.

Lemma process_collects start sequence t keycode r k :
  (length sequence < 5)%nat -> pressed (event r) = true -> now k = t ->
  (LEADER_NO_TIMEOUT = true /\ length sequence = 0%nat \/ TIMER_DIFF_16 t start <= LEADER_TIMEOUT) ->
  process_leader keycode r (collecting start sequence, k) =
    (false, (collecting (counts_from start (length sequence) t) (sequence ++ [collected keycode]), k)).
Proof.
  intros Hl Hp Ht Hin. unfold process_leader. rewrite Hp. cbn [negb].
  unfold leader_sequence_active, leader_sequence_timed_out. rewrite run_own. cbn [gets fst snd leading collecting].
  srun. rewrite run_own. cbn [gets fst snd]. srun. rewrite run_core. cbn [gets fst snd]. rewrite Ht. srun.
  cbn [leader_sequence_size leader_time collecting].
  assert ((if LEADER_NO_TIMEOUT
     then (0 <? Z.of_nat (length sequence)) && (LEADER_TIMEOUT <? TIMER_DIFF_16 t start)
     else LEADER_TIMEOUT <? TIMER_DIFF_16 t start) = false) as ->.
  { destruct Hin as [[-> ->]|Hin]; [done|].
    destruct (Z.ltb_spec LEADER_TIMEOUT (TIMER_DIFF_16 t start)); [lia|]. rewrite andb_false_r. by destruct LEADER_NO_TIMEOUT. }
  cbn [andb negb]. fold (collected keycode). unfold leader_sequence_add. srun. rewrite run_own.
  cbn [gets fst snd leader_sequence_size collecting].
  destruct (Z.leb_spec 5 (Z.of_nat (length sequence))); [lia|].
  unfold leader_reset_timer, counts_from.
  assert ((Z.of_nat (length sequence) =? 0) = (length sequence =? 0)%nat) as -> by (by destruct sequence).
  assert (<[Z.to_nat (Z.of_nat (length sequence)) := collected keycode]> (sequence ++ replicate (5 - length sequence) 0) =
    (sequence ++ [collected keycode]) ++ replicate (5 - length (sequence ++ [collected keycode])) 0) as Hins.
  { rewrite Nat2Z.id, length_app. cbn [length]. replace (5 - length sequence)%nat with (S (5 - (length sequence + 1))) by lia.
    apply insert_next. }
  assert (u8 (Z.of_nat (length sequence) + 1) = Z.of_nat (length (sequence ++ [collected keycode]))) as Hsize.
  { rewrite wrap_small by lia. rewrite length_app. cbn. lia. }
  unfold collecting at 2. rewrite <-Hins, <-Hsize.
  destruct (LEADER_NO_TIMEOUT && _), LEADER_PER_KEY_TIMING; subst t; reflexivity.
Qed.

Lemma type_keys_collects ks : forall start sequence k,
  (length sequence + length ks <= 5)%nat -> in_time start (length sequence) ks ->
  exists k', type_keys ks (collecting start sequence, k) =
    (true, (collecting (last_time start (length sequence) ks) (sequence ++ keys_of ks), k')) /\
    k' = k <| now := final_time (now k) ks |>.
Proof.
  induction ks as [|[[t keycode] r] ks IH]; intros start sequence k Hl Ht.
  { cbn. exists k. rewrite app_nil_r. split; [done|]. by destruct k. }
  cbn [length in_time] in *. destruct Ht as (Hp & Hin & Ht). cbn [type_keys]. unfold wait_until. rewrite run_core.
  cbn [modify fst snd].
  pose proof (process_collects start sequence t keycode r (k <| now := t |>) ltac:(lia) Hp eq_refl Hin) as E1.
  rewrite (run_bind _ _ _ _ _ E1).
  destruct (IH (counts_from start (length sequence) t) (sequence ++ [collected keycode]) (k <| now := t |>))
    as (k' & E & ->).
  { rewrite length_app. cbn. lia. }
  { rewrite length_app. cbn. by replace (length sequence + 1)%nat with (S (length sequence)) by lia. }
  rewrite (run_bind _ _ _ _ _ E). eexists. split.
  - unfold mret, stm_ret. cbn [negb andb keys_of fmap list_fmap last_time fst snd]. rewrite length_app, <-app_assoc. cbn [length app].
    replace (length sequence + 1)%nat with (S (length sequence)) by lia. done.
  - unfold final_time. destruct ks as [|x ks]; [done|].
    change (last ((t, keycode, r) :: x :: ks)) with (last (x :: ks)).
    destruct (last (x :: ks)) eqn:E'; [by destruct k|]. by apply last_None in E'.
Qed.

(** The sequence, filled up with zeros, is the one of the keys given. *)
Lemma leader_sequence_is_eq kc1 kc2 kc3 kc4 kc5 l :
  leader_sequence_is kc1 kc2 kc3 kc4 kc5 l = true <-> leader_sequence l = [kc1; kc2; kc3; kc4; kc5].
Proof. apply bool_decide_eq_true. Qed.

(** Up to five keys typed after the leader key, each before the sequence
    times out, are kept from the code behind; once it times out the keymap is
    called with them, in order, and then typing goes on as before. *)
Theorem leader_collects_sequence ks t l k r :
  leading l = false -> pressed (event r) = true -> (length ks <= 5)%nat ->
  let k0 := exec leader_start_user k in
  in_time (now k0) 0 ks ->
  LEADER_TIMEOUT < TIMER_DIFF_16 t (last_time (now k0) 0 ks) ->
  (LEADER_NO_TIMEOUT = true -> ks <> []) ->
  let m := (process_leader QK_LEADER r;; kept ← type_keys ks; wait_until t;; leader_task;; mret kept) in
  exists l', leading l' = false /\ leader_sequence l' = keys_of ks ++ replicate (5 - length ks) 0 /\
    m (l, k) = (true, (l', exec (leader_end_user (leader_sequence l')) (k0 <| now := t |>))).
Proof.
  intros Hl Hp Hlen k0 Ht Hlate Hno m. unfold m. destruct l as [lead lt ls ln]. cbn in Hl. subst lead.
  assert (process_leader QK_LEADER r ({| leading := false; leader_time := lt; leader_sequence := ls; leader_sequence_size := ln |}, k) =
    (true, (collecting (now k0) [], k0))) as E0.
  { unfold process_leader. rewrite Hp. reflexivity. }
  rewrite (run_bind _ _ _ _ _ E0).
  destruct (type_keys_collects ks (now k0) [] k0 Hlen Ht) as (k' & E & ->). rewrite (run_bind _ _ _ _ _ E).
  unfold wait_until. rewrite run_core. cbn [modify fst snd length app].
  set (lc := collecting (last_time (now k0) 0 ks) (keys_of ks)).
  assert (length (keys_of ks) = length ks) as Hk by apply length_fmap.
  exists (lc <| leading := false |>). split; [done|]. split; [cbn; by rewrite Hk|].
  change (k0 <| now := ?a |> <| now := t |>) with (k0 <| now := t |>).
  unfold leader_task, leader_sequence_active, leader_sequence_timed_out. srun. rewrite run_own. cbn [gets fst snd].
  change (leading lc) with true. cbv iota. srun. rewrite run_own. cbn [gets fst snd]. srun. rewrite run_core.
  cbn [gets fst snd]. srun. change (now (k0 <| now := t |>)) with t.
  change (leader_time lc) with (last_time (now k0) 0 ks).
  destruct (Z.ltb_spec LEADER_TIMEOUT (TIMER_DIFF_16 t (last_time (now k0) 0 ks))); [|lia].
  assert ((if LEADER_NO_TIMEOUT then (0 <? leader_sequence_size lc) && true else true) = true) as ->.
  { destruct LEADER_NO_TIMEOUT; [|done]. specialize (Hno eq_refl).
    change (leader_sequence_size lc) with (Z.of_nat (length (keys_of ks))). rewrite Hk.
    by destruct ks. }
  reflexivity.
Qed.
End leader.
