(* ===== verification/SpaceCadet.v ===== *)
(** * Space Cadet (quantum/process_keycode/process_space_cadet.c)

    A modifier while held, a key with a modifier when tapped. *)

From S2P Require Import Prelude.
From S2P Require Import Keycodes.
From S2P Require Import Report.
From S2P Require Import State.
From S2P Require Import ActionUtil.
From S2P Require Import Action.
From S2P Require Import TypingSpec.
From S2P Require Import Feature.

Record space_cadet := { sc_last : Z; sc_timer : Z; sc_mods : Z }.
Definition space_cadet_at_start : space_cadet := {| sc_last := 0; sc_timer := 0; sc_mods := 0 |}.

(** The modifier held, the modifier of a tap and the key of a tap. *)
Record cadet_keys := { holdMod : Z; tapMod : Z; tapKey : Z }.

Class SpaceCadetConfig := {
  SPACE_CADET_MODIFIER_CARRYOVER : bool;
  LSPO_KEYS : cadet_keys; RSPC_KEYS : cadet_keys;
  LCPO_KEYS : cadet_keys; RCPC_KEYS : cadet_keys;
  LAPO_KEYS : cadet_keys; RAPC_KEYS : cadet_keys;
  SFTENT_KEYS : cadet_keys;
}.

Definition default_space_cadet : SpaceCadetConfig := {|
  SPACE_CADET_MODIFIER_CARRYOVER := false;
  LSPO_KEYS := {| holdMod := KC_LEFT_SHIFT; tapMod := KC_LEFT_SHIFT; tapKey := KC_9 |};
  RSPC_KEYS := {| holdMod := KC_RIGHT_SHIFT; tapMod := KC_RIGHT_SHIFT; tapKey := KC_0 |};
  LCPO_KEYS := {| holdMod := KC_LEFT_CTRL; tapMod := KC_LEFT_SHIFT; tapKey := KC_9 |};
  RCPC_KEYS := {| holdMod := KC_RIGHT_CTRL; tapMod := KC_RIGHT_SHIFT; tapKey := KC_0 |};
  LAPO_KEYS := {| holdMod := KC_LEFT_ALT; tapMod := KC_LEFT_SHIFT; tapKey := KC_9 |};
  RAPC_KEYS := {| holdMod := KC_RIGHT_ALT; tapMod := KC_RIGHT_SHIFT; tapKey := KC_0 |};
  SFTENT_KEYS := {| holdMod := KC_RIGHT_SHIFT; tapMod := KC_TRANSPARENT; tapKey := KC_ENTER |};
|}.

Section space_cadet.
Context {CF : Config} {HK : Hooks} {SC : SpaceCadetConfig}.
Abbreviation M := (stm (space_cadet * keyboard)).

Definition register_mod (code : Z) : stm keyboard unit :=
  when (IS_MODIFIER_KEYCODE code) (register_mods (MOD_BIT code)).
Definition unregister_mod (code : Z) : stm keyboard unit :=
  when (IS_MODIFIER_KEYCODE code) (unregister_mods (MOD_BIT code)).

(** Released while it is the last key pressed, within the tapping term. *)
Definition is_tap (r : keyrecord_t) (sc_keycode hold : Z) (s : space_cadet) (k : keyboard) : bool :=
  (sc_last s =? hold) && (TIMER_DIFF_16 (now k) (sc_timer s) <? get_tapping_term sc_keycode r).

Definition perform_space_cadet (r : keyrecord_t) (sc_keycode : Z) (ks : cadet_keys) : M unit :=
  if pressed (event r) then
    t ← core (gets now);
    own (modify (fun s => s <| sc_last := holdMod ks |> <| sc_timer := t |>));;
    when SPACE_CADET_MODIFIER_CARRYOVER (m ← core get_mods; own (modify (fun s => s <| sc_mods := m |>)));;
    core (register_mod (holdMod ks))
  else
    s ← own (gets (fun s => s));
    k ← core (gets (fun k => k));
    if is_tap r sc_keycode (holdMod ks) s k then
      when (negb (holdMod ks =? tapMod ks)) (core (unregister_mod (holdMod ks));; core (register_mod (tapMod ks)));;
      when SPACE_CADET_MODIFIER_CARRYOVER (core (set_weak_mods (sc_mods s)));;
      core (tap_code (tapKey ks));;
      when SPACE_CADET_MODIFIER_CARRYOVER (core clear_weak_mods);;
      core (unregister_mod (tapMod ks))
    else core (unregister_mod (holdMod ks)).

Definition reset_space_cadet : M unit := own (modify (fun s => s <| sc_last := 0 |>)).

Definition keys_of_keycode (keycode : Z) : option cadet_keys :=
  if keycode =? QK_SPACE_CADET_LEFT_SHIFT_PARENTHESIS_OPEN then Some LSPO_KEYS
  else if keycode =? QK_SPACE_CADET_RIGHT_SHIFT_PARENTHESIS_CLOSE then Some RSPC_KEYS
  else if keycode =? QK_SPACE_CADET_LEFT_CTRL_PARENTHESIS_OPEN then Some LCPO_KEYS
  else if keycode =? QK_SPACE_CADET_RIGHT_CTRL_PARENTHESIS_CLOSE then Some RCPC_KEYS
  else if keycode =? QK_SPACE_CADET_LEFT_ALT_PARENTHESIS_OPEN then Some LAPO_KEYS
  else if keycode =? QK_SPACE_CADET_RIGHT_ALT_PARENTHESIS_CLOSE then Some RAPC_KEYS
  else if keycode =? QK_SPACE_CADET_RIGHT_SHIFT_ENTER then Some SFTENT_KEYS
  else None.

Definition process_space_cadet (keycode : Z) (r : keyrecord_t) : M bool :=
  match keys_of_keycode keycode with
  | Some ks => perform_space_cadet r keycode ks;; mret false
  | None => when (pressed (event r)) reset_space_cadet;; mret true
  end.

(** ** The modifiers *)

Definition mod_bit (code : Z) : Z := if IS_MODIFIER_KEYCODE code then MOD_BIT code else 0.

Lemma mod_bit_nz code : IS_MODIFIER_KEYCODE code = true -> nz (MOD_BIT code) = true.
Proof.
  intros _. unfold MOD_BIT. change 7 with (Z.ones 3). rewrite Z.land_ones by lia.
  assert (0 <= code mod 2 ^ 3 < 8) as Hm by (apply Z.mod_pos_bound; lia).
  assert (all_below 8 (fun i => nz (Z.shiftl 1 i)) = true) as Hall by done.
  exact (all_below_spec _ _ _ Hall Hm).
Qed.

Lemma register_mod_real code k :
  real_mods (mods (exec (register_mod code) k)) = Z.lor (real_mods (mods k)) (mod_bit code).
Proof.
  unfold register_mod, mod_bit, register_mods. destruct (IS_MODIFIER_KEYCODE code) eqn:E; [|by rewrite Z.lor_0_r].
  rewrite (mod_bit_nz _ E). cbn [when]. rewrite exec_bind. by apply (send_keeps_real (Z.lor (real_mods (mods k)) (MOD_BIT code))).
Qed.

Lemma unregister_mod_real code k :
  real_mods (mods (exec (unregister_mod code) k)) = clear_bits (real_mods (mods k)) (mod_bit code).
Proof.
  unfold unregister_mod, mod_bit, unregister_mods. destruct (IS_MODIFIER_KEYCODE code) eqn:E.
  - rewrite (mod_bit_nz _ E). cbn [when]. rewrite exec_bind.
    by apply (send_keeps_real (clear_bits (real_mods (mods k)) (MOD_BIT code))).
  - unfold clear_bits. by rewrite Z.land_m1_r.
Qed.

Definition plain_tap (code : Z) : Prop :=
  IS_BASIC_KEYCODE code = true /\ code <> KC_LOCKING_CAPS_LOCK /\ code <> KC_LOCKING_NUM_LOCK /\
  code <> KC_LOCKING_SCROLL_LOCK.

Lemma tap_real code k : plain_tap code -> real_mods (mods (exec (tap_code code) k)) = real_mods (mods k).
Proof. intros (H1 & H2 & H3 & H4). by apply tap_basic_keeps_real. Qed.

(** The press adds the modifier of the hold.  The release within the
    tapping term, no other key pressed since, types the key with the modifier
    of the tap in place of that of the hold; any other release types nothing;
    and every release leaves the other modifiers as they are and those two
    off. *)
Theorem space_cadet_taps_or_holds keycode ks r r' s k s' k' :
  keys_of_keycode keycode = Some ks -> plain_tap (tapKey ks) -> SPACE_CADET_MODIFIER_CARRYOVER = false ->
  pressed (event r) = true -> pressed (event r') = false ->
  let s1 := exec (process_space_cadet keycode r) (s, k) in
  let s2 := exec (process_space_cadet keycode r') (s', k') in
  let hold := mod_bit (holdMod ks) in
  let tap := mod_bit (tapMod ks) in
  let other := clear_bits (real_mods (mods k')) hold in
  real_mods (mods s1.2) = Z.lor (real_mods (mods k)) hold /\
  is_tap r' keycode (holdMod ks) s1.1 (k <| now := now k' |>) =
    (TIMER_DIFF_16 (now k') (now k) <? get_tapping_term keycode r') /\
  (if is_tap r' keycode (holdMod ks) s' k' then
     exists k1, s2.2 = exec (unregister_mod (tapMod ks)) (exec (tap_code (tapKey ks)) k1) /\
       real_mods (mods k1) = (if holdMod ks =? tapMod ks then real_mods (mods k') else Z.lor other tap) /\
       real_mods (mods s2.2) = clear_bits other tap
   else real_mods (mods s2.2) = other).
Proof.
  intros Hks Hplain Hcarry Hp Hp' s1 s2 hold tap other. unfold s1, s2, process_space_cadet. rewrite Hks.
  unfold perform_space_cadet. rewrite Hp, Hp', Hcarry. split_and!.
  - exact (register_mod_real (holdMod ks) k).
  - unfold is_tap. cbn. by rewrite Z.eqb_refl.
  - unfold exec. srun. rewrite run_own. cbn [gets fst snd]. srun. rewrite run_core. cbn [gets fst snd].
    destruct (is_tap r' keycode (holdMod ks) s' k').
    + set (k1 := if holdMod ks =? tapMod ks then k'
                 else exec (register_mod (tapMod ks)) (exec (unregister_mod (holdMod ks)) k')).
      exists k1. assert (real_mods (mods k1) = if holdMod ks =? tapMod ks then real_mods (mods k') else Z.lor other tap) as Hk1.
      { unfold k1. destruct (holdMod ks =? tapMod ks); [done|]. by rewrite register_mod_real, unregister_mod_real. }
      assert (forall x, (exec (unregister_mod (tapMod ks)) (exec (tap_code (tapKey ks)) k1)) = x ->
        real_mods (mods x) = clear_bits other tap) as Hend.
      { intros x <-. rewrite unregister_mod_real, (tap_real _ _ Hplain), Hk1. unfold other, tap, hold.
        apply Z.bits_inj'. intros i Hi. destruct (Z.eqb_spec (holdMod ks) (tapMod ks)) as [->|_].
        - rewrite !testbit_clear by done. by destruct (Z.testbit (real_mods (mods k')) i), (Z.testbit (mod_bit (tapMod ks)) i).
        - rewrite !testbit_clear by done. rewrite Z.lor_spec, testbit_clear by done.
          by destruct (Z.testbit (real_mods (mods k')) i), (Z.testbit (mod_bit (tapMod ks)) i), (Z.testbit (mod_bit (holdMod ks)) i). }
      assert (exists b, (when (negb (holdMod ks =? tapMod ks)) (core (unregister_mod (holdMod ks));; core (register_mod (tapMod ks))))
        (s', k') = (b, (s', k1))) as [b E].
      { unfold k1. destruct (holdMod ks =? tapMod ks); eexists; reflexivity. }
      split; [|split; [done|]].
      * srun E. done.
      * srun E. by apply Hend.
    + exact (unregister_mod_real (holdMod ks) k').
Qed.
End space_cadet.
