(* ===== verification/RepeatKey.v ===== *)
(** * Repeating the last key (quantum/repeat_key.c, process_keycode/process_repeat_key.c)

    The repeat key plays the last key again, the alternate repeat key its
    opposite.  The key played goes through [process_record] again: the
    recursion has fuel, and [None] is a recursion that has used it up. *)

From S2P Require Import Prelude.
From S2P Require Import Keycodes.
From S2P Require Import Report.
From S2P Require Import State.
From S2P Require Import ActionUtil.
From S2P Require Import Keymap.
From S2P Require Import ActionLayer.
From S2P Require Import Oneshot.
From S2P Require Import Action.
From S2P Require Import Feature.

Record repeat := {
  last_record : keyrecord_t;
  last_mods : Z;
  last_repeat_count : Z;
  processing_repeat_count : Z;
  registered_record : keyrecord_t;        (* of [repeat_key_invoke] *)
  registered_repeat_count : Z;
  alt_registered_record : keyrecord_t;    (* of [alt_repeat_key_invoke] *)
  alt_registered_repeat_count : Z;
}.

Definition repeat_at_start : repeat := {|
  last_record := record_0; last_mods := 0; last_repeat_count := 0; processing_repeat_count := 0;
  registered_record := record_0; registered_repeat_count := 0;
  alt_registered_record := record_0; alt_registered_repeat_count := 0;
|}.

Class RepeatConfig := {
  NO_ALT_REPEAT_KEY : bool;
  TRI_LAYER_ENABLE : bool;
  remember_last_key_user : Z -> keyrecord_t -> Z -> bool * Z;
  get_alt_repeat_key_keycode_user : Z -> Z -> Z;
}.

Definition KC_HYPR : Z := 0x0F00.
Definition KC_MEH : Z := 0x0700.
Definition IS_QK_BASIC (code : Z) : bool := within QK_BASIC QK_BASIC_MAX code.

(** ** Opposite keys *)

Fixpoint find_alt_keycode (table : list (Z * Z)) (target : Z) : Z :=
  match table with
  | [] => KC_NO
  | (a, b) :: table => if target =? a then b else if target =? b then a else find_alt_keycode table target
  end.

Definition hotkey_pairs : list (Z * Z) :=
  [(KC_F, KC_B); (KC_D, KC_U); (KC_N, KC_P); (KC_A, KC_E); (KC_O, KC_I)].
Definition vim_pairs : list (Z * Z) :=
  [(KC_J, KC_K); (KC_H, KC_L); (KC_W, KC_B); (KC_E, KC_B)].
Definition navigation_pairs (extrakey mousekey : bool) : list (Z * Z) :=
  [(KC_LEFT, KC_RIGHT); (KC_UP, KC_DOWN); (KC_HOME, KC_END); (KC_PAGE_UP, KC_PAGE_DOWN);
   (KC_BACKSPACE, KC_DELETE); (KC_LEFT_BRACKET, KC_RIGHT_BRACKET)] ++
  (if extrakey then
     [(KC_WWW_BACK, KC_WWW_FORWARD); (KC_MEDIA_NEXT_TRACK, KC_MEDIA_PREV_TRACK);
      (KC_MEDIA_FAST_FORWARD, KC_MEDIA_REWIND); (KC_AUDIO_VOL_UP, KC_AUDIO_VOL_DOWN);
      (KC_BRIGHTNESS_UP, KC_BRIGHTNESS_DOWN)] else []) ++
  (if mousekey then
     [(KC_MS_LEFT, KC_MS_RIGHT); (KC_MS_UP, KC_MS_DOWN);
      (KC_MS_WH_LEFT, KC_MS_WH_RIGHT); (KC_MS_WH_UP, KC_MS_WH_DOWN)] else []).

(** The alternate of a basic keycode with modifiers. *)
Definition alternate (extrakey mousekey : bool) (kc m : Z) : Z :=
  let pairs := if nz (Z.land m (Z.lor (Z.lor MOD_LCTL MOD_LALT) MOD_LGUI)) then hotkey_pairs else vim_pairs in
  let alt := find_alt_keycode pairs kc in
  let alt := if nz alt then alt else find_alt_keycode (navigation_pairs extrakey mousekey) kc in
  if nz alt then Z.lor (Z.shiftl m 8) alt else KC_NO.

(** Modifiers of 8 bits to the 5 bits of a keycode. *)
Definition five_bit_mods (mods : Z) : Z :=
  Z.lor (if nz (Z.land mods 0xF0) then 0x10 else 0) (Z.land (Z.lor (Z.shiftr mods 4) mods) 0xF).

Section repeat_key.
Context {CF : Config} {HK : Hooks} {RC : RepeatConfig}.
Abbreviation M := (stm (repeat * keyboard)).

Definition get_last_keycode : M Z := own (gets (fun s => keycode (last_record s))).
Definition get_last_mods : M Z := own (gets last_mods).
Definition set_last_mods (m : Z) : M unit := own (modify (fun s => s <| last_mods := m |>)).
Definition set_last_record (kc : Z) (r : keyrecord_t) : M unit :=
  own (modify (fun s => s <| last_record := r <| keycode := kc |> |> <| last_repeat_count := 0 |>)).
Definition set_last_keycode (kc : Z) : M unit :=
  set_last_record kc (record_0 <| tap := {| interrupted := false; count := 1 |} |>).
Definition get_repeat_key_count : M Z := own (gets processing_repeat_count).

Definition next_repeat_count (dir n : Z) : Z :=
  if dir * n <? 0 then dir else if dir * n <? 127 then i8 (n + dir) else n.
Definition update_last_repeat_count (dir : Z) : M unit :=
  own (modify (fun s => s <| last_repeat_count := next_repeat_count dir (last_repeat_count s) |>)).

(** *** The alternate key *)

(** The basic keycode a keycode types, with the modifiers added to those given. *)
Definition unpack_keycode (kc m : Z) : option (Z * Z) :=
  if within QK_MODS QK_MODS_MAX kc then Some (QK_MODS_GET_BASIC_KEYCODE kc, Z.lor m (QK_MODS_GET_MODS kc))
  else if within QK_MOD_TAP QK_MOD_TAP_MAX kc then Some (QK_MOD_TAP_GET_TAP_KEYCODE kc, m)
  else if within QK_LAYER_TAP QK_LAYER_TAP_MAX kc then Some (QK_LAYER_TAP_GET_TAP_KEYCODE kc, m)
  else if SWAP_HANDS_ENABLE && within QK_SWAP_HANDS QK_SWAP_HANDS_MAX kc then
    if IS_SWAP_HANDS_KEYCODE kc then None else Some (QK_SWAP_HANDS_GET_TAP_KEYCODE kc, m)
  else Some (kc, m).

Definition default_alt_keycode (kc m : Z) : Z :=
  match unpack_keycode kc (five_bit_mods m) with
  | None => KC_NO
  | Some (kc, m) =>
      if IS_QK_BASIC kc then alternate EXTRAKEY_ENABLE MOUSEKEY_ENABLE kc m else KC_NO
  end.

Definition get_alt_repeat_key_keycode : M Z :=
  s ← own (gets (fun s => s));
  let kc := keycode (last_record s) in
  let user := get_alt_repeat_key_keycode_user kc (last_mods s) in
  mret (if negb (user =? KC_TRANSPARENT) then user else default_alt_keycode kc (last_mods s)).

(** *** Playing a key *)

Definition put_processing (n : Z) : M unit := own (modify (fun s => s <| processing_repeat_count := n |>)).

(** [process] is [process_record]; it may change the record it is given. *)
Definition repeat_key_invoke (process : keyrecord_t -> M (option keyrecord_t)) (e : keyevent_t) : M bool :=
  s ← own (gets (fun s => s));
  if nz (processing_repeat_count s) || negb (nz (keycode (last_record s))) then mret true else
  when (pressed e) (
    update_last_repeat_count 1;;
    core (register_weak_mods (last_mods s));;
    own (modify (fun s => s <| registered_record := last_record s |>
                           <| registered_repeat_count := last_repeat_count s |>)));;
  own (modify (fun s => s <| registered_record := (registered_record s) <| event := e |> |>
                         <| processing_repeat_count := registered_repeat_count s |>));;
  r ← own (gets registered_record);
  result ← process r;
  match result with
  | None => mret false
  | Some r =>
      own (modify (fun s => s <| registered_record := r |> <| processing_repeat_count := 0 |>));;
      m ← get_last_mods;
      when (negb (pressed e)) (core (unregister_weak_mods m));;
      mret true
  end.

Definition alt_repeat_key_invoke (process : keyrecord_t -> M (option keyrecord_t)) (e : keyevent_t) : M bool :=
  n ← get_repeat_key_count;
  if nz n then mret true else
  alt ← get_alt_repeat_key_keycode;
  when (pressed e) (own (modify (fun s => s <| alt_registered_record := record_0 <| keycode := alt |> |>)));;
  r ← own (gets alt_registered_record);
  if negb (nz (keycode r)) then mret true else
  when (pressed e) (
    update_last_repeat_count (-1);;
    own (modify (fun s => s <| alt_registered_repeat_count := last_repeat_count s |>)));;
  own (modify (fun s => s <| alt_registered_record := (alt_registered_record s) <| event := e |> |>
                         <| processing_repeat_count := alt_registered_repeat_count s |>));;
  r ← own (gets alt_registered_record);
  result ← process r;
  match result with
  | None => mret false
  | Some r =>
      own (modify (fun s => s <| alt_registered_record := r |> <| processing_repeat_count := 0 |>));;
      mret true
  end.

(** ** process_repeat_key.c *)

Definition remember_last_key (kc : Z) (r : keyrecord_t) (m : Z) : bool * Z :=
  if within QK_MOMENTARY QK_MOMENTARY_MAX kc || within QK_TO QK_TO_MAX kc
     || within QK_TOGGLE_LAYER QK_TOGGLE_LAYER_MAX kc || within QK_LAYER_TAP_TOGGLE QK_LAYER_TAP_TOGGLE_MAX kc
     || within KC_LEFT_CTRL KC_RIGHT_GUI kc || (kc =? KC_HYPR) || (kc =? KC_MEH)
     || within QK_ONE_SHOT_LAYER QK_ONE_SHOT_LAYER_MAX kc || within QK_ONE_SHOT_MOD QK_ONE_SHOT_MOD_MAX kc
     || TRI_LAYER_ENABLE && ((kc =? QK_TRI_LAYER_LOWER) || (kc =? QK_TRI_LAYER_UPPER)) then (false, m)
  else if within QK_MOD_TAP QK_MOD_TAP_MAX kc || within QK_LAYER_TAP QK_LAYER_TAP_MAX kc then
    if count (tap r) =? 0 then (false, m) else remember_last_key_user kc r m
  else if SWAP_HANDS_ENABLE && within QK_SWAP_HANDS QK_SWAP_HANDS_MAX kc then
    if IS_SWAP_HANDS_KEYCODE kc || (count (tap r) =? 0) then (false, m) else remember_last_key_user kc r m
  else if (kc =? QK_REPEAT_KEY) || negb NO_ALT_REPEAT_KEY && (kc =? QK_ALT_REPEAT_KEY) then (false, m)
  else remember_last_key_user kc r m.

Definition process_last_key (kc : Z) (r : keyrecord_t) : M bool :=
  n ← get_repeat_key_count;
  if nz n then mret true
  else if pressed (event r) then
    k ← core (gets mods);
    let m := Z.lor (Z.lor (real_mods k) (weak_mods k)) (oneshot_mods k) in
    let remembered := remember_last_key kc r m in
    when remembered.1 (set_last_record kc r;; set_last_mods remembered.2);;
    mret true
  else mret true.

(** Whether the event is passed on, if the recursion ends. *)
Definition process_repeat_key (process : keyrecord_t -> M (option keyrecord_t)) (kc : Z) (r : keyrecord_t) :
  M (option bool) :=
  n ← get_repeat_key_count;
  if nz n then mret (Some true)
  else if kc =? QK_REPEAT_KEY then
    ok ← repeat_key_invoke process (event r); mret (if ok : bool then Some false else None)
  else if negb NO_ALT_REPEAT_KEY && (kc =? QK_ALT_REPEAT_KEY) then
    ok ← alt_repeat_key_invoke process (event r); mret (if ok : bool then Some false else None)
  else mret (Some true).

(** [process_record] with this feature in front of the core, whose hook is what
    comes after the feature. *)
Fixpoint process_record_repeating (fuel : nat) (r : keyrecord_t) : M (option keyrecord_t) :=
  match fuel with
  | O => mret None
  | S fuel =>
      if IS_NOEVENT (event r) then mret (Some r) else
      kc ← core (get_record_keycode r true);
      process_last_key kc r;;
      passed ← process_repeat_key (process_record_repeating fuel) kc r;
      match passed with
      | None => mret None
      | Some true => r ← core (process_record 2 r); mret (Some r)
      | Some false =>
          active ← core (gets is_oneshot_layer_active);
          enabled ← core (gets oneshot_enabled);
          when (active && pressed (event r) && enabled)
            (core (clear_oneshot_layer_state ONESHOT_OTHER_KEY_PRESSED));;
          mret (Some r)
      end
  end.

(** ** A key is released as it was pressed *)

Hypothesis in_record : KEYCODE_IN_RECORD = true.

(** While a key is played the feature lets everything through. *)
Lemma playing_passes fuel r s k :
  IS_NOEVENT (event r) = false -> nz (keycode r) = true -> nz (processing_repeat_count s) = true ->
  process_record_repeating (S fuel) r (s, k) =
    (Some (eval (process_record 2 r) k), (s, exec (process_record 2 r) k)).
Proof.
  intros He Hkc Hp. cbn [process_record_repeating]. rewrite He.
  unfold get_record_keycode. rewrite in_record, Hkc. cbn [andb].
  rewrite run_core. cbn [mret stm_ret fst snd].
  unfold process_last_key, process_repeat_key, get_repeat_key_count. srun.
  rewrite run_own. cbn [gets fst snd]. rewrite Hp. srun.
  rewrite run_own. cbn [gets fst snd]. rewrite Hp. srun. by rewrite run_core.
Qed.

Lemma invoke_plays fuel e s k :
  processing_repeat_count s = 0 -> nz (keycode (last_record s)) = true ->
  let s1 := if pressed e then
      s <| last_repeat_count := next_repeat_count 1 (last_repeat_count s) |>
        <| registered_record := last_record s |>
        <| registered_repeat_count := next_repeat_count 1 (last_repeat_count s) |> else s in
  let k1 := if pressed e then exec (register_weak_mods (last_mods s)) k else k in
  let r := (registered_record s1) <| event := e |> in
  IS_NOEVENT e = false -> nz (keycode r) = true -> nz (registered_repeat_count s1) = true ->
  let r' := eval (process_record 2 r) k1 in
  let k2 := exec (process_record 2 r) k1 in
  repeat_key_invoke (process_record_repeating (S fuel)) e (s, k) =
    (true, (s1 <| registered_record := r' |> <| processing_repeat_count := 0 |>,
            if pressed e then k2 else exec (unregister_weak_mods (last_mods s)) k2)).
Proof.
  intros Hp Hkc s1 k1 r He Hr Hn r' k2. unfold repeat_key_invoke. rewrite run_own. cbn [gets fst snd].
  rewrite Hp, Hkc. cbn [nz Z.eqb negb orb].
  assert (exists b, when (pressed e) (
      update_last_repeat_count 1;; core (register_weak_mods (last_mods s));;
      own (modify (fun s => s <| registered_record := last_record s |>
                             <| registered_repeat_count := last_repeat_count s |>))) (s, k) = (b, (s1, k1))) as [b E].
  { unfold s1, k1. destruct (pressed e); eexists; reflexivity. }
  srun E. rewrite run_own. cbn [modify fst snd]. rewrite run_own. cbn [gets fst snd].
  change (registered_record (s1 <| registered_record := _ |> <| processing_repeat_count := _ |>)) with r.
  rewrite run_eval. unfold eval, exec. rewrite (playing_passes fuel r) by (done || by destruct s1).
  cbn [fst snd]. fold r' k2. srun. rewrite run_own. cbn [modify fst snd].
  unfold get_last_mods. rewrite run_own. cbn [gets fst snd].
  assert (last_mods s1 = last_mods s) as Hm by (unfold s1; by destruct (pressed e)).
  rewrite <-Hm. generalize r' k2. clear. intros x k2. destruct s1. by destruct (pressed e).
Qed.

Lemma next_repeat_count_range dir n :
  dir = 1 \/ dir = -1 -> -127 <= n <= 127 ->
  -127 <= next_repeat_count dir n <= 127 /\ 0 < dir * next_repeat_count dir n.
Proof.
  intros Hd Hn. unfold next_repeat_count. repeat zcase; try nia.
  unfold i_wrap. rewrite Z.mod_small; [nia|]. norm_pow. nia.
Qed.

Lemma next_repeat_count_nz n : -127 <= n <= 127 -> nz (next_repeat_count 1 n) = true.
Proof. intros Hn. apply nz_true. pose proof (next_repeat_count_range 1 n (or_introl eq_refl) Hn). lia. Qed.

(** What may happen while the repeat key is down: other keys go down and up,
    and the keyboard changes in any other way. *)
Inductive meanwhile (fuel : nat) : repeat * keyboard -> repeat * keyboard -> Prop :=
  | other_key r s k :
      let kc := eval (get_record_keycode r true) k in
      kc <> KC_NO -> kc <> QK_REPEAT_KEY -> kc <> QK_ALT_REPEAT_KEY ->
      meanwhile fuel (s, k) (exec (process_record_repeating (S fuel) r) (s, k))
  | keyboard_change s k k' : meanwhile fuel (s, k) (s, k').

(** What was registered is still there, and no key is being played. *)
Definition registers (reg : keyrecord_t) (n : Z) (s : repeat) : Prop :=
  registered_record s = reg /\ registered_repeat_count s = n /\ processing_repeat_count s = 0 /\
  nz (keycode (last_record s)) = true.

Lemma remembering_registers reg n kc r s k :
  registers reg n s -> kc <> KC_NO -> registers reg n (exec (process_last_key kc r) (s, k)).1.
Proof.
  intros Hs Hkc. pose proof Hs as (H1 & H2 & H3 & H4).
  unfold process_last_key, get_repeat_key_count, exec. rewrite run_own. cbn [gets fst snd]. rewrite H3.
  cbn [nz Z.eqb negb]. destruct (pressed (event r)); [|done]. rewrite run_core. cbn [gets fst snd].
  destruct (remember_last_key kc r _) as [[] m']; [|done].
  split; [exact H1|]. split; [exact H2|]. split; [exact H3|]. by apply nz_true.
Qed.

Lemma other_key_registers fuel reg n a b :
  meanwhile fuel a b -> registers reg n a.1 -> registers reg n b.1.
Proof.
  intros [r s k kc Hno Hrep Halt|s k k'] Hs; [|done]. unfold exec. cbn [process_record_repeating].
  destruct (IS_NOEVENT (event r)); [done|]. rewrite run_core. cbn [fst snd].
  change ((get_record_keycode r true k).1) with kc. rewrite run_eval.
  pose proof (remembering_registers reg n kc r s (get_record_keycode r true k).2 Hs Hno) as Hs1.
  destruct (exec (process_last_key kc r) _) as [s1 k1]. cbn [fst] in Hs1. pose proof Hs1 as (_ & _ & H3 & _).
  assert (process_repeat_key (process_record_repeating fuel) kc r (s1, k1) = (Some true, (s1, k1))) as E.
  { unfold process_repeat_key, get_repeat_key_count. rewrite run_own. cbn [gets fst snd]. rewrite H3.
    cbn [nz Z.eqb negb]. rewrite (proj2 (Z.eqb_neq kc QK_REPEAT_KEY)) by done.
    rewrite (proj2 (Z.eqb_neq kc QK_ALT_REPEAT_KEY)) by done. by rewrite andb_false_r. }
  rewrite (run_bind _ _ _ _ _ E). done.
Qed.

(** C29: The repeat key plays the last key with the modifiers it was typed with;
    when it goes up, the key that was played goes up, whatever other keys were
    typed and remembered in between - but not the repeat keys themselves, nor a
    position without a keycode - and whatever else became of the keyboard,
    provided that the code behind leaves the keycode of the record alone. *)
Theorem repeat_releases_what_it_pressed fuel e e' s k :
  processing_repeat_count s = 0 -> -127 <= last_repeat_count s <= 127 ->
  nz (keycode (last_record s)) = true -> pressed e = true -> IS_NOEVENT e = false ->
  let r := (last_record s) <| event := e |> in
  let k1 := exec (register_weak_mods (last_mods s)) k in
  keycode (eval (process_record 2 r) k1) = keycode r ->
  exists s1,
    repeat_key_invoke (process_record_repeating (S fuel)) e (s, k) =
      (true, (s1, exec (process_record 2 r) k1)) /\
    forall s2 k2,
      star (meanwhile fuel) (s1, exec (process_record 2 r) k1) (s2, k2) ->
      pressed e' = false -> IS_NOEVENT e' = false ->
      exists r' s3, keycode r' = keycode (last_record s) /\ event r' = e' /\
        repeat_key_invoke (process_record_repeating (S fuel)) e' (s2, k2) =
          (true, (s3, exec (unregister_weak_mods (last_mods s2)) (exec (process_record 2 r') k2))).
Proof.
  intros Hp Hrange Hkc He Hev r k1 Hkeeps. pose proof (next_repeat_count_nz _ Hrange) as Hn.
  pose proof (invoke_plays fuel e s k Hp Hkc) as E. rewrite He in E. cbv zeta in E.
  eexists. split; [apply E; [done|exact Hkc|exact Hn]|]. clear E.
  intros s2 k2 Hstar He' Hev'.
  apply (star_invariant _ _ _ _ (fun a b => other_key_registers fuel
    (eval (process_record 2 r) k1) (next_repeat_count 1 (last_repeat_count s)) a b)) in Hstar; [|by split_and!].
  destruct Hstar as (Hreg & Hcount & Hproc & Hkc2). cbn [fst] in *.
  pose proof (invoke_plays fuel e' s2 k2 Hproc Hkc2) as E. rewrite He' in E. cbv zeta in E.
  assert (keycode (registered_record s2) = keycode (last_record s)) as Hkeep.
  { rewrite Hreg. exact Hkeeps. }
  do 2 eexists. split; [|split; [|apply E]].
  - exact Hkeep.
  - done.
  - done.
  - change (nz (keycode (registered_record s2)) = true). by rewrite Hkeep.
  - rewrite Hcount. exact Hn.
Qed.

(** ** A recursion without end *)

Lemma release_reads_keycode r k :
  keycode r = 0 -> pressed (event r) = false ->
  get_record_keycode r true k = (eval (get_record_keycode r true) k, k).
Proof.
  intros Hkc Hp. unfold get_record_keycode. rewrite Hkc, in_record. cbn [andb nz negb Z.eqb].
  unfold get_event_keycode, eval. rewrite run_gets, Hp. cbn [andb].
  by destruct (_ || _).
Qed.

Lemma keycode_of_event r r' k :
  keycode r = keycode r' -> event r = event r' -> get_record_keycode r true k = get_record_keycode r' true k.
Proof. intros E1 E2. unfold get_record_keycode. by rewrite E1, E2. Qed.

(** C30: When the repeat key went down before any key was remembered, and comes
    up after one was, [process_record] calls itself without end: the record it
    plays has no keycode, so that its keycode is looked up and is that of the
    repeat key again. *)
Theorem repeat_recursion_never_ends fuel r s k :
  processing_repeat_count s = 0 -> registered_repeat_count s = 0 -> keycode (registered_record s) = 0 ->
  nz (keycode (last_record s)) = true ->
  keycode r = 0 -> pressed (event r) = false -> IS_NOEVENT (event r) = false ->
  eval (get_record_keycode r true) k = QK_REPEAT_KEY ->
  eval (process_record_repeating fuel r) (s, k) = None.
Proof.
  revert r s. induction fuel as [|fuel IH]; intros r s Hp Hc Hreg Hlast Hkc He Hev Hrep; [done|].
  cbn [process_record_repeating]. rewrite Hev. unfold eval. rewrite run_core. cbn [fst snd].
  rewrite (release_reads_keycode r k Hkc He), Hrep. cbn [fst snd].
  unfold process_last_key, process_repeat_key, get_repeat_key_count. srun.
  rewrite run_own. cbn [gets fst snd]. rewrite Hp, He. cbn [nz Z.eqb negb]. srun.
  rewrite run_own. cbn [gets fst snd]. rewrite Hp. cbn [nz Z.eqb negb].
  rewrite Z.eqb_refl. unfold repeat_key_invoke. srun. rewrite run_own. cbn [gets fst snd].
  rewrite Hp, Hlast, He. cbn [nz Z.eqb negb orb when]. srun. rewrite run_own. cbn [modify fst snd]. srun.
  rewrite run_own. cbn [gets fst snd]. srun. rewrite run_eval.
  rewrite IH; try done.
  - unfold eval in *. rewrite (keycode_of_event _ r); [done| |done].
    change (keycode (registered_record s) = keycode r). congruence.
Qed.

(** ** Opposites *)

Definition opposite_back (ex mo : bool) (kc m : Z) : bool :=
  let alt := alternate ex mo kc m in
  (alt =? KC_NO) || (kc =? KC_E) && (Z.land m 0xD =? 0) ||
  (if m =? 0 then within 0 0xFF alt && (alternate ex mo alt 0 =? kc)
   else within QK_MODS QK_MODS_MAX alt &&
     (alternate ex mo (QK_MODS_GET_BASIC_KEYCODE alt) (QK_MODS_GET_MODS alt) =? Z.lor (Z.shiftl m 8) kc)).

Lemma opposites_back ex mo : all_below 256 (fun kc => all_below 32 (opposite_back ex mo kc)) = true.
Proof. destruct ex, mo; vm_compute; reflexivity. Qed.

Lemma unpack_basic kc m : 0 <= kc < 256 -> unpack_keycode kc m = Some (kc, m).
Proof.
  intros Hk. unfold unpack_keycode, within, QK_MODS, QK_MOD_TAP, QK_LAYER_TAP, QK_SWAP_HANDS.
  rewrite !(proj2 (Z.leb_gt _ kc)) by lia. by destruct SWAP_HANDS_ENABLE.
Qed.

Lemma five_bit_range m : 0 <= m < 256 -> 0 <= five_bit_mods m < 32.
Proof.
  intros Hm. assert (all_below 256 (fun m => within 0 31 (five_bit_mods m)) = true) as Hall by (by vm_compute).
  apply (all_below_spec _ _ m) in Hall; [|done]. apply andb_prop in Hall as [?%Z.leb_le ?%Z.leb_le]. lia.
Qed.

(** The alternate of the alternate key is the key itself, with its
    modifiers: for every basic key that has one, except E without Control, Alt
    or GUI, whose alternate is B. *)
Theorem alternate_of_alternate kc m :
  0 <= kc < 256 -> 0 <= m < 256 -> ~ (kc = KC_E /\ Z.land (five_bit_mods m) 0xD = 0) ->
  default_alt_keycode kc m <> KC_NO ->
  default_alt_keycode (default_alt_keycode kc m) 0 = Z.lor (Z.shiftl (five_bit_mods m) 8) kc.
Proof.
  intros Hk Hm He Hne. pose proof (five_bit_range m Hm) as Hf. set (m5 := five_bit_mods m) in *.
  assert (default_alt_keycode kc m = alternate EXTRAKEY_ENABLE MOUSEKEY_ENABLE kc m5) as E.
  { unfold default_alt_keycode. rewrite unpack_basic by done. fold m5.
    unfold IS_QK_BASIC, within, QK_BASIC, QK_BASIC_MAX.
    by destruct (Z.leb_spec 0 kc), (Z.leb_spec kc 255); try lia. }
  rewrite E in *. clear E.
  pose proof (all_below_spec _ _ kc (opposites_back EXTRAKEY_ENABLE MOUSEKEY_ENABLE) Hk) as Hb. cbv beta in Hb.
  apply (all_below_spec _ _ m5) in Hb; [|done]. unfold opposite_back in Hb.
  set (alt := alternate EXTRAKEY_ENABLE MOUSEKEY_ENABLE kc m5) in *. clearbody alt.
  destruct (Z.eqb_spec alt KC_NO) as [|_]; [done|]. cbn [orb] in Hb.
  destruct ((kc =? KC_E) && (Z.land m5 0xD =? 0)) eqn:Ee.
  { destruct He. by apply andb_prop in Ee as [?%Z.eqb_eq ?%Z.eqb_eq]. }
  cbn [orb] in Hb. unfold default_alt_keycode. change (five_bit_mods 0) with 0.
  destruct (Z.eqb_spec m5 0) as [E0|_]; apply andb_prop in Hb as [Hr Hb%Z.eqb_eq].
  - rewrite E0. apply andb_prop in Hr as [?%Z.leb_le ?%Z.leb_le]. rewrite unpack_basic by lia.
    unfold IS_QK_BASIC, within, QK_BASIC, QK_BASIC_MAX.
    by destruct (Z.leb_spec 0 alt), (Z.leb_spec alt 255); try lia.
  - unfold unpack_keycode. rewrite Hr. rewrite Z.lor_0_l. unfold IS_QK_BASIC, within, QK_MODS_GET_BASIC_KEYCODE.
    assert (0 <= Z.land alt 0xFF < 2 ^ 8) as Hland.
    { change 0xFF with (Z.ones 8). rewrite Z.land_ones by lia. by apply Z.mod_pos_bound. }
    unfold QK_BASIC, QK_BASIC_MAX. destruct (Z.leb_spec 0 (Z.land alt 0xFF)), (Z.leb_spec (Z.land alt 0xFF) 255); try lia.
    exact Hb.
Qed.
End repeat_key.
