(* ===== verification/Achordion.v ===== *)
(** * Achordion (quantum/process_keycode/process_achordion.c)

    A second opinion on keys that were decided to be held: the press of a
    tap-hold key waits until the next key is pressed, and [achordion_chord]
    decides whether the two are a chord, or until a timeout.  What Achordion
    decides it gives to [process_record] again, in a state in which it lets
    everything through. *)

From S2P Require Import Prelude.
From S2P Require Import Keycodes.
From S2P Require Import Report.
From S2P Require Import State.
From S2P Require Import ActionUtil.
From S2P Require Import Keymap.
From S2P Require Import ActionLayer.
From S2P Require Import Oneshot.
From S2P Require Import Action.
From S2P Require Import Feature.

Inductive achordion_state_t :=
  | STATE_UNSETTLED | STATE_RELEASED | STATE_TAPPING | STATE_HOLDING | STATE_RECURSING.

#[global] Instance achordion_state_eq_dec : EqDecision achordion_state_t.
Proof. solve_decision. Defined.

Record achordion := {
  tap_hold_record : keyrecord_t;
  tap_hold_keycode : Z;
  hold_timer : Z;
  eager_mods : Z;
  achordion_state : achordion_state_t;
}.

Definition achordion_at_start : achordion := {|
  tap_hold_record := record_0; tap_hold_keycode := KC_NO; hold_timer := 0; eager_mods := 0;
  achordion_state := STATE_RELEASED;
|}.

(** The callbacks of the keymap, with their defaults below. *)
Class AchordionHooks := {
  achordion_chord : Z -> keyrecord_t -> Z -> keyrecord_t -> bool;
  achordion_timeout : Z -> Z;
  achordion_eager_mod : Z -> bool;
}.

Definition IS_QK_MOD_TAP (kc : Z) : bool := within QK_MOD_TAP QK_MOD_TAP_MAX kc.
Definition IS_QK_LAYER_TAP (kc : Z) : bool := within QK_LAYER_TAP QK_LAYER_TAP_MAX kc.

(** A tap-hold key that the core took for held. *)
Definition is_tap_hold (kc : Z) : bool := IS_QK_MOD_TAP kc || IS_QK_LAYER_TAP kc.

(** The 5-bit modifiers of a keycode as 8 bits. *)
Definition eager_bits (m : Z) : Z := u8 (if Z.land m 0x10 =? 0 then m else Z.shiftl m 4).

Section achordion.
Context `{CF : Config} `{HK : Hooks} `{AH : AchordionHooks}.
Abbreviation M := (stm (achordion * keyboard)).

Definition put_achordion_state (s : achordion_state_t) : M unit := own (modify (fun a => a <| achordion_state := s |>)).
Definition put_tap_hold_record (r : keyrecord_t) : M unit := own (modify (fun a => a <| tap_hold_record := r |>)).

Definition clear_eager_mods : M unit :=
  a ← own (gets (fun a => a));
  core (unregister_mods (eager_mods a));;
  own (modify (fun a => a <| eager_mods := 0 |>)).

Section processing.
(** [process_record], which comes back to [process_achordion]. *)
Context (process : keyrecord_t -> M keyrecord_t).

Definition recursively_process_record (r : keyrecord_t) (state : achordion_state_t) : M keyrecord_t :=
  put_achordion_state STATE_RECURSING;;
  r ← process r;
  put_achordion_state state;;
  mret r.

(** ... of [&tap_hold_record] *)
Definition process_tap_hold (state : achordion_state_t) : M unit :=
  a ← own (gets (fun a => a));
  r ← recursively_process_record (tap_hold_record a) state;
  put_tap_hold_record r.

Definition edit_record (f : keyrecord_t -> keyrecord_t) : M unit :=
  own (modify (fun a => a <| tap_hold_record := f (tap_hold_record a) |>)).
Definition as_tap (r : keyrecord_t) : keyrecord_t := r <| tap := {| interrupted := true; count := 1 |} |>.
Definition as_release (r : keyrecord_t) : keyrecord_t := r <| event := (event r) <| pressed := false |> |>.

Definition settle_as_hold : M unit := clear_eager_mods;; process_tap_hold STATE_HOLDING.

(** The branch of [process_achordion] that settles the key as tapped. *)
Definition settle_as_tap : M unit :=
  clear_eager_mods;;
  edit_record as_tap;;
  process_tap_hold STATE_TAPPING;;
  core send_keyboard_report;;
  when (0 <? TAP_CODE_DELAY) (core (emit (WaitMs TAP_CODE_DELAY)));;
  edit_record as_release;;
  process_tap_hold STATE_TAPPING.

(** The press of a tap-hold key that the core holds. *)
Definition begins_hold (kc : Z) (r : keyrecord_t) : bool :=
  is_tap_hold kc && (count (tap r) =? 0) && pressed (event r) && IS_KEYEVENT (event r)
  && (0 <? achordion_timeout kc).

Definition begin_hold (kc : Z) (r : keyrecord_t) : M unit :=
  own (modify (fun a => a <| achordion_state := STATE_UNSETTLED |> <| tap_hold_keycode := kc |>
                          <| tap_hold_record := r |>
                          <| hold_timer := u16 (time (event r) + achordion_timeout kc) |>));;
  k ← core (gets (fun k => k));
  let mod_ := mod_config (keymap_config k) (QK_MOD_TAP_GET_MODS kc) in
  when (IS_QK_MOD_TAP kc && achordion_eager_mod mod_) (
    own (modify (fun a => a <| eager_mods := eager_bits mod_ |>));;
    core (register_mods (eager_bits mod_))).

(** Whether the other key makes the active key a hold. *)
Definition is_chord (a : achordion) (kc : Z) (r : keyrecord_t) : bool :=
  negb (IS_KEYEVENT (event r)) || is_tap_hold kc && (count (tap r) =? 0)
  || achordion_chord (tap_hold_keycode a) (tap_hold_record a) kc r.

(** Whether the record goes on, and what has become of it. *)
Definition process_achordion (kc : Z) (r : keyrecord_t) : M (bool * keyrecord_t) :=
  a ← own (gets (fun a => a));
  if bool_decide (achordion_state a = STATE_RECURSING) then mret (true, r)
  else if bool_decide (achordion_state a = STATE_RELEASED) then
    if begins_hold kc r then begin_hold kc r;; mret (false, r) else mret (true, r)
  else if (kc =? tap_hold_keycode a) && negb (pressed (event r)) then
    (if bool_decide (achordion_state a = STATE_HOLDING) then
       edit_record as_release;; process_tap_hold STATE_RELEASED
     else when (IS_QK_MOD_TAP kc) clear_eager_mods);;
    put_achordion_state STATE_RELEASED;;
    mret (false, r)
  else if bool_decide (achordion_state a = STATE_UNSETTLED) && pressed (event r) then
    (if is_chord a kc r then settle_as_hold else settle_as_tap);;
    a ← own (gets (fun a => a));
    r ← recursively_process_record r (achordion_state a);
    mret (false, r)
  else mret (true, r).

Definition achordion_task (timer : Z) : M unit :=
  a ← own (gets (fun a => a));
  when (bool_decide (achordion_state a = STATE_UNSETTLED) && timer_expired timer (hold_timer a)) settle_as_hold.

(** ** process_record around it *)

(** What [process_record] does when the handlers have been asked. *)
Definition after_handlers (q : bool * keyrecord_t) : M keyrecord_t :=
  if q.1 then core (process_record 2 q.2) else
  active ← core (gets is_oneshot_layer_active);
  enabled ← core (gets oneshot_enabled);
  when (active && pressed (event q.2) && enabled) (core (clear_oneshot_layer_state ONESHOT_OTHER_KEY_PRESSED));;
  mret q.2.

End processing.

(** [process_record] with this feature in front of the core, whose hook is what
    comes after the feature. *)
Fixpoint process_record_achordion (fuel : nat) (r : keyrecord_t) : M keyrecord_t :=
  match fuel with
  | O => mret r
  | S fuel =>
      if IS_NOEVENT (event r) then mret r else
      kc ← core (get_record_keycode r true);
      q ← process_achordion (process_record_achordion fuel) kc r;
      after_handlers q
  end.
(** ** What Achordion makes of a sequence of keys

    Its decisions as a machine of four phases, which says what is done with the
    core: [TakeKey] and [EagerMods] at the press of a tap-hold key, [HoldKey],
    [TapKey] and [ReleaseKey] of that key, and the other records, [AgainKey]
    given to [process_record] once more, [PassKey] let through, [BlockKey]
    kept from the core. *)

Inductive phase :=
  | Released
  | Unsettled (kc : Z) (r : keyrecord_t) (deadline : Z)
  | Tapped (kc : Z)
  | Held (kc : Z).

Inductive core_call :=
  | TakeKey (r : keyrecord_t)
  | EagerMods (kc : Z)
  | ClearMods
  | HoldKey
  | TapKey
  | PauseKey
  | ReleaseKey
  | AgainKey (kc : Z) (r : keyrecord_t)
  | PassKey (kc : Z) (r : keyrecord_t)
  | BlockKey (r : keyrecord_t).

Inductive input := Event (kc : Z) (r : keyrecord_t) | Task (timer : Z).

Definition phase_of (a : achordion) : phase :=
  match achordion_state a with
  | STATE_UNSETTLED => Unsettled (tap_hold_keycode a) (tap_hold_record a) (hold_timer a)
  | STATE_TAPPING => Tapped (tap_hold_keycode a)
  | STATE_HOLDING => Held (tap_hold_keycode a)
  | STATE_RELEASED | STATE_RECURSING => Released
  end.

Definition clears (kc : Z) (r : keyrecord_t) : list core_call := (if IS_QK_MOD_TAP kc then [ClearMods] else []) ++ [BlockKey r].

Definition step (ph : phase) (i : input) : phase * list core_call :=
  match ph, i with
  | Released, Event kc r =>
      if begins_hold kc r then
        (Unsettled kc r (u16 (time (event r) + achordion_timeout kc)),
         TakeKey r :: (if IS_QK_MOD_TAP kc then [EagerMods kc] else []) ++ [BlockKey r])
      else (Released, [PassKey kc r])
  | Unsettled kc0 r0 d, Event kc r =>
      if (kc =? kc0) && negb (pressed (event r)) then (Released, clears kc r)
      else if pressed (event r) then
        if negb (IS_KEYEVENT (event r)) || is_tap_hold kc && (count (tap r) =? 0) || achordion_chord kc0 r0 kc r
        then (Held kc0, [ClearMods; HoldKey; AgainKey kc r])
        else (Tapped kc0, [ClearMods; TapKey; PauseKey; ReleaseKey; AgainKey kc r])
      else (ph, [PassKey kc r])
  | Tapped kc0, Event kc r =>
      if (kc =? kc0) && negb (pressed (event r)) then (Released, clears kc r) else (ph, [PassKey kc r])
  | Held kc0, Event kc r =>
      if (kc =? kc0) && negb (pressed (event r)) then (Released, [ReleaseKey; BlockKey r]) else (ph, [PassKey kc r])
  | Unsettled kc0 r0 d, Task timer =>
      if timer_expired timer d then (Held kc0, [ClearMods; HoldKey]) else (ph, [])
  | _, Task _ => (ph, [])
  end.

Fixpoint trace (ph : phase) (inputs : list input) : phase * list core_call :=
  match inputs with
  | [] => (ph, [])
  | i :: inputs => let p := step ph i in let q := trace p.1 inputs in (q.1, p.2 ++ q.2)
  end.

(** The record of the tap-hold key, the eager modifiers, and the core. *)
Definition world : Type := keyrecord_t * Z * keyboard.

(** [process_record], when Achordion lets everything through. *)
Definition again (r : keyrecord_t) : stm keyboard keyrecord_t :=
  if IS_NOEVENT (event r) then mret r else
  kc ← get_record_keycode r true;
  process_record 2 r.
Definition blocked (r : keyrecord_t) : stm keyboard unit :=
  active ← gets is_oneshot_layer_active;
  enabled ← gets oneshot_enabled;
  when (active && pressed (event r) && enabled) (clear_oneshot_layer_state ONESHOT_OTHER_KEY_PRESSED).

Definition on_core (m : stm keyboard unit) (w : world) : world := (w.1, exec m w.2).
Definition on_key (f : keyrecord_t -> keyrecord_t) (w : world) : world :=
  let p := again (f w.1.1) w.2 in (p.1, w.1.2, p.2).

Definition run_call (w : world) (c : core_call) : world :=
  match c with
  | TakeKey r => (r, w.1.2, w.2)
  | EagerMods kc =>
      let m := mod_config (keymap_config w.2) (QK_MOD_TAP_GET_MODS kc) in
      if achordion_eager_mod m then (w.1.1, eager_bits m, exec (register_mods (eager_bits m)) w.2) else w
  | ClearMods => (w.1.1, 0, exec (unregister_mods w.1.2) w.2)
  | HoldKey => on_key (fun r => r) w
  | TapKey => on_key as_tap w
  | PauseKey => on_core (send_keyboard_report;; when (0 <? TAP_CODE_DELAY) (emit (WaitMs TAP_CODE_DELAY))) w
  | ReleaseKey => on_key as_release w
  | AgainKey _ r => on_core (r ← again r; blocked r) w
  | PassKey _ r => on_core (process_record 2 r;; mret tt) w
  | BlockKey r => on_core (blocked r) w
  end.

(** An event whose keycode is known, and the task. *)
Definition feed (fuel : nat) (i : input) : M unit :=
  match i with
  | Event kc r => q ← process_achordion (process_record_achordion fuel) kc r; after_handlers q;; mret tt
  | Task timer => achordion_task (process_record_achordion fuel) timer
  end.
Definition feeds (fuel : nat) (inputs : list input) (s : achordion * keyboard) : achordion * keyboard :=
  foldl (fun s i => exec (feed fuel i) s) s inputs.

(** Whether the tap-hold key is down after these calls, unless one of them
    presses it when it is down or releases it when it is up. *)
Definition key_down (down : option bool) (c : core_call) : option bool :=
  match c, down with
  | (HoldKey | TapKey), Some false => Some true
  | (HoldKey | TapKey), _ => None
  | ReleaseKey, Some true => Some false
  | ReleaseKey, _ => None
  | _, _ => down
  end.
Definition is_held (ph : phase) : bool := match ph with Held _ => true | _ => false end.

(** The records of the keys that are no tap-hold keys. *)
Definition plain_input (i : input) : option keyrecord_t :=
  match i with Event kc r => if is_tap_hold kc then None else Some r | Task _ => None end.
Definition plain_call (c : core_call) : option keyrecord_t :=
  match c with AgainKey kc r | PassKey kc r => if is_tap_hold kc then None else Some r | _ => None end.

Definition active_key (ph : phase) : option Z :=
  match ph with Released => None | Unsettled kc _ _ | Tapped kc | Held kc => Some kc end.
Definition phase_ok (ph : phase) : Prop := forall kc, active_key ph = Some kc -> is_tap_hold kc = true.
(** ** The phases are what the code does *)

Definition world_of (s : achordion * keyboard) : world := (tap_hold_record s.1, eager_mods s.1, s.2).

(** [s] has come from phase [ph] and world [w]. *)
Definition agrees (ph : phase) (w : world) (s : achordion * keyboard) : Prop :=
  achordion_state s.1 <> STATE_RECURSING /\ phase_of s.1 = ph /\ world_of s = w.

Lemma run_process n r (a : achordion) k : achordion_state a = STATE_RECURSING ->
  process_record_achordion (S n) r (a, k) = ((again r k).1, (a, (again r k).2)).
Proof.
  intros Ha. cbn [process_record_achordion]. unfold again. destruct (IS_NOEVENT (event r)); [done|].
  rewrite run_core. unfold process_achordion. rewrite run_assoc, run_own. cbn [gets fst snd].
  rewrite bool_decide_true by done. done.
Qed.

Lemma run_recursively n r st (a : achordion) k :
  recursively_process_record (process_record_achordion (S n)) r st (a, k) =
    ((again r k).1, (a <| achordion_state := st |>, (again r k).2)).
Proof.
  unfold recursively_process_record, put_achordion_state. rewrite run_own. cbn [modify fst snd].
  rewrite (run_bind _ _ _ _ _ (run_process n r (a <| achordion_state := STATE_RECURSING |>) k ltac:(by destruct a))).
  rewrite run_own. by destruct a.
Qed.

Lemma run_tap_hold n st (a : achordion) k :
  let q := again (tap_hold_record a) k in
  process_tap_hold (process_record_achordion (S n)) st (a, k) =
    (tt, (a <| achordion_state := st |> <| tap_hold_record := q.1 |>, q.2)).
Proof.
  intros q. unfold process_tap_hold. rewrite run_own. cbn [gets fst snd].
  by rewrite (run_bind _ _ _ _ _ (run_recursively n _ st a k)).
Qed.

Lemma run_clear (a : achordion) k :
  clear_eager_mods (a, k) = (tt, (a <| eager_mods := 0 |>, exec (unregister_mods (eager_mods a)) k)).
Proof.
  unfold clear_eager_mods. rewrite run_own. cbn [gets fst snd]. by rewrite run_core.
Qed.

Lemma run_edit f (a : achordion) k :
  edit_record f (a, k) = (tt, (a <| tap_hold_record := f (tap_hold_record a) |>, k)).
Proof. done. Qed.

Lemma run_when_core {B} (b : bool) m (g : unit -> M B) s :
  (when b (core m) ≫= g) s = g tt (s.1, exec (when b m) s.2).
Proof. destruct s as [a k], b; [|done]. cbn [when]. by rewrite (run_bind _ _ _ _ _ (core_unit m a k)). Qed.

(** Settling the key is what the calls of the machine do. *)
Lemma settle_as_hold_agrees n a k :
  exists a', settle_as_hold (process_record_achordion (S n)) (a, k) =
    (tt, (a', snd (foldl run_call (world_of (a, k)) [ClearMods; HoldKey]))) /\
    achordion_state a' = STATE_HOLDING /\ tap_hold_keycode a' = tap_hold_keycode a /\
    world_of (a', snd (foldl run_call (world_of (a, k)) [ClearMods; HoldKey])) =
      foldl run_call (world_of (a, k)) [ClearMods; HoldKey].
Proof.
  eexists. split; [|split_and!].
  - unfold settle_as_hold. rewrite (run_bind _ _ _ _ _ (run_clear a k)), run_tap_hold. done.
  - done.
  - by destruct a.
  - by destruct a.
Qed.

Lemma settle_as_tap_agrees n a k :
  let cs := [ClearMods; TapKey; PauseKey; ReleaseKey] in
  exists a', settle_as_tap (process_record_achordion (S n)) (a, k) =
    (tt, (a', snd (foldl run_call (world_of (a, k)) cs))) /\
    achordion_state a' = STATE_TAPPING /\ tap_hold_keycode a' = tap_hold_keycode a /\
    world_of (a', snd (foldl run_call (world_of (a, k)) cs)) = foldl run_call (world_of (a, k)) cs.
Proof.
  intros cs. eexists. split; [|split_and!].
  - unfold settle_as_tap. rewrite (run_bind _ _ _ _ _ (run_clear a k)).
    rewrite (run_bind _ _ _ _ _ (run_edit _ _ _)), (run_bind _ _ _ _ _ (run_tap_hold n _ _ _)).
    rewrite (run_bind _ _ _ _ _ (core_unit send_keyboard_report _ _)), run_when_core.
    rewrite (run_bind _ _ _ _ _ (run_edit _ _ _)), run_tap_hold. done.
  - done.
  - by destruct a.
  - by destruct a.
Qed.

Lemma after_blocked r s : exec (after_handlers (false, r);; mret tt) s = (s.1, exec (blocked r) s.2).
Proof.
  destruct s as [a k]. unfold exec, after_handlers, blocked. cbn [fst snd].
  rewrite run_assoc, run_core. cbn [gets fst snd]. rewrite run_assoc, run_core. cbn [gets fst snd].
  rewrite run_assoc, run_when_core. srun. done.
Qed.

Lemma after_passed r s : exec (after_handlers (true, r);; mret tt) s = (s.1, exec (process_record 2 r;; mret tt) s.2).
Proof. done. Qed.

(** Leaving the active key: the release of a key that was not held. *)
Lemma leave_agrees n kc r a k : achordion_state a <> STATE_HOLDING -> achordion_state a <> STATE_RECURSING ->
  achordion_state a <> STATE_RELEASED -> kc = tap_hold_keycode a -> pressed (event r) = false ->
  agrees Released (foldl run_call (world_of (a, k)) (clears kc r)) (exec (feed (S n) (Event kc r)) (a, k)).
Proof.
  intros Hh Hrec Hrel -> Hp. unfold feed. rewrite exec_bind. unfold process_achordion.
  unfold eval at 1, exec at 2. rewrite run_own. cbn [gets fst snd].
  rewrite !bool_decide_false, Z.eqb_refl, Hp by done. cbn [andb negb]. unfold clears.
  destruct (IS_QK_MOD_TAP _); cbn [when app].
  - rewrite (run_bind _ _ _ _ _ (run_clear a k)). unfold put_achordion_state. rewrite run_own. cbn [modify mret stm_ret fst snd].
    rewrite after_blocked. by destruct a.
  - srun. unfold put_achordion_state. rewrite run_own. cbn [modify mret stm_ret fst snd].
    rewrite after_blocked. by destruct a.
Qed.

Lemma feed_event n kc r q s s' : process_achordion (process_record_achordion n) kc r s = (q, s') ->
  exec (feed n (Event kc r)) s = exec (after_handlers q;; mret tt) s'.
Proof. intros E. unfold feed, exec. by rewrite (run_bind _ _ _ _ _ E). Qed.

(** Pressing another key settles the active one, and the key follows it. *)
Lemma settle_agrees n kc r a k : achordion_state a = STATE_UNSETTLED -> pressed (event r) = true ->
  let p := step (phase_of a) (Event kc r) in
  agrees p.1 (foldl run_call (world_of (a, k)) p.2) (exec (feed (S n) (Event kc r)) (a, k)).
Proof.
  intros Ha Hp. unfold phase_of. rewrite Ha. cbn [step]. rewrite Hp, andb_false_r.
  fold (is_chord a kc r).
  set (ph := if is_chord a kc r then Held (tap_hold_keycode a) else Tapped (tap_hold_keycode a)).
  set (cs := if is_chord a kc r then [ClearMods; HoldKey] else [ClearMods; TapKey; PauseKey; ReleaseKey]).
  assert ((if is_chord a kc r then (Held (tap_hold_keycode a), [ClearMods; HoldKey; AgainKey kc r])
    else (Tapped (tap_hold_keycode a), [ClearMods; TapKey; PauseKey; ReleaseKey; AgainKey kc r])) =
    (ph, cs ++ [AgainKey kc r])) as -> by (unfold ph, cs; by destruct is_chord).
  cbn [fst snd]. rewrite foldl_app.
  assert (exists a', (if is_chord a kc r then settle_as_hold (process_record_achordion (S n))
      else settle_as_tap (process_record_achordion (S n))) (a, k) = (tt, (a', snd (foldl run_call (world_of (a, k)) cs))) /\
    achordion_state a' <> STATE_RECURSING /\ phase_of a' = ph /\
    world_of (a', snd (foldl run_call (world_of (a, k)) cs)) = foldl run_call (world_of (a, k)) cs) as (a' & E & Ha' & Hph & Hw).
  { unfold ph, cs, phase_of. destruct (is_chord a kc r).
    - destruct (settle_as_hold_agrees n a k) as (a' & E & Hs & Hk & Hw). exists a'. rewrite Hs, Hk. by split_and!.
    - destruct (settle_as_tap_agrees n a k) as (a' & E & Hs & Hk & Hw). exists a'. rewrite Hs, Hk. by split_and!. }
  set (w := foldl run_call (world_of (a, k)) cs) in *. clearbody w cs.
  rewrite (feed_event (S n) kc r (false, (again r w.2).1) (a, k) (a' <| achordion_state := achordion_state a' |>, (again r w.2).2)).
  - rewrite after_blocked. unfold agrees. split_and!; [by destruct a'| |].
    + rewrite <- Hph. by destruct a'.
    + rewrite <- Hw. unfold world_of. cbn [foldl run_call on_core fst snd]. unfold on_core. cbn [fst snd].
      rewrite exec_bind. by destruct a'.
  - unfold process_achordion. rewrite run_own. cbn [gets fst snd]. rewrite Ha, Hp, andb_false_r.
    rewrite !bool_decide_false, bool_decide_true by done. cbn [andb].
    rewrite (run_bind _ _ _ _ _ E), run_own. cbn [gets fst snd].
    by rewrite (run_bind _ _ _ _ _ (run_recursively n r _ a' w.2)).
Qed.

Lemma run_begin_hold kc r (a : achordion) k :
  let m := mod_config (keymap_config k) (QK_MOD_TAP_GET_MODS kc) in
  let a' := a <| achordion_state := STATE_UNSETTLED |> <| tap_hold_keycode := kc |> <| tap_hold_record := r |>
              <| hold_timer := u16 (time (event r) + achordion_timeout kc) |> in
  begin_hold kc r (a, k) =
    (tt, if IS_QK_MOD_TAP kc && achordion_eager_mod m
         then (a' <| eager_mods := eager_bits m |>, exec (register_mods (eager_bits m)) k) else (a', k)).
Proof.
  intros m a'. unfold begin_hold. rewrite run_own, run_core. cbn [gets modify fst snd]. fold m a'.
  destruct (_ && _); [|done]. cbn [when]. by rewrite run_own, core_unit.
Qed.

Lemma begin_agrees n kc r a k : achordion_state a = STATE_RELEASED ->
  let p := step (phase_of a) (Event kc r) in
  agrees p.1 (foldl run_call (world_of (a, k)) p.2) (exec (feed (S n) (Event kc r)) (a, k)).
Proof.
  intros Ha. unfold phase_of. rewrite Ha. cbn [step].
  destruct (begins_hold kc r) eqn:Eb; cbn [fst snd].
  - pose proof (run_begin_hold kc r a k) as E. cbv zeta in E.
    erewrite feed_event; [rewrite after_blocked|].
    2: { unfold process_achordion. rewrite run_own. cbn [gets fst snd]. rewrite Ha, Eb.
         rewrite bool_decide_false, bool_decide_true by done. by rewrite (run_bind _ _ _ _ _ E). }
    destruct (IS_QK_MOD_TAP kc); cbn [andb app foldl run_call world_of fst snd]; [|done].
    by destruct (achordion_eager_mod _).
  - rewrite (feed_event (S n) kc r (true, r) (a, k) (a, k)).
    + rewrite after_passed. unfold agrees, phase_of. cbn [fst snd]. by rewrite Ha.
    + unfold process_achordion. rewrite run_own. cbn [gets fst snd]. by rewrite Ha, Eb.
Qed.

(** One event or task. *)
Lemma step_agrees n i a k : achordion_state a <> STATE_RECURSING ->
  let p := step (phase_of a) i in
  agrees p.1 (foldl run_call (world_of (a, k)) p.2) (exec (feed (S n) i) (a, k)).
Proof.
  intros Hrec. destruct i as [kc r|timer].
  - destruct (decide (achordion_state a = STATE_RELEASED)) as [Hrel|Hrel]; [by apply begin_agrees|].
    destruct ((kc =? tap_hold_keycode a) && negb (pressed (event r))) eqn:El.
    + apply andb_true_iff in El as [Ekc Ep].
      apply Z.eqb_eq in Ekc as Ekc'. apply negb_true_iff in Ep as Ep'.
      destruct (decide (achordion_state a = STATE_HOLDING)) as [Hh|Hh].
      * unfold phase_of. rewrite Hh. cbn [step]. rewrite Ekc, Ep. cbn [andb fst snd].
        rewrite (feed_event (S n) kc r (false, r) (a, k)
          (let q := again (as_release (tap_hold_record a)) k in
           (a <| achordion_state := STATE_RELEASED |> <| tap_hold_record := q.1 |>, q.2))).
        { rewrite after_blocked. by destruct a. }
        unfold process_achordion. rewrite run_own. cbn [gets fst snd]. rewrite Hh, Ekc, Ep.
        rewrite !bool_decide_false, bool_decide_true by done. cbn [andb].
        rewrite run_assoc, (run_bind _ _ _ _ _ (run_edit _ _ _)), (run_bind _ _ _ _ _ (run_tap_hold n _ _ _)).
        unfold put_achordion_state. rewrite run_own. by destruct a.
      * pose proof (leave_agrees n kc r a k Hh Hrec Hrel Ekc' Ep') as H. unfold phase_of.
        destruct (achordion_state a); try done; cbn [step]; by rewrite Ekc, Ep.
    + destruct (decide (achordion_state a = STATE_UNSETTLED /\ pressed (event r) = true)) as [[Hu Hp]|Hn];
        [by apply settle_agrees|].
      rewrite (feed_event (S n) kc r (true, r) (a, k) (a, k)).
      * rewrite after_passed. unfold agrees, phase_of. cbn [fst snd].
        destruct (achordion_state a); try done; cbn [step]; rewrite El; [|done|done].
        destruct (pressed (event r)); [by destruct Hn|done].
      * unfold process_achordion. rewrite run_own. cbn [gets fst snd].
        rewrite bool_decide_false, bool_decide_false, El by done.
        case_bool_decide; [|done]. destruct (pressed (event r)); [by destruct Hn|done].
  - unfold feed, achordion_task. unfold exec. rewrite run_own. cbn [gets fst snd].
    case_bool_decide as Hu; cbn [andb when].
    + unfold phase_of. rewrite Hu. cbn [step]. destruct (timer_expired timer (hold_timer a)); cbn [when].
      * destruct (settle_as_hold_agrees n a k) as (a' & E & Hs & Hk & Hw). rewrite E. cbn [fst snd].
        unfold agrees, phase_of. cbn [fst snd]. by rewrite Hs, Hk.
      * unfold agrees, phase_of. cbn [fst snd skip mret stm_ret]. by rewrite Hu.
    + unfold agrees, phase_of. cbn [fst snd skip mret stm_ret]. by destruct (achordion_state a).
Qed.

(** *** The machine keeps the keys in order *)

Lemma step_keeps ph i : phase_ok ph ->
  let p := step ph i in
  phase_ok p.1 /\ foldl key_down (Some (is_held ph)) p.2 = Some (is_held p.1) /\
  omap plain_call p.2 = omap plain_input [i].
Proof.
  intros Hok.
  assert (forall kc0, active_key ph = Some kc0 -> forall kc, (kc =? kc0) = true -> is_tap_hold kc = true) as Hact.
  { intros kc0 E kc ->%Z.eqb_eq. by apply Hok. }
  assert (forall kc r, begins_hold kc r = true -> is_tap_hold kc = true) as Hbegin.
  { intros kc r. unfold begins_hold. by destruct (is_tap_hold kc). }
  destruct ph as [|kc0 r0 d|kc0|kc0], i as [kc r|timer]; cbn [step active_key] in *;
    try specialize (Hact kc0 eq_refl); try (by split_and!).
  - specialize (Hbegin kc r). destruct (begins_hold kc r); cbn [fst snd].
    + split; [by intros ? [= <-]; apply Hbegin|].
      cbn [omap list_omap plain_input]. rewrite Hbegin by done. by destruct (IS_QK_MOD_TAP kc).
    + cbn [omap list_omap plain_call plain_input]. by destruct (is_tap_hold kc).
  - specialize (Hact kc). destruct (kc =? kc0); cbn [andb].
    + destruct (pressed (event r)); cbn [negb andb].
      * rewrite Hact by done. destruct (_ || _); cbn [fst snd]; (split; [done|]);
          cbn [omap list_omap plain_call plain_input foldl key_down]; by rewrite Hact.
      * unfold clears. cbn [fst snd]. split; [done|].
        cbn [omap list_omap plain_input]. rewrite Hact by done. by destruct (IS_QK_MOD_TAP kc).
    + destruct (pressed (event r)).
      * destruct (_ || _); cbn [fst snd]; (split; [done|]);
          cbn [omap list_omap plain_call plain_input foldl key_down]; by destruct (is_tap_hold kc).
      * split; [done|]. cbn [fst snd omap list_omap plain_call plain_input]. by destruct (is_tap_hold kc).
  - destruct (timer_expired timer d); by split_and!.
  - specialize (Hact kc). destruct (kc =? kc0) eqn:E; cbn [andb].
    + destruct (pressed (event r)); cbn [negb andb fst snd]; (split; [done|]); unfold clears;
        cbn [omap list_omap plain_call plain_input]; rewrite Hact by done; by destruct (IS_QK_MOD_TAP kc).
    + split; [done|]. cbn [fst snd omap list_omap plain_call plain_input]. by destruct (is_tap_hold kc).
  - specialize (Hact kc). destruct (kc =? kc0) eqn:E; cbn [andb].
    + destruct (pressed (event r)); cbn [negb andb fst snd]; (split; [done|]);
        cbn [omap list_omap plain_call plain_input]; by rewrite Hact.
    + split; [done|]. cbn [fst snd omap list_omap plain_call plain_input]. by destruct (is_tap_hold kc).
Qed.

Lemma trace_keeps inputs ph : phase_ok ph ->
  let p := trace ph inputs in
  phase_ok p.1 /\ foldl key_down (Some (is_held ph)) p.2 = Some (is_held p.1) /\
  omap plain_call p.2 = omap plain_input inputs.
Proof.
  revert ph. induction inputs as [|i inputs IH]; intros ph Hph; [done|]. cbv zeta. cbn [trace].
  destruct (step_keeps ph i Hph) as (Hok & Hdown & Hplain).
  destruct (IH _ Hok) as (Hok' & Hdown' & Hplain'). cbn [fst snd]. split_and!; [done| |].
  - by rewrite foldl_app, Hdown.
  - by rewrite omap_app, Hplain, Hplain', <- omap_app.
Qed.

(** Eager modifiers are those of a mod-tap key that waits. *)
Definition eager_ok (ph : phase) (w : world) : Prop :=
  w.1.2 <> 0 -> match ph with Unsettled kc _ _ => IS_QK_MOD_TAP kc = true | _ => False end.

Lemma step_eager ph i w : eager_ok ph w -> let p := step ph i in eager_ok p.1 (foldl run_call w p.2).
Proof.
  unfold eager_ok. intros Hok. destruct ph as [|kc0 r0 d|kc0|kc0], i as [kc r|timer]; cbn [step]; try done.
  - destruct (begins_hold kc r); [|done]. cbn [fst snd foldl]. destruct (IS_QK_MOD_TAP kc); [done|].
    intros H. by destruct (Hok H).
  - destruct (kc =? kc0) eqn:E; cbn [andb].
    + apply Z.eqb_eq in E as ->. destruct (pressed (event r)); cbn [negb].
      * by destruct (_ || _).
      * unfold clears. cbn [fst snd]. destruct (IS_QK_MOD_TAP kc0) eqn:Em; [done|].
        cbn [app foldl run_call on_core fst snd]. intros H. by specialize (Hok H).
    + destruct (pressed (event r)); [|done]. by destruct (_ || _).
  - by destruct (timer_expired timer d).
  - destruct (_ && _); [|done]. unfold clears. cbn [fst snd]. by destruct (IS_QK_MOD_TAP kc).
  - by destruct (_ && _).
Qed.

Lemma trace_eager inputs ph w : eager_ok ph w -> let p := trace ph inputs in eager_ok p.1 (foldl run_call w p.2).
Proof.
  revert ph w. induction inputs as [|i inputs IH]; intros ph w Hok; [done|]. cbn [trace fst snd].
  rewrite foldl_app. by apply IH, step_eager.
Qed.

Lemma trace_agrees n inputs a k : achordion_state a <> STATE_RECURSING ->
  let p := trace (phase_of a) inputs in
  agrees p.1 (foldl run_call (world_of (a, k)) p.2) (feeds (S n) inputs (a, k)).
Proof.
  revert a k. induction inputs as [|i inputs IH]; intros a k Ha; [done|].
  destruct (step_agrees n i a k Ha) as (Ha' & Hph & Hw). cbn [trace feeds foldl fst snd].
  destruct (exec (feed (S n) i) (a, k)) as [a' k'] eqn:E. cbn [fst snd] in *.
  rewrite foldl_app, <- Hph, <- Hw. by apply IH.
Qed.

(** C39: What Achordion does with a sequence of keys, with recursion of any depth
    from one on, is what a machine of four phases says: the core and the record
    of the tap-hold key are as its calls leave them.  These press the tap-hold
    key only when it is up and release it only when it is down, it is down at
    the end exactly when it is held; every key that is no tap-hold key
    reaches [process_record] once, in the order of the events; eager modifiers
    are down only while a mod-tap key waits. *)
Theorem achordion_refines n inputs k :
  let '(ph, calls) := trace Released inputs in
  let s := feeds (S n) inputs (achordion_at_start, k) in
  phase_of s.1 = ph /\ world_of s = foldl run_call (record_0, 0, k) calls /\
  foldl key_down (Some false) calls = Some (is_held ph) /\
  omap plain_call calls = omap plain_input inputs /\
  (eager_mods s.1 = 0 \/ exists kc r deadline, ph = Unsettled kc r deadline /\ IS_QK_MOD_TAP kc = true).
Proof.
  pose proof (trace_keeps inputs Released) as Ht.
  pose proof (trace_eager inputs Released (record_0, 0, k)) as He. pose proof (trace_agrees n inputs achordion_at_start k) as (_ & Hph & Hw); [done|].
  cbn [phase_of achordion_at_start achordion_state] in Hph, Hw.
  change (world_of (achordion_at_start, k)) with ((record_0, 0, k) : world) in Hw.
  destruct (trace Released inputs) as [ph calls]. destruct Ht as (_ & Hd & Hp); [done|]. split_and!; try done.
  cbn [fst snd] in Hw, He. destruct (decide (eager_mods (feeds (S n) inputs (achordion_at_start, k)).1 = 0)) as [Hz|Hz]; [by left|].
  right. unfold eager_ok in He. rewrite <- Hw in He. specialize (He ltac:(done) Hz).
  destruct ph as [|kc r d| |]; try done. by exists kc, r, d.
Qed.

End achordion.

(** ** The defaults of the callbacks *)

Section defaults.
Context `{CF : Config} (SPLIT_KEYBOARD : bool).

Definition on_left_hand (pos : keypos_t) : bool :=
  if SPLIT_KEYBOARD then row pos <? MATRIX_ROWS `div` 2
  else if MATRIX_ROWS <? MATRIX_COLS then col pos <? MATRIX_COLS `div` 2 else row pos <? MATRIX_ROWS `div` 2.
Definition achordion_opposite_hands (r other : keyrecord_t) : bool :=
  negb (Bool.eqb (on_left_hand (key (event r))) (on_left_hand (key (event other)))).
Definition achordion_chord_default (kc : Z) (r : keyrecord_t) (other_kc : Z) (other : keyrecord_t) : bool :=
  achordion_opposite_hands r other.
Definition achordion_timeout_default (kc : Z) : Z := 1000.
Definition achordion_eager_mod_default (m : Z) : bool := Z.land m (Z.lor MOD_LALT MOD_LGUI) =? 0.
End defaults.
