(* ===== verification/AutoShift.v ===== *)
(** * Auto Shift (quantum/process_keycode/process_auto_shift.c)

    A key held for long types its shifted self.  The key is typed when it is
    released, when another key is pressed, or, by [autoshift_matrix_scan], when
    the timeout is over.  Builds without RETRO_SHIFT and Caps Word. *)

From S2P Require Import Prelude.
From S2P Require Import Keycodes.
From S2P Require Import Report.
From S2P Require Import State.
From S2P Require Import ActionUtil.
From S2P Require Import Oneshot.
From S2P Require Import Action.
From S2P Require Import SendString.
From S2P Require Import ActionUtilSpec.
From S2P Require Import TypingSpec.
From S2P Require Import Feature.
From S2P Require Import Quantum.

Record auto_shift := {
  autoshift_time : Z;
  autoshift_timeout : Z;
  autoshift_lastkey : Z;
  autoshift_lastrecord : keyrecord_t;
  autoshift_shift_states : list Z;
  enabled : bool;
  lastshifted : bool;
  in_progress : bool;
  holding_shift : bool;
  cancelling_lshift : bool;
  cancelling_rshift : bool;
  u16_str : number_str;               (* of [get_u16_str] *)
}.

Class AutoShiftConfig := {
  AUTO_SHIFT_TIMEOUT : Z;
  AUTO_SHIFT_DISABLED_AT_STARTUP : bool;
  AUTO_SHIFT_MODIFIERS : bool;
  AUTO_SHIFT_REPEAT : bool;
  AUTO_SHIFT_REPEAT_PER_KEY : bool;
  AUTO_SHIFT_NO_AUTO_REPEAT : bool;
  AUTO_SHIFT_NO_AUTO_REPEAT_PER_KEY : bool;
  AUTO_SHIFT_TIMEOUT_PER_KEY : bool;
  AUTO_SHIFT_NO_SETUP : bool;
  SEND_STRING_ENABLE : bool;
  get_auto_shifted_key : Z -> keyrecord_t -> bool;
  get_auto_shift_repeat : Z -> keyrecord_t -> bool;
  get_auto_shift_no_auto_repeat : Z -> keyrecord_t -> bool;
  get_autoshift_timeout : Z -> keyrecord_t -> Z -> Z;      (* the last argument is [autoshift_timeout] *)
  autoshift_press_user : Z -> bool -> keyrecord_t -> stm keyboard unit;
  autoshift_release_user : Z -> bool -> keyrecord_t -> stm keyboard unit;
}.

Definition IS_RETRO (kc : Z) : bool := within QK_MOD_TAP QK_MOD_TAP_MAX kc || within QK_LAYER_TAP QK_LAYER_TAP_MAX kc.

(** ** The weak functions *)

(** Which of the groups of keys are shifted by holding. *)
Record auto_shift_keys := {
  NO_AUTO_SHIFT_ALPHA : bool; NO_AUTO_SHIFT_NUMERIC : bool; NO_AUTO_SHIFT_SPECIAL : bool;
  NO_AUTO_SHIFT_TAB : bool; NO_AUTO_SHIFT_SYMBOLS : bool; AUTO_SHIFT_ENTER : bool;
}.
Definition get_auto_shifted_key_default (groups : auto_shift_keys) (custom : Z -> keyrecord_t -> bool)
    (kc : Z) (r : keyrecord_t) : bool :=
  negb (NO_AUTO_SHIFT_ALPHA groups) && within KC_A KC_Z kc
  || negb (NO_AUTO_SHIFT_NUMERIC groups) && within KC_1 KC_0 kc
  || negb (NO_AUTO_SHIFT_SPECIAL groups) &&
       (negb (NO_AUTO_SHIFT_TAB groups) && (kc =? KC_TAB)
        || negb (NO_AUTO_SHIFT_SYMBOLS groups) && (within KC_MINUS KC_SLASH kc || (kc =? KC_NONUS_BACKSLASH)))
  || AUTO_SHIFT_ENTER groups && (kc =? KC_ENTER)
  || custom kc r.

Section weak.
Context {CF : Config} {HK : Hooks}.

Definition retro_code (kc : Z) : Z := if IS_RETRO kc then Z.land kc 0xFF else kc.
Definition autoshift_press_user_default (kc : Z) (shifted : bool) (r : keyrecord_t) : stm keyboard unit :=
  when shifted (add_weak_mods (MOD_BIT KC_LEFT_SHIFT));;
  register_code16 (retro_code kc).
Definition autoshift_release_user_default (kc : Z) (shifted : bool) (r : keyrecord_t) : stm keyboard unit :=
  unregister_code16 (retro_code kc).
End weak.

(** ** The shift states of the 256 keys *)

Definition shift_state_bit (kc : Z) : Z := u16 (Z.shiftl 1 (kc mod 16)).
Definition put_shift_state (kc : Z) (shifted : bool) (states : list Z) : list Z :=
  let kc := Z.land kc 0xFF in
  let i := Z.to_nat (kc / 16) in
  let w := default 0 (states !! i) in
  <[i := if shifted then Z.lor w (shift_state_bit kc) else clear_bits w (shift_state_bit kc)]> states.
Definition shift_state (kc : Z) (states : list Z) : bool :=
  let kc := Z.land kc 0xFF in
  nz (Z.land (default 0 (states !! Z.to_nat (kc / 16))) (shift_state_bit kc)).

Section auto_shift.
Context {CF : Config} {HK : Hooks} {ST : SendStringTables} {AS : AutoShiftConfig}.
Abbreviation M := (stm (auto_shift * keyboard)).

Definition auto_shift_at_start : auto_shift := {|
  autoshift_time := 0; autoshift_timeout := AUTO_SHIFT_TIMEOUT; autoshift_lastkey := KC_NO;
  autoshift_lastrecord := record_0; autoshift_shift_states := replicate 16 0;
  enabled := negb AUTO_SHIFT_DISABLED_AT_STARTUP; lastshifted := false; in_progress := false;
  holding_shift := false; cancelling_lshift := false; cancelling_rshift := false;
  u16_str := number_str_0 6;
|}.

Definition upd_auto_shift (f : auto_shift -> auto_shift) : M unit := own (modify f).
Definition auto_shift_vars : M auto_shift := own (gets (fun s => s)).

Definition set_autoshift_shift_state (kc : Z) (shifted : bool) : M unit :=
  upd_auto_shift (fun s => s <| autoshift_shift_states := put_shift_state kc shifted (autoshift_shift_states s) |>).
Definition get_autoshift_shift_state (kc : Z) : M bool :=
  own (gets (fun s => shift_state kc (autoshift_shift_states s))).

Definition autoshift_flush_shift : M unit :=
  upd_auto_shift (fun s => s <| holding_shift := false |>);;
  core (del_weak_mods (MOD_BIT KC_LEFT_SHIFT));;
  s ← auto_shift_vars;
  when (cancelling_lshift s) (
    upd_auto_shift (fun s => s <| cancelling_lshift := false |>);;
    core (add_mods (MOD_BIT KC_LEFT_SHIFT)));;
  when (cancelling_rshift s) (
    upd_auto_shift (fun s => s <| cancelling_rshift := false |>);;
    core (add_mods (MOD_BIT KC_RIGHT_SHIFT)));;
  core send_keyboard_report.

(** The shifts that are down are taken away until [autoshift_flush_shift]. *)
Definition cancel_shifts : M unit :=
  m ← core get_mods;
  when (nz (Z.land m (MOD_BIT KC_LEFT_SHIFT))) (
    upd_auto_shift (fun s => s <| cancelling_lshift := true |>);;
    core (del_mods (MOD_BIT KC_LEFT_SHIFT)));;
  m ← core get_mods;
  when (nz (Z.land m (MOD_BIT KC_RIGHT_SHIFT))) (
    upd_auto_shift (fun s => s <| cancelling_rshift := true |>);;
    core (del_mods (MOD_BIT KC_RIGHT_SHIFT))).

Definition use_oneshot_shift : M unit :=
  o ← core get_oneshot_mods;
  core (set_oneshot_mods (clear_bits o (MOD_BIT KC_LEFT_SHIFT))).

(** Whether a key is pressed again soon enough to repeat. *)
Definition repeats (kc now : Z) (r : keyrecord_t) (s : auto_shift) : bool :=
  (AUTO_SHIFT_REPEAT || AUTO_SHIFT_REPEAT_PER_KEY)
  && (kc =? autoshift_lastkey s)
  && (negb AUTO_SHIFT_REPEAT_PER_KEY || get_auto_shift_repeat (autoshift_lastkey s) r)
  && (if negb AUTO_SHIFT_NO_AUTO_REPEAT || AUTO_SHIFT_NO_AUTO_REPEAT_PER_KEY
      then negb (lastshifted s)
           || AUTO_SHIFT_NO_AUTO_REPEAT_PER_KEY && get_auto_shift_no_auto_repeat (autoshift_lastkey s) r
      else true)
  && (TIMER_DIFF_16 now (autoshift_time s) <? get_tapping_term (autoshift_lastkey s) r).

Definition autoshift_press (kc now : Z) (r : keyrecord_t) : M bool :=
  m ← core get_mods;
  o ← core get_oneshot_mods;
  let others := nz (clear_bits (Z.lor m o) (MOD_BIT KC_LEFT_SHIFT)) in
  when others (upd_auto_shift (fun s => s <| autoshift_lastkey := KC_NO |>));;
  if others && negb AUTO_SHIFT_MODIFIERS then
    set_autoshift_shift_state kc false;;
    core (autoshift_press_user kc false r);;
    use_oneshot_shift;;
    core (clear_oneshot_layer_state ONESHOT_OTHER_KEY_PRESSED);;
    mret false
  else
    upd_auto_shift (fun s => s <| autoshift_lastrecord := r <| event := (event r) <| time := 0 |> |> |>);;
    s ← auto_shift_vars;
    if repeats kc now r s then
      cancel_shifts;;
      core (autoshift_press_user (autoshift_lastkey s) (lastshifted s) r);;
      mret false
    else
      m ← core get_mods;
      o ← core get_oneshot_mods;
      upd_auto_shift (fun s => s <| lastshifted := nz (Z.land (Z.lor m o) (MOD_BIT KC_LEFT_SHIFT)) |>);;
      use_oneshot_shift;;
      upd_auto_shift (fun s => s <| autoshift_lastkey := kc |> <| autoshift_time := now |> <| in_progress := true |>);;
      core (clear_oneshot_layer_state ONESHOT_OTHER_KEY_PRESSED);;
      mret false.

Definition key_timeout (s : auto_shift) (r : keyrecord_t) : Z :=
  if AUTO_SHIFT_TIMEOUT_PER_KEY then get_autoshift_timeout (autoshift_lastkey s) r (autoshift_timeout s)
  else autoshift_timeout s.

(** Whether a key typed by the timeout stays down, to repeat. *)
Definition stays_down (matrix_trigger : bool) (r : keyrecord_t) (s : auto_shift) : bool :=
  (AUTO_SHIFT_REPEAT || AUTO_SHIFT_REPEAT_PER_KEY)
  && (negb AUTO_SHIFT_NO_AUTO_REPEAT || AUTO_SHIFT_NO_AUTO_REPEAT_PER_KEY)
  && matrix_trigger
  && (negb AUTO_SHIFT_REPEAT_PER_KEY || get_auto_shift_repeat (autoshift_lastkey s) r)
  && (negb AUTO_SHIFT_NO_AUTO_REPEAT_PER_KEY || negb (get_auto_shift_no_auto_repeat (autoshift_lastkey s) r)).

Definition autoshift_end (kc now : Z) (matrix_trigger : bool) (r : keyrecord_t) : M unit :=
  s ← auto_shift_vars;
  if in_progress s && ((kc =? autoshift_lastkey s) || (kc =? KC_NO)) then
    let shifted := lastshifted s || (key_timeout s r <=? TIMER_DIFF_16 now (autoshift_time s)) in
    upd_auto_shift (fun s => s <| in_progress := false |> <| lastshifted := shifted |>);;
    set_autoshift_shift_state (autoshift_lastkey s) shifted;;
    cancel_shifts;;
    core (autoshift_press_user (autoshift_lastkey s) shifted r);;
    if stays_down matrix_trigger r s then skip else
    when (0 <? TAP_CODE_DELAY) (core (wait_ms TAP_CODE_DELAY));;
    core (autoshift_release_user (autoshift_lastkey s) shifted r);;
    autoshift_flush_shift;;
    upd_auto_shift (fun s => s <| autoshift_time := now |>)
  else
    shifted ← get_autoshift_shift_state kc;
    core (autoshift_release_user kc shifted r);;
    when (kc =? autoshift_lastkey s) autoshift_flush_shift;;
    upd_auto_shift (fun s => s <| autoshift_time := now |>).

Definition autoshift_matrix_scan : M unit :=
  s ← auto_shift_vars;
  now ← core (gets (fun k => u16 (now k)));
  when (in_progress s && (key_timeout s (autoshift_lastrecord s) <=? TIMER_DIFF_16 now (autoshift_time s)))
    (autoshift_end (autoshift_lastkey s) now true (autoshift_lastrecord s)).

Definition autoshift_toggle : M unit :=
  upd_auto_shift (fun s => s <| enabled := negb (enabled s) |>);; autoshift_flush_shift.
Definition autoshift_enable : M unit := upd_auto_shift (fun s => s <| enabled := true |>).
Definition autoshift_disable : M unit :=
  upd_auto_shift (fun s => s <| enabled := false |>);; autoshift_flush_shift.

Fixpoint skip_spaces (cs : list Z) : list Z :=
  match cs with c :: cs' => if c =? 32 then skip_spaces cs' else cs | [] => [] end.
Definition autoshift_timer_report : M unit :=
  when SEND_STRING_ENABLE (
    s ← auto_shift_vars;
    let q := get_u16_str (autoshift_timeout s) 32 (u16_str s) in
    upd_auto_shift (fun s => s <| u16_str := q.2 |>);;
    core (send_string (skip_spaces q.1));;
    skip).

Definition get_autoshift_state : M bool := own (gets enabled).
Definition get_generic_autoshift_timeout : M Z := own (gets autoshift_timeout).
Definition set_autoshift_timeout (timeout : Z) : M unit :=
  upd_auto_shift (fun s => s <| autoshift_timeout := timeout |>).

Definition change_timeout (d : Z) : M unit :=
  upd_auto_shift (fun s => s <| autoshift_timeout := u16 (autoshift_timeout s + d) |>).

(** The keycodes of Auto Shift itself. *)
Definition auto_shift_keycode (kc : Z) : M unit :=
  if kc =? QK_AUTO_SHIFT_TOGGLE then autoshift_toggle
  else if kc =? QK_AUTO_SHIFT_ON then autoshift_enable
  else if kc =? QK_AUTO_SHIFT_OFF then autoshift_disable
  else if AUTO_SHIFT_NO_SETUP then skip
  else if kc =? QK_AUTO_SHIFT_UP then change_timeout 5
  else if kc =? QK_AUTO_SHIFT_DOWN then change_timeout (-5)
  else when (kc =? QK_AUTO_SHIFT_REPORT) autoshift_timer_report.

Definition end_last_key (now : Z) : M unit :=
  s ← auto_shift_vars; autoshift_end KC_NO now false (autoshift_lastrecord s).

(** What comes after the keycodes that are handled at once. *)
Definition auto_shift_rest (kc now : Z) (r : keyrecord_t) : M bool :=
  on ← get_autoshift_state;
  if negb on then mret true
  else if get_auto_shifted_key kc r then
    if pressed (event r) then autoshift_press kc now r
    else autoshift_end kc now false r;; mret false
  else
    when (pressed (event r)) (upd_auto_shift (fun s => s <| autoshift_lastkey := KC_NO |>));;
    mret true.

Definition process_auto_shift (kc : Z) (r : keyrecord_t) : M bool :=
  now ← core (gets (fun k => u16 (now k)));
  s ← auto_shift_vars;
  if pressed (event r) then
    when (in_progress s) (end_last_key now);;
    auto_shift_keycode kc;;
    if IS_RETRO kc then upd_auto_shift (fun s => s <| autoshift_lastkey := KC_NO |>);; mret true
    else auto_shift_rest kc now r
  else if kc =? KC_LEFT_SHIFT then
    upd_auto_shift (fun s => s <| cancelling_lshift := false |>);; auto_shift_rest kc now r
  else if kc =? KC_RIGHT_SHIFT then
    upd_auto_shift (fun s => s <| cancelling_rshift := false |>);; auto_shift_rest kc now r
  else if IS_RETRO kc then
    when (HOLD_ON_OTHER_KEY_PRESS && in_progress s
          && (negb HOLD_ON_OTHER_KEY_PRESS_PER_KEY || get_hold_on_other_key_press kc r)) (end_last_key now);;
    mret true
  else auto_shift_rest kc now r.
End auto_shift.

(** ** A keyboard of which the host sees everything

    The real and weak modifiers, which are all, the keys that are down, and a
    beginning of what was sent. *)

Section stands.
Context `{CF : Config} `{HK : Hooks}.
Implicit Types (k : keyboard) (n : bool) (r w : Z) (down : Z -> bool) (past : list output).
Hypothesis unbuffered : RING_BUFFERED_6KRO_REPORT_ENABLE = false.
Hypothesis no_override : KEY_OVERRIDE_ENABLE = false.

Record stands n r w down past k : Prop := {
  stands_synced : synced k;
  stands_ok : reports_ok (rep k);
  stands_oneshot : oneshot_mods (mods k) = 0;
  stands_nkro : nkro_active k = n;
  stands_real : real_mods (mods k) = r;
  stands_weak : weak_mods (mods k) = w;
  stands_down : forall key, reportable n key -> key_pressed key k = down key;
  stands_past : past `prefix_of` sent (host k);
}.

Lemma stands_now n r w down past k : stands n r w down past k -> stands n r w down (sent (host k)) k.
Proof. intros []. by split. Qed.

Lemma stands_start k : synced k -> reports_ok (rep k) -> oneshot_mods (mods k) = 0 ->
  stands (nkro_active k) (real_mods (mods k)) (weak_mods (mods k)) (fun key => key_pressed key k) (sent (host k)) k.
Proof. by split. Qed.

Lemma stands_add_mods m n r w down past k : stands n r w down past k -> stands n (Z.lor r m) w down past (exec (add_mods m) k).
Proof. intros []. split; try done. cbn. by f_equal. Qed.
Lemma stands_del_mods m n r w down past k : stands n r w down past k -> stands n (clear_bits r m) w down past (exec (del_mods m) k).
Proof. intros []. split; try done. cbn. by f_equal. Qed.
Lemma stands_add_weak m n r w down past k : stands n r w down past k -> stands n r (Z.lor w m) down past (exec (add_weak_mods m) k).
Proof. intros []. split; try done. cbn. by f_equal. Qed.
Lemma stands_del_weak m n r w down past k : stands n r w down past k -> stands n r (clear_bits w m) down past (exec (del_weak_mods m) k).
Proof. intros []. split; try done. cbn. by f_equal. Qed.

Lemma stands_send n r w down past k : stands n r w down past k ->
  let k' := exec send_keyboard_report k in
  stands n r w down past k' /\ shown k' = (Z.lor r w, report_keys k').
Proof.
  intros [Hs Ho H1 Hn Hr Hw Hd Hp]. cbv zeta.
  pose proof (calm_send no_override _ _ _ (calm_self k Hs Ho H1)) as [_ Hshow].
  pose proof (send_report_sent k Hs) as Hsent.
  pose proof (nkro_active_sent _ _ Hsent) as Hn'. split.
  - split; [apply Hsent|by apply Hsent| |congruence| | | |].
    + destruct Hsent. rewrite sent_oneshot, H1. by destruct (uses_oneshot k).
    + destruct Hsent. congruence.
    + destruct Hsent. congruence.
    + intros key Hkey. rewrite (key_pressed_sent _ _ _ Hsent). by apply Hd.
    + destruct Hsent as [? ? ? ? ? ? ? ? ? ? ? ? ? ? ? (os & -> & _)]. by apply prefix_app_r.
  - rewrite Hshow, Hr, Hw. f_equal. symmetry. apply Hsent.
Qed.

Lemma stands_wait ms n r w down past k : stands n r w down past k -> stands n r w down past (exec (wait_ms ms) k).
Proof.
  intros [Hs Ho H1 Hn Hr Hw Hd Hp]. split; try done.
  - destruct Hs as (? & ? & ?). unfold synced. cbn. split_and!; [done| |].
    + change (view_of_keyboard (last_report (mods k)) = keyboard_shown ((host k) <| sent := sent (host k) ++ [WaitMs ms] |>)).
      by rewrite keyboard_shown_emit.
    + change (view_of_nkro (last_nkro_report (mods k)) = nkro_shown ((host k) <| sent := sent (host k) ++ [WaitMs ms] |>)).
      by rewrite nkro_shown_emit.
  - cbn. by apply prefix_app_r.
Qed.

(** A basic keycode for which there is room. *)
Lemma stands_register c n r w down past k : stands n r w down past k -> plain c -> command_proc c = false ->
  has_room n (rep k) c -> down c = false ->
  let k' := exec (register_code c) k in
  stands n r w (fun key => bool_decide (key = c) || down key) past k' /\ shown k' = (Z.lor r w, report_keys k').
Proof.
  intros Hst Hc Hcmd Hroom Hup. pose proof (plain_reportable c n Hc) as Hrep.
  rewrite (register_code_run c k Hc Hcmd).
  assert (key_pressed c k = false) as -> by (rewrite (stands_down _ _ _ _ _ _ Hst); done).
  apply stands_send. destruct Hst as [Hs Ho H1 Hn Hr Hw Hd Hp].
  destruct (with_key_frame c k) as (Hs' & Ho' & Hn' & Hm' & _ & Hh').
  split; [by apply Hs'|by apply Ho'| | | | | |].
  - by rewrite Hm'.
  - by rewrite Hn'.
  - by rewrite Hm'.
  - by rewrite Hm'.
  - intros key Hkey. rewrite (key_pressed_with unbuffered); [by rewrite Hd|by apply Ho|done|by rewrite Hn|by rewrite Hn].
  - by rewrite Hh'.
Qed.

Lemma stands_unregister c n r w down past k : stands n r w down past k -> plain c ->
  let k' := exec (unregister_code c) k in
  stands n r w (fun key => negb (bool_decide (key = c)) && down key) past k' /\ shown k' = (Z.lor r w, report_keys k').
Proof.
  intros Hst Hc. rewrite (unregister_code_run c k Hc). apply stands_send. destruct Hst as [Hs Ho H1 Hn Hr Hw Hd Hp].
  destruct (without_key_frame c k) as (Hs' & Ho' & Hn' & Hm' & _ & Hh').
  split; [by apply Hs'|by apply Ho'| | | | | |].
  - by rewrite Hm'.
  - by rewrite Hn'.
  - by rewrite Hm'.
  - by rewrite Hm'.
  - intros key Hkey. rewrite (key_pressed_without unbuffered); [by rewrite Hd|by apply Ho|done|by rewrite Hn].
  - by rewrite Hh'.
Qed.

Lemma plain_code16 c : plain c ->
  register_code16 c = (skip;; register_code c) /\ unregister_code16 c = (unregister_code c;; skip) /\ retro_code c = c.
Proof.
  intros Hc%plain_range. unfold register_code16, unregister_code16, do_code16, extract_mod_bits, retro_code, IS_RETRO.
  assert (within QK_MODS QK_MODS_MAX c = false) as ->.
  { unfold within, QK_MODS, QK_MODS_MAX. apply andb_false_iff. rewrite !Z.leb_gt. lia. }
  assert (within QK_MOD_TAP QK_MOD_TAP_MAX c || within QK_LAYER_TAP QK_LAYER_TAP_MAX c = false) as ->.
  { unfold within, QK_MOD_TAP, QK_MOD_TAP_MAX, QK_LAYER_TAP, QK_LAYER_TAP_MAX.
    apply orb_false_iff. split; apply andb_false_iff; rewrite !Z.leb_gt; lia. }
  assert (IS_MODIFIER_KEYCODE c || (c =? KC_NO) = false) as ->.
  { unfold IS_MODIFIER_KEYCODE, within, KC_LEFT_CTRL, KC_RIGHT_GUI, KC_NO. apply orb_false_iff.
    split; [apply andb_false_iff; rewrite !Z.leb_gt; lia|apply Z.eqb_neq; lia]. }
  assert (u8 c = c) as -> by (apply wrap_small; lia). done.
Qed.
End stands.

(** ** What a key types *)

(** The weak functions are not replaced. *)
Class AutoShiftDefault {CF : Config} {HK : Hooks} {AS : AutoShiftConfig} : Prop := {
  press_default : forall kc shifted r, autoshift_press_user kc shifted r = autoshift_press_user_default kc shifted r;
  release_default : forall kc shifted r, autoshift_release_user kc shifted r = autoshift_release_user_default kc shifted r;
}.

Section spec.
Context {CF : Config} {HK : Hooks} {ST : SendStringTables} {AS : AutoShiftConfig} {AD : AutoShiftDefault}.
Implicit Types (s : auto_shift) (k : keyboard) (r : keyrecord_t).
Hypothesis unbuffered : RING_BUFFERED_6KRO_REPORT_ENABLE = false.
Hypothesis no_override : KEY_OVERRIDE_ENABLE = false.

Abbreviation LSHIFT := (MOD_BIT KC_LEFT_SHIFT).
Abbreviation RSHIFT := (MOD_BIT KC_RIGHT_SHIFT).

Definition without_shifts (m : Z) : Z := clear_bits (clear_bits m LSHIFT) RSHIFT.
Definition shift_if (b : bool) : Z := if b then LSHIFT else 0.

Lemma run_upd {B} f (g : unit -> stm (auto_shift * keyboard) B) s k : (upd_auto_shift f ≫= g) (s, k) = g tt (f s, k).
Proof. done. Qed.
Lemma run_vars {B} (g : auto_shift -> stm (auto_shift * keyboard) B) s k : (auto_shift_vars ≫= g) (s, k) = g s (s, k).
Proof. done. Qed.

Lemma clear_none m b : 0 <= b -> nz (Z.land m (bit b)) = false -> clear_bits m (bit b) = m.
Proof.
  intros Hb. rewrite nz_land_bit by done. intros E. apply Z.bits_inj'. intros i Hi.
  rewrite testbit_clear, testbit_bit by done. case_bool_decide; [subst; by rewrite E|apply andb_true_r].
Qed.

Lemma clear_no_lshift m : nz (Z.land m LSHIFT) = false -> clear_bits m LSHIFT = m.
Proof. by apply (clear_none m 1). Qed.
Lemma clear_no_rshift m : nz (Z.land m RSHIFT) = false -> clear_bits m RSHIFT = m.
Proof. by apply (clear_none m 5). Qed.

Lemma shifts_put_back m :
  Z.lor (Z.lor (without_shifts m) (shift_if (nz (Z.land m LSHIFT)))) (if nz (Z.land m RSHIFT) then RSHIFT else 0) = m.
Proof.
  change LSHIFT with (bit 1). change RSHIFT with (bit 5). unfold without_shifts, shift_if.
  change LSHIFT with (bit 1). change RSHIFT with (bit 5).
  rewrite !nz_land_bit by done. apply Z.bits_inj'. intros i Hi.
  rewrite !Z.lor_spec, !testbit_clear by done.
  assert (forall (b : bool) c, 0 <= c -> Z.testbit (if b then bit c else 0) i = b && bool_decide (i = c)) as E.
  { intros [] c Hc; [by rewrite testbit_bit|apply Z.bits_0]. }
  rewrite !E, !testbit_bit by done. do 2 case_bool_decide; subst; try done;
    repeat match goal with |- context [Z.testbit m ?x] => destruct (Z.testbit m x) end; done.
Qed.

Lemma cancel_run s k n m w down past : stands n m w down past k ->
  exists k', cancel_shifts (s, k) =
    (tt, (s <| cancelling_lshift := cancelling_lshift s || nz (Z.land m LSHIFT) |>
            <| cancelling_rshift := cancelling_rshift s || nz (Z.land m RSHIFT) |>, k')) /\
    stands n (without_shifts m) w down past k' /\ rep k' = rep k.
Proof.
  intros Hk. pose proof (stands_real _ _ _ _ _ _ Hk) as Hm.
  set (k1 := if nz (Z.land m LSHIFT) then exec (del_mods LSHIFT) k else k).
  assert (stands n (clear_bits m LSHIFT) w down past k1 /\ rep k1 = rep k) as [Hk1 Hr1].
  { unfold k1. destruct (nz (Z.land m LSHIFT)) eqn:E; [split; [by apply stands_del_mods|done]|].
    by rewrite clear_no_lshift. }
  assert (nz (Z.land (clear_bits m LSHIFT) RSHIFT) = nz (Z.land m RSHIFT)) as Er.
  { change LSHIFT with (bit 1). change RSHIFT with (bit 5). rewrite !nz_land_bit, testbit_clear by done. apply andb_true_r. }
  set (k2 := if nz (Z.land m RSHIFT) then exec (del_mods RSHIFT) k1 else k1).
  exists k2. split; [|].
  - unfold cancel_shifts. rewrite run_core. cbn [fst snd]. change (get_mods k).1 with (real_mods (mods k)). rewrite Hm.
    change (get_mods k).2 with k.
    assert (forall (g : unit -> stm (auto_shift * keyboard) unit),
      (when (nz (Z.land m LSHIFT)) (upd_auto_shift (fun s => s <| cancelling_lshift := true |>);; core (del_mods LSHIFT)) ≫= g) (s, k)
      = g tt (s <| cancelling_lshift := cancelling_lshift s || nz (Z.land m LSHIFT) |>, k1)) as ->.
    { intros g. unfold k1. destruct (nz (Z.land m LSHIFT)); cbn [when].
      - rewrite orb_true_r. done.
      - rewrite orb_false_r. by destruct s. }
    rewrite run_core. cbn [fst snd]. change (get_mods k1).1 with (real_mods (mods k1)). change (get_mods k1).2 with k1.
    rewrite (stands_real _ _ _ _ _ _ Hk1), Er. unfold k2. destruct (nz (Z.land m RSHIFT)); cbn [when].
    + by rewrite orb_true_r.
    + rewrite orb_false_r. by destruct s.
  - unfold without_shifts, k2. destruct (nz (Z.land m RSHIFT)) eqn:E; [split; [by apply stands_del_mods|done]|].
    rewrite clear_no_rshift; [done|]. by rewrite Er.
Qed.

Lemma flush_run s k n m w down past : stands n m w down past k ->
  exists k', autoshift_flush_shift (s, k) =
    (tt, (s <| holding_shift := false |> <| cancelling_lshift := false |> <| cancelling_rshift := false |>, k')) /\
    stands n (Z.lor (Z.lor m (shift_if (cancelling_lshift s))) (if cancelling_rshift s then RSHIFT else 0))
      (clear_bits w LSHIFT) down past k' /\
    shown k' = (Z.lor (Z.lor (Z.lor m (shift_if (cancelling_lshift s))) (if cancelling_rshift s then RSHIFT else 0))
      (clear_bits w LSHIFT), report_keys k').
Proof.
  intros Hk. apply (stands_del_weak LSHIFT) in Hk. set (k0 := exec (del_weak_mods LSHIFT) k) in *.
  set (k1 := if cancelling_lshift s then exec (add_mods LSHIFT) k0 else k0).
  set (k2 := if cancelling_rshift s then exec (add_mods RSHIFT) k1 else k1).
  exists (exec send_keyboard_report k2). split.
  - unfold autoshift_flush_shift, upd_auto_shift, auto_shift_vars.
    rewrite run_own. cbn [modify fst snd]. rewrite run_core. cbn [fst snd]. rewrite run_own. cbn [gets fst snd].
    change (del_weak_mods LSHIFT k).2 with k0. change (cancelling_lshift (s <| holding_shift := false |>)) with (cancelling_lshift s).
    change (cancelling_rshift (s <| holding_shift := false |>)) with (cancelling_rshift s).
    unfold k2, k1. destruct (cancelling_lshift s) eqn:El, (cancelling_rshift s) eqn:Er; cbn [when];
      repeat first [rewrite run_skip | rewrite run_assoc | rewrite run_own | rewrite run_core]; cbn [modify fst snd];
      rewrite core_unit; destruct s; cbn in El, Er; subst; done.
  - apply stands_send; [done|]. unfold shift_if, k2, k1.
    destruct (cancelling_lshift s), (cancelling_rshift s); rewrite ?Z.lor_0_r; by repeat apply stands_add_mods.
Qed.

Lemma press_run c shifted r k n m w down past : stands n m w down past k -> plain c -> command_proc c = false ->
  has_room n (rep k) c -> down c = false ->
  let k' := exec (autoshift_press_user c shifted r) k in
  stands n m (Z.lor w (shift_if shifted)) (fun key => bool_decide (key = c) || down key) past k' /\
  shown k' = (Z.lor m (Z.lor w (shift_if shifted)), report_keys k').
Proof.
  intros Hk Hc Hcmd Hroom Hup. destruct (plain_code16 c Hc) as (E1 & _ & E3).
  rewrite press_default. unfold autoshift_press_user_default. rewrite E3, E1, !exec_bind.
  change (exec skip ?k) with k. apply stands_register; try done; destruct shifted; cbn [when shift_if].
  - by apply stands_add_weak.
  - by rewrite Z.lor_0_r.
  - done.
  - done.
Qed.

Lemma release_run c shifted r k n m w down past : stands n m w down past k -> plain c ->
  let k' := exec (autoshift_release_user c shifted r) k in
  stands n m w (fun key => negb (bool_decide (key = c)) && down key) past k'.
Proof.
  intros Hk Hc. destruct (plain_code16 c Hc) as (_ & E2 & E3).
  rewrite release_default. unfold autoshift_release_user_default. rewrite E3, E2, exec_bind.
  apply (stands_unregister unbuffered no_override c n m w down past k Hk Hc).
Qed.

Lemma clear_shift_if w b : clear_bits (Z.lor w (shift_if b)) LSHIFT = clear_bits w LSHIFT.
Proof.
  destruct b; cbn [shift_if]; [|by rewrite Z.lor_0_r]. apply Z.bits_inj'. intros i Hi.
  rewrite !testbit_clear, Z.lor_spec by done. by destruct (Z.testbit w i), (Z.testbit LSHIFT i).
Qed.

Lemma stands_same_keys n m w down down' past k : stands n m w down past k ->
  (forall key, reportable n key -> down key = down' key) -> stands n m w down' past k.
Proof. intros [] E. split; try done. intros key Hkey. rewrite <- E by done. by apply stands_down0. Qed.

(** The key that waits is typed, with Shift if it has waited long enough or
    Shift was down when it was pressed, and without the shifts that are down
    now, which are put back. *)
Lemma end_types s k kc now mt r n m w down past :
  in_progress s = true -> (kc =? autoshift_lastkey s) || (kc =? KC_NO) = true -> stays_down mt r s = false ->
  cancelling_lshift s = false -> cancelling_rshift s = false ->
  plain (autoshift_lastkey s) -> command_proc (autoshift_lastkey s) = false ->
  has_room n (rep k) (autoshift_lastkey s) -> down (autoshift_lastkey s) = false -> stands n m w down past k ->
  let shifted := lastshifted s || (key_timeout s r <=? TIMER_DIFF_16 now (autoshift_time s)) in
  exists s' k1 k', autoshift_end kc now mt r (s, k) = (tt, (s', k')) /\
    in_progress s' = false /\ lastshifted s' = shifted /\
    shown k1 = (Z.lor (without_shifts m) (Z.lor w (shift_if shifted)), report_keys k1) /\
    (forall key, reportable n key -> key_pressed key k1 = bool_decide (key = autoshift_lastkey s) || down key) /\
    past `prefix_of` sent (host k1) /\ sent (host k1) `prefix_of` sent (host k') /\ nkro_active k1 = n /\
    shown k' = (Z.lor m (clear_bits w LSHIFT), report_keys k') /\
    stands n m (clear_bits w LSHIFT) down past k'.
Proof.
  intros Hip Hkc Hsd Hl Hr Hc Hcmd Hroom Hup Hk shifted. set (c := autoshift_lastkey s) in *.
  set (s1 := s <| in_progress := false |> <| lastshifted := shifted |>
               <| autoshift_shift_states := put_shift_state c shifted (autoshift_shift_states s) |>).
  destruct (cancel_run s1 k n m w down past Hk) as (k0 & E0 & Hk0 & Hrep).
  assert (cancelling_lshift s1 = false) as El by done. assert (cancelling_rshift s1 = false) as Er by done.
  rewrite El, Er in E0. cbn [orb] in E0. set (s2 := s1 <| cancelling_lshift := _ |> <| cancelling_rshift := _ |>) in E0.
  destruct (press_run c shifted r k0 n _ w down past Hk0 Hc Hcmd) as [Hk1 Hshow1]; [by rewrite Hrep|done|].
  set (k1 := exec (autoshift_press_user c shifted r) k0) in *.
  pose proof (stands_now _ _ _ _ _ _ Hk1) as Hk1'.
  set (k2 := exec (when (0 <? TAP_CODE_DELAY) (wait_ms TAP_CODE_DELAY)) k1).
  assert (forall p, stands n (without_shifts m) (Z.lor w (shift_if shifted)) (fun key => bool_decide (key = c) || down key) p k1 ->
    stands n (without_shifts m) (Z.lor w (shift_if shifted)) (fun key => bool_decide (key = c) || down key) p k2) as Hwait.
  { intros p Hp. unfold k2. destruct (0 <? TAP_CODE_DELAY); [by apply stands_wait|done]. }
  set (k3 := exec (autoshift_release_user c shifted r) k2).
  assert (forall p, stands n (without_shifts m) (Z.lor w (shift_if shifted)) (fun key => bool_decide (key = c) || down key) p k1 ->
    stands n (without_shifts m) (Z.lor w (shift_if shifted)) down p k3) as Hrel.
  { intros p Hp. eapply stands_same_keys; [apply release_run; [by apply Hwait|done]|].
    intros key _. cbn beta. case_bool_decide; [subst; by rewrite Hup|done]. }
  destruct (flush_run s2 k3 n _ _ down _ (Hrel _ Hk1')) as (k' & E' & Hk' & Hshow').
  destruct (flush_run s2 k3 n _ _ down _ (Hrel _ Hk1)) as (k'' & E'' & Hk'' & _).
  rewrite E' in E''. injection E'' as <-.
  assert (Z.lor (Z.lor (without_shifts m) (shift_if (cancelling_lshift s2))) (if cancelling_rshift s2 then RSHIFT else 0) = m)
    as Em by apply shifts_put_back.
  rewrite Em, clear_shift_if in Hk', Hk'', Hshow'.
  eexists _, k1, k'. split; [|split_and!].
  - unfold autoshift_end. rewrite run_vars, Hip. fold c. rewrite Hkc. cbn [andb].
    fold shifted. unfold set_autoshift_shift_state. rewrite !run_upd.
    change (s <| in_progress := false |> <| lastshifted := shifted |>
      <| autoshift_shift_states := put_shift_state c shifted (autoshift_shift_states (s <| in_progress := false |> <| lastshifted := shifted |>)) |>)
      with s1. rewrite (run_bind _ _ _ _ _ E0), (run_bind _ _ _ _ _ (core_unit (autoshift_press_user c shifted r) s2 k0)).
    fold k1. rewrite Hsd.
    assert (forall (g : unit -> stm (auto_shift * keyboard) unit),
      (when (0 <? TAP_CODE_DELAY) (core (wait_ms TAP_CODE_DELAY)) ≫= g) (s2, k1) = g tt (s2, k2)) as ->.
    { intros g. unfold k2. destruct (0 <? TAP_CODE_DELAY); cbn [when]; [|done].
      by rewrite (run_bind _ _ _ _ _ (core_unit (wait_ms TAP_CODE_DELAY) s2 k1)). }
    rewrite (run_bind _ _ _ _ _ (core_unit (autoshift_release_user c shifted r) s2 k2)). fold k3.
    rewrite (run_bind _ _ _ _ _ E'). reflexivity.
  - done.
  - done.
  - done.
  - apply Hk1.
  - apply Hk1.
  - apply Hk'.
  - apply Hk1.
  - done.
  - done.
Qed.

Lemma plain_no_setup kc : plain kc -> auto_shift_keycode kc = skip /\ IS_RETRO kc = false /\
  kc <> KC_LEFT_SHIFT /\ kc <> KC_RIGHT_SHIFT.
Proof.
  intros Hc. pose proof (plain_range kc Hc) as Hr. split_and!; [| |unfold KC_LEFT_SHIFT; lia|unfold KC_RIGHT_SHIFT; lia].
  - unfold auto_shift_keycode, QK_AUTO_SHIFT_TOGGLE, QK_AUTO_SHIFT_ON, QK_AUTO_SHIFT_OFF, QK_AUTO_SHIFT_UP,
      QK_AUTO_SHIFT_DOWN, QK_AUTO_SHIFT_REPORT.
    repeat (rewrite (proj2 (Z.eqb_neq kc _)) by lia). by destruct AUTO_SHIFT_NO_SETUP.
  - unfold IS_RETRO, within, QK_MOD_TAP, QK_MOD_TAP_MAX, QK_LAYER_TAP, QK_LAYER_TAP_MAX.
    apply orb_false_iff. split; apply andb_false_iff; rewrite !Z.leb_gt; lia.
Qed.

Lemma no_oneshot_kept k : oneshot_mods (mods k) = 0 -> oneshot_data k = 0 ->
  let k' := exec (set_oneshot_mods (clear_bits (oneshot_mods (mods k)) LSHIFT);;
                  clear_oneshot_layer_state ONESHOT_OTHER_KEY_PRESSED) k in host k' = host k.
Proof.
  intros Ho Hd. cbv zeta. rewrite exec_bind, Ho. change (clear_bits 0 LSHIFT) with 0.
  assert (exec (set_oneshot_mods 0) k = k) as ->.
  { unfold set_oneshot_mods, exec. rewrite run_gets. destruct (oneshot_enable _); cbn [when]; [|done].
    unfold get_oneshot_mods. rewrite run_gets, Ho. done. }
  unfold clear_oneshot_layer_state, exec. rewrite run_gets, Hd. change (clear_bits 0 ONESHOT_OTHER_KEY_PRESSED) with 0.
  unfold put_oneshot_data, upd_layers, get_oneshot_layer_state. rewrite run_modify, !run_gets. done.
Qed.

(** Pressing a key that is shifted by holding sends nothing; the key waits. *)
Lemma press_waits kc r s k :
  enabled s = true -> in_progress s = false -> plain kc -> get_auto_shifted_key kc r = true -> pressed (event r) = true ->
  oneshot_mods (mods k) = 0 -> oneshot_data k = 0 -> clear_bits (real_mods (mods k)) LSHIFT = 0 ->
  repeats kc (u16 (now k)) r (s <| autoshift_lastrecord := r <| event := (event r) <| time := 0 |> |> |>) = false ->
  exists k1, process_auto_shift kc r (s, k) =
    (false, (s <| autoshift_lastrecord := r <| event := (event r) <| time := 0 |> |> |>
               <| lastshifted := nz (Z.land (real_mods (mods k)) LSHIFT) |>
               <| autoshift_lastkey := kc |> <| autoshift_time := u16 (now k) |> <| in_progress := true |>, k1)) /\
    host k1 = host k.
Proof.
  intros Hen Hip Hc Hget Hp Ho Hd Hm Hrep. destruct (plain_no_setup kc Hc) as (Eset & Eretro & _ & _).
  set (s1 := s <| autoshift_lastrecord := _ |>) in *.
  exists (exec (set_oneshot_mods (clear_bits (oneshot_mods (mods k)) LSHIFT);;
                clear_oneshot_layer_state ONESHOT_OTHER_KEY_PRESSED) k). split; [|by apply no_oneshot_kept].
  unfold process_auto_shift. rewrite run_core. cbn [gets fst snd]. rewrite run_vars, Hp, Hip, Eset, Eretro.
  cbn [when]. rewrite !run_skip. unfold auto_shift_rest, get_autoshift_state. rewrite run_own. cbn [gets fst snd].
  rewrite Hen, Hget, Hp. cbn [negb]. unfold autoshift_press.
  rewrite run_core. cbn [fst snd]. change (get_mods k).1 with (real_mods (mods k)). change (get_mods k).2 with k.
  rewrite run_core. cbn [fst snd]. change (get_oneshot_mods k).1 with (oneshot_mods (mods k)). change (get_oneshot_mods k).2 with k.
  assert (nz (clear_bits (Z.lor (real_mods (mods k)) (oneshot_mods (mods k))) LSHIFT) = false) as ->
    by (rewrite Ho, Z.lor_0_r; by apply nz_false).
  cbn [when andb]. rewrite run_skip, run_upd, run_vars. fold s1. rewrite Hrep.
  rewrite run_core. cbn [fst snd]. change (get_mods k).1 with (real_mods (mods k)). change (get_mods k).2 with k.
  rewrite run_core. cbn [fst snd]. change (get_oneshot_mods k).1 with (oneshot_mods (mods k)). change (get_oneshot_mods k).2 with k.
  rewrite Ho, Z.lor_0_r, run_upd. unfold use_oneshot_shift.
  rewrite run_assoc, run_core. cbn [fst snd]. change (get_oneshot_mods k).1 with (oneshot_mods (mods k)). change (get_oneshot_mods k).2 with k.
  rewrite Ho. rewrite (run_bind _ _ _ _ _ (core_unit (set_oneshot_mods (clear_bits 0 LSHIFT)) _ k)), run_upd.
  rewrite (run_bind _ _ _ _ _ (core_unit (clear_oneshot_layer_state ONESHOT_OTHER_KEY_PRESSED) _ _)). by rewrite exec_bind.
Qed.

(** C40: Auto Shift is on and no key waits; a key that is shifted by holding is
    pressed with no modifier down but perhaps the left Shift, no one-shot
    modifier or layer waiting, and not as the second press of a tap that is
    then held to repeat ([repeats]).  Its press sends nothing.  When it is
    released, the next event the feature sees, the host sees it go down, with
    Shift if Shift was down at the press or the timeout is over, and without
    the shifts that are down now, and go up; afterwards the modifiers and the
    keys are as they were. *)
Theorem auto_shift_types kc r r' s k k' :
  enabled s = true -> in_progress s = false -> cancelling_lshift s = false -> cancelling_rshift s = false ->
  plain kc -> command_proc kc = false -> get_auto_shifted_key kc r = true -> get_auto_shifted_key kc r' = true ->
  pressed (event r) = true -> pressed (event r') = false ->
  oneshot_mods (mods k) = 0 -> oneshot_data k = 0 -> clear_bits (real_mods (mods k)) LSHIFT = 0 ->
  repeats kc (u16 (now k)) r (s <| autoshift_lastrecord := r <| event := (event r) <| time := 0 |> |> |>) = false ->
  synced k' -> reports_ok (rep k') -> oneshot_mods (mods k') = 0 -> key_pressed kc k' = false ->
  has_room (nkro_active k') (rep k') kc ->
  let '(passed, (s1, k1)) := process_auto_shift kc r (s, k) in
  let '(passed', (s2, k2)) := process_auto_shift kc r' (s1, k') in
  let limit := if AUTO_SHIFT_TIMEOUT_PER_KEY then get_autoshift_timeout kc r' (autoshift_timeout s) else autoshift_timeout s in
  let shifted := nz (Z.land (real_mods (mods k)) LSHIFT)
    || (limit <=? TIMER_DIFF_16 (u16 (now k')) (u16 (now k))) in
  passed = false /\ host k1 = host k /\ passed' = false /\ in_progress s2 = false /\
  (exists kd, sent (host k') `prefix_of` sent (host kd) /\ sent (host kd) `prefix_of` sent (host k2) /\
    nkro_active kd = nkro_active k' /\
    shown kd = (Z.lor (without_shifts (real_mods (mods k'))) (Z.lor (weak_mods (mods k')) (shift_if shifted)), report_keys kd) /\
    forall key, reportable (nkro_active k') key -> key_pressed key kd = bool_decide (key = kc) || key_pressed key k') /\
  shown k2 = (Z.lor (real_mods (mods k')) (clear_bits (weak_mods (mods k')) LSHIFT), report_keys k2) /\
  real_mods (mods k2) = real_mods (mods k') /\
  forall key, reportable (nkro_active k') key -> key_pressed key k2 = key_pressed key k'.
Proof.
  intros Hen Hip Hl Hr Hc Hcmd Hget Hget' Hp Hp' Ho Hd Hm Hrep Hs' Hok' Ho' Hup Hroom.
  destruct (press_waits kc r s k Hen Hip Hc Hget Hp Ho Hd Hm Hrep) as (k1 & -> & Hhost).
  set (s1 := _ <| in_progress := true |>).
  destruct (end_types s1 k' kc (u16 (now k')) false r' (nkro_active k') (real_mods (mods k')) (weak_mods (mods k'))
    (fun key => key_pressed key k') (sent (host k'))) as (s2 & kd & k2 & E & Hs2 & _ & Hshow & Hdown & Hpre & Hpre' & Hnkro & Hshow' & Hst);
    try done.
  - change (autoshift_lastkey s1) with kc. by rewrite Z.eqb_refl.
  - unfold stays_down. by rewrite andb_false_r.
  - destruct (plain_no_setup kc Hc) as (_ & Eretro & Hnl & Hnr).
    assert (process_auto_shift kc r' (s1, k') = (false, (s2, k2))) as ->.
    { unfold process_auto_shift. rewrite run_core. cbn [gets fst snd]. rewrite run_vars, Hp', Eretro.
      rewrite (proj2 (Z.eqb_neq _ _) Hnl), (proj2 (Z.eqb_neq _ _) Hnr).
      unfold auto_shift_rest, get_autoshift_state. rewrite run_own. cbn [gets fst snd].
      change (enabled s1) with (enabled s). rewrite Hen, Hget', Hp'. cbn [negb].
      by rewrite (run_bind _ _ _ _ _ E). }
    destruct Hst. split_and!; try done.
    + exists kd. split_and!; try done.
Qed.
End spec.
