(* ===== verification/Combo.v ===== *)
(** * Combos (quantum/process_keycode/process_combo.c)

    Keys pressed together type another key.  The keys of a combo wait in a
    buffer; a combo whose keys are all down waits in a ring; when the time is
    over, or another key is pressed, the combos of the ring replace their keys
    in the buffer and the buffer is passed on to [action_tapping_process].

    The builds without EXTRA_SHORT_COMBOS, in which the flags of a combo are
    fields of their own.  The code behind does not call back into this file,
    so that the position [key_buffer_next] is always 0 where it is read.  The
    variable [no_combo_keys_pressed] of [process_combo] is never used. *)

From S2P Require Import Prelude.
From S2P Require Import Keycodes.
From S2P Require Import Report.
From S2P Require Import State.
From S2P Require Import ActionUtil.
From S2P Require Import Keymap.
From S2P Require Import ActionLayer.
From S2P Require Import Action.
From S2P Require Import Tapping.
From S2P Require Import Feature.

(** The keys up to COMBO_END. *)
Record combo_t := { combo_keys : list Z; combo_keycode : Z }.
Record combo_flags := { combo_disabled : bool; combo_active : bool; combo_state : Z }.
Record queued_record_t := { q_record : keyrecord_t; q_combo_index : Z; q_keycode : Z }.

(** [key_buffer_size] is the length of [key_buffer]. *)
Record combos := {
  timer : Z;
  b_combo_enable : bool;
  longest_term : Z;
  key_buffer : list queued_record_t;
  combo_buffer : list Z;
  combo_buffer_write : Z;
  combo_buffer_read : Z;
  flags : list combo_flags;              (* of [key_combos] *)
}.

Definition combo_flags_0 : combo_flags :=
  {| combo_disabled := false; combo_active := false; combo_state := 0 |}.
Definition no_combo : combo_t := {| combo_keys := []; combo_keycode := 0 |}.

Definition COMBO_END : Z := 0.
Definition NO_INDEX : Z := 0xFFFF.       (* (uint16_t)-1 *)

Class ComboConfig := {
  key_combos : list combo_t;
  COMBO_STATE_BITS : Z;                  (* 8, 16 or 32 *)
  COMBO_KEY_BUFFER_LENGTH : Z;
  COMBO_BUFFER_LENGTH : Z;
  COMBO_HOLD_TERM : Z;
  COMBO_NO_TIMER : bool;
  COMBO_STRICT_TIMER : bool;
  COMBO_MUST_HOLD_PER_COMBO : bool;
  COMBO_MUST_HOLD_MODS : bool;
  COMBO_ONLY_FROM_LAYER : option Z;
  get_combo_term : Z -> Z;               (* COMBO_TERM by default *)
  get_combo_must_hold : Z -> bool;
  get_combo_must_tap : Z -> bool;        (* false without COMBO_MUST_TAP_PER_COMBO *)
  get_combo_must_press_in_order : Z -> bool;
  combo_should_trigger : Z -> Z -> keyrecord_t -> bool;
  combo_ref_from_layer : Z -> Z;
  pre_process_record_kb : Z -> keyrecord_t -> stm keyboard (bool * keyrecord_t);
  process_combo_event : Z -> bool -> stm keyboard unit;
  process_combo_key_release : Z -> Z -> Z -> stm keyboard bool;
}.

Definition combo_get {CC : ComboConfig} (idx : Z) : combo_t := default no_combo (key_combos !! Z.to_nat idx).

Definition combos_at_start {CC : ComboConfig} : combos := {|
  timer := 0; b_combo_enable := true; longest_term := 0; key_buffer := [];
  combo_buffer := replicate (Z.to_nat COMBO_BUFFER_LENGTH) 0;
  combo_buffer_write := 0; combo_buffer_read := 0;
  flags := replicate (length key_combos) combo_flags_0;
|}.

(** ** Keys of a combo *)

(** The index found (the last one, or [NO_INDEX]) and the number of keys. *)
Fixpoint find_key (keys : list Z) (kc key_index key_count : Z) : Z * Z :=
  match keys with
  | [] => (if kc =? COMBO_END then key_count else key_index, key_count)
  | key :: keys =>
      let key_index := if kc =? key then key_count else key_index in
      if COMBO_END =? key then (key_index, key_count) else find_key keys kc key_index (u8 (key_count + 1))
  end.
Definition find_key_index_and_count (keys : list Z) (kc : Z) : Z * Z := find_key keys kc NO_INDEX 0.

(** [1 << n] is an int: from the width of int on it is 0 (the standard leaves
    that undefined), and the last bit is its sign. *)
Definition int_bit {CF : Config} (n : Z) : Z := i_wrap INT_BITS (bit n).
(** An int compared with an expression on [state]: a state narrower than int
    is promoted to int, else the int is converted to the type of the state. *)
Definition int_is {CF : Config} {CC : ComboConfig} (n state : Z) : bool :=
  if COMBO_STATE_BITS <? INT_BITS then n =? state
  else wrap COMBO_STATE_BITS n =? wrap COMBO_STATE_BITS state.

Definition ALL_COMBO_KEYS_ARE_DOWN {CF : Config} {CC : ComboConfig} (state key_count : Z) : bool :=
  int_is (i_wrap INT_BITS (int_bit key_count - 1)) state.
Definition ONLY_ONE_KEY_IS_DOWN (state : Z) : bool := negb (nz (Z.land state (state - 1))).
Definition KEY_NOT_YET_RELEASED {CF : Config} (state key_index : Z) : bool :=
  nz (Z.land (int_bit key_index) state).
Definition KEY_STATE_DOWN {CF : Config} {CC : ComboConfig} (state key_index : Z) : Z :=
  wrap COMBO_STATE_BITS (Z.lor state (int_bit key_index)).
Definition KEY_STATE_UP {CF : Config} (state key_index : Z) : Z := clear_bits state (int_bit key_index).
Definition KEYCODE_IS_MOD (code : Z) : bool :=
  IS_MODIFIER_KEYCODE code || within QK_MODS QK_MODS_MAX code && negb (nz (QK_MODS_GET_BASIC_KEYCODE code)).

(** Which of two combos that share a key is dropped: the one with fewer keys,
    or the first. *)
Definition overlaps {CC : ComboConfig} (idx1 idx2 : Z) : option Z :=
  let k1 := combo_keys (combo_get idx1) in
  let k2 := combo_keys (combo_get idx2) in
  if existsb (fun a => existsb (Z.eqb a) k2) k1
  then Some (if (length k2 <? length k1)%nat then idx2 else idx1) else None.

Definition increment_mod {CC : ComboConfig} (i : Z) : Z := (i + 1) mod COMBO_BUFFER_LENGTH.

Definition MAKE_COMBOEVENT (now : Z) (is_pressed : bool) : keyevent_t := {|
  key := {| col := 0; row := 0 |}; time := now; type := COMBO_EVENT; pressed := is_pressed |}.

Definition tick_record (r : keyrecord_t) : keyrecord_t := r <| event := (event r) <| type := TICK_EVENT |> |>.

Section combo.
Context {CF : Config} {HK : Hooks} {CC : ComboConfig}.
Abbreviation M := (stm (combos * keyboard)).

Definition timer_read : M Z := core (gets (fun k => u16 (now k))).
Definition get_flags (idx : Z) : M combo_flags :=
  own (gets (fun s => default combo_flags_0 (flags s !! Z.to_nat idx))).
Definition upd_flags (idx : Z) (f : combo_flags -> combo_flags) : M unit :=
  own (modify (fun s => s <| flags := alter f (Z.to_nat idx) (flags s) |>)).
Definition DISABLE_COMBO (idx : Z) : M unit := upd_flags idx (fun f => f <| combo_disabled := true |>).
Definition put_timer (t : Z) : M unit := own (modify (fun s => s <| timer := t |>)).
Definition put_longest_term (t : Z) : M unit := own (modify (fun s => s <| longest_term := t |>)).
Definition put_buffer_read (i : Z) : M unit := own (modify (fun s => s <| combo_buffer_read := i |>)).
Definition buffered_combo (i : Z) : M Z := own (gets (fun s => default 0 (combo_buffer s !! Z.to_nat i))).

Definition release_combo (idx : Z) : M unit :=
  let combo := combo_get idx in
  (if nz (combo_keycode combo) then
     t ← timer_read;
     core (action_tapping_process (record_0 <| event := MAKE_COMBOEVENT t false |> <| keycode := combo_keycode combo |>))
   else core (process_combo_event idx false));;
  upd_flags idx (fun f => f <| combo_active := false |>).

Definition get_combo_must_hold_ (idx : Z) : bool :=
  let kc := combo_keycode (combo_get idx) in
  if COMBO_NO_TIMER then false
  else if COMBO_MUST_HOLD_PER_COMBO then get_combo_must_hold idx
  else if COMBO_MUST_HOLD_MODS then KEYCODE_IS_MOD kc || within QK_MOMENTARY QK_MOMENTARY_MAX kc
  else false.

Definition get_wait_time (idx longest : Z) : Z :=
  if get_combo_must_hold_ idx || get_combo_must_tap idx then
    if longest <? COMBO_HOLD_TERM then COMBO_HOLD_TERM else longest
  else longest.

Definition reset_inactive (f : combo_flags) : combo_flags :=
  if combo_active f then f else f <| combo_disabled := false |> <| combo_state := 0 |>.
Definition clear_combos : M unit :=
  put_longest_term 0;;
  own (modify (fun s => s <| flags := reset_inactive <$> flags s |>)).

(** ** The key buffer *)

(** A record is made a TICK event after it was passed on. *)
Definition dump_record (q : queued_record_t) (delay_done : bool) : M bool :=
  let r := q_record q in
  if IS_NOEVENT (event r) then mret delay_done else
  core (if negb (nz (keycode r)) && negb (q_combo_index q =? NO_INDEX)
        then process_combo_event (q_combo_index q) true else action_tapping_process r);;
  core clear_weak_mods;;
  if (0 <? TAP_CODE_DELAY) && negb delay_done then
    is_tap ← core (is_tap_record (tick_record r));
    if (is_tap : bool) then mret delay_done else core (emit (WaitMs TAP_CODE_DELAY));; mret true
  else mret delay_done.

Fixpoint dump_records (qs : list queued_record_t) (delay_done : bool) : M unit :=
  match qs with
  | [] => skip
  | q :: qs => delay_done ← dump_record q delay_done; dump_records qs delay_done
  end.

Definition dump_key_buffer : M unit :=
  qs ← own (gets key_buffer);
  dump_records qs false;;
  own (modify (fun s => s <| key_buffer := [] |>)).

(** ** The ring of combos that are ready *)

(** The loops over the ring end after [COMBO_BUFFER_LENGTH] steps. *)
Definition ring_fuel : nat := Z.to_nat COMBO_BUFFER_LENGTH.

Fixpoint drop_loop (fuel : nat) (i idx : Z) : M unit :=
  match fuel with
  | O => skip
  | S fuel =>
      w ← own (gets combo_buffer_write);
      if i =? w then skip else
      q ← buffered_combo i;
      if q =? idx then
        DISABLE_COMBO idx;;
        rd ← own (gets combo_buffer_read);
        when (i =? rd) (put_buffer_read (increment_mod rd))
      else drop_loop fuel (increment_mod i) idx
  end.
Definition drop_combo_from_buffer (idx : Z) : M unit :=
  rd ← own (gets combo_buffer_read); drop_loop ring_fuel rd idx.

(** The buffer after a combo was applied, and whether it became active. *)
Fixpoint apply_keys (idx state : Z) (qs : list queued_record_t) : list queued_record_t * bool :=
  match qs with
  | [] => ([], false)
  | q :: qs =>
      let combo := combo_get idx in
      let '(key_index, key_count) := find_key_index_and_count (combo_keys combo) (q_keycode q) in
      if i16 key_index =? -1 then
        let '(qs, active) := apply_keys idx state qs in (q :: qs, active)
      else
        let state := KEY_STATE_DOWN state key_index in
        if ALL_COMBO_KEYS_ARE_DOWN state key_count then
          ({| q_record := (q_record q)
                <| keycode := combo_keycode combo |>
                <| event := (event (q_record q)) <| type := COMBO_EVENT |> <| key := {| col := 0; row := 0 |} |> |>;
              q_combo_index := idx; q_keycode := q_keycode q |} :: qs, true)
        else
          let '(qs, active) := apply_keys idx state qs in
          ((q <| q_record := tick_record (q_record q) |>) :: qs, active)
  end.

Definition apply_combo (idx : Z) : M unit :=
  f ← get_flags idx;
  if combo_disabled f then skip else
  qs ← own (gets key_buffer);
  let applied := apply_keys idx 0 qs in
  own (modify (fun s => s <| key_buffer := applied.1 |>));;
  when applied.2 (upd_flags idx (fun f => f <| combo_active := true |>));;
  drop_combo_from_buffer idx.

Fixpoint apply_loop (fuel : nat) (i : Z) : M unit :=
  match fuel with
  | O => skip
  | S fuel =>
      w ← own (gets combo_buffer_write);
      if i =? w then skip else
      idx ← buffered_combo i;
      (if get_combo_must_tap idx then drop_combo_from_buffer idx else apply_combo idx);;
      apply_loop fuel (increment_mod i)
  end.
Definition apply_combos : M unit :=
  rd ← own (gets combo_buffer_read);
  apply_loop ring_fuel rd;;
  dump_key_buffer;;
  clear_combos.

(** Disables what overlaps with a combo that is ready; the last one dropped. *)
Fixpoint drop_overlaps (fuel : nat) (i idx : Z) (drop : option Z) : M (option Z) :=
  match fuel with
  | O => mret drop
  | S fuel =>
      w ← own (gets combo_buffer_write);
      if i =? w then mret drop else
      q ← buffered_combo i;
      match overlaps q idx with
      | Some d =>
          DISABLE_COMBO d;;
          if d =? idx then mret (Some d) else
          rd ← own (gets combo_buffer_read);
          when ((i =? rd) && (d =? q)) (put_buffer_read (increment_mod rd));;
          drop_overlaps fuel (increment_mod i) idx (Some d)
      | None => drop_overlaps fuel (increment_mod i) idx None
      end
  end.

(** ** One combo *)

Definition keys_pressed_in_order (idx state key_index : Z) : bool :=
  negb (get_combo_must_press_in_order idx) || int_is (int_bit key_index) (state + 1).

(** All keys are down: the combo is put into the ring, unless it is too late
    or it overlaps with a longer one. *)
Definition ready_combo (idx time : Z) : M unit :=
  s ← own (gets (fun s => s));
  t ← timer_read;
  if negb COMBO_NO_TIMER && nz (timer s) && (time <? TIMER_DIFF_16 t (timer s)) then
    DISABLE_COMBO idx
  else
    drop ← drop_overlaps ring_fuel (combo_buffer_read s) idx None;
    if bool_decide (drop = Some idx) then skip else
    own (modify (fun s => s <| combo_buffer := <[Z.to_nat (combo_buffer_write s) := idx]> (combo_buffer s) |>
                            <| combo_buffer_write := increment_mod (combo_buffer_write s) |>
                            <| longest_term := get_wait_time idx (longest_term s) |>)).

Definition combo_key_pressed (idx key_index key_count : Z) : M unit :=
  let time := get_combo_term idx in
  f ← get_flags idx;
  when (negb (combo_active f)) (
    upd_flags idx (fun f => f <| combo_state := KEY_STATE_DOWN (combo_state f) key_index |>);;
    longest ← own (gets longest_term);
    when (longest <? time) (put_longest_term time));;
  f ← get_flags idx;
  when (ALL_COMBO_KEYS_ARE_DOWN (combo_state f) key_count) (ready_combo idx time).

(** Whether the key is still taken to be part of the combo. *)
Definition combo_key_released (idx kc key_index key_count : Z) (part : bool) : M bool :=
  f ← get_flags idx;
  part ←
    (if negb (combo_active f) && ALL_COMBO_KEYS_ARE_DOWN (combo_state f) key_count then
       if combo_disabled f || get_combo_must_hold_ idx then
         drop_combo_from_buffer idx;; mret false
       else if get_combo_must_tap idx then
         apply_combo idx;;
         apply_combos;;
         release ← core (process_combo_key_release idx key_index kc);
         when release (release_combo idx);;
         mret part
       else mret part
     else if combo_active f && ONLY_ONE_KEY_IS_DOWN (combo_state f) && KEY_NOT_YET_RELEASED (combo_state f) key_index then
       release_combo idx;;
       core (process_combo_key_release idx key_index kc);;
       mret true
     else if combo_active f && KEY_NOT_YET_RELEASED (combo_state f) key_index then
       release ← core (process_combo_key_release idx key_index kc);
       when release (release_combo idx);;
       mret true
     else mret false);
  upd_flags idx (fun f => f <| combo_state := KEY_STATE_UP (combo_state f) key_index |>);;
  mret part.

Definition process_single_combo (idx kc : Z) (r : keyrecord_t) : M bool :=
  let '(key_index, key_count) := find_key_index_and_count (combo_keys (combo_get idx)) kc in
  if i16 key_index =? -1 then mret false else
  f ← get_flags idx;
  enabled ← own (gets b_combo_enable);
  let part := negb (combo_disabled f) && enabled && keys_pressed_in_order idx (combo_state f) key_index
              && combo_should_trigger idx kc r in
  if pressed (event r) && part then combo_key_pressed idx key_index key_count;; mret true
  else combo_key_released idx kc key_index key_count part.

(** ** process_combo *)

Definition combo_disable : M unit :=
  when (negb COMBO_NO_TIMER) (put_timer 0);;
  own (modify (fun s => s <| b_combo_enable := false |> <| combo_buffer_read := combo_buffer_write s |>));;
  clear_combos;;
  dump_key_buffer.
Definition combo_enable : M unit := own (modify (fun s => s <| b_combo_enable := true |>)).
Definition is_combo_enabled : M bool := own (gets b_combo_enable).
Definition combo_toggle : M unit :=
  enabled ← is_combo_enabled; if (enabled : bool) then combo_disable else combo_enable.

(** The keycode by which a key is looked up in the combos. *)
Definition combo_lookup (kc : Z) (r : keyrecord_t) (k : keyboard) : Z :=
  match COMBO_ONLY_FROM_LAYER with
  | Some layer => keymap_key_to_keycode layer (key (event r))
  | None =>
      let highest := get_highest_layer (Z.lor (layer_state (layers k)) (default_layer_state (layers k))) in
      let ref := combo_ref_from_layer highest in
      if ref =? highest then kc else keymap_key_to_keycode ref (key (event r))
  end.

Fixpoint process_each_combo (n : nat) (idx kc : Z) (r : keyrecord_t) (is_combo_key : bool) : M bool :=
  match n with
  | O => mret is_combo_key
  | S n =>
      part ← process_single_combo idx kc r;
      process_each_combo n (idx + 1) kc r (is_combo_key || part)
  end.

(** A combo key was pressed: it waits. *)
Definition queue_key (kc : Z) (r : keyrecord_t) : M unit :=
  s ← own (gets (fun s => s));
  t ← timer_read;
  when (negb COMBO_NO_TIMER && (negb COMBO_STRICT_TIMER || negb (nz (timer s)))) (put_timer t);;
  when (Z.of_nat (length (key_buffer s)) <? COMBO_KEY_BUFFER_LENGTH)
    (own (modify (fun s => s <| key_buffer :=
       key_buffer s ++ [{| q_record := r; q_combo_index := NO_INDEX; q_keycode := kc |}] |>))).

(** What waits is decided. *)
Definition settle : M unit :=
  s ← own (gets (fun s => s));
  if negb (combo_buffer_read s =? combo_buffer_write s) then apply_combos
  else
    dump_key_buffer;;
    when (negb COMBO_NO_TIMER) (put_timer 0);;
    clear_combos.

Definition process_combo (kc : Z) (r : keyrecord_t) : M bool :=
  if (kc =? QK_COMBO_ON) && pressed (event r) then combo_enable;; mret true
  else if (kc =? QK_COMBO_OFF) && pressed (event r) then combo_disable;; mret true
  else if (kc =? QK_COMBO_TOGGLE) && pressed (event r) then combo_toggle;; mret true
  else
    kc ← core (gets (combo_lookup kc r));
    is_combo_key ← process_each_combo (length key_combos) 0 kc r false;
    (if pressed (event r) && is_combo_key then queue_key kc r else settle);;
    mret (negb is_combo_key).

Definition combo_task : M unit :=
  s ← own (gets (fun s => s));
  t ← timer_read;
  if negb (b_combo_enable s) || COMBO_NO_TIMER then skip
  else if nz (timer s) && (longest_term s <? TIMER_DIFF_16 t (timer s)) then
    if negb (combo_buffer_read s =? combo_buffer_write s) then
      apply_combos;; put_longest_term 0;; put_timer 0
    else
      dump_key_buffer;; put_timer 0;; clear_combos
  else skip.

(** [pre_process_record_quantum], and what [action_exec] does with it. *)
Definition pre_process_record_combo (r : keyrecord_t) : M (bool * keyrecord_t) :=
  kc ← core (get_record_keycode r true);
  q ← core (pre_process_record_kb kc r);
  if q.1 : bool then passed ← process_combo kc q.2; mret (passed, q.2) else mret (false, q.2).

Definition exec_record (r : keyrecord_t) : M unit :=
  q ← (if IS_NOEVENT (event r) then mret (true, r) else pre_process_record_combo r);
  when q.1 (core (action_tapping_process q.2)).
End combo.
