(* ===== verification/ComboSpec.v ===== *)
(** * Chords (quantum/process_keycode/process_combo.c)

    A combo whose keys no other combo uses: its keys pressed in time, in any
    order, give the core one press of the combo's keycode and nothing else, and
    one release when the last key goes up; fewer keys are typed as they are. *)

From S2P Require Import Prelude.
From S2P Require Import Keycodes.
From S2P Require Import Report.
From S2P Require Import State.
From S2P Require Import ActionUtil.
From S2P Require Import Keymap.
From S2P Require Import ActionLayer.
From S2P Require Import Action.
From S2P Require Import Tapping.
From S2P Require Import Feature.
From S2P Require Import Combo.

(** ** Sets of keys as bits *)

Definition down_bits (l : list nat) : Z := foldr (fun i st => Z.lor st (bit (Z.of_nat i))) 0 l.

Lemma testbit_down_bits l i : 0 <= i -> Z.testbit (down_bits l) i = bool_decide (Z.to_nat i ∈ l).
Proof.
  intros Hi. induction l as [|j l IH]; cbn [down_bits foldr].
  - rewrite Z.bits_0. symmetry. apply bool_decide_false. apply not_elem_of_nil.
  - rewrite Z.lor_spec. fold (down_bits l). rewrite IH, testbit_bit by lia.
    destruct (decide (i = Z.of_nat j)) as [->|Hne].
    + rewrite Nat2Z.id, (bool_decide_true (j ∈ j :: l)), (bool_decide_true (_ = _)) by (done || apply list_elem_of_here). apply orb_true_r.
    + rewrite (bool_decide_false (i = _)) by done. rewrite orb_false_r. apply bool_decide_ext.
      rewrite elem_of_cons. split; [by right|]. intros [E|?]; [|done]. subst. destruct Hne. lia.
Qed.

Lemma down_bits_nonneg l : 0 <= down_bits l.
Proof.
  induction l as [|j l IH]; [done|]. cbn [down_bits foldr]. apply Z.lor_nonneg. split; [done|].
  unfold bit. apply Z.shiftl_nonneg. lia.
Qed.

Lemma down_bits_ext l l' : (forall i, i ∈ l <-> i ∈ l') -> down_bits l = down_bits l'.
Proof.
  intros H. apply Z.bits_inj'. intros i Hi. rewrite !testbit_down_bits by done. apply bool_decide_ext, H.
Qed.

Lemma down_bits_range w l : 0 <= w -> Forall (fun i => Z.of_nat i < w) l -> 0 <= down_bits l < 2 ^ w.
Proof.
  intros Hw Hl. split; [apply down_bits_nonneg|]. apply range_of_bits; [done|apply down_bits_nonneg|].
  intros i Hi. rewrite testbit_down_bits by lia. apply bool_decide_false. intros Hin.
  rewrite Forall_forall in Hl. specialize (Hl _ Hin). lia.
Qed.

(** All of [n] keys are down exactly when their indices are all there. *)
Lemma all_down n l :
  Forall (fun i => (i < n)%nat) l -> NoDup l ->
  (bit (Z.of_nat n) - 1 =? down_bits l) = bool_decide (length l = n).
Proof.
  intros Hl HN. unfold bit. rewrite Z.shiftl_1_l.
  assert (l ⊆ seq 0 n) as Hsub.
  { intros i Hi. rewrite Forall_forall in Hl. specialize (Hl i Hi). apply elem_of_seq. lia. }
  destruct (decide (length l = n)) as [Hn|Hn].
  - rewrite bool_decide_true by done. apply Z.eqb_eq.
    assert (l ≡ₚ seq 0 n) as HP.
    { apply submseteq_length_Permutation; [by apply NoDup_submseteq|]. by rewrite length_seq, Hn. }
    rewrite (down_bits_ext l (seq 0 n)) by (intros i; by rewrite HP).
    replace (2 ^ Z.of_nat n - 1) with (Z.ones (Z.of_nat n)) by (rewrite Z.ones_equiv; lia).
    apply Z.bits_inj'. intros i Hi. rewrite testbit_down_bits by done.
    destruct (decide (i < Z.of_nat n)).
    + rewrite Z.ones_spec_low by lia. symmetry. apply bool_decide_true, elem_of_seq. lia.
    + rewrite Z.ones_spec_high by lia. symmetry. apply bool_decide_false. rewrite elem_of_seq. lia.
  - rewrite bool_decide_false by done. apply Z.eqb_neq. intros E.
    assert (length l < n)%nat as Hlt.
    { pose proof (submseteq_length _ _ (NoDup_submseteq _ _ HN Hsub)). rewrite length_seq in *. lia. }
    assert (seq 0 n ⊆ l) as Hsup.
    { intros i Hi%elem_of_seq.
      assert (Z.testbit (2 ^ Z.of_nat n - 1) (Z.of_nat i) = true) as Ht.
      { replace (2 ^ Z.of_nat n - 1) with (Z.ones (Z.of_nat n)) by (rewrite Z.ones_equiv; lia).
        apply Z.ones_spec_low. lia. }
      rewrite E, testbit_down_bits, Nat2Z.id in Ht by lia. by apply bool_decide_eq_true in Ht. }
    pose proof (submseteq_length _ _ (NoDup_submseteq _ _ (NoDup_seq 0 n) Hsup)). rewrite length_seq in *. lia.
Qed.

(** One key is down exactly when there is one index. *)
Lemma only_one_down l : NoDup l -> l <> [] -> ONLY_ONE_KEY_IS_DOWN (down_bits l) = bool_decide (length l = 1%nat).
Proof.
  intros HN Hne. unfold ONLY_ONE_KEY_IS_DOWN.
  destruct (decide (length l = 1%nat)) as [H1|H1].
  - rewrite bool_decide_true by done. destruct l as [|i [|j l]]; try done. cbn [down_bits foldr].
    rewrite Z.lor_0_l. unfold bit. rewrite Z.shiftl_1_l.
    replace (2 ^ Z.of_nat i - 1) with (Z.ones (Z.of_nat i)) by (rewrite Z.ones_equiv; lia).
    rewrite Z.land_ones, Z.mod_same by (try apply Z.pow_nonzero; lia). done.
  - rewrite bool_decide_false by done. apply negb_false_iff, nz_true. intros E.
    set (x := down_bits l) in *.
    assert (0 < x) as Hx.
    { destruct l as [|i l]; [done|]. pose proof (down_bits_nonneg (i :: l)). destruct (decide (x = 0)) as [E0|]; [|lia].
      pose proof (testbit_down_bits (i :: l) (Z.of_nat i) ltac:(lia)) as Ht. fold x in Ht.
      rewrite E0, Z.bits_0, Nat2Z.id, bool_decide_true in Ht by apply list_elem_of_here. done. }
    assert (x = 2 ^ Z.log2 x) as Hpow.
    { destruct (Z.log2_spec x Hx) as [Hlo Hhi]. destruct (decide (x = 2 ^ Z.log2 x)) as [|Hne']; [done|exfalso].
      assert (Z.log2 (x - 1) = Z.log2 x) as Hlog by (apply Z.log2_unique; [apply Z.log2_nonneg|lia]).
      assert (0 < x - 1) as Hx1 by (pose proof (Z.pow_pos_nonneg 2 (Z.log2 x) ltac:(lia) (Z.log2_nonneg x)); lia).
      assert (Z.testbit (Z.land x (x - 1)) (Z.log2 x) = true) as Ht.
      { rewrite Z.land_spec, Z.bit_log2, <-Hlog, Z.bit_log2 by lia. done. }
      by rewrite E, Z.bits_0 in Ht. }
    destruct l as [|i [|j l]]; [done..|].
    assert (forall n, n ∈ i :: j :: l -> Z.of_nat n = Z.log2 x) as Hall.
    { intros n Hn. pose proof (testbit_down_bits (i :: j :: l) (Z.of_nat n) ltac:(lia)) as Ht. fold x in Ht.
      rewrite Nat2Z.id, bool_decide_true, Hpow, Z.pow2_bits_eqb in Ht by (done || apply Z.log2_nonneg).
      by apply Z.eqb_eq in Ht. }
    pose proof (Hall i (list_elem_of_here _ _)). pose proof (Hall j (list_elem_of_further _ _ _ (list_elem_of_here _ _))).
    assert (i = j) by lia. subst j. apply NoDup_cons in HN as [[] _]. apply list_elem_of_here.
Qed.

(** Releasing a key takes its index away. *)
Lemma key_up_bits l i : NoDup (i :: l) -> clear_bits (down_bits (i :: l)) (bit (Z.of_nat i)) = down_bits l.
Proof.
  intros HN. apply NoDup_cons in HN as [Hni _]. apply Z.bits_inj'. intros j Hj.
  rewrite testbit_clear, testbit_bit, !testbit_down_bits by lia.
  destruct (decide (j = Z.of_nat i)) as [->|Hne].
  - rewrite Nat2Z.id, (bool_decide_false (i ∈ l)) by done.
    rewrite (bool_decide_true (Z.of_nat i = _)) by done. apply andb_false_r.
  - rewrite (bool_decide_false (j = _)) by done. rewrite andb_true_r. apply bool_decide_ext.
    rewrite elem_of_cons. split; [|by right]. intros [E|?]; [|done]. subst i. destruct Hne. lia.
Qed.

Lemma key_not_yet_released l i : nz (Z.land (bit (Z.of_nat i)) (down_bits l)) = bool_decide (i ∈ l).
Proof.
  rewrite Z.land_comm, nz_land_bit, testbit_down_bits, Nat2Z.id by lia. done.
Qed.

(** ** Looking a key up *)

Lemma find_key_absent ks kc ki kn : kc ∉ ks -> kc <> COMBO_END -> (find_key ks kc ki kn).1 = ki.
Proof.
  revert ki kn. induction ks as [|k ks IH]; intros ki kn Hn H0; cbn [find_key].
  - by destruct (Z.eqb_spec kc COMBO_END).
  - apply not_elem_of_cons in Hn as [Hne Hn]. destruct (Z.eqb_spec kc k); [done|].
    destruct (_ =? _); [done|]. by apply IH.
Qed.

Lemma find_key_count ks kc ki kn :
  Forall (fun k => k <> COMBO_END) ks -> 0 <= kn -> kn + Z.of_nat (length ks) < 256 ->
  (find_key ks kc ki kn).2 = kn + Z.of_nat (length ks).
Proof.
  revert ki kn. induction ks as [|k ks IH]; intros ki kn H0 Hk Hl; cbn [find_key length] in *; [cbn; lia|].
  apply Forall_cons in H0 as [Hk0 H0]. destruct (Z.eqb_spec COMBO_END k); [congruence|].
  rewrite wrap_small by lia. rewrite IH by (done || lia). lia.
Qed.

Lemma find_key_present ks kc ki kn i :
  NoDup ks -> Forall (fun k => k <> COMBO_END) ks -> ks !! i = Some kc ->
  0 <= kn -> kn + Z.of_nat (length ks) < 256 ->
  (find_key ks kc ki kn).1 = kn + Z.of_nat i.
Proof.
  revert ki kn i. induction ks as [|k ks IH]; intros ki kn i HN H0 Hi Hk Hl; [done|].
  cbn [find_key length] in *. apply Forall_cons in H0 as [Hk0 H0]. apply NoDup_cons in HN as [Hnk HN].
  destruct (Z.eqb_spec COMBO_END k); [congruence|]. rewrite wrap_small by lia.
  destruct i as [|i].
  - cbn in Hi. simplify_eq. rewrite Z.eqb_refl. rewrite find_key_absent by (done || congruence). lia.
  - cbn in Hi. rewrite (IH _ _ i) by (done || lia). lia.
Qed.

(** KC_NO ends the lists, and is found there: it counts as a further key of
    every combo. *)
Lemma no_key_is_in_every_combo keys :
  Forall (fun k => k <> COMBO_END) keys -> Z.of_nat (length keys) < 256 ->
  find_key_index_and_count keys KC_NO = (Z.of_nat (length keys), Z.of_nat (length keys)).
Proof.
  intros Hk Hl. unfold find_key_index_and_count.
  assert (forall ki kn, 0 <= kn -> kn + Z.of_nat (length keys) < 256 ->
    find_key keys KC_NO ki kn = (kn + Z.of_nat (length keys), kn + Z.of_nat (length keys))) as H; [|by rewrite H by lia].
  clear Hl. induction Hk as [|k keys Hk Hks IH]; intros ki kn Hn Hl; [cbn; f_equal; lia|].
  cbn [find_key length] in *. unfold KC_NO, COMBO_END in *. destruct (Z.eqb_spec 0 k); [congruence|].
  rewrite wrap_small, IH by lia. f_equal; lia.
Qed.

Section chord.
Context {CF : Config} {HK : Hooks} {CC : ComboConfig}.
Abbreviation M := (stm (combos * keyboard)).

(** ** A combo of its own *)

Context (idx : Z).
Let ks := combo_keys (combo_get idx).
Let n := length ks.

Record own_combo : Prop := {
  oc_index : 0 <= idx < Z.of_nat (length key_combos);
  oc_word : idx < NO_INDEX;
  oc_nodup : NoDup ks;
  oc_end : Forall (fun kc => kc <> COMBO_END) ks;
  oc_bits : 0 < Z.of_nat n <= COMBO_STATE_BITS /\ COMBO_STATE_BITS <= 32;
  oc_int : 0 < INT_BITS /\ (Z.of_nat n < INT_BITS \/ COMBO_STATE_BITS <= INT_BITS);
  oc_buffer : Z.of_nat n <= COMBO_KEY_BUFFER_LENGTH;
  oc_ring : 2 <= COMBO_BUFFER_LENGTH;
  oc_alone j kc : 0 <= j -> j <> idx -> kc ∈ ks -> kc ∉ combo_keys (combo_get j);
  oc_timer : COMBO_NO_TIMER = false;
  oc_term : 0 <= get_combo_term idx;
  oc_hold : get_combo_must_hold_ idx = false;
  oc_tap : get_combo_must_tap idx = false;
  oc_order : get_combo_must_press_in_order idx = false;
  oc_trigger kc r : combo_should_trigger idx kc r = true;
  oc_release i kc : process_combo_key_release idx i kc = mret false;
}.
Hypothesis OC : own_combo.

Definition key_at (i : nat) (kc : Z) : Prop := ks !! i = Some kc.

Lemma find_own i kc : key_at i kc -> find_key_index_and_count ks kc = (Z.of_nat i, Z.of_nat n).
Proof.
  intros Hi. destruct OC. pose proof oc_bits0.
  pose proof (find_key_present ks kc NO_INDEX 0 i oc_nodup0 oc_end0 Hi ltac:(lia) ltac:(unfold n in *; lia)) as E1.
  pose proof (find_key_count ks kc NO_INDEX 0 oc_end0 ltac:(lia) ltac:(unfold n in *; lia)) as E2.
  unfold find_key_index_and_count. destruct (find_key _ _ _ _). cbn in *. by subst.
Qed.

Lemma chord_index_range i kc : key_at i kc -> (i < n)%nat.
Proof. apply lookup_lt_Some. Qed.

Lemma index_found i kc : key_at i kc -> (i16 (Z.of_nat i) =? -1) = false.
Proof.
  intros Hi%chord_index_range. destruct OC. pose proof oc_bits0. apply Z.eqb_neq. unfold i_wrap.
  rewrite Z.mod_small by (norm_pow; lia). norm_pow. lia.
Qed.

Lemma key_not_end i kc : key_at i kc -> kc <> COMBO_END.
Proof. intros Hi. destruct OC. rewrite Forall_forall in oc_end0. apply oc_end0. by apply list_elem_of_lookup_2 in Hi. Qed.

(** The other combos do not see the keys. *)
Lemma other_combo j i kc r s k :
  key_at i kc -> 0 <= j -> j <> idx -> process_single_combo j kc r (s, k) = (false, (s, k)).
Proof.
  intros Hi Hj Hne. unfold process_single_combo.
  assert (kc ∉ combo_keys (combo_get j)) as Hn.
  { destruct OC. apply oc_alone0; [done..|]. by apply list_elem_of_lookup_2 in Hi. }
  pose proof (find_key_absent _ kc NO_INDEX 0 Hn (key_not_end i kc Hi)) as E.
  unfold find_key_index_and_count. destruct (find_key _ _ _ _) as [ki kn]. cbn [fst] in E. by subst ki.
Qed.

Lemma other_combos m j i kc r b s k :
  key_at i kc -> 0 <= j -> (idx < j \/ j + Z.of_nat m <= idx) ->
  process_each_combo m j kc r b (s, k) = (b, (s, k)).
Proof.
  intros Hi. revert j b. induction m as [|m IH]; intros j b Hj Hne; [done|]. cbn [process_each_combo].
  rewrite (run_bind _ _ _ _ _ (other_combo j i kc r s k Hi Hj ltac:(lia))). rewrite orb_false_r.
  apply IH; lia.
Qed.

Lemma process_each_app m m' j kc r b :
  forall s, process_each_combo (m + m') j kc r b s =
    (b ← process_each_combo m j kc r b; process_each_combo m' (j + Z.of_nat m) kc r b) s.
Proof.
  revert j b. induction m as [|m IH]; intros j b s.
  - cbn [plus process_each_combo]. srun. by replace (j + Z.of_nat 0) with j by lia.
  - cbn [plus process_each_combo]. srun. apply run_cong. intros part s'. rewrite IH.
    by replace (j + 1 + Z.of_nat m) with (j + Z.of_nat (S m)) by lia.
Qed.

Lemma only_own_combo i kc r s k b s' :
  key_at i kc -> process_single_combo idx kc r (s, k) = (b, s') ->
  process_each_combo (length key_combos) 0 kc r false (s, k) = (b, s').
Proof.
  intros Hi E. pose proof OC as [[Hlo Hhi] _ _ _ _ _ _ _ _ _ _ _ _ _ _].
  replace (length key_combos) with (Z.to_nat idx + (1 + (length key_combos - Z.to_nat idx - 1)))%nat by lia.
  rewrite !process_each_app.
  rewrite (run_bind _ _ _ _ _ (other_combos (Z.to_nat idx) 0 i kc r false s k Hi ltac:(lia) ltac:(lia))).
  rewrite process_each_app. cbn [process_each_combo]. srun.
  rewrite Z.add_0_l, Z2Nat.id by lia. rewrite (run_bind _ _ _ _ _ E). cbn [orb]. srun. destruct s' as [s' k'].
  rewrite (other_combos _ _ i) by (done || lia). done.
Qed.

(** ** The states of a chord *)

(** The flags of the combo, those of the others as at the start. *)
Definition with_flags (f : combo_flags) : list combo_flags :=
  <[Z.to_nat idx := f]> (replicate (length key_combos) combo_flags_0).

Lemma get_with_flags f s k :
  flags s = with_flags f -> get_flags idx (s, k) = (f, (s, k)).
Proof.
  intros Hf. unfold get_flags, own, gets. cbn [fst snd]. rewrite Hf. unfold with_flags.
  rewrite list_lookup_insert_eq; [done|]. rewrite length_replicate. destruct OC. lia.
Qed.

Lemma upd_with_flags f g s k :
  flags s = with_flags f -> upd_flags idx g (s, k) = (tt, (s <| flags := with_flags (g f) |>, k)).
Proof.
  intros Hf. unfold upd_flags, own, modify. cbn [fst snd]. rewrite Hf. unfold with_flags. do 5 f_equal.
  apply list_eq. intros j. destruct OC as [Hi _ _ _ _ _ _ _ _ _ _ _ _ _ _].
  destruct (decide (Z.to_nat idx = j)) as [<-|Hne].
  - rewrite list_lookup_alter_eq, !list_lookup_insert_eq by (rewrite length_replicate; lia). done.
  - by rewrite list_lookup_alter_ne, !list_lookup_insert_ne.
Qed.

(** Nothing is ready; the keys of [qs] wait. *)
Definition waiting_chord (ring : list Z) (w tm longest : Z) (qs : list queued_record_t) (f : combo_flags) : combos := {|
  timer := tm; b_combo_enable := true; longest_term := longest; key_buffer := qs;
  combo_buffer := ring; combo_buffer_write := w; combo_buffer_read := w; flags := with_flags f |}.

Definition pos (kc : Z) : nat := default 0%nat (fst <$> list_find (eq kc) ks).
Definition down (keys : list Z) : Z := down_bits (pos <$> keys).
Definition collecting (keys : list Z) : combo_flags :=
  {| combo_disabled := false; combo_active := false; combo_state := down keys |}.
Definition queued (kc : Z) (r : keyrecord_t) : queued_record_t :=
  {| q_record := r; q_combo_index := NO_INDEX; q_keycode := kc |}.

Lemma key_at_pos kc : kc ∈ ks -> key_at (pos kc) kc.
Proof.
  intros Hin. unfold pos, key_at. destruct (list_find (eq kc) ks) as [[i x]|] eqn:E.
  - apply list_find_Some in E as (Hi & -> & _). done.
  - apply list_find_None in E. rewrite Forall_forall in E. by destruct (E kc Hin).
Qed.

Lemma key_pos_inj a b : a ∈ ks -> b ∈ ks -> pos a = pos b -> a = b.
Proof. intros Ha%key_at_pos Hb%key_at_pos E. unfold key_at in *. rewrite E in Ha. congruence. Qed.

Lemma pos_nodup keys : keys ⊆ ks -> NoDup keys -> NoDup (pos <$> keys).
Proof.
  intros Hs HN. induction HN as [|kc keys Hkc HN IH]; [apply NoDup_nil_2|]. rewrite fmap_cons. apply NoDup_cons. split.
  - intros (kc' & E & Hin)%list_elem_of_fmap. apply key_pos_inj in E; [by subst|apply Hs, list_elem_of_here|].
    by apply Hs, list_elem_of_further.
  - apply IH. intros x Hx. by apply Hs, list_elem_of_further.
Qed.

Lemma pos_small keys : keys ⊆ ks -> Forall (fun i => (i < n)%nat) (pos <$> keys).
Proof.
  intros Hs. apply Forall_forall. intros i (kc & -> & Hin)%list_elem_of_fmap.
  apply (chord_index_range _ kc). by apply key_at_pos, Hs.
Qed.

(** The bits computed as ints are those of the state: the combo has fewer keys
    than an int has bits, or its state is no wider than an int. *)
Lemma int_bit_low i j : (i < n)%nat -> 0 <= j < COMBO_STATE_BITS ->
  Z.testbit (int_bit (Z.of_nat i)) j = Z.testbit (bit (Z.of_nat i)) j.
Proof.
  intros Hi Hj. destruct OC. destruct oc_int0 as [H0 [Hn|Hs]]; unfold int_bit.
  - rewrite i_wrap_small; [done|]. unfold bit. rewrite Z.shiftl_1_l.
    assert (2 ^ Z.of_nat i < 2 ^ (INT_BITS - 1)) by (apply Z.pow_lt_mono_r; lia). lia.
  - apply testbit_i_wrap. lia.
Qed.

Lemma down_range l j : Forall (fun i => (i < n)%nat) l -> COMBO_STATE_BITS <= j ->
  Z.testbit (down_bits l) j = false.
Proof.
  intros Hl Hj. destruct OC. rewrite testbit_down_bits by lia. apply bool_decide_false. intros Hin.
  rewrite Forall_forall in Hl. specialize (Hl _ Hin). lia.
Qed.

Lemma int_bit_land l i : Forall (fun i => (i < n)%nat) l -> (i < n)%nat ->
  Z.land (int_bit (Z.of_nat i)) (down_bits l) = Z.land (bit (Z.of_nat i)) (down_bits l).
Proof.
  intros Hl Hi. apply Z.bits_inj'. intros j Hj. rewrite !Z.land_spec.
  destruct (decide (j < COMBO_STATE_BITS)); [by rewrite int_bit_low by lia|].
  by rewrite down_range, !andb_false_r by (done || lia).
Qed.

Lemma int_bit_clear l i : Forall (fun i => (i < n)%nat) l -> (i < n)%nat ->
  clear_bits (down_bits l) (int_bit (Z.of_nat i)) = clear_bits (down_bits l) (bit (Z.of_nat i)).
Proof.
  intros Hl Hi. apply Z.bits_inj'. intros j Hj. rewrite !testbit_clear by done.
  destruct (decide (j < COMBO_STATE_BITS)); [by rewrite int_bit_low by lia|].
  by rewrite down_range by (done || lia).
Qed.

Lemma int_bit_lor l i : (i < n)%nat ->
  wrap COMBO_STATE_BITS (Z.lor (down_bits l) (int_bit (Z.of_nat i))) =
  wrap COMBO_STATE_BITS (Z.lor (down_bits l) (bit (Z.of_nat i))).
Proof.
  intros Hi. pose proof (oc_bits OC). apply Z.bits_inj'. intros j Hj.
  rewrite !testbit_wrap, !Z.lor_spec by lia.
  destruct (decide (j < COMBO_STATE_BITS)); [by rewrite int_bit_low by lia|].
  by rewrite bool_decide_false by lia.
Qed.

Lemma all_keys_down l : Forall (fun i => (i < n)%nat) l ->
  ALL_COMBO_KEYS_ARE_DOWN (down_bits l) (Z.of_nat n) = (bit (Z.of_nat n) - 1 =? down_bits l).
Proof.
  intros Hl. destruct OC. destruct oc_int0 as [H0 Hn].
  unfold ALL_COMBO_KEYS_ARE_DOWN, int_bit, int_is.
  replace (i_wrap INT_BITS (i_wrap INT_BITS (bit (Z.of_nat n)) - 1))
    with (i_wrap INT_BITS (bit (Z.of_nat n) - 1)) by (symmetry; by apply (i_wrap_add _ _ (-1))).
  assert (0 <= bit (Z.of_nat n) - 1 < 2 ^ Z.of_nat n) as Hb.
  { unfold bit. rewrite Z.shiftl_1_l. assert (0 < 2 ^ Z.of_nat n) by (apply Z.pow_pos_nonneg; lia). lia. }
  assert (2 ^ Z.of_nat n <= 2 ^ COMBO_STATE_BITS) by (apply Z.pow_le_mono_r; lia).
  assert (Z.of_nat n < INT_BITS -> i_wrap INT_BITS (bit (Z.of_nat n) - 1) = bit (Z.of_nat n) - 1) as Hexact.
  { intros Hlt. apply i_wrap_small. assert (2 ^ Z.of_nat n <= 2 ^ (INT_BITS - 1)) by (apply Z.pow_le_mono_r; lia).
    lia. }
  destruct (Z.ltb_spec COMBO_STATE_BITS INT_BITS); [by rewrite Hexact by lia|].
  assert (0 <= down_bits l < 2 ^ COMBO_STATE_BITS).
  { apply down_bits_range; [lia|]. eapply Forall_impl; [exact Hl|]. cbn. intros i Hi. lia. }
  rewrite (wrap_small _ (down_bits l)) by lia. f_equal.
  destruct Hn as [Hn|Hn]; [rewrite Hexact by done; apply wrap_small; lia|].
  rewrite wrap_of_i_wrap by lia. apply wrap_small. lia.
Qed.

Lemma chord_complete keys : keys ⊆ ks -> NoDup keys ->
  ALL_COMBO_KEYS_ARE_DOWN (down keys) (Z.of_nat n) = bool_decide (length keys = n).
Proof.
  intros Hs HN. unfold down. rewrite all_keys_down, all_down by eauto using pos_small, pos_nodup. by rewrite length_fmap.
Qed.

Lemma key_goes_down keys kc : keys ⊆ ks -> kc ∈ ks ->
  KEY_STATE_DOWN (down keys) (Z.of_nat (pos kc)) = down (keys ++ [kc]).
Proof.
  intros Hs Hin. unfold KEY_STATE_DOWN, down.
  rewrite int_bit_lor by (by apply (chord_index_range _ kc), key_at_pos).
  assert (Z.lor (down_bits (pos <$> keys)) (bit (Z.of_nat (pos kc))) = down_bits (pos <$> (kc :: keys))) as -> by done.
  rewrite wrap_small.
  - apply down_bits_ext. intros i. rewrite fmap_app, !elem_of_app. cbn. set_solver.
  - destruct OC. apply down_bits_range; [lia|]. eapply Forall_impl; [apply pos_small|].
    + intros x [->|Hx]%elem_of_cons; [done|by apply Hs].
    + cbn. intros i Hi. lia.
Qed.

(** *** A key goes down *)

Definition ready_ring (ring : list Z) (w : Z) : list Z := <[Z.to_nat w := idx]> ring.

(** The state after a further key: the combo is ready when it is the last. *)
Definition pressed_chord ring w tm (keys : list Z) (qs : list queued_record_t) : combos :=
  let s := waiting_chord ring w tm (get_combo_term idx) qs (collecting keys) in
  if bool_decide (length keys = n)
  then s <| combo_buffer := ready_ring ring w |> <| combo_buffer_write := increment_mod w |> else s.

Definition longest_of (keys : list Z) : Z := match keys with [] => 0 | _ => get_combo_term idx end.

Lemma no_overlaps ring w tm longest qs f k :
  drop_overlaps ring_fuel w idx None (waiting_chord ring w tm longest qs f, k) =
    (None, (waiting_chord ring w tm longest qs f, k)).
Proof. unfold ring_fuel. destruct (Z.to_nat _); [done|]. cbn [drop_overlaps]. rewrite run_own. cbn. by rewrite Z.eqb_refl. Qed.

Lemma key_pressed ring w tm keys qs kc r k :
  keys ⊆ ks -> NoDup (keys ++ [kc]) -> kc ∈ ks -> pressed (event r) = true ->
  (tm = 0 \/ TIMER_DIFF_16 (u16 (now k)) tm <= get_combo_term idx) ->
  process_single_combo idx kc r (waiting_chord ring w tm (longest_of keys) qs (collecting keys), k) =
    (true, (pressed_chord ring w tm (keys ++ [kc]) qs, k)).
Proof.
  intros Hs HN Hin Hp Ht. pose proof (key_at_pos kc Hin) as Hi.
  unfold process_single_combo. fold ks. rewrite (find_own _ _ Hi), (index_found _ _ Hi).
  srun (get_with_flags (collecting keys) (waiting_chord ring w tm (longest_of keys) qs (collecting keys)) k eq_refl).
  rewrite run_own. cbn [gets fst snd b_combo_enable waiting_chord combo_disabled collecting negb andb].
  destruct OC. unfold keys_pressed_in_order. rewrite oc_order0, oc_trigger0, Hp. cbn [negb orb andb].
  unfold combo_key_pressed. srun (get_with_flags (collecting keys) (waiting_chord ring w tm (longest_of keys) qs (collecting keys)) k eq_refl).
  cbn [combo_active collecting negb when].
  srun (upd_with_flags (collecting keys) (fun f => f <| combo_state := KEY_STATE_DOWN (combo_state f) (Z.of_nat (pos kc)) |>)
    (waiting_chord ring w tm (longest_of keys) qs (collecting keys)) k eq_refl).
  change ((collecting keys) <| combo_state := _ |>) with
    {| combo_disabled := false; combo_active := false; combo_state := KEY_STATE_DOWN (down keys) (Z.of_nat (pos kc)) |}.
  rewrite key_goes_down by done. fold (collecting (keys ++ [kc])).
  rewrite run_own. cbn [gets fst snd].
  assert (when (longest_term ((waiting_chord ring w tm (longest_of keys) qs (collecting keys)) <| flags := with_flags (collecting (keys ++ [kc])) |>) <? get_combo_term idx)
    (put_longest_term (get_combo_term idx)) ((waiting_chord ring w tm (longest_of keys) qs (collecting keys)) <| flags := with_flags (collecting (keys ++ [kc])) |>, k)
    = (tt, (waiting_chord ring w tm (get_combo_term idx) qs (collecting (keys ++ [kc])), k))) as E.
  { change (longest_term _) with (longest_of keys). unfold longest_of. destruct keys as [|x keys].
    - destruct (Z.ltb_spec 0 (get_combo_term idx)); [done|]. assert (get_combo_term idx = 0) as E0 by lia. unfold waiting_chord. by rewrite E0.
    - by rewrite Z.ltb_irrefl. }
  rewrite (run_bind _ _ _ _ _ E).
  srun (get_with_flags (collecting (keys ++ [kc])) (waiting_chord ring w tm (get_combo_term idx) qs (collecting (keys ++ [kc]))) k eq_refl).
  change (combo_state (collecting ?l)) with (down l).
  rewrite chord_complete; [|intros x [?|Hx]%elem_of_app; [by apply Hs|by apply list_elem_of_singleton in Hx as ->]|done].
  unfold pressed_chord. case_bool_decide as Hlen; [|done]. cbn [when]. unfold ready_combo, timer_read.
  srun. rewrite run_own. cbn [gets fst snd]. srun. rewrite run_core. cbn [gets fst snd]. rewrite oc_timer0.
  change (timer (waiting_chord _ _ ?t _ _ _)) with t.
  assert (negb false && nz tm && (get_combo_term idx <? TIMER_DIFF_16 (u16 (now k)) tm) = false) as ->.
  { destruct Ht as [->|Ht]; [done|]. destruct (Z.ltb_spec (get_combo_term idx) (TIMER_DIFF_16 (u16 (now k)) tm)); [lia|].
    apply andb_false_r. }
  srun (no_overlaps ring w tm (get_combo_term idx) qs (collecting (keys ++ [kc])) k).
  rewrite bool_decide_false by done. rewrite run_own. cbn [modify fst snd]. srun.
  unfold get_wait_time. rewrite oc_hold0, oc_tap0. done.
Qed.

(** The keycodes that are not looked up in the combos. *)
Definition is_combo_switch (kc : Z) : bool := (kc =? QK_COMBO_ON) || (kc =? QK_COMBO_OFF) || (kc =? QK_COMBO_TOGGLE).

Lemma not_a_switch kc r : is_combo_switch kc = false ->
  process_combo kc r = (kc ← core (gets (combo_lookup kc r));
    is_combo_key ← process_each_combo (length key_combos) 0 kc r false;
    (if pressed (event r) && is_combo_key then queue_key kc r else settle);;
    mret (negb is_combo_key)).
Proof.
  unfold is_combo_switch, process_combo. intros H. apply orb_false_elim in H as [H ->].
  by apply orb_false_elim in H as [-> ->].
Qed.

Definition next_timer (tm t : Z) : Z := if COMBO_STRICT_TIMER && nz tm then tm else t.

Lemma press_key ring w tm keys qs kc0 r k :
  let kc := combo_lookup kc0 r k in
  is_combo_switch kc0 = false -> keys ⊆ ks -> NoDup (keys ++ [kc]) -> kc ∈ ks -> pressed (event r) = true ->
  (tm = 0 \/ TIMER_DIFF_16 (u16 (now k)) tm <= get_combo_term idx) ->
  Z.of_nat (length qs) < COMBO_KEY_BUFFER_LENGTH ->
  process_combo kc0 r (waiting_chord ring w tm (longest_of keys) qs (collecting keys), k) =
    (false, (pressed_chord ring w (next_timer tm (u16 (now k))) (keys ++ [kc]) (qs ++ [queued kc r]), k)).
Proof.
  intros kc Hsw Hs HN Hin Hp Ht Hq. rewrite not_a_switch by done. rewrite run_core. cbn [gets fst snd]. fold kc.
  rewrite (run_bind _ _ _ _ _ (only_own_combo (pos kc) kc r _ _ _ _ (key_at_pos kc Hin)
    (key_pressed ring w tm keys qs kc r k Hs HN Hin Hp Ht))).
  rewrite Hp. cbn [andb negb]. unfold queue_key, timer_read. srun. rewrite run_own. cbn [gets fst snd].
  srun. rewrite run_core. cbn [gets fst snd]. pose proof (oc_timer OC) as ->.
  assert (timer (pressed_chord ring w tm (keys ++ [kc]) qs) = tm) as ->
    by (unfold pressed_chord; by case_bool_decide).
  assert (key_buffer (pressed_chord ring w tm (keys ++ [kc]) qs) = qs) as ->
    by (unfold pressed_chord; by case_bool_decide).
  destruct (Z.ltb_spec (Z.of_nat (length qs)) COMBO_KEY_BUFFER_LENGTH); [|lia].
  unfold pressed_chord, next_timer. cbn [negb andb]. unfold put_timer.
  destruct COMBO_STRICT_TIMER, (nz tm), (bool_decide (length (keys ++ [kc]) = n)); reflexivity.
Qed.

(** Nothing happens while the time is not over. *)
Lemma task_waits s k :
  b_combo_enable s = true -> timer s = 0 \/ TIMER_DIFF_16 (u16 (now k)) (timer s) <= longest_term s ->
  combo_task (s, k) = (tt, (s, k)).
Proof.
  intros He Ht. unfold combo_task. rewrite run_own. cbn [gets fst snd]. unfold timer_read. rewrite run_core.
  cbn [gets fst snd]. rewrite He. cbn [negb orb]. destruct COMBO_NO_TIMER; [done|].
  destruct Ht as [->|Ht]; [done|]. destruct (Z.ltb_spec (longest_term s) (TIMER_DIFF_16 (u16 (now k)) (timer s))); [lia|].
  by rewrite andb_false_r.
Qed.

(** *** Keys pressed one after the other, the task in between *)

Definition wait_to (t : Z) : M unit := core (modify (fun k => k <| now := t |>)).

(** Whether all of the events were swallowed. *)
Fixpoint type_combo (ps : list (Z * Z * keyrecord_t)) : M bool :=
  match ps with
  | [] => mret true
  | (t, kc, r) :: ps =>
      wait_to t;;
      combo_task;;
      passed ← process_combo kc r;
      rest ← type_combo ps;
      mret (negb passed && rest)
  end.

Fixpoint press_in_time (tm : Z) (ps : list (Z * Z * keyrecord_t)) : Prop :=
  match ps with
  | [] => True
  | (t, kc, r) :: ps =>
      0 < t < 2 ^ 16 /\ (tm = 0 \/ TIMER_DIFF_16 t tm <= get_combo_term idx) /\
      pressed (event r) = true /\ is_combo_switch kc = false /\
      press_in_time (next_timer tm t) ps
  end.

Fixpoint last_timer (tm : Z) (ps : list (Z * Z * keyrecord_t)) : Z :=
  match ps with [] => tm | (t, _, _) :: ps => last_timer (next_timer tm t) ps end.
Definition last_now (now : Z) (ps : list (Z * Z * keyrecord_t)) : Z := default now ((fun p => p.1.1) <$> last ps).

Definition keys_in (k : keyboard) (ps : list (Z * Z * keyrecord_t)) : list Z :=
  (fun p => combo_lookup p.1.2 p.2 k) <$> ps.
Definition queue_of (k : keyboard) (ps : list (Z * Z * keyrecord_t)) : list queued_record_t :=
  (fun p => queued (combo_lookup p.1.2 p.2 k) p.2) <$> ps.

Lemma last_now_cons a p ps : last_now a (p :: ps) = last_now p.1.1 ps.
Proof. destruct ps as [|q ps]; [done|]. unfold last_now. change (last (p :: q :: ps)) with (last (q :: ps)).
  destruct (last (q :: ps)) eqn:E; [done|]. by apply last_None in E.
Qed.

Lemma lookup_now kc r k t : combo_lookup kc r (k <| now := t |>) = combo_lookup kc r k.
Proof. reflexivity. Qed.

Lemma pressed_waits ring w tm keys qs : length keys <> n -> keys <> [] ->
  pressed_chord ring w tm keys qs = waiting_chord ring w tm (longest_of keys) qs (collecting keys).
Proof. intros Hl Hne. unfold pressed_chord. rewrite bool_decide_false by done. by destruct keys. Qed.

Lemma press_from ps p ring w tm keys qs k :
  keys ⊆ ks -> NoDup (keys ++ keys_in k (p :: ps)) -> keys_in k (p :: ps) ⊆ ks ->
  length qs = length keys -> (tm = 0 <-> keys = []) ->
  press_in_time tm (p :: ps) ->
  type_combo (p :: ps) (waiting_chord ring w tm (longest_of keys) qs (collecting keys), k) =
    (true, (pressed_chord ring w (last_timer tm (p :: ps)) (keys ++ keys_in k (p :: ps)) (qs ++ queue_of k (p :: ps)),
            k <| now := last_now (now k) (p :: ps) |>)).
Proof.
  revert p tm keys qs k. induction ps as [|p' ps IH]; intros [[t kc] r] tm keys qs k Hs HN Hsub Hq Htm Ht.
  all: cbn [press_in_time] in Ht; destruct Ht as (Ht0 & Ht & Hp & Hsw & Hrest).
  all: cbn [type_combo]; unfold wait_to; rewrite run_core; cbn [modify fst snd].
  all: set (k1 := k <| now := t |>); set (key := combo_lookup kc r k).
  all: assert (key ∈ ks) as Hin by (apply Hsub, list_elem_of_here).
  all: change (keys_in k ((t, kc, r) :: ?l)) with (key :: keys_in k l) in *.
  all: change (queue_of k ((t, kc, r) :: ?l)) with (queued key r :: queue_of k l).
  all: rewrite cons_middle, app_assoc in HN; apply NoDup_app in HN as (HN1 & HN2 & HN3).
  all: assert (u16 (now k1) = t) as Hu by (change (now k1) with t; by apply wrap_small; lia).
  all: assert (tm = 0 \/ TIMER_DIFF_16 (u16 (now k1)) tm <= longest_of keys) as Htask
    by (rewrite Hu; destruct keys; [left; by apply Htm|cbn [longest_of]; tauto]).
  all: rewrite (run_bind _ _ _ _ _ (task_waits (waiting_chord ring w tm (longest_of keys) qs (collecting keys)) k1 eq_refl Htask)).
  all: assert (length (keys ++ [key]) <= n)%nat as Hlen
    by (apply submseteq_length, NoDup_submseteq; [done|];
        intros x [?|Hx]%elem_of_app; [by apply Hs|by apply list_elem_of_singleton in Hx as ->]).
  all: pose proof (press_key ring w tm keys qs kc r k1 Hsw Hs HN1 Hin Hp ltac:(by rewrite Hu)
         ltac:(rewrite Hq; rewrite length_app in Hlen; cbn in Hlen; pose proof (oc_buffer OC); lia)) as E.
  all: rewrite Hu in E; rewrite (run_bind _ _ _ _ _ E); clear E.
  - cbn [keys_in queue_of fmap list_fmap]. done.
  - assert (length (keys ++ [key]) <> n) as Hnot.
    { intros El. assert (length (keys ++ [key] ++ keys_in k (p' :: ps)) <= n)%nat as Hle.
      { apply submseteq_length, NoDup_submseteq.
        - rewrite app_assoc. by apply NoDup_app.
        - intros x [?|[Hx|?]%elem_of_app]%elem_of_app; [by apply Hs|by apply list_elem_of_singleton in Hx as ->|].
          apply Hsub. by apply list_elem_of_further. }
      rewrite app_assoc, length_app, El in Hle. cbn in Hle. lia. }
    change (combo_lookup kc r k1) with key. rewrite (pressed_waits _ _ _ _ _ Hnot) by (by destruct keys).
    change (keys_in k (p' :: ps)) with (keys_in k1 (p' :: ps)) in *.
    change (queue_of k (p' :: ps)) with (queue_of k1 (p' :: ps)).
    rewrite (run_bind _ _ _ _ _ (IH p' (next_timer tm t) (keys ++ [key]) (qs ++ [queued key r]) k1
      ltac:(intros x [?|Hx]%elem_of_app; [by apply Hs|by apply list_elem_of_singleton in Hx as ->])
      ltac:(by apply NoDup_app)
      ltac:(intros x Hx; by apply Hsub, list_elem_of_further)
      ltac:(rewrite !length_app; cbn; lia)
      ltac:(unfold next_timer; split; [|by destruct keys];
            destruct (COMBO_STRICT_TIMER && nz tm) eqn:Ez; [|lia];
            apply andb_prop in Ez as [_ Ez]; apply nz_true in Ez; lia)
      Hrest)).
    unfold mret, stm_ret. cbn [negb andb]. rewrite <-!app_assoc.
    by rewrite (last_now_cons (now k)).
Qed.

(** ** The combo fires *)

Definition fired (q : queued_record_t) : queued_record_t := {|
  q_record := (q_record q) <| keycode := combo_keycode (combo_get idx) |>
    <| event := (event (q_record q)) <| type := COMBO_EVENT |> <| key := {| col := 0; row := 0 |} |> |>;
  q_combo_index := idx; q_keycode := q_keycode q |}.
Definition ticked (q : queued_record_t) : queued_record_t := q <| q_record := tick_record (q_record q) |>.

(** What the core sees of the chord: the press of the combo's keycode ... *)
Definition chord_down (r : keyrecord_t) : stm keyboard unit :=
  (if nz (combo_keycode (combo_get idx)) then
     action_tapping_process (r <| keycode := combo_keycode (combo_get idx) |>
       <| event := (event r) <| type := COMBO_EVENT |> <| key := {| col := 0; row := 0 |} |> |>)
   else process_combo_event idx true);;
  clear_weak_mods;;
  when (0 <? TAP_CODE_DELAY) (emit (WaitMs TAP_CODE_DELAY)).

(** ... and its release. *)
Definition chord_up : stm keyboard unit :=
  t ← gets now;
  if nz (combo_keycode (combo_get idx)) then
    action_tapping_process (record_0 <| event := MAKE_COMBOEVENT (u16 t) false |>
      <| keycode := combo_keycode (combo_get idx) |>)
  else process_combo_event idx false.

Lemma apply_chord qs q done :
  let keys := done ++ (q_keycode <$> (qs ++ [q])) in
  NoDup keys -> keys ⊆ ks -> length keys = n ->
  apply_keys idx (down done) (qs ++ [q]) = ((ticked <$> qs) ++ [fired q], true).
Proof.
  revert done. induction qs as [|q' qs IH]; intros done keys HN Hs Hl.
  all: cbn [app apply_keys]; fold ks.
  all: match goal with |- context [find_key_index_and_count ks (q_keycode ?x)] =>
         assert (q_keycode x ∈ ks) as Hin by (apply Hs, elem_of_app; right; apply list_elem_of_here) end.
  all: assert (done ⊆ ks) as Hd by (intros x Hx; apply Hs, elem_of_app; by left).
  all: pose proof (key_at_pos _ Hin) as Hi.
  all: rewrite (find_own _ _ Hi), (index_found _ _ Hi), key_goes_down by done.
  all: unfold keys in *; cbn [app fmap list_fmap] in HN, Hs, Hl.
  - rewrite chord_complete by done. by rewrite bool_decide_true.
  - rewrite cons_middle, app_assoc in HN, Hs, Hl.
    assert (done ++ [q_keycode q'] ⊆ ks) as Hd' by (intros x Hx; apply Hs, elem_of_app; by left).
    rewrite chord_complete; [|done|by apply NoDup_app in HN as (? & _)].
    rewrite bool_decide_false; [by rewrite (IH (done ++ [q_keycode q']))|].
    intros El. rewrite length_app, El, fmap_app, length_app in Hl. cbn in Hl. lia.
Qed.

Lemma dump_ticked qs q d s : dump_records ((ticked <$> qs) ++ [q]) d s = dump_records [q] d s.
Proof.
  induction qs as [|q' qs IH]; [done|]. cbn [fmap list_fmap app dump_records].
  assert (dump_record (ticked q') d = mret d) as ->; [|by srun].
  unfold dump_record, IS_NOEVENT. rewrite bool_decide_true; [done|]. by destruct q' as [[[] ? ?] ? ?].
Qed.

Lemma tick_is_no_tap r k : is_tap_record (tick_record r) k = (false, k).
Proof. unfold is_tap_record, IS_NOEVENT. rewrite bool_decide_true; [done|]. by destruct r as [[] ? ?]. Qed.

Lemma dump_fired q s k :
  dump_records [fired q] false (s, k) = (tt, (s, exec (chord_down (q_record q)) k)).
Proof.
  cbn [dump_records]. unfold dump_record.
  assert (IS_NOEVENT (event (q_record (fired q))) = false) as ->.
  { unfold IS_NOEVENT. apply bool_decide_false. by destruct q as [[[] ? ?] ? ?]. }
  change (keycode (q_record (fired q))) with (combo_keycode (combo_get idx)).
  assert (negb (nz (combo_keycode (combo_get idx))) && negb (q_combo_index (fired q) =? NO_INDEX) =
    negb (nz (combo_keycode (combo_get idx)))) as ->.
  { change (q_combo_index (fired q)) with idx. destruct (Z.eqb_spec idx NO_INDEX) as [E|_]; [|apply andb_true_r].
    pose proof (oc_word OC). lia. }
  unfold chord_down. srun. rewrite run_core. cbn [fst snd]. srun. rewrite run_core. cbn [fst snd].
  unfold exec. rewrite !run_eval. unfold eval, exec. cbn [q_record fired].
  rewrite andb_true_r. destruct (nz (combo_keycode (combo_get idx))); cbn [negb].
  all: destruct (0 <? TAP_CODE_DELAY); cbn [when]; [|by srun].
  all: srun; rewrite run_core; cbn [fst snd].
  all: match goal with |- context [is_tap_record ?r ?k] => rewrite (tick_is_no_tap _ k) end.
  all: cbn [fst snd]; srun; by rewrite run_core.
Qed.

Lemma clear_with_flags s k f : flags s = with_flags f ->
  clear_combos (s, k) = (tt, (s <| longest_term := 0 |> <| flags := with_flags (reset_inactive f) |>, k)).
Proof.
  intros Hf. unfold clear_combos, put_longest_term. rewrite run_own. cbn [modify fst snd].
  unfold own, modify. cbn [fst snd]. change (flags (s <| longest_term := 0 |>)) with (flags s). rewrite Hf.
  unfold with_flags. rewrite list_fmap_insert, fmap_replicate. done.
Qed.

Lemma ring_moves w : 0 <= w < COMBO_BUFFER_LENGTH -> increment_mod w <> w /\ 0 <= increment_mod w < COMBO_BUFFER_LENGTH.
Proof.
  intros Hw. pose proof (oc_ring OC). unfold increment_mod. split; [|apply Z.mod_pos_bound; lia].
  destruct (decide (w + 1 = COMBO_BUFFER_LENGTH)) as [E|].
  - rewrite E, Z.mod_same; lia.
  - rewrite Z.mod_small; lia.
Qed.

Definition held (keys : list Z) : combo_flags :=
  {| combo_disabled := true; combo_active := true; combo_state := down keys |}.

(** The state with one combo in the ring. *)
Definition ready (ring : list Z) (w tm longest : Z) (qs : list queued_record_t) (f : combo_flags) : combos :=
  (waiting_chord ring w tm longest qs f) <| combo_buffer := ready_ring ring w |> <| combo_buffer_write := increment_mod w |>.

Lemma ready_combo_is_first ring w tm longest qs f k :
  0 <= w < COMBO_BUFFER_LENGTH -> Z.of_nat (length ring) = COMBO_BUFFER_LENGTH ->
  buffered_combo w (ready ring w tm longest qs f, k) = (idx, (ready ring w tm longest qs f, k)).
Proof.
  intros Hw Hr. unfold buffered_combo, own, gets. cbn [fst snd].
  change (combo_buffer (ready ring w tm longest qs f)) with (ready_ring ring w). unfold ready_ring.
  by rewrite list_lookup_insert_eq by lia.
Qed.

Lemma drop_ready ring w tm longest qs f k :
  0 <= w < COMBO_BUFFER_LENGTH -> Z.of_nat (length ring) = COMBO_BUFFER_LENGTH ->
  drop_combo_from_buffer idx (ready ring w tm longest qs f, k) =
    (tt, (waiting_chord (ready_ring ring w) (increment_mod w) tm longest qs (f <| combo_disabled := true |>), k)).
Proof.
  intros Hw Hr. unfold drop_combo_from_buffer. rewrite run_own. cbn [gets fst snd].
  change (combo_buffer_read (ready ring w tm longest qs f)) with w.
  unfold ring_fuel. pose proof (oc_ring OC). replace (Z.to_nat COMBO_BUFFER_LENGTH) with (S (Z.to_nat COMBO_BUFFER_LENGTH - 1)) by lia.
  cbn [drop_loop]. rewrite run_own. cbn [gets fst snd].
  change (combo_buffer_write (ready ring w tm longest qs f)) with (increment_mod w).
  destruct (Z.eqb_spec w (increment_mod w)) as [E|_]; [by destruct (ring_moves w Hw)|].
  srun (ready_combo_is_first ring w tm longest qs f k Hw Hr). rewrite Z.eqb_refl. unfold DISABLE_COMBO.
  srun (upd_with_flags f (fun f => f <| combo_disabled := true |>) (ready ring w tm longest qs f) k eq_refl).
  rewrite run_own. cbn [gets fst snd].
  change (combo_buffer_read ((ready ring w tm longest qs f) <| flags := _ |>)) with w.
  rewrite Z.eqb_refl. done.
Qed.

Lemma apply_ready ring w tm longest qs q k :
  0 <= w < COMBO_BUFFER_LENGTH -> Z.of_nat (length ring) = COMBO_BUFFER_LENGTH ->
  let keys := q_keycode <$> (qs ++ [q]) in
  NoDup keys -> keys ⊆ ks -> length keys = n ->
  apply_combo idx (ready ring w tm longest (qs ++ [q]) (collecting keys), k) =
    (tt, (waiting_chord (ready_ring ring w) (increment_mod w) tm longest ((ticked <$> qs) ++ [fired q]) (held keys), k)).
Proof.
  intros Hw Hr keys HN Hs Hl. unfold apply_combo.
  srun (get_with_flags (collecting keys) (ready ring w tm longest (qs ++ [q]) (collecting keys)) k eq_refl).
  cbn [combo_disabled collecting]. rewrite run_own. cbn [gets fst snd].
  change (key_buffer (ready ring w tm longest (qs ++ [q]) (collecting keys))) with (qs ++ [q]).
  pose proof (apply_chord qs q [] HN Hs Hl) as E. change (down []) with 0 in E. rewrite E. cbn [fst snd when].
  rewrite run_own. cbn [modify fst snd].
  change ((ready ring w tm longest (qs ++ [q]) (collecting keys)) <| key_buffer := _ |>) with
    (ready ring w tm longest ((ticked <$> qs) ++ [fired q]) (collecting keys)).
  srun (upd_with_flags (collecting keys) (fun f => f <| combo_active := true |>)
    (ready ring w tm longest ((ticked <$> qs) ++ [fired q]) (collecting keys)) k eq_refl).
  change ((ready ring w tm longest ((ticked <$> qs) ++ [fired q]) (collecting keys)) <| flags := _ |>) with
    (ready ring w tm longest ((ticked <$> qs) ++ [fired q]) ((collecting keys) <| combo_active := true |>)).
  rewrite drop_ready by done. done.
Qed.

(** When the time is over, the core gets the combo. *)
Lemma chord_fires ring w tm qs q k :
  0 <= w < COMBO_BUFFER_LENGTH -> Z.of_nat (length ring) = COMBO_BUFFER_LENGTH ->
  let keys := q_keycode <$> (qs ++ [q]) in
  NoDup keys -> keys ⊆ ks -> length keys = n ->
  tm <> 0 -> get_combo_term idx < TIMER_DIFF_16 (u16 (now k)) tm ->
  combo_task (pressed_chord ring w tm keys (qs ++ [q]), k) =
    (tt, (waiting_chord (ready_ring ring w) (increment_mod w) 0 0 [] (held keys), exec (chord_down (q_record q)) k)).
Proof.
  intros Hw Hr keys HN Hs Hl Htm Ht. unfold pressed_chord. rewrite bool_decide_true by done.
  change ((waiting_chord ring w tm (get_combo_term idx) (qs ++ [q]) (collecting keys)) <| combo_buffer := _ |> <| combo_buffer_write := _ |>)
    with (ready ring w tm (get_combo_term idx) (qs ++ [q]) (collecting keys)).
  set (s := ready ring w tm (get_combo_term idx) (qs ++ [q]) (collecting keys)).
  unfold combo_task. rewrite run_own. cbn [gets fst snd]. unfold timer_read. rewrite run_core. cbn [gets fst snd].
  change (b_combo_enable s) with true. rewrite (oc_timer OC). cbn [negb orb].
  change (timer s) with tm. change (longest_term s) with (get_combo_term idx).
  rewrite (proj2 (nz_true tm) Htm), (proj2 (Z.ltb_lt _ _) Ht). cbn [andb].
  change (combo_buffer_read s) with w. change (combo_buffer_write s) with (increment_mod w).
  destruct (Z.eqb_spec w (increment_mod w)) as [E|Hne]; [by destruct (ring_moves w Hw)|]. cbn [negb].
  unfold apply_combos. srun. rewrite run_own. cbn [gets fst snd]. change (combo_buffer_read s) with w.
  assert (apply_loop ring_fuel w (s, k) = (tt, (waiting_chord (ready_ring ring w) (increment_mod w) tm (get_combo_term idx)
    ((ticked <$> qs) ++ [fired q]) (held keys), k))) as E.
  { unfold ring_fuel. pose proof (oc_ring OC).
    replace (Z.to_nat COMBO_BUFFER_LENGTH) with (S (S (Z.to_nat COMBO_BUFFER_LENGTH - 2))) by lia.
    cbn [apply_loop]. rewrite run_own. cbn [gets fst snd]. change (combo_buffer_write s) with (increment_mod w).
    destruct (Z.eqb_spec w (increment_mod w)); [done|].
    srun (ready_combo_is_first ring w tm (get_combo_term idx) (qs ++ [q]) (collecting keys) k Hw Hr).
    rewrite (oc_tap OC).
    srun (apply_ready ring w tm (get_combo_term idx) qs q k Hw Hr HN Hs Hl).
    rewrite run_own. cbn [gets fst snd]. cbn [combo_buffer_write waiting_chord]. by rewrite Z.eqb_refl. }
  srun E. unfold dump_key_buffer. srun. rewrite run_own. cbn [gets fst snd key_buffer waiting_chord].
  srun (eq_trans (dump_ticked qs (fired q) false (waiting_chord (ready_ring ring w) (increment_mod w) tm (get_combo_term idx)
    ((ticked <$> qs) ++ [fired q]) (held keys), k)) (dump_fired q _ k)).
  rewrite run_own. cbn [modify fst snd].
  srun (clear_with_flags ((waiting_chord (ready_ring ring w) (increment_mod w) tm (get_combo_term idx)
    ((ticked <$> qs) ++ [fired q]) (held keys)) <| key_buffer := [] |>) (exec (chord_down (q_record q)) k) (held keys) eq_refl).
  unfold put_longest_term, put_timer. rewrite run_own. cbn [modify fst snd]. unfold own, modify. cbn [fst snd].
  reflexivity.
Qed.

(** *** The keys go up *)

Lemma down_perm l l' : l ≡ₚ l' -> down l = down l'.
Proof. intros H. unfold down. apply down_bits_ext. intros i. by rewrite H. Qed.

Lemma settle_held ring w tm longest f k :
  settle (waiting_chord ring w tm longest [] f, k) = (tt, (waiting_chord ring w 0 0 [] (reset_inactive f), k)).
Proof.
  unfold settle. rewrite run_own. cbn [gets fst snd combo_buffer_read combo_buffer_write waiting_chord].
  rewrite Z.eqb_refl. cbn [negb]. unfold dump_key_buffer. srun. rewrite run_own.
  cbn [gets fst snd key_buffer waiting_chord dump_records]. srun. rewrite run_own. cbn [modify fst snd].
  rewrite (oc_timer OC). cbn [negb when]. unfold put_timer. rewrite run_own. cbn [modify fst snd].
  rewrite (clear_with_flags _ _ f) by done. done.
Qed.

Lemma key_released ring w keys kc r k :
  kc :: keys ⊆ ks -> NoDup (kc :: keys) -> pressed (event r) = false ->
  process_single_combo idx kc r (waiting_chord ring w 0 0 [] (held (kc :: keys)), k) =
    (true, (waiting_chord ring w 0 0 [] ((held keys) <| combo_active := bool_decide (keys <> []) |>),
            if keys is [] then exec chord_up k else k)).
Proof.
  intros Hs HN Hp. assert (kc ∈ ks) as Hin by apply Hs, list_elem_of_here.
  pose proof (key_at_pos kc Hin) as Hi. pose proof (pos_nodup _ Hs HN) as HNp.
  unfold process_single_combo. fold ks. rewrite (find_own _ _ Hi), (index_found _ _ Hi).
  set (s := waiting_chord ring w 0 0 [] (held (kc :: keys))).
  srun (get_with_flags (held (kc :: keys)) s k eq_refl). rewrite run_own. cbn [gets fst snd].
  rewrite Hp. cbn [andb]. unfold combo_key_released. srun (get_with_flags (held (kc :: keys)) s k eq_refl).
  cbn [combo_active held negb andb]. change (combo_state (held (kc :: keys))) with (down (kc :: keys)).
  unfold down. rewrite only_one_down by done.
  pose proof (pos_small _ Hs) as Hsmall. pose proof (chord_index_range _ _ Hi) as Hin_n.
  unfold KEY_NOT_YET_RELEASED. rewrite int_bit_land by done. rewrite length_fmap, key_not_yet_released.
  rewrite (bool_decide_true (pos kc ∈ _)) by apply list_elem_of_here. rewrite andb_true_r.
  pose proof (key_up_bits (fmap (M:=list) pos keys) (pos kc) HNp) as Hup.
  destruct keys as [|kc' keys].
  - rewrite bool_decide_true by done. unfold release_combo.
    assert ((if nz (combo_keycode (combo_get idx)) then
       t ← timer_read; core (action_tapping_process (record_0 <| event := MAKE_COMBOEVENT t false |> <| keycode := combo_keycode (combo_get idx) |>))
     else core (process_combo_event idx false)) (s, k) = (tt, (s, exec chord_up k))) as E.
    { unfold chord_up, timer_read. destruct (nz _).
      - rewrite run_core. cbn [gets fst snd]. unfold core, exec. cbn [fst snd]. rewrite run_gets. by destruct ((action_tapping_process _ k)).1.
      - unfold core, exec. cbn [fst snd]. rewrite run_gets. by destruct (process_combo_event idx false k).1. }
    srun E. srun (upd_with_flags (held [kc]) (fun f => f <| combo_active := false |>) s (exec chord_up k) eq_refl).
    rewrite (oc_release OC). rewrite run_core. cbn [mret stm_ret fst snd].
    srun (upd_with_flags ((held [kc]) <| combo_active := false |>) (fun f => f <| combo_state := KEY_STATE_UP (combo_state f) (Z.of_nat (pos kc)) |>)
      (s <| flags := with_flags ((held [kc]) <| combo_active := false |>) |>) (exec chord_up k) eq_refl).
    change (combo_state ((held [kc]) <| combo_active := false |>)) with (down_bits (fmap (M:=list) pos [kc])). cbn [fmap list_fmap] in *.
    unfold KEY_STATE_UP. rewrite int_bit_clear by done. rewrite Hup. reflexivity.
  - rewrite bool_decide_false by done. rewrite (oc_release OC). srun. rewrite run_core. cbn [mret stm_ret fst snd when]. srun.
    srun (upd_with_flags (held (kc :: kc' :: keys)) (fun f => f <| combo_state := KEY_STATE_UP (combo_state f) (Z.of_nat (pos kc)) |>) s k eq_refl).
    change (combo_state (held (kc :: kc' :: keys))) with (down_bits (fmap (M:=list) pos (kc :: kc' :: keys))).
    rewrite !fmap_cons in *. unfold KEY_STATE_UP. rewrite int_bit_clear by done. rewrite Hup. reflexivity.
Qed.

Definition idle_combos (ring : list Z) (w : Z) : combos := waiting_chord ring w 0 0 [] combo_flags_0.

Fixpoint released (ps : list (Z * Z * keyrecord_t)) : Prop :=
  match ps with
  | [] => True
  | (_, kc, r) :: ps => pressed (event r) = false /\ is_combo_switch kc = false /\ released ps
  end.

Lemma release_key ring w keys kc0 r k :
  let kc := combo_lookup kc0 r k in
  is_combo_switch kc0 = false -> kc :: keys ⊆ ks -> NoDup (kc :: keys) -> pressed (event r) = false ->
  process_combo kc0 r (waiting_chord ring w 0 0 [] (held (kc :: keys)), k) =
    (false, if keys is [] then (idle_combos ring w, exec chord_up k)
            else (waiting_chord ring w 0 0 [] (held keys), k)).
Proof.
  intros kc Hsw Hs HN Hp. rewrite not_a_switch by done. rewrite run_core. cbn [gets fst snd]. fold kc.
  assert (kc ∈ ks) as Hin by apply Hs, list_elem_of_here.
  rewrite (run_bind _ _ _ _ _ (only_own_combo (pos kc) kc r _ _ _ _ (key_at_pos kc Hin) (key_released ring w keys kc r k Hs HN Hp))).
  rewrite Hp. cbn [andb negb]. srun (settle_held ring w 0 0 ((held keys) <| combo_active := bool_decide (keys <> []) |>)
    (if keys is [] then exec chord_up k else k)).
  destruct keys as [|kc' keys]; [done|]. by rewrite bool_decide_true.
Qed.

Lemma release_from ps p ring w k :
  keys_in k (p :: ps) ⊆ ks -> NoDup (keys_in k (p :: ps)) -> released (p :: ps) ->
  type_combo (p :: ps) (waiting_chord ring w 0 0 [] (held (keys_in k (p :: ps))), k) =
    (true, (idle_combos ring w, exec chord_up (k <| now := last_now (now k) (p :: ps) |>))).
Proof.
  revert p k. induction ps as [|p' ps IH]; intros [[t kc] r] k Hs HN Hrel.
  all: cbn [released] in Hrel; destruct Hrel as (Hp & Hsw & Hrel).
  all: cbn [type_combo]; unfold wait_to; rewrite run_core; cbn [modify fst snd].
  all: set (k1 := k <| now := t |>); set (key := combo_lookup kc r k).
  all: change (keys_in k ((t, kc, r) :: ?l)) with (key :: keys_in k l) in *.
  all: match goal with |- context [waiting_chord ?ring0 ?w0 0 0 [] ?f] =>
    rewrite (run_bind _ _ _ _ _ (task_waits (waiting_chord ring0 w0 0 0 [] f) k1 eq_refl (or_introl eq_refl))) end.
  all: rewrite (run_bind _ _ _ _ _ (release_key ring w _ kc r k1 Hsw Hs HN Hp)).
  - srun. done.
  - change (keys_in k (p' :: ps)) with (combo_lookup p'.1.2 p'.2 k :: keys_in k ps). cbv iota.
    change (combo_lookup p'.1.2 p'.2 k :: keys_in k ps) with (keys_in k1 (p' :: ps)) in *.
    rewrite (run_bind _ _ _ _ _ (IH p' k1 ltac:(intros x Hx; by apply Hs, list_elem_of_further)
      ltac:(by apply NoDup_cons in HN as [_ HN]) Hrel)).
    unfold mret, stm_ret. cbn [negb andb]. by rewrite (last_now_cons (now k)).
Qed.

Lemma waiting_0 ring w : waiting_chord ring w 0 0 [] combo_flags_0 = waiting_chord ring w 0 (longest_of []) [] (collecting []).
Proof. reflexivity. Qed.

Lemma queue_keys k ps : q_keycode <$> queue_of k ps = keys_in k ps.
Proof. unfold queue_of, keys_in. rewrite <-list_fmap_compose. done. Qed.

Lemma press_timer tm ps : press_in_time tm ps -> ps <> [] -> last_timer tm ps <> 0.
Proof.
  revert tm. induction ps as [|[[t kc] r] ps IH]; intros tm Ht Hne; [done|]. cbn [press_in_time last_timer] in *.
  destruct Ht as (Ht0 & _ & _ & _ & Hrest). destruct ps as [|p ps]; [|by apply IH].
  cbn. unfold next_timer. destruct (COMBO_STRICT_TIMER && nz tm) eqn:E; [|lia].
  apply andb_prop in E as [_ E]. by apply nz_true.
Qed.

(** C31: The keys of a combo, pressed in any order and in time, and then left to the
    task until the time is over, give the core one press of the combo; when
    they go up again, in any order, it gets one release with the last of them.
    Every one of the events is swallowed, and nothing else reaches the core. *)
Theorem chord_types_its_keycode ps rs ring w t k :
  0 <= w < COMBO_BUFFER_LENGTH -> Z.of_nat (length ring) = COMBO_BUFFER_LENGTH ->
  keys_in k ps ≡ₚ ks -> press_in_time 0 ps ->
  0 < t < 2 ^ 16 -> get_combo_term idx < TIMER_DIFF_16 t (last_timer 0 ps) ->
  forall p, last ps = Some p ->
  let k1 := exec (chord_down p.2) (k <| now := t |>) in
  keys_in k1 rs ≡ₚ ks -> released rs ->
  (swallowed ← type_combo ps;
   wait_to t;;
   combo_task;;
   swallowed' ← type_combo rs;
   mret (swallowed && swallowed')) (idle_combos ring w, k) =
  (true, (idle_combos (ready_ring ring w) (increment_mod w),
          exec chord_up (k1 <| now := last_now (now k1) rs |>))).
Proof.
  intros Hw Hr Hps Ht Ht0 Hlate p Hp k1 Hrs Hrel.
  pose proof (last_Some ps p) as [Hl _]. destruct (Hl Hp) as [ps0 Eps]. clear Hl.
  assert (ps <> []) as Hne by (intros ->; done).
  assert (NoDup (keys_in k ps)) as HN by (rewrite Hps; apply (oc_nodup OC)).
  assert (keys_in k ps ⊆ ks) as Hs by (intros x Hx; by rewrite Hps in Hx).
  assert (length (keys_in k ps) = n) as Hlen by (by rewrite Hps).
  assert (type_combo ps (idle_combos ring w, k) = (true, (pressed_chord ring w (last_timer 0 ps) (keys_in k ps) (queue_of k ps),
    k <| now := last_now (now k) ps |>))) as E1.
  { destruct ps as [|p0 ps]; [done|]. unfold idle_combos. rewrite waiting_0.
    rewrite press_from; try done. intros x Hx; by apply not_elem_of_nil in Hx. }
  srun E1. unfold wait_to. rewrite run_core. cbn [modify fst snd].
  change ((k <| now := ?a |>) <| now := t |>) with (k <| now := t |>).
  assert (queue_of k ps = queue_of k ps0 ++ [queued (combo_lookup p.1.2 p.2 k) p.2]) as Eq.
  { subst ps. unfold queue_of. by rewrite fmap_app. }
  rewrite <-(queue_keys k ps) in HN, Hs, Hlen |- *. rewrite Eq in *.
  assert (u16 (now (k <| now := t |>)) = t) as Hu by (change (now (k <| now := t |>)) with t; by apply wrap_small; lia).
  srun (chord_fires ring w (last_timer 0 ps) (queue_of k ps0) (queued (combo_lookup p.1.2 p.2 k) p.2) (k <| now := t |>)
    Hw Hr HN Hs Hlen (press_timer 0 ps Ht Hne) ltac:(by rewrite Hu)).
  change (exec (chord_down (q_record (queued (combo_lookup p.1.2 p.2 k) p.2))) (k <| now := t |>)) with k1.
  assert (held (q_keycode <$> (queue_of k ps0 ++ [queued (combo_lookup p.1.2 p.2 k) p.2])) = held (keys_in k1 rs)) as ->.
  { unfold held. f_equal. apply down_perm. rewrite <-Eq, queue_keys, Hps. by symmetry. }
  destruct rs as [|p0 rs].
  { exfalso. rewrite <-Hrs in *. cbn in *. pose proof (oc_bits OC). unfold n in *. apply Permutation_nil_l in Hrs.
    rewrite <-Hrs in *. cbn in *. lia. }
  srun (release_from rs p0 (ready_ring ring w) (increment_mod w) k1
    ltac:(intros x Hx; by rewrite Hrs in Hx) ltac:(rewrite Hrs; apply (oc_nodup OC)) Hrel). done.
Qed.

(** ** Too few keys *)

(** The records one after the other; one delay, after the first. *)
Fixpoint pass_records (first : bool) (rs : list keyrecord_t) : stm keyboard unit :=
  match rs with
  | [] => skip
  | r :: rs =>
      action_tapping_process r;;
      clear_weak_mods;;
      when (first && (0 <? TAP_CODE_DELAY)) (emit (WaitMs TAP_CODE_DELAY));;
      pass_records false rs
  end.

Lemma pass_without_delay b b' rs : TAP_CODE_DELAY <= 0 -> pass_records b rs = pass_records b' rs.
Proof.
  intros Hd. destruct rs as [|r rs]; [done|]. cbn [pass_records].
  rewrite (proj2 (Z.ltb_ge 0 TAP_CODE_DELAY) Hd), !andb_false_r. done.
Qed.

Lemma dump_waiting ps k0 d s k :
  Forall (fun p : Z * Z * keyrecord_t => IS_NOEVENT (event p.2) = false) ps ->
  dump_records (queue_of k0 ps) d (s, k) = (tt, (s, exec (pass_records (negb d) (snd <$> ps)) k)).
Proof.
  intros He. revert d k. induction He as [|p ps Hp He IH]; intros d k; [done|].
  change (queue_of k0 (p :: ps)) with (queued (combo_lookup p.1.2 p.2 k0) p.2 :: queue_of k0 ps).
  cbn [fmap list_fmap dump_records pass_records]. unfold dump_record.
  cbn [q_record q_combo_index queued]. rewrite Hp. change (NO_INDEX =? NO_INDEX) with true. cbn [negb].
  rewrite andb_false_r. srun. rewrite run_core. cbn [fst snd]. srun. rewrite run_core. cbn [fst snd].
  rewrite !exec_bind. unfold eval, exec. rewrite (andb_comm (negb d)).
  destruct (Z.ltb_spec 0 TAP_CODE_DELAY) as [Hlt|Hge]; cbn [andb].
  - destruct d; cbn [negb when]; srun; [by rewrite IH|].
    rewrite run_core. cbn [fst snd]. rewrite tick_is_no_tap. cbn [fst snd]. srun. rewrite run_core. cbn [fst snd].
    cbn [fst snd]. srun. by rewrite IH.
  - cbn [when]. srun. rewrite IH. by rewrite (pass_without_delay false (negb d)).
Qed.

(** C32: Fewer keys than the combo has wait until the time is over; then they are
    typed in the order in which they were pressed, and nothing is left. *)
Theorem incomplete_chord_types_its_keys ps ring w t k :
  NoDup (keys_in k ps) -> keys_in k ps ⊆ ks -> (length ps < n)%nat -> ps <> [] ->
  press_in_time 0 ps -> Forall (fun p => IS_NOEVENT (event p.2) = false) ps ->
  0 < t < 2 ^ 16 -> get_combo_term idx < TIMER_DIFF_16 t (last_timer 0 ps) ->
  (swallowed ← type_combo ps; wait_to t;; combo_task;; mret swallowed) (idle_combos ring w, k) =
  (true, (idle_combos ring w, exec (pass_records true (snd <$> ps)) (k <| now := t |>))).
Proof.
  intros HN Hs Hlen Hne Ht He Ht0 Hlate.
  assert (length (keys_in k ps) <> n) as Hnot by (unfold keys_in; rewrite length_fmap; lia).
  assert (type_combo ps (idle_combos ring w, k) = (true, (waiting_chord ring w (last_timer 0 ps) (get_combo_term idx) (queue_of k ps) (collecting (keys_in k ps)),
    k <| now := last_now (now k) ps |>))) as E1.
  { destruct ps as [|p0 ps]; [done|]. unfold idle_combos. rewrite waiting_0.
    rewrite press_from; try done; [|intros x Hx; by apply not_elem_of_nil in Hx].
    by rewrite pressed_waits. }
  srun E1. unfold wait_to. rewrite run_core. cbn [modify fst snd].
  change ((k <| now := ?a |>) <| now := t |>) with (k <| now := t |>). set (k1 := k <| now := t |>).
  set (s := waiting_chord _ _ _ _ _ _). unfold combo_task. srun. rewrite run_own. cbn [gets fst snd].
  unfold timer_read. srun. rewrite run_core. cbn [gets fst snd].
  change (b_combo_enable s) with true. rewrite (oc_timer OC). cbn [negb orb].
  change (timer s) with (last_timer 0 ps). change (longest_term s) with (get_combo_term idx).
  assert (u16 (now k1) = t) as -> by (change (now k1) with t; by apply wrap_small; lia).
  rewrite (proj2 (nz_true _) (press_timer 0 ps Ht Hne)), (proj2 (Z.ltb_lt _ _) Hlate). cbn [andb].
  change (combo_buffer_read s) with w. change (combo_buffer_write s) with w. rewrite Z.eqb_refl. cbn [negb].
  unfold dump_key_buffer. srun. rewrite run_own. cbn [gets fst snd]. change (key_buffer s) with (queue_of k ps). srun.
  srun (dump_waiting ps k false s k1 He). rewrite run_own. cbn [modify fst snd]. srun.
  unfold put_timer. rewrite run_own. cbn [modify fst snd].
  srun (clear_with_flags (s <| key_buffer := [] |> <| timer := 0 |>) (exec (pass_records true (snd <$> ps)) k1)
    (collecting (keys_in k ps)) eq_refl). done.
Qed.
End chord.
