(* ===== verification/Mousekey.v ===== *)
(** * Mouse keys (quantum/mousekey.c)

    Keys that move the pointer and turn the wheels: the report the keys of a
    moment add up to, the acceleration of each of the modes of the code, and
    the task that repeats the motion.  Reports without boot protocol fields
    (MOUSE_EXTENDED_REPORT off). *)

From S2P Require Import Prelude.
From S2P Require Import Keycodes.
From S2P Require Import Report.
From S2P Require Import State.
From S2P Require Import ActionUtil.
From S2P Require Import Action.

(** ** State and configuration *)

(** The mode of the build: default, MOUSEKEY_INERTIA, MK_KINETIC_SPEED,
    MK_COMBINED, and MK_3_SPEED without and with MK_MOMENTARY_ACCEL. *)
Inductive mk_mode := Accelerated | Inertia | Kinetic | Combined | ThreeSpeed | ThreeSpeedMomentary.

Record mousekey := {
  mouse_report : report_mouse_t;
  mousekey_accel : Z;
  mousekey_repeat : Z;
  mousekey_wheel_repeat : Z;
  mousekey_frame : Z;
  mousekey_x_dir : Z;
  mousekey_y_dir : Z;
  mousekey_x_inertia : Z;
  mousekey_y_inertia : Z;
  mouse_timer : Z;
  mk_wheel_interval : Z;
  last_timer_c : Z;
  last_timer_w : Z;
  mk_speed : nat;
  (** The clock, and the reports given to the host. *)
  mk_now : Z;
  mk_sent : list report_mouse_t;
}.

Class MousekeyConfig := {
  MODE : mk_mode;
  MOUSEKEY_MOVE_DELTA : Z; MOUSEKEY_MOVE_MAX : Z;
  MOUSEKEY_WHEEL_DELTA : Z; MOUSEKEY_WHEEL_MAX : Z;
  mk_delay : Z; mk_interval : Z; mk_max_speed : Z; mk_time_to_max : Z;
  mk_wheel_delay : Z; mk_wheel_interval_0 : Z; mk_wheel_max_speed : Z; mk_wheel_time_to_max : Z;
  MOUSEKEY_INTERVAL : Z; MOUSEKEY_FRICTION : Z;
  mk_accelerated_speed : Z; mk_base_speed : Z; mk_decelerated_speed : Z; mk_initial_speed : Z;
  MOUSEKEY_WHEEL_INITIAL_MOVEMENTS : Z; MOUSEKEY_WHEEL_BASE_MOVEMENTS : Z;
  MOUSEKEY_WHEEL_ACCELERATED_MOVEMENTS : Z; MOUSEKEY_WHEEL_DECELERATED_MOVEMENTS : Z;
  c_offsets : list Z; c_intervals : list Z; w_offsets : list Z; w_intervals : list Z;
  (** An [int] of 16 bits, as on AVR. *)
  INT_16 : bool;
}.

Definition mouse_report_0 : report_mouse_t :=
  {| buttons := 0; boot_x := 0; boot_y := 0; mouse_x := 0; mouse_y := 0; mouse_v := 0; mouse_h := 0 |}.

(** [mkspd_unmod], [mkspd_0], [mkspd_1], [mkspd_2] are 0 to 3. *)
Definition mousekey_at_start `{!MousekeyConfig} (t : Z) : mousekey := {|
  mouse_report := mouse_report_0; mousekey_accel := 0; mousekey_repeat := 0; mousekey_wheel_repeat := 0;
  mousekey_frame := 0; mousekey_x_dir := 0; mousekey_y_dir := 0; mousekey_x_inertia := 0; mousekey_y_inertia := 0;
  mouse_timer := 0; mk_wheel_interval := mk_wheel_interval_0; last_timer_c := 0; last_timer_w := 0;
  mk_speed := match MODE with ThreeSpeedMomentary => 0%nat | _ => 2%nat end;
  mk_now := t; mk_sent := [];
|}.

Definition IS_MOUSEKEY_BUTTON (code : Z) : bool := within KC_MS_BTN1 KC_MS_BTN8 code.

(** 181/256 for 1/sqrt(2), rounded.  The sum is unsigned where an [int] has no
    more bits than [d]; [/] truncates. *)
Definition inv_sqrt2 (int_16 : bool) (x : Z) : Z :=
  let n := i16 (x * 181) in
  let d := 256 in
  if n <? 0 then i8 (if int_16 then u16 (n - d / 2) / d else Z.quot (n - d / 2) d) else i8 ((n + d / 2) / d).

Section mousekey.
Context `{!MousekeyConfig}.
Abbreviation M := (stm mousekey).

Definition upd_report (f : report_mouse_t -> report_mouse_t) : M unit :=
  modify (fun s => s <| mouse_report := f (mouse_report s) |>).
Definition read_timer : M Z := gets (fun s => u16 (mk_now s)).
Definition timer_elapsed (s : mousekey) (last : Z) : Z := TIMER_DIFF_16 (u16 (mk_now s)) last.

Definition times_inv_sqrt2 (x : Z) : Z := inv_sqrt2 INT_16 x.

(** ** Speed *)

(** The result of an operation on ints (a [uint8_t] is promoted to one), and of
    one with a [uint16_t], which is unsigned where int has 16 bits. *)
Definition int_op (z : Z) : Z := i_wrap (if INT_16 then 16 else 32) z.
Definition word_op (z : Z) : Z := if INT_16 then u16 z else i_wrap 32 z.

Definition accel (s : mousekey) (n : Z) : bool := nz (Z.land (mousekey_accel s) (bit n)).
Definition clamp_unit (top unit : Z) : Z := if top <? unit then top else if unit =? 0 then 1 else unit.

(** The unit of the default and the combined mode; [delta], [top] and the
    others are those of the pointer or of the wheel. *)
Definition accelerated_unit (delta max_speed time_to_max top repeat : Z) (s : mousekey) : Z :=
  clamp_unit top (u16 (
    let full := int_op (delta * max_speed) in
    if accel s 0 then Z.quot full 4
    else if accel s 1 then Z.quot full 2
    else if accel s 2 then full
    else if repeat =? 0 then delta
    else if time_to_max <=? repeat then full
    else Z.quot (int_op (full * repeat)) time_to_max)).
Definition combined_unit (delta max_speed time_to_max top repeat : Z) (s : mousekey) : Z :=
  clamp_unit top (u16 (
    let full := int_op (delta * max_speed) in
    if accel s 0 then 1
    else if accel s 1 then Z.quot full 2
    else if accel s 2 then top
    else if repeat =? 0 then delta
    else if time_to_max <=? repeat then full
    else Z.quot (int_op (full * repeat)) time_to_max)).

Definition kinetic_speed (s : mousekey) : Z :=
  if accel s 0 then mk_decelerated_speed
  else if accel s 2 then mk_accelerated_speed
  else if nz (mousekey_repeat s) && nz (mouse_timer s) then
    let t := timer_elapsed s (mouse_timer s) / 50 in
    let distance := word_op (MOUSEKEY_MOVE_DELTA * t) in
    let speed := u16 (word_op (word_op (mk_initial_speed + distance) + Z.quot (word_op (distance * t)) 2)) in
    if mk_base_speed <? speed then mk_base_speed else speed
  else mk_initial_speed.
(** [1000U / mk_interval] divides. *)
Definition kinetic_unit (s : mousekey) : Z :=
  let speed := u8 (kinetic_speed s / (1000 / mk_interval)) in
  if MOUSEKEY_MOVE_MAX <? speed then MOUSEKEY_MOVE_MAX else if speed <? 1 then 1 else speed.

(** The unit along an axis, in this mode, with its sign. *)
Definition inertia_unit (dir inertia : Z) : M Z :=
  frame ← gets mousekey_frame;
  unit ← (if frame <? 2 then
      modify (fun s => s <| mousekey_frame := 1 |>);; mret (i16 (dir * MOUSEKEY_MOVE_DELTA))
    else
      let percent := i16 (Z.quot (Z.shiftl inertia 8) mk_time_to_max) in
      let percent := i16 (Z.shiftr (percent * percent) 8) in
      let percent := if inertia <? 0 then i16 (- percent) else percent in
      mret (i16 (Z.sgn inertia + Z.shiftr (int_op (mk_max_speed * percent)) 8)));
  mret (i8 (if MOUSEKEY_MOVE_MAX <? unit then MOUSEKEY_MOVE_MAX
            else if unit <? - MOUSEKEY_MOVE_MAX then - MOUSEKEY_MOVE_MAX else unit)).

(** [move_unit] of the modes without inertia. *)
Definition move_unit (s : mousekey) : Z :=
  match MODE with
  | Kinetic => kinetic_unit s
  | Combined => combined_unit MOUSEKEY_MOVE_DELTA mk_max_speed mk_time_to_max MOUSEKEY_MOVE_MAX (mousekey_repeat s) s
  | _ => accelerated_unit MOUSEKEY_MOVE_DELTA mk_max_speed mk_time_to_max MOUSEKEY_MOVE_MAX (mousekey_repeat s) s
  end.

(** The combined mode looks at the repetitions of the pointer here, too. *)
Definition wheel_unit : M Z :=
  s ← gets (fun s => s);
  match MODE with
  | Kinetic =>
      let speed :=
        if accel s 0 then MOUSEKEY_WHEEL_DECELERATED_MOVEMENTS
        else if accel s 2 then MOUSEKEY_WHEEL_ACCELERATED_MOVEMENTS
        else if nz (mousekey_wheel_repeat s) && nz (mouse_timer s) then
          let t := timer_elapsed s (mouse_timer s) / 50 in
          let speed := if mk_wheel_interval s =? MOUSEKEY_WHEEL_BASE_MOVEMENTS then MOUSEKEY_WHEEL_INITIAL_MOVEMENTS
                       else u16 (word_op (word_op (MOUSEKEY_WHEEL_INITIAL_MOVEMENTS + t) + Z.quot (word_op (t * t)) 2)) in
          if MOUSEKEY_WHEEL_BASE_MOVEMENTS <? speed then MOUSEKEY_WHEEL_BASE_MOVEMENTS else speed
        else MOUSEKEY_WHEEL_INITIAL_MOVEMENTS in
      modify (fun s => s <| mk_wheel_interval := u16 (1000 / speed) |>);; mret 1
  | Combined => mret (combined_unit MOUSEKEY_WHEEL_DELTA mk_wheel_max_speed mk_wheel_time_to_max MOUSEKEY_WHEEL_MAX (mousekey_repeat s) s)
  | _ => mret (accelerated_unit MOUSEKEY_WHEEL_DELTA mk_wheel_max_speed mk_wheel_time_to_max MOUSEKEY_WHEEL_MAX (mousekey_wheel_repeat s) s)
  end.

Definition calc_inertia (direction velocity : Z) : Z :=
  let velocity :=
    if (-1 <? direction) && (velocity <? 0) then i8 (Z.quot ((velocity + 1) * (256 - MOUSEKEY_FRICTION)) 256)
    else if (direction <? 1) && (0 <? velocity) then i8 (Z.quot (velocity * (256 - MOUSEKEY_FRICTION)) 256)
    else velocity in
  if (0 <? direction) && (velocity <? mk_time_to_max) then i8 (velocity + 1)
  else if (direction <? 0) && (- mk_time_to_max <? velocity) then i8 (velocity - 1)
  else velocity.

(** ** Sending *)

Definition should_mousekey_report_send (r : report_mouse_t) : bool :=
  nz (mouse_x r) || nz (mouse_y r) || nz (mouse_v r) || nz (mouse_h r).

Definition mousekey_send : M unit :=
  time ← read_timer;
  r ← gets mouse_report;
  when (nz (mouse_x r) || nz (mouse_y r)) (modify (fun s => s <| last_timer_c := time |>));;
  when (nz (mouse_v r) || nz (mouse_h r)) (modify (fun s => s <| last_timer_w := time |>));;
  modify (fun s => s <| mk_sent := mk_sent s ++ [r] |>).

Definition mousekey_clear : M unit :=
  modify (fun s => s <| mouse_report := mouse_report_0 |> <| mousekey_repeat := 0 |> <| mousekey_wheel_repeat := 0 |>
    <| mousekey_accel := 0 |>);;
  when (match MODE with Inertia => true | _ => false end)
    (modify (fun s => s <| mousekey_frame := 0 |> <| mousekey_x_inertia := 0 |> <| mousekey_y_inertia := 0 |>
       <| mousekey_x_dir := 0 |> <| mousekey_y_dir := 0 |>)).
Definition mousekey_get_report : M report_mouse_t := gets mouse_report.

Definition at_least_1 (x : Z) : Z := if x =? 0 then 1 else x.
Definition diagonal_xy (r : report_mouse_t) : report_mouse_t :=
  if nz (mouse_x r) && nz (mouse_y r) then
    r <| mouse_x := at_least_1 (times_inv_sqrt2 (mouse_x r)) |> <| mouse_y := at_least_1 (times_inv_sqrt2 (mouse_y r)) |>
  else r.
Definition diagonal_vh (r : report_mouse_t) : report_mouse_t :=
  if nz (mouse_v r) && nz (mouse_h r) then
    r <| mouse_v := at_least_1 (times_inv_sqrt2 (mouse_v r)) |> <| mouse_h := at_least_1 (times_inv_sqrt2 (mouse_h r)) |>
  else r.

Definition signed_unit (unit old : Z) : Z := i8 (if 0 <? old then unit else - unit).

(** ** The task *)

Definition stop_motion : M unit :=
  upd_report (fun r => r <| mouse_x := 0 |> <| mouse_y := 0 |> <| mouse_v := 0 |> <| mouse_h := 0 |>).

(** The next frame of an animation; the report to be kept. *)
Definition inertia_step (tmpmr : report_mouse_t) : M report_mouse_t :=
  s ← gets (fun s => s);
  tmpmr ← (if nz (mousekey_frame s) &&
      ((if 1 <? mousekey_frame s then mk_interval else mk_delay * 10) <? timer_elapsed s (last_timer_c s)) then
      modify (fun s => s <| mousekey_x_inertia := calc_inertia (mousekey_x_dir s) (mousekey_x_inertia s) |>
                         <| mousekey_y_inertia := calc_inertia (mousekey_y_dir s) (mousekey_y_inertia s) |>);;
      s ← gets (fun s => s);
      x ← inertia_unit (mousekey_x_dir s) (mousekey_x_inertia s);
      upd_report (fun r => r <| mouse_x := x |>);;
      y ← inertia_unit (mousekey_y_dir s) (mousekey_y_inertia s);
      upd_report (fun r => r <| mouse_y := y |>);;
      modify (fun s => if mousekey_frame s <? 2 then s <| mousekey_frame := mousekey_frame s + 1 |> else s);;
      let tmpmr := if negb (nz (mousekey_x_dir s)) && negb (nz (mousekey_x_inertia s)) then tmpmr <| mouse_x := 0 |> else tmpmr in
      mret (if negb (nz (mousekey_y_dir s)) && negb (nz (mousekey_y_inertia s)) then tmpmr <| mouse_y := 0 |> else tmpmr)
    else mret tmpmr);
  s ← gets (fun s => s);
  if negb (nz (mousekey_x_dir s)) && negb (nz (mousekey_y_dir s)) && negb (nz (mousekey_x_inertia s)) && negb (nz (mousekey_y_inertia s)) then
    modify (fun s => s <| mousekey_frame := 0 |>);;
    mret (tmpmr <| mouse_x := 0 |> <| mouse_y := 0 |>)
  else mret tmpmr.

Definition pointer_step (tmpmr : report_mouse_t) : M unit :=
  s ← gets (fun s => s);
  when ((nz (mouse_x tmpmr) || nz (mouse_y tmpmr)) &&
        ((if nz (mousekey_repeat s) then mk_interval else mk_delay * 10) <? timer_elapsed s (last_timer_c s))) (
    when (negb (mousekey_repeat s =? 255)) (modify (fun s => s <| mousekey_repeat := mousekey_repeat s + 1 |>));;
    s ← gets (fun s => s);
    when (nz (mouse_x tmpmr)) (upd_report (fun r => r <| mouse_x := signed_unit (move_unit s) (mouse_x tmpmr) |>));;
    when (nz (mouse_y tmpmr)) (upd_report (fun r => r <| mouse_y := signed_unit (move_unit s) (mouse_y tmpmr) |>));;
    upd_report diagonal_xy).

Definition wheel_step (tmpmr : report_mouse_t) : M unit :=
  s ← gets (fun s => s);
  when ((nz (mouse_v tmpmr) || nz (mouse_h tmpmr)) &&
        ((if nz (mousekey_wheel_repeat s) then mk_wheel_interval s else mk_wheel_delay * 10) <? timer_elapsed s (last_timer_w s))) (
    when (negb (mousekey_wheel_repeat s =? 255)) (modify (fun s => s <| mousekey_wheel_repeat := mousekey_wheel_repeat s + 1 |>));;
    when (nz (mouse_v tmpmr)) (u ← wheel_unit; upd_report (fun r => r <| mouse_v := signed_unit u (mouse_v tmpmr) |>));;
    when (nz (mouse_h tmpmr)) (u ← wheel_unit; upd_report (fun r => r <| mouse_h := signed_unit u (mouse_h tmpmr) |>));;
    upd_report diagonal_vh).

(** MK_3_SPEED: the report as it is, at its intervals. *)
Definition three_speed_step (tmpmr : report_mouse_t) : M unit :=
  s ← gets (fun s => s);
  when ((nz (mouse_x tmpmr) || nz (mouse_y tmpmr)) && (nth (mk_speed s) c_intervals 0 <? timer_elapsed s (last_timer_c s)))
    (upd_report (fun r => r <| mouse_x := mouse_x tmpmr |> <| mouse_y := mouse_y tmpmr |>));;
  when ((nz (mouse_h tmpmr) || nz (mouse_v tmpmr)) && (nth (mk_speed s) w_intervals 0 <? timer_elapsed s (last_timer_w s)))
    (upd_report (fun r => r <| mouse_v := mouse_v tmpmr |> <| mouse_h := mouse_h tmpmr |>)).

Definition mousekey_task : M unit :=
  tmpmr ← gets mouse_report;
  stop_motion;;
  tmpmr ← match MODE with
    | Inertia => tmpmr ← inertia_step tmpmr; wheel_step tmpmr;; mret tmpmr
    | ThreeSpeed | ThreeSpeedMomentary => three_speed_step tmpmr;; mret tmpmr
    | _ => pointer_step tmpmr;; wheel_step tmpmr;; mret tmpmr
    end;
  r ← gets mouse_report;
  when (has_mouse_report_changed false r tmpmr || should_mousekey_report_send r) mousekey_send;;
  upd_report (fun _ => tmpmr).

(** ** Keys *)

Definition button_bit (code : Z) : Z := bit (code - KC_MS_BTN1).
Definition set_accel (f : Z -> Z) : M unit := modify (fun s => s <| mousekey_accel := f (mousekey_accel s) |>).

(** The wheels, the buttons and the speeds, after the keys of the pointer. *)
Definition other_on (code : Z) : M unit :=
  if code =? KC_MS_WH_UP then u ← wheel_unit; upd_report (fun r => r <| mouse_v := i8 u |>)
  else if code =? KC_MS_WH_DOWN then u ← wheel_unit; upd_report (fun r => r <| mouse_v := i8 (- u) |>)
  else if code =? KC_MS_WH_LEFT then u ← wheel_unit; upd_report (fun r => r <| mouse_h := i8 (- u) |>)
  else if code =? KC_MS_WH_RIGHT then u ← wheel_unit; upd_report (fun r => r <| mouse_h := i8 u |>)
  else if IS_MOUSEKEY_BUTTON code then upd_report (fun r => r <| buttons := u8 (Z.lor (buttons r) (button_bit code)) |>)
  else if code =? KC_MS_ACCEL0 then set_accel (fun a => Z.lor a (bit 0))
  else if code =? KC_MS_ACCEL1 then set_accel (fun a => Z.lor a (bit 1))
  else if code =? KC_MS_ACCEL2 then set_accel (fun a => Z.lor a (bit 2))
  else skip.

Definition inertia_on (code : Z) : M unit :=
  if (code =? KC_MS_UP) || (code =? KC_MS_DOWN) then
    modify (fun s => s <| mousekey_y_dir := if code =? KC_MS_DOWN then 1 else -1 |>);;
    s ← gets (fun s => s);
    when (mousekey_frame s <? 2) (y ← inertia_unit (mousekey_y_dir s) (mousekey_y_inertia s); upd_report (fun r => r <| mouse_y := y |>))
  else if (code =? KC_MS_LEFT) || (code =? KC_MS_RIGHT) then
    modify (fun s => s <| mousekey_x_dir := if code =? KC_MS_RIGHT then 1 else -1 |>);;
    s ← gets (fun s => s);
    when (mousekey_frame s <? 2) (x ← inertia_unit (mousekey_x_dir s) (mousekey_x_inertia s); upd_report (fun r => r <| mouse_x := x |>))
  else other_on code.

Definition moving (r : report_mouse_t) : bool := nz (mouse_x r) || nz (mouse_y r) || nz (mouse_h r) || nz (mouse_v r).

(** A key on top of another restarts the acceleration. *)
Definition accelerated_on (code : Z) : M unit :=
  when (match MODE with Kinetic => true | _ => false end)
    (t ← read_timer; modify (fun s => if mouse_timer s =? 0 then s <| mouse_timer := t |> else s));;
  r ← gets mouse_report;
  t ← read_timer;
  when (moving r)
    (match MODE with
     | Kinetic => modify (fun s => s <| mouse_timer := u16 (t - Z.shiftl MOUSEKEY_INTERVAL 2) |>)
     | _ => modify (fun s => s <| mousekey_repeat := u8 MOUSEKEY_MOVE_DELTA |> <| mousekey_wheel_repeat := u8 MOUSEKEY_WHEEL_DELTA |>)
     end);;
  u ← gets move_unit;
  if code =? KC_MS_UP then upd_report (fun r => r <| mouse_y := i8 (- u) |>)
  else if code =? KC_MS_DOWN then upd_report (fun r => r <| mouse_y := i8 u |>)
  else if code =? KC_MS_LEFT then upd_report (fun r => r <| mouse_x := i8 (- u) |>)
  else if code =? KC_MS_RIGHT then upd_report (fun r => r <| mouse_x := i8 u |>)
  else other_on code.

(** [c_offset] and [w_offset] are of 16 bits. *)
Definition offset_on (c w code : Z) (r : report_mouse_t) : report_mouse_t :=
  if code =? KC_MS_UP then r <| mouse_y := i8 (- c) |>
  else if code =? KC_MS_DOWN then r <| mouse_y := i8 c |>
  else if code =? KC_MS_LEFT then r <| mouse_x := i8 (- c) |>
  else if code =? KC_MS_RIGHT then r <| mouse_x := i8 c |>
  else if code =? KC_MS_WH_UP then r <| mouse_v := i8 w |>
  else if code =? KC_MS_WH_DOWN then r <| mouse_v := i8 (- w) |>
  else if code =? KC_MS_WH_LEFT then r <| mouse_h := i8 (- w) |>
  else if code =? KC_MS_WH_RIGHT then r <| mouse_h := i8 w |>
  else if IS_MOUSEKEY_BUTTON code then r <| buttons := u8 (Z.lor (buttons r) (button_bit code)) |>
  else r.

Definition set_size (offset x : Z) : Z :=
  let x := if 0 <? x then i8 offset else x in if x <? 0 then i8 (- offset) else x.
(** Here the wheels are not kept from 0. *)
Definition adjust_vh (r : report_mouse_t) : report_mouse_t :=
  if nz (mouse_h r) && nz (mouse_v r) then
    r <| mouse_h := times_inv_sqrt2 (mouse_h r) |> <| mouse_v := times_inv_sqrt2 (mouse_v r) |>
  else r.
Definition adjust_speed : M unit :=
  i ← gets mk_speed;
  let c := nth i c_offsets 0 in let w := nth i w_offsets 0 in
  upd_report (fun r => r <| mouse_x := set_size c (mouse_x r) |> <| mouse_y := set_size c (mouse_y r) |>
    <| mouse_h := set_size w (mouse_h r) |> <| mouse_v := set_size w (mouse_v r) |>);;
  upd_report diagonal_xy;;
  upd_report adjust_vh.

Definition speed_of (code : Z) : option nat :=
  if code =? KC_MS_ACCEL0 then Some 1%nat else if code =? KC_MS_ACCEL1 then Some 2%nat
  else if code =? KC_MS_ACCEL2 then Some 3%nat else None.
Definition change_speed (new : option nat) : M unit :=
  old ← gets mk_speed;
  let new := default old new in
  modify (fun s => s <| mk_speed := new |>);;
  when (negb (Nat.eqb new old)) adjust_speed.

Definition three_speed_on (code : Z) : M unit :=
  i ← gets mk_speed;
  upd_report (offset_on (nth i c_offsets 0) (nth i w_offsets 0) code);;
  change_speed (speed_of code).

Definition mousekey_on (code : Z) : M unit :=
  match MODE with
  | Inertia => inertia_on code
  | ThreeSpeed | ThreeSpeedMomentary => three_speed_on code
  | _ => accelerated_on code
  end.

(** Releasing a key stops the motion in its direction. *)
Definition pointer_off (code : Z) (r : report_mouse_t) : option report_mouse_t :=
  if (code =? KC_MS_UP) && (mouse_y r <? 0) then Some (r <| mouse_y := 0 |>)
  else if (code =? KC_MS_DOWN) && (0 <? mouse_y r) then Some (r <| mouse_y := 0 |>)
  else if (code =? KC_MS_LEFT) && (mouse_x r <? 0) then Some (r <| mouse_x := 0 |>)
  else if (code =? KC_MS_RIGHT) && (0 <? mouse_x r) then Some (r <| mouse_x := 0 |>)
  else None.
Definition other_off (code : Z) (r : report_mouse_t) : report_mouse_t :=
  if (code =? KC_MS_WH_UP) && (0 <? mouse_v r) then r <| mouse_v := 0 |>
  else if (code =? KC_MS_WH_DOWN) && (mouse_v r <? 0) then r <| mouse_v := 0 |>
  else if (code =? KC_MS_WH_LEFT) && (mouse_h r <? 0) then r <| mouse_h := 0 |>
  else if (code =? KC_MS_WH_RIGHT) && (0 <? mouse_h r) then r <| mouse_h := 0 |>
  else if IS_MOUSEKEY_BUTTON code then r <| buttons := clear_bits (buttons r) (button_bit code) |>
  else r.
Definition key_off (code : Z) (r : report_mouse_t) : report_mouse_t := default (other_off code r) (pointer_off code r).

Definition inertia_off (code : Z) : M unit :=
  modify (fun s =>
    if (code =? KC_MS_UP) && (mousekey_y_dir s <? 1) then s <| mousekey_y_dir := 0 |>
    else if (code =? KC_MS_DOWN) && (-1 <? mousekey_y_dir s) then s <| mousekey_y_dir := 0 |>
    else if (code =? KC_MS_LEFT) && (mousekey_x_dir s <? 1) then s <| mousekey_x_dir := 0 |>
    else if (code =? KC_MS_RIGHT) && (-1 <? mousekey_x_dir s) then s <| mousekey_x_dir := 0 |>
    else s <| mouse_report := other_off code (mouse_report s) |>).

Definition accel_off (code : Z) : M unit :=
  if code =? KC_MS_ACCEL0 then set_accel (fun a => clear_bits a (bit 0))
  else if code =? KC_MS_ACCEL1 then set_accel (fun a => clear_bits a (bit 1))
  else if code =? KC_MS_ACCEL2 then set_accel (fun a => clear_bits a (bit 2))
  else skip.

Definition repeat_off : M unit :=
  r ← gets mouse_report;
  when ((mouse_x r =? 0) && (mouse_y r =? 0)) (
    modify (fun s => s <| mousekey_repeat := 0 |>);;
    when (match MODE with Kinetic => true | _ => false end) (modify (fun s => s <| mouse_timer := 0 |>)));;
  when ((mouse_v r =? 0) && (mouse_h r =? 0)) (modify (fun s => s <| mousekey_wheel_repeat := 0 |>)).

Definition mousekey_off (code : Z) : M unit :=
  match MODE with
  | Inertia => inertia_off code;; accel_off code;; repeat_off
  | ThreeSpeed => upd_report (key_off code)
  | ThreeSpeedMomentary =>
      upd_report (key_off code);; change_speed (if speed_of code then Some 0%nat else None)
  | _ => upd_report (key_off code);; accel_off code;; repeat_off
  end.
End mousekey.

(** ** What the keys mean

    Along each axis the direction of the key pressed last, until this key is
    released; and the buttons that are down. *)

Inductive axis := AxisX | AxisY | AxisV | AxisH.
Definition on_axis (a : axis) (r : report_mouse_t) : Z :=
  match a with AxisX => mouse_x r | AxisY => mouse_y r | AxisV => mouse_v r | AxisH => mouse_h r end.

(** The axis and the direction of a key. *)
Definition direction_of (code : Z) : option (axis * Z) :=
  if code =? KC_MS_UP then Some (AxisY, -1) else if code =? KC_MS_DOWN then Some (AxisY, 1)
  else if code =? KC_MS_LEFT then Some (AxisX, -1) else if code =? KC_MS_RIGHT then Some (AxisX, 1)
  else if code =? KC_MS_WH_UP then Some (AxisV, 1) else if code =? KC_MS_WH_DOWN then Some (AxisV, -1)
  else if code =? KC_MS_WH_LEFT then Some (AxisH, -1) else if code =? KC_MS_WH_RIGHT then Some (AxisH, 1)
  else None.

Record motion := { direction : axis -> Z; down : Z }.
Definition at_rest : motion := {| direction _ := 0; down := 0 |}.
Definition motion_of (r : report_mouse_t) : motion :=
  {| direction a := Z.sgn (on_axis a r); down := buttons r |}.
Definition same_motion (m m' : motion) : Prop := (forall a, direction m a = direction m' a) /\ down m = down m'.

#[export] Instance axis_eq_dec : EqDecision axis.
Proof. solve_decision. Defined.

Inductive mk_event := KeyOn (code : Z) | KeyOff (code : Z) | Task | Send | Clear | Wait (t : Z).

Definition turn (a : axis) (d : Z) (m : motion) : motion :=
  {| direction b := if decide (b = a) then d else direction m b; down := down m |}.
Definition meaning (e : mk_event) (m : motion) : motion :=
  match e with
  | KeyOn code =>
      match direction_of code with
      | Some (a, d) => turn a d m
      | None => if IS_MOUSEKEY_BUTTON code then {| direction := direction m; down := Z.lor (down m) (button_bit code) |} else m
      end
  | KeyOff code =>
      match direction_of code with
      | Some (a, d) => if direction m a =? d then turn a 0 m else m
      | None => if IS_MOUSEKEY_BUTTON code then {| direction := direction m; down := clear_bits (down m) (button_bit code) |} else m
      end
  | Task | Send | Wait _ => m
  | Clear => at_rest
  end.

Section meaning.
Context `{!MousekeyConfig}.

Definition mk_step (e : mk_event) : stm mousekey unit :=
  match e with
  | KeyOn code => mousekey_on code
  | KeyOff code => mousekey_off code
  | Task => mousekey_task
  | Send => mousekey_send
  | Clear => mousekey_clear
  | Wait t => modify (fun s => s <| mk_now := t |>)
  end.

(** A report that can be given to the host while the keys mean [m]: no axis
    moves against its direction, and none overflows. *)
Definition in_range (r : report_mouse_t) : Prop := (forall a, -127 <= on_axis a r <= 127) /\ is_byte (buttons r).
Definition shows (m : motion) (r : report_mouse_t) : Prop :=
  in_range r /\ buttons r = down m /\ forall a, Z.sgn (on_axis a r) = direction m a \/ on_axis a r = 0.

Class MousekeyOk : Prop := {
  move_max : 0 < MOUSEKEY_MOVE_MAX <= 127;
  wheel_max : 0 < MOUSEKEY_WHEEL_MAX <= 127;
  c_offsets_ok i : (i < 4)%nat -> 0 < nth i c_offsets 0 <= 127;
  w_offsets_ok i : (i < 4)%nat -> 0 < nth i w_offsets 0 <= 127;
}.
Context `{!MousekeyOk}.

Lemma clamp_unit_range top unit : 0 < top <= 127 -> 0 <= unit -> 0 < clamp_unit top unit <= 127.
Proof. intros Ht Hu. unfold clamp_unit. destruct (Z.ltb_spec top unit); [lia|]. destruct (Z.eqb_spec unit 0); lia. Qed.
Lemma u16_nonneg z : 0 <= u16 z.
Proof. by apply wrap_range. Qed.

Lemma move_unit_range s : 0 < move_unit s <= 127.
Proof.
  pose proof move_max. unfold move_unit, kinetic_unit, accelerated_unit, combined_unit.
  destruct MODE; try (apply clamp_unit_range; [done|apply u16_nonneg]).
  destruct (Z.ltb_spec MOUSEKEY_MOVE_MAX (u8 (kinetic_speed s / (1000 / mk_interval)))); [lia|].
  destruct (Z.ltb_spec (u8 (kinetic_speed s / (1000 / mk_interval))) 1); lia.
Qed.

Lemma i8_small z : -128 <= z < 128 -> i8 z = z.
Proof. intros Hz. unfold i_wrap. cbn. rewrite Z.mod_small by lia. lia. Qed.

(** 181/256 keeps the sign and the range, however wide an [int] is. *)
Lemma times_inv_sqrt2_sgn x : -127 <= x <= 127 ->
  Z.sgn (times_inv_sqrt2 x) = Z.sgn x /\ -127 <= times_inv_sqrt2 x <= 127.
Proof.
  intros Hx.
  assert (forallb (fun b => forallb (fun y => (Z.sgn (inv_sqrt2 b y) =? Z.sgn y) && (-127 <=? inv_sqrt2 b y) && (inv_sqrt2 b y <=? 127))
    (seqZ (-127) 255)) [true; false] = true) as Hall by (vm_compute; reflexivity).
  rewrite forallb_forall in Hall. specialize (Hall INT_16 ltac:(destruct INT_16; cbn; tauto)).
  rewrite forallb_forall in Hall. specialize (Hall x ltac:(apply list_elem_of_In, elem_of_seqZ; lia)).
  rewrite !andb_true_iff in Hall. destruct Hall as [[H1%Z.eqb_eq H2%Z.leb_le] H3%Z.leb_le]. done.
Qed.

(** *** Along an axis *)

Definition with_axis (a : axis) (v : Z) (r : report_mouse_t) : report_mouse_t :=
  match a with
  | AxisX => r <| mouse_x := v |> | AxisY => r <| mouse_y := v |>
  | AxisV => r <| mouse_v := v |> | AxisH => r <| mouse_h := v |>
  end.
Lemma on_with_axis a b v r : on_axis b (with_axis a v r) = if decide (b = a) then v else on_axis b r.
Proof. by destruct a, b. Qed.
Lemma buttons_with_axis a v r : buttons (with_axis a v r) = buttons r.
Proof. by destruct a. Qed.

Lemma with_axis_range a v r : in_range r -> -127 <= v <= 127 -> in_range (with_axis a v r).
Proof.
  intros [Hr Hb] Hv. split; [|by rewrite buttons_with_axis]. intros b. rewrite on_with_axis. case_decide; [done|apply Hr].
Qed.
Lemma with_axis_motion a v r : same_motion (motion_of (with_axis a v r)) (turn a (Z.sgn v) (motion_of r)).
Proof. split; [|apply buttons_with_axis]. intros b. cbn. rewrite on_with_axis. by case_decide. Qed.

Lemma direction_range code a d : direction_of code = Some (a, d) -> d = 1 \/ d = -1.
Proof. unfold direction_of. repeat case_match; naive_solver. Qed.

(** What a key pressed makes of the report. *)
Definition on_result (code : Z) (r r' : report_mouse_t) : Prop :=
  match direction_of code with
  | Some (a, d) => exists v, Z.sgn v = d /\ -127 <= v <= 127 /\ r' = with_axis a v r
  | None => r' = if IS_MOUSEKEY_BUTTON code then r <| buttons := u8 (Z.lor (buttons r) (button_bit code)) |> else r
  end.

Lemma button_bit_byte code : IS_MOUSEKEY_BUTTON code = true -> is_byte (button_bit code).
Proof.
  intros Hb. apply andb_true_iff in Hb as [H1%Z.leb_le H2%Z.leb_le]. unfold button_bit, bit. rewrite Z.shiftl_1_l.
  unfold KC_MS_BTN1, KC_MS_BTN8 in *. split; [apply Z.pow_nonneg; lia|]. apply Z.pow_lt_mono_r; lia.
Qed.

Lemma byte_lor x y : is_byte x -> is_byte y -> is_byte (Z.lor x y).
Proof.
  intros Hx Hy. enough (u8 (Z.lor x y) = Z.lor x y) as <- by apply is_byte_u8.
  unfold wrap. rewrite <-Z.land_ones, Z.land_lor_distr_l, !Z.land_ones by lia.
  by rewrite !Z.mod_small.
Qed.
Lemma byte_clear x y : is_byte x -> is_byte (clear_bits x y).
Proof.
  intros Hx. enough (u8 (clear_bits x y) = clear_bits x y) as <- by apply is_byte_u8.
  unfold wrap, clear_bits. rewrite <-Z.land_ones by lia. rewrite <-Z.land_assoc, (Z.land_comm (Z.lnot y)), Z.land_assoc.
  rewrite Z.land_ones by lia. by rewrite Z.mod_small.
Qed.

Lemma on_result_meaning code r r' :
  in_range r -> on_result code r r' -> in_range r' /\ same_motion (motion_of r') (meaning (KeyOn code) (motion_of r)).
Proof.
  intros Hr Ho. unfold on_result, meaning in *. destruct (direction_of code) as [[a d]|].
  - destruct Ho as (v & <- & Hv & ->). split; [by apply with_axis_range|apply with_axis_motion].
  - subst r'. destruct (IS_MOUSEKEY_BUTTON code) eqn:Hb; [|done]. destruct Hr as [Hr Hbyte].
    pose proof (byte_lor _ _ Hbyte (button_bit_byte _ Hb)) as Hlor.
    assert (u8 (Z.lor (buttons r) (button_bit code)) = Z.lor (buttons r) (button_bit code)) as E by (by apply wrap_small).
    split; [split; [exact Hr|by rewrite E]|]. split; [by intros []|]. by rewrite E.
Qed.

(** What is not the report stays. *)
Definition same_rest (s s' : mousekey) : Prop := mk_sent s' = mk_sent s /\ mk_speed s' = mk_speed s.

Lemma wheel_unit_spec s :
  exists u s', wheel_unit s = (u, s') /\ 0 < u <= 127 /\ mouse_report s' = mouse_report s /\ same_rest s s'.
Proof.
  pose proof wheel_max. unfold wheel_unit, accelerated_unit, combined_unit. srun.
  destruct MODE; srun; eexists _, _; (split; [reflexivity|]); (split; [|done]); try lia;
    (apply clamp_unit_range; [done|apply u16_nonneg]).
Qed.

Lemma other_on_spec code s :
  match direction_of code with Some (AxisX, _) | Some (AxisY, _) => false | _ => true end = true ->
  on_result code (mouse_report s) (mouse_report (exec (other_on code) s)) /\ same_rest s (exec (other_on code) s).
Proof.
  destruct (wheel_unit_spec s) as (u & s' & E & Hu & Hr & Hrest).
  unfold on_result, other_on, direction_of, exec, upd_report, set_accel.
  repeat (match goal with |- context [if code =? ?k then _ else _] => destruct (code =? k) eqn:? end; try discriminate);
    intros _; try (rewrite (run_bind _ _ _ _ _ E)); srun.
  all: try (split; [|exact Hrest]; first
    [ exists (i8 u); rewrite i8_small by lia; split_and!; [lia..|]; cbn; by rewrite Hr
    | exists (i8 (- u)); rewrite i8_small by lia; split_and!; [lia..|]; cbn; by rewrite Hr ]).
  all: by destruct (IS_MOUSEKEY_BUTTON code).
Qed.

(** *** A key pressed *)

Lemma exec_prefix {A} (m : stm mousekey A) (k : A -> stm mousekey unit) (P : mousekey -> mousekey -> Prop) s :
  P s (exec m s) -> (forall x s', P s s' -> P s (exec (k x) s')) -> P s (exec (m ≫= k) s).
Proof. intros Hm Hk. unfold exec in *. unfold mbind, stm_bind. destruct (m s) as [x s']. cbn. by apply Hk. Qed.

Definition untouched (s s' : mousekey) : Prop := mouse_report s' = mouse_report s /\ same_rest s s'.

Lemma accelerated_on_spec code s :
  let s' := exec (accelerated_on code) s in
  on_result code (mouse_report s) (mouse_report s') /\ same_rest s s'.
Proof.
  cbv zeta. unfold accelerated_on.
  set (P := fun s s' => on_result code (mouse_report s) (mouse_report s') /\ same_rest s s').
  assert (forall s1, untouched s s1 ->
    P s (exec (u ← gets move_unit;
      if code =? KC_MS_UP then upd_report (fun r => r <| mouse_y := i8 (- u) |>)
      else if code =? KC_MS_DOWN then upd_report (fun r => r <| mouse_y := i8 u |>)
      else if code =? KC_MS_LEFT then upd_report (fun r => r <| mouse_x := i8 (- u) |>)
      else if code =? KC_MS_RIGHT then upd_report (fun r => r <| mouse_x := i8 u |>)
      else other_on code) s1)) as Htail.
  { intros s1 [Hr [Hs Hm]]. unfold exec. srun. pose proof (move_unit_range s1) as Hu. set (u := move_unit s1) in *.
    unfold P. pose proof (other_on_spec code s1) as Ho. unfold on_result, direction_of, exec in *.
    destruct (code =? KC_MS_UP); [|destruct (code =? KC_MS_DOWN); [|destruct (code =? KC_MS_LEFT); [|destruct (code =? KC_MS_RIGHT)]]].
    5: { destruct Ho as [Ho [Hs' Hm']]; [by repeat case_match|]. rewrite Hr in Ho. split; [exact Ho|]. split; congruence. }
    all: cbn [upd_report modify snd]; (split; [|by split]).
    all: first [ exists (i8 u); rewrite i8_small by lia; split_and!; [lia..|]; cbn; by rewrite Hr
               | exists (i8 (- u)); rewrite i8_small by lia; split_and!; [lia..|]; cbn; by rewrite Hr ]. }
  assert (forall (b : bool) m s1, untouched s s1 -> (forall s2, untouched s s2 -> untouched s (exec m s2)) -> untouched s (exec (when b m) s1)) as Hwhen
    by (intros [] m s1 Hs1 Hm; [by apply Hm|exact Hs1]).
  assert (untouched s s) as H0' by done.
  rewrite exec_bind. set (s1 := exec (when _ _) s).
  assert (untouched s s1) as H1.
  { apply Hwhen; [done|]. intros s2 H2. unfold exec, read_timer. srun. cbn [modify snd]. destruct (mouse_timer s2 =? 0); exact H2. }
  unfold exec, read_timer. srun. match goal with |- on_result _ _ (mouse_report (snd (?m s1))) /\ _ => change (P s (exec m s1)) end.
  rewrite exec_bind. apply Htail. apply Hwhen; [done|]. intros s2 H2. destruct MODE; exact H2.
Qed.

(** *** Three speeds *)

Lemma set_size_sgn c x : 0 < c <= 127 -> Z.sgn (set_size c x) = Z.sgn x /\ (-127 <= x <= 127 -> -127 <= set_size c x <= 127).
Proof.
  intros Hc. unfold set_size. rewrite !i8_small by lia.
  destruct (Z.ltb_spec 0 x); [destruct (Z.ltb_spec c 0); lia|]. destruct (Z.ltb_spec x 0); lia.
Qed.

Definition same_signs (r r' : report_mouse_t) : Prop := in_range r' /\ same_motion (motion_of r') (motion_of r).
Lemma same_signs_trans r1 r2 r3 : same_signs r1 r2 -> same_signs r2 r3 -> same_signs r1 r3.
Proof. intros [_ [H1 H1']] [Hr [H2 H2']]. split; [done|]. split; [intros a; by rewrite H2|by rewrite H2']. Qed.

Lemma at_least_1_same x y : Z.sgn y = Z.sgn x -> x <> 0 -> at_least_1 y = y.
Proof. intros Hs Hx. unfold at_least_1. destruct (Z.eqb_spec y 0); [lia|done]. Qed.

Lemma diagonal_xy_signs r : in_range r -> same_signs r (diagonal_xy r).
Proof.
  intros [Hr Hb]. unfold diagonal_xy. destruct (nz (mouse_x r) && nz (mouse_y r)) eqn:E; [|by split].
  apply andb_true_iff in E as [Hx%nz_true Hy%nz_true].
  destruct (times_inv_sqrt2_sgn _ (Hr AxisX)) as [H1 H1'], (times_inv_sqrt2_sgn _ (Hr AxisY)) as [H2 H2'].
  cbn [on_axis] in *. rewrite (at_least_1_same _ _ H1 Hx), (at_least_1_same _ _ H2 Hy).
  split; [split; [|done]|split; [|done]]; intros []; cbn; try done; try apply (Hr AxisV); apply (Hr AxisH).
Qed.
Lemma diagonal_vh_signs r : in_range r -> same_signs r (diagonal_vh r).
Proof.
  intros [Hr Hb]. unfold diagonal_vh. destruct (nz (mouse_v r) && nz (mouse_h r)) eqn:E; [|by split].
  apply andb_true_iff in E as [Hx%nz_true Hy%nz_true].
  destruct (times_inv_sqrt2_sgn _ (Hr AxisV)) as [H1 H1'], (times_inv_sqrt2_sgn _ (Hr AxisH)) as [H2 H2'].
  cbn [on_axis] in *. rewrite (at_least_1_same _ _ H1 Hx), (at_least_1_same _ _ H2 Hy).
  split; [split; [|done]|split; [|done]]; intros []; cbn; try done; try apply (Hr AxisX); apply (Hr AxisY).
Qed.
Lemma adjust_vh_signs r : in_range r -> same_signs r (adjust_vh r).
Proof.
  intros [Hr Hb]. unfold adjust_vh. destruct (nz (mouse_h r) && nz (mouse_v r)) eqn:E; [|by split].
  destruct (times_inv_sqrt2_sgn _ (Hr AxisV)) as [H1 H1'], (times_inv_sqrt2_sgn _ (Hr AxisH)) as [H2 H2'].
  cbn [on_axis] in *.
  split; [split; [|done]|split; [|done]]; intros []; cbn; try done; try apply (Hr AxisX); apply (Hr AxisY).
Qed.

Lemma adjust_speed_signs s :
  (mk_speed s < 4)%nat -> in_range (mouse_report s) ->
  let s' := exec adjust_speed s in same_signs (mouse_report s) (mouse_report s') /\ same_rest s s'.
Proof.
  intros Hi Hr. pose proof (c_offsets_ok _ Hi) as Hc. pose proof (w_offsets_ok _ Hi) as Hw.
  cbv zeta. unfold adjust_speed, upd_report, exec. srun. set (c := nth (mk_speed s) c_offsets 0) in *. set (w := nth (mk_speed s) w_offsets 0) in *.
  split; [|done]. cbn [modify snd].
  set (r1 := (mouse_report s) <| mouse_x := set_size c (mouse_x (mouse_report s)) |> <| mouse_y := set_size c (mouse_y (mouse_report s)) |>
    <| mouse_h := set_size w (mouse_h (mouse_report s)) |> <| mouse_v := set_size w (mouse_v (mouse_report s)) |>).
  change (same_signs (mouse_report s) (adjust_vh (diagonal_xy r1))).
  assert (same_signs (mouse_report s) r1) as H1.
  { destruct Hr as [Hr Hb]. split; [split; [|done]|split; [|done]]; intros []; cbn; try (by apply set_size_sgn).
    - apply (set_size_sgn c); [done|]. apply (Hr AxisX).
    - apply (set_size_sgn c); [done|]. apply (Hr AxisY).
    - apply (set_size_sgn w); [done|]. apply (Hr AxisV).
    - apply (set_size_sgn w); [done|]. apply (Hr AxisH). }
  pose proof (diagonal_xy_signs r1 (proj1 H1)) as H2. pose proof (adjust_vh_signs _ (proj1 H2)) as H3.
  eapply same_signs_trans; [exact H1|]. by eapply same_signs_trans.
Qed.

Lemma change_speed_signs new s :
  (mk_speed s < 4)%nat -> match new with Some i => (i < 4)%nat | None => True end -> in_range (mouse_report s) ->
  let s' := exec (change_speed new) s in
  same_signs (mouse_report s) (mouse_report s') /\ mk_sent s' = mk_sent s /\ (mk_speed s' < 4)%nat.
Proof.
  intros Hi Hnew Hr. cbv zeta. unfold change_speed, exec. srun.
  set (j := default (mk_speed s) new). assert (j < 4)%nat as Hj by (unfold j; by destruct new).
  destruct (negb (Nat.eqb j (mk_speed s))); cbn [when].
  - assert (mk_speed (s <| mk_speed := j |>) = j) as Ej by reflexivity.
    destruct (adjust_speed_signs (s <| mk_speed := j |>)) as [H1 [H2 H3]]; [by rewrite Ej|exact Hr|]. split; [exact H1|]. split; [exact H2|].
    unfold exec in H3. rewrite H3. by rewrite Ej.
  - split; [by split|]. by split.
Qed.

Lemma offset_on_spec c w code r : 0 < c <= 127 -> 0 < w <= 127 -> on_result code r (offset_on c w code r).
Proof.
  intros Hc Hw. unfold on_result, offset_on, direction_of.
  repeat (match goal with |- context [if code =? ?k then _ else _] => destruct (code =? k) end);
  try done; rewrite i8_small by lia; eexists; (split; [|split; [|reflexivity]]; lia).
Qed.

(** *** A key released *)

Lemma key_off_meaning code r :
  in_range r -> in_range (key_off code r) /\ same_motion (motion_of (key_off code r)) (meaning (KeyOff code) (motion_of r)).
Proof.
  intros [Hr Hb].
  assert (forall a d, Z.sgn (on_axis a r) = d -> in_range (with_axis a 0 r) /\
    same_motion (motion_of (with_axis a 0 r)) (if direction (motion_of r) a =? d then turn a 0 (motion_of r) else motion_of r)) as Hstop.
  { intros a d Hd. split; [apply with_axis_range; [by split|lia]|]. cbn [motion_of direction]. rewrite Hd, Z.eqb_refl. apply with_axis_motion. }
  assert (forall a d, Z.sgn (on_axis a r) <> d -> same_motion (motion_of r)
    (if direction (motion_of r) a =? d then turn a 0 (motion_of r) else motion_of r)) as Hkeep.
  { intros a d Hd. cbn [motion_of direction]. by rewrite (proj2 (Z.eqb_neq _ _) Hd). }
  assert (in_range r) as Hok by (by split).
  unfold key_off, pointer_off, other_off, meaning, direction_of.
  destruct (Z.eqb_spec code KC_MS_UP) as [->|]; [destruct (Z.ltb_spec (mouse_y r) 0); cbn [andb default];
    [apply (Hstop AxisY); cbn; lia|split; [exact Hok|apply (Hkeep AxisY); cbn; lia]]|].
  destruct (Z.eqb_spec code KC_MS_DOWN) as [->|]; [destruct (Z.ltb_spec 0 (mouse_y r)); cbn [andb default];
    [apply (Hstop AxisY); cbn; lia|split; [exact Hok|apply (Hkeep AxisY); cbn; lia]]|].
  destruct (Z.eqb_spec code KC_MS_LEFT) as [->|]; [destruct (Z.ltb_spec (mouse_x r) 0); cbn [andb default];
    [apply (Hstop AxisX); cbn; lia|split; [exact Hok|apply (Hkeep AxisX); cbn; lia]]|].
  destruct (Z.eqb_spec code KC_MS_RIGHT) as [->|]; [destruct (Z.ltb_spec 0 (mouse_x r)); cbn [andb default];
    [apply (Hstop AxisX); cbn; lia|split; [exact Hok|apply (Hkeep AxisX); cbn; lia]]|].
  cbn [andb default].
  destruct (Z.eqb_spec code KC_MS_WH_UP) as [->|]; [destruct (Z.ltb_spec 0 (mouse_v r)); cbn [andb];
    [apply (Hstop AxisV); cbn; lia|split; [exact Hok|apply (Hkeep AxisV); cbn; lia]]|].
  destruct (Z.eqb_spec code KC_MS_WH_DOWN) as [->|]; [destruct (Z.ltb_spec (mouse_v r) 0); cbn [andb];
    [apply (Hstop AxisV); cbn; lia|split; [exact Hok|apply (Hkeep AxisV); cbn; lia]]|].
  destruct (Z.eqb_spec code KC_MS_WH_LEFT) as [->|]; [destruct (Z.ltb_spec (mouse_h r) 0); cbn [andb];
    [apply (Hstop AxisH); cbn; lia|split; [exact Hok|apply (Hkeep AxisH); cbn; lia]]|].
  destruct (Z.eqb_spec code KC_MS_WH_RIGHT) as [->|]; [destruct (Z.ltb_spec 0 (mouse_h r)); cbn [andb];
    [apply (Hstop AxisH); cbn; lia|split; [exact Hok|apply (Hkeep AxisH); cbn; lia]]|].
  cbn [andb]. destruct (IS_MOUSEKEY_BUTTON code) eqn:Hbtn; [|by split].
  split; [split; [exact Hr|by apply byte_clear]|]. by split; [intros []|].
Qed.

Lemma accel_off_untouched code s : untouched s (exec (accel_off code) s).
Proof. unfold accel_off, set_accel. by repeat case_match. Qed.
Lemma repeat_off_untouched s : untouched s (exec repeat_off s).
Proof.
  unfold repeat_off, exec. srun.
  destruct ((mouse_x (mouse_report s) =? 0) && (mouse_y (mouse_report s) =? 0)), ((mouse_v (mouse_report s) =? 0) && (mouse_h (mouse_report s) =? 0));
    cbn [when]; srun; destruct MODE; cbn [when]; srun; done.
Qed.

(** *** The task *)

(** Along each axis [r] moves as [t] does, or stands still, but not along
    those of [A]. *)
Definition moves_within (A : axis -> Prop) (t r : report_mouse_t) : Prop :=
  in_range r /\ buttons r = buttons t /\
  forall a, Z.sgn (on_axis a r) = Z.sgn (on_axis a t) \/ on_axis a r = 0 /\ ~ A a.
Definition during (A : axis -> Prop) (t : report_mouse_t) (l : list report_mouse_t) (i : nat) (s : mousekey) : Prop :=
  moves_within A t (mouse_report s) /\ mk_sent s = l /\ mk_speed s = i.
Definition none (a : axis) : Prop := False.
Definition with_ (a : axis) (A : axis -> Prop) (b : axis) : Prop := b = a \/ A b.

Lemma during_weaken (A B : axis -> Prop) t l i s : (forall a, B a -> A a) -> during A t l i s -> during B t l i s.
Proof.
  intros HBA ((Hr & Hb & Hs) & Hl & Hi). split; [|by split]. split; [done|]. split; [done|].
  intros a. destruct (Hs a) as [E|[E Hn]]; [by left|right]. split; [done|]. intros HB. by apply Hn, HBA.
Qed.

Lemma signed_unit_spec u x : 0 < u <= 127 -> x <> 0 -> Z.sgn (signed_unit u x) = Z.sgn x /\ -127 <= signed_unit u x <= 127.
Proof.
  intros Hu Hx. unfold signed_unit. destruct (Z.ltb_spec 0 x); rewrite i8_small by lia; lia.
Qed.

Lemma within_axis A t r a v :
  moves_within A t r -> -127 <= v <= 127 -> Z.sgn v = Z.sgn (on_axis a t) -> moves_within (with_ a A) t (with_axis a v r).
Proof.
  intros (Hr & Hb & Hs) Hv Hsgn. split; [by apply with_axis_range|]. split; [by rewrite buttons_with_axis|].
  intros b. rewrite on_with_axis. case_decide as E; [subst; by left|].
  destruct (Hs b) as [H1|[H1 H2]]; [by left|right]. split; [done|]. by intros [?|?].
Qed.
Lemma within_signs A t r r' : moves_within A t r -> same_signs r r' -> moves_within A t r'.
Proof.
  intros (Hr & Hb & Hs) (Hr' & Hm & Hb'). split; [done|]. split; [cbn in Hb'; congruence|]. intros a.
  specialize (Hm a). cbn in Hm. destruct (Hs a) as [E|[E Hn]]; [left; congruence|right]. rewrite E in Hm. cbn in Hm. split; [lia|done].
Qed.

Lemma during_axis A t l i a v s : -127 <= v <= 127 -> Z.sgn v = Z.sgn (on_axis a t) ->
  during A t l i s -> during (with_ a A) t l i (s <| mouse_report := with_axis a v (mouse_report s) |>).
Proof. intros Hv Hs (Hw & Hl & Hi). split; [by apply within_axis|by split]. Qed.
Lemma during_still A t l i a s : on_axis a t = 0 -> during A t l i s -> during (with_ a A) t l i s.
Proof.
  intros Ht ((Hr & Hb & Hs) & Hl & Hi). split; [|by split]. split; [done|]. split; [done|].
  intros b. destruct (Hs b) as [E|[E Hn]]; [by left|]. destruct (decide (b = a)) as [->|]; [left; by rewrite E, Ht|right].
  split; [done|]. by intros [?|?].
Qed.

(** A step along an axis: afterwards it does move. *)
Lemma move_axis A t l i a x s0 s : x = on_axis a t -> during A t l i s ->
  during (with_ a A) t l i (exec (when (nz x) (upd_report (with_axis a (signed_unit (move_unit s0) x)))) s).
Proof.
  intros -> Hs. destruct (nz (on_axis a t)) eqn:Hx; cbn [when].
  - apply nz_true in Hx. destruct (signed_unit_spec (move_unit s0) _ (move_unit_range s0) Hx). by apply during_axis.
  - apply during_still; [|done]. unfold nz in Hx. by destruct (Z.eqb_spec (on_axis a t) 0).
Qed.
Lemma turn_axis A t l i a x s : x = on_axis a t -> during A t l i s ->
  during (with_ a A) t l i (exec (when (nz x) (u ← wheel_unit; upd_report (with_axis a (signed_unit u x)))) s).
Proof.
  intros -> Hs. destruct (nz (on_axis a t)) eqn:Hx; cbn [when].
  - apply nz_true in Hx. destruct Hs as (Hw & Hl & Hi).
    unfold exec. destruct (wheel_unit_spec s) as (u & s' & E & Hu & Hr & Hsent & Hsp). srun E.
    destruct (signed_unit_spec u _ Hu Hx). apply during_axis; [done|done|]. split; [by rewrite Hr|]. split; congruence.
  - apply during_still; [|done]. unfold nz in Hx. by destruct (Z.eqb_spec (on_axis a t) 0).
Qed.
Lemma preserves_signs A t l i f : (forall r, in_range r -> same_signs r (f r)) -> preserves (during A t l i) (upd_report f).
Proof.
  intros Hf s (Hw & Hl & Hi). split; [|by split]. eapply within_signs; [exact Hw|]. apply Hf, Hw.
Qed.

(** The axes that certainly move after a step. *)
Definition pointer_due (t : report_mouse_t) (s : mousekey) : bool :=
  (nz (mouse_x t) || nz (mouse_y t)) && ((if nz (mousekey_repeat s) then mk_interval else mk_delay * 10) <? timer_elapsed s (last_timer_c s)).
Definition pointer_axes (b : bool) (a : axis) : Prop := b = true /\ (a = AxisX \/ a = AxisY).

Lemma pointer_step_spec t l i s :
  during none t l i s -> during (pointer_axes (pointer_due t s)) t l i (exec (pointer_step t) s).
Proof.
  intros Hs. unfold pointer_step, exec. srun. fold (pointer_due t s).
  destruct (pointer_due t s); cbn [when]; [|by apply (during_weaken none); [intros a [? _]|]].
  set (s1 := exec (when (negb (mousekey_repeat s =? 255)) (modify (fun s => s <| mousekey_repeat := mousekey_repeat s + 1 |>))) s).
  assert (during none t l i s1) as H1 by (unfold s1; destruct (negb _); exact Hs).
  match goal with |- during _ _ _ _ (snd (?m s)) => change (during (pointer_axes true) t l i (exec m s)) end.
  rewrite exec_bind. fold s1. unfold exec at 1. srun.
  match goal with |- during _ _ _ _ (snd (?m s1)) => change (during (pointer_axes true) t l i (exec m s1)) end.
  rewrite !exec_bind. apply preserves_signs; [apply diagonal_xy_signs|].
  pose proof (move_axis _ t l i AxisY _ s1 _ eq_refl (move_axis _ t l i AxisX _ s1 _ eq_refl H1)) as H2.
  refine (during_weaken _ _ _ _ _ _ _ H2). intros a [_ [->| ->]]; unfold with_; tauto.
Qed.
Lemma preserves_wheel_step A t l i : preserves (during A t l i) (wheel_step t).
Proof.
  unfold wheel_step. apply preserves_bind; [apply preserves_gets|intros s]. apply preserves_when.
  apply preserves_bind; [apply preserves_when; intros s' Hs'; exact Hs'|intros _].
  apply preserves_bind; [|intros _; apply preserves_bind; [|intros _; apply preserves_signs, diagonal_vh_signs]].
  - intros s' Hs'. refine (during_weaken _ _ _ _ _ _ _ (turn_axis _ t l i AxisV _ s' eq_refl Hs')). unfold with_. tauto.
  - intros s' Hs'. refine (during_weaken _ _ _ _ _ _ _ (turn_axis _ t l i AxisH _ s' eq_refl Hs')). unfold with_. tauto.
Qed.
Definition three_due (t : report_mouse_t) (s : mousekey) : bool :=
  (nz (mouse_x t) || nz (mouse_y t)) && (nth (mk_speed s) c_intervals 0 <? timer_elapsed s (last_timer_c s)).
Lemma three_speed_step_spec t l i s :
  in_range t -> during none t l i s -> during (pointer_axes (three_due t s)) t l i (exec (three_speed_step t) s).
Proof.
  intros [Ht Hb] Hs. unfold three_speed_step, exec. srun. fold (three_due t s).
  match goal with |- during _ _ _ _ (snd (?m s)) => change (during (pointer_axes (three_due t s)) t l i (exec m s)) end.
  rewrite exec_bind. set (s1 := exec (when (three_due t s) _) s).
  assert (during (pointer_axes (three_due t s)) t l i s1) as H1.
  { unfold s1. destruct (three_due t s); cbn [when]; [|by apply (during_weaken none); [intros a [? _]|]].
    pose proof (during_axis _ t l i AxisY _ _ (Ht AxisY) eq_refl (during_axis _ t l i AxisX _ _ (Ht AxisX) eq_refl Hs)) as H2.
    refine (during_weaken _ _ _ _ _ _ _ H2). intros a [_ [->| ->]]; unfold with_; tauto. }
  destruct ((nz (mouse_h t) || nz (mouse_v t)) && _); [|exact H1].
  pose proof (during_axis _ t l i AxisH _ _ (Ht AxisH) eq_refl (during_axis _ t l i AxisV _ _ (Ht AxisV) eq_refl H1)) as H2.
  refine (during_weaken _ _ _ _ _ _ _ H2). unfold with_; tauto.
Qed.

Lemma stop_motion_during s :
  in_range (mouse_report s) -> during none (mouse_report s) (mk_sent s) (mk_speed s) (exec stop_motion s).
Proof.
  intros [Hr Hb]. split; [|done]. split; [split; [|done]|split; [done|]]; intros []; cbn; first [lia | by right; split; [|intros []]].
Qed.

Definition with_inertia : bool := match MODE with Inertia => true | _ => false end.
(** Whether it is time for the pointer. *)
Definition due (s : mousekey) : bool :=
  match MODE with ThreeSpeed | ThreeSpeedMomentary => three_due (mouse_report s) s | _ => pointer_due (mouse_report s) s end.

Lemma task_steps s :
  with_inertia = false -> in_range (mouse_report s) ->
  let t := mouse_report s in
  exists s1, match MODE with
    | Inertia => tmpmr ← inertia_step t; wheel_step tmpmr;; mret tmpmr
    | ThreeSpeed | ThreeSpeedMomentary => three_speed_step t;; mret t
    | _ => pointer_step t;; wheel_step t;; mret t
    end (exec stop_motion s) = (t, s1) /\ during (pointer_axes (due s)) t (mk_sent s) (mk_speed s) s1.
Proof.
  intros Hm Ht t. pose proof (stop_motion_during s Ht) as Hs. unfold with_inertia in Hm. set (s0 := exec stop_motion s) in *.
  assert (exists s1, (pointer_step t;; wheel_step t;; mret t) s0 = (t, s1) /\
    during (pointer_axes (pointer_due t s)) t (mk_sent s) (mk_speed s) s1) as Hp.
  { exists (exec (wheel_step t) (exec (pointer_step t) s0)). split; [|change (pointer_due t s) with (pointer_due t s0); by apply preserves_wheel_step, pointer_step_spec].
    unfold exec, mbind, stm_bind. destruct (pointer_step t s0) as [[] s1]. cbn. by destruct (wheel_step t s1) as [[] s2]. }
  assert (exists s1, (three_speed_step t;; mret t) s0 = (t, s1) /\
    during (pointer_axes (three_due t s)) t (mk_sent s) (mk_speed s) s1) as H3.
  { exists (exec (three_speed_step t) s0). split; [|change (three_due t s) with (three_due t s0); by apply three_speed_step_spec].
    unfold exec, mbind, stm_bind. by destruct (three_speed_step t s0) as [[] s1]. }
  unfold due. by destruct MODE.
Qed.

Definition mouse_ok (s : mousekey) : Prop := in_range (mouse_report s) /\ (mk_speed s < 4)%nat.

Lemma send_spec s :
  mouse_report (exec mousekey_send s) = mouse_report s /\ mk_sent (exec mousekey_send s) = mk_sent s ++ [mouse_report s] /\
  mk_speed (exec mousekey_send s) = mk_speed s.
Proof.
  unfold mousekey_send, read_timer, exec. srun.
  destruct (nz (mouse_x (mouse_report s)) || nz (mouse_y (mouse_report s))), (nz (mouse_v (mouse_report s)) || nz (mouse_h (mouse_report s)));
    cbn [when]; srun; done.
Qed.

Lemma within_sends t r : moves_within (pointer_axes true) t r -> nz (mouse_x t) || nz (mouse_y t) = true -> should_mousekey_report_send r = true.
Proof.
  intros (_ & _ & Hs) Ht. unfold should_mousekey_report_send.
  destruct (Hs AxisX) as [Hx|[_ Hx]]; [|destruct Hx; split; [done|by left]].
  destruct (Hs AxisY) as [Hy|[_ Hy]]; [|destruct Hy; split; [done|by right]]. cbn [on_axis] in *.
  apply orb_true_iff in Ht as [H1%nz_true|H1%nz_true].
  - assert (nz (mouse_x r) = true) as -> by (apply nz_true; lia). done.
  - assert (nz (mouse_y r) = true) as -> by (apply nz_true; lia). by rewrite orb_true_r.
Qed.

Lemma task_spec s :
  with_inertia = false -> mouse_ok s ->
  exists rs, let s' := exec mousekey_task s in
    mouse_report s' = mouse_report s /\ mk_speed s' = mk_speed s /\
    mk_sent s' = mk_sent s ++ rs /\ Forall (moves_within (pointer_axes (due s)) (mouse_report s)) rs /\
    (due s = true -> length rs = 1%nat).
Proof.
  intros Hm [Hr Hi]. set (t := mouse_report s).
  destruct (task_steps s Hm Hr) as (s1 & E & Hw & Hl & Hsp). fold t in E, Hw.
  set (sends := has_mouse_report_changed false (mouse_report s1) t || should_mousekey_report_send (mouse_report s1)).
  destruct (send_spec s1) as (Hsr & Hss & Hsi).
  exists (if sends then [mouse_report s1] else []). cbv zeta.
  assert (exec mousekey_task s = exec (upd_report (fun _ => t)) (exec (when sends mousekey_send) s1)) as ->.
  { unfold mousekey_task, exec. srun. fold t. unfold mbind at 1, stm_bind at 1. change ((stop_motion s).2) with (exec stop_motion s).
    rewrite (run_bind _ _ _ _ _ E). srun. fold sends. unfold exec. unfold mbind, stm_bind.
    by destruct (when sends mousekey_send s1) as [[] s2]. }
  assert (due s = true -> sends = true) as Hdue.
  { intros Hd. unfold sends. rewrite Hd in Hw. rewrite (within_sends t); [by rewrite orb_true_r|done|].
    unfold due, pointer_due, three_due in Hd. fold t in Hd. by destruct MODE; apply andb_true_iff in Hd as [? _]. }
  split; [done|]. destruct sends; cbn [when]; cbn [upd_report exec modify snd].
  - split; [exact (eq_trans Hsi Hsp)|]. split; [change (mk_sent (exec mousekey_send s1) = mk_sent s ++ [mouse_report s1]); by rewrite Hss, Hl|].
    split; [by constructor|done].
  - split; [exact Hsp|]. split; [rewrite app_nil_r; exact Hl|]. split; [constructor|]. intros Hd. by specialize (Hdue Hd).
Qed.

(** *** Every event *)

Definition step_ok (e : mk_event) (s s' : mousekey) (rs : list report_mouse_t) : Prop :=
  mouse_ok s' /\ same_motion (motion_of (mouse_report s')) (meaning e (motion_of (mouse_report s))) /\
  mk_sent s' = mk_sent s ++ rs /\ Forall (shows (motion_of (mouse_report s'))) rs.

Lemma silent_step e s s' :
  mouse_ok s' -> same_motion (motion_of (mouse_report s')) (meaning e (motion_of (mouse_report s))) ->
  mk_sent s' = mk_sent s -> step_ok e s s' [].
Proof. intros Hok Hm Hs. split; [done|]. split; [done|]. by rewrite app_nil_r. Qed.

Lemma same_motion_trans m1 m2 m3 : same_motion m1 m2 -> same_motion m2 m3 -> same_motion m1 m3.
Proof. intros [H1 H1'] [H2 H2']. split; [intros a; by rewrite H1|by rewrite H1']. Qed.

Lemma on_step code s : with_inertia = false -> mouse_ok s -> step_ok (KeyOn code) s (exec (mousekey_on code) s) [].
Proof.
  intros Hm [Hr Hi].
  assert (step_ok (KeyOn code) s (exec (accelerated_on code) s) []) as Ha.
  { destruct (accelerated_on_spec code s) as [Ho [Hsent Hsp]]. destruct (on_result_meaning _ _ _ Hr Ho) as [Hr' Hmean].
    apply silent_step; [|done|done]. split; [done|]. by rewrite Hsp. }
  assert (step_ok (KeyOn code) s (exec (three_speed_on code) s) []) as H3.
  { unfold three_speed_on, exec. srun.
    match goal with |- step_ok _ _ (snd (?m s)) _ => change (step_ok (KeyOn code) s (exec m s) []) end.
    set (s1 := s <| mouse_report := offset_on (nth (mk_speed s) c_offsets 0) (nth (mk_speed s) w_offsets 0) code (mouse_report s) |>).
    rewrite exec_bind. change (exec (upd_report _) s) with s1.
    destruct (on_result_meaning code (mouse_report s) (mouse_report s1) Hr) as [Hr1 Hmean];
      [apply offset_on_spec; [by apply c_offsets_ok|by apply w_offsets_ok]|].
    destruct (change_speed_signs (speed_of code) s1 Hi) as ([Hr2 Hsame] & Hsent & Hsp); [|exact Hr1|].
    { unfold speed_of. repeat case_match; simplify_eq; lia. }
    apply silent_step; [by split|by eapply same_motion_trans|exact Hsent]. }
  unfold mousekey_on. unfold with_inertia in Hm. by destruct MODE.
Qed.

Lemma off_step code s : with_inertia = false -> mouse_ok s -> step_ok (KeyOff code) s (exec (mousekey_off code) s) [].
Proof.
  intros Hm [Hr Hi]. destruct (key_off_meaning code _ Hr) as [Hr1 Hmean].
  set (s1 := exec (upd_report (key_off code)) s).
  assert (step_ok (KeyOff code) s s1 []) as H1 by (by apply silent_step).
  assert (step_ok (KeyOff code) s (exec (upd_report (key_off code);; accel_off code;; repeat_off) s) []) as Ha.
  { rewrite !exec_bind. fold s1. destruct (accel_off_untouched code s1) as [Er [Es Ei]].
    destruct (repeat_off_untouched (exec (accel_off code) s1)) as [Er' [Es' Ei']].
    apply silent_step; [split; [by rewrite Er', Er|by rewrite Ei', Ei]|by rewrite Er', Er|by rewrite Es', Es]. }
  assert (step_ok (KeyOff code) s (exec (upd_report (key_off code);; change_speed (if speed_of code then Some 0%nat else None)) s) []) as H3.
  { rewrite exec_bind. fold s1. destruct (change_speed_signs (if speed_of code then Some 0%nat else None) s1 Hi) as ([Hr2 Hsame] & Hsent & Hsp);
      [by destruct (speed_of code); [lia|]|exact Hr1|].
    apply silent_step; [by split|by eapply same_motion_trans|exact Hsent]. }
  unfold mousekey_off. unfold with_inertia in Hm. by destruct MODE.
Qed.

Lemma mk_step_spec e s : with_inertia = false -> mouse_ok s -> exists rs, step_ok e s (exec (mk_step e) s) rs.
Proof.
  intros Hm Hok. pose proof Hok as [Hr Hi]. destruct e as [code|code| | | |t]; cbn [mk_step].
  - exists []. by apply on_step.
  - exists []. by apply off_step.
  - destruct (task_spec s Hm Hok) as (rs & Er & Ei & Es & Hrs & _). exists rs. split; [split; [by rewrite Er|by rewrite Ei]|].
    split; [by rewrite Er|]. split; [done|]. rewrite Er. eapply Forall_impl; [exact Hrs|].
    intros r (Hr' & Hb & Hsg). split; [done|]. split; [done|]. intros a. destruct (Hsg a) as [?|[? _]]; [by left|by right].
  - destruct (send_spec s) as (Er & Es & Ei). exists [mouse_report s]. split; [split; [by rewrite Er|by rewrite Ei]|].
    split; [by rewrite Er|]. split; [done|]. constructor; [|done]. rewrite Er. split; [done|]. split; [done|]. intros a. by left.
  - assert (forall s', mouse_report s' = mouse_report_0 -> mk_sent s' = mk_sent s -> mk_speed s' = mk_speed s -> exists rs, step_ok Clear s s' rs) as Hc.
    { intros s' E0 Es Ei. exists []. apply silent_step; [|rewrite E0; by split; [intros []|]|done].
      split; [rewrite E0; split; [intros []; cbn; lia|done]|by rewrite Ei]. }
    unfold mousekey_clear. destruct MODE; by apply Hc.
  - exists []. by apply silent_step.
Qed.

Definition mk_run (es : list mk_event) (t : Z) : mousekey := fold_left (fun s e => exec (mk_step e) s) es (mousekey_at_start t).
(** What the keys of a run mean. *)
Definition intended (es : list mk_event) : motion := fold_left (fun m e => meaning e m) es at_rest.

Lemma meaning_ext e m m' : same_motion m m' -> same_motion (meaning e m) (meaning e m').
Proof.
  intros [Hd Hb]. destruct e as [code|code| | | |t]; cbn [meaning]; try done.
  - destruct (direction_of code) as [[a d]|].
    + split; [intros b; cbn; by case_decide|done].
    + destruct (IS_MOUSEKEY_BUTTON code); [|done]. split; [done|]. cbn. by rewrite Hb.
  - destruct (direction_of code) as [[a d]|].
    + rewrite Hd. destruct (_ =? _); [|done]. split; [intros b; cbn; by case_decide|done].
    + destruct (IS_MOUSEKEY_BUTTON code); [|done]. split; [done|]. cbn. by rewrite Hb.
Qed.
Lemma shows_ext m m' r : same_motion m m' -> shows m r -> shows m' r.
Proof. intros [Hd Hb] (Hr & Hb' & Hs). split; [done|]. split; [congruence|]. intros a. rewrite <-Hd. apply Hs. Qed.

Lemma mk_run_spec es t : with_inertia = false ->
  mouse_ok (mk_run es t) /\ same_motion (motion_of (mouse_report (mk_run es t))) (intended es).
Proof.
  intros Hm. induction es as [|e es IH] using rev_ind.
  - split; [split; [split; [intros []; cbn; lia|done]|cbn; destruct MODE; lia]|by split; [intros []|]].
  - destruct IH as [Hok Hmo]. unfold mk_run, intended in *. rewrite !fold_left_app. cbn [fold_left].
    destruct (mk_step_spec e _ Hm Hok) as (rs & Hok' & Hmean & _). split; [done|].
    eapply same_motion_trans; [exact Hmean|]. by apply meaning_ext.
Qed.

(** C38: In every mode but that with inertia, and over any sequence of key
    events, tasks and pauses: the report in the making means what the keys
    mean, along each axis the key pressed last until it is released, and the
    buttons that are down; whatever is given to the host stands still or
    moves in these directions, has these buttons, and each axis of it lies
    between -127 and 127 (the speed it is computed from may run over);
    and a task that is due gives the host one report, with the motion. *)
Theorem mouse_keys_refine es e t :
  with_inertia = false ->
  let s := mk_run es t in let s' := mk_run (es ++ [e]) t in let m := intended (es ++ [e]) in
  same_motion (motion_of (mouse_report s')) m /\
  exists rs, mk_sent s' = mk_sent s ++ rs /\ Forall (shows m) rs /\
    (e = Task -> due s = true -> exists r, rs = [r] /\
       Z.sgn (mouse_x r) = direction m AxisX /\ Z.sgn (mouse_y r) = direction m AxisY).
Proof.
  intros Hm s s' m. destruct (mk_run_spec es t Hm) as [Hok Hmo]. destruct (mk_run_spec (es ++ [e]) t Hm) as [Hok' Hmo'].
  fold s in Hok, Hmo. fold s' m in Hmo'. split; [done|].
  assert (s' = exec (mk_step e) s) as Es by (unfold s', s, mk_run; by rewrite fold_left_app).
  destruct (mk_step_spec e s Hm Hok) as (rs & _ & Hmean & Hsent & Hrs). rewrite <-Es in Hmean, Hsent, Hrs.
  exists rs. split; [done|]. split; [eapply Forall_impl; [exact Hrs|]; intros r; by apply shows_ext|].
  intros -> Hdue. destruct (task_spec s Hm Hok) as (rs' & Er & _ & Hsent' & Hw & H1). cbn [mk_step] in Es. rewrite <-Es in Hsent', Er.
  assert (rs' = rs) as -> by (apply (app_inv_head (mk_sent s)); congruence).
  destruct rs as [|r [|]]; [by specialize (H1 Hdue)| |by specialize (H1 Hdue)]. exists r. split; [done|].
  apply Forall_cons in Hw as [(_ & _ & Hsg) _]. rewrite Hdue in Hsg. destruct Hmo' as [Hd _]. rewrite Er in Hd.
  rewrite <-!Hd. cbn [motion_of direction on_axis].
  split; [destruct (Hsg AxisX) as [E|[_ []]]|destruct (Hsg AxisY) as [E|[_ []]]]; first [exact E | split; [done|]; tauto].
Qed.
End meaning.


(** Half of the report's unit at most is lost; with an [int] of 16 bits the
    negative ones are rounded away from zero. *)
Lemma inv_sqrt2_rounds x : -127 <= x <= 127 ->
  -128 <= 256 * inv_sqrt2 false x - 181 * x <= 128 /\ inv_sqrt2 false (- x) = - inv_sqrt2 false x.
Proof.
  intros Hx. assert (forallb (fun y => (-128 <=? 256 * inv_sqrt2 false y - 181 * y) && (256 * inv_sqrt2 false y - 181 * y <=? 128)
    && (inv_sqrt2 false (- y) =? - inv_sqrt2 false y)) (seqZ (-127) 255) = true) as Hall by (vm_compute; reflexivity).
  rewrite forallb_forall in Hall. specialize (Hall x ltac:(apply list_elem_of_In, elem_of_seqZ; lia)).
  rewrite !andb_true_iff in Hall. destruct Hall as [[H1%Z.leb_le H2%Z.leb_le] H3%Z.eqb_eq]. done.
Qed.
Lemma inv_sqrt2_16_is_skewed x : 0 < x <= 127 -> inv_sqrt2 true (- x) = - inv_sqrt2 true x - 1.
Proof.
  intros Hx. assert (forallb (fun y => inv_sqrt2 true (- y) =? - inv_sqrt2 true y - 1) (seqZ 1 127) = true) as Hall by (vm_compute; reflexivity).
  rewrite forallb_forall in Hall. specialize (Hall x ltac:(apply list_elem_of_In, elem_of_seqZ; lia)). by apply Z.eqb_eq.
Qed.

(** ** Inertia *)

Section inertia.
Context `{!MousekeyConfig}.
Hypothesis friction : 0 < MOUSEKEY_FRICTION <= 255.
Hypothesis time_to_max : 0 < mk_time_to_max <= 127.

Lemma i8_of_smaller z v : 0 <= z <= v -> v <= 127 -> i8 z = z.
Proof. intros. apply i8_small. lia. Qed.

(** Without a key, friction brings the velocity closer to 0. *)
Lemma calc_inertia_brakes v : -127 <= v <= 127 -> v <> 0 ->
  Z.abs (calc_inertia 0 v) < Z.abs v /\ (Z.sgn (calc_inertia 0 v) = Z.sgn v \/ calc_inertia 0 v = 0).
Proof.
  intros Hv Hne. unfold calc_inertia. cbn [Z.ltb Z.compare andb]. change (-1 <? 0) with true. change (0 <? 1) with true. cbn [andb].
  destruct (Z.ltb_spec v 0).
  - assert (v + 1 <= Z.quot ((v + 1) * (256 - MOUSEKEY_FRICTION)) 256 <= 0) as Hq.
    { remember (- (v + 1)) as w eqn:Hw. replace (v + 1) with (- w) by lia.
      assert (0 <= w * (256 - MOUSEKEY_FRICTION)) as Hpos by (apply Z.mul_nonneg_nonneg; lia).
      rewrite Z.mul_opp_l, Z.quot_opp_l by lia. rewrite Z.quot_div_nonneg by lia.
      pose proof (Z.div_pos _ 256 Hpos ltac:(lia)).
      assert (w * (256 - MOUSEKEY_FRICTION) / 256 <= w) by (apply Z.div_le_upper_bound; nia). lia. }
    rewrite i8_small by lia. lia.
  - destruct (Z.ltb_spec 0 v); [|lia].
    assert (0 <= Z.quot (v * (256 - MOUSEKEY_FRICTION)) 256 < v) as Hq.
    { rewrite Z.quot_div_nonneg by nia. split; [apply Z.div_pos; nia|]. apply Z.div_lt_upper_bound; nia. }
    rewrite i8_small by lia. lia.
Qed.

(** After the keys have been released the pointer comes to rest, after at most
    as many frames as its velocity. *)
Lemma inertia_comes_to_rest n v :
  -127 <= v <= 127 -> Z.abs v <= Z.of_nat n -> Nat.iter n (calc_inertia 0) v = 0.
Proof.
  revert v. induction n as [|n IH]; intros v Hv Hn; [cbn; lia|]. rewrite Nat.iter_succ_r.
  destruct (decide (v = 0)) as [->|Hne].
  - apply IH; [done|]. cbn. lia.
  - destruct (calc_inertia_brakes v Hv Hne). apply IH; lia.
Qed.
End inertia.

(** ** From the core to the pointer

    What the core asks of the mouse keys, in the order in which it does. *)

Definition mouse_events (os : list output) : list mk_event :=
  omap (fun o => match o with
    | MousekeyOn code => Some (KeyOn code) | MousekeyOff code => Some (KeyOff code)
    | MousekeySend => Some Send | MousekeyClear => Some Clear | _ => None end) os.

Section core_to_pointer.
Context {CF : Config} {HK : Hooks} `{!MousekeyConfig} `{!MousekeyOk}.
Hypothesis mousekeys : MOUSEKEY_ENABLE = true.
Hypothesis no_pointing_device : POINTING_DEVICE_ENABLE = false /\ PS2_MOUSE_ENABLE = false.

Lemma direction_keys code a d : direction_of code = Some (a, d) ->
  code ∈ [KC_MS_UP; KC_MS_DOWN; KC_MS_LEFT; KC_MS_RIGHT; KC_MS_WH_UP; KC_MS_WH_DOWN; KC_MS_WH_LEFT; KC_MS_WH_RIGHT].
Proof.
  unfold direction_of. intros Hd. rewrite !elem_of_cons.
  repeat (match type of Hd with context [if code =? ?k then _ else _] => destruct (Z.eqb_spec code k); [tauto|] end). done.
Qed.

Lemma registers_mouse code k : code ∈ [KC_MS_UP; KC_MS_DOWN; KC_MS_LEFT; KC_MS_RIGHT; KC_MS_WH_UP; KC_MS_WH_DOWN; KC_MS_WH_LEFT; KC_MS_WH_RIGHT] ->
  register_code code k = register_mouse code true k /\ unregister_code code k = register_mouse code false k.
Proof.
  rewrite !elem_of_cons, elem_of_nil. intros Hc. unfold register_code, unregister_code.
  destruct LOCKING_SUPPORT_ENABLE, EXTRAKEY_ENABLE; by destruct_or! Hc; subst code.
Qed.
Lemma register_mouse_sends code b k :
  sent (host (exec (register_mouse code b) k)) = sent (host k) ++ [if b then MousekeyOn code else MousekeyOff code; MousekeySend].
Proof.
  unfold register_mouse. rewrite mousekeys. destruct no_pointing_device as [-> ->]. cbn [orb andb]. cbn [when].
  rewrite !exec_bind. unfold emit, upd_host. cbn. by rewrite <-app_assoc.
Qed.

Lemma key_then_send e s :
  with_inertia = false -> mouse_ok s -> step_ok e s (exec (mk_step e) s) [] ->
  let s1 := exec mousekey_send (exec (mk_step e) s) in
  mouse_ok s1 /\ same_motion (motion_of (mouse_report s1)) (meaning e (motion_of (mouse_report s))) /\
  mk_sent s1 = mk_sent s ++ [mouse_report s1].
Proof.
  intros Hm Hok (Hok' & Hmean & Hsent & _). cbv zeta. destruct (send_spec (exec (mk_step e) s)) as (Er & Es & Ei).
  rewrite Er, Es, Hsent, app_nil_r. split; [|by split]. destruct Hok'. split; [by rewrite Er|by rewrite Ei].
Qed.

(** Pressing a key of the pointer or of a wheel in the core gives the host
    at once a report that moves in its direction, releasing it a report that
    does not move along this axis. *)
Theorem mouse_key_reaches_host code a d k s :
  direction_of code = Some (a, d) -> with_inertia = false -> mouse_ok s ->
  exists os os', sent (host (exec (register_code code) k)) = sent (host k) ++ os /\
    sent (host (exec (unregister_code code) k)) = sent (host k) ++ os' /\
    let go := fold_left (fun s e => exec (mk_step e) s) in
    let s1 := go (mouse_events os) s in let s2 := go (mouse_events os') s1 in
    exists r r', mk_sent s1 = mk_sent s ++ [r] /\ Z.sgn (on_axis a r) = d /\
      mk_sent s2 = mk_sent s1 ++ [r'] /\ on_axis a r' = 0.
Proof.
  intros Hd Hm Hok. destruct (registers_mouse code k (direction_keys _ _ _ Hd)) as [E1 E2].
  exists [MousekeyOn code; MousekeySend], [MousekeyOff code; MousekeySend].
  split; [unfold exec; rewrite E1; apply (register_mouse_sends code true)|].
  split; [unfold exec; rewrite E2; apply (register_mouse_sends code false)|].
  cbn [mouse_events omap list_omap fold_left mk_step].
  destruct (key_then_send (KeyOn code) s Hm Hok (on_step code s Hm Hok)) as (Hok1 & [Hm1 _] & Hs1).
  set (s1 := exec mousekey_send (exec (mk_step (KeyOn code)) s)) in *.
  destruct (key_then_send (KeyOff code) s1 Hm Hok1 (off_step code s1 Hm Hok1)) as (Hok2 & [Hm2 _] & Hs2).
  set (s2 := exec mousekey_send (exec (mk_step (KeyOff code)) s1)) in *.
  exists (mouse_report s1), (mouse_report s2). specialize (Hm1 a). specialize (Hm2 a). cbn [meaning] in Hm1, Hm2.
  rewrite Hd in Hm1, Hm2. cbn [motion_of direction turn] in Hm1, Hm2. rewrite decide_True in Hm1 by done.
  rewrite Hm1, Z.eqb_refl in Hm2. cbn [direction turn] in Hm2. rewrite decide_True in Hm2 by done.
  split_and!; [exact Hs1|exact Hm1|exact Hs2|]. lia.
Qed.
End core_to_pointer.
