(* ===== verification/Matrix.v ===== *)
(** * The matrix and its task (quantum/matrix.c, matrix_common.c, keyboard.c)

    Scanning the pins, debouncing, and one key event for each key that changed.
    The hardware is a parameter: [gpio driven pin] is the level of a pin while
    the pins [driven] are driven low.  The debounce algorithm is a class, the
    interface of debounce.h, with an instance for each of the seven; the
    builds without SPLIT_KEYBOARD, in which one matrix is the whole. *)

From S2P Require Import Prelude.
From S2P Require Import Keycodes.
From S2P Require Import Report.
From S2P Require Import State.
From S2P Require Import Keymap.
From S2P Require Import Action.
From S2P Require Import Tapping.
From S2P Require Import Feature.
From S2P Require Import Debounce.

(** ** debounce.h *)

Class Debouncer (D : Type) := {
  debounce : list Z -> bool -> Z -> D -> bool * D;
  debounced : D -> list Z;               (* the array [matrix] *)
}.

Section debouncers.
Context {CF : Config} {DC : DebounceConfig}.
Let rows : nat := Z.to_nat MATRIX_ROWS.

(** [timer_read_fast] (platforms/timer.h) when the clock says [now]. *)
Definition timer_read_fast (now : Z) : Z := wrap (if FAST_TIMER_T_SIZE <? 32 then 16 else 32) now.

Definition counters_call {C} (f : counters_state C -> counters_state C) (s : counters_state C) : bool * counters_state C :=
  let s := f s in (cooked_changed s, s).

Definition sym_defer_pk : Debouncer (counters_state Z) := {|
  debounce raw changed now := counters_call (sym_defer_pk_debounce raw rows changed (timer_read_fast now)); debounced := cooked |}.
Definition sym_eager_pk : Debouncer (counters_state Z) := {|
  debounce raw changed now := counters_call (sym_eager_pk_debounce raw rows changed (timer_read_fast now)); debounced := cooked |}.
Definition sym_eager_pr : Debouncer (counters_state Z) := {|
  debounce raw changed now := counters_call (sym_eager_pr_debounce raw rows changed (timer_read_fast now)); debounced := cooked |}.
Definition asym_eager_defer_pk : Debouncer (counters_state asym_counter) := {|
  debounce raw changed now := counters_call (asym_eager_defer_pk_debounce raw rows changed (timer_read_fast now)); debounced := cooked |}.
Definition sym_defer_pr : Debouncer countdown_state := {|
  debounce raw _ now s := let s := sym_defer_pr_debounce raw rows (u16 now) s in (pr_changed s, s); debounced := pr_cooked |}.
Definition sym_defer_g : Debouncer global_state := {|
  debounce raw changed now := sym_defer_g_debounce raw changed (timer_read_fast now); debounced := g_cooked |}.
Definition no_debounce : Debouncer (list Z) := {|
  debounce raw changed _ s := none_debounce raw changed s; debounced s := s |}.
End debouncers.

(** ** matrix.c: reading the pins *)

Definition NO_PIN : Z := 0xFFFFFFFF.      (* (pin_t)(~0) *)

Inductive diode_direction := COL2ROW | ROW2COL | DIRECT_PINS.

Class MatrixConfig := {
  DIODE_DIRECTION : diode_direction;
  row_pins : Z -> Z;
  col_pins : Z -> Z;
  direct_pins : Z -> Z -> Z;
  MATRIX_INPUT_PRESSED_STATE : Z;
  MATRIX_ROW_BITS : Z;                   (* of matrix_row_t: 8, 16 or 32 *)
  MATRIX_HAS_GHOST : bool;
  matrix_mask : option (list Z);         (* MATRIX_MASKED *)
  matrix_can_read : bool;
  should_process_keypress : bool;
  matrix_scan_kb : stm keyboard unit;
  (* what the lighting does in switch_events *)
  switch_events : Z -> Z -> bool -> stm keyboard unit;
}.

Section scan.
Context {CF : Config} {MC : MatrixConfig}.
Variable gpio : list Z -> Z -> Z.

Definition rows_ : list Z := seqZ 0 MATRIX_ROWS.
Definition cols_ : list Z := seqZ 0 MATRIX_COLS.

(** 0 for a pressed key. *)
Definition readMatrixPin (driven : list Z) (pin : Z) : Z :=
  if negb (pin =? NO_PIN) then if gpio driven pin =? MATRIX_INPUT_PRESSED_STATE then 0 else 1 else 1.

(** Whether there is such a line, and the pins driven low then. *)
Definition select_line (pin : Z) (driven : list Z) : bool * list Z :=
  if negb (pin =? NO_PIN) then (true, pin :: driven) else (false, driven).
Definition unselect_line (pin : Z) (driven : list Z) : list Z :=
  if negb (pin =? NO_PIN) then filter (fun p => p <> pin) driven else driven.

Definition row_value (pin_state : Z -> Z) : Z :=
  foldl (fun value col => Z.lor value (if nz (pin_state col) then 0 else wrap MATRIX_ROW_BITS (bit col))) 0 cols_.

(** The pins driven low, and [current_matrix]. *)
Definition matrix_read_cols_on_row (row : Z) (s : list Z * list Z) : list Z * list Z :=
  match DIODE_DIRECTION with
  | DIRECT_PINS =>
      (s.1, <[Z.to_nat row := row_value (fun col => readMatrixPin s.1 (direct_pins row col))]> s.2)
  | _ =>
      let '(selected, driven) := select_line (row_pins row) s.1 in
      if selected then
        let value := row_value (fun col => readMatrixPin driven (col_pins col)) in
        (unselect_line (row_pins row) driven, <[Z.to_nat row := value]> s.2)
      else s
  end.

Definition read_row_of_col (driven : list Z) (row_shifter : Z) (m : list Z) (row : Z) : list Z :=
  let value := default 0 (m !! Z.to_nat row) in
  <[Z.to_nat row := if readMatrixPin driven (row_pins row) =? 0 then Z.lor value row_shifter
                    else clear_bits value row_shifter]> m.
Definition matrix_read_rows_on_col (col : Z) (s : list Z * list Z) : list Z * list Z :=
  let '(selected, driven) := select_line (col_pins col) s.1 in
  if selected then
    (unselect_line (col_pins col) driven,
     foldl (read_row_of_col driven (wrap MATRIX_ROW_BITS (bit col))) s.2 rows_)
  else s.

(** [curr_matrix] of [matrix_scan]. *)
Definition read_matrix : list Z :=
  let s := ([], replicate (Z.to_nat MATRIX_ROWS) 0) in
  match DIODE_DIRECTION with
  | ROW2COL => (foldl (fun s col => matrix_read_rows_on_col col s) s cols_).2
  | _ => (foldl (fun s row => matrix_read_cols_on_row row s) s rows_).2
  end.
End scan.

(** ** The task *)

Record matrix_state (D : Type) := {
  raw_matrix : list Z;
  matrix : D;
  matrix_previous : list Z;              (* of [matrix_task] *)
  last_tick : Z;                         (* of [generate_tick_event] *)
}.
Arguments raw_matrix {D}.
Arguments matrix {D}.
Arguments matrix_previous {D}.
Arguments last_tick {D}.

Definition popcount_more_than_one (rowdata : Z) : bool := nz (Z.land rowdata (rowdata - 1)).

Section matrix_task.
Context {CF : Config} {HK : Hooks} {MC : MatrixConfig} {D : Type} {DB : Debouncer D}.
Abbreviation M := (stm (matrix_state D * keyboard)).

Definition matrix_init (d : D) : matrix_state D := {|
  raw_matrix := replicate (Z.to_nat MATRIX_ROWS) 0; matrix := d;
  matrix_previous := replicate (Z.to_nat MATRIX_ROWS) 0; last_tick := 0 |}.

Definition matrix_scan (gpio : list Z -> Z -> Z) : M bool :=
  let curr_matrix := read_matrix gpio in
  s ← own (gets (fun s => s));
  t ← core (gets now);
  let changed := negb (bool_decide (raw_matrix s = curr_matrix)) in
  let r := debounce curr_matrix changed t (matrix s) in
  own (modify (fun s => {| raw_matrix := curr_matrix; matrix := r.2;
                           matrix_previous := matrix_previous s; last_tick := last_tick s |}));;
  core matrix_scan_kb;;
  mret r.1.

Definition matrix_get_row (s : matrix_state D) (row : Z) : Z :=
  let value := default 0 (debounced (matrix s) !! Z.to_nat row) in
  match matrix_mask with
  | Some mask => Z.land value (default 0 (mask !! Z.to_nat row))
  | None => value
  end.

Definition get_real_keys (row rowdata : Z) : Z :=
  foldl (fun out col =>
    if nz (keycode_at_keymap_location 0 row col) && nz (Z.land rowdata (wrap MATRIX_ROW_BITS (bit col)))
    then Z.lor out (wrap MATRIX_ROW_BITS (bit col)) else out) 0 cols_.

Definition has_ghost_in_row (s : matrix_state D) (row rowdata : Z) : bool :=
  if MATRIX_HAS_GHOST then
    let rowdata := get_real_keys row rowdata in
    popcount_more_than_one rowdata &&
    existsb (fun i => negb (i =? row) &&
      popcount_more_than_one (Z.land (get_real_keys i (matrix_get_row s i)) rowdata)) rows_
  else false.

Definition put_previous (row value : Z) : M unit :=
  own (modify (fun s => {| raw_matrix := raw_matrix s; matrix := matrix s;
    matrix_previous := <[Z.to_nat row := value]> (matrix_previous s); last_tick := last_tick s |})).
Definition put_last_tick (t : Z) : M unit :=
  own (modify (fun s => {| raw_matrix := raw_matrix s; matrix := matrix s;
    matrix_previous := matrix_previous s; last_tick := t |})).

Definition MAKE_KEYEVENT (row_num col_num t : Z) (press : bool) : keyevent_t := {|
  key := {| row := row_num; col := col_num |}; time := t; type := KEY_EVENT; pressed := press |}.
Definition MAKE_TICK_EVENT (t : Z) : keyevent_t := {|
  key := {| row := 0; col := 0 |}; time := t; type := TICK_EVENT; pressed := false |}.

Definition exec_event (e : keyevent_t) : stm keyboard unit := action_exec action_tapping_process e.

Definition generate_tick_event : M unit :=
  t ← core (gets (fun k => u16 (now k)));
  s ← own (gets (fun s => s));
  when (nz (TIMER_DIFF_16 t (last_tick s))) (core (exec_event (MAKE_TICK_EVENT t));; put_last_tick t).

(** One key of a row that changed. *)
Definition process_col (row current_row row_changes : Z) (col : Z) : M unit :=
  when (nz (Z.land row_changes (wrap MATRIX_ROW_BITS (bit col)))) (
    let key_pressed := nz (Z.land current_row (wrap MATRIX_ROW_BITS (bit col))) in
    when should_process_keypress (
      t ← core (gets (fun k => u16 (now k)));
      core (exec_event (MAKE_KEYEVENT row col t key_pressed)));;
    core (switch_events row col key_pressed)).

Fixpoint for_each_ {A} (l : list A) (f : A -> M unit) : M unit :=
  match l with [] => skip | x :: l => f x;; for_each_ l f end.

Definition process_row (row : Z) : M unit :=
  s ← own (gets (fun s => s));
  let current_row := matrix_get_row s row in
  let row_changes := Z.lxor current_row (default 0 (matrix_previous s !! Z.to_nat row)) in
  if negb (nz row_changes) || has_ghost_in_row s row current_row then skip else
  for_each_ cols_ (process_col row current_row row_changes);;
  put_previous row current_row.

Definition matrix_differs (s : matrix_state D) : bool :=
  existsb (fun row => nz (Z.lxor (default 0 (matrix_previous s !! Z.to_nat row)) (matrix_get_row s row))) rows_.

Definition matrix_task (gpio : list Z -> Z -> Z) : M bool :=
  if negb matrix_can_read then generate_tick_event;; mret false else
  matrix_scan gpio;;
  matrix_changed ← own (gets matrix_differs);
  if negb matrix_changed then generate_tick_event;; mret matrix_changed else
  for_each_ rows_ process_row;;
  mret matrix_changed.
End matrix_task.
