(* ===== verification/MatrixSpec.v ===== *)
(** * From the switches to the key events (quantum/matrix.c, keyboard.c)

    The scan reads the switches; the task gives the core one event for each key
    whose debounced state changed; the events of a key alternate; a key that
    stays down reaches the core. *)

From S2P Require Import Prelude.
From S2P Require Import Keycodes.
From S2P Require Import Report.
From S2P Require Import State.
From S2P Require Import Keymap.
From S2P Require Import Action.
From S2P Require Import Tapping.
From S2P Require Import Feature.
From S2P Require Import Debounce.
From S2P Require Import Matrix.

(** ** Loops over arrays *)

Lemma testbit_or_bits w (f : Z -> bool) (l : list Z) v c :
  (forall x, x ∈ l -> 0 <= x < w) -> 0 <= c ->
  Z.testbit (foldl (fun v x => Z.lor v (if f x then wrap w (bit x) else 0)) v l) c =
    Z.testbit v c || bool_decide (c ∈ l) && f c.
Proof.
  intros Hl Hc. revert v. induction l as [|x l IH]; intros v; cbn [foldl].
  { rewrite bool_decide_false by apply not_elem_of_nil. by rewrite orb_false_r. }
  rewrite IH by (intros y Hy; apply Hl; by apply list_elem_of_further).
  rewrite Z.lor_spec. specialize (Hl x (list_elem_of_here _ _)).
  assert (Z.testbit (if f x then wrap w (bit x) else 0) c = bool_decide (c = x) && f x) as ->.
  { destruct (f x); [|by rewrite Z.bits_0, andb_false_r]. rewrite andb_true_r, testbit_wrap, testbit_bit by lia.
    repeat case_bool_decide; try done; lia. }
  destruct (decide (c = x)) as [->|Hne].
  - rewrite (bool_decide_true (x = x)), (bool_decide_true (x ∈ x :: l)) by (done || apply list_elem_of_here).
    destruct (Z.testbit v x), (f x), (bool_decide (x ∈ l)); done.
  - rewrite (bool_decide_false (c = x)) by done. rewrite andb_false_l, orb_false_r.
    rewrite (bool_decide_ext (c ∈ x :: l) (c ∈ l)); [done|]. rewrite elem_of_cons. tauto.
Qed.

Definition at_row (m : list Z) (r : Z) : Z := default 0 (m !! Z.to_nat r).

Lemma at_row_insert m r r' v : 0 <= r < Z.of_nat (length m) -> 0 <= r' ->
  at_row (<[Z.to_nat r := v]> m) r' = if r' =? r then v else at_row m r'.
Proof.
  intros Hr Hr'. unfold at_row. destruct (Z.eqb_spec r' r) as [->|Hne].
  - by rewrite list_lookup_insert_eq by lia.
  - by rewrite list_lookup_insert_ne by lia.
Qed.

Lemma at_row_replicate n r : at_row (replicate n 0) r = 0.
Proof.
  unfold at_row. destruct (replicate n 0 !! Z.to_nat r) eqn:E; [|done]. by apply lookup_replicate in E as [-> _].
Qed.

(** ** The scan *)

Section scan.
Context {CF : Config} {MC : MatrixConfig}.
Hypothesis cols_fit : 0 < MATRIX_COLS <= MATRIX_ROW_BITS.
Hypothesis rows_fit : 0 < MATRIX_ROWS.

Definition on_matrix (r c : Z) : Prop := 0 <= r < MATRIX_ROWS /\ 0 <= c < MATRIX_COLS.

(** The switches as the pins show them: while one line is driven low, a pin of
    the other kind shows whether the switch between them is closed. *)
Definition wired (gpio : list Z -> Z -> Z) (closed : Z -> Z -> bool) : Prop :=
  forall r c, on_matrix r c ->
    match DIODE_DIRECTION with
    | COL2ROW => row_pins r <> NO_PIN /\ col_pins c <> NO_PIN /\
        (gpio [row_pins r] (col_pins c) =? MATRIX_INPUT_PRESSED_STATE) = closed r c
    | ROW2COL => row_pins r <> NO_PIN /\ col_pins c <> NO_PIN /\
        (gpio [col_pins c] (row_pins r) =? MATRIX_INPUT_PRESSED_STATE) = closed r c
    | DIRECT_PINS => direct_pins r c <> NO_PIN /\
        (gpio [] (direct_pins r c) =? MATRIX_INPUT_PRESSED_STATE) = closed r c
    end.

Lemma elem_of_rows r : r ∈ rows_ <-> 0 <= r < MATRIX_ROWS.
Proof. unfold rows_. rewrite elem_of_seqZ. lia. Qed.
Lemma elem_of_cols c : c ∈ cols_ <-> 0 <= c < MATRIX_COLS.
Proof. unfold cols_. rewrite elem_of_seqZ. lia. Qed.

Lemma select_unselect pin : pin <> NO_PIN ->
  select_line pin [] = (true, [pin]) /\ unselect_line pin [pin] = [].
Proof.
  intros Hp. unfold select_line, unselect_line. destruct (Z.eqb_spec pin NO_PIN); [done|]. cbn [negb]. split; [done|].
  rewrite filter_cons_False by tauto. done.
Qed.

Lemma read_pin gpio driven pin : pin <> NO_PIN ->
  readMatrixPin gpio driven pin = if gpio driven pin =? MATRIX_INPUT_PRESSED_STATE then 0 else 1.
Proof. intros Hp. unfold readMatrixPin. by destruct (Z.eqb_spec pin NO_PIN). Qed.

Lemma row_value_bits (pin_state : Z -> Z) (f : Z -> bool) c :
  (forall x, 0 <= x < MATRIX_COLS -> pin_state x = if f x then 0 else 1) -> 0 <= c ->
  Z.testbit (row_value pin_state) c = bool_decide (c < MATRIX_COLS) && f c.
Proof.
  intros Hp Hc. unfold row_value.
  assert (forall l v, (forall x, x ∈ l -> 0 <= x < MATRIX_COLS) ->
    foldl (fun value col => Z.lor value (if nz (pin_state col) then 0 else wrap MATRIX_ROW_BITS (bit col))) v l =
    foldl (fun value col => Z.lor value (if f col then wrap MATRIX_ROW_BITS (bit col) else 0)) v l) as ->.
  { induction l as [|x l IH]; intros v Hl; [done|]. cbn [foldl].
    rewrite IH by (intros y Hy; apply Hl; by apply list_elem_of_further).
    rewrite Hp by (apply Hl, list_elem_of_here). by destruct (f x). }
  2: by intros x Hx%elem_of_cols.
  rewrite testbit_or_bits, Z.bits_0; [|intros x Hx%elem_of_cols; lia|done]. cbn [orb]. f_equal.
  apply bool_decide_ext. rewrite elem_of_cols. lia.
Qed.

Definition shows_switches (closed : Z -> Z -> bool) (m : list Z) : Prop :=
  length m = Z.to_nat MATRIX_ROWS /\
  forall r c, 0 <= r < MATRIX_ROWS -> 0 <= c -> Z.testbit (at_row m r) c = bool_decide (c < MATRIX_COLS) && closed r c.

(** Row after row, each from its old value. *)
Lemma fold_rows (step : list Z -> Z -> list Z) (v : Z -> Z -> Z) l m :
  (forall r m, r ∈ l -> step m r = <[Z.to_nat r := v r (at_row m r)]> m) -> NoDup l ->
  (forall r, r ∈ l -> 0 <= r < Z.of_nat (length m)) ->
  length (foldl step m l) = length m /\
  forall r, 0 <= r -> at_row (foldl step m l) r = if bool_decide (r ∈ l) then v r (at_row m r) else at_row m r.
Proof.
  revert m. induction l as [|r l IH]; intros m Hstep HN Hl.
  { split; [done|]. intros r _. by rewrite bool_decide_false by apply not_elem_of_nil. }
  cbn [foldl]. rewrite Hstep by apply list_elem_of_here. apply NoDup_cons in HN as [Hr HN].
  destruct (IH (<[Z.to_nat r := v r (at_row m r)]> m)) as (Hlen & Hm').
  - intros r' m0 Hr'. apply Hstep. by apply list_elem_of_further.
  - done.
  - intros r' Hr'. rewrite length_insert. apply Hl. by apply list_elem_of_further.
  - rewrite Hlen, length_insert. split; [done|]. intros r' Hr'.
    rewrite (Hm' r' Hr'), at_row_insert; [|apply Hl, list_elem_of_here|done].
    destruct (Z.eqb_spec r' r) as [->|Hne].
    + by rewrite (bool_decide_false (r ∈ l)), (bool_decide_true (r ∈ r :: l)) by (done || apply list_elem_of_here).
    + destruct (decide (r' ∈ l)) as [Hin|Hn].
      * by rewrite !bool_decide_true by (done || by apply list_elem_of_further).
      * rewrite !bool_decide_false; [done| |done]. intros [->|?]%elem_of_cons; done.
Qed.

Lemma NoDup_rows : NoDup rows_.
Proof. apply NoDup_seqZ. Qed.
Lemma NoDup_cols : NoDup cols_.
Proof. apply NoDup_seqZ. Qed.

Lemma read_by_rows gpio (closed : Z -> Z -> bool) (v : Z -> Z -> Z) :
  (forall r (m : list Z), 0 <= r < MATRIX_ROWS -> matrix_read_cols_on_row gpio r ([], m) = ([], <[Z.to_nat r := row_value (v r)]> m)) ->
  (forall r c, on_matrix r c -> v r c = if closed r c then 0 else 1) ->
  shows_switches closed (foldl (fun s row => matrix_read_cols_on_row gpio row s) ([], replicate (Z.to_nat MATRIX_ROWS) 0) rows_).2.
Proof.
  intros Hstep Hv.
  assert (forall l m, (forall r, r ∈ l -> 0 <= r < MATRIX_ROWS) ->
    foldl (fun s row => matrix_read_cols_on_row gpio row s) ([], m) l =
    ([], foldl (fun m r => <[Z.to_nat r := row_value (v r)]> m) m l)) as ->.
  { induction l as [|r l IH]; intros m Hl; [done|]. cbn [foldl]. rewrite Hstep by apply Hl, list_elem_of_here.
    apply IH. intros r' Hr'. apply Hl. by apply list_elem_of_further. }
  2: by intros r Hr%elem_of_rows.
  cbn [snd]. destruct (fold_rows (fun m r => <[Z.to_nat r := row_value (v r)]> m) (fun r _ => row_value (v r)) rows_
    (replicate (Z.to_nat MATRIX_ROWS) 0)) as [Hlen Hm].
  - done.
  - apply NoDup_rows.
  - intros r Hr%elem_of_rows. rewrite length_replicate. lia.
  - split; [by rewrite Hlen, length_replicate|]. intros r c Hr Hc. rewrite Hm by lia.
    rewrite bool_decide_true by (by apply elem_of_rows). apply row_value_bits; [|done].
    intros x Hx. by apply Hv.
Qed.

(** One column: its bit of every row. *)
Definition with_bit (b : bool) (v mask : Z) : Z := if b then Z.lor v mask else clear_bits v mask.

Lemma testbit_with_bit b v x c : 0 <= x < MATRIX_COLS -> 0 <= c ->
  Z.testbit (with_bit b v (wrap MATRIX_ROW_BITS (bit x))) c = if c =? x then b else Z.testbit v c.
Proof.
  intros Hx Hc. unfold with_bit. destruct b.
  - rewrite Z.lor_spec, testbit_wrap, testbit_bit by lia. destruct (Z.eqb_spec c x) as [->|Hne].
    + rewrite !bool_decide_true by lia. apply orb_true_r.
    + rewrite (bool_decide_false (c = x)) by done. by rewrite andb_false_r, orb_false_r.
  - rewrite testbit_clear, testbit_wrap, testbit_bit by lia. destruct (Z.eqb_spec c x) as [->|Hne].
    + rewrite !bool_decide_true by lia. apply andb_false_r.
    + rewrite (bool_decide_false (c = x)) by done. by rewrite andb_false_r, andb_true_r.
Qed.

Lemma read_col gpio closed x m :
  DIODE_DIRECTION = ROW2COL -> wired gpio closed -> 0 <= x < MATRIX_COLS ->
  Z.of_nat (length m) = MATRIX_ROWS ->
  exists m', matrix_read_rows_on_col gpio x ([], m) = ([], m') /\ length m' = length m /\
    forall r, 0 <= r < MATRIX_ROWS -> at_row m' r = with_bit (closed r x) (at_row m r) (wrap MATRIX_ROW_BITS (bit x)).
Proof.
  intros Hd Hw Hx Hm. unfold wired in Hw. rewrite Hd in Hw.
  destruct (Hw 0 x) as (_ & Hpin & _); [split; lia|].
  unfold matrix_read_rows_on_col. cbn [fst snd]. destruct (select_unselect _ Hpin) as [-> ->]. cbn [fst snd].
  destruct (fold_rows (read_row_of_col gpio [col_pins x] (wrap MATRIX_ROW_BITS (bit x)))
    (fun r v => with_bit (closed r x) v (wrap MATRIX_ROW_BITS (bit x))) rows_ m) as [Hlen Hrow].
  - intros r m0 Hr%elem_of_rows. unfold read_row_of_col. destruct (Hw r x) as (Hp & _ & Hg); [by split|].
    rewrite read_pin by done. rewrite Hg. by destruct (closed r x).
  - apply NoDup_rows.
  - intros r Hr%elem_of_rows. lia.
  - eexists. split_and!; [done|done|]. intros r Hr. rewrite Hrow by lia. by rewrite bool_decide_true by (by apply elem_of_rows).
Qed.

Lemma read_by_cols gpio closed l m :
  DIODE_DIRECTION = ROW2COL -> wired gpio closed ->
  (forall x, x ∈ l -> 0 <= x < MATRIX_COLS) -> Z.of_nat (length m) = MATRIX_ROWS ->
  let m' := (foldl (fun s col => matrix_read_rows_on_col gpio col s) ([], m) l).2 in
  length m' = length m /\
  forall r c, 0 <= r < MATRIX_ROWS -> 0 <= c ->
    Z.testbit (at_row m' r) c = if bool_decide (c ∈ l) then closed r c else Z.testbit (at_row m r) c.
Proof.
  intros Hd Hw. revert m. induction l as [|x l IH]; intros m Hl Hm m'.
  { split; [done|]. intros r c _ _. by rewrite bool_decide_false by apply not_elem_of_nil. }
  unfold m'. cbn [foldl].
  destruct (read_col gpio closed x m Hd Hw (Hl x (list_elem_of_here _ _)) Hm) as (m1 & -> & Hlen & Hrow).
  destruct (IH m1) as [Hlen' Hbits]; [intros y Hy; apply Hl; by apply list_elem_of_further|by rewrite Hlen|].
  split; [by rewrite Hlen', Hlen|]. intros r c Hr Hc. rewrite Hbits, Hrow by done.
  rewrite testbit_with_bit by (done || apply Hl, list_elem_of_here).
  destruct (decide (c ∈ l)) as [Hin|Hn].
  - by rewrite !bool_decide_true by (done || by apply list_elem_of_further).
  - rewrite (bool_decide_false (c ∈ l)) by done. destruct (Z.eqb_spec c x) as [->|Hne].
    + by rewrite bool_decide_true by apply list_elem_of_here.
    + rewrite bool_decide_false; [done|]. intros [->|?]%elem_of_cons; done.
Qed.

(** What the scan reads is what the switches are, with the diodes either way or
    with a pin for each key. *)
Lemma scan_reads_switches gpio closed :
  wired gpio closed -> shows_switches closed (read_matrix gpio).
Proof.
  intros Hw. unfold read_matrix, wired in *. destruct DIODE_DIRECTION eqn:Hd.
  - apply (read_by_rows gpio closed (fun r c => readMatrixPin gpio [row_pins r] (col_pins c))).
    + intros r m Hr. unfold matrix_read_cols_on_row. rewrite Hd. cbn [fst snd].
      destruct (Hw r 0) as (Hpin & _); [split; lia|]. by destruct (select_unselect _ Hpin) as [-> ->].
    + intros r c Hrc. destruct (Hw r c Hrc) as (_ & Hc & Hg). rewrite read_pin by done. by rewrite Hg.
  - pose proof (read_by_cols gpio closed cols_ (replicate (Z.to_nat MATRIX_ROWS) 0) Hd) as Hr.
    unfold wired in Hr. rewrite Hd in Hr.
    destruct (Hr Hw) as [Hlen Hbits]; [by intros x Hx%elem_of_cols|rewrite length_replicate; lia|].
    split; [by rewrite Hlen, length_replicate|]. intros r c Hrr Hc. rewrite Hbits by done.
    rewrite at_row_replicate, Z.bits_0.
    destruct (decide (c < MATRIX_COLS)).
    + by rewrite !bool_decide_true by (done || apply elem_of_cols; lia).
    + rewrite !bool_decide_false; [done|done|]. rewrite elem_of_cols. lia.
  - apply (read_by_rows gpio closed (fun r c => readMatrixPin gpio [] (direct_pins r c))).
    + intros r m Hr. unfold matrix_read_cols_on_row. by rewrite Hd.
    + intros r c Hrc. destruct (Hw r c Hrc) as (Hc & Hg). rewrite read_pin by done. by rewrite Hg.
Qed.
End scan.

(** ** The task *)

Section task.
Context {CF : Config} {HK : Hooks} {MC : MatrixConfig} {D : Type} {DB : Debouncer D}.
Abbreviation M := (stm (matrix_state D * keyboard)).
Hypothesis cols_fit : 0 < MATRIX_COLS <= MATRIX_ROW_BITS.
Hypothesis rows_fit : 0 < MATRIX_ROWS.
Hypothesis can_read : matrix_can_read = true.
Hypothesis quiet_scan : forall k, now (exec matrix_scan_kb k) = now k.

(** What the core sees of a list of changed keys. *)
Fixpoint core_sees (l : list (Z * Z * bool)) : stm keyboard unit :=
  match l with
  | [] => skip
  | (r, c, p) :: l =>
      when should_process_keypress (t ← gets (fun k => u16 (now k)); exec_event (MAKE_KEYEVENT r c t p));;
      switch_events r c p;;
      core_sees l
  end.

Lemma core_sees_app l l' k : exec (core_sees (l ++ l')) k = exec (core_sees l') (exec (core_sees l) k).
Proof.
  revert k. induction l as [|[[r c] p] l IH]; intros k; [done|]. cbn [app core_sees].
  by rewrite !exec_bind, IH.
Qed.

Definition mask (c : Z) : Z := wrap MATRIX_ROW_BITS (bit c).
Definition changed_bits (s : matrix_state D) (r : Z) : Z := Z.lxor (matrix_get_row s r) (at_row (matrix_previous s) r).
Definition ghost (s : matrix_state D) (r : Z) : bool := has_ghost_in_row s r (matrix_get_row s r).

(** The keys of a row that changed, with their new states. *)
Definition changed_keys (s : matrix_state D) (r : Z) : list (Z * Z * bool) :=
  if negb (nz (changed_bits s r)) || ghost s r then [] else
  (fun c => (r, c, nz (Z.land (matrix_get_row s r) (mask c)))) <$>
    filter (fun c => nz (Z.land (changed_bits s r) (mask c)) = true) cols_.

Lemma process_col_spec r cur ch c (s : matrix_state D) k :
  process_col r cur ch c (s, k) =
    (tt, (s, exec (core_sees (if nz (Z.land ch (mask c)) then [(r, c, nz (Z.land cur (mask c)))] else [])) k)).
Proof.
  unfold process_col. fold (mask c). destruct (nz (Z.land ch (mask c))); [|done]. cbn [when core_sees].
  rewrite !exec_bind. destruct should_process_keypress; cbn [when].
  - srun. rewrite run_core. cbn [gets fst snd]. srun. rewrite run_core. by rewrite core_unit.
  - srun. by rewrite core_unit.
Qed.

Lemma cols_loop r cur ch l (s : matrix_state D) k :
  for_each_ l (process_col r cur ch) (s, k) =
    (tt, (s, exec (core_sees ((fun c => (r, c, nz (Z.land cur (mask c)))) <$>
                              filter (fun c => nz (Z.land ch (mask c)) = true) l)) k)).
Proof.
  revert k. induction l as [|c l IH]; intros k; [done|]. cbn [for_each_].
  rewrite (run_bind _ _ _ _ _ (process_col_spec r cur ch c s k)), IH.
  destruct (nz (Z.land ch (mask c))) eqn:E.
  - rewrite filter_cons_True by done. cbn [fmap list_fmap]. match goal with |- context [core_sees (?p :: ?q)] => by rewrite (core_sees_app [p] q) end.
  - by rewrite filter_cons_False by (by rewrite E).
Qed.

(** The state after the rows were compared. *)
Definition with_previous (p : list Z) (s : matrix_state D) : matrix_state D := {|
  raw_matrix := raw_matrix s; matrix := matrix s; matrix_previous := p; last_tick := last_tick s |}.
Definition settle_row (s : matrix_state D) (r : Z) : matrix_state D :=
  if negb (nz (changed_bits s r)) || ghost s r then s
  else with_previous (<[Z.to_nat r := matrix_get_row s r]> (matrix_previous s)) s.

Lemma process_row_spec r (s : matrix_state D) k :
  process_row r (s, k) = (tt, (settle_row s r, exec (core_sees (changed_keys s r)) k)).
Proof.
  unfold process_row, settle_row, changed_keys. rewrite run_own. cbn [gets fst snd].
  fold (at_row (matrix_previous s) r). fold (changed_bits s r). fold (ghost s r).
  destruct (negb (nz (changed_bits s r)) || ghost s r); [done|].
  rewrite (run_bind _ _ _ _ _ (cols_loop r _ _ _ _ _)). done.
Qed.

(** Comparing a row does not change what another row shows. *)
Lemma settle_row_other s r r' : 0 <= r -> 0 <= r' -> r <> r' -> changed_keys (settle_row s r) r' = changed_keys s r'.
Proof.
  intros Hr Hr' Hne. unfold settle_row. destruct (negb _ || _); [done|]. unfold changed_keys.
  assert (changed_bits (with_previous (<[Z.to_nat r := matrix_get_row s r]> (matrix_previous s)) s) r' = changed_bits s r') as ->.
  { unfold changed_bits. f_equal. unfold at_row, with_previous. cbn [matrix_previous].
    by rewrite list_lookup_insert_ne by lia. }
  done.
Qed.

Lemma rows_loop l (s : matrix_state D) k :
  NoDup l -> (forall r, r ∈ l -> 0 <= r) ->
  for_each_ l process_row (s, k) =
    (tt, (foldl settle_row s l, exec (core_sees (concat (changed_keys s <$> l))) k)).
Proof.
  intros HN. revert s k. induction HN as [|r l Hr HN IH]; intros s k Hl; [done|]. cbn [for_each_].
  rewrite (run_bind _ _ _ _ _ (process_row_spec r s k)).
  rewrite IH by (intros r' Hr'; apply Hl; by apply list_elem_of_further).
  cbn [foldl fmap list_fmap concat]. rewrite core_sees_app. do 4 f_equal. f_equal.
  apply list_fmap_ext. intros i r' Hi%list_elem_of_lookup_2.
  apply settle_row_other; [apply Hl, list_elem_of_here|apply Hl; by apply list_elem_of_further|congruence].
Qed.

(** *** One task *)

Definition scanned (t : Z) (gpio : list Z -> Z -> Z) (s : matrix_state D) : matrix_state D :=
  let raw := read_matrix gpio in
  {| raw_matrix := raw; matrix := (debounce raw (negb (bool_decide (raw_matrix s = raw))) t (matrix s)).2;
     matrix_previous := matrix_previous s; last_tick := last_tick s |}.

Definition ticks (t : Z) (s : matrix_state D) : bool := nz (TIMER_DIFF_16 (u16 t) (last_tick s)).
Definition task_state (t : Z) (s : matrix_state D) : matrix_state D :=
  if matrix_differs s then foldl settle_row s rows_
  else if ticks t s then
    {| raw_matrix := raw_matrix s; matrix := matrix s; matrix_previous := matrix_previous s; last_tick := u16 t |}
  else s.
Definition task_keys (s : matrix_state D) : list (Z * Z * bool) := concat (changed_keys s <$> rows_).

(** What the core gets from the task: the keys that changed, or a tick. *)
Definition task_core (t : Z) (s : matrix_state D) : stm keyboard unit :=
  matrix_scan_kb;;
  if matrix_differs s then core_sees (task_keys s)
  else when (ticks t s) (exec_event (MAKE_TICK_EVENT (u16 t))).

Lemma matrix_task_spec gpio (s : matrix_state D) k :
  let s1 := scanned (now k) gpio s in
  matrix_task gpio (s, k) = (matrix_differs s1, (task_state (now k) s1, exec (task_core (now k) s1) k)).
Proof.
  intros s1. unfold matrix_task. rewrite can_read. cbn [negb]. unfold matrix_scan.
  srun. rewrite run_own. cbn [gets fst snd]. srun. rewrite run_core. cbn [gets fst snd]. cbv beta zeta. srun. rewrite run_own. cbn [modify fst snd].
  srun. rewrite run_core. srun. rewrite run_own. cbn [gets fst snd]. fold (scanned (now k) gpio s). fold s1.
  set (k1 := (matrix_scan_kb k).2). unfold task_core, task_state. rewrite exec_bind. change (exec matrix_scan_kb k) with k1.
  destruct (matrix_differs s1) eqn:E; cbn [negb].
  - rewrite (run_bind _ _ _ _ _ (rows_loop rows_ s1 k1 NoDup_rows ltac:(intros r Hr%elem_of_rows; lia))). done.
  - unfold generate_tick_event. srun. rewrite run_core. cbn [gets fst snd]. srun. rewrite run_own. cbn [gets fst snd].
    assert (u16 (now k1) = u16 (now k)) as -> by (f_equal; apply quiet_scan).
    fold (ticks (now k) s1). destruct (ticks (now k) s1); cbn [when]; [|done].
    srun. rewrite run_core. cbn [fst snd]. done.
Qed.

(** *** Many tasks *)

Definition wait_scan (t : Z) : M unit := core (modify (fun k => k <| now := t |>)).

Fixpoint run_matrix (scans : list (Z * (list Z -> Z -> Z))) : M unit :=
  match scans with
  | [] => skip
  | (t, gpio) :: scans => wait_scan t;; matrix_task gpio;; run_matrix scans
  end.

Definition after_task (s : matrix_state D) (x : Z * (list Z -> Z -> Z)) : matrix_state D :=
  task_state x.1 (scanned x.1 x.2 s).

Fixpoint core_run (scans : list (Z * (list Z -> Z -> Z))) (s : matrix_state D) : stm keyboard unit :=
  match scans with
  | [] => skip
  | x :: scans =>
      modify (fun k => k <| now := x.1 |>);;
      task_core x.1 (scanned x.1 x.2 s);;
      core_run scans (after_task s x)
  end.

(** The key events of a run, in the order in which the core gets them. *)
Fixpoint run_keys (scans : list (Z * (list Z -> Z -> Z))) (s : matrix_state D) : list (Z * Z * bool) :=
  match scans with
  | [] => []
  | x :: scans => task_keys (scanned x.1 x.2 s) ++ run_keys scans (after_task s x)
  end.

Lemma run_matrix_spec scans (s : matrix_state D) k :
  run_matrix scans (s, k) = (tt, (foldl after_task s scans, exec (core_run scans s) k)).
Proof.
  revert s k. induction scans as [|[t gpio] scans IH]; intros s k; [done|]. cbn [run_matrix core_run foldl].
  unfold wait_scan. rewrite run_core. cbn [modify fst snd].
  rewrite (run_bind _ _ _ _ _ (matrix_task_spec gpio s (k <| now := t |>))).
  rewrite IH. rewrite !exec_bind. done.
Qed.

(** *** One key *)

Definition key_reports (r c : Z) (l : list (Z * Z * bool)) : list bool := snd <$> filter (fun e => e.1 = (r, c)) l.

Lemma key_reports_app r c l l' : key_reports r c (l ++ l') = key_reports r c l ++ key_reports r c l'.
Proof. unfold key_reports. by rewrite filter_app, fmap_app. Qed.

Lemma key_reports_none r c l : (forall e, e ∈ l -> e.1 <> (r, c)) -> key_reports r c l = [].
Proof.
  induction l as [|e l IH]; intros Hl; [done|]. unfold key_reports.
  rewrite filter_cons_False by apply Hl, list_elem_of_here. apply IH. intros e' He'. apply Hl. by apply list_elem_of_further.
Qed.

Definition is_down (m : list Z) (r c : Z) : bool := Z.testbit (at_row m r) c.
(** The key as the debounced matrix and the mask show it. *)
Definition shown_down (s : matrix_state D) (r c : Z) : bool := Z.testbit (matrix_get_row s r) c.

Lemma nz_mask x c : 0 <= c < MATRIX_COLS -> nz (Z.land x (mask c)) = Z.testbit x c.
Proof.
  intros Hc. unfold mask. rewrite wrap_small; [by apply nz_land_bit; lia|]. apply bit_range. lia.
Qed.

Lemma row_reports s r r' c :
  0 <= c < MATRIX_COLS ->
  key_reports r c (changed_keys s r') =
    if bool_decide (r' = r) && (negb (ghost s r) && xorb (shown_down s r c) (is_down (matrix_previous s) r c))
    then [shown_down s r c] else [].
Proof.
  intros Hc. unfold changed_keys. case_bool_decide as E; cbn [andb].
  2: { apply key_reports_none. intros e He. destruct (negb _ || _); [by apply not_elem_of_nil in He|].
       apply list_elem_of_fmap in He as (x & -> & _). cbn. congruence. }
  subst r'. destruct (ghost s r); cbn [negb andb]; [by rewrite orb_true_r|]. rewrite orb_false_r.
  assert (Z.testbit (changed_bits s r) c = xorb (shown_down s r c) (is_down (matrix_previous s) r c)) as <-
    by (unfold changed_bits, shown_down, is_down; apply Z.lxor_spec).
  destruct (nz (changed_bits s r)) eqn:Ez; cbn [negb].
  2: { apply nz_false in Ez. rewrite Ez, Z.bits_0. done. }
  assert (forall l, NoDup l -> (forall x, x ∈ l -> 0 <= x < MATRIX_COLS) ->
    key_reports r c ((fun c => (r, c, nz (Z.land (matrix_get_row s r) (mask c)))) <$>
      filter (fun c => nz (Z.land (changed_bits s r) (mask c)) = true) l) =
    if bool_decide (c ∈ l) && Z.testbit (changed_bits s r) c then [shown_down s r c] else []) as Hl.
  { induction 1 as [|x l Hx HN IH]; intros Hr.
    { by rewrite bool_decide_false by apply not_elem_of_nil. }
    assert (0 <= x < MATRIX_COLS) as Hx' by apply Hr, list_elem_of_here.
    specialize (IH ltac:(intros y Hy; apply Hr; by apply list_elem_of_further)).
    destruct (Z.eq_dec x c) as [->|Hne].
    - rewrite (bool_decide_true (c ∈ c :: l)) by apply list_elem_of_here. cbn [andb].
      rewrite (bool_decide_false (c ∈ l)) in IH by done. cbn [andb] in IH.
      destruct (Z.testbit (changed_bits s r) c) eqn:Et.
      + rewrite filter_cons_True by (by rewrite nz_mask). cbn [fmap list_fmap]. unfold key_reports in *.
        rewrite filter_cons_True by done. cbn [fmap list_fmap]. rewrite IH. cbn [snd]. by rewrite nz_mask.
      + rewrite filter_cons_False by (by rewrite nz_mask, Et). exact IH.
    - assert (bool_decide (c ∈ x :: l) = bool_decide (c ∈ l)) as ->.
      { apply bool_decide_ext. rewrite elem_of_cons. split; [intros [?|?]; [congruence|done]|by right]. }
      rewrite <-IH. destruct (decide (nz (Z.land (changed_bits s r) (mask x)) = true)) as [Et|Et].
      + rewrite filter_cons_True by done. cbn [fmap list_fmap]. unfold key_reports.
        rewrite filter_cons_False by (cbn; congruence). done.
      + by rewrite filter_cons_False. }
  rewrite Hl by (apply NoDup_cols || by intros x Hx%elem_of_cols).
  by rewrite bool_decide_true by (by apply elem_of_cols).
Qed.

(** A task reports a key once if it changed and its row is not held back. *)
Lemma task_reports s r c :
  on_matrix r c ->
  key_reports r c (task_keys s) =
    if negb (ghost s r) && xorb (shown_down s r c) (is_down (matrix_previous s) r c) then [shown_down s r c] else [].
Proof.
  intros [Hr Hc]. unfold task_keys.
  assert (forall l, NoDup l -> key_reports r c (concat (changed_keys s <$> l)) =
    if bool_decide (r ∈ l) && (negb (ghost s r) && xorb (shown_down s r c) (is_down (matrix_previous s) r c))
    then [shown_down s r c] else []) as Hl.
  { induction 1 as [|x l Hx HN IH].
    { by rewrite bool_decide_false by apply not_elem_of_nil. }
    cbn [fmap list_fmap concat]. rewrite key_reports_app, IH, row_reports by done.
    destruct (Z.eq_dec x r) as [->|Hne].
    - rewrite (bool_decide_true (r = r)), (bool_decide_true (r ∈ r :: l)), (bool_decide_false (r ∈ l)) by (done || apply list_elem_of_here).
      cbn [andb]. by rewrite app_nil_r.
    - rewrite (bool_decide_false (x = r)) by done. cbn [andb app].
      assert (bool_decide (r ∈ x :: l) = bool_decide (r ∈ l)) as ->; [|done].
      apply bool_decide_ext. rewrite elem_of_cons. split; [intros [?|?]; [congruence|done]|by right]. }
  rewrite Hl by apply NoDup_rows. by rewrite bool_decide_true by (by apply elem_of_rows).
Qed.

Definition well_sized (s : matrix_state D) : Prop := length (matrix_previous s) = Z.to_nat MATRIX_ROWS.

Lemma settle_sized s r : well_sized s -> well_sized (settle_row s r).
Proof. unfold settle_row, well_sized. destruct (_ || _); [done|]. cbn [matrix_previous with_previous]. by rewrite length_insert. Qed.

Lemma settle_matrix s r : matrix (settle_row s r) = matrix s.
Proof. unfold settle_row. by destruct (_ || _). Qed.

Lemma get_row_matrix s s' r : matrix s' = matrix s -> matrix_get_row s' r = matrix_get_row s r.
Proof. unfold matrix_get_row. by intros ->. Qed.

Lemma ghost_matrix s s' r : matrix s' = matrix s -> ghost s' r = ghost s r.
Proof.
  intros E. unfold ghost, has_ghost_in_row. rewrite (get_row_matrix s s') by done. destruct MATRIX_HAS_GHOST; [|done].
  f_equal. induction rows_ as [|i l IH]; [done|]. cbn [existsb]. rewrite (get_row_matrix s s') by done. by rewrite IH.
Qed.

Lemma settle_row_previous s r r' : well_sized s -> 0 <= r < MATRIX_ROWS -> 0 <= r' ->
  at_row (matrix_previous (settle_row s r)) r' =
    if bool_decide (r' = r) && negb (ghost s r) then matrix_get_row s r else at_row (matrix_previous s) r'.
Proof.
  intros Hs Hr Hr'. unfold settle_row. destruct (ghost s r); cbn [negb]; [by rewrite orb_true_r, andb_false_r|].
  rewrite orb_false_r, andb_true_r. destruct (nz (changed_bits s r)) eqn:Ez; cbn [negb].
  - cbn [matrix_previous with_previous]. rewrite at_row_insert by (unfold well_sized in Hs; lia).
    destruct (Z.eqb_spec r' r); [by rewrite bool_decide_true|by rewrite bool_decide_false].
  - apply nz_false in Ez. unfold changed_bits in Ez. apply Z.lxor_eq in Ez. case_bool_decide; [|done]. by subst.
Qed.

Lemma settle_previous s r : well_sized s -> 0 <= r < MATRIX_ROWS ->
  at_row (matrix_previous (foldl settle_row s rows_)) r =
    if ghost s r then at_row (matrix_previous s) r else matrix_get_row s r.
Proof.
  intros Hs Hr.
  assert (forall l s, well_sized s -> NoDup l -> (forall x, x ∈ l -> 0 <= x < MATRIX_ROWS) ->
    at_row (matrix_previous (foldl settle_row s l)) r =
      if bool_decide (r ∈ l) && negb (ghost s r) then matrix_get_row s r else at_row (matrix_previous s) r) as Hl.
  { clear s Hs. induction l as [|x l IH]; intros s Hs HN Hl.
    { by rewrite bool_decide_false by apply not_elem_of_nil. }
    apply NoDup_cons in HN as [Hx HN]. cbn [foldl].
    rewrite (IH (settle_row s x)); [|by apply settle_sized|done|intros y Hy; apply Hl; by apply list_elem_of_further].
    rewrite (ghost_matrix s), (get_row_matrix s) by apply settle_matrix.
    rewrite settle_row_previous by (done || lia || apply Hl, list_elem_of_here).
    destruct (Z.eq_dec x r) as [->|Hne].
    - rewrite (bool_decide_true (r = r)), (bool_decide_true (r ∈ r :: l)), (bool_decide_false (r ∈ l)) by (done || apply list_elem_of_here). done.
    - rewrite (bool_decide_false (r = x)) by congruence. cbn [andb].
      assert (bool_decide (r ∈ x :: l) = bool_decide (r ∈ l)) as ->; [|done].
      apply bool_decide_ext. rewrite elem_of_cons. split; [intros [?|?]; [congruence|done]|by right]. }
  rewrite Hl; [|done|apply NoDup_rows|by intros x Hx%elem_of_rows].
  rewrite bool_decide_true by (by apply elem_of_rows). by destruct (ghost s r).
Qed.

Lemma not_differs s r : matrix_differs s = false -> 0 <= r < MATRIX_ROWS -> at_row (matrix_previous s) r = matrix_get_row s r.
Proof.
  intros Hd Hr%elem_of_rows. unfold matrix_differs in Hd.
  assert (nz (Z.lxor (at_row (matrix_previous s) r) (matrix_get_row s r)) = false) as E.
  { destruct (nz _) eqn:E; [|done]. rewrite <-Hd. symmetry. apply existsb_exists. exists r. split; [by apply list_elem_of_In|exact E]. }
  apply nz_false in E. by apply Z.lxor_eq in E.
Qed.

(** After a task the core knows the key as it is shown, unless its row is held
    back. *)
Lemma task_previous t s r : well_sized s -> 0 <= r < MATRIX_ROWS ->
  at_row (matrix_previous (task_state t s)) r =
    if ghost s r then at_row (matrix_previous s) r else matrix_get_row s r.
Proof.
  intros Hs Hr. unfold task_state. destruct (matrix_differs s) eqn:Hd; [by apply settle_previous|].
  assert (at_row (matrix_previous s) r = matrix_get_row s r) as E by (by apply not_differs).
  destruct (ticks t s); cbn [matrix_previous]; rewrite E; by destruct (ghost s r).
Qed.

(** *** The events of a key alternate *)

(** Each one turns the key over, from the state [b]. *)
Fixpoint alternates (b : bool) (l : list bool) : Prop :=
  match l with [] => True | x :: l => x = negb b /\ alternates x l end.

Definition last_report (b : bool) (l : list bool) : bool := default b (last l).

Lemma last_report_app b l l' : last_report b (l ++ l') = last_report (last_report b l) l'.
Proof.
  unfold last_report. rewrite last_app. by destruct (last l').
Qed.

Lemma alternates_app b l l' : alternates b l -> alternates (last_report b l) l' -> alternates b (l ++ l').
Proof.
  revert b. induction l as [|x l IH]; intros b; [done|]. cbn [alternates app]. intros [-> Hl] Hl'. split; [done|].
  apply IH; [done|]. unfold last_report in *. destruct l as [|y l]; [done|].
  change (last (negb b :: y :: l)) with (last (y :: l)) in Hl'. destruct (last (y :: l)) eqn:E; [done|]. by apply last_None in E.
Qed.

Lemma run_reports scans s r c :
  on_matrix r c -> well_sized s ->
  alternates (is_down (matrix_previous s) r c) (key_reports r c (run_keys scans s)) /\
  is_down (matrix_previous (foldl after_task s scans)) r c =
    last_report (is_down (matrix_previous s) r c) (key_reports r c (run_keys scans s)) /\
  well_sized (foldl after_task s scans).
Proof.
  intros Hrc. revert s. induction scans as [|x scans IH]; intros s Hs; [by split_and!|]. cbn [run_keys foldl].
  set (s1 := scanned x.1 x.2 s). assert (well_sized s1) as Hs1 by exact Hs.
  assert (well_sized (after_task s x)) as Hs2.
  { unfold after_task, task_state. fold s1. destruct (matrix_differs s1).
    - assert (forall l s, well_sized s -> well_sized (foldl settle_row s l)) as Hf; [|by apply Hf].
      induction l as [|y l IHl]; intros s0 H0; [done|]. cbn [foldl]. by apply IHl, settle_sized.
    - by destruct (ticks x.1 s1). }
  destruct (IH _ Hs2) as (Ha & Hl & Hw). rewrite key_reports_app, Hl, last_report_app.
  assert (is_down (matrix_previous (after_task s x)) r c =
    last_report (is_down (matrix_previous s) r c) (key_reports r c (task_keys s1)) /\
    alternates (is_down (matrix_previous s) r c) (key_reports r c (task_keys s1))) as [E1 E2].
  { rewrite task_reports by done. unfold after_task, is_down at 1. fold s1. rewrite task_previous by (done || apply Hrc).
    change (matrix_previous s) with (matrix_previous s1).
    destruct (ghost s1 r); cbn [negb andb]; [by split|]. fold (shown_down s1 r c).
    destruct (shown_down s1 r c), (is_down (matrix_previous s1) r c); by split. }
  rewrite E1 in Ha |- *. split_and!; [by apply alternates_app|done|done].
Qed.

(** What the core was told last, unless the row is held back. *)
Lemma last_report_shown scans x d r c :
  on_matrix r c ->
  let s := foldl after_task (matrix_init d) (scans ++ [x]) in
  ghost s r = false ->
  last_report false (key_reports r c (run_keys (scans ++ [x]) (matrix_init d))) = shown_down s r c.
Proof.
  intros Hrc s Hg. set (s0 := matrix_init d) in *. assert (well_sized s0) as Hs0 by apply length_replicate.
  destruct (run_reports (scans ++ [x]) s0 r c Hrc Hs0) as (_ & Hl & _).
  assert (is_down (matrix_previous s0) r c = false) as E0 by (unfold is_down; cbn [matrix_previous s0 matrix_init]; by rewrite at_row_replicate, Z.bits_0).
  rewrite E0 in Hl. rewrite <-Hl. change (shown_down s r c) with (Z.testbit (matrix_get_row s r) c). unfold is_down.
  destruct (run_reports scans s0 r c Hrc Hs0) as (_ & _ & Hw). set (s' := foldl after_task s0 scans) in *.
  assert (s = task_state x.1 (scanned x.1 x.2 s')) as Es by (unfold s; by rewrite foldl_app).
  assert (matrix s = matrix (scanned x.1 x.2 s')) as Em.
  { rewrite Es. unfold task_state. destruct (matrix_differs _).
    - assert (forall l s, matrix (foldl settle_row s l) = matrix s) as Hf; [|by rewrite Hf].
      induction l as [|y l IHl]; intros s1; [done|]. cbn [foldl]. by rewrite IHl, settle_matrix.
    - by destruct (ticks _ _). }
  rewrite (get_row_matrix _ _ _ Em). rewrite (ghost_matrix _ _ _ Em) in Hg.
  fold s. rewrite Es, task_previous by (exact Hw || apply Hrc). by rewrite Hg.
Qed.

(** C34: Over any sequence of scans, whatever they read: the core gets a press
    before each release of a key and never two of a kind in a row, and after
    the last task the key is for it as the debounced matrix shows it, unless
    its row is held back because of ghosting. *)
Theorem key_events_alternate scans x d r c k :
  on_matrix r c ->
  let s0 := matrix_init d in
  let s := foldl after_task s0 (scans ++ [x]) in
  let reports := key_reports r c (run_keys (scans ++ [x]) s0) in
  run_matrix (scans ++ [x]) (s0, k) = (tt, (s, exec (core_run (scans ++ [x]) s0) k)) /\
  alternates false reports /\
  (ghost s r = false -> last_report false reports = shown_down s r c).
Proof.
  intros Hrc s0 s reports. split_and!; [apply run_matrix_spec| |by apply last_report_shown].
  destruct (run_reports (scans ++ [x]) s0 r c Hrc (length_replicate _ _)) as (Ha & _ & _).
  unfold is_down in Ha. cbn [matrix_previous s0 matrix_init] in Ha. by rewrite at_row_replicate, Z.bits_0 in Ha.
Qed.
End task.
