(* ===== verification/KeyPath.v ===== *)
(** * From a switch to the core

    The scan, the debouncing and the task together, for the algorithms of one
    key: a switch that stays as it is for the delay is what the core was told
    last. *)

From S2P Require Import Prelude.
From S2P Require Import Keycodes.
From S2P Require Import State.
From S2P Require Import Debounce.
From S2P Require Import DebounceLoops.
From S2P Require Import DebounceSim.
From S2P Require Import DebounceSpec.
From S2P Require Import DebounceTheorems.
From S2P Require Import Matrix.
From S2P Require Import MatrixSpec.

Section path.
Context {CF : Config} {HK : Hooks} {MC : MatrixConfig} {DC : DebounceConfig}.
Hypothesis cols_fit : 0 < MATRIX_COLS <= MATRIX_ROW_BITS.
Hypothesis rows_fit : 0 < MATRIX_ROWS.
Hypothesis can_read : matrix_can_read = true.
Hypothesis quiet_scan : forall k, now (exec matrix_scan_kb k) = now k.

(** The switch between two pins, while its line is driven low. *)
Definition switch_closed (gpio : list Z -> Z -> Z) (r c : Z) : bool :=
  match DIODE_DIRECTION with
  | COL2ROW => gpio [row_pins r] (col_pins c) =? MATRIX_INPUT_PRESSED_STATE
  | ROW2COL => gpio [col_pins c] (row_pins r) =? MATRIX_INPUT_PRESSED_STATE
  | DIRECT_PINS => gpio [] (direct_pins r c) =? MATRIX_INPUT_PRESSED_STATE
  end.

Definition pins_exist : Prop := forall r c, on_matrix r c ->
  match DIODE_DIRECTION with
  | DIRECT_PINS => direct_pins r c <> NO_PIN
  | _ => row_pins r <> NO_PIN /\ col_pins c <> NO_PIN
  end.

Lemma switches_wired gpio : pins_exist -> wired gpio (switch_closed gpio).
Proof.
  intros Hp r c Hrc. specialize (Hp r c Hrc). unfold switch_closed. destruct DIODE_DIRECTION; tauto.
Qed.

Abbreviation scans_t := (list (Z * (list Z -> Z -> Z))).
Definition raw_scans (scans : scans_t) : list scan := (fun x => (x.1, read_matrix x.2)) <$> scans.

Section one_algorithm.
Context {D : Type} {DB : Debouncer D} (call : list Z -> bool -> Z -> D -> D).
Hypothesis call_debounces : forall raw changed t s, (debounce raw changed t s).2 = call raw changed (tick t) s.

(** The task runs the algorithm as [run] does. *)
Lemma task_runs_debounce scans d :
  let s := foldl after_task (matrix_init d) scans in
  matrix s = run (Z.to_nat MATRIX_ROWS) call d (raw_scans scans).
Proof.
  unfold run.
  assert (forall scans (s : matrix_state D), let s' := foldl after_task s scans in
    (raw_matrix s', matrix s') = foldl (scan_step call) (raw_matrix s, matrix s) (raw_scans scans)) as H.
  2: { cbv zeta. specialize (H scans (matrix_init d)). cbn [raw_matrix matrix matrix_init] in H. by rewrite <-H. }
  clear scans. induction scans as [|[t gpio] scans IH]; intros s; [done|]. cbn [foldl raw_scans fmap list_fmap].
  rewrite IH. f_equal. unfold after_task, scan_step. cbn [fst snd].
  assert (forall t s1, raw_matrix (task_state t s1) = raw_matrix s1 /\ matrix (task_state t s1) = matrix s1) as Hk.
  { intros t1 s1. unfold task_state. destruct (matrix_differs s1); [|by destruct (ticks _ _)].
    assert (forall l s, raw_matrix (foldl settle_row s l) = raw_matrix s /\ matrix (foldl settle_row s l) = matrix s) as Hf.
    { induction l as [|y l IHl]; intros s0; [done|]. cbn [foldl]. destruct (IHl (settle_row s0 y)) as [-> ->].
      unfold settle_row. by destruct (_ || _). }
    apply Hf. }
  destruct (Hk t (scanned t gpio s)) as [-> ->]. unfold scanned. cbn [raw_matrix matrix].
  rewrite call_debounces. f_equal. f_equal. f_equal. apply bool_decide_ext. by split.
Qed.

Lemma told_last scans d r c :
  MATRIX_HAS_GHOST = false -> matrix_mask = None -> on_matrix r c -> scans <> [] ->
  last_report false (key_reports r c (run_keys scans (matrix_init d))) =
    key_bit (debounced (run (Z.to_nat MATRIX_ROWS) call d (raw_scans scans))) (Z.to_nat r, Z.to_nat c).
Proof.
  intros Hg Hm Hrc Hne. destruct (exists_last Hne) as (l & x & ->).
  rewrite last_report_shown by (done || unfold ghost, has_ghost_in_row; by rewrite Hg).
  rewrite <-task_runs_debounce. unfold shown_down, matrix_get_row, key_bit. rewrite Hm. cbn [fst snd].
  destruct Hrc as [Hr Hc]. by rewrite Z2Nat.id by lia.
Qed.
End one_algorithm.

(** The last scan, and since when a switch has been as it is. *)
Definition switch_stable (r c : Z) (b : bool) (t0 : Z) (scans : scans_t) : Prop :=
  exists pre y suf, scans = pre ++ y :: suf /\ y.1 = t0 /\ Forall (fun x => switch_closed x.2 r c = b) (y :: suf).

Lemma read_key gpio r c : pins_exist -> on_matrix r c ->
  key_bit (read_matrix gpio) (Z.to_nat r, Z.to_nat c) = switch_closed gpio r c.
Proof.
  intros Hp [Hr Hc]. destruct (scan_reads_switches cols_fit rows_fit gpio (switch_closed gpio)) as [_ Hb]; [by apply switches_wired|].
  unfold key_bit. cbn [fst snd]. rewrite Z2Nat.id by lia. change (row_at (read_matrix gpio) (Z.to_nat r)) with (at_row (read_matrix gpio) r).
  rewrite Hb by lia. by rewrite bool_decide_true by lia.
Qed.

Lemma raw_stable r c b t0 scans : pins_exist -> on_matrix r c -> switch_stable r c b t0 scans ->
  stable_since (fun m => key_bit m (Z.to_nat r, Z.to_nat c)) b t0 (raw_scans scans).
Proof.
  intros Hp Hrc (pre & y & suf & -> & Hy & Hall).
  exists (raw_scans pre), (y.1, read_matrix y.2), (raw_scans suf). unfold raw_scans. rewrite fmap_app. split_and!; [done|done|].
  change ((y.1, read_matrix y.2) :: ?l) with ((fun x : Z * (list Z -> Z -> Z) => (x.1, read_matrix x.2)) <$> (y :: suf)).
  apply Forall_fmap. eapply Forall_impl; [exact Hall|].
  intros x Hx. cbn. by rewrite read_key.
Qed.

Lemma key_dom r c : on_matrix r c -> dom (Z.to_nat MATRIX_ROWS) (Z.to_nat r, Z.to_nat c).
Proof. intros [Hr Hc]. unfold dom, COLS. cbn. lia. Qed.

(** C33: A switch that stays open or closed for the delay, at whatever times the
    matrix is scanned and whatever the other keys do, is what the core was told
    last of its key, by a press or release of its own; with both of the
    algorithms of one key and without ghosting. *)
Theorem stable_switch_reaches_core scans r c b t0 T k :
  pins_exist -> on_matrix r c -> 0 < DEBOUNCE_MS -> MATRIX_HAS_GHOST = false -> matrix_mask = None ->
  timely TIMER_BITS T (raw_scans scans) -> switch_stable r c b t0 scans ->
  t0 + DEBOUNCE <= end_time T (raw_scans scans) ->
  (let s0 := matrix_init (sym_defer_pk_init (Z.to_nat MATRIX_ROWS)) in
   let DB := sym_defer_pk in
   run_matrix scans (s0, k) = (tt, (foldl after_task s0 scans, exec (core_run scans s0) k)) /\
   last_report false (key_reports r c (run_keys scans s0)) = b) /\
  (let s0 := matrix_init (sym_eager_pk_init (Z.to_nat MATRIX_ROWS)) in
   let DB := sym_eager_pk in
   run_matrix scans (s0, k) = (tt, (foldl after_task s0 scans, exec (core_run scans s0) k)) /\
   last_report false (key_reports r c (run_keys scans s0)) = b).
Proof.
  intros Hp Hrc Hon Hg Hmask Ht Hs Hlast.
  pose proof (raw_stable r c b t0 scans Hp Hrc Hs) as Hraw.
  destruct (settled_key (Z.to_nat MATRIX_ROWS) T t0 (raw_scans scans) (Z.to_nat r, Z.to_nat c) b Hon (key_dom r c Hrc) Ht Hraw Hlast)
    as [Epk Eeager].
  assert (scans <> []) as Hne by (destruct Hs as (pre & y & suf & -> & _); by destruct pre).
  split; intros s0 DB; (split; [by apply run_matrix_spec|]); unfold s0.
  - by rewrite (told_last (pk_call (Z.to_nat MATRIX_ROWS))).
  - by rewrite (told_last (eager_pk_call (Z.to_nat MATRIX_ROWS))).
Qed.
End path.
