(* ===== verification/EepromSample.v ===== *)
(** * The EEPROM at a concrete build

    An EEPROM of 256 bytes that is an array, and the sample build with a
    dynamic keymap of two layers: VIA's options, the maps, then the macros. *)

From S2P Require Import Prelude.
From S2P Require Import Keycodes.
From S2P Require Import Report.
From S2P Require Import State.
From S2P Require Import Action.
From S2P Require Import Sample.
From S2P Require Import Eeprom.
From S2P Require Import SendString.
From S2P Require Import DynamicKeymap.
From S2P Require Import DynamicKeymapSpec.
From S2P Require Import DynamicMacros.
From S2P Require Import Via.
From S2P Require Import ViaInit.
From S2P Require Import ActionUtil.
From S2P Require Import ActionLayer.
From S2P Require Import TypingSpec.
From S2P Require Import Feature.
From S2P Require Import EEConfig.

#[local] Existing Instance sample_config.
#[local] Existing Instance sample_hooks.
#[local] Existing Instance us_tables.

#[local] Instance sample_dynamic_keymap : DynamicKeymapConfig := {|
  DYNAMIC_KEYMAP_EEPROM_ADDR := 40; DYNAMIC_KEYMAP_EEPROM_MAX_ADDR := 255;
  DYNAMIC_KEYMAP_LAYER_COUNT := 2; DYNAMIC_KEYMAP_MACRO_COUNT := 16; DYNAMIC_KEYMAP_MACRO_DELAY := 0;
  keycode_at_keymap_location_raw l r c := Z.land (sample_keymap l r c) 0xFFFF;
  keycode_at_encodermap_location_raw l e cw := if cw then KC_UP else KC_DOWN;
|}.

#[local] Instance sample_dynamic_keymap_ok : DynamicKeymapOk 256.
Proof. split; vm_compute; repeat split; discriminate. Defined.

#[local] Instance sample_via : ViaConfig := {|
  VIA_EEPROM_MAGIC_ADDR := 30; VIA_EEPROM_LAYOUT_OPTIONS_SIZE := 1; VIA_EEPROM_LAYOUT_OPTIONS_DEFAULT := 0;
  VIA_EEPROM_CUSTOM_CONFIG_SIZE := 0; VIA_FIRMWARE_VERSION := 0; VIA_EEPROM_ALLOW_RESET := false;
  QMK_BUILDDATE := [50; 48; 50; 53; 45; 48; 49; 45; 51; 49];
  via_command_kb _ := false; via_custom_value_command data := unhandled data;
|}.

#[local] Instance sample_via_ok : ViaOk.
Proof.
  split; [vm_compute; repeat split; discriminate..|].
  intros i Hi H4 H7. do 10 (destruct i as [|i]; [cbn; lia|]). lia.
Defined.

Definition blank : list Z := replicate 256 0xFF.
Lemma sample_raw (c : cell) : cell_valid c -> 0 <= cell_raw c < 2 ^ 16.
Proof.
  intros _. destruct c as [l r c|l e []]; [|done..]. cbn [cell_raw keycode_at_keymap_location_raw sample_dynamic_keymap].
  change 0xFFFF with (Z.ones 16). rewrite Z.land_ones by lia. by apply Z.mod_pos_bound.
Defined.

Section crash.
#[local] Existing Instance history_driver.

Definition fresh_device : via_device := {| vd_medium := [blank]; vd_calls := []; vd_matrix := [0; 0]; vd_clock := 0 |}.
Lemma via_init_is_crash_safe_witness :
  let h := vd_medium (exec eeconfig_init_via fresh_device) in
  Forall (fun c => taken_for_valid c -> c = blank \/ (c = hd [] h /\ complete c)) h.
Proof.
  assert (0 <= VIA_EEPROM_LAYOUT_OPTIONS_DEFAULT) as Hdef by by vm_compute.
  apply Forall_forall, (via_init_is_crash_safe (size := 256) sample_raw Hdef blank fresh_device);
    [split; [by vm_compute|by apply Forall_replicate]|done].
Defined.
End crash.

(** Outside it nothing is written, and the buffer is left as it was. *)
#[local] Instance array_driver : EepromDriver := {|
  medium := list Z;
  eeprom_read_block buf addr d :=
    ((if decide (0 <= addr /\ addr + Z.of_nat (length buf) <= Z.of_nat (length d))
      then take (length buf) (drop (Z.to_nat addr) d) else buf), d);
  eeprom_write_block buf addr d :=
    (tt, if decide (0 <= addr /\ addr + Z.of_nat (length buf) <= Z.of_nat (length d))
         then list_inserts (Z.to_nat addr) buf d else d);
|}.

Lemma Forall_inserts (P : Z -> Prop) buf : forall i d, Forall P buf -> Forall P d -> Forall P (list_inserts i buf d).
Proof.
  induction buf as [|b buf IH]; intros i d Hb Hd; cbn [list_inserts]; [done|].
  apply Forall_cons in Hb as [? ?]. apply Forall_insert; auto.
Qed.

#[local] Instance array_ok : EepromOk 256.
Proof.
  refine {| eeprom_usable (d : @medium array_driver) := Z.of_nat (length d) = 256 /\ Forall is_byte d;
            eeprom_bytes (d : @medium array_driver) := d |}.
  - by intros d [? _].
  - by intros d [_ ?].
  - intros buf addr d [Hlen _] ? ?. cbn. rewrite decide_True by (rewrite Hlen; lia). done.
  - intros buf addr d [Hlen Hb] ? ? ?. cbn. rewrite decide_True by (rewrite Hlen; lia). eexists. split; [done|].
    split; [|done]. rewrite length_inserts. split; [done|by apply Forall_inserts].
Defined.

Lemma blank_content : is_content (size := 256) blank.
Proof. split; [by vm_compute|]. apply Forall_replicate. done. Defined.

Lemma dynamic_keymap_is_table_witness :
  exists d', computes (set_cell (Key 1 0 2) (LT 1 KC_A)) blank tt d' /\ cell_value d' (Key 1 0 2) = LT 1 KC_A /\
    cell_value d' (Key 0 0 2) = 0xFFFF.
Proof.
  destruct (dynamic_keymap_is_table (Key 1 0 2) (LT 1 KC_A) blank) as (_ & d' & E & Hv & Hother & _);
    [cbn; lia|exact blank_content|by vm_compute|].
  exists d'. split; [exact E|]. split; [exact Hv|]. rewrite Hother; [by vm_compute|cbn; lia|done].
Defined.

Lemma dynamic_keymap_reset_restores_witness :
  exists d', computes dynamic_keymap_reset blank tt d' /\ cell_value d' (Key 0 1 0) = LT 1 KC_SPACE /\
    byte_at d' 120 = 0xFF.
Proof.
  destruct (dynamic_keymap_reset_restores sample_raw blank blank_content) as (d' & E & Hset & Hout).
  exists d'. split; [exact E|]. split; [rewrite Hset; [by vm_compute|cbn; lia]|].
  rewrite Hout; [by vm_compute|]. vm_compute. split; [discriminate|by right].
Defined.

Lemma buffer_roundtrip_witness :
  exists d', computes (set_area MacroArea 173 [104; 105; 0]) blank tt d' /\
    computes (get_area MacroArea 173 3) d' [104; 105; 0] d'.
Proof.
  destruct (buffer_roundtrip MacroArea 173 [104; 105; 0] blank blank_content) as (d' & E & E' & _);
    [lia|by repeat constructor|].
  exists d'. split; [exact E|exact E'].
Defined.

(** Two macros, the second of which types "a", holds shift and waits. *)
Definition sample_macros : list (list token) :=
  [[Text 104; Text 105]; [Text 97; Command SS_DOWN_CODE KC_LEFT_SHIFT; Delay [50; 48]]].
Definition with_macros : list Z := list_inserts 80 (stored sample_macros ++ replicate (176 - length (stored sample_macros)) 0) blank.

Definition second_macro : list token := [Text 97; Command SS_DOWN_CODE KC_LEFT_SHIFT; Delay [50; 48]].

Lemma macro_types_its_text_witness :
  runs (dynamic_keymap_macro_send (Z.of_nat 1)) with_macros (sample_keyboard false) (fun e k' => e = Returned /\
    send_string_with_delay (text second_macro ++ [0]) DYNAMIC_KEYMAP_MACRO_DELAY (sample_keyboard false) = (true, k')).
Proof.
  apply (macro_types_its_text sample_macros 1 second_macro with_macros (sample_keyboard false)).
  - repeat (apply Forall_cons_2 || apply Forall_nil_2);
      first [split; [done|by eexists] | split; [by auto|done] | split; [cbn; lia|by repeat constructor]].
  - done.
  - done.
  - split; [by vm_compute|]. split; [by vm_compute|].
    intros i b Hi. pose proof (lookup_lt_Some _ _ _ Hi) as Hlt. cbn in Hlt.
    do 13 (destruct i as [|i]; [vm_compute in Hi; injection Hi as <-; by vm_compute|]). lia.
  - by vm_compute.
Defined.

Definition one_macro : list Z := replicate 255 1 ++ [0].

Lemma macro_read_bounds_witness :
  let n := macros_in one_macro DYNAMIC_KEYMAP_MACRO_EEPROM_ADDR (Z.to_nat DYNAMIC_KEYMAP_MACRO_EEPROM_SIZE) in
  runs (dynamic_keymap_macro_send 1) one_macro (sample_keyboard false) (fun e k' =>
    if 1 <? n then e <> OutsideMacros else if 1 =? n then e = OutsideMacros
    else e = Returned /\ k' = sample_keyboard false).
Proof.
  apply (macro_read_bounds 1 one_macro (sample_keyboard false)); [vm_compute; split; [discriminate|done]|by vm_compute].
Defined.
Example one_macro_is_one : macros_in one_macro 80 176 = 1.
Proof. by vm_compute. Qed.

Lemma layout_options_roundtrip_witness :
  exists d', computes (store_layout_options 0x5A) blank tt d' /\ computes via_get_layout_options d' 0x5A d'.
Proof.
  destruct (layout_options_roundtrip 0x5A blank blank_content) as (d' & E & E' & _); [vm_compute; split; [discriminate|done]|].
  exists d'. split; [exact E|exact E'].
Defined.

Definition sample_via_device : via_device :=
  {| vd_medium := (blank : @medium array_driver); vd_calls := []; vd_matrix := [0; 0]; vd_clock := 0 |}.

Lemma via_keycode_roundtrip_witness :
  exists v', (raw_hid_receive [0x05; 1; 0; 2; 0; KC_A];; raw_hid_receive [0x04; 1; 0; 2; 7; 7]) sample_via_device = (true, v') /\
    vd_calls v' = [RawHidSend [0x05; 1; 0; 2; 0; KC_A]; RawHidSend [0x04; 1; 0; 2; 0; KC_A]].
Proof.
  apply (via_keycode_roundtrip 1 0 2 KC_A 7 7 [] [] sample_via_device); [exact blank_content|cbn; lia|by vm_compute|done|done].
Defined.

(** ** The configuration

    Without VIA, with a driver that can be erased. *)

#[local] Instance no_data : EeconfigSizes := {|
  EECONFIG_KB_DATA_SIZE := 0; EECONFIG_KB_DATA_VERSION := 0; EECONFIG_USER_DATA_SIZE := 4; EECONFIG_USER_DATA_VERSION := 4;
|}.
#[local] Instance sample_eeconfig : EeconfigBuild := {|
  EEPROM_DRIVER_erase := Some (modify (fun d : @medium array_driver => replicate (length d) 0));
  VIA_ENABLE := false;
  eeconfig_init_kb := default_eeconfig_init_kb default_eeconfig_init_user;
  bootmagic := skip;
|}.

Lemma sample_sizes : EECONFIG_SIZE <= 256 /\ 0 <= EECONFIG_KB_DATA_SIZE /\ 0 <= EECONFIG_USER_DATA_SIZE.
Proof. by vm_compute. Defined.
Lemma sample_erase d : exists d', computes erase_driver d tt d'.
Proof.
  exists (replicate 256 0). intros s [Hlen Hb] <-. exists (replicate (length s) 0). split; [done|].
  assert (length s = 256%nat) as -> by lia. split; [|done]. split; [done|]. by apply Forall_replicate.
Defined.

(** An EEPROM as it is delivered. *)
Lemma first_start_sets_defaults_witness :
  exists v' k', quantum_init (sample_via_device, sample_keyboard false) = (tt, (v', k')) /\
    int_at 2 (vd_medium v') EECONFIG_KEYMAP = 0x1400 /\ oneshot_enable (keymap_config k') = true /\
    default_layer_state (layers k') = 1.
Proof.
  destruct sample_sizes as (Hsize & Hdata).
  assert (eeprom_usable (vd_medium sample_via_device)) as Hu by exact blank_content.
  destruct (first_start_sets_defaults Hsize Hdata ltac:(by vm_compute) eq_refl sample_erase eq_refl eq_refl
    sample_via_device (sample_keyboard false) Hu ltac:(by vm_compute)) as (v' & k' & E & _ & Hall & _ & Hc & Hl & _).
  exists v', k'. split; [exact E|]. split; [|split; [by rewrite Hc|by rewrite Hl]].
  unfold all_fields in Hall. cbn [app default_fields] in Hall. rewrite !Forall_cons in Hall. by destruct Hall as (_ & _ & _ & ? & _).
Defined.

(** The configuration of [first_start_sets_defaults], and A held. *)
Definition configured : list Z := vd_medium (exec quantum_init (sample_via_device, sample_keyboard false)).1.
Definition a_held : keyboard :=
  exec (register_code KC_A) (exec quantum_init (sample_via_device, sample_keyboard false)).2.

Lemma magic_survives_restart_witness :
  key_pressed KC_A a_held = true /\
  exists s' k', process_magic QK_MAGIC_TOGGLE_NKRO (sample_record 0 0 1000 true) (configured, a_held) = (false, (s', k')) /\
    int_at 2 s' EECONFIG_KEYMAP = 0x1480 /\ nkro (keymap_config k') = true /\
    none_pressed false (rep k') /\ none_pressed true (rep k').
Proof.
  split; [by vm_compute|]. destruct sample_sizes as (Hsize & Hdata).
  assert ((QK_MAGIC_TOGGLE_NKRO, Flip 7 (bit 7)) ∈ magic_switches) as Hsw by (by apply (list_elem_of_lookup_2 _ 19%nat)).
  assert (eeprom_usable (configured : @medium array_driver)) as Hu by (split; vm_compute; [done|by repeat constructor]).
  destruct (@magic_survives_restart sample_config sample_hooks array_driver sample_dynamic_keymap sample_via no_data sample_eeconfig 256 array_ok Hsize Hdata QK_MAGIC_TOGGLE_NKRO _ (sample_record 0 0 1000 true) configured a_held Hsw eq_refl Hu)
    as (s' & k' & E & _ & Hc & Hw & _ & _ & Hnone).
  destruct (Hnone ltac:(by vm_compute)) as [H1 H2].
  assert (nkro_active k' = true) as Hn.
  { pose proof (f_equal (fun x => x.2.2) E) as Ek. cbn [snd] in Ek. rewrite <-Ek. by vm_compute. }
  exists s', k'. split; [exact E|]. split; [etrans; [exact Hw|by vm_compute]|]. split; [rewrite Hc; by vm_compute|].
  split; [exact H1|]. rewrite Hn in H2. exact H2.
Defined.

(** When the mode in use is not the saved one, which a console command may
    bring about, any magic keycode goes back to the saved mode and leaves the
    keys of the other report as they are. *)
Lemma unsaved_mode_leaves_keys_down :
  let k := exec (register_code KC_A) ((sample_keyboard true) <| keymap_config := sample_keymap_config true false |>) in
  let k' := (exec (process_magic QK_MAGIC_GUI_OFF (sample_record 0 0 1000 true)) (configured, k)).2 in
  is_key_pressed true KC_A (rep k) = true /\ nkro_active k' = false /\ is_key_pressed true KC_A (rep k') = true.
Proof. vm_compute. by split_and!. Qed.

(** The number that marks the EEPROM as configured is written first: when the
    power fails after it, the next start takes what is there, one-shot keys
    off, for the configuration. *)
Section interrupted.
#[local] Existing Instance history_driver.
#[local] Instance history_eeconfig : EeconfigBuild := {|
  EEPROM_DRIVER_erase := Some (modify (fun h : @medium history_driver => replicate 256 0 :: h));
  VIA_ENABLE := false;
  eeconfig_init_kb := default_eeconfig_init_kb default_eeconfig_init_user;
  bootmagic := skip;
|}.
Definition taken_but_incomplete (c : list Z) : bool :=
  eval eeconfig_is_enabled ([c] : @medium history_driver) && negb (oneshot_enable (config_of_raw (int_at 2 c EECONFIG_KEYMAP))).

Lemma interrupted_start_is_taken :
  let h := vd_medium (exec quantum_init (fresh_device, sample_keyboard false)).1 in
  existsb taken_but_incomplete h = true /\ forallb (fun c => negb (taken_but_incomplete c)) (firstn 1 h) = true.
Proof. by vm_compute. Qed.
End interrupted.
