(* ===== verification/UnicodeSample.v ===== *)
(** * Unicode on the board of [Sample]: the witnesses

    Linux first, then WinCompose; the input mode in byte 10 of the EEPROM of
    [EepromSample]. *)

From S2P Require Import Prelude.
From S2P Require Import Keycodes.
From S2P Require Import Report.
From S2P Require Import State.
From S2P Require Import ActionUtil.
From S2P Require Import Action.
From S2P Require Import ActionUtilSpec.
From S2P Require Import TypingSpec.
From S2P Require Import Closure.
From S2P Require Import Invariant.
From S2P Require Import Sample.
From S2P Require Import Eeprom.
From S2P Require Import SendString.
From S2P Require Import EepromSample.
From S2P Require Import Feature.
From S2P Require Import Quantum.
From S2P Require Import Unicode.
From S2P Require Import UnicodeSpec.
From S2P Require Import Ucis.

#[local] Existing Instance sample_config.
#[local] Existing Instance sample_hooks.
#[local] Existing Instance us_tables.
#[local] Existing Instance array_driver.
#[local] Existing Instance array_ok.

(** ** Modified keycodes *)

(** [S(KC_A)]: the host sees shift and the key, then nothing. *)
Lemma code16_reaches_host_witness :
  let k := sample_keyboard true in
  let code := LSFT KC_A in
  let m := extract_mod_bits code in
  let k1 := exec (register_code16 code) k in
  let k2 := exec (unregister_code16 code) k1 in
  (shown k1 = (Z.lor (real_mods (mods k)) (Z.lor (weak_mods (mods k)) m), report_keys k1) /\
   shown k2 = (Z.lor (real_mods (mods k)) (clear_bits (weak_mods (mods k)) m), report_keys k2) /\
   forall key, reportable (nkro_active k) key ->
     key_pressed key k1 = bool_decide (key = u8 code) || key_pressed key k /\
     key_pressed key k2 = key_pressed key k) /\
  m = 2.
Proof.
  intros k code m k1 k2. split; [|reflexivity].
  assert (plain (u8 code)) as Hp by (split; [reflexivity|by intros [? _]]).
  assert (synced k) as Hs by (split_and!; vm_compute; reflexivity).
  assert (reports_ok (rep k)) as Hr by (apply (sample_keyboard_ok true)).
  assert (has_room (nkro_active k) (rep k) (u8 code)) as Hroom by (intros E; discriminate E).
  exact (code16_reaches_host eq_refl eq_refl code k eq_refl Hp eq_refl Hs Hr Hroom eq_refl eq_refl ltac:(by vm_compute)).
Defined.

(** ** Unicode *)

#[local] Instance sample_unicode_config : UnicodeConfig := {|
  UNICODE_KEY_MAC := KC_LEFT_ALT;
  UNICODE_KEY_LNX := LCTL (LSFT KC_U);
  UNICODE_KEY_WINC := KC_RIGHT_ALT;
  UNICODE_SELECTED_MODES := [UNICODE_MODE_LINUX; UNICODE_MODE_WINCOMPOSE];
  UNICODE_CYCLE_PERSIST := true;
  UNICODE_TYPE_DELAY := 10;
  EECONFIG_UNICODEMODE := 10;
  unicode_input_mode_set_kb _ := skip;
|}.

Definition sample_unicode (mode : Z) : unicode := {|
  input_mode := mode; unicode_saved_mods := 0; unicode_saved_led_state := 0; selected_index := 0;
  unicode_eeprom := (blank : @medium array_driver);
|}.

Definition typed (k : keyboard) : list (Z * list Z) :=
  omap (fun o => match o with SendKeyboard r => Some (kb_mods r, filter (fun b => b <> 0) (keys r)) | _ => None end)
    (sent (host k)).

(** U+C9 in Linux: Ctrl+Shift+U, its four digits, a space. *)
Example sample_types_unicode :
  omap (fun p : Z * list Z => hd_error (snd p))
    (typed (exec (register_unicode 0xC9) (sample_unicode UNICODE_MODE_LINUX, sample_keyboard false)).2) =
  [KC_U; KC_0; KC_0; KC_C; KC_9; KC_SPACE].
Proof. by vm_compute. Qed.

Lemma register_hex32_types_witness :
  exists ds, register_hex32 0xABCD (sample_unicode UNICODE_MODE_WINCOMPOSE, sample_keyboard false) =
      send_digits (leading_zero true ds ++ ds) (sample_unicode UNICODE_MODE_WINCOMPOSE, sample_keyboard false) /\
    value ds = 0xABCD /\ (4 <= length ds <= 8)%nat.
Proof.
  destruct (register_hex32_types 0xABCD (sample_unicode UNICODE_MODE_WINCOMPOSE) (sample_keyboard false))
    as (ds & E & Hv & _ & Hl & _); [lia|].
  exists ds. split; [exact E|]. split; [exact Hv|exact Hl].
Defined.

(** A string in memory: an e with an acute accent, a face, the end. *)
Definition sample_text : list Z := [0xE9; 0x1F600].
Definition sample_memory (a : Z) : Z :=
  default 0xFF ((concat (encode_utf8 <$> sample_text) ++ [0]) !! Z.to_nat (a - 100)).

Lemma send_unicode_string_types_witness :
  let s := (sample_unicode UNICODE_MODE_LINUX, sample_keyboard false) in
  send_unicode_string 2 sample_memory (Some 100) s = (true, exec (register_all sample_text) s).
Proof.
  intros s. apply (send_unicode_string_types sample_text).
  - repeat constructor; lia.
  - intros i b Hb. unfold sample_memory. replace (Z.to_nat (100 + Z.of_nat i - 100)) with i by lia. by rewrite Hb.
  - cbn. lia.
Defined.

(** A lone lead byte: the byte behind the terminator is read. *)
Definition cut_memory (a : Z) : Z := default 0xFF ([0xC3; 0; 0x41; 0] !! Z.to_nat (a - 100)).
Lemma truncated_utf8_reads_on_witness :
  let s := (sample_unicode UNICODE_MODE_LINUX, sample_keyboard false) in
  send_unicode_string 3 cut_memory (Some 100) s =
    (register_unicode (Z.shiftl (cut_memory 100 - 0xC0) 6);; send_unicode_string 2 cut_memory (Some (100 + 2))) s /\
  cut_memory (100 + 2) = 0x41.
Proof.
  intros s. split; [|reflexivity]. apply (truncated_utf8_reads_on cut_memory 100 2 s); [by vm_compute|reflexivity].
Defined.

Lemma mode_survives_restart_witness :
  let s := exec (set_unicode_input_mode UNICODE_MODE_WINCOMPOSE) (sample_unicode 0, sample_keyboard false) in
  input_mode s.1 = UNICODE_MODE_WINCOMPOSE /\
  input_mode (exec unicode_input_mode_init (restart s.1, sample_keyboard false)).1 = UNICODE_MODE_WINCOMPOSE.
Proof.
  assert (in_eeprom (size := 256) EECONFIG_UNICODEMODE) as Hin by by vm_compute.
  assert (eeprom_usable (unicode_eeprom (sample_unicode 0))) as Hu by (split; [reflexivity|by apply Forall_replicate]).
  assert (is_selected UNICODE_MODE_WINCOMPOSE) as Hsel by (right; right; left).
  exact (mode_survives_restart Hin UNICODE_MODE_WINCOMPOSE (sample_unicode 0) (sample_keyboard false)
    (sample_keyboard false) Hu ltac:(by vm_compute) Hsel (or_intror eq_refl)).
Defined.

Lemma mode_cycle_witness :
  let u := sample_unicode UNICODE_MODE_LINUX in
  let s := exec unicode_input_mode_step (u, sample_keyboard false) in
  let s' := exec unicode_input_mode_step_reverse s in
  (selected_index s.1 = (selected_index u + 1) mod selected_count /\ input_mode s.1 = selected (selected_index s.1) /\
   selected_index s'.1 = selected_index u /\ input_mode s'.1 = selected (selected_index u)) /\
  input_mode s.1 = UNICODE_MODE_WINCOMPOSE.
Proof.
  intros u s s'. split; [|by vm_compute]. apply (mode_cycle u (sample_keyboard false)). by vm_compute.
Defined.

(** ** Mnemonics *)

#[local] Instance sample_ucis_config : UcisConfig := {|
  unicode_map i := 0x2600 + i;
  UCIS_MAX_INPUT_LENGTH := 8;
  ucis_symbol_table :=
    [{| mnemonic := [113; 109; 107]; code_points := [0x3A8; 0; 0] |};
     {| mnemonic := [113; 120]; code_points := [0x263A; 0; 0] |}];
|}.

Definition started (u : ucis) : ucis := u <| count := 0 |> <| active := true |>.
Definition sample_rest : unicode * keyboard := (sample_unicode UNICODE_MODE_LINUX, sample_keyboard false).

(** After a start, [q], [x] and Enter find the second symbol. *)
Lemma ucis_types_symbol_witness :
  let ks := [KC_Q; KC_X] in
  exists u', (type_keys ks;; process_ucis KC_ENTER press_of) (started ucis_at_start, sample_rest) =
    (false, (u', exec (replace_by 2 (symbol_for (chars ks))) sample_rest)) /\ active u' = false /\
    symbol_for (chars ks) = Some 1%nat.
Proof.
  intros ks. assert (0 <= UCIS_MAX_INPUT_LENGTH <= 255) as Hlen by by vm_compute.
  destruct (ucis_types_symbol Hlen ks [0; 0] (replicate 5 0) (started ucis_at_start) sample_rest) as (u' & E & Ha);
    [by repeat constructor|reflexivity|by split_and!|].
  exists u'. split; [exact E|]. split; [exact Ha|reflexivity].
Defined.

(** After an input of three letters was cancelled, the same is not found. *)
Lemma ucis_leftover_hides_witness :
  let ks := [KC_Q; KC_M; KC_K] in
  let u := started (exec (type_keys [KC_A; KC_B; KC_C; KC_D];; process_ucis KC_ESCAPE press_of)
    (started ucis_at_start, sample_rest)).1 in
  exists u', (type_keys ks;; process_ucis KC_ENTER press_of) (u, sample_rest) = (false, (u', sample_rest)) /\
    active u' = false.
Proof.
  intros ks u. assert (0 <= UCIS_MAX_INPUT_LENGTH <= 255) as Hlen by by vm_compute.
  apply (ucis_leftover_hides Hlen ks [97; 98; 99] 100 (replicate 4 0) u sample_rest);
    [by repeat constructor|reflexivity|done|vm_compute; by split_and!|].
  repeat constructor; cbn; lia.
Defined.

Lemma unicodemap_index_is_a_byte_witness :
  eval (unicodemap_index (Z.lor QK_UNICODEMAP 300)) (sample_keyboard false) = 300 mod 256 /\ 300 mod 256 <> 300.
Proof. apply (unicodemap_index_is_a_byte 300). lia. Defined.
