(* ===== verification/FeatureSample.v ===== *)
(** * The features at the concrete build

    Configurations and callbacks for the features, on the board of [Sample],
    and their theorems applied to it. *)

From S2P Require Import Prelude.
From S2P Require Import Keycodes.
From S2P Require Import Report.
From S2P Require Import State.
From S2P Require Import ActionUtil.
From S2P Require Import ActionLayer.
From S2P Require Import Action.
From S2P Require Import Tapping.
From S2P Require Import ActionUtilSpec.
From S2P Require Import TypingSpec.
From S2P Require Import Closure.
From S2P Require Import Sample.
From S2P Require Import Feature.
From S2P Require Import LayerLock.
From S2P Require Import CapsWord.
From S2P Require Import MacroRecorder.
From S2P Require Import MacroPlay.
From S2P Require Import Encoder.
From S2P Require Import GraveEscape.
From S2P Require Import TriLayer.

#[local] Existing Instance sample_config.
#[local] Existing Instance sample_hooks.

(** ** Layer lock *)

Definition sample_layer_lock : LayerLockConfig := {|
  LAYER_LOCK_IDLE_TIMEOUT := 60000;
  layer_lock_set_kb _ := mret true;
  layer_lock_set_user _ := mret true;
|}.
#[local] Existing Instance sample_layer_lock.

#[local] Instance sample_layer_lock_ok : LayerLockOk.
Proof. by split. Defined.

(** Layer 1 is held and the lock key pressed; then the layer key goes up. *)
Lemma process_layer_lock_spec_witness :
  let k := exec (ActionLayer.layer_on 1) (sample_keyboard true) in
  let s := (layer_lock_init, k) in
  let r := sample_record 0 0 1000 true in
  let up := sample_record 0 0 1000 false in
  let s' := exec (process_layer_lock 5 QK_LAYER_LOCK r) s in
  lock_ok s /\ eval (process_layer_lock 5 QK_LAYER_LOCK r) s = negb (handled QK_LAYER_LOCK r s) /\
  turns (turned QK_LAYER_LOCK r s) s s' /\
  turned QK_LAYER_LOCK r s = Some 1 /\
  eval (process_layer_lock 5 (MO 1) up) s' = false /\
  mask (exec (process_layer_lock 5 (MO 1) up) s') = 2.
Proof.
  intros k s r up s'.
  assert (lock_ok s) as Hs by (split; split; vm_compute; done).
  destruct (process_layer_lock_spec 5 QK_LAYER_LOCK r s Hs) as [E Ht].
  split; [exact Hs|]. split; [exact E|]. split; [exact Ht|]. vm_compute. by split_and!.
Defined.

(** ** Caps Word *)

Definition sample_caps_word : CapsWordConfig := {|
  CAPS_WORD_IDLE_TIMEOUT := 5000;
  CAPS_WORD_INVERT_ON_SHIFT := false;
  BOTH_SHIFTS_TURNS_ON_CAPS_WORD := true;
  DOUBLE_TAP_SHIFT_TURNS_ON_CAPS_WORD := true;
  IS_COMMAND _ := false;
  caps_word_set_user _ := mret tt;
  caps_word_press_user := caps_word_press_user_default;
|}.
#[local] Existing Instance sample_caps_word.

#[local] Instance sample_caps_word_plain : CapsWordPlain.
Proof. by split. Defined.

Lemma caps_word_types_witness :
  let k := sample_keyboard true in
  let s := exec caps_word_on (caps_word_init, k) in
  let r := sample_record 0 0 1000 true in
  let s' := exec (type_key KC_A r) s in
  let typed := fst (shown s'.2) in
  caps_word_active s.1 = true /\
  (key_pressed KC_A s'.2 = true /\ snd (shown s'.2) = report_keys s'.2 /\
   caps_word_active s'.1 = negb (other_mods s.2) && (shifted KC_A || unshifted KC_A) /\
   (negb (other_mods s.2) && shifted KC_A = true -> shift_of typed = true) /\
   (negb (other_mods s.2) && shifted KC_A = false ->
     real_mods (mods s.2) = 0 -> oneshot_mods (mods s.2) = 0 -> shift_of typed = false)) /\
  negb (other_mods s.2) && shifted KC_A = true.
Proof.
  intros k s r s' typed. split; [reflexivity|]. split; [|reflexivity].
  assert (synced s.2) as Hs by (split_and!; vm_compute; reflexivity).
  assert (reports_ok (rep s.2)) as Hr by (apply (sample_keyboard_ok true)).
  assert (RING_BUFFERED_6KRO_REPORT_ENABLE = false) as Hring by reflexivity.
  assert (KEY_OVERRIDE_ENABLE = false) as Hover by reflexivity.
  apply (caps_word_types Hring Hover KC_A r s); try done.
  split; [done|]. by intros [? ?].
Defined.

(** ** Recorded macros at the concrete build

    A recorder of eight slots on the board of [Sample]: the theorems applied,
    and a macro that is damaged by being played. *)

Definition sample_macros : MacroConfig := {|
  DYNAMIC_MACRO_SIZE := 8;
  DYNAMIC_MACRO_NO_NESTING := true;
  DYNAMIC_MACRO_DELAY := Some 5;
  dynamic_macro_record_start_user _ := skip;
  dynamic_macro_play_user _ := skip;
  dynamic_macro_record_key_user _ _ := skip;
  dynamic_macro_record_end_user _ := skip;
  dynamic_macro_valid_key_user _ _ := true;
|}.
#[local] Existing Instance sample_macros.

Lemma recorder_init_ok : recorder_ok recorder_init.
Proof. split; try (vm_compute; done); [by intros []|by left|by intros []]. Defined.

(** A key down and up, typed between the start and the stop; the stop key goes
    down too, and is trimmed. *)
Definition sample_typed (kc : Z) (r c : Z) (down : bool) : typed :=
  (kc, sample_record r c 1000 down, sample_keyboard false).
Definition sample_start : typed := sample_typed QK_DYNAMIC_MACRO_RECORD_START_1 0 3 false.
Definition sample_stop : typed := sample_typed QK_DYNAMIC_MACRO_RECORD_STOP 0 3 true.
Definition sample_text : list typed :=
  [sample_typed KC_B 0 1 false; sample_typed KC_A 0 0 true; sample_typed KC_A 0 0 false; sample_typed KC_B 0 1 true].

Lemma sample_text_ordinary : Forall ordinary sample_text.
Proof. repeat (apply Forall_cons_2; [by split|]). apply Forall_nil_2. Defined.

Lemma macro_records_what_is_typed_witness :
  let s := recorder_init in
  let s' := step_recorder 2 (foldl (step_recorder 2) (step_recorder 2 s sample_start) sample_text) sample_stop in
  (recorder_ok s' /\ macro_id s' = 0 /\
   contents Macro1 s' = recorded (room Macro1 s) (valid_records sample_text) /\
   contents (other Macro1) s' = contents (other Macro1) s) /\
  contents Macro1 s' = [sample_record 0 0 1000 true; sample_record 0 0 1000 false].
Proof.
  intros s s'. split; [|reflexivity].
  apply (macro_records_what_is_typed 2 Macro1 s sample_start sample_stop sample_text);
    [exact recorder_init_ok|reflexivity|by split|exact sample_text_ordinary|by split].
Defined.

(** The recorder after that. *)
Definition sample_recorder : recorder :=
  step_recorder 2 (foldl (step_recorder 2) (step_recorder 2 recorder_init sample_start) sample_text) sample_stop.

Lemma sample_recorder_ok : recorder_ok sample_recorder.
Proof.
  apply (macro_records_what_is_typed 2 Macro1 recorder_init sample_start sample_stop sample_text);
    [exact recorder_init_ok|reflexivity|by split|exact sample_text_ordinary|by split].
Qed.

Lemma macro_plays_its_records_witness :
  let s := sample_recorder in
  let k := sample_keyboard false in
  let p := play_spec Macro1 (contents Macro1 s) k in
  length (contents Macro1 s) = 2%nat /\
  exists s', dynamic_macro_play (process_recorded 1) (base Macro1) (end_of Macro1 s) (dir Macro1) (s, k) = (true, (s', p.2)) /\
    recorder_ok s' /\ contents Macro1 s' = p.1 /\ contents (other Macro1) s' = contents (other Macro1) s.
Proof.
  intros s k p. split; [by vm_compute|].
  apply (macro_plays_its_records Macro1 0 s k sample_recorder_ok); by vm_compute.
Defined.

(** ** A macro damaged by being played *)

(** The key that swaps hands while held and types A when tapped, tapped. *)
Definition swap_tap (down : bool) : keyrecord_t :=
  (sample_record 1 3 1000 down) <| tap := {| interrupted := false; count := 1 |} |>.
Definition swap_recorder : recorder :=
  recorder_init <| macro_buffer := [swap_tap true; swap_tap false; record_0; record_0; record_0; record_0; record_0; record_0] |>
    <| macro_end := 2 |>.

(** The reports a playback sends, as the keys they show. *)
Definition reports_of (k : keyboard) : list (list Z) :=
  omap (fun o => match o with SendKeyboard r => Some (Report.keys r) | _ => None end) (sent (host k)).
Definition playback (s : recorder * keyboard) : recorder * keyboard :=
  (dynamic_macro_play (process_recorded 1) 0 (macro_end s.1) 1 s).2.

(** The release of a tapped swap-hands key clears its record, which during
    playback is the slot of the macro: the macro then has no release any more,
    and played again it releases the key only because the keyboard is cleared
    at the end. *)
Theorem playing_erases_swap_hands_release :
  let s1 := playback (swap_recorder, sample_keyboard false) in
  let s2 := playback s1 in
  contents Macro1 swap_recorder = [swap_tap true; swap_tap false] /\
  contents Macro1 s1.1 = [swap_tap true; record_0] /\
  key_pressed KC_A (exec (replay (contents Macro1 swap_recorder)) (sample_keyboard false)) = false /\
  key_pressed KC_A (exec (replay (contents Macro1 s1.1)) s1.2) = true.
Proof. by vm_compute. Qed.

(** ** An encoder *)

Definition sample_encoder_config : EncoderConfig := {|
  MAX_QUEUED_ENCODER_EVENTS := 4;
  ENCODER_MAP_KEY_DELAY := 2;
  SPLIT_KEYBOARD := false;
  ENCODER_DEFAULT_PIN_API_IMPL := true;
  NUM_ENCODERS_LEFT := 1;
  NUM_ENCODERS_RIGHT := 0;
  encoder_resolutions _ := 4;
  ENCODER_DEFAULT_POS := None;
  ENCODER_CLOCKWISE := true;
  encoder_update_user _ _ := mret true;
|}.
#[local] Existing Instance sample_encoder_config.

#[local] Instance sample_encoder_ok : EncoderOk.
Proof. split; [vm_compute; by split|done|by intros; vm_compute]. Defined.

Definition sample_encoder : encoder := exec (encoder_init true (fun _ _ => 0)) encoder_at_start.

Lemma sample_queue_ok : queue_ok (encoder_events sample_encoder).
Proof. split; vm_compute; by split_and?. Defined.

(** A queue of three: the fourth event is refused. *)
Lemma encoder_queue_is_fifo_witness :
  let os := [Enqueue 0 true; Enqueue 0 false; Dequeue; Enqueue 0 true; Enqueue 0 true; Enqueue 0 false; Drain; Dequeue] in
  let p := run_all run_queue_op os (encoder_events sample_encoder) in
  (queue_ok p.2 /\ (p.1, waiting p.2) = run_all fifo_op os (waiting (encoder_events sample_encoder))) /\
  p.1 = [Queued true; Queued true; Got (Some {| index := 0; clockwise := true |}); Queued true; Queued true;
         Queued false; Drained; Got None].
Proof.
  intros os p. split; [exact (encoder_queue_is_fifo os _ sample_queue_ok)|]. by vm_compute.
Defined.

(** The encoder bounces around a detent, then turns to the next one, clockwise:
    one event. *)
Definition sample_turn : list Z := [-1; 0; 1; 0; -1; -2; -1; -2; -3; -2; -3; -4; -3; -4].

Lemma encoder_reports_detents_witness :
  let s := sample_encoder in
  let r := detents (encoder_resolutions (event_index 0 s)) 0 sample_turn in
  let s' := exec (read_positions 0 sample_turn) s in
  (at_position 0 r.2 (default 0 (last sample_turn)) s' /\ other_encoders 0 s s' /\
   encoder_events s' = queue_all (event_index 0 s) r.1 (encoder_events s)) /\
  r = ([true], -4).
Proof.
  intros s r s'. split; [|reflexivity]. apply (encoder_reports_detents 0 0 0 sample_turn s).
  - split; vm_compute; try done. by eexists.
  - cbn. repeat split; lia.
Defined.

(** The task then types the keycode of the encoder map. *)
Lemma encoder_handle_queue_empties_witness :
  let s := exec (read_positions 0 sample_turn) sample_encoder in
  let k := sample_keyboard false in
  exists s', encoder_handle_queue (s, k)
      = (nz (used (encoder_events s)), (s', exec (handle_all (waiting (encoder_events s))) k)) /\
    (queue_ok (encoder_events s') /\ waiting (encoder_events s') = [] /\ same_driver s s') /\
    sent (host (exec (handle_all (waiting (encoder_events s))) k)) =
      [SendExtra 4 0xE9; WaitMs 2; SendExtra 4 0; WaitMs 2].
Proof.
  intros s k. assert (queue_ok (encoder_events s)) as Hq by (split; vm_compute; by split_and?).
  destruct (encoder_handle_queue_empties s k Hq) as (s' & E & Hok & Hw & Hsame).
  exact (ex_intro _ s' (conj E (conj (conj Hok (conj Hw Hsame)) eq_refl))).
Defined.

(** ** Keys with a meaning of their own *)

Definition down : keyrecord_t := sample_record 0 0 1000 true.
Definition up : keyrecord_t := sample_record 0 0 1100 false.

(** The keys of the last report. *)
Definition held (k : keyboard) : list Z := filter (fun b => b <> 0) (snd (shown k)).

(** ** Grave Escape *)

#[local] Instance sample_grave_esc : GraveEscConfig := {|
  GRAVE_ESC_ALT_OVERRIDE := false; GRAVE_ESC_CTRL_OVERRIDE := true;
  GRAVE_ESC_GUI_OVERRIDE := false; GRAVE_ESC_SHIFT_OVERRIDE := false;
|}.

(** Shift is down at the press and up at the release: Grave goes up. *)
Lemma grave_esc_releases_its_key_witness :
  let k := exec (add_mods 2) (sample_keyboard false) in
  let s := exec (process_grave_esc QK_GRAVE_ESCAPE down) (false, k) in
  let k' := exec (del_mods 2) s.2 in
  let s' := exec (process_grave_esc QK_GRAVE_ESCAPE up) (s.1, k') in
  snd (shown s.2) = report_keys s.2 /\ snd (shown s'.2) = report_keys s'.2 /\
  held s.2 = [KC_GRAVE] /\ held s'.2 = [].
Proof.
  intros k s k' s'.
  assert (synced k) as Hs by (split_and!; vm_compute; reflexivity).
  assert (reports_ok (rep k)) as Hr by (apply (sample_keyboard_ok false)).
  assert (forall b', has_room (nkro_active k) (rep k) (grave_key b')) as Hroom by (intros b' _; left; by left).
  assert (RING_BUFFERED_6KRO_REPORT_ENABLE = false) as Hring by reflexivity.
  assert (LOCKING_SUPPORT_ENABLE = false) as Hlock by reflexivity.
  destruct (grave_esc_releases_its_key Hring Hlock false k down Hs Hr eq_refl Hroom) as (Hshow & _ & Hrel).
  assert (synced k') as Hs' by (split_and!; vm_compute; reflexivity).
  assert (reports_ok (rep k')) as Hr' by (split; [split; [by vm_compute|]|split; [by vm_compute|]]; vm_compute; by repeat constructor).
  destruct (Hrel k' up Hs' Hr' eq_refl) as [Hshow' _].
  split; [exact Hshow|]. split; [exact Hshow'|]. split; by vm_compute.
Defined.

(** ** Tri layer *)

Lemma tri_layer_adjusts_witness :
  let t := {| tri_layer_lower_layer := 1; tri_layer_upper_layer := 2; tri_layer_adjust_layer := 3 |} in
  let k := exec (process_tri_layer QK_TRI_LAYER_LOWER down) (t, sample_keyboard false) in
  let s := exec (process_tri_layer QK_TRI_LAYER_UPPER down) (t, k.2) in
  s.1 = t /\ on_mask s.2 3 = on_mask s.2 1 && on_mask s.2 2 /\ layer_state (layers s.2) = 14.
Proof.
  intros t k s.
  assert (forall z, layer_state_set_kb z = z) as Hacc by reflexivity.
  destruct (tri_layer_adjusts Hacc QK_TRI_LAYER_UPPER down t k.2 2) as (E & _ & Ha & _);
    [by vm_compute..|right; by split|].
  split; [exact E|]. split; [exact Ha|by vm_compute].
Defined.

(** ** Tap dance *)

From S2P Require Import TapDance.

#[local] Instance sample_tap_dance : TapDanceConfig := {| tap_dance_fn _ := ACTION_TAP_DANCE_DOUBLE KC_A KC_B |}.

#[local] Instance sample_tap_dance_plain : TapDancePlain.
Proof.
  split; intros i st k.
  - unfold call, tap_dance_fn, sample_tap_dance, on_each_tap, ACTION_TAP_DANCE_DOUBLE, tap_dance_pair_on_each_tap, exec.
    rewrite run_own. cbn [gets fst snd]. destruct (TapDance.count st =? 2); cbn [when].
    + exists true. by rewrite orb_true_r.
    + exists false. rewrite orb_false_r. by destruct st.
  - exists false. rewrite orb_false_r. by destruct st.
  - exists false. rewrite orb_false_r. unfold call, tap_dance_fn, sample_tap_dance, on_reset, ACTION_TAP_DANCE_DOUBLE,
      tap_dance_pair_reset, exec. rewrite run_own. cbn [gets fst snd]. destruct (TapDance.count st =? 1); [by destruct st|].
    destruct (TapDance.count st =? 2); by destruct st.
  - exists false. rewrite orb_false_r. by destruct st.
Defined.

Definition td_tap : list step_of := [Key QK_TAP_DANCE QK_TAP_DANCE down; Key QK_TAP_DANCE QK_TAP_DANCE up].
Definition wait_for (ms : Z) : step_of := Elsewhere (fun k => k <| now := u16 (now k + ms) |>).

(** One tap, then the term; and two taps. *)
Lemma no_dance_left_witness :
  let os := td_tap ++ [wait_for 150; Task; wait_for 100] in
  let s := exec (run_steps os) (tap_dance_at_start 2, sample_keyboard false) in
  let d := (exec tap_dance_task s).1 in
  (states d = replicate 2 tap_dance_state_0 /\ active_td d = 0) /\
  held s.2 = [] /\
  omap (fun o => match o with SendKeyboard r => Some (filter (fun b => b <> 0) (keys r)) | _ => None end)
    (sent (host (exec tap_dance_task s).2)) = [[KC_A]; []] /\
  omap (fun o => match o with SendKeyboard r => Some (filter (fun b => b <> 0) (keys r)) | _ => None end)
    (sent (host (exec (run_steps (td_tap ++ td_tap)) (tap_dance_at_start 2, sample_keyboard false)).2)) = [[KC_B]; []].
Proof.
  intros os s d. split; [|by vm_compute].
  assert (2 <= 256)%nat as Hn by lia.
  assert (Forall (step_known (Z.of_nat 2)) os) as Hos by (repeat constructor; vm_compute; done).
  assert (Forall (fun st => TapDance.pressed st = false) (states s.1)) as Hup by (vm_compute; by repeat constructor).
  assert (get_tapping_term (active_td s.1) record_0 < TIMER_DIFF_16 (now s.2) (last_tap_time s.1)) as Ht by by vm_compute.
  exact (no_dance_left os 2 (sample_keyboard false) Hn Hos Hup (or_intror Ht)).
Defined.

(** ** Secure *)

From S2P Require Import Secure.

Definition sample_secure : SecureConfig := {|
  SECURE_UNLOCK_TIMEOUT := 5000; SECURE_IDLE_TIMEOUT := 60000;
  SECURE_UNLOCK_SEQUENCE := [(0, 1); (1, 0); (1, 1)]; SECURE_DISABLE_KEYCODES := false;
  secure_hook_kb _ := mret true;
|}.
#[local] Existing Instance sample_secure.

(** The second key of the three is wrong. *)
Lemma secure_unlocks_on_sequence_witness :
  let ks := [(0, 1); (1, 1)] in
  let s' := (exec (secure_trace ((100, Request) :: presses 200 ks)) (secure_at_start, sample_keyboard false)).1 in
  secure_status s' = SECURE_LOCKED.
Proof.
  assert (1 <= Z.of_nat (length SECURE_UNLOCK_SEQUENCE) < 256) as Hl by (cbn; lia).
  exact (proj1 (secure_unlocks_on_sequence Hl 200 100 [(0, 1); (1, 1)] secure_at_start (sample_keyboard false)
    eq_refl eq_refl ltac:(cbn; lia))).
Defined.

Lemma secure_sequence_in_two_requests_witness :
  let s1 := (exec (secure_trace ((100, Request) :: presses 200 [(0, 1); (1, 0)] ++ [(5200, Task)]))
    (secure_at_start, sample_keyboard false)).1 in
  let s2 := (exec (secure_trace ((90000, Request) :: presses 90001 [(1, 1)])) (s1, sample_keyboard false)).1 in
  secure_status s1 = SECURE_LOCKED /\ secure_status s2 = SECURE_UNLOCKED.
Proof.
  assert (1 <= Z.of_nat (length SECURE_UNLOCK_SEQUENCE) < 256) as Hl by (cbn; lia).
  exact (secure_sequence_in_two_requests Hl [(0, 1); (1, 0)] [(1, 1)] 100 200 5200 90000 90001 secure_at_start
    (sample_keyboard false) eq_refl ltac:(done) ltac:(done) eq_refl eq_refl ltac:(by vm_compute)).
Defined.

(** ** The leader key *)

From S2P Require Import Leader.

(** The keymap types the second key of the sequence. *)
Definition sample_leader : LeaderConfig := {|
  LEADER_TIMEOUT := 300; LEADER_NO_TIMEOUT := false; LEADER_KEY_STRICT_KEY_PROCESSING := false;
  LEADER_PER_KEY_TIMING := true;
  leader_start_user := skip;
  leader_end_user sequence := tap_code (nth 1 sequence 0);
|}.
#[local] Existing Instance sample_leader.

Lemma leader_collects_sequence_witness :
  let ks := [(1100, KC_A, down); (1350, KC_A + 1, down)] in
  let k := sample_keyboard false in
  let m := (process_leader QK_LEADER down;; kept ← type_keys ks; wait_until 1700;; leader_task;; mret kept) in
  exists l', leader_sequence l' = [KC_A; KC_A + 1; 0; 0; 0] /\
    m (leader_at_start, k) = (true, (l', exec (tap_code (KC_A + 1)) (k <| now := 1700 |>))).
Proof.
  cbv zeta. set (ks := [(1100, KC_A, down); (1350, KC_A + 1, down)]).
  assert (in_time (now (exec leader_start_user (sample_keyboard false))) 0 ks) as Hin.
  { split; [done|]. split; [right; by vm_compute|]. split; [done|]. split; [right; by vm_compute|done]. }
  destruct (leader_collects_sequence ks 1700 leader_at_start (sample_keyboard false) down eq_refl eq_refl
    ltac:(cbn; lia) Hin ltac:(by vm_compute) ltac:(done)) as (l' & _ & Hs & E).
  exists l'. split; [exact Hs|]. rewrite E, Hs. reflexivity.
Defined.

(** ** Space Cadet *)

From S2P Require Import SpaceCadet.

#[local] Existing Instance default_space_cadet.

(** Left Shift is held while the Control key is tapped: the tap takes it away. *)
Lemma space_cadet_taps_or_holds_witness :
  let kc := QK_SPACE_CADET_LEFT_CTRL_PARENTHESIS_OPEN in
  let k := exec (add_mods 2) (sample_keyboard false) in
  let s1 := exec (process_space_cadet kc down) (space_cadet_at_start, k) in
  let s2 := exec (process_space_cadet kc up) (s1.1, s1.2) in
  real_mods (mods s1.2) = 3 /\ real_mods (mods s2.2) = 0.
Proof.
  cbv zeta.
  pose proof (space_cadet_taps_or_holds QK_SPACE_CADET_LEFT_CTRL_PARENTHESIS_OPEN LCPO_KEYS down up
    space_cadet_at_start (exec (add_mods 2) (sample_keyboard false))
    (exec (process_space_cadet QK_SPACE_CADET_LEFT_CTRL_PARENTHESIS_OPEN down)
      (space_cadet_at_start, exec (add_mods 2) (sample_keyboard false))).1
    (exec (process_space_cadet QK_SPACE_CADET_LEFT_CTRL_PARENTHESIS_OPEN down)
      (space_cadet_at_start, exec (add_mods 2) (sample_keyboard false))).2
    eq_refl ltac:(by split_and!) eq_refl eq_refl eq_refl) as (H1 & _ & H2).
  split; [vm_compute; reflexivity|]. vm_compute. reflexivity.
Defined.

(** ** The repeat key

    A build with keycodes in the records, and the repeat key in the second row. *)

From S2P Require Import RepeatKey.
From S2P Require Import KeyOverride.

Definition keycode_build (combo override : bool) : Config := {|
  NKRO_ENABLE := true; RING_BUFFERED_6KRO_REPORT_ENABLE := false; KEYBOARD_SHARED_EP := false;
  EXTRAKEY_ENABLE := true; MOUSEKEY_ENABLE := true; POINTING_DEVICE_ENABLE := false;
  PS2_MOUSE_ENABLE := false; PROGRAMMABLE_BUTTON_ENABLE := false; SWAP_HANDS_ENABLE := true;
  ENCODER_MAP_ENABLE := true; DIP_SWITCH_MAP_ENABLE := false; KEY_OVERRIDE_ENABLE := override;
  LOCKING_SUPPORT_ENABLE := false; LOCKING_RESYNC_ENABLE := false; STRICT_LAYER_RELEASE := false;
  SEMI_STRICT_LAYER_RELEASE := false; KEYCODE_IN_RECORD := true; COMBO_ENABLE := combo;
  LEGACY_MAGIC_HANDLING := false; RETRO_TAPPING := false; RETRO_TAPPING_PER_KEY := false;
  HOLD_ON_OTHER_KEY_PRESS := false; HOLD_ON_OTHER_KEY_PRESS_PER_KEY := false;
  PERMISSIVE_HOLD := true; PERMISSIVE_HOLD_PER_KEY := false; CHORDAL_HOLD := false;
  DUMMY_MOD_NEUTRALIZER_KEYCODE := None; MODS_TO_NEUTRALIZE := [];
  ONESHOT_TIMEOUT := 3000; ONESHOT_TAP_TOGGLE := 5; TAPPING_TOGGLE := 5; TAP_CODE_DELAY := 0;
  TAP_HOLD_CAPS_DELAY := 80; MATRIX_ROWS := 2; MATRIX_COLS := 4; NUM_ENCODERS := 1;
  NUM_DIP_SWITCHES := 0; INT_BITS := 16; LAYER_STATE_BITS := 16; MAX_LAYER_BITS := 4; MAX_LAYER := 4;
|}.

Definition repeating_config : Config := keycode_build false false.

Definition repeating_hooks : Hooks := {|
  keycode_at_keymap_location layer r c :=
    if (layer =? 0) && (r =? 1) && (c =? 2) then QK_REPEAT_KEY else sample_keymap layer r c;
  keycode_at_encodermap_location _ _ cw := if cw then KC_AUDIO_VOL_UP else KC_AUDIO_VOL_DOWN;
  keycode_at_dip_switch_map_location _ _ := KC_NO;
  hand_swap_config r c := {| row := r; col := 3 - c |};
  encoder_hand_swap_config e := e;
  layer_state_set_kb s := s;
  default_layer_state_set_kb s := s;
  command_proc _ := false;
  get_tapping_term _ _ := 200;
  get_quick_tap_term _ _ := 200;
  get_permissive_hold _ _ := true;
  get_hold_on_other_key_press _ _ := false;
  get_retro_tapping _ _ := false;
  get_chordal_hold _ _ _ _ := true;
  pre_process_record_quantum r := mret (true, r);
  process_record_quantum r := mret (true, r);
  post_process_record_quantum r := mret r;
|}.

Definition repeating_user : RepeatConfig := {|
  NO_ALT_REPEAT_KEY := false; TRI_LAYER_ENABLE := false;
  remember_last_key_user _ _ m := (true, m);
  get_alt_repeat_key_keycode_user _ _ := KC_TRANSPARENT;
|}.
#[local] Existing Instance repeating_config.
#[local] Existing Instance repeating_hooks.
#[local] Existing Instance repeating_user.

(** *** A macro that plays a macro

    Macro 2 types A, macro 1 plays macro 2; then macro 1 is played. *)

#[local] Instance nesting_macros : MacroConfig := {|
  DYNAMIC_MACRO_SIZE := 8; DYNAMIC_MACRO_NO_NESTING := false; DYNAMIC_MACRO_DELAY := None;
  dynamic_macro_record_start_user _ := skip; dynamic_macro_play_user _ := skip;
  dynamic_macro_record_key_user _ _ := skip; dynamic_macro_record_end_user _ := skip;
  dynamic_macro_valid_key_user _ _ := true;
|}.

Definition coded (kc : Z) (down : bool) : keyrecord_t := (sample_record 0 0 1000 down) <| keycode := kc |>.
Definition nested_session : list keyrecord_t :=
  [coded QK_DYNAMIC_MACRO_RECORD_START_2 false; coded KC_A true; coded KC_A false;
   coded QK_DYNAMIC_MACRO_RECORD_STOP true;
   coded QK_DYNAMIC_MACRO_RECORD_START_1 false; coded QK_DYNAMIC_MACRO_PLAY_2 true;
   coded QK_DYNAMIC_MACRO_PLAY_2 false; coded QK_DYNAMIC_MACRO_RECORD_STOP true;
   coded QK_DYNAMIC_MACRO_PLAY_1 false].

Lemma recorder_invariant_witness :
  let x := foldl (fun x r => (process_record_recording 3 r x).2) (recorder_init, sample_keyboard false) nested_session in
  recorder_ok x.1 /\
  contents Macro1 x.1 = [coded QK_DYNAMIC_MACRO_PLAY_2 true; coded QK_DYNAMIC_MACRO_PLAY_2 false] /\
  contents Macro2 x.1 = [coded KC_A true; coded KC_A false] /\
  reports_of x.2 = [[KC_A; 0; 0; 0; 0; 0]; [0; 0; 0; 0; 0; 0]; [KC_A; 0; 0; 0; 0; 0]; [0; 0; 0; 0; 0; 0]].
Proof.
  intros x. assert (recorder_ok recorder_init) as Hok.
  { split; try (vm_compute; done); [by intros []|by left|by intros []]. }
  destruct (recorder_invariant 3 nested_session recorder_init (sample_keyboard false) Hok) as [Hx _].
  split; [exact Hx|]. by vm_compute.
Defined.

(** A macro that plays itself is not played to its end, however often it is
    let into itself (here a thousand times); the macros stay in place. *)
Example macro_plays_itself :
  let session := [coded QK_DYNAMIC_MACRO_RECORD_START_1 false; coded QK_DYNAMIC_MACRO_PLAY_1 true;
                  coded QK_DYNAMIC_MACRO_PLAY_1 false; coded QK_DYNAMIC_MACRO_RECORD_STOP true] in
  let x := foldl (fun x r => (process_record_recording 2 r x).2) (recorder_init, sample_keyboard false) session in
  eval (process_record_recording 1000 (coded QK_DYNAMIC_MACRO_PLAY_1 false)) x = None.
Proof. by vm_compute. Qed.

Definition repeat_down : keyevent_t := sample_event 1 2 1000 true.
Definition repeat_up : keyevent_t := sample_event 1 2 1100 false.

(** Shift and B were the last; while they are repeated, A is typed. *)
Definition b_remembered : repeat :=
  repeat_at_start <| last_record := (sample_record 0 1 900 true) <| keycode := KC_B |> |> <| last_mods := 2 |>.

Lemma repeat_releases_what_it_pressed_witness :
  let down_ := repeat_key_invoke (process_record_repeating 2) repeat_down (b_remembered, sample_keyboard false) in
  let typed_a := exec (process_record_repeating 2 (sample_record 0 0 1050 false))
    (exec (process_record_repeating 2 (sample_record 0 0 1040 true)) down_.2) in
  let up_ := repeat_key_invoke (process_record_repeating 2) repeat_up typed_a in
  held down_.2.2 = [KC_B] /\ (shown down_.2.2).1 = 2 /\
  keycode (last_record typed_a.1) = KC_A /\ held typed_a.2 = [KC_B] /\
  exists r', keycode r' = KC_B /\ event r' = repeat_up /\
    up_.2.2 = exec (unregister_weak_mods (last_mods typed_a.1)) (exec (process_record 2 r') typed_a.2) /\
    held up_.2.2 = [].
Proof.
  intros down_ typed_a up_. split; [vm_compute; reflexivity|]. split; [vm_compute; reflexivity|].
  split; [vm_compute; reflexivity|]. split; [vm_compute; reflexivity|].
  assert (KEYCODE_IN_RECORD = true) as Hrec by reflexivity.
  assert (-127 <= last_repeat_count b_remembered <= 127) as Hr by (cbn; lia).
  assert (keycode (eval (process_record 2 ((last_record b_remembered) <| event := repeat_down |>))
    (exec (register_weak_mods (last_mods b_remembered)) (sample_keyboard false))) =
    keycode ((last_record b_remembered) <| event := repeat_down |>)) as Hkeep by (vm_compute; reflexivity).
  destruct (repeat_releases_what_it_pressed Hrec 1 repeat_down repeat_up b_remembered (sample_keyboard false)
    eq_refl Hr eq_refl eq_refl eq_refl Hkeep) as [s1 [E Hup]].
  assert (down_.2 = (s1, exec (process_record 2 ((last_record b_remembered) <| event := repeat_down |>))
    (exec (register_weak_mods (last_mods b_remembered)) (sample_keyboard false)))) as Ed by exact (f_equal snd E).
  destruct (Hup typed_a.1 typed_a.2) as (r' & s3 & Hkc & Hev & Hinv); [|reflexivity|reflexivity|].
  - rewrite <-Ed. rewrite <-surjective_pairing.
    eapply star_step; [|eapply star_step; [|apply star_refl]].
    + rewrite (surjective_pairing down_.2).
      apply (other_key 1 (sample_record 0 0 1040 true)); vm_compute; discriminate.
    + rewrite (surjective_pairing (exec _ _)).
      apply (other_key 1 (sample_record 0 0 1050 false)); vm_compute; discriminate.
  - exists r'. split; [exact Hkc|]. split; [exact Hev|]. split; [|vm_compute; reflexivity].
    rewrite <-surjective_pairing in Hinv. exact (f_equal (fun x => x.2.2) Hinv).
Defined.

(** The repeat key, then A while it is down, then the repeat key up. *)
Lemma repeat_recursion_never_ends_witness :
  let down_ := sample_record 1 2 1000 true in
  let up_ := sample_record 1 2 1100 false in
  let s1 := exec (process_record_repeating 10 down_) (repeat_at_start, sample_keyboard false) in
  let s2 := exec (process_record_repeating 10 (sample_record 0 0 1050 true)) s1 in
  eval (process_record_repeating 1000 up_) (s2.1, s2.2) = None.
Proof.
  intros down_ up_ s1 s2. assert (KEYCODE_IN_RECORD = true) as Hrec by reflexivity.
  apply (repeat_recursion_never_ends Hrec 1000 up_ s2.1 s2.2); vm_compute; reflexivity.
Defined.

Lemma alternate_of_alternate_witness :
  default_alt_keycode (default_alt_keycode KC_LEFT 0x22) 0 = Z.lor (Z.shiftl 0x12 8) KC_LEFT.
Proof.
  exact (alternate_of_alternate KC_LEFT 0x22 ltac:(by vm_compute) ltac:(by vm_compute) ltac:(by intros [? _])
    ltac:(by vm_compute)).
Defined.

(** ** Key overrides

    Shift and B are Delete; Control and C are a keycode of the keymap. *)

Definition override_build : Config := keycode_build false true.
#[local] Existing Instance override_build.

Definition shift_b_is (code : Z) : key_override_t := {|
  trigger := KC_B; trigger_mods := MOD_MASK_SHIFT; ko_layers := 0xFFFF; negative_mod_mask := 0;
  ko_suppressed_mods := MOD_MASK_SHIFT; replacement := code; ko_options := ko_options_all_activations;
  custom_action := None; ko_enabled := None;
|}.
Definition sample_overrides (code : Z) : KeyOverrideConfig := {|
  key_overrides := [shift_b_is code]; KEY_OVERRIDE_REPEAT_DELAY := 500; KEY_OVERRIDE_INCLUDE_WEAK_MODS := false;
|}.
#[local] Instance shift_b_is_delete : KeyOverrideConfig := sample_overrides KC_DELETE.

Definition b_down : keyrecord_t := sample_record 0 1 1000 true.
Definition b_up : keyrecord_t := sample_record 0 1 1100 false.
Definition shift_held : keyboard := exec (register_mods 2) (sample_keyboard false).

(** Shift, B, and what is left when B goes up. *)
Lemma override_replaces_trigger_witness :
  shown shift_held = (2, [0; 0; 0; 0; 0; 0]) /\
  exists s1 k1 s2 k2,
    process_key_override KC_B b_down (key_override_at_start, shift_held) = (false, (s1, k1)) /\
    shown k1 = (0, report_keys k1) /\ key_pressed KC_DELETE k1 = true /\ key_pressed KC_B k1 = key_pressed KC_B shift_held /\
    process_key_override KC_B b_up (s1, k1) = (true, (s2, k2)) /\
    shown k2 = (down_mods k1, report_keys k2) /\ key_pressed KC_DELETE k2 = false.
Proof.
  split; [vm_compute; reflexivity|].
  assert (key_overrides !! 0%nat = Some (shift_b_is KC_DELETE)) as H1 by reflexivity.
  assert (simple_override (shift_b_is KC_DELETE)) as H2 by (split; [done|split; [reflexivity|by intros [? _]]|by split_and!]).
  assert (may_activate (noted KC_B key_override_at_start shift_held) KC_B
    (eval (read_source_layers_cache (key (event b_down))) shift_held) true false (effective_mods KC_B true false shift_held)
    0 (shift_b_is KC_DELETE) = true) as H3 by (vm_compute; reflexivity).
  assert (synced shift_held) as H4 by (by split_and!).
  assert (reports_ok (rep shift_held)) as H5 by (split; [split; [by vm_compute|]|split; [by vm_compute|]]; vm_compute; by repeat constructor).
  assert (has_room (nkro_active shift_held) (rep shift_held) KC_DELETE) as H6
    by (intros _; left; vm_compute; apply list_elem_of_here).
  destruct (@override_replaces_trigger override_build repeating_hooks shift_b_is_delete eq_refl eq_refl eq_refl 0 (shift_b_is KC_DELETE) b_down b_up key_override_at_start shift_held
    H1 H2 eq_refl eq_refl eq_refl eq_refl H3 ltac:(lia) H4 H5 H6)
    as [(s1 & k1 & E1 & Ha1 & Ho1 & Hs1 & Hr1 & Hm1 & Hk1) Hup].
  destruct (Hup s1 k1 Ha1 Ho1 Hs1 Hr1) as (s2 & k2 & E2 & Ha2 & Hs2 & Hm2 & Hk2).
  exists s1, k1, s2, k2. split; [exact E1|]. split; [exact Hm1|].
  split; [rewrite Hk1 by done; reflexivity|]. split; [rewrite Hk1 by done; reflexivity|].
  split; [exact E2|]. split; [exact Hm2|]. rewrite Hk2 by done. reflexivity.
Defined.

(** The replacement 0x7F04 is a keycode of the keymap; at its end A, which is
    held, goes up with it. *)
Lemma custom_override_releases_another_key :
  let KC := sample_overrides 0x7F04 in
  let k := exec (register_code KC_A) shift_held in
  let s1 := exec (process_key_override KC_B b_down) (key_override_at_start, k) in
  held k = [KC_A] /\ held s1.2 = [KC_A] /\ held (exec (process_key_override KC_B b_up) s1).2 = [].
Proof. vm_compute. by split_and!. Qed.

(** ** Mouse keys

    The defaults of the code, in each mode. *)

From S2P Require Import Mousekey.

Definition mouse_build (mode : mk_mode) (int_16 : bool) : MousekeyConfig := {|
  MODE := mode; MOUSEKEY_MOVE_DELTA := match mode with Kinetic => 16 | Inertia => 1 | _ => 8 end;
  MOUSEKEY_MOVE_MAX := 127; MOUSEKEY_WHEEL_DELTA := 1; MOUSEKEY_WHEEL_MAX := 127;
  mk_delay := 1; mk_interval := match mode with Kinetic => 10 | Inertia => 16 | _ => 20 end;
  mk_max_speed := match mode with Inertia => 32 | _ => 10 end; mk_time_to_max := match mode with Inertia => 32 | _ => 30 end;
  mk_wheel_delay := 1; mk_wheel_interval_0 := match mode with Kinetic => 62 | _ => 80 end;
  mk_wheel_max_speed := 8; mk_wheel_time_to_max := 40;
  MOUSEKEY_INTERVAL := match mode with Kinetic => 10 | Inertia => 16 | _ => 20 end; MOUSEKEY_FRICTION := 24;
  mk_accelerated_speed := 3000; mk_base_speed := 5000; mk_decelerated_speed := 400; mk_initial_speed := 100;
  MOUSEKEY_WHEEL_INITIAL_MOVEMENTS := 16; MOUSEKEY_WHEEL_BASE_MOVEMENTS := 32;
  MOUSEKEY_WHEEL_ACCELERATED_MOVEMENTS := 48; MOUSEKEY_WHEEL_DECELERATED_MOVEMENTS := 8;
  c_offsets := [16; 1; 4; 32]; c_intervals := [16; 32; 16; 16]; w_offsets := [1; 1; 1; 1]; w_intervals := [40; 360; 120; 20];
  INT_16 := int_16;
|}.
Lemma mouse_build_ok mode b : @MousekeyOk (mouse_build mode b).
Proof. split; [cbn; lia|cbn; lia|..]; intros i Hi; do 4 (destruct i as [|i]; [cbn; lia|]); lia. Defined.

(** Right and down together, then the task after the delay: the pointer moves
    along the diagonal. *)
Definition diagonal_keys : list mk_event := [KeyOn KC_MS_RIGHT; Send; KeyOn KC_MS_DOWN; Send; Wait 1030].
Lemma mouse_keys_refine_witness :
  let MK := mouse_build Accelerated false in
  exists r, mk_sent (mk_run (diagonal_keys ++ [Task]) 1000) = mk_sent (mk_run diagonal_keys 1000) ++ [r] /\
    Z.sgn (mouse_x r) = 1 /\ Z.sgn (mouse_y r) = 1 /\ -127 <= mouse_x r <= 127.
Proof.
  intros MK. pose proof (mouse_build_ok Accelerated false) as Hok.
  assert (due (mk_run diagonal_keys 1000) = true) as Hdue by (by vm_compute).
  destruct (@mouse_keys_refine MK Hok diagonal_keys Task 1000 eq_refl) as (_ & rs & E & Hrs & Hone).
  destruct (Hone eq_refl Hdue) as (r & -> & Hx & Hy). exists r. apply Forall_cons in Hrs as [[[Hr _] _] _].
  split; [exact E|]. split; [exact Hx|]. split; [exact Hy|]. exact (Hr AxisX).
Defined.

(** Held for four seconds the pointer has its full speed; half a second later
    the sum has run over and it is slower than after one.  Where int has 16
    bits the product runs over before it is halved, after 3.2 seconds. *)
Lemma kinetic_speed_runs_over :
  let MK := mouse_build Kinetic false in
  let held_for t := (mousekey_at_start t) <| mousekey_repeat := 100 |> <| mouse_timer := 1 |> <| mk_now := t + 1 |> in
  move_unit (held_for 1000) = 36 /\ move_unit (held_for 4000) = 50 /\ move_unit (held_for 4500) = 8 /\
  @move_unit (mouse_build Kinetic true) (held_for 3200) = 11.
Proof. vm_compute. by split_and!. Qed.

(** Held for two seconds the wheel turns as it did at first, while its own
    counter of repetitions has long passed the time of full speed. *)
Lemma combined_wheel_is_slow :
  let MK := mouse_build Combined false in
  let s := (mousekey_at_start 0) <| mousekey_wheel_repeat := 100 |> in
  eval wheel_unit s = 1 /\ eval (@wheel_unit (mouse_build Accelerated false)) s = 8.
Proof. vm_compute. by split_and!. Qed.

(** ** Achordion

    The defaults of the code on a board that is not split: F, Shift when held,
    with a key of the other hand or of the same. *)

From S2P Require Import SendString.
From S2P Require Import Quantum.
From S2P Require Import Achordion.
From S2P Require Import AutoShift.

#[local] Existing Instance us_tables.
#[local] Existing Instance repeating_config.
#[local] Existing Instance repeating_hooks.

#[local] Instance sample_achordion : AchordionHooks := {|
  achordion_chord := achordion_chord_default false; achordion_timeout := achordion_timeout_default;
  achordion_eager_mod := achordion_eager_mod_default;
|}.
Definition SHIFT_T_F : Z := 0x2209.
Definition with_code (kc : Z) (r : keyrecord_t) : keyrecord_t := r <| State.keycode := kc |>.
Definition host_sees (k : keyboard) : list (Z * list Z) :=
  omap (fun o => match o with SendKeyboard r => Some (kb_mods r, List.filter nz (keys r)) | _ => None end) (sent (host k)).

Definition chord_with (kc c : Z) : list input :=
  let mt t down := Event SHIFT_T_F (with_code SHIFT_T_F (sample_record 0 0 t down)) in
  let other t down := Event kc (with_code kc (sample_record 0 c t down)) in
  [mt 1000 true; other 1200 true; other 1300 false; mt 1400 false].

Lemma opposite_hands_chord :
  let run i := (feeds 2 i (achordion_at_start, sample_keyboard false)).2 in
  host_sees (run (chord_with KC_J 3)) = [(2, []); (0, []); (2, []); (2, [KC_J]); (2, []); (0, [])] /\
  host_sees (run (chord_with KC_D 1)) = [(2, []); (0, []); (0, [KC_F]); (0, []); (0, [KC_D]); (0, [])].
Proof. vm_compute. by split_and!. Qed.

(** ** Auto Shift *)

#[local] Instance sample_auto_shift : AutoShiftConfig := {|
  AUTO_SHIFT_TIMEOUT := 175; AUTO_SHIFT_DISABLED_AT_STARTUP := false; AUTO_SHIFT_MODIFIERS := false;
  AUTO_SHIFT_REPEAT := true; AUTO_SHIFT_REPEAT_PER_KEY := false; AUTO_SHIFT_NO_AUTO_REPEAT := false;
  AUTO_SHIFT_NO_AUTO_REPEAT_PER_KEY := false; AUTO_SHIFT_TIMEOUT_PER_KEY := false; AUTO_SHIFT_NO_SETUP := false;
  SEND_STRING_ENABLE := true;
  get_auto_shifted_key := get_auto_shifted_key_default {|
    NO_AUTO_SHIFT_ALPHA := false; NO_AUTO_SHIFT_NUMERIC := false; NO_AUTO_SHIFT_SPECIAL := false;
    NO_AUTO_SHIFT_TAB := false; NO_AUTO_SHIFT_SYMBOLS := false; AUTO_SHIFT_ENTER := false |} (fun _ _ => false);
  get_auto_shift_repeat _ _ := true; get_auto_shift_no_auto_repeat _ _ := true; get_autoshift_timeout _ _ t := t;
  autoshift_press_user := autoshift_press_user_default;
  autoshift_release_user := autoshift_release_user_default;
|}.
#[local] Instance sample_auto_shift_default : AutoShiftDefault.
Proof. by split. Defined.

Definition a_record (t : Z) (down : bool) : keyrecord_t := with_code KC_A (sample_record 0 0 t down).
Definition keyboard_at (t : Z) (k : keyboard) : keyboard := k <| now := t |>.

(** A, held for 300 ms, is typed with Shift. *)
Lemma auto_shift_types_witness :
  let k := keyboard_at 1000 (sample_keyboard false) in
  let k' := keyboard_at 1300 (sample_keyboard false) in
  let press := process_auto_shift KC_A in
  let p := press (a_record 1000 true) (auto_shift_at_start, k) in
  let q := press (a_record 1300 false) (p.2.1, k') in
  p.1 = false /\ host p.2.2 = host k /\ q.1 = false /\
  (exists kd, sent (host kd) `prefix_of` sent (host q.2.2) /\ shown kd = (2, report_keys kd) /\ key_pressed KC_A kd = true) /\
  shown q.2.2 = (0, report_keys q.2.2) /\ key_pressed KC_A q.2.2 = false.
Proof.
  intros k k' press p q.
  assert (plain KC_A) as H1 by (split; [reflexivity|by intros [? _]]).
  assert (reports_ok (rep k')) as H2 by (split; [split; [by vm_compute|]|split; [by vm_compute|]]; vm_compute; by repeat constructor).
  assert (has_room (nkro_active k') (rep k') KC_A) as H3 by (intros _; left; vm_compute; apply list_elem_of_here).
  pose proof (@auto_shift_types repeating_config repeating_hooks us_tables sample_auto_shift sample_auto_shift_default eq_refl eq_refl
    KC_A (a_record 1000 true) (a_record 1300 false) auto_shift_at_start k k'
    eq_refl eq_refl eq_refl eq_refl H1 eq_refl eq_refl eq_refl eq_refl eq_refl eq_refl eq_refl eq_refl eq_refl
    ltac:(by split_and!) H2 eq_refl eq_refl H3) as H.
  fold press in H. change (press (a_record 1000 true) (auto_shift_at_start, k)) with p in H.
  destruct p as [passed [s1 k1]] eqn:Ep. change (press (a_record 1300 false) (s1, k')) with q in H.
  destruct q as [passed' [s2 k2]] eqn:Eq. destruct H as (E1 & E2 & E3 & _ & (kd & _ & Hpre & _ & Hshow & Hdown) & Hend & _ & Hkeys).
  cbn [fst snd]. split; [exact E1|]. split; [exact E2|]. split; [exact E3|]. split; [|split; [exact Hend|by rewrite Hkeys]].
  exists kd. split; [exact Hpre|]. split; [exact Hshow|by rewrite Hdown].
Defined.

(** [process_record] of a key: Auto Shift, then the action. *)
Definition auto_shift_key (kc t : Z) (down : bool) (s : auto_shift * keyboard) : auto_shift * keyboard :=
  let r := with_code kc (sample_record 0 0 t down) in
  let p := process_auto_shift kc r (s.1, keyboard_at t s.2) in
  if p.1 then (p.2.1, exec (process_record 2 r) p.2.2) else p.2.

(** With AUTO_SHIFT_REPEAT: a mod-tap key is held as Shift, A is held until the
    timeout, and the mod-tap key goes up before A does.  When all keys are up
    Shift is down. *)
Lemma mod_tap_shift_stays_down :
  let s1 := auto_shift_key KC_A 1000 true (auto_shift_key SHIFT_T_F 900 true (auto_shift_at_start, sample_keyboard false)) in
  let s2 := exec (autoshift_matrix_scan) (s1.1, keyboard_at 1200 s1.2) in
  let s3 := auto_shift_key KC_A 1400 false (auto_shift_key SHIFT_T_F 1300 false s2) in
  host_sees s3.2 = [(2, []); (2, [KC_A]); (2, [])] /\ real_mods (mods s3.2) = 2.
Proof. vm_compute. by split_and!. Qed.

(** Below 5 ms the timeout runs under, and no key waits for it. *)
Lemma timeout_runs_under :
  let s := auto_shift_at_start <| autoshift_timeout := 0 |> in
  autoshift_timeout (auto_shift_key QK_AUTO_SHIFT_DOWN 1000 true (s, sample_keyboard false)).1 = 65531.
Proof. by vm_compute. Qed.
