(* ===== verification/ComboSample.v ===== *)
(** * Two combos on the concrete build

    J and K together are Escape, A, S and D together Tab; the theorems of
    [ComboSpec] applied to them. *)

From S2P Require Import Prelude.
From S2P Require Import Keycodes.
From S2P Require Import Report.
From S2P Require Import State.
From S2P Require Import ActionUtil.
From S2P Require Import ActionLayer.
From S2P Require Import Action.
From S2P Require Import Tapping.
From S2P Require Import Sample.
From S2P Require Import Feature.
From S2P Require Import Combo.
From S2P Require Import ComboSpec.
From S2P Require Import FeatureSample.

#[local] Instance combo_build : Config := keycode_build true false.
#[local] Existing Instance sample_hooks.

#[local] Instance sample_combos : ComboConfig := {|
  key_combos := [ {| combo_keys := [KC_J; KC_K]; combo_keycode := KC_ESCAPE |};
                  {| combo_keys := [KC_A; KC_S; KC_D]; combo_keycode := KC_TAB |} ];
  COMBO_STATE_BITS := 8; COMBO_KEY_BUFFER_LENGTH := 8; COMBO_BUFFER_LENGTH := 4; COMBO_HOLD_TERM := 200;
  COMBO_NO_TIMER := false; COMBO_STRICT_TIMER := false;
  COMBO_MUST_HOLD_PER_COMBO := false; COMBO_MUST_HOLD_MODS := false; COMBO_ONLY_FROM_LAYER := None;
  get_combo_term _ := 50; get_combo_must_hold _ := false; get_combo_must_tap _ := false;
  get_combo_must_press_in_order _ := false; combo_should_trigger _ _ _ := true;
  combo_ref_from_layer l := l;
  pre_process_record_kb _ r := mret (true, r);
  process_combo_event _ _ := skip;
  process_combo_key_release _ _ _ := mret false;
|}.

Lemma escape_combo : own_combo 0.
Proof.
  split; try done; try (cbn; lia).
  - cbn. repeat constructor; set_solver.
  - cbn. by repeat constructor.
  - intros j kc Hj Hne Hkc. unfold combo_get, key_combos, sample_combos.
    destruct (Z.to_nat j) as [|[|[|m]]] eqn:E; [lia|..]; cbn in Hkc |- *; set_solver.
Qed.

Definition at_time (t : Z) (kc : Z) (c : Z) (is_pressed : bool) : Z * Z * keyrecord_t :=
  (t, kc, sample_record 0 c t is_pressed).
Definition jk_down : list (Z * Z * keyrecord_t) := [at_time 1000 KC_K 1 true; at_time 1030 KC_J 0 true].
Definition jk_up : list (Z * Z * keyrecord_t) := [at_time 1200 KC_K 1 false; at_time 1230 KC_J 0 false].

Definition after_down : keyboard :=
  exec (chord_down 0 (sample_record 0 0 1030 true)) ((sample_keyboard false) <| now := 1100 |>).
Definition after_up : keyboard := exec (chord_up 0) (after_down <| now := 1230 |>).

(** K and J, each as an event: nothing of them is seen, Escape is. *)
Lemma chord_types_its_keycode_witness :
  held after_down = [KC_ESCAPE] /\ held after_up = [] /\
  (swallowed ← type_combo jk_down; wait_to 1100;; combo_task;;
   swallowed' ← type_combo jk_up; mret (swallowed && swallowed')) (idle_combos 0 [0; 0; 0; 0] 0, sample_keyboard false) =
  (true, (idle_combos 0 [0; 0; 0; 0] 1, after_up)).
Proof.
  split; [vm_compute; reflexivity|]. split; [vm_compute; reflexivity|].
  assert (keys_in (sample_keyboard false) jk_down ≡ₚ combo_keys (combo_get 0)) as H1
    by (change (keys_in (sample_keyboard false) jk_down) with [KC_K; KC_J]; apply perm_swap).
  assert (keys_in after_down jk_up ≡ₚ combo_keys (combo_get 0)) as H2.
  { assert (keys_in after_down jk_up = [KC_K; KC_J]) as -> by (vm_compute; reflexivity). apply perm_swap. }
  assert (press_in_time 0 0 jk_down) as H3 by (cbn [press_in_time]; repeat split; first [done | lia | left; done | right; by vm_compute]).
  assert (get_combo_term 0 < TIMER_DIFF_16 1100 (last_timer 0 jk_down)) as H4 by (by vm_compute).
  assert (0 <= 0 < COMBO_BUFFER_LENGTH) as H5 by (cbn; lia).
  assert (0 < 1100 < 2 ^ 16) as H6 by lia.
  assert (released jk_up) as H7 by (by repeat split).
  exact (chord_types_its_keycode 0 escape_combo jk_down jk_up [0; 0; 0; 0] 0 1100 (sample_keyboard false)
    H5 eq_refl H1 H3 H6 H4 (at_time 1030 KC_J 0 true) eq_refl H2 H7).
Defined.

(** A and D without S are A and D. *)
Lemma tab_combo : own_combo 1.
Proof.
  split; try done; try (cbn; lia).
  - cbn. repeat constructor; set_solver.
  - cbn. by repeat constructor.
  - intros j kc Hj Hne Hkc. unfold combo_get, key_combos, sample_combos.
    destruct (Z.to_nat j) as [|[|m]] eqn:E; [|lia|]; cbn in Hkc |- *; set_solver.
Qed.

Definition ad_down : list (Z * Z * keyrecord_t) := [at_time 1000 KC_A 0 true; at_time 1030 KC_D 3 true].

Lemma incomplete_chord_types_its_keys_witness :
  let typed := exec (pass_records true (snd <$> ad_down)) ((sample_keyboard false) <| now := 1100 |>) in
  held typed = [KC_A; KC_D] /\
  (swallowed ← type_combo ad_down; wait_to 1100;; combo_task;; mret swallowed) (idle_combos 1 [0; 0; 0; 0] 0, sample_keyboard false) =
  (true, (idle_combos 1 [0; 0; 0; 0] 0, typed)).
Proof.
  cbv zeta. split; [vm_compute; reflexivity|].
  assert (NoDup (keys_in (sample_keyboard false) ad_down)) as H1
    by (change (keys_in (sample_keyboard false) ad_down) with [KC_A; KC_D]; repeat constructor; set_solver).
  assert (keys_in (sample_keyboard false) ad_down ⊆ combo_keys (combo_get 1)) as H2
    by (change (keys_in (sample_keyboard false) ad_down) with [KC_A; KC_D]; cbn; set_solver).
  assert (length ad_down < length (combo_keys (combo_get 1)))%nat as H3 by (apply Nat.ltb_lt; reflexivity).
  assert (ad_down <> []) as H4 by done.
  assert (press_in_time 1 0 ad_down) as H5 by (cbn [press_in_time]; repeat split; first [done | lia | left; done | right; by vm_compute]).
  assert (Forall (fun p : Z * Z * keyrecord_t => IS_NOEVENT (event p.2) = false) ad_down) as H6 by (by repeat constructor).
  assert (0 < 1100 < 2 ^ 16) as H7 by lia.
  assert (get_combo_term 1 < TIMER_DIFF_16 1100 (last_timer 0 ad_down)) as H8 by (by vm_compute).
  exact (incomplete_chord_types_its_keys 1 tab_combo ad_down [0; 0; 0; 0] 0 1100 (sample_keyboard false) H1 H2 H3 H4 H5 H6 H7 H8).
Defined.

(** ** A full ring

    The ring has no test whether it is full: when as many combos are ready as
    it has places it looks empty, and none of them fires. *)

Definition two_combos : ComboConfig := {|
  key_combos := [ {| combo_keys := [KC_A; KC_B]; combo_keycode := KC_1 |};
                  {| combo_keys := [KC_C; KC_D]; combo_keycode := KC_ESCAPE |} ];
  COMBO_STATE_BITS := 8; COMBO_KEY_BUFFER_LENGTH := 8; COMBO_BUFFER_LENGTH := 2; COMBO_HOLD_TERM := 200;
  COMBO_NO_TIMER := false; COMBO_STRICT_TIMER := false;
  COMBO_MUST_HOLD_PER_COMBO := false; COMBO_MUST_HOLD_MODS := false; COMBO_ONLY_FROM_LAYER := None;
  get_combo_term _ := 50; get_combo_must_hold _ := false; get_combo_must_tap _ := false;
  get_combo_must_press_in_order _ := false; combo_should_trigger _ _ _ := true;
  combo_ref_from_layer l := l;
  pre_process_record_kb _ r := mret (true, r);
  process_combo_event _ _ := skip;
  process_combo_key_release _ _ _ := mret false;
|}.

(** The first [n] of the keys A to D, one each millisecond, then the task. *)
Definition type_first (n : nat) : combos * keyboard :=
  exec (type_combo (CC := two_combos)
          ((fun i => at_time (1000 + Z.of_nat i) (KC_A + Z.of_nat i) (Z.of_nat i) true) <$> seq 0 n);;
        wait_to 1100;; combo_task (CC := two_combos))
    (combos_at_start (CC := two_combos), sample_keyboard false).

Lemma full_ring_looks_empty :
  held (type_first 2).2 = [KC_1] /\ held (type_first 4).2 = [KC_A; KC_B; KC_C; KC_D].
Proof. by vm_compute. Qed.
