(* ===== verification/KeyPathSample.v ===== *)
(** * A matrix of two rows and four columns

    The board of [Sample] with its pins, and the theorems of [MatrixSpec] and
    [KeyPath] applied to a switch that bounces. *)
From S2P Require Import Prelude.
From S2P Require Import Keycodes.
From S2P Require Import State.
From S2P Require Import Sample.
From S2P Require Import Debounce.
From S2P Require Import DebounceLoops.
From S2P Require Import DebounceSim.
From S2P Require Import DebounceSpec.
From S2P Require Import DebounceTheorems.
From S2P Require Import Matrix.
From S2P Require Import MatrixSpec.
From S2P Require Import KeyPath.
From S2P Require Import FeatureSample.

#[local] Existing Instance sample_config.
#[local] Existing Instance sample_hooks.

#[local] Instance five_ms : DebounceConfig := {| DEBOUNCE_MS := 5; FAST_TIMER_T_SIZE := 32 |}.
#[local] Instance sample_matrix : MatrixConfig := {|
  DIODE_DIRECTION := COL2ROW; row_pins r := 100 + r; col_pins c := 200 + c; direct_pins _ _ := NO_PIN;
  MATRIX_INPUT_PRESSED_STATE := 0; MATRIX_ROW_BITS := 8; MATRIX_HAS_GHOST := false; matrix_mask := None;
  matrix_can_read := true; should_process_keypress := true;
  matrix_scan_kb := skip; switch_events _ _ _ := skip;
|}.

(** The level of a pin while the switches [closed] are closed. *)
Definition levels (closed : list (Z * Z)) (driven : list Z) (pin : Z) : Z :=
  if existsb (fun rc => bool_decide (100 + rc.1 ∈ driven) && (pin =? 200 + rc.2)) closed then 0 else 1.

(** The second key of the first row bounces at 101 and is down from 103 on. *)
Definition bouncing_key : list (Z * (list Z -> Z -> Z)) :=
  [(100, levels []); (101, levels [(0, 1)]); (102, levels []); (103, levels [(0, 1)]);
   (105, levels [(0, 1)]); (107, levels [(0, 1)]); (109, levels [(0, 1)])].

Lemma sample_fits : 0 < MATRIX_COLS <= MATRIX_ROW_BITS /\ 0 < MATRIX_ROWS.
Proof. cbn. lia. Qed.
Lemma sample_quiet k : now (exec matrix_scan_kb k) = now k.
Proof. done. Qed.
Lemma sample_pins : pins_exist.
Proof.
  intros r c [Hr Hc]. change (100 + r <> NO_PIN /\ 200 + c <> NO_PIN). unfold NO_PIN. cbn in Hr, Hc. lia.
Qed.
Lemma sample_on_matrix : on_matrix 0 1.
Proof. unfold on_matrix. cbn. lia. Qed.

Lemma stable_switch_reaches_core_witness :
  let s0 := matrix_init (sym_defer_pk_init 2) in
  let DB := sym_defer_pk in
  held (exec (core_run bouncing_key s0) (sample_keyboard false)) = [KC_B] /\
  key_reports 0 1 (run_keys bouncing_key s0) = [true] /\
  last_report false (key_reports 0 1 (run_keys bouncing_key s0)) = true.
Proof.
  cbv zeta. split; [vm_compute; reflexivity|]. split; [vm_compute; reflexivity|].
  destruct sample_fits as [Hc Hr].
  assert (0 < DEBOUNCE_MS) as Hon by done.
  assert (timely TIMER_BITS 99 (raw_scans bouncing_key)) as Ht by (cbn -[Z.pow]; repeat split; by vm_compute).
  assert (switch_stable 0 1 true 103 bouncing_key) as Hs.
  { exists [(100, levels []); (101, levels [(0, 1)]); (102, levels [])], (103, levels [(0, 1)]),
      [(105, levels [(0, 1)]); (107, levels [(0, 1)]); (109, levels [(0, 1)])].
    split; [done|]. split; [done|]. by repeat constructor. }
  assert (103 + DEBOUNCE <= end_time 99 (raw_scans bouncing_key)) as Hlast by (by vm_compute).
  destruct (stable_switch_reaches_core Hc Hr eq_refl sample_quiet bouncing_key 0 1 true 103 99 (sample_keyboard false)
    sample_pins sample_on_matrix Hon eq_refl eq_refl Ht Hs Hlast) as [[_ H] _].
  exact H.
Defined.

Lemma key_events_alternate_witness :
  let DB := no_debounce in
  let s0 := matrix_init [0; 0] in
  key_reports 0 1 (run_keys bouncing_key s0) = [true; false; true] /\
  alternates false (key_reports 0 1 (run_keys bouncing_key s0)).
Proof.
  cbv zeta. split; [vm_compute; reflexivity|]. destruct sample_fits as [Hc Hr].
  destruct (key_events_alternate (DB := no_debounce) Hc Hr eq_refl sample_quiet
    [(100, levels []); (101, levels [(0, 1)]); (102, levels []); (103, levels [(0, 1)]); (105, levels [(0, 1)]); (107, levels [(0, 1)])]
    (109, levels [(0, 1)]) [0; 0] 0 1 (sample_keyboard false) sample_on_matrix) as (_ & H & _).
  exact H.
Defined.

(** ** Debouncing at a concrete matrix

    Two rows of four columns and a delay of 5 ms: a key that bounces, then
    stays down. *)

#[local] Existing Instance sample_config.

Definition delay (ms : Z) : DebounceConfig := {| DEBOUNCE_MS := ms; FAST_TIMER_T_SIZE := 32 |}.
#[local] Instance delay_5 : DebounceConfig := delay 5.

(** Column 1 of row 0 goes down at 100, bounces at 103, and is down for good
    from 104 on. *)
Definition bouncing : list scan := [(100, [2; 0]); (103, [0; 0]); (104, [2; 0]); (107, [2; 0])].
Definition last_scan : scan := (109, [2; 0]).

Lemma bouncing_timely (w : Z) : w = 16 \/ w = 32 -> timely w 99 (bouncing ++ [last_scan]).
Proof. intros [-> | ->]; cbn; lia. Qed.

Lemma per_key_debounce_refines_witness :
  cooked (run 2 (eager_pk_call 2) (sym_eager_pk_init 2) (bouncing ++ [last_scan])) = [2; 0] /\
  eager_key (bouncing ++ [last_scan]) (0%nat, 1%nat) = true.
Proof.
  split; [by vm_compute|].
  destruct (per_key_debounce_refines 2 99 bouncing last_scan (replicate 8 true)) as (_ & [E _] & _);
    [done|done|apply bouncing_timely; by right|].
  rewrite <-E by (by apply elem_of_cells; split; vm_compute; lia). by vm_compute.
Defined.

Lemma stable_key_is_reported_witness :
  key_bit (cooked (run 2 (pk_call 2) (sym_defer_pk_init 2) (bouncing ++ [last_scan]))) (0%nat, 1%nat) = true.
Proof.
  destruct (stable_key_is_reported 2 99 104 (bouncing ++ [last_scan])) as [Hkey _]; [done|].
  destruct (Hkey (0%nat, 1%nat) true) as [E _]; [| | | |exact E].
  - split; vm_compute; lia.
  - apply bouncing_timely. by right.
  - exists [(100, [2; 0]); (103, [0; 0])], (104, [2; 0]), [(107, [2; 0]); last_scan].
    split; [done|]. split; [done|]. repeat constructor.
  - by vm_compute.
Defined.

Lemma deferred_key_never_chatters_witness :
  exists t0, stable_since (fun m => key_bit m (0%nat, 1%nat)) true t0 (bouncing ++ [last_scan]) /\ 5 <= 109 - t0.
Proof.
  destruct (deferred_key_never_chatters 2 99 bouncing last_scan (0%nat, 1%nat)) as (t0 & Hs & Ht);
    [done|split; vm_compute; lia|apply bouncing_timely; by right|by vm_compute|].
  exists t0. split; [|exact Ht].
  assert (key_bit (cooked (run 2 (pk_call 2) (sym_defer_pk_init 2) (bouncing ++ [last_scan]))) (0%nat, 1%nat) = true)
    as E by (by vm_compute).
  rewrite E in Hs. exact Hs.
Defined.

Lemma sym_defer_pr_never_reports_witness :
  pr_cooked (@pr_run (delay 256) 2 99 (bouncing ++ [last_scan])) = [0; 0].
Proof.
  exact (@sym_defer_pr_never_reports (delay 256) 2 99 (bouncing ++ [last_scan]) eq_refl).
Defined.
